(* ===== verification/_CoqProject ===== *)
-Q . S2P
Prelude.v
CLib.v
ListHead.v
PTree.v
PTreeDisplay.v
PTreeCall.v
Burger.v
BurgerInv.v
BurgerQueue.v
BurgerProps.v
ArmPgtable.v
Vma.v
PageWalk.v
Remap.v
PageTableModule.v
VmTools.v
SyscallHooks.v
Hoare.v
SeqFile.v
SeqFileInv.v
SeqFileProps.v
Lru.v
LruInv.v
LruOps.v
LruApi.v
Rmap.v
Vmscan.v
VmscanZone.v
Watermark.v
Buddy.v
BuddyBlocks.v
BuddyInv.v
BuddyFree.v
BuddyAlloc.v
BuddyCpu.v
BuddyApi.v
BuddyProps.v
Bootmem.v
BootmemProps.v
BuddyBoot.v
BootChain.v
PageAlloc.v
PageAllocInv.v
PageAllocProps.v
Wmarks.v
WmarksProps.v
VmscanKswapd.v
VmscanInv.v
VmscanPage.v
VmscanShrink.v
VmscanIsolate.v
VmscanActive.v
VmscanInactive.v
VmscanCalls.v
VmscanSteady.v
VmscanZoneInv.v
VmscanKswapdInv.v
VmscanAging.v
VmscanProps.v
VmscanZoneProps.v
VmscanKswapdProps.v
Meminfo.v
MemoryMonitor.v
OccupyMem.v
