(* ===== verification/Prelude.v ===== *)
(** * Verification of the Android kernel projects

    This library models the programs and kernel code of two operating-system projects
    for the Android emulator (Linux 3.4.67, goldfish) and proves what they compute and
    what they keep true.  Paths below are under [src/]; [goldfish] abbreviates
    [Project 2/kernel/goldfish].

    ** The parts of the system

    - Project 1: the kernel module [ptreemodule.c] adds a system call that lists the
      process tree, the program [ptree.c] displays the listing, [ptreecall.c] runs it in a
      child process, and [BurgerBuddies.c] simulates a restaurant with threads.
    - Project 2: the kernel module [pagetable.c] adds two system calls that give a
      process the page tables of another, the programs [VATranslate.c] and
      [vm_inspector.c] use them, and the kernel's page reclaim is changed: [struct page]
      has a counter [PG_referenced] that scans increment and accesses reset.  To watch it at
      work, [occupy_mem.c] takes memory, and [memory_monitor.c] reads from [/proc/meminfo]
      how many pages are on the lists.

    The kernel code that these parts run through is modelled too: linked lists, page
    tables, lookup of memory areas, the page table walk, [remap_pfn_range], the lists of
    least recently used pages, references through page tables, the shrinking of the
    lists and zones with direct reclaim and the daemon [kswapd], the watermarks, the page
    allocator of a zone, the boot allocator and its handing over, the allocation from the zones of a node, the
    sequential files of [/proc], and the text of [/proc/meminfo].

    ** Files

    Shared: [Prelude] (32-bit integers, faults, the state-and-fault monad [M], lemmas on
    lists), [CLib] (strings and numbers of the C library), [Hoare] (running a program
    against a postcondition: [runs] includes that the program returns).

    Linked lists: [ListHead] models [goldfish/include/linux/list.h] pointer by pointer and
    shows that the operations are those on sequences.

    Process tree: [PTree] models [ptreemodule.c] on a memory of task structures ([convert],
    [dfs], the system call [ptree]); [PTreeDisplay] models [ptree.c] ([display], [main]).
    Theorems: the call lists every process depth first, releases the lock and the buffer;
    the program prints the tree with the depth of each process; what happens beyond 2048
    and beyond 256 processes and on failing copies.  [PTreeCall] models [ptreecall.c] as two
    processes that interleave, each with its output buffer: every run on a terminal ends
    with the lines of both, and without a terminal the lines of the child are lost.

    Restaurant: [Burger] gives every statement of the threads of [BurgerBuddies.c] as an
    atomic step, with a program counter per thread; [BurgerInv], [BurgerQueue] and
    [BurgerProps] prove invariants of all interleavings: mutual exclusion, no deadlock, the
    ring buffer as a list of idle cashiers, conservation of burgers and orders, dismissal
    after the last customer, and runs that exceed the rack.

    Page tables: [ArmPgtable] models the two-level tables of 32-bit ARM in a memory of
    words, with the hardware copy of each entry; [Vma] models [find_vma], [PageWalk] models
    [mm/pagewalk.c] with callbacks on any state that contains the kernel's, [Remap] models
    [remap_pfn_range] level by level.  [PageTableModule] models [pagetable.c] on top of
    them, [SyscallHooks] the installation of both modules, and [VmTools] the two programs
    with the parsing of arguments and the text they print.  Theorems: the exposed table is
    the table of the target, the programs print the translation and the present pages, and
    where a range with two tables or an end on a table boundary fails.

    Page reclaim: [Lru] models [mm_inline.h] and [mm/swap.c], [Rmap] models
    [page_referenced] of [mm/rmap.c], [Vmscan] models the part of [mm/vmscan.c] from the
    reclaim modes to [shrink_active_list].  The state is the record [lst]: the pages, the
    lists by their heads, the zones with counters and lock, the pagevecs, the address
    spaces, event counters, the pages given back to the allocator, and the reverse maps.
    The proofs follow an invariant through the code with one page in hand: [LruInv]
    (the invariant and its primitive steps), [LruOps] and [LruApi] (the functions of
    [swap.c]), [VmscanInv] (the state of a scan), [VmscanPage] (one page),
    [VmscanShrink], [VmscanIsolate], [VmscanActive], [VmscanInactive] (the loops and the
    functions), [VmscanCalls] (all calls with their contracts, as steps), [VmscanAging]
    (what a scan of the active list computes) and [VmscanProps] (the theorems).
    They show that every call within its contract returns, without deadlock, corrupted
    list, failed [BUG_ON] or lost reference; that lists, flags and counters agree in every
    reachable state; that [shrink_active_list] is a pure function of the lists and the
    counters of pages; that an accessed page survives exactly one scan; and what
    [page_check_references] decides.

    Zones and the daemon: [VmscanZone] models how much of a zone is scanned,
    [shrink_zone], [shrink_slab] and [try_to_free_pages]; [VmscanKswapd] models
    [balance_pgdat], [sleeping_prematurely], a turn of [kswapd] and [wakeup_kswapd];
    [Watermark] models [zone_watermark_ok] of [mm/page_alloc.c].  [VmscanSteady] shows what
    reclaim never changes, [VmscanZoneInv] and [VmscanKswapdInv] follow the invariant
    through these functions, and [VmscanZoneProps] and [VmscanKswapdProps] have the
    theorems: direct reclaim and every turn of the daemon return and keep the invariant,
    whatever shrinkers and other tasks do within their contracts; the check of watermarks
    decides what it should in spite of its mixed arithmetic; and what the daemon's decision
    to sleep guarantees.

    Page allocator: [Buddy] models the allocator of one zone in [mm/page_alloc.c], with the
    free lists by order and mobility type, the marks in the page frames, the counters, the
    lock, the lists of single pages of the CPU and the types of page blocks, in the record
    [zst].  [BuddyBlocks] has the combinatorics of aligned blocks (a set of merged blocks is
    determined by the pages it covers), [BuddyInv] relates the state to such a set,
    [BuddyFree] and [BuddyAlloc] follow merging, splitting and the fall-back between types,
    [BuddyCpu] the lists of the CPU, and [BuddyApi] the functions that users call, which
    refine the removal of a block from the available pages and its return.  [BuddyProps] has
    the theorems, over all sequences of allocations, uses, frees and drains: a page has one
    owner and none is lost, no request faults, a block that is freed merges to what it was
    split from, and a request that passes the watermark check is served.

    Allocation from a node: [PageAlloc] models [__alloc_pages_nodemask], with the choice of a
    zone, the dirty limits of zones, and the slow path with reserves, direct reclaim, the
    OOM killer and retries, over a [zst] per zone (record [node]).  [PageAllocInv] follows the
    owners of blocks through it, and [PageAllocProps] has the theorems: a block that is
    granted is in an allowed zone and nobody else's, requests that may fail are decided, and
    a zone with room above its low watermark serves the request at once.

    Boot: [Bootmem] models the boot allocator of [mm/bootmem.c], a bitmap of the pages of a
    node with a hint and the end of the last allocation, and [arm_bootmem_init] of
    [arch/arm/mm/init.c], which registers the memory.  [BootmemProps] shows, over all
    sequences of allocations and frees, that what is given out is memory that is not
    reserved, aligned, below the limit and never overlapping, and that a request fails only
    if no run of pages is left.  [BuddyBoot] models the set-up of a zone
    ([free_area_init_core], [memmap_init_zone]) and [free_all_bootmem_core], which hands the
    pages that were not used over to the allocator: this establishes the invariant of
    [BuddyProps] with exactly those pages, and their number is what the counters say.
    [BootChain] puts both together: no page that the allocator gives out holds a byte of
    boot memory in use.  [Wmarks] models
    [init_per_zone_wmark_min], which sets the watermarks, the blocks kept for the reserve and
    the reserves against requests for higher zones, and [lib/int_sqrt.c]; [WmarksProps] shows
    that it keeps every page, that the marks are in order, and that what the allocation from
    a node assumes of them holds.

    Watching memory: [SeqFile] models the sequential files of [fs/seq_file.c], which print
    records into a buffer that grows when a record does not fit.  [SeqFileInv] follows the
    records through reading and seeking, and [SeqFileProps] shows that any sequence of reads
    and seeks gives what a plain file would (and how a failed growth of the buffer shows
    memory to the user that was never written).  [Meminfo] models [fs/proc/meminfo.c] on the
    state of the reclaim model, [MemoryMonitor] the program that reads it through the
    buffered input of the C library: it prints the lengths of the active and of the inactive
    lists of the kernel, in kilobytes.  [OccupyMem] models [occupy_mem.c]: it writes to every
    page of a gigabyte if it gets it, and to address 0 if it does not.

    ** Conventions

    Faults (a bad address, a corrupted list, a lock taken twice, a [BUG_ON]) are values
    [Err]; a theorem that a function returns excludes them.  Loops take fuel: the number
    of list elements, of processes, of table entries or of pages to scan, each a bound on
    the iterations that is proved sufficient; running out of fuel is a fault of its own
    ([NoFuel]).  Merging takes at most one iteration per order, and a loop over a list of
    the CPU one per page to free; a read of a sequential file one per record and one per
    doubling of the buffer; a search of the boot allocator one per page of the node.  The restarts of [balance_pgdat], which the code does not
    bound, are an argument, and so are the retries of an allocation: the theorems hold for
    every number of them, and [Retrying] is the outcome when they do not suffice.  The zones
    of a node are taken to begin and end on blocks of the largest order, so that no frame is
    seen by two of them.  Machine words are
    [Z] with [u32] and [s32] written where the code wraps.

    The operations on a page that lie outside the modelled code (writing, unmapping,
    swapping, waiting) are a class [Reclaim]; what the scan relies on of them is the class
    [ReclaimLaws]: they return and touch only the given page, keep its list flags, and do
    not drop references that others hold; [ReclaimSteady] adds that they leave the zones of
    pages alone.  Shrinkers, waits and wake-ups are the class [Balance] with [BalanceLaws],
    freezing, stopping and sleeping of the daemon the class [Daemon] with [DaemonLaws]: they
    return after any number of calls and changes by other tasks that keep the invariant.
    The place and size of a zone and of the CPU's lists are the class [Allocator], and
    [CpuLists] says that batches are positive and not larger than the lists, which the
    set-up of [BuddyBoot] gives; the slab allocator is the class [Slab], and [malloc] of a
    program the class [Malloc]: both may refuse; the records of a sequential file are the
    class [Records].  The task that
    allocates, the settings of the system and what reclaims, waits or kills are the class
    [AllocEnv], and [AllocEnvLaws] says that meanwhile others allocate and free pages of
    their own only.  The layout of [struct task_struct] is the class
    [TaskLayout].

    The configuration is that of the emulator: one CPU, 32-bit ARM with two-level tables,
    high memory, no memory control groups, no huge pages, no compaction, no NUMA.

    ** Not modelled

    Isolation of page blocks for migration, the regions of [memblock] before they are
    registered, boot allocations in one of several nodes, and the division of memory into
    zones; the models of reclaim
    and of allocation have states of their own and are not joined: reclaim records the pages
    it gives back in a list, and for an allocation direct reclaim is an operation of
    [AllocEnv].  [try_to_unmap] and swapping; caches and TLBs;
    interleavings of reclaim with other tasks inside a call (calls are atomic, what others
    did is the state a call starts in); [printk]; and the rest of the stock kernel tree, that
    is drivers, file systems, networking, scheduling and other architectures, which the
    projects do not change and the modelled code does not call. *)

From stdpp Require Export base tactics list gmap strings.
From Stdlib Require Export ZArith Lia.

#[global] Open Scope Z_scope.

(** ** Machine integers

    The target is 32-bit ARM: [int], [long], [unsigned long] and pointers are
    32 bits wide.  A machine word is kept as a [Z]; [u32] and [s32] are the
    conversions to [unsigned long] and to [int]/[long]. *)

Definition u32 (z : Z) : Z := z mod 2 ^ 32.

Definition s32 (z : Z) : Z := (z + 2 ^ 31) mod 2 ^ 32 - 2 ^ 31.

Definition u64 (z : Z) : Z := z mod 2 ^ 64.

Definition is_u32 (z : Z) : Prop := 0 <= z < 2 ^ 32.

Definition is_s32 (z : Z) : Prop := - 2 ^ 31 <= z < 2 ^ 31.

Lemma u32_range z : is_u32 (u32 z).
Proof. apply Z.mod_pos_bound; lia. Qed.

Lemma u32_id z : is_u32 z → u32 z = z.
Proof. apply Z.mod_small. Qed.

Lemma s32_range z : is_s32 (s32 z).
Proof. unfold s32, is_s32. pose proof (Z.mod_pos_bound (z + 2 ^ 31) (2 ^ 32)). lia. Qed.

Lemma s32_id z : is_s32 z → s32 z = z.
Proof. unfold s32, is_s32. intros H. rewrite Z.mod_small; lia. Qed.

Lemma u32_s32 z : u32 (s32 z) = u32 z.
Proof.
  unfold u32, s32. rewrite Zminus_mod, Zmod_mod, <- Zminus_mod. f_equal. lia.
Qed.

Lemma is_u32_ones x : is_u32 x ↔ Z.land x (Z.ones 32) = x.
Proof.
  rewrite Z.land_ones by lia. unfold is_u32. split; [apply Z.mod_small|].
  intros <-. apply Z.mod_pos_bound. lia.
Qed.

Lemma is_u32_land x y : is_u32 x → is_u32 (Z.land x y).
Proof.
  rewrite !is_u32_ones. intros E. by rewrite <-Z.land_assoc, (Z.land_comm y), Z.land_assoc, E.
Qed.

Lemma is_u32_lor x y : is_u32 x → is_u32 y → is_u32 (Z.lor x y).
Proof. rewrite !is_u32_ones. intros Ex Ey. by rewrite Z.land_lor_distr_l, Ex, Ey. Qed.

(** ** Error numbers *)

Definition EAGAIN : Z := 11.
Definition ENOMEM : Z := 12.
Definition EFAULT : Z := 14.
Definition EBUSY : Z := 16.
Definition EINVAL : Z := 22.

(** ** Occurrences in a list *)

Definition occ (id : Z) (Q : list Z) : Z := foldr (λ x n, Z.b2z (x =? id) + n) 0 Q.

Lemma occ_nonneg id Q : 0 <= occ id Q.
Proof. induction Q as [|x Q IH]; simpl; [done|]. destruct (x =? id); simpl; lia. Qed.

Lemma occ_app id Q Q' : occ id (Q ++ Q') = occ id Q + occ id Q'.
Proof. induction Q; simpl; lia. Qed.

Lemma occ_elem id Q : id ∈ Q → 1 <= occ id Q.
Proof.
  induction Q as [|x Q IH]; [by intros ?%elem_of_nil|].
  pose proof (occ_nonneg id Q). intros [->|Hx]%elem_of_cons; simpl.
  - rewrite Z.eqb_refl. simpl. lia.
  - specialize (IH Hx). destruct (x =? id); simpl; lia.
Qed.

Lemma occ_NoDup Q : (∀ id, occ id Q <= 1) → NoDup Q.
Proof.
  induction Q as [|x Q IH]; intros H; constructor.
  - intros Hx%occ_elem. specialize (H x). simpl in H. rewrite Z.eqb_refl in H. simpl in H. lia.
  - apply IH. intros id. specialize (H id). simpl in H. destruct (x =? id); simpl in *; lia.
Qed.

Lemma occ_cons p q l : occ p (q :: l) = (if bool_decide (q = p) then 1 else 0) + occ p l.
Proof. simpl. case_bool_decide as E; [by subst; rewrite Z.eqb_refl|]. by rewrite (proj2 (Z.eqb_neq q p)). Qed.

(** ** Lists put together *)

Lemma elem_of_concat_fmap {A B} (f : A → list B) hs p : p ∈ concat (f <$> hs) ↔ ∃ h, h ∈ hs ∧ p ∈ f h.
Proof.
  rewrite list_elem_of_In, in_concat. split.
  - intros (L & HL & Hp). apply list_elem_of_In, list_elem_of_fmap in HL as (h & -> & Hh). exists h. split; [done|by apply list_elem_of_In].
  - intros (h & Hh & Hp). exists (f h). rewrite <- !list_elem_of_In. split; [by apply list_elem_of_fmap_2|done].
Qed.

Lemma NoDup_concat_fmap {A B} (f : A → list B) hs :
  NoDup hs → (∀ h, h ∈ hs → NoDup (f h)) →
  (∀ h h' p, h ∈ hs → h' ∈ hs → p ∈ f h → p ∈ f h' → h = h') → NoDup (concat (f <$> hs)).
Proof.
  intros Hn. induction Hn as [|h hs Hh Hn IH]; cbn; intros Hf Hd; [constructor|].
  apply NoDup_app. split_and!; [apply Hf, list_elem_of_here| |apply IH; [intros; apply Hf; by constructor|intros ??? ??; apply Hd; by constructor]].
  intros p Hp (h' & Hh' & Hp')%elem_of_concat_fmap. apply Hh. rewrite (Hd h h' p); [done|constructor|by constructor|done|done].
Qed.

(** ** Faults and the state-and-fault monad

    Code that can oops, hit a [BUG_ON] or access memory it does not own is
    written in [M S]: a function from the state to a value and a new state, or
    to the fault that stops it. *)

Inductive fault : Set :=
  | NullDeref            (** a NULL pointer is dereferenced *)
  | BadAddr (a : Z)      (** an unmapped address is read or written *)
  | OutOfBounds (i : Z)  (** an array is indexed outside its bounds *)
  | BugOn (line : Z)     (** a [BUG_ON] of the source fires *)
  | Deadlock             (** a lock is taken that its taker holds already *)
  | ListCorrupt          (** a list node is linked twice or unlinked while on no list *)
  | DivByZero            (** a division by zero *)
  | NoFuel.              (** the model's recursion bound is exhausted *)

#[global] Instance fault_eq_dec : EqDecision fault.
Proof. solve_decision. Defined.

Inductive res (A : Type) : Type :=
  | Ok (a : A)
  | Err (f : fault).
Arguments Ok {A} a.
Arguments Err {A} f.

Definition is_Ok {A} (r : res A) : Prop := ∃ a, r = Ok a.

#[global] Instance res_ret : MRet res := λ A a, Ok a.

#[global] Instance res_bind : MBind res := λ A B f r,
  match r with Ok a => f a | Err e => Err e end.

Definition M (S A : Type) : Type := S → res (A * S).

#[global] Instance M_ret S : MRet (M S) := λ A a s, Ok (a, s).

#[global] Instance M_bind S : MBind (M S) := λ A B f m s,
  match m s with Ok (a, s') => f a s' | Err e => Err e end.

Definition fail {S A} (e : fault) : M S A := λ _, Err e.

Definition gets {S A} (f : S → A) : M S A := λ s, Ok (f s, s).

Definition modify {S} (f : S → S) : M S () := λ s, Ok ((), f s).

Definition of_option {S A} (e : fault) (o : option A) : M S A :=
  match o with Some a => mret a | None => fail e end.

Definition lift_res {S A} (r : res A) : M S A := λ s,
  match r with Ok a => Ok (a, s) | Err e => Err e end.

(** [when c m] is the C statement [if (c) m;]. *)
Definition when {S} (c : bool) (m : M S ()) : M S () := if c then m else mret ().

(** [bug_on l c] is [BUG_ON(c)] at source line [l]. *)
Definition bug_on {S} (l : Z) (c : bool) : M S () := when c (fail (BugOn l)).

Section monad.
Context {S : Type}.

Lemma bind_Ok {A B} (m : M S A) (f : A → M S B) s a s' :
  m s = Ok (a, s') → (m ≫= f) s = f a s'.
Proof. unfold mbind, M_bind. by intros ->. Qed.

Lemma bind_Err {A B} (m : M S A) (f : A → M S B) s e :
  m s = Err e → (m ≫= f) s = Err e.
Proof. unfold mbind, M_bind. by intros ->. Qed.

Lemma bind_Ok_inv {A B} (m : M S A) (f : A → M S B) s b s'' :
  (m ≫= f) s = Ok (b, s'') → ∃ a s', m s = Ok (a, s') ∧ f a s' = Ok (b, s'').
Proof. unfold mbind, M_bind. destruct (m s) as [[a s']|]; naive_solver. Qed.

Lemma bind_assoc {A B C} (m : M S A) (f : A → M S B) (g : B → M S C) s :
  ((m ≫= f) ≫= g) s = (m ≫= (λ a, f a ≫= g)) s.
Proof. unfold mbind, M_bind. by destruct (m s) as [[a s']|]. Qed.

Lemma ret_Ok {A} (a : A) s : (mret a : M S A) s = Ok (a, s).
Proof. done. Qed.
End monad.

(** [mstep H] runs the first action of a monadic program whose outcome is
    known from [H]. *)
Ltac mstep H := erewrite bind_Ok by (eapply H).

(** [minv H] splits a successful run of a sequence into the runs of its
    parts. *)
Ltac minv H :=
  repeat match type of H with
  | (mbind _ _) _ = Ok (_, _) =>
      let a := fresh "a" in let s := fresh "s" in let Hm := fresh "Hm" in
      apply bind_Ok_inv in H as (a & s & Hm & H)
  end.

Create HintDb kernel.
#[export] Hint Resolve u32_range s32_range : kernel.
