(* ===== verification/CLib.v ===== *)
(** * The C library functions the user programs call

    [strlen], [strtol], [atoi] and the [printf] conversions [%d], [%u] and
    [%0<w>lx], on NUL-terminated strings (a Rocq [string] holds the characters
    before the terminator).  [long] has 32 bits and [char] is unsigned, as on the
    ARM target. *)

From Stdlib Require Import Ascii.
From stdpp Require Import pretty.
From S2P Require Import Prelude.

Definition char (c : ascii) : Z := Z.of_nat (nat_of_ascii c).

Definition of_char (z : Z) : ascii := ascii_of_nat (Z.to_nat z).

Definition strlen (s : string) : Z := Z.of_nat (String.length s).

Definition LONG_MAX : Z := 2 ^ 31 - 1.

Definition LONG_MIN : Z := - 2 ^ 31.

Definition isspace (c : ascii) : bool :=
  (char c =? 32) || ((9 <=? char c) && (char c <=? 13)).

(** The value of a digit in bases up to 36. *)
Definition digit_value (c : ascii) : option Z :=
  if (48 <=? char c) && (char c <=? 57) then Some (char c - 48)
  else if (97 <=? char c) && (char c <=? 122) then Some (char c - 97 + 10)
  else if (65 <=? char c) && (char c <=? 90) then Some (char c - 65 + 10)
  else None.

Fixpoint skip_space (s : string) : string :=
  match s with
  | String c s' => if isspace c then skip_space s' else s
  | EmptyString => s
  end.

(** The sign and the rest of the number. *)
Definition split_sign (s : string) : bool * string :=
  match s with
  | String c s' => if char c =? 45 then (true, s') else if char c =? 43 then (false, s') else (false, s)
  | EmptyString => (false, s)
  end.

(** An optional [0x] or [0X] in base 16. *)
Definition skip_prefix (base : Z) (s : string) : string :=
  match s with
  | String c (String x s') =>
      if (base =? 16) && (char c =? 48) && ((char x =? 120) || (char x =? 88)) then s' else s
  | _ => s
  end.

Fixpoint digits (base acc : Z) (s : string) : Z :=
  match s with
  | String c s' =>
      match digit_value c with
      | Some d => if d <? base then digits base (acc * base + d) s' else acc
      | None => acc
      end
  | EmptyString => acc
  end.

Definition clamp (z : Z) : Z := Z.max LONG_MIN (Z.min LONG_MAX z).

Definition strtol (s : string) (base : Z) : Z :=
  let '(neg, s) := split_sign (skip_space s) in
  let v := digits base 0 (skip_prefix base s) in
  clamp (if neg then - v else v).

Definition atoi (s : string) : Z := strtol s 10.

(** ** Conversions of [printf] *)

Definition hex_char (d : Z) : ascii := if d <? 10 then of_char (48 + d) else of_char (87 + d).

(** The [n] lowest hexadecimal digits of [z]. *)
Fixpoint hex_digits (n : nat) (z : Z) (acc : string) : string :=
  match n with
  | O => acc
  | S n => hex_digits n (z / 16) (String (hex_char (z mod 16)) acc)
  end.

(** The number of hexadecimal digits of a 32-bit word, at least 1. *)
Definition hex_width (z : Z) : nat := if z =? 0 then 1 else Z.to_nat (Z.log2 z / 4 + 1).

(** [%0<w>lx] *)
Definition fmt_hex (w : nat) (z : Z) : string := hex_digits (Nat.max w (hex_width z)) z "".

Definition newline : string := String "010"%char "".

Definition tab : string := String "009"%char "".

(** ** Strings of hexadecimal digits *)

Definition is_hex (c : ascii) : bool :=
  match digit_value c with Some d => d <? 16 | None => false end.

Fixpoint hex_string (s : string) : bool :=
  match s with EmptyString => true | String c s => is_hex c && hex_string s end.

(** The number that a string of hexadecimal digits denotes. *)
Fixpoint hex_value (s : string) : Z :=
  match s with
  | EmptyString => 0
  | String c s =>
      match digit_value c with Some d => d | None => 0 end * 16 ^ strlen s + hex_value s
  end.

Lemma ascii_cases (Pr : ascii → Prop) :
  Forall Pr (ascii_of_nat <$> seq 0 256) → ∀ c, Pr c.
Proof.
  intros HF c. rewrite Forall_forall in HF. apply HF.
  rewrite <- (ascii_nat_embedding c). apply list_elem_of_fmap. eexists. split; [done|].
  apply elem_of_seq. pose proof (nat_ascii_bounded c). lia.
Qed.

(** A test that all characters pass. *)
Lemma ascii_all (f : ascii → bool) : forallb f (ascii_of_nat <$> seq 0 256) = true → ∀ c, f c = true.
Proof.
  intros Hf. apply ascii_cases, Forall_forall. intros c Hc. rewrite forallb_forall in Hf.
  by apply Hf, list_elem_of_In.
Qed.

Lemma hex_char_value d : 0 <= d < 16 → digit_value (hex_char d) = Some d.
Proof.
  intros Hd.
  assert (d ∈ (Z.of_nat <$> seq 0 16)) as Hin.
  { apply list_elem_of_fmap. exists (Z.to_nat d). split; [lia|]. apply elem_of_seq. lia. }
  assert (Forall (λ d, digit_value (hex_char d) = Some d) (Z.of_nat <$> seq 0 16)) as HF
    by (repeat constructor).
  rewrite Forall_forall in HF. by apply HF.
Qed.

Lemma is_hex_value c : is_hex c = true → ∃ d, digit_value c = Some d ∧ 0 <= d < 16.
Proof.
  unfold is_hex. destruct (digit_value c) as [d|] eqn:Hd; [|done]. intros Hlt%Z.ltb_lt.
  exists d. split; [done|]. split; [|done]. revert Hd. unfold digit_value.
  repeat case_match; intros; simplify_eq; lia.
Qed.

Lemma strlen_cons c s : strlen (String c s) = strlen s + 1.
Proof. unfold strlen. simpl. lia. Qed.

Lemma strlen_nonneg s : 0 <= strlen s.
Proof. unfold strlen. lia. Qed.

Lemma digits_hex acc s :
  hex_string s = true → digits 16 acc s = acc * 16 ^ strlen s + hex_value s.
Proof.
  revert acc. induction s as [|c s IH]; intros acc Hs; [change (strlen EmptyString) with 0; simpl; lia|]. cbn [hex_string] in Hs.
  apply andb_true_iff in Hs as [(d & Hd & Hlt)%is_hex_value Hs].
  cbn [digits hex_value]. rewrite Hd, (proj2 (Z.ltb_lt _ _)), IH by (done || lia).
  rewrite strlen_cons, Z.pow_add_r by (pose proof (strlen_nonneg s); lia). nia.
Qed.

Lemma hex_value_range s : hex_string s = true → 0 <= hex_value s < 16 ^ strlen s.
Proof.
  induction s as [|c s IH]; intros Hs; [change (strlen EmptyString) with 0; simpl; lia|]. cbn [hex_string] in Hs.
  apply andb_true_iff in Hs as [(d & Hd & Hlt)%is_hex_value Hs]. specialize (IH Hs).
  cbn [hex_value]. rewrite Hd, strlen_cons, Z.pow_add_r by (pose proof (strlen_nonneg s); lia). nia.
Qed.
