(* ===== verification/ListHead.v ===== *)
(** * The kernel's circular doubly linked lists

    Models [include/linux/list.h] on a heap of [struct list_head] nodes, with
    every pointer write in the order of the source, and shows that each
    operation implements the operation on sequences it is meant to be. *)

From S2P Require Import Prelude.

(** ** The heap of list nodes

    The [next] and the [prev] fields of the nodes, by node address.  An address
    outside the maps is not a node: reading or writing it is a fault. *)

Record list_heap := ListHeap { nxt : gmap Z Z; prv : gmap Z Z }.

Definition get_next (a : Z) : M list_heap Z := λ h,
  match nxt h !! a with Some v => Ok (v, h) | None => Err (BadAddr a) end.

Definition get_prev (a : Z) : M list_heap Z := λ h,
  match prv h !! a with Some v => Ok (v, h) | None => Err (BadAddr a) end.

Definition set_next (a v : Z) : M list_heap () := λ h,
  match nxt h !! a with
  | Some _ => Ok ((), ListHeap (<[a := v]> (nxt h)) (prv h))
  | None => Err (BadAddr a)
  end.

Definition set_prev (a v : Z) : M list_heap () := λ h,
  match prv h !! a with
  | Some _ => Ok ((), ListHeap (nxt h) (<[a := v]> (prv h)))
  | None => Err (BadAddr a)
  end.

(** The poison values of [include/linux/poison.h] ([POISON_POINTER_DELTA] is 0
    on 32-bit ARM). *)
Definition LIST_POISON1 : Z := 0x00100100.

Definition LIST_POISON2 : Z := 0x00200200.

(** ** The operations of [list.h] *)

Definition INIT_LIST_HEAD (list : Z) : M list_heap () :=
  set_next list list;;
  set_prev list list.

Definition __list_add (new prev next : Z) : M list_heap () :=
  set_prev next new;;
  set_next new next;;
  set_prev new prev;;
  set_next prev new.

Definition list_add (new head : Z) : M list_heap () :=
  n ← get_next head;
  __list_add new head n.

Definition list_add_tail (new head : Z) : M list_heap () :=
  p ← get_prev head;
  __list_add new p head.

Definition __list_del (prev next : Z) : M list_heap () :=
  set_prev next prev;;
  set_next prev next.

Definition __list_del_entry (entry : Z) : M list_heap () :=
  p ← get_prev entry;
  n ← get_next entry;
  __list_del p n.

Definition list_del (entry : Z) : M list_heap () :=
  p ← get_prev entry;
  n ← get_next entry;
  __list_del p n;;
  set_next entry LIST_POISON1;;
  set_prev entry LIST_POISON2.

Definition list_replace (old new : Z) : M list_heap () :=
  n ← get_next old;
  set_next new n;;
  n' ← get_next new;
  set_prev n' new;;
  p ← get_prev old;
  set_prev new p;;
  p' ← get_prev new;
  set_next p' new.

Definition list_replace_init (old new : Z) : M list_heap () :=
  list_replace old new;;
  INIT_LIST_HEAD old.

Definition list_del_init (entry : Z) : M list_heap () :=
  __list_del_entry entry;;
  INIT_LIST_HEAD entry.

Definition list_move (list head : Z) : M list_heap () :=
  __list_del_entry list;;
  list_add list head.

Definition list_move_tail (list head : Z) : M list_heap () :=
  __list_del_entry list;;
  list_add_tail list head.

Definition list_is_last (list head : Z) : M list_heap bool :=
  n ← get_next list;
  mret (n =? head).

Definition list_empty (head : Z) : M list_heap bool :=
  n ← get_next head;
  mret (n =? head).

Definition list_empty_careful (head : Z) : M list_heap bool :=
  next ← get_next head;
  if next =? head
  then p ← get_prev head; mret (next =? p)
  else mret false.

Definition list_rotate_left (head : Z) : M list_heap () :=
  e ← list_empty head;
  if negb e
  then first ← get_next head; list_move_tail first head
  else mret ().

Definition list_is_singular (head : Z) : M list_heap bool :=
  e ← list_empty head;
  if negb e
  then n ← get_next head; p ← get_prev head; mret (n =? p)
  else mret false.

Definition __list_cut_position (list head entry : Z) : M list_heap () :=
  new_first ← get_next entry;
  n ← get_next head;
  set_next list n;;
  n' ← get_next list;
  set_prev n' list;;
  set_prev list entry;;
  set_next entry list;;
  set_next head new_first;;
  set_prev new_first head.

Definition list_cut_position (list head entry : Z) : M list_heap () :=
  e ← list_empty head;
  if (e : bool) then mret () else
  s ← list_is_singular head;
  n ← get_next head;
  if s && (negb (n =? entry) && negb (head =? entry)) then mret () else
  if entry =? head
  then INIT_LIST_HEAD list
  else __list_cut_position list head entry.

Definition __list_splice (list prev next : Z) : M list_heap () :=
  first ← get_next list;
  last ← get_prev list;
  set_prev first prev;;
  set_next prev first;;
  set_next last next;;
  set_prev next last.

Definition list_splice (list head : Z) : M list_heap () :=
  e ← list_empty list;
  if negb e
  then n ← get_next head; __list_splice list head n
  else mret ().

Definition list_splice_tail (list head : Z) : M list_heap () :=
  e ← list_empty list;
  if negb e
  then p ← get_prev head; __list_splice list p head
  else mret ().

Definition list_splice_init (list head : Z) : M list_heap () :=
  e ← list_empty list;
  if negb e
  then n ← get_next head; __list_splice list head n;; INIT_LIST_HEAD list
  else mret ().

Definition list_splice_tail_init (list head : Z) : M list_heap () :=
  e ← list_empty list;
  if negb e
  then p ← get_prev head; __list_splice list p head;; INIT_LIST_HEAD list
  else mret ().

(** [list_for_each(pos, head)]: the nodes the cursor visits.  The loop has no
    bound of its own; [fuel] bounds it in the model, and [list_for_each_spec]
    shows that the length of the list is enough. *)
Fixpoint list_for_each_from (fuel : nat) (pos head : Z) : M list_heap (list Z) :=
  if pos =? head then mret [] else
  match fuel with
  | O => fail NoFuel
  | S fuel =>
      n ← get_next pos;
      rest ← list_for_each_from fuel n head;
      mret (pos :: rest)
  end.

Definition list_for_each (fuel : nat) (head : Z) : M list_heap (list Z) :=
  pos ← get_next head;
  list_for_each_from fuel pos head.

(** ** Well-formed lists

    [is_list h hd xs]: [hd] is the head of a well-formed circular list whose
    entries are [xs], in the order of the [next] pointers. *)

Definition linked (h : list_heap) (a b : Z) : Prop :=
  nxt h !! a = Some b ∧ prv h !! b = Some a.

Fixpoint path (h : list_heap) (a : Z) (xs : list Z) (b : Z) : Prop :=
  match xs with
  | [] => linked h a b
  | x :: xs => linked h a x ∧ path h x xs b
  end.

Definition is_list (h : list_heap) (hd : Z) (xs : list Z) : Prop :=
  NoDup (hd :: xs) ∧ path h hd xs hd.

(** [node h a]: [a] is the address of an allocated list node. *)
Definition node (h : list_heap) (a : Z) : Prop :=
  is_Some (nxt h !! a) ∧ is_Some (prv h !! a).

(** [same_outside h h' S]: the nodes that are not in [S] are untouched. *)
Definition same_outside (h h' : list_heap) (S : list Z) : Prop :=
  ∀ z, z ∉ S → nxt h' !! z = nxt h !! z ∧ prv h' !! z = prv h !! z.

(** [finishes m h Q]: the operation [m], run in [h], returns without a fault
    in a heap that satisfies [Q]. *)
Definition finishes (m : M list_heap ()) (h : list_heap) (Q : list_heap → Prop) : Prop :=
  ∃ h', m h = Ok ((), h') ∧ Q h'.

Section paths.
Implicit Types (h : list_heap) (xs ys zs : list Z).

Lemma path_app h a xs y ys b :
  path h a (xs ++ y :: ys) b ↔ path h a xs y ∧ path h y ys b.
Proof. revert a. induction xs as [|x xs IH]; intros a; simpl; [done|]. rewrite IH. tauto. Qed.

Lemma path_frame h h' a xs b :
  (∀ z, z ∈ a :: xs → nxt h' !! z = nxt h !! z) →
  (∀ z, z ∈ xs ++ [b] → prv h' !! z = prv h !! z) →
  path h a xs b → path h' a xs b.
Proof.
  revert a. induction xs as [|x xs IH]; intros a Hn Hp; simpl; unfold linked.
  - intros [??]. rewrite Hn, Hp by set_solver. done.
  - intros [[] Hxs]. rewrite Hn, Hp by set_solver. split; [done|].
    apply IH, Hxs; set_solver.
Qed.

Lemma path_insert_next N P a xs b k v :
  k ∉ a :: xs → path (ListHeap N P) a xs b → path (ListHeap (<[k := v]> N) P) a xs b.
Proof.
  intros Hk. apply path_frame; intros z Hz; [|done]. simpl.
  rewrite lookup_insert_ne; [done|]. by intros ->.
Qed.

Lemma path_insert_prev N P a xs b k v :
  k ∉ xs ++ [b] → path (ListHeap N P) a xs b → path (ListHeap N (<[k := v]> P)) a xs b.
Proof.
  intros Hk. apply path_frame; intros z Hz; [done|]. simpl.
  rewrite lookup_insert_ne; [done|]. by intros ->.
Qed.

(** A circular list can be entered at any of its nodes. *)
Lemma is_list_rotate h a xs b ys :
  is_list h a (xs ++ b :: ys) ↔ is_list h b (ys ++ a :: xs).
Proof.
  unfold is_list. rewrite !path_app.
  assert (a :: xs ++ b :: ys ≡ₚ b :: ys ++ a :: xs) as ->.
  { apply (Permutation_app_comm (a :: xs) (b :: ys)). }
  tauto.
Qed.

Lemma is_list_frame h h' hd xs S :
  same_outside h h' S → (∀ z, z ∈ hd :: xs → z ∉ S) →
  is_list h hd xs → is_list h' hd xs.
Proof.
  intros Hs HS [Hnd Hp]. split; [done|].
  eapply path_frame, Hp; intros z Hz; apply Hs, HS; set_solver.
Qed.

Lemma same_outside_trans h1 h2 h3 S :
  same_outside h1 h2 S → same_outside h2 h3 S → same_outside h1 h3 S.
Proof. intros H1 H2 z Hz. destruct (H1 z Hz), (H2 z Hz). split; congruence. Qed.

Lemma same_outside_mono h h' S T :
  same_outside h h' S → S ⊆ T → same_outside h h' T.
Proof. intros H HST z Hz. apply H. set_solver. Qed.

Definition first (hd : Z) xs : Z := default hd (head xs).
Definition final (hd : Z) xs : Z := default hd (last xs).

Lemma is_list_next h hd xs : is_list h hd xs → nxt h !! hd = Some (first hd xs).
Proof. intros [_ Hp]. destruct xs; apply Hp. Qed.

Lemma is_list_prev h hd xs : is_list h hd xs → prv h !! hd = Some (final hd xs).
Proof.
  intros [_ Hp]. unfold final. destruct xs as [|x xs _] using rev_ind; [apply Hp|].
  rewrite last_snoc. apply path_app in Hp. apply Hp.
Qed.

Lemma is_list_nodup h hd xs : is_list h hd xs → NoDup (hd :: xs).
Proof. intros [H _]. done. Qed.

Lemma is_list_node h hd xs a : is_list h hd xs → a ∈ hd :: xs → node h a.
Proof.
  intros Hl [->|Ha]%elem_of_cons.
  - split; [rewrite (is_list_next _ _ _ Hl)|rewrite (is_list_prev _ _ _ Hl)]; eauto.
  - apply list_elem_of_split in Ha as (l1 & l2 & ->).
    apply is_list_rotate in Hl.
    split; [rewrite (is_list_next _ _ _ Hl)|rewrite (is_list_prev _ _ _ Hl)]; eauto.
Qed.

Lemma set_next_ok h a v :
  node h a → set_next a v h = Ok ((), ListHeap (<[a := v]> (nxt h)) (prv h)).
Proof. intros [[x Hx] _]. unfold set_next. by rewrite Hx. Qed.

Lemma set_prev_ok h a v :
  node h a → set_prev a v h = Ok ((), ListHeap (nxt h) (<[a := v]> (prv h))).
Proof. intros [_ [x Hx]]. unfold set_prev. by rewrite Hx. Qed.

Lemma get_next_ok h a v : nxt h !! a = Some v → get_next a h = Ok (v, h).
Proof. unfold get_next. by intros ->. Qed.

Lemma get_prev_ok h a v : prv h !! a = Some v → get_prev a h = Ok (v, h).
Proof. unfold get_prev. by intros ->. Qed.

Lemma node_insert_next h a b v :
  node h b → node (ListHeap (<[a := v]> (nxt h)) (prv h)) b.
Proof.
  intros [[x Hx] [y Hy]]. split; simpl; [|eauto].
  destruct (decide (a = b)) as [->|]; simplify_map_eq; eauto.
Qed.

Lemma node_insert_prev h a b v :
  node h b → node (ListHeap (nxt h) (<[a := v]> (prv h))) b.
Proof.
  intros [[x Hx] [y Hy]]. split; simpl; [eauto|].
  destruct (decide (a = b)) as [->|]; simplify_map_eq; eauto.
Qed.
End paths.

#[export] Hint Resolve node_insert_next node_insert_prev is_list_node : kernel.

(** [hstep] runs one primitive access of a list operation; its side conditions
    are that the nodes it touches are allocated. *)
Ltac hstep :=
  first
    [ erewrite bind_Ok by (apply set_next_ok; eauto 10 with kernel)
    | erewrite bind_Ok by (apply set_prev_ok; eauto 10 with kernel)
    | erewrite bind_Ok by (apply get_next_ok; simpl; simplify_map_eq; eauto with kernel)
    | erewrite bind_Ok by (apply get_prev_ok; simpl; simplify_map_eq; eauto with kernel)
    | rewrite set_next_ok by eauto 10 with kernel
    | rewrite set_prev_ok by eauto 10 with kernel ].

(** [notin] proves that a node is not one of the nodes of a list from the
    facts in the context; [path_frames] shows that writes to other nodes keep a
    path. *)
Ltac notin :=
  rewrite ?not_elem_of_app, ?not_elem_of_cons; split_and?;
  first [done | apply not_elem_of_nil | by apply not_eq_sym].

Ltac path_frames :=
  repeat first [apply path_insert_next; [notin|] | apply path_insert_prev; [notin|]].

(** ** The operations on a list entered at the node they act after

    [insert_after] and [delete_after] carry the pointer reasoning: every
    operation on a list entered at its head follows by rotating the list. *)

Section rings.
Implicit Types (h : list_heap) (xs ys zs : list Z).

Lemma insert_after h p zs new :
  is_list h p zs → node h new → new ∉ p :: zs →
  finishes (__list_add new p (first p zs)) h (λ h',
    is_list h' p (new :: zs) ∧ same_outside h h' (new :: p :: zs)).
Proof.
  intros Hl Hnew Hfresh. pose proof Hl as [Hnd Hp].
  assert (node h (first p zs)) by (eapply is_list_node; [done|]; destruct zs; set_solver).
  assert (node h p) by (eapply is_list_node; [done|]; set_solver).
  eexists; unfold __list_add; split; [repeat hstep; cbn [nxt prv]; done|].
  split; [split|].
  - rewrite !NoDup_cons in *. set_solver.
  - destruct zs as [|z zs]; simpl in *; unfold linked; simpl.
    + assert (new ≠ p) by set_solver. by simplify_map_eq.
    + assert (new ≠ p ∧ new ≠ z ∧ p ≠ z) as (? & ? & ?).
      { apply NoDup_cons in Hnd as [Hnd _]. set_solver. }
      simplify_map_eq. split; [done|]. split; [done|].
      eapply path_frame, Hp; simpl; intros y Hy.
      * apply NoDup_cons in Hnd as [? _]. rewrite !lookup_insert_ne; set_solver.
      * apply NoDup_cons in Hnd as [? [? _]%NoDup_cons].
        rewrite !lookup_insert_ne; set_solver.
  - intros y Hy. simpl. rewrite !lookup_insert_ne; [done|..]; destruct zs; set_solver.
Qed.

Lemma delete_after h p e zs :
  is_list h p (e :: zs) →
  finishes (__list_del p (first p zs)) h (λ h',
    is_list h' p zs ∧ same_outside h h' (p :: zs)).
Proof.
  intros Hl. pose proof Hl as [Hnd [Hpe Hp]].
  assert (node h (first p zs)) by (eapply is_list_node; [done|]; destruct zs; set_solver).
  assert (node h p) by (eapply is_list_node; [done|]; set_solver).
  assert (NoDup (p :: zs)) as Hnd'.
  { apply NoDup_cons in Hnd as [? [??]%NoDup_cons]. apply NoDup_cons; set_solver. }
  eexists; unfold __list_del; split; [repeat hstep; cbn [nxt prv]; done|].
  split; [split; [done|]|].
  - destruct zs as [|z zs]; simpl in *; unfold linked; simpl; simplify_map_eq; [done|].
    split; [done|]. destruct Hp as [_ Hp].
    apply NoDup_cons in Hnd' as [? [? _]%NoDup_cons].
    eapply path_frame, Hp; simpl; intros y Hy; rewrite !lookup_insert_ne; set_solver.
  - intros y Hy. simpl. rewrite !lookup_insert_ne; [done|..]; destruct zs; set_solver.
Qed.

Lemma link_path h p ys y n zs b :
  path h p ys y → linked h y n → path h n zs b → path h p (ys ++ y :: n :: zs) b.
Proof. intros H1 H2 H3. apply path_app. split; [done|]. by split. Qed.

(** The pointer writes of [__list_splice], for a list [x .. y] of at least
    two entries put between [p] and its successor [n]. *)
Lemma splice_path N P p zs l x ys y :
  NoDup (p :: zs) → NoDup (l :: x :: ys ++ [y]) →
  (∀ z, z ∈ x :: ys ++ [y] → z ∉ p :: zs) →
  path (ListHeap N P) p zs p → path (ListHeap N P) l (x :: ys ++ [y]) l →
  path (ListHeap (<[y := first p zs]> (<[p := x]> N)) (<[first p zs := y]> (<[x := p]> P)))
    p (x :: ys ++ y :: zs) p.
Proof.
  intros Hnd1 Hnd2 Hdisj Hp [_ [Hl _]%path_app].
  assert (y ≠ p ∧ x ≠ p ∧ x ≠ y ∧ p ∉ ys ∧ x ∉ ys ∧ y ∉ ys ∧ y ∉ zs ∧ x ∉ zs
          ∧ (∀ z, z ∈ ys → z ∉ zs)) as (?&?&?&?&?&?&?&?&Hyz).
  { clear Hp Hl. rewrite !NoDup_cons, NoDup_app in Hnd2. set_solver. }
  assert (first p zs ≠ x ∧ first p zs ∉ ys ∧ first p zs ≠ y) as (?&?&?).
  { destruct zs as [|z zs]; simpl; [done|]. clear Hp Hl Hnd1 Hnd2 Hdisj. set_solver. }
  apply NoDup_cons in Hnd1 as [Hnd1 Hndz]. clear Hnd2 Hdisj.
  rewrite app_comm_cons. apply (path_app _ _ (x :: ys)). split; [split|].
  - unfold linked; simpl. by simplify_map_eq.
  - by path_frames.
  - destruct zs as [|z zs]; simpl in *; unfold linked; simpl; simplify_map_eq; [done|].
    split; [done|]. destruct Hp as [_ Hp]. apply NoDup_cons in Hndz as [??].
    rewrite not_elem_of_cons in *. destruct_and?. by path_frames.
Qed.

(** The same for a list of one entry. *)
Lemma splice_path_one N P p zs x :
  NoDup (p :: zs) → x ∉ p :: zs →
  path (ListHeap N P) p zs p →
  path (ListHeap (<[x := first p zs]> (<[p := x]> N)) (<[first p zs := x]> (<[x := p]> P)))
    p (x :: zs) p.
Proof.
  intros [Hnd Hndz]%NoDup_cons [Hxp Hx]%not_elem_of_cons Hp.
  destruct zs as [|z zs]; simpl in *; unfold linked; simpl; [by simplify_map_eq|].
  rewrite not_elem_of_cons in *. apply NoDup_cons in Hndz as [??]. destruct_and?.
  simplify_map_eq. do 2 (split; [done|]). by path_frames.
Qed.

Lemma splice_after h p zs l ys :
  is_list h p zs → is_list h l ys → ys ≠ [] →
  (∀ z, z ∈ l :: ys → z ∉ p :: zs) →
  finishes (__list_splice l p (first p zs)) h (λ h',
    is_list h' p (ys ++ zs) ∧ same_outside h h' (p :: ys ++ zs)).
Proof.
  intros Hp Hl Hne Hdisj.
  assert (node h (first p zs)) by (eapply (is_list_node _ _ _ _ Hp); destruct zs; set_solver).
  assert (node h p) by (eapply (is_list_node _ _ _ _ Hp); set_solver).
  assert (node h (first l ys)) by (eapply (is_list_node _ _ _ _ Hl); destruct ys; set_solver).
  assert (final l ys ∈ ys) as Hfin.
  { destruct ys as [|y ys _] using rev_ind; [done|].
    unfold final. rewrite last_snoc. set_solver. }
  assert (node h (final l ys)) by (eapply (is_list_node _ _ _ _ Hl); set_solver).
  pose proof (is_list_next _ _ _ Hl) as Hln. pose proof (is_list_prev _ _ _ Hl) as Hlp.
  eexists (ListHeap (<[final l ys := first p zs]> (<[p := first l ys]> (nxt h)))
             (<[first p zs := final l ys]> (<[first l ys := p]> (prv h)))).
  split; [unfold __list_splice; repeat hstep; done|].
  destruct h as [N P], Hp as [Hnd1 Hp], Hl as [Hnd2 Hl]. simpl in *. split; [split|].
  - clear -Hnd1 Hnd2 Hdisj. rewrite !NoDup_cons, NoDup_app in *. set_solver.
  - destruct ys as [|x ys]; [done|]. destruct ys as [|y ys _] using rev_ind.
    + apply splice_path_one; [done| |done]. clear -Hdisj. set_solver.
    + assert (final l (x :: ys ++ [y]) = y) as -> by (unfold final; by rewrite app_comm_cons, last_snoc).
      simpl. rewrite <- app_assoc. simpl.
      apply (splice_path _ _ _ _ l); [done|done| |done|done].
      intros z Hz. by apply Hdisj, elem_of_cons; right.
  - assert (first l ys ∈ ys) as Hf1 by (clear -Hne; destruct ys; set_solver).
    assert (first p zs ∈ p :: zs) as Hf2 by (destruct zs; set_solver).
    intros u Hu. simpl. rewrite !lookup_insert_ne; [done|..]; clear -Hfin Hf1 Hf2 Hu; set_solver.
Qed.
End rings.

(** ** What the operations do to a list and its entries *)

Section specs.
Implicit Types (h : list_heap) (xs ys zs : list Z).

Lemma finishes_bind m k h (Q R : list_heap → Prop) :
  finishes m h Q → (∀ h', Q h' → finishes k h' R) → finishes (m;; k) h R.
Proof.
  intros (h' & Hm & HQ) Hk. destruct (Hk h' HQ) as (h'' & Hk' & HR).
  exists h''. split; [|done]. by mstep Hm.
Qed.

Lemma finishes_read {A} (m : M list_heap A) k h a (Q : list_heap → Prop) :
  m h = Ok (a, h) → finishes (k a) h Q → finishes (m ≫= k) h Q.
Proof. intros Hm (h' & Hk & HQ). exists h'. split; [|done]. by mstep Hm. Qed.

Lemma finishes_ret h (Q : list_heap → Prop) : Q h → finishes (mret ()) h Q.
Proof. intros HQ. by exists h. Qed.

Lemma finishes_mono m h (Q R : list_heap → Prop) :
  finishes m h Q → (∀ h', Q h' → R h') → finishes m h R.
Proof. intros (h' & ? & ?) HQR. exists h'. eauto. Qed.

(** The predecessor of an entry, and the list entered there. *)
Lemma is_list_at h hd xs e ys :
  is_list h hd (xs ++ e :: ys) →
  ∃ zs, is_list h (final hd xs) (e :: zs) ∧
    prv h !! e = Some (final hd xs) ∧ nxt h !! e = Some (first (final hd xs) zs) ∧
    final hd xs :: zs ≡ₚ hd :: xs ++ ys ∧
    ∀ h', is_list h' (final hd xs) zs → is_list h' hd (xs ++ ys).
Proof.
  unfold final. destruct xs as [|p xs _] using rev_ind; simpl; intros Hl.
  - exists ys. split_and!; try done; destruct Hl as [_ [[??] ?]]; [done|].
    destruct ys; apply H1.
  - rewrite last_snoc. simpl. exists (ys ++ hd :: xs). rewrite <- app_assoc in Hl. simpl in Hl.
    apply is_list_rotate in Hl. simpl in Hl.
    split_and!; try done.
    + apply Hl.
    + destruct Hl as [_ [_ Hl]]. by destruct ys; apply Hl.
    + rewrite <- app_assoc. simpl. apply (Permutation_app_comm (p :: ys) (hd :: xs)).
    + intros h' Hl'. rewrite <- app_assoc. by apply is_list_rotate.
Qed.

Lemma INIT_LIST_HEAD_spec h l :
  node h l →
  finishes (INIT_LIST_HEAD l) h (λ h', is_list h' l [] ∧ same_outside h h' [l]).
Proof.
  intros Hl. eexists. split; [unfold INIT_LIST_HEAD; repeat hstep; done|].
  split; [split; [apply NoDup_singleton|]|].
  - unfold path, linked; simpl. by simplify_map_eq.
  - intros z Hz. simpl. rewrite !lookup_insert_ne; set_solver.
Qed.

Lemma __list_del_entry_spec h hd xs e ys :
  is_list h hd (xs ++ e :: ys) →
  finishes (__list_del_entry e) h (λ h',
    is_list h' hd (xs ++ ys) ∧ same_outside h h' (hd :: xs ++ ys)).
Proof.
  intros Hl. destruct (is_list_at _ _ _ _ _ Hl) as (zs & Hl' & Hp & Hn & Hperm & Hback).
  destruct (delete_after _ _ _ _ Hl') as (h' & Hrun & Hdel & Hsame).
  exists h'. split; [unfold __list_del_entry; by repeat hstep|].
  split; [by apply Hback|]. eapply same_outside_mono; [done|]. by rewrite Hperm.
Qed.

Lemma same_outside_node h h' S a : same_outside h h' S → a ∉ S → node h a → node h' a.
Proof. intros Hs Ha [??]. destruct (Hs a Ha) as [Hn Hp]. by split; rewrite ?Hn, ?Hp. Qed.

Lemma entry_fresh h hd xs e ys : is_list h hd (xs ++ e :: ys) → e ∉ hd :: xs ++ ys.
Proof.
  intros [Hnd _]. rewrite NoDup_cons, NoDup_app, NoDup_cons in Hnd. set_solver.
Qed.

Lemma entry_node h hd xs e ys : is_list h hd (xs ++ e :: ys) → node h e.
Proof. intros Hl. eapply is_list_node; [done|]. set_solver. Qed.

Lemma list_add_run h hd xs new :
  is_list h hd xs → node h new → new ∉ hd :: xs →
  finishes (list_add new hd) h (λ h',
    is_list h' hd (new :: xs) ∧ same_outside h h' (new :: hd :: xs)).
Proof.
  intros Hl Hn Hf. destruct (insert_after _ _ _ _ Hl Hn Hf) as (h' & Hrun & HQ).
  eapply finishes_read; [by eapply get_next_ok, is_list_next|]. by exists h'.
Qed.

Lemma list_add_tail_run h hd xs new :
  is_list h hd xs → node h new → new ∉ hd :: xs →
  finishes (list_add_tail new hd) h (λ h',
    is_list h' hd (xs ++ [new]) ∧ same_outside h h' (new :: hd :: xs)).
Proof.
  intros Hl Hn Hf. pose proof (is_list_prev _ _ _ Hl) as Hp. unfold list_add_tail.
  destruct xs as [|p xs _] using rev_ind.
  - destruct (insert_after _ _ _ _ Hl Hn Hf) as (h' & Hrun & HQ).
    exists h'. split; [|done]. by erewrite bind_Ok by (by apply get_prev_ok).
  - unfold final in Hp. rewrite last_snoc in Hp. simpl in Hp. apply is_list_rotate in Hl.
    destruct (insert_after _ _ _ _ Hl Hn) as (h' & Hrun & Hl' & Hs); [set_solver|].
    exists h'. split; [by erewrite bind_Ok by (by apply get_prev_ok)|]. split.
    + rewrite <- app_assoc. apply is_list_rotate. done.
    + eapply same_outside_mono; [done|]. set_solver.
Qed.

Lemma list_move_run h hd1 xs e ys hd2 zs :
  is_list h hd1 (xs ++ e :: ys) → is_list h hd2 zs →
  (∀ z, z ∈ hd2 :: zs → z ∉ hd1 :: xs ++ e :: ys) →
  finishes (list_move e hd2) h (λ h',
    is_list h' hd1 (xs ++ ys) ∧ is_list h' hd2 (e :: zs) ∧
    same_outside h h' (e :: hd2 :: zs ++ hd1 :: xs ++ ys)).
Proof.
  intros H1 H2 Hd. pose proof (entry_fresh _ _ _ _ _ H1) as He.
  eapply finishes_bind; [by apply __list_del_entry_spec|]. intros h1 [Hl1 Hs1].
  assert (is_list h1 hd2 zs) as Hl2 by (eapply is_list_frame; [done| |done]; set_solver).
  assert (node h1 e) by eauto using same_outside_node, entry_node.
  eapply finishes_mono; [apply list_add_run; [done..|]; set_solver|].
  intros h2 [Hl2' Hs2]. split_and!; [|done|].
  - eapply is_list_frame; [done| |done]. set_solver.
  - eapply same_outside_trans; (eapply same_outside_mono; [done|]); set_solver.
Qed.

Lemma list_move_tail_run h hd1 xs e ys hd2 zs :
  is_list h hd1 (xs ++ e :: ys) → is_list h hd2 zs →
  (∀ z, z ∈ hd2 :: zs → z ∉ hd1 :: xs ++ e :: ys) →
  finishes (list_move_tail e hd2) h (λ h',
    is_list h' hd1 (xs ++ ys) ∧ is_list h' hd2 (zs ++ [e]) ∧
    same_outside h h' (e :: hd2 :: zs ++ hd1 :: xs ++ ys)).
Proof.
  intros H1 H2 Hd. pose proof (entry_fresh _ _ _ _ _ H1) as He.
  eapply finishes_bind; [by apply __list_del_entry_spec|]. intros h1 [Hl1 Hs1].
  assert (is_list h1 hd2 zs) as Hl2 by (eapply is_list_frame; [done| |done]; set_solver).
  assert (node h1 e) by eauto using same_outside_node, entry_node.
  eapply finishes_mono; [apply list_add_tail_run; [done..|]; set_solver|].
  intros h2 [Hl2' Hs2]. split_and!; [|done|].
  - eapply is_list_frame; [done| |done]. set_solver.
  - eapply same_outside_trans; (eapply same_outside_mono; [done|]); set_solver.
Qed.

(** Moving an entry to the tail of the list it is already on. *)
Lemma list_move_tail_same_run h hd xs e ys :
  is_list h hd (xs ++ e :: ys) →
  finishes (list_move_tail e hd) h (λ h',
    is_list h' hd (xs ++ ys ++ [e]) ∧ same_outside h h' (e :: hd :: xs ++ ys)).
Proof.
  intros H1. pose proof (entry_fresh _ _ _ _ _ H1) as He.
  eapply finishes_bind; [by apply __list_del_entry_spec|]. intros h1 [Hl1 Hs1].
  assert (node h1 e) by eauto using same_outside_node, entry_node.
  eapply finishes_mono; [by apply list_add_tail_run|].
  intros h2 [Hl2' Hs2]. rewrite app_assoc. split; [done|].
  eapply same_outside_trans; (eapply same_outside_mono; [done|]); set_solver.
Qed.

Lemma list_empty_run h hd xs :
  is_list h hd xs → list_empty hd h = Ok (bool_decide (xs = []), h).
Proof.
  intros Hl. unfold list_empty.
  erewrite bind_Ok by (eapply get_next_ok, is_list_next; done).
  destruct Hl as [[Hnd _]%NoDup_cons _]. unfold mret, M_ret. do 2 f_equal.
  destruct xs as [|x xs]; [apply Z.eqb_refl|].
  rewrite bool_decide_eq_false_2 by done. apply Z.eqb_neq. cbn. set_solver.
Qed.

Lemma list_splice_init_run h hd xs l ys :
  is_list h hd xs → is_list h l ys → (∀ z, z ∈ l :: ys → z ∉ hd :: xs) →
  finishes (list_splice_init l hd) h (λ h',
    is_list h' hd (ys ++ xs) ∧ is_list h' l [] ∧ same_outside h h' (l :: hd :: ys ++ xs)).
Proof.
  intros H1 H2 Hd. eapply finishes_read; [by apply list_empty_run|].
  destruct ys as [|y ys]; [by apply finishes_ret|]. simpl.
  eapply finishes_read; [by eapply get_next_ok, is_list_next|].
  eapply finishes_bind; [by apply (splice_after _ _ _ _ (y :: ys))|]. intros h1 [Hl1 Hs1].
  assert (l ∉ hd :: (y :: ys) ++ xs) as Hlf.
  { destruct H2 as [[??]%NoDup_cons _]. set_solver. }
  eapply finishes_mono.
  { apply INIT_LIST_HEAD_spec. eapply same_outside_node, is_list_node; [done..|]. set_solver. }
  intros h2 [Hl2 Hs2]. split_and!; [|done|].
  - eapply is_list_frame; [done| |done]. set_solver.
  - eapply same_outside_trans; (eapply same_outside_mono; [done|]); set_solver.
Qed.

(** [__list_splice] between the last entry of a list and its head. *)
Lemma splice_before h hd xs l ys :
  is_list h hd xs → is_list h l ys → ys ≠ [] → (∀ z, z ∈ l :: ys → z ∉ hd :: xs) →
  finishes (__list_splice l (final hd xs) hd) h (λ h',
    is_list h' hd (xs ++ ys) ∧ same_outside h h' (hd :: ys ++ xs)).
Proof.
  intros H1 H2 Hne Hd. unfold final. destruct xs as [|p xs _] using rev_ind.
  - eapply finishes_mono; [by apply (splice_after _ hd [] l ys)|].
    intros h' [??]. by rewrite app_nil_r in *.
  - rewrite last_snoc. apply is_list_rotate in H1.
    eapply finishes_mono; [apply (splice_after _ p (hd :: xs) l ys); [done..|]; set_solver|].
    intros h' [Hl Hs]. split.
    + rewrite <- app_assoc. by apply is_list_rotate.
    + eapply same_outside_mono; [done|]. set_solver.
Qed.

Lemma list_splice_tail_init_run h hd xs l ys :
  is_list h hd xs → is_list h l ys → (∀ z, z ∈ l :: ys → z ∉ hd :: xs) →
  finishes (list_splice_tail_init l hd) h (λ h',
    is_list h' hd (xs ++ ys) ∧ is_list h' l [] ∧ same_outside h h' (l :: hd :: ys ++ xs)).
Proof.
  intros H1 H2 Hd. eapply finishes_read; [by apply list_empty_run|].
  destruct ys as [|y ys]; [apply finishes_ret; by rewrite app_nil_r|]. simpl.
  eapply finishes_read; [by eapply get_prev_ok, is_list_prev|].
  eapply finishes_bind; [by apply (splice_before _ _ _ _ (y :: ys))|]. intros h1 [Hl1 Hs1].
  assert (l ∉ hd :: (y :: ys) ++ xs) as Hlf.
  { destruct H2 as [[??]%NoDup_cons _]. set_solver. }
  eapply finishes_mono.
  { apply INIT_LIST_HEAD_spec. eapply same_outside_node, is_list_node; [done..|]. set_solver. }
  intros h2 [Hl2 Hs2]. split_and!; [|done|].
  - eapply is_list_frame; [done| |done]. set_solver.
  - eapply same_outside_trans; (eapply same_outside_mono; [done|]); set_solver.
Qed.

Lemma list_del_run h hd xs e ys :
  is_list h hd (xs ++ e :: ys) →
  finishes (list_del e) h (λ h',
    is_list h' hd (xs ++ ys) ∧ nxt h' !! e = Some LIST_POISON1 ∧
    prv h' !! e = Some LIST_POISON2 ∧ same_outside h h' (hd :: xs ++ e :: ys)).
Proof.
  intros Hl. pose proof (entry_fresh _ _ _ _ _ Hl) as He.
  destruct (is_list_at _ _ _ _ _ Hl) as (zs & Hl' & Hp & Hn & Hperm & Hback).
  do 2 (eapply finishes_read; [by (apply get_prev_ok || apply get_next_ok)|]).
  eapply finishes_bind; [by eapply delete_after|]. intros h1 [Hl1 Hs1].
  rewrite <- Hperm in He.
  assert (node h1 e) by eauto using same_outside_node, entry_node.
  eexists. split; [repeat hstep; done|]. simpl. simplify_map_eq.
  split_and!; [|done|done|].
  - apply Hback. eapply (is_list_frame h1 _ _ _ [e]), Hl1.
    + intros z Hz. simpl. rewrite !lookup_insert_ne; set_solver.
    + intros z Hz. set_solver.
  - intros z Hz. simpl. rewrite !lookup_insert_ne by set_solver. apply Hs1.
    rewrite Hperm. set_solver.
Qed.

Lemma list_for_each_from_run h hd xs ys fuel :
  is_list h hd (xs ++ ys) → (length ys <= fuel)%nat →
  list_for_each_from fuel (first hd ys) hd h = Ok (ys, h).
Proof.
  revert xs fuel. induction ys as [|y ys IH]; intros xs fuel Hl Hf.
  - destruct fuel; simpl; by rewrite Z.eqb_refl.
  - destruct fuel as [|fuel]; simpl in Hf; [lia|].
    assert (first hd (y :: ys) = y) as -> by done. simpl.
    assert ((y =? hd) = false) as ->.
    { apply Z.eqb_neq. destruct Hl as [[Hnd _]%NoDup_cons _]. set_solver. }
    assert (nxt h !! y = Some (first hd ys)) as Hn.
    { apply is_list_rotate in Hl. rewrite (is_list_next _ _ _ Hl). by destruct ys. }
    erewrite bind_Ok by (by apply get_next_ok).
    erewrite bind_Ok by (apply (IH (xs ++ [y])); [by rewrite <- app_assoc|lia]). done.
Qed.

(** The two lists that the writes of [__list_cut_position] leave. *)
Lemma cut_paths N P hd xs e ys l :
  NoDup (hd :: xs ++ e :: ys) → l ∉ hd :: xs ++ e :: ys →
  path (ListHeap N P) hd (xs ++ e :: ys) hd →
  let h' := ListHeap (<[hd := first hd ys]> (<[e := l]> (<[l := first e xs]> N)))
              (<[first hd ys := hd]> (<[l := e]> (<[first e xs := l]> P))) in
  path h' l (xs ++ [e]) l ∧ path h' hd ys hd.
Proof.
  intros Hnd Hl [Hx Hy]%path_app h'.
  assert (hd ≠ e ∧ hd ∉ xs ∧ hd ∉ ys ∧ e ∉ xs ∧ e ∉ ys ∧ l ≠ hd ∧ l ≠ e ∧ l ∉ xs ∧ l ∉ ys
          ∧ NoDup xs ∧ NoDup ys ∧ (∀ z, z ∈ xs → z ∉ ys))
    as (?&Hhx&?&?&Hey&?&?&?&Hly&Hndx&Hndy&Hxy).
  { clear -Hnd Hl. rewrite NoDup_cons, NoDup_app, NoDup_cons in Hnd. set_solver. }
  assert (first hd ys ∉ xs ∧ first hd ys ≠ e ∧ first hd ys ≠ l) as (?&?&?).
  { destruct ys as [|y ys]; [done|]. cbn. clear -Hey Hly Hxy. set_solver. }
  clear Hnd Hl. unfold h'. split; [apply path_app; split|].
  - destruct xs as [|x xs]; simpl in *; unfold linked; simpl; [by simplify_map_eq|].
    destruct Hx as [_ Hx]. rewrite not_elem_of_cons in *. apply NoDup_cons in Hndx as [??].
    destruct_and?. simplify_map_eq. split; [done|]. by path_frames.
  - unfold path, linked; simpl. by simplify_map_eq.
  - assert (first e xs ∉ ys ∧ first e xs ≠ hd) as [??].
    { destruct xs as [|x xs]; [done|]. cbn. clear -Hhx Hxy. set_solver. }
    destruct ys as [|y ys]; simpl in *; unfold linked; simpl; [by simplify_map_eq|].
    destruct Hy as [_ Hy]. rewrite not_elem_of_cons in *. apply NoDup_cons in Hndy as [??].
    destruct_and?. simplify_map_eq. split; [done|]. by path_frames.
Qed.

Lemma __list_cut_position_run h hd xs e ys l :
  is_list h hd (xs ++ e :: ys) → node h l → l ∉ hd :: xs ++ e :: ys →
  finishes (__list_cut_position l hd e) h (λ h',
    is_list h' l (xs ++ [e]) ∧ is_list h' hd ys ∧ same_outside h h' (l :: hd :: xs ++ e :: ys)).
Proof.
  intros Hl Hnl Hf. pose proof Hl as [Hnd Hp].
  assert (nxt h !! e = Some (first hd ys)) as Hne.
  { apply is_list_rotate in Hl. rewrite (is_list_next _ _ _ Hl). by destruct ys. }
  assert (nxt h !! hd = Some (first e xs)) as Hnh.
  { rewrite (is_list_next _ _ _ Hl). by destruct xs. }
  assert (∀ z, z ∈ hd :: xs ++ e :: ys → node h z) as Hnodes by eauto with kernel.
  assert (first e xs ∈ xs ++ [e] ∧ first hd ys ∈ ys ++ [hd]) as [Hin1 Hin2].
  { destruct xs, ys; set_solver. }
  assert (node h hd ∧ node h e ∧ node h (first e xs) ∧ node h (first hd ys)) as (?&?&?&?).
  { split_and!; apply Hnodes; clear -Hin1 Hin2; set_solver. }
  eexists (ListHeap (<[hd := first hd ys]> (<[e := l]> (<[l := first e xs]> (nxt h))))
              (<[first hd ys := hd]> (<[l := e]> (<[first e xs := l]> (prv h))))).
  split; [unfold __list_cut_position; repeat hstep; done|].
  destruct h as [N P]. destruct (cut_paths N P hd xs e ys l) as [Hp1 Hp2]; [done..|].
  split_and!; [split; [|done]|split; [|done]|].
  - clear -Hnd Hf. pose proof (NoDup_singleton e).
    rewrite NoDup_cons, NoDup_app, NoDup_cons in Hnd. rewrite NoDup_cons, NoDup_app. set_solver.
  - clear -Hnd. rewrite NoDup_cons, NoDup_app, NoDup_cons in Hnd. rewrite NoDup_cons. set_solver.
  - intros z Hz. simpl. rewrite !lookup_insert_ne; [done|..]; clear -Hz Hin1 Hin2; set_solver.
Qed.

(** Putting [new] in the place of [old]; [old] may also be the head. *)
Lemma list_replace_run h old xs new :
  is_list h old xs → node h new → new ∉ old :: xs →
  finishes (list_replace old new) h (λ h',
    is_list h' new xs ∧ same_outside h h' (new :: old :: xs)).
Proof.
  intros Hl Hnew Hf. pose proof Hl as [Hnd Hp].
  pose proof (is_list_next _ _ _ Hl) as Hn. pose proof (is_list_prev _ _ _ Hl) as Hpv.
  assert (∀ z, z ∈ old :: xs → node h z) as Hnodes by eauto with kernel.
  assert (first old xs ∈ old :: xs ∧ final old xs ∈ old :: xs) as [Hin1 Hin2].
  { split; [destruct xs; set_solver|]. unfold final. destruct xs using rev_ind; [set_solver|].
    rewrite last_snoc. set_solver. }
  assert (node h (first old xs)) by auto. assert (node h (final old xs)) by auto.
  assert (new ≠ first old xs) by set_solver.
  assert (node h old) by (apply Hnodes; set_solver).
  destruct xs as [|x xs].
  - eexists. split; [unfold list_replace; cbn in *; repeat hstep; done|]. cbn.
    split; [split; [apply NoDup_singleton|]|].
    + unfold path, linked; simpl. by simplify_map_eq.
    + intros z Hz. simpl. rewrite !lookup_insert_ne; set_solver.
  - cbn in *. assert (x ≠ old) by (apply NoDup_cons in Hnd as [? _]; set_solver).
    eexists. split; [unfold list_replace; cbn in *; repeat hstep; done|]. simpl.
    assert (NoDup (x :: xs)) as Hndx by (apply NoDup_cons in Hnd as [? ?]; done).
    split; [split|].
    + apply NoDup_cons. split; [set_solver|done].
    + destruct Hp as [_ Hp].
      assert (x ≠ new ∧ new ∉ xs) as [? Hnx] by set_solver.
      destruct xs as [|y xs _] using rev_ind.
      * cbn in *. unfold linked; simpl. by simplify_map_eq.
      * unfold final in *. rewrite app_comm_cons, last_snoc in *. simpl in *.
        apply path_app in Hp as [Hp ?].
        assert (x ∉ xs ∧ x ≠ y ∧ y ∉ xs ∧ new ∉ xs ∧ new ≠ y) as (?&?&?&?&?).
        { clear -Hndx Hnx. rewrite NoDup_cons, NoDup_app in Hndx. set_solver. }
        split; [unfold linked; simpl; by simplify_map_eq|].
        destruct h as [N P]. apply path_app. split; [by path_frames|].
        unfold path, linked; simpl. by simplify_map_eq.
    + intros z Hz. simpl. rewrite !lookup_insert_ne; [done|..]; clear -Hz Hin1 Hin2; set_solver.
Qed.
End specs.

(** ** Main theorems *)

Section theorems.
Implicit Types (h : list_heap) (xs ys zs : list Z).

(**  [list_del] on an entry anywhere in a list unlinks exactly that entry,
    poisons its two pointers and leaves every node outside the list
    untouched. *)
Theorem list_del_unlinks h hd xs e ys :
  is_list h hd (xs ++ e :: ys) →
  ∃ h', list_del e h = Ok ((), h') ∧ is_list h' hd (xs ++ ys) ∧
    nxt h' !! e = Some LIST_POISON1 ∧ prv h' !! e = Some LIST_POISON2 ∧
    same_outside h h' (hd :: xs ++ e :: ys).
Proof. apply list_del_run. Qed.

(** [list_move] and [list_move_tail] take an entry off one list and put it
    at the head, respectively the tail, of another; both lists stay well
    formed, no other node changes, and moving an entry to the tail of its own
    list rotates it to the end. *)
Theorem list_move_between h hd1 xs e ys hd2 zs :
  is_list h hd1 (xs ++ e :: ys) → is_list h hd2 zs →
  (∀ z, z ∈ hd2 :: zs → z ∉ hd1 :: xs ++ e :: ys) →
  finishes (list_move e hd2) h (λ h',
    is_list h' hd1 (xs ++ ys) ∧ is_list h' hd2 (e :: zs) ∧
    same_outside h h' (e :: hd2 :: zs ++ hd1 :: xs ++ ys)) ∧
  finishes (list_move_tail e hd2) h (λ h',
    is_list h' hd1 (xs ++ ys) ∧ is_list h' hd2 (zs ++ [e]) ∧
    same_outside h h' (e :: hd2 :: zs ++ hd1 :: xs ++ ys)) ∧
  finishes (list_move_tail e hd1) h (λ h',
    is_list h' hd1 (xs ++ ys ++ [e]) ∧ is_list h' hd2 zs).
Proof.
  intros H1 H2 Hd. split_and!; [by apply list_move_run|by apply list_move_tail_run|].
  eapply finishes_mono; [by apply list_move_tail_same_run|].
  intros h' [Hl Hs]. split; [done|]. eapply is_list_frame; [done| |done]. set_solver.
Qed.

(** C32.  [list_splice_init] and [list_splice_tail_init] put all entries of one
    list before, respectively after, those of another, in order, and leave
    the first one a well-formed empty list. *)
Theorem list_splice_concatenates h hd xs l ys :
  is_list h hd xs → is_list h l ys → (∀ z, z ∈ l :: ys → z ∉ hd :: xs) →
  finishes (list_splice_init l hd) h (λ h',
    is_list h' hd (ys ++ xs) ∧ is_list h' l [] ∧ same_outside h h' (l :: hd :: ys ++ xs)) ∧
  finishes (list_splice_tail_init l hd) h (λ h',
    is_list h' hd (xs ++ ys) ∧ is_list h' l [] ∧ same_outside h h' (l :: hd :: ys ++ xs)).
Proof. intros. split; [by apply list_splice_init_run|by apply list_splice_tail_init_run]. Qed.

(** [list_cut_position] moves the entries up to and including [e] to the
    list [l] and leaves the rest on [hd]; splicing [l] back gives the original
    list again. *)
Theorem list_cut_splice h hd xs e ys l :
  is_list h hd (xs ++ e :: ys) → node h l → l ∉ hd :: xs ++ e :: ys →
  finishes (list_cut_position l hd e) h (λ h',
    is_list h' l (xs ++ [e]) ∧ is_list h' hd ys ∧
    finishes (list_splice_init l hd) h' (λ h'',
      is_list h'' hd (xs ++ e :: ys) ∧ is_list h'' l [])).
Proof.
  intros Hl Hn Hf. pose proof Hl as [Hnd _].
  assert (e ≠ hd) as Heh by (clear -Hnd; rewrite NoDup_cons in Hnd; set_solver).
  eapply finishes_read; [by apply list_empty_run|].
  rewrite bool_decide_eq_false_2 by (by destruct xs).
  eapply finishes_read.
  { unfold list_is_singular. erewrite bind_Ok by (by apply list_empty_run).
    rewrite bool_decide_eq_false_2 by (by destruct xs). simpl.
    erewrite bind_Ok by (eapply get_next_ok, is_list_next; done).
    by erewrite bind_Ok by (eapply get_prev_ok, is_list_prev; done). }
  eapply finishes_read; [by eapply get_next_ok, is_list_next|].
  match goal with |- finishes (if ?c then _ else _) _ _ => assert (c = false) as -> end.
  { destruct xs as [|x xs]; [by cbn; rewrite Z.eqb_refl, andb_false_r|].
    rewrite (proj2 (Z.eqb_neq _ (final _ _))); [done|]. unfold final.
    rewrite last_app_cons. clear -Hnd. simpl app in Hnd. rewrite !NoDup_cons in Hnd.
    destruct (last (e :: ys)) as [z|] eqn:Hz; [|by apply last_None in Hz].
    apply last_Some in Hz as [zs Hz]. rewrite Hz in Hnd. cbn. set_solver. }
  apply Z.eqb_neq in Heh as ->.
  eapply finishes_mono; [by apply __list_cut_position_run|].
  intros h' (Hl1 & Hl2 & Hs). split_and!; [done..|].
  eapply finishes_mono; [apply (list_splice_init_run _ hd ys l (xs ++ [e])); [done..|]|].
  - clear -Hnd Hf. rewrite NoDup_cons, NoDup_app, NoDup_cons in Hnd. set_solver.
  - intros h'' (? & ? & _). by rewrite <- app_assoc in *.
Qed.

(** The cursor of [list_for_each] visits exactly the entries of the list,
    in order, and comes back to the head after as many steps as the list has
    entries, without changing the list. *)
Theorem list_for_each_visits h hd xs fuel :
  is_list h hd xs → (length xs <= fuel)%nat → list_for_each fuel hd h = Ok (xs, h).
Proof.
  intros Hl Hf. unfold list_for_each.
  erewrite bind_Ok by (eapply get_next_ok, is_list_next; done).
  by apply (list_for_each_from_run h hd [] xs).
Qed.
End theorems.

(** ** Concrete lists *)

(** Two lists, [16: 24 32 40] and [64: 72], and a free node [80]. *)
Definition demo_heap : list_heap := ListHeap
  (list_to_map [(16, 24); (24, 32); (32, 40); (40, 16); (64, 72); (72, 64); (80, 80)])
  (list_to_map [(24, 16); (32, 24); (40, 32); (16, 40); (72, 64); (64, 72); (80, 80)]).

Ltac concrete_list :=
  split; [apply (bool_decide_unpack _); vm_compute; exact I | repeat split; reflexivity].

Ltac concrete_disjoint :=
  let z := fresh in let H := fresh in
  intros z H; rewrite ?elem_of_cons, ?elem_of_nil in *; cbn in *;
  rewrite ?elem_of_cons, ?elem_of_nil in *; lia.

Lemma demo_list1 : is_list demo_heap 16 [24; 32; 40].
Proof. concrete_list. Qed.

Lemma demo_list2 : is_list demo_heap 64 [72].
Proof. concrete_list. Qed.

Lemma demo_node : node demo_heap 80.
Proof. split; eexists; reflexivity. Qed.

Lemma list_del_unlinks_witness :
  ∃ h', list_del 32 demo_heap = Ok ((), h') ∧ is_list h' 16 [24; 40].
Proof.
  destruct (list_del_unlinks demo_heap 16 [24] 32 [40] demo_list1) as (h' & Hr & Hl & _).
  exists h'. split; [exact Hr | exact Hl].
Defined.

Lemma list_move_between_witness :
  finishes (list_move_tail 32 64) demo_heap (λ h',
    is_list h' 16 [24; 40] ∧ is_list h' 64 [72; 32]).
Proof.
  destruct (list_move_between demo_heap 16 [24] 32 [40] 64 [72] demo_list1 demo_list2)
    as (_ & (h' & Hr & Hl1 & Hl2 & _) & _); [concrete_disjoint|].
  exists h'. split; [exact Hr | split; [exact Hl1 | exact Hl2]].
Defined.

Lemma list_splice_concatenates_witness :
  finishes (list_splice_init 64 16) demo_heap (λ h',
    is_list h' 16 [72; 24; 32; 40] ∧ is_list h' 64 []).
Proof.
  destruct (list_splice_concatenates demo_heap 16 [24; 32; 40] 64 [72] demo_list1 demo_list2)
    as ((h' & Hr & Hl1 & Hl2 & _) & _); [concrete_disjoint|].
  exists h'. split; [exact Hr | split; [exact Hl1 | exact Hl2]].
Defined.

Lemma list_cut_splice_witness :
  finishes (list_cut_position 80 16 32) demo_heap (λ h',
    is_list h' 80 [24; 32] ∧ is_list h' 16 [40]).
Proof.
  destruct (list_cut_splice demo_heap 16 [24] 32 [40] 80 demo_list1 demo_node)
    as (h' & Hr & Hl1 & Hl2 & _);
    [apply (bool_decide_unpack _); vm_compute; exact I|].
  exists h'. split; [exact Hr | split; [exact Hl1 | exact Hl2]].
Defined.

Lemma list_for_each_visits_witness :
  list_for_each 3 16 demo_heap = Ok ([24; 32; 40], demo_heap).
Proof. apply (list_for_each_visits demo_heap 16 [24; 32; 40] 3 demo_list1). simpl. lia. Defined.
