(* ===== verification/PTree.v ===== *)
(** * The process-tree system call

    Models [Project 1/ptreemodule/ptreemodule.c]: [convert], [dfs], the system
    call [ptree] and the installation of the call in the system-call table.
    Memory is read by address, so that [list_entry] is the pointer arithmetic it
    is in C and its use on the last sibling shows what the code then reads. *)

From S2P Require Import Prelude ListHead.

(** ** Kernel memory as the module sees it

    The 32-bit words of the task structures and credentials, the [comm] arrays
    (as C strings) and the [list_head] nodes, all by address. *)

Record tmem := TMem {
  words : gmap Z Z;
  comms : gmap Z string;
  lists : list_heap;
}.

Definition rd (m : tmem) (a : Z) : res Z :=
  match words m !! a with Some v => Ok v | None => Err (BadAddr a) end.

Definition rd_comm (m : tmem) (a : Z) : res string :=
  match comms m !! a with Some v => Ok v | None => Err (BadAddr a) end.

(** The value of a read-only list operation. *)
Definition lists_read {A} (m : tmem) (op : M list_heap A) : res A :=
  match op (lists m) with Ok (v, _) => Ok v | Err e => Err e end.

(** Offsets of the fields of [struct task_struct] and [struct cred].  They
    depend on the configuration, except that [sibling] follows [children]
    (a [list_head] of 8 bytes) and that the word 8 bytes before [pid] is the
    bit-field word [did_exec], [in_execve], [in_iowait], ...: between them is only
    the word [atomic_flags] ([include/linux/sched.h]). *)
Class TaskLayout := {
  off_state : Z;
  off_pid : Z;
  off_parent : Z;
  off_children : Z;
  off_cred : Z;
  off_comm : Z;
  off_uid : Z;
}.

Definition off_sibling `{TaskLayout} : Z := off_children + 8.

Definition off_flags `{TaskLayout} : Z := off_pid - 8.

(** ** The data the call returns *)

Record prinfo := Prinfo {
  parent_pid : Z;
  pid : Z;
  first_child_pid : Z;
  next_sibling_pid : Z;
  state : Z;
  uid : Z;
  comm : string;
}.

#[global] Instance prinfo_eq_dec : EqDecision prinfo.
Proof. solve_decision. Defined.

#[global] Instance prinfo_inhabited : Inhabited prinfo := populate (Prinfo 0 0 0 0 0 0 "").

Definition MAXBUFFERSIZE : Z := 2048.

Definition __NR_ptree : Z := 233.

Section module.
Context `{TaskLayout}.

(** [list_entry(p, struct task_struct, sibling)] *)
Definition sibling_entry (p : Z) : Z := p - off_sibling.

(** [get_task_comm]: [strncpy] of at most [sizeof(tsk->comm)] bytes. *)
Definition get_task_comm (m : tmem) (tsk : Z) : res string :=
  s ← rd_comm m (tsk + off_comm);
  mret (String.substring 0 16 s).

Definition convert (m : tmem) (from : Z) : res prinfo :=
  par ← rd m (from + off_parent);
  ppid ← (if par =? 0 then mret 0 else rd m (par + off_pid));
  p ← rd m (from + off_pid);
  ce ← lists_read m (list_empty (from + off_children));
  fc ← (if ce : bool then mret 0 else
          c ← lists_read m (get_next (from + off_children));
          rd m (sibling_entry c + off_pid));
  se ← lists_read m (list_empty (from + off_sibling));
  ns ← (if se : bool then mret 0 else
          s ← lists_read m (get_next (from + off_sibling));
          rd m (sibling_entry s + off_pid));
  st ← rd m (from + off_state);
  cr ← rd m (from + off_cred);
  u ← rd m (cr + off_uid);
  c ← get_task_comm m from;
  mret (Prinfo ppid p fc ns st u c).

(** The buffer [_buf] of [MAXBUFFERSIZE] entries and the counter [_nr]. *)
Record dfs_st := DfsSt { d_buf : list prinfo; d_nr : Z }.

(** [buf[i] = v]: a store outside the allocated buffer is a fault. *)
Definition buf_store (i : Z) (v : prinfo) : M dfs_st () := λ s,
  if (0 <=? i) && (i <? Z.of_nat (length (d_buf s)))
  then Ok ((), DfsSt (<[Z.to_nat i := v]> (d_buf s)) (d_nr s))
  else Err (OutOfBounds i).

Definition incr_nr : M dfs_st () := modify (λ s, DfsSt (d_buf s) (s32 (d_nr s + 1))).

(** The loop [list_for_each(p, &task->children)] of [dfs], with the recursive
    call as a parameter. *)
Fixpoint dfs_children (m : tmem) (rec : Z → M dfs_st ()) (lfuel : nat) (p head : Z) : M dfs_st () :=
  if p =? head then mret () else
  match lfuel with
  | O => fail NoFuel
  | S lfuel =>
      rec (sibling_entry p);;
      n ← lift_res (lists_read m (get_next p));
      dfs_children m rec lfuel n head
  end.

(** [fuel] bounds the depth of the recursion and [lfuel] the length of a list of
    children. *)
Fixpoint dfs (m : tmem) (lfuel fuel : nat) (task : Z) : M dfs_st () :=
  match fuel with
  | O => fail NoFuel
  | S fuel =>
      nr ← gets d_nr;
      row ← lift_res (convert m task);
      buf_store nr row;;
      incr_nr;;
      p ← lift_res (lists_read m (get_next (task + off_children)));
      dfs_children m (dfs m lfuel fuel) lfuel p (task + off_children)
  end.

(** ** The system call

    [p_live] counts the allocated kernel buffers, [p_readers] the read holds of
    [tasklist_lock]; [p_buf] and [p_nr] are what user space finds at [buf] and at
    [nr] ([None]: not or not completely written). *)
Record call_st := CallSt {
  p_live : nat;
  p_readers : nat;
  p_buf : option (list prinfo);
  p_nr : option Z;
}.

(** [copy_to_user], given whether the destination is writable; returns 0 when
    all bytes are copied and a positive number otherwise. *)
Definition copy_buf_to_user (writable : bool) (b : list prinfo) : M call_st Z := λ s,
  if writable then Ok (0, CallSt (p_live s) (p_readers s) (Some b) (p_nr s)) else Ok (1, s).

Definition copy_nr_to_user (writable : bool) (n : Z) : M call_st Z := λ s,
  if writable then Ok (0, CallSt (p_live s) (p_readers s) (p_buf s) (Some n)) else Ok (1, s).

Definition read_lock : M call_st () :=
  modify (λ s, CallSt (p_live s) (S (p_readers s)) (p_buf s) (p_nr s)).

Definition read_unlock : M call_st () :=
  modify (λ s, CallSt (p_live s) (pred (p_readers s)) (p_buf s) (p_nr s)).

(** [kmalloc], given the memory it finds ([None]: it fails and returns NULL). *)
Definition kmalloc (r : option (list prinfo)) : M call_st (option (list prinfo)) := λ s,
  match r with
  | Some b => Ok (Some b, CallSt (S (p_live s)) (p_readers s) (p_buf s) (p_nr s))
  | None => Ok (None, s)
  end.

Definition kfree : M call_st () :=
  modify (λ s, CallSt (pred (p_live s)) (p_readers s) (p_buf s) (p_nr s)).

(** The call of [dfs] on the kernel buffer; a NULL buffer faults at the first
    store. *)
Definition run_dfs (m : tmem) (lfuel fuel : nat) (init_task : Z) (b : option (list prinfo))
  : M call_st (list prinfo * Z) :=
  match b with
  | None => fail NullDeref
  | Some b =>
      lift_res (match dfs m lfuel fuel init_task (DfsSt b 0) with
                | Ok (_, s) => Ok (d_buf s, d_nr s)
                | Err e => Err e
                end)
  end.

Definition ptree (m : tmem) (lfuel fuel : nat) (init_task : Z)
    (mem : option (list prinfo)) (buf_ok nr_ok : bool) : M call_st Z :=
  _buf ← kmalloc mem;
  read_lock;;
  '(_buf, _nr) ← run_dfs m lfuel fuel init_task _buf;
  read_unlock;;
  e ← copy_buf_to_user buf_ok _buf;
  if negb (e =? 0) then mret 1 else
  e ← copy_nr_to_user nr_ok _nr;
  if negb (e =? 0) then mret 1 else
  kfree;;
  mret 0.
End module.

(** ** Task trees

    The process tree as a mathematical tree: what [ptree] is meant to list. *)

Record tinfo := TInfo {
  t_addr : Z;        (** address of the [task_struct] *)
  t_ppid : Z;        (** pid of [parent], 0 when [parent] is NULL *)
  t_pid : Z;
  t_state : Z;
  t_uid : Z;
  t_comm : string;
  t_flags : Z;       (** the word 8 bytes before [pid] *)
}.

Inductive tree := Tree (i : tinfo) (ts : list tree).

Definition info (t : tree) : tinfo := let 'Tree i _ := t in i.

Definition first_pid (ts : list tree) : Z :=
  match ts with [] => 0 | t :: _ => t_pid (info t) end.

(** What [next_sibling_pid] holds after [convert]: the pid of the next sibling,
    or the word [w] of the parent for the last one. *)
Definition next_pid (w : Z) (ts : list tree) : Z :=
  match ts with [] => w | t :: _ => t_pid (info t) end.

Definition row (i : tinfo) (ts : list tree) (next : Z) : prinfo :=
  Prinfo (t_ppid i) (t_pid i) (first_pid ts) next (t_state i) (t_uid i) (t_comm i).

(** The rows of a tree in depth-first order; [next] is the
    [next_sibling_pid] of its root. *)
Fixpoint rows (next : Z) (t : tree) : list prinfo :=
  let 'Tree i ts := t in
  row i ts next ::
  (fix forest ts := match ts with
                    | [] => []
                    | t :: ts => rows (next_pid (t_flags i) ts) t ++ forest ts
                    end) ts.

Fixpoint forest_rows (w : Z) (ts : list tree) : list prinfo :=
  match ts with [] => [] | t :: ts => rows (next_pid w ts) t ++ forest_rows w ts end.

Fixpoint tree_size (t : tree) : nat :=
  let 'Tree _ ts := t in
  S ((fix go ts := match ts with [] => O | t :: ts => (tree_size t + go ts)%nat end) ts).

Definition forest_size (ts : list tree) : nat := sum_list_with tree_size ts.

Section trees.
Context `{TaskLayout}.

Definition sib_addr (t : tree) : Z := t_addr (info t) + off_sibling.

(** [in_memory m t]: the tree [t] is stored in the memory [m]. *)
Inductive in_memory (m : tmem) : tree → Prop :=
  | In_memory i ts par cr :
      rd m (t_addr i + off_parent) = Ok par →
      (if par =? 0 then Ok 0 else rd m (par + off_pid)) = Ok (t_ppid i) →
      rd m (t_addr i + off_pid) = Ok (t_pid i) →
      rd m (t_addr i + off_flags) = Ok (t_flags i) →
      rd m (t_addr i + off_state) = Ok (t_state i) →
      rd m (t_addr i + off_cred) = Ok cr →
      rd m (cr + off_uid) = Ok (t_uid i) →
      rd_comm m (t_addr i + off_comm) = Ok (t_comm i) →
      (String.length (t_comm i) <= 16)%nat →
      is_list (lists m) (t_addr i + off_children) (sib_addr <$> ts) →
      Forall (in_memory m) ts →
      in_memory m (Tree i ts).

(** [sibling_reads m a v]: [convert] finds [v] as next sibling of the task at
    [a]. *)
Definition sibling_reads (m : tmem) (a v : Z) : Prop :=
  is_list (lists m) (a + off_sibling) [] ∧ v = 0 ∨
  ∃ s, nxt (lists m) !! (a + off_sibling) = Some s ∧ s ≠ a + off_sibling ∧
       rd m (sibling_entry s + off_pid) = Ok v.
End trees.

Lemma rows_eq next i ts :
  rows next (Tree i ts) = row i ts next :: forest_rows (t_flags i) ts.
Proof. simpl. f_equal. induction ts as [|t ts IH]; simpl; [done|]. by rewrite IH. Qed.

Lemma tree_size_eq i ts : tree_size (Tree i ts) = S (forest_size ts).
Proof. reflexivity. Qed.

Lemma tree_size_pos t : (0 < tree_size t)%nat.
Proof. destruct t. rewrite tree_size_eq. lia. Qed.

Lemma forest_size_length ts : (length ts <= forest_size ts)%nat.
Proof.
  unfold forest_size. induction ts as [|t ts IH]; simpl; [lia|].
  pose proof (tree_size_pos t). lia.
Qed.

(** Induction on trees with the hypothesis for all children. *)
Lemma tree_forall_ind (Pt : tree → Prop) :
  (∀ i ts, Forall Pt ts → Pt (Tree i ts)) → ∀ t, Pt t.
Proof.
  intros Hstep. refine (fix go t := match t with Tree i ts => Hstep i ts _ end).
  induction ts as [|t' ts IH]; constructor; [apply go|apply IH].
Qed.

(** ** Storing rows *)

(** What [dfs] does for one task: store the row and count it. *)
Definition store_row (r : prinfo) : M dfs_st () :=
  nr ← gets d_nr; buf_store nr r;; incr_nr.

Fixpoint store_rows (rs : list prinfo) : M dfs_st () :=
  match rs with [] => mret () | r :: rs => store_row r;; store_rows rs end.

Lemma store_rows_app rs1 rs2 s :
  store_rows (rs1 ++ rs2) s = (store_rows rs1;; store_rows rs2) s.
Proof.
  revert s. induction rs1 as [|r rs1 IH]; intros s; simpl; [done|].
  unfold mbind, M_bind. destruct (store_row r s) as [[[] s']|]; [|done]. apply IH.
Qed.

Lemma list_inserts_snoc {A} (l k : list A) x i :
  (i + length k < length l)%nat →
  <[(i + length k)%nat := x]> (list_inserts i k l) = list_inserts i (k ++ [x]) l.
Proof.
  revert i. induction k as [|y k IH]; intros i Hi; simpl in *; [by rewrite Nat.add_0_r|].
  rewrite list_insert_insert_ne by lia. f_equal.
  rewrite <- IH by lia. f_equal. lia.
Qed.

Lemma store_rows_fits rs b n :
  0 <= n → n + Z.of_nat (length rs) <= Z.of_nat (length b) < 2 ^ 31 →
  store_rows rs (DfsSt b n) =
  Ok ((), DfsSt (list_inserts (Z.to_nat n) rs b) (n + Z.of_nat (length rs))).
Proof.
  revert b n. induction rs as [|r rs IH] using rev_ind; intros b n Hn Hl.
  - simpl. unfold mret, M_ret. by rewrite Z.add_0_r.
  - rewrite length_app in Hl. simpl in Hl. rewrite store_rows_app.
    erewrite bind_Ok by (apply IH; lia). simpl.
    unfold mbind, M_bind, store_row, gets, buf_store, incr_nr, modify. simpl.
    unfold mbind, M_bind. simpl. rewrite length_inserts.
    rewrite (proj2 (Z.leb_le _ _)), (proj2 (Z.ltb_lt _ _)) by lia. simpl.
    rewrite s32_id by (unfold is_s32; lia).
    rewrite Z2Nat.inj_add, Nat2Z.id, list_inserts_snoc by lia.
    rewrite length_app. simpl. unfold mret, M_ret. do 2 f_equal. f_equal. lia.
Qed.

Lemma store_rows_overflows rs b n :
  0 <= n <= Z.of_nat (length b) → Z.of_nat (length b) < 2 ^ 31 →
  Z.of_nat (length b) < n + Z.of_nat (length rs) →
  store_rows rs (DfsSt b n) = Err (OutOfBounds (Z.of_nat (length b))).
Proof.
  intros Hn Hb Hl. set (k := (length b - Z.to_nat n)%nat).
  rewrite <- (take_drop k rs), store_rows_app.
  erewrite bind_Ok by (apply store_rows_fits; rewrite ?length_take; lia).
  rewrite length_take, min_l by lia.
  destruct (drop k rs) as [|r rs'] eqn:Hd.
  { apply (f_equal length) in Hd. rewrite length_drop in Hd. simpl in Hd. lia. }
  simpl. unfold store_row, mbind, M_bind, gets, buf_store. simpl. rewrite length_inserts.
  replace (n + Z.of_nat k) with (Z.of_nat (length b)) by lia.
  by rewrite Z.ltb_irrefl, andb_false_r.
Qed.

(** ** [dfs] lists the tree in depth-first order *)

Section dfs_proof.
Context `{TaskLayout}.

Lemma in_memory_inv m i ts :
  in_memory m (Tree i ts) →
  ∃ par cr,
    (rd m (t_addr i + off_parent) = Ok par ∧
     (if par =? 0 then Ok 0 else rd m (par + off_pid)) = Ok (t_ppid i)) ∧
    rd m (t_addr i + off_pid) = Ok (t_pid i) ∧
    rd m (t_addr i + off_flags) = Ok (t_flags i) ∧
    rd m (t_addr i + off_state) = Ok (t_state i) ∧
    (rd m (t_addr i + off_cred) = Ok cr ∧ rd m (cr + off_uid) = Ok (t_uid i)) ∧
    (rd_comm m (t_addr i + off_comm) = Ok (t_comm i) ∧ (String.length (t_comm i) <= 16)%nat) ∧
    is_list (lists m) (t_addr i + off_children) (sib_addr <$> ts) ∧
    Forall (in_memory m) ts.
Proof. inversion 1; subst. by exists par, cr. Qed.

Lemma in_memory_pid m t : in_memory m t → rd m (t_addr (info t) + off_pid) = Ok (t_pid (info t)).
Proof. destruct t. intros (? & ? & _ & Hp & _)%in_memory_inv. done. Qed.

Lemma lists_read_next m hd xs :
  is_list (lists m) hd xs → lists_read m (get_next hd) = Ok (first hd xs).
Proof.
  intros Hl. unfold lists_read. by erewrite get_next_ok by (by eapply is_list_next).
Qed.

Lemma lists_read_empty m hd xs :
  is_list (lists m) hd xs → lists_read m (list_empty hd) = Ok (bool_decide (xs = [])).
Proof. intros Hl. unfold lists_read. by erewrite list_empty_run. Qed.

(** The next sibling of a child is read from the next child, and the one of the
    last child from the flag word of the parent. *)
Lemma sibling_reads_child m i ts1 t ts2 :
  in_memory m (Tree i (ts1 ++ t :: ts2)) →
  sibling_reads m (t_addr (info t)) (next_pid (t_flags i) ts2).
Proof.
  intros (par & cr & _ & _ & Hfl & _ & _ & _ & Hl & Hts)%in_memory_inv. right.
  rewrite fmap_app, fmap_cons in Hl. pose proof Hl as Hl'. apply is_list_rotate in Hl'.
  eexists. split_and!; [by apply (is_list_next _ _ _ Hl')|..].
  - destruct Hl' as [[Hnd _]%NoDup_cons _]. destruct ts2 as [|t2 ts2]; cbn; set_solver.
  - destruct ts2 as [|t2 ts2]; cbn.
    + rewrite <- Hfl. f_equal. unfold sibling_entry, off_sibling, off_flags. lia.
    + apply Forall_app in Hts as [_ [_ [Ht2 _]%Forall_cons]%Forall_cons].
      rewrite <- (in_memory_pid _ _ Ht2). f_equal. unfold sibling_entry, sib_addr. lia.
Qed.

Lemma substring_all s n : (String.length s <= n)%nat → String.substring 0 n s = s.
Proof.
  revert n. induction s as [|c s IH]; intros [|n]; simpl; intros Hn; try done; [lia|].
  rewrite IH; [done|lia].
Qed.

Lemma convert_row m i ts next :
  in_memory m (Tree i ts) → sibling_reads m (t_addr i) next →
  convert m (t_addr i) = Ok (row i ts next).
Proof.
  intros (par & cr & [Hpar Hpp] & Hp & _ & Hst & [Hcr Hu] & [Hc Hlen] & Hl & Hts)%in_memory_inv Hs.
  unfold convert, mbind, res_bind, mret, res_ret.
  rewrite Hpar, Hpp, Hp, (lists_read_empty _ _ _ Hl), (lists_read_next _ _ _ Hl).
  assert ((if bool_decide (sib_addr <$> ts = []) then Ok 0
           else rd m (sibling_entry (first (t_addr i + off_children) (sib_addr <$> ts)) + off_pid))
          = Ok (first_pid ts)) as ->.
  { destruct ts as [|t ts]; [done|]. apply Forall_cons in Hts as [Ht _].
    cbn. rewrite <- (in_memory_pid _ _ Ht). f_equal. unfold sibling_entry, sib_addr. lia. }
  destruct Hs as [[Hse ->]|(s & Hn & Hne & Hr)].
  - rewrite (lists_read_empty _ _ _ Hse). cbn. rewrite Hst, Hcr, Hu.
    unfold get_task_comm, mbind, res_bind, mret, res_ret. by rewrite Hc, substring_all.
  - assert (lists_read m (list_empty (t_addr i + off_sibling)) = Ok false) as ->.
    { unfold lists_read, list_empty. erewrite bind_Ok by (by apply get_next_ok).
      cbn. by rewrite (proj2 (Z.eqb_neq _ _)). }
    unfold lists_read at 1. erewrite get_next_ok by done. rewrite Hr, Hst, Hcr, Hu.
    unfold get_task_comm, mbind, res_bind, mret, res_ret. by rewrite Hc, substring_all.
Qed.

Lemma dfs_children_rows m i ts1 ts2 lfuel rec s :
  in_memory m (Tree i (ts1 ++ ts2)) → (length ts2 <= lfuel)%nat →
  (∀ t ts s, t :: ts `suffix_of` ts2 →
     rec (t_addr (info t)) s = store_rows (rows (next_pid (t_flags i) ts) t) s) →
  dfs_children m rec lfuel (first (t_addr i + off_children) (sib_addr <$> ts2))
    (t_addr i + off_children) s = store_rows (forest_rows (t_flags i) ts2) s.
Proof.
  revert ts1 lfuel s. induction ts2 as [|t ts2 IH]; intros ts1 lfuel s Hm Hf Hrec.
  - destruct lfuel; simpl; by rewrite Z.eqb_refl.
  - destruct lfuel as [|lfuel]; simpl in Hf; [lia|].
    destruct (in_memory_inv _ _ _ Hm) as (par & cr & _ & _ & _ & _ & _ & _ & Hl & _).
    rewrite fmap_app, fmap_cons in Hl.
    cbn [dfs_children forest_rows fmap list_fmap]. change (first _ (_ :: _)) with (sib_addr t).
    assert ((sib_addr t =? t_addr i + off_children) = false) as ->.
    { apply Z.eqb_neq. destruct Hl as [[Hnd _]%NoDup_cons _]. set_solver. }
    assert (sibling_entry (sib_addr t) = t_addr (info t)) as ->.
    { unfold sibling_entry, sib_addr. lia. }
    rewrite store_rows_app. unfold mbind at 1 3, M_bind at 1 3.
    rewrite (Hrec t ts2 s) by done.
    destruct (store_rows _ s) as [[[] s']|]; [|done].
    unfold mbind, M_bind, lift_res.
    apply is_list_rotate in Hl. rewrite (lists_read_next _ _ _ Hl).
    replace (first (sib_addr t) _) with (first (t_addr i + off_children) (sib_addr <$> ts2))
      by (by destruct ts2).
    apply (IH (ts1 ++ [t])); [by rewrite <- app_assoc|lia|].
    intros t' ts' s'' Hsuf. apply Hrec. by apply suffix_cons_r.
Qed.

Lemma dfs_rows m lfuel fuel t next s :
  in_memory m t → sibling_reads m (t_addr (info t)) next →
  (tree_size t <= fuel)%nat → (tree_size t <= lfuel)%nat →
  dfs m lfuel fuel (t_addr (info t)) s = store_rows (rows next t) s.
Proof.
  revert t next s. induction fuel as [|fuel IH]; intros [i ts] next s Hm Hs Hf Hlf;
    rewrite tree_size_eq in *; [lia|].
  rewrite rows_eq. cbn [dfs store_rows info].
  unfold store_row, mbind, M_bind, gets, lift_res. rewrite (convert_row _ _ _ _ Hm Hs).
  destruct (buf_store _ _ s) as [[[] s1]|]; [|done]. destruct (incr_nr s1) as [[[] s2]|]; [|done].
  destruct (in_memory_inv _ _ _ Hm) as (par & cr & _ & _ & _ & _ & _ & _ & Hl & Hts).
  rewrite (lists_read_next _ _ _ Hl).
  pose proof (forest_size_length ts).
  apply (dfs_children_rows _ _ []); [done|lia|].
  intros t' ts' s' [ts0 ->]. rewrite Forall_app, Forall_cons in Hts.
  assert (tree_size t' <= forest_size (ts0 ++ t' :: ts'))%nat.
  { unfold forest_size. rewrite sum_list_with_app. simpl. lia. }
  apply IH; [apply Hts|by apply (sibling_reads_child _ _ ts0)|lia|lia].
Qed.
End dfs_proof.

(** ** Theorems about the system call *)

Lemma rows_length next t : length (rows next t) = tree_size t.
Proof.
  revert next. induction t as [i ts IH] using tree_forall_ind. intros next.
  rewrite rows_eq, tree_size_eq. simpl. f_equal. unfold forest_size.
  induction IH as [|t ts Ht _ IHts]; simpl; [done|]. by rewrite length_app, Ht, IHts.
Qed.

Section theorems.
Context `{TaskLayout}.

(** The run of [dfs] inside the system call. *)
Lemma run_dfs_fits m t lfuel fuel b (s : call_st) :
  in_memory m t → is_list (lists m) (t_addr (info t) + off_sibling) [] →
  (tree_size t <= fuel)%nat → (tree_size t <= lfuel)%nat →
  length b = Z.to_nat MAXBUFFERSIZE → (tree_size t <= Z.to_nat MAXBUFFERSIZE)%nat →
  run_dfs m lfuel fuel (t_addr (info t)) (Some b) s =
  Ok ((rows 0 t ++ drop (tree_size t) b, Z.of_nat (tree_size t)), s).
Proof.
  intros Hm Hs Hf Hlf Hb Ht. unfold run_dfs, lift_res.
  rewrite (dfs_rows _ _ _ _ 0) by (try done; by left).
  rewrite store_rows_fits by (rewrite ?Hb, ?rows_length; unfold MAXBUFFERSIZE in *; lia).
  simpl. rewrite rows_length. do 3 f_equal.
  rewrite <- (take_drop (tree_size t) b) at 1.
  rewrite list_inserts_0_r; [done|].
  rewrite rows_length, length_take. unfold MAXBUFFERSIZE in *. lia.
Qed.

Lemma ptree_run m t lfuel fuel b s :
  in_memory m t → is_list (lists m) (t_addr (info t) + off_sibling) [] →
  (tree_size t <= fuel)%nat → (tree_size t <= lfuel)%nat →
  length b = Z.to_nat MAXBUFFERSIZE → (tree_size t <= Z.to_nat MAXBUFFERSIZE)%nat →
  ptree m lfuel fuel (t_addr (info t)) (Some b) true true s =
  Ok (0, CallSt (p_live s) (p_readers s) (Some (rows 0 t ++ drop (tree_size t) b))
           (Some (Z.of_nat (tree_size t)))).
Proof.
  intros. unfold ptree, mbind, M_bind, kmalloc, read_lock, modify.
  by rewrite run_dfs_fits.
Qed.

(** C19.  With a task tree of at most [MAXBUFFERSIZE] tasks and a writable
    destination, [ptree] returns 0, gives user space the tasks in depth-first
    order and their number, releases [tasklist_lock] and frees its buffer.  The
    rest of the user buffer receives the uninitialised contents of the kernel
    buffer. *)
Theorem ptree_lists_tree m t lfuel fuel b s :
  in_memory m t → is_list (lists m) (t_addr (info t) + off_sibling) [] →
  (tree_size t <= fuel)%nat → (tree_size t <= lfuel)%nat →
  length b = Z.to_nat MAXBUFFERSIZE → (tree_size t <= Z.to_nat MAXBUFFERSIZE)%nat →
  ptree m lfuel fuel (t_addr (info t)) (Some b) true true s =
  Ok (0, CallSt (p_live s) (p_readers s) (Some (rows 0 t ++ drop (tree_size t) b))
           (Some (Z.of_nat (tree_size t)))).
Proof. apply ptree_run. Qed.

(** When either copy to user space fails, [ptree] returns 1 and still releases
    [tasklist_lock], but the kernel buffer of 2048 entries stays allocated. *)
Theorem ptree_error_leaks_buffer m t lfuel fuel b s buf_ok nr_ok :
  in_memory m t → is_list (lists m) (t_addr (info t) + off_sibling) [] →
  (tree_size t <= fuel)%nat → (tree_size t <= lfuel)%nat →
  length b = Z.to_nat MAXBUFFERSIZE → (tree_size t <= Z.to_nat MAXBUFFERSIZE)%nat →
  buf_ok && nr_ok = false →
  ∃ s', ptree m lfuel fuel (t_addr (info t)) (Some b) buf_ok nr_ok s = Ok (1, s') ∧
    p_live s' = S (p_live s) ∧ p_readers s' = p_readers s ∧ p_nr s' = p_nr s.
Proof.
  intros ???? ?? Hok. unfold ptree, mbind, M_bind, kmalloc, read_lock, modify.
  rewrite run_dfs_fits by done.
  destruct buf_ok, nr_ok; try discriminate Hok; eexists; split_and!; done.
Qed.

(** C35.  With more tasks than the kernel buffer has entries ([MAXBUFFERSIZE] in the
    module; any smaller size [b] here) [ptree] does not return: [dfs] stores past
    the end of the buffer, at the first entry that does not fit. *)
Theorem ptree_overruns_buffer m t lfuel fuel b s buf_ok nr_ok :
  in_memory m t → is_list (lists m) (t_addr (info t) + off_sibling) [] →
  (tree_size t <= fuel)%nat → (tree_size t <= lfuel)%nat →
  (length b <= Z.to_nat MAXBUFFERSIZE)%nat → (length b < tree_size t)%nat →
  ptree m lfuel fuel (t_addr (info t)) (Some b) buf_ok nr_ok s =
  Err (OutOfBounds (Z.of_nat (length b))).
Proof.
  intros Hm Hs Hf Hlf Hb Ht. unfold ptree, mbind, M_bind, kmalloc, read_lock, modify, run_dfs, lift_res.
  rewrite (dfs_rows _ _ _ _ 0) by (try done; by left).
  by rewrite store_rows_overflows by (rewrite ?rows_length; unfold MAXBUFFERSIZE in *; simpl; lia).
Qed.
End theorems.

(** ** A concrete process tree

    [swapper] with the children [init] (which has executed a program, so that its
    flag word is 1) and [kthreadd]; [init] has one child. *)

#[export] Instance demo_layout : TaskLayout := {|
  off_state := 0; off_pid := 16; off_parent := 24; off_children := 28; off_cred := 44;
  off_comm := 48; off_uid := 4 |}.

Definition demo_task (a par p st fl cred : Z) : list (Z * Z) :=
  [(a + 0, st); (a + 8, fl); (a + 16, p); (a + 24, par); (a + 44, cred)].

Definition demo_mem : tmem := TMem
  (list_to_map
     (demo_task 0x1000 0x1000 0 0 0 0x9000 ++ demo_task 0x2000 0x1000 1 1 1 0x9000 ++
      demo_task 0x3000 0x1000 2 1 0 0x9000 ++ demo_task 0x4000 0x2000 45 1 1 0x9000 ++
      [(0x9004, 0)]))
  (list_to_map
     [(0x1030, "swapper"); (0x2030, "init"); (0x3030, "kthreadd"); (0x4030, "ueventd")])
  (ListHeap
     (list_to_map
        [(0x101c, 0x2024); (0x2024, 0x3024); (0x3024, 0x101c); (0x1024, 0x1024);
         (0x201c, 0x4024); (0x4024, 0x201c); (0x301c, 0x301c); (0x401c, 0x401c)])
     (list_to_map
        [(0x2024, 0x101c); (0x3024, 0x2024); (0x101c, 0x3024); (0x1024, 0x1024);
         (0x4024, 0x201c); (0x201c, 0x4024); (0x301c, 0x301c); (0x401c, 0x401c)])).

Definition demo_ueventd : tree := Tree (TInfo 0x4000 1 45 1 0 "ueventd" 1) [].
Definition demo_init : tree := Tree (TInfo 0x2000 0 1 1 0 "init" 1) [demo_ueventd].
Definition demo_kthreadd : tree := Tree (TInfo 0x3000 0 2 1 0 "kthreadd" 0) [].
Definition demo_tree : tree := Tree (TInfo 0x1000 0 0 0 0 "swapper" 0) [demo_init; demo_kthreadd].

Ltac solve_in_memory :=
  eapply In_memory; try reflexivity; [simpl; lia | concrete_list | repeat constructor].

Lemma demo_tree_in_memory : in_memory demo_mem demo_tree.
Proof.
  assert (in_memory demo_mem demo_ueventd) by solve_in_memory.
  assert (in_memory demo_mem demo_init) by (solve_in_memory; done).
  assert (in_memory demo_mem demo_kthreadd) by solve_in_memory.
  solve_in_memory; done.
Qed.

Lemma demo_root_sibling : is_list (lists demo_mem) 0x1024 [].
Proof. concrete_list. Qed.

Definition demo_call : call_st := CallSt 0 0 None None.

Lemma ptree_lists_tree_witness :
  ptree demo_mem 4 4 0x1000 (Some (replicate 2048 inhabitant)) true true demo_call =
  Ok (0, CallSt 0 0 (Some (rows 0 demo_tree ++ replicate 2044 inhabitant)) (Some 4)).
Proof.
  apply (ptree_lists_tree demo_mem demo_tree 4 4 (replicate 2048 inhabitant) demo_call
           demo_tree_in_memory demo_root_sibling);
    [simpl; lia | simpl; lia | reflexivity | unfold MAXBUFFERSIZE; simpl; lia].
Defined.

Lemma ptree_error_leaks_buffer_witness :
  ∃ s', ptree demo_mem 4 4 0x1000 (Some (replicate 2048 inhabitant)) true false demo_call = Ok (1, s')
    ∧ p_live s' = 1%nat.
Proof.
  destruct (ptree_error_leaks_buffer demo_mem demo_tree 4 4 (replicate 2048 inhabitant) demo_call
              true false demo_tree_in_memory demo_root_sibling) as (s' & Hr & Hl & _);
    [simpl; lia | simpl; lia | reflexivity | unfold MAXBUFFERSIZE; simpl; lia | reflexivity |].
  exists s'. split; [exact Hr | exact Hl].
Defined.

Lemma ptree_overruns_buffer_witness :
  ptree demo_mem 4 4 0x1000 (Some (replicate 3 inhabitant)) true true demo_call = Err (OutOfBounds 3).
Proof.
  apply (ptree_overruns_buffer demo_mem demo_tree 4 4 (replicate 3 inhabitant) demo_call true true
           demo_tree_in_memory demo_root_sibling);
    [simpl; lia | simpl; lia | unfold MAXBUFFERSIZE; simpl; lia | simpl; lia].
Defined.
