(* ===== verification/PTreeDisplay.v ===== *)
(** * The user program that prints the process tree

    Models [Project 1/ptree/jni/ptree.c]: [display], which repairs the
    [next_sibling_pid] fields and computes the indentation with a stack in one
    pass over the buffer, and [main], which calls the system call of
    [PTree.v]. *)

From Stdlib Require Import Ascii.
From stdpp Require Import pretty.
From S2P Require Import Prelude ListHead PTree.

Definition MAXPROCESSNUMBER : nat := 256.

(** The arrays of [display]: the user's buffer and the local arrays [stack] and
    [tabcnt], each of fixed length, and the counter [top]. *)
Record disp := Disp {
  buf : list prinfo;
  stack : list nat;
  tabcnt : list nat;
  top : nat;
}.

Definition get_buf (i : nat) : M disp prinfo := λ s,
  match buf s !! i with Some r => Ok (r, s) | None => Err (OutOfBounds (Z.of_nat i)) end.

(** [buf[i].next_sibling_pid = 0] *)
Definition clear_next (r : prinfo) : prinfo :=
  Prinfo (parent_pid r) (pid r) (first_child_pid r) 0 (state r) (uid r) (comm r).

Definition clear_next_sibling (i : nat) : M disp () := λ s,
  match buf s !! i with
  | Some r => Ok ((), Disp (<[i := clear_next r]> (buf s)) (stack s) (tabcnt s) (top s))
  | None => Err (OutOfBounds (Z.of_nat i))
  end.

Definition get_stack (i : nat) : M disp nat := λ s,
  match stack s !! i with Some v => Ok (v, s) | None => Err (OutOfBounds (Z.of_nat i)) end.

Definition set_stack (i v : nat) : M disp () := λ s,
  match stack s !! i with
  | Some _ => Ok ((), Disp (buf s) (<[i := v]> (stack s)) (tabcnt s) (top s))
  | None => Err (OutOfBounds (Z.of_nat i))
  end.

Definition set_tabcnt (i v : nat) : M disp () := λ s,
  match tabcnt s !! i with
  | Some _ => Ok ((), Disp (buf s) (stack s) (<[i := v]> (tabcnt s)) (top s))
  | None => Err (OutOfBounds (Z.of_nat i))
  end.

Definition get_tabcnt (i : nat) : M disp nat := λ s,
  match tabcnt s !! i with Some v => Ok (v, s) | None => Err (OutOfBounds (Z.of_nat i)) end.

Definition set_top (t : nat) : M disp () :=
  modify (λ s, Disp (buf s) (stack s) (tabcnt s) t).

(** [i == *nr-1 || (buf[i].next_sibling_pid != buf[i+1].pid &&
    buf[i].first_child_pid != buf[i+1].pid)] *)
Definition no_next (nr : Z) (i : nat) : M disp bool :=
  if Z.of_nat i =? nr - 1 then mret true else
  r ← get_buf i;
  r' ← get_buf (S i);
  mret (negb (next_sibling_pid r =? pid r') && negb (first_child_pid r =? pid r')).

(** [top == 0 || buf[i].pid == buf[stack[top-1]].first_child_pid] *)
Definition is_first_child (i : nat) : M disp bool :=
  t ← gets top;
  match t with
  | O => mret true
  | S t =>
      r ← get_buf i;
      j ← get_stack t;
      r' ← get_buf j;
      mret (pid r =? first_child_pid r')
  end.

(** [while (buf[i].pid != buf[stack[top-1]].next_sibling_pid)
       { --top; buf[stack[top]].next_sibling_pid = 0; }]:
    with [top] = 0 the condition reads [stack[-1]]. *)
Fixpoint pop_loop (i t : nat) : M disp () :=
  match t with
  | O => fail (OutOfBounds (-1))
  | S t =>
      r ← get_buf i;
      j ← get_stack t;
      r' ← get_buf j;
      if pid r =? next_sibling_pid r' then mret () else
      set_top t;;
      j' ← get_stack t;
      clear_next_sibling j';;
      pop_loop i t
  end.

(** The [if]/[else] of the loop body that puts [i] on the stack. *)
Definition enter_stack (i : nat) : M disp () :=
  f ← is_first_child i;
  if f : bool then
    t ← gets top;
    set_stack t i;;
    set_top (S t)
  else
    t ← gets top;
    pop_loop i t;;
    t ← gets top;
    set_stack (pred t) i.

(** The body of the preprocessing loop. *)
Definition display_step (nr : Z) (i : nat) : M disp () :=
  c ← no_next nr i;
  when c (clear_next_sibling i);;
  enter_stack i;;
  t ← gets top;
  set_tabcnt i (pred t).

(** [for (i = from; i < *nr; ++i)]: [n] is the number of iterations left. *)
Fixpoint display_loop (nr : Z) (from n : nat) : M disp () :=
  match n with
  | O => mret ()
  | S n => display_step nr from;; display_loop nr (S from) n
  end.

(** The text of one line: [printf("\t")] as often as counted, then
    [printf("%s,%d,%ld,%d,%d,%d,%ld\n", ...)]. *)
Fixpoint tabs (n : nat) : string :=
  match n with O => "" | S n => String "009"%char (tabs n) end.

Definition print_line (n : nat) (r : prinfo) : string :=
  tabs n +:+ comm r +:+ "," +:+ pretty (pid r) +:+ "," +:+ pretty (state r) +:+ "," +:+
  pretty (parent_pid r) +:+ "," +:+ pretty (first_child_pid r) +:+ "," +:+
  pretty (next_sibling_pid r) +:+ "," +:+ pretty (uid r) +:+ String "010"%char "".

(** The printing loop. *)
Fixpoint print_loop (from n : nat) : M disp (list string) :=
  match n with
  | O => mret []
  | S n =>
      t ← get_tabcnt from;
      r ← get_buf from;
      rest ← print_loop (S from) n;
      mret (print_line t r :: rest)
  end.

(** [display(buf, nr)]; [junk] is the uninitialised array [stack].  The lines
    printed are the result. *)
Definition display (b : list prinfo) (nr : Z) (junk : list nat) : res (list string) :=
  let n := Z.to_nat nr in
  match (display_loop nr 0 n;; print_loop 0 n)
          (Disp b junk (replicate MAXPROCESSNUMBER 0%nat) 0) with
  | Ok (out, _) => Ok out
  | Err e => Err e
  end.

(** [main]: [buf0] and [nr0] are the uninitialised contents of the buffer and of
    the variable [nr]; the result of the system call is ignored. *)
Definition main `{TaskLayout} (m : tmem) (lfuel fuel : nat) (init_task : Z)
    (kmem : option (list prinfo)) (buf_ok nr_ok : bool)
    (buf0 : list prinfo) (nr0 : Z) (junk : list nat) : res (list string) :=
  '(_, s) ← ptree m lfuel fuel init_task kmem buf_ok nr_ok (CallSt 0 0 None None);
  display (default buf0 (p_buf s)) (default nr0 (p_nr s)) junk.

(** ** What is shown for a tree

    [shown right d ns t]: the lines of [t] with their indentation, when [t] is at
    depth [d], the next sibling shown for its root is [ns], and [right] says
    whether [t] ends the whole listing.  The last child of a task shows 0, except
    that a last child with children of its own that ends the listing keeps the
    word [w] of its parent that [convert] read. *)

Definition has_children (t : tree) : bool :=
  let 'Tree _ ts := t in match ts with [] => false | _ => true end.

Definition is_nil {A} (l : list A) : bool := match l with [] => true | _ => false end.

Definition shown_next (right : bool) (w : Z) (t : tree) (ts : list tree) : Z :=
  match ts with
  | t' :: _ => t_pid (info t')
  | [] => if right && has_children t then w else 0
  end.

Fixpoint shown (right : bool) (d : nat) (ns : Z) (t : tree) : list (nat * prinfo) :=
  let 'Tree i ts := t in
  (d, row i ts ns) ::
  (fix forest ts :=
     match ts with
     | [] => []
     | t :: ts' =>
         shown (right && is_nil ts') (S d) (shown_next right (t_flags i) t ts') t ++ forest ts'
     end) ts.

Fixpoint shown_forest (right : bool) (d : nat) (w : Z) (ts : list tree) : list (nat * prinfo) :=
  match ts with
  | [] => []
  | t :: ts' => shown (right && is_nil ts') d (shown_next right w t ts') t ++ shown_forest right d w ts'
  end.

(** The tasks of a tree in depth-first order. *)
Fixpoint infos (t : tree) : list tinfo :=
  let 'Tree i ts := t in
  i :: (fix go ts := match ts with [] => [] | t :: ts => infos t ++ go ts end) ts.

Fixpoint forest_infos (ts : list tree) : list tinfo :=
  match ts with [] => [] | t :: ts => infos t ++ forest_infos ts end.

(** [listable l]: in the listing [l], no flag word equals the pid of a task
    listed later, and only the first task may have pid 0. *)
Fixpoint listable (l : list tinfo) : Prop :=
  match l with
  | [] => True
  | a :: l => Forall (λ b, t_flags a ≠ t_pid b ∧ t_pid b ≠ 0) l ∧ listable l
  end.

Lemma shown_eq right d ns i ts :
  shown right d ns (Tree i ts) = (d, row i ts ns) :: shown_forest right (S d) (t_flags i) ts.
Proof. simpl. f_equal. induction ts as [|t ts IH]; simpl; [done|]. by rewrite IH. Qed.

Lemma infos_eq i ts : infos (Tree i ts) = i :: forest_infos ts.
Proof. reflexivity. Qed.

Lemma listable_app l1 l2 :
  listable (l1 ++ l2) ↔ listable l1 ∧ listable l2 ∧
    Forall (λ a, Forall (λ b, t_flags a ≠ t_pid b ∧ t_pid b ≠ 0) l2) l1.
Proof.
  induction l1 as [|a l1 IH]; simpl.
  - split; [|tauto]. auto using Forall_nil_2.
  - rewrite IH, Forall_app, Forall_cons. tauto.
Qed.

Lemma forest_rows_length w ts : length (forest_rows w ts) = forest_size ts.
Proof.
  induction ts as [|t ts IH]; simpl; [done|]. by rewrite length_app, rows_length, IH.
Qed.

(** ** Clearing the next sibling of a list of entries *)

Definition zero_all (ps : list nat) (B : list prinfo) : list prinfo :=
  foldr (λ p B, alter clear_next p B) B ps.

Lemma clear_insert (B : list prinfo) p r :
  B !! p = Some r → <[p := clear_next r]> B = alter clear_next p B.
Proof. intros Hp. rewrite list_insert_alter. apply list_alter_ext; [congruence|done]. Qed.

Lemma zero_all_cons p ps B : zero_all (p :: ps) B = alter clear_next p (zero_all ps B).
Proof. done. Qed.

Lemma zero_all_snoc ps p B : zero_all (ps ++ [p]) B = zero_all ps (alter clear_next p B).
Proof. unfold zero_all. by rewrite foldr_app. Qed.

Lemma zero_all_lookup ps B k :
  zero_all ps B !! k = if decide (k ∈ ps) then clear_next <$> B !! k else B !! k.
Proof.
  induction ps as [|p ps IH]; [by rewrite decide_False by apply not_elem_of_nil|].
  rewrite zero_all_cons. destruct (decide (k = p)) as [->|Hne].
  - rewrite list_lookup_alter_eq, IH, (decide_True (P := p ∈ p :: ps)) by set_solver.
    destruct (decide (p ∈ ps)); [|done]. by destruct (B !! p) as [[]|].
  - rewrite list_lookup_alter_ne, IH by done.
    destruct (decide (k ∈ ps)), (decide (k ∈ p :: ps)); set_solver.
Qed.

Lemma zero_all_length ps B : length (zero_all ps B) = length B.
Proof. induction ps as [|p ps IH]; [done|]. by rewrite zero_all_cons, length_alter. Qed.

Lemma zero_all_app ps B1 B2 :
  (∀ p, p ∈ ps → (p < length B1)%nat) → zero_all ps (B1 ++ B2) = zero_all ps B1 ++ B2.
Proof.
  induction ps as [|p ps IH]; intros Hp; [done|].
  rewrite !zero_all_cons, IH by set_solver. rewrite alter_app_l; [done|].
  rewrite zero_all_length. apply Hp. set_solver.
Qed.

(** ** The state of [display] seen through the stack of indices *)

Definition rel (s : disp) (B : list prinfo) (Sk T : list nat) : Prop :=
  buf s = B ∧ tabcnt s = T ∧ take (top s) (stack s) = Sk ∧
  top s = length Sk ∧ length (stack s) = MAXPROCESSNUMBER.

Lemma rel_stack_lookup s B Sk T k j :
  rel s B Sk T → Sk !! k = Some j → stack s !! k = Some j.
Proof.
  intros (_ & _ & <- & Ht & _) Hk. pose proof (lookup_lt_Some _ _ _ Hk) as Hlt.
  rewrite <- Ht in Hlt. by rewrite lookup_take_lt in Hk.
Qed.

Lemma rel_push s B Sk T i :
  rel s B Sk T → (length Sk < MAXPROCESSNUMBER)%nat →
  ∃ s', set_stack (length Sk) i s = Ok ((), s') ∧
    rel (Disp (buf s') (stack s') (tabcnt s') (S (length Sk))) B (Sk ++ [i]) T.
Proof.
  intros (HB & HT & Hst & Ht & Hl) Hlt. unfold set_stack.
  destruct (lookup_lt_is_Some_2 (stack s) (length Sk)) as [x Hx]; [lia|]. rewrite Hx.
  eexists. split; [done|]. unfold rel. simpl.
  rewrite length_insert, length_app. simpl. split_and!; try done; [|lia].
  rewrite (take_S_r _ _ i) by (rewrite list_lookup_insert_eq; [done|lia]).
  rewrite take_insert_ge by lia. by rewrite <- Ht, Hst.
Qed.

Lemma rel_replace s B Sk T j i :
  rel s B (Sk ++ [j]) T →
  ∃ s', set_stack (pred (top s)) i s = Ok ((), s') ∧ rel s' B (Sk ++ [i]) T.
Proof.
  intros Hr. pose proof Hr as (HB & HT & Hst & Ht & Hl).
  rewrite length_app in Ht. simpl in Ht. replace (pred (top s)) with (length Sk) by lia.
  unfold set_stack.
  rewrite (rel_stack_lookup _ _ _ _ _ j Hr) by (by rewrite lookup_app_r, Nat.sub_diag by lia).
  eexists. split; [done|]. unfold rel. simpl.
  rewrite length_insert, length_app. simpl. split_and!; try done.
  rewrite Ht, Nat.add_1_r.
  assert (length Sk < length (stack s))%nat.
  { apply (f_equal length) in Hst. rewrite length_take, length_app in Hst. simpl in Hst. lia. }
  rewrite (take_S_r _ _ i) by (by rewrite list_lookup_insert_eq).
  rewrite take_insert_ge by lia. f_equal.
  apply (f_equal (take (length Sk))) in Hst. rewrite take_take, take_app_length in Hst.
  by rewrite min_l in Hst by lia.
Qed.

(** Popping the entries [ps] down to the entry [j] whose next sibling is the
    task of row [i]. *)
Lemma pop_loop_run i ri s B Sk j rj ps T :
  rel s B (Sk ++ j :: ps) T → B !! i = Some ri → i ∉ ps → pid ri ≠ 0 →
  B !! j = Some rj → next_sibling_pid rj = pid ri → j ∉ ps →
  (∀ p, p ∈ ps → ∃ r, B !! p = Some r ∧ next_sibling_pid r ≠ pid ri) →
  ∃ s', pop_loop i (length (Sk ++ j :: ps)) s = Ok ((), s') ∧
    rel s' (zero_all ps B) (Sk ++ [j]) T.
Proof.
  revert s B. induction ps as [|p ps IH] using rev_ind; intros s B Hr Hi Hni Hp0 Hj Hnj Hjp Hps.
  - exists s. rewrite length_app. simpl. rewrite Nat.add_1_r. simpl. pose proof Hr as (HB & _).
    unfold mbind, M_bind, get_buf, get_stack. rewrite HB, Hi.
    rewrite (rel_stack_lookup _ _ _ _ _ j Hr) by (by rewrite lookup_app_r, Nat.sub_diag by lia).
    rewrite HB, Hj, Hnj, Z.eqb_refl. done.
  - destruct (Hps p) as (rp & Hrp & Hnp); [set_solver|].
    pose proof Hr as (HB & HT & Hst & Ht & Hl).
    assert (length (Sk ++ j :: ps ++ [p]) = S (length (Sk ++ j :: ps))) as Hlen.
    { rewrite !length_app. simpl. rewrite length_app. simpl. lia. }
    rewrite Hlen in *.
    assert (stack s !! length (Sk ++ j :: ps) = Some p) as Hsp.
    { eapply (rel_stack_lookup _ _ _ _ _ _ Hr).
      rewrite app_comm_cons, app_assoc, lookup_app_r, Nat.sub_diag by lia. done. }
    cbn [pop_loop]. unfold mbind at 1, M_bind at 1, get_buf at 1. rewrite HB, Hi.
    unfold mbind at 1, M_bind at 1, get_stack at 1. rewrite Hsp.
    unfold mbind at 1, M_bind at 1, get_buf at 1. rewrite HB, Hrp.
    rewrite (proj2 (Z.eqb_neq _ _)) by done.
    unfold mbind at 1, M_bind at 1, set_top, modify.
    unfold mbind at 1, M_bind at 1, get_stack at 1. simpl stack. rewrite Hsp.
    unfold mbind at 1, M_bind at 1, clear_next_sibling. simpl buf. rewrite HB, Hrp. simpl.
    rewrite zero_all_snoc.
    rewrite (clear_insert _ _ _ Hrp).
    apply IH; clear IH.
    + unfold rel. simpl. split_and!; try done.
      apply (f_equal (take (length (Sk ++ j :: ps)))) in Hst.
      rewrite take_take, app_comm_cons, app_assoc, take_app_length in Hst.
      rewrite min_l in Hst by lia. done.
    + rewrite list_lookup_alter_ne by set_solver. done.
    + set_solver.
    + done.
    + rewrite list_lookup_alter_ne by set_solver. done.
    + done.
    + set_solver.
    + intros q Hq. destruct (decide (p = q)) as [->|].
      * exists (clear_next rp). rewrite list_lookup_alter_eq, Hrp. split; [done|]. simpl. lia.
      * rewrite list_lookup_alter_ne by done. apply Hps. set_solver.
Qed.

(** [ready P q base Cur ps]: with the stack [Cur], the step for the row after [P],
    whose pid is [q], leaves the stack [base] with that row on top, and clears
    the next sibling of the entries [ps]. *)
Inductive ready (P : list prinfo) (q : Z) (base Cur ps : list nat) : Prop :=
  | Ready_root : base = [] → Cur = [] → ps = [] → ready P q base Cur ps
  | Ready_first base' j r :
      base = base' ++ [j] → Cur = base → ps = [] →
      P !! j = Some r → first_child_pid r = q → ready P q base Cur ps
  | Ready_next j rj l rl Cur' :
      Cur = base ++ j :: ps → q ≠ 0 →
      P !! j = Some rj → next_sibling_pid rj = q → j ∉ ps →
      (∀ p, p ∈ ps → ∃ r, P !! p = Some r ∧ next_sibling_pid r ≠ q) →
      Cur = Cur' ++ [l] → P !! l = Some rl → first_child_pid rl ≠ q →
      ready P q base Cur ps.

Lemma rel_set_tabcnt s B Sk T i v :
  rel s B Sk T → (i < length T)%nat →
  ∃ s', set_tabcnt i v s = Ok ((), s') ∧ rel s' B Sk (<[i := v]> T).
Proof.
  intros (HB & HT & Hst & Ht & Hl) Hi. unfold set_tabcnt.
  destruct (lookup_lt_is_Some_2 (tabcnt s) i) as [x Hx]; [congruence|]. rewrite Hx.
  eexists. split; [done|]. unfold rel. simpl. by rewrite HT.
Qed.

Lemma rel_clear s B Sk T i (c : bool) r :
  rel s B Sk T → B !! i = Some r →
  ∃ s', when c (clear_next_sibling i) s = Ok ((), s') ∧
    rel s' (<[i := if c then clear_next r else r]> B) Sk T.
Proof.
  intros Hr Hi. destruct c; simpl.
  - destruct Hr as (HB & HT & Hst & Ht & Hl). unfold clear_next_sibling. rewrite HB, Hi.
    eexists. split; [done|]. unfold rel. simpl. done.
  - exists s. by rewrite list_insert_id.
Qed.

Lemma rel_get_buf s B Sk T i r :
  rel s B Sk T → B !! i = Some r → get_buf i s = Ok (r, s).
Proof. intros (HB & _) Hi. unfold get_buf. by rewrite HB, Hi. Qed.

Lemma rel_first_child s B Sk T i ri j rj :
  rel s B (Sk ++ [j]) T → B !! i = Some ri → B !! j = Some rj →
  is_first_child i s = Ok (pid ri =? first_child_pid rj, s).
Proof.
  intros Hr Hi Hj. unfold is_first_child, gets. unfold mbind at 1, M_bind at 1.
  pose proof Hr as (_ & _ & _ & Ht & _). rewrite Ht, length_app. simpl. rewrite Nat.add_1_r.
  erewrite bind_Ok by (by eapply rel_get_buf). unfold mbind at 1, M_bind at 1, get_stack.
  rewrite (rel_stack_lookup _ _ _ _ _ j Hr) by (by rewrite lookup_app_r, Nat.sub_diag by lia).
  by erewrite bind_Ok by (by eapply rel_get_buf).
Qed.

Lemma rel_first_child_empty s B T i : rel s B [] T → is_first_child i s = Ok (true, s).
Proof.
  intros (_ & _ & _ & Ht & _). unfold is_first_child, mbind, M_bind, gets. by rewrite Ht.
Qed.

(** The second half of the loop body, after the own next sibling was checked. *)
Lemma step_enter s P r R T base Cur ps :
  rel s (P ++ r :: R) Cur T → ready P (pid r) base Cur ps →
  (length base < MAXPROCESSNUMBER)%nat →
  ∃ s', enter_stack (length P) s = Ok ((), s') ∧
    rel s' (zero_all ps P ++ r :: R) (base ++ [length P]) T.
Proof.
  intros Hr Hrd Hlen. unfold enter_stack.
  assert ((P ++ r :: R) !! length P = Some r) as Hi by (by rewrite lookup_app_r, Nat.sub_diag).
  assert (∀ j x, P !! j = Some x → (P ++ r :: R) !! j = Some x) as HP by (intros; by apply lookup_app_l_Some).
  pose proof Hr as (_ & _ & _ & Ht & _).
  assert (∀ s0, rel s0 (P ++ r :: R) base T → ∃ s',
    (t ← gets top; set_stack t (length P);; set_top (S t)) s0 = Ok ((), s') ∧
    rel s' (P ++ r :: R) (base ++ [length P]) T) as Hpush.
  { intros s0 Hr0. destruct (rel_push _ _ _ _ (length P) Hr0 Hlen) as (s1 & Hs1 & Hr1).
    pose proof Hr0 as (_ & _ & _ & Ht0 & _). rewrite <- Ht0 in *.
    unfold mbind, M_bind, gets. rewrite Hs1. by eexists. }
  destruct Hrd as [-> -> -> | base' j rj -> -> -> Hj Hf | j rj l rl Cur' HC Hq Hj Hn Hjp Hps HC' Hl Hf].
  - destruct (Hpush s Hr) as (s' & Hs' & Hr'). exists s'. split; [|done].
    by erewrite bind_Ok by (by eapply rel_first_child_empty).
  - destruct (Hpush s Hr) as (s' & Hs' & Hr'). exists s'. split; [|done].
    erewrite bind_Ok by (eapply rel_first_child; eauto). by rewrite Hf, Z.eqb_refl.
  - rewrite HC' in Hr. erewrite bind_Ok by (eapply rel_first_child; eauto).
    rewrite (proj2 (Z.eqb_neq _ _)) by done. rewrite <- HC' in Hr.
    unfold mbind at 1, M_bind at 1, gets at 1. rewrite Ht. rewrite HC in *.
    destruct (pop_loop_run (length P) r s (P ++ r :: R) base j rj ps T) as (s1 & Hs1 & Hr1); try done.
    + intros Hin. destruct (Hps _ Hin) as (? & Hlk & _). apply lookup_lt_Some in Hlk. lia.
    + by apply HP.
    + intros p Hp. destruct (Hps p Hp) as (x & ? & ?). eauto.
    + erewrite bind_Ok by done.
      unfold mbind, M_bind, gets. rewrite zero_all_app in Hr1.
      * eapply rel_replace in Hr1 as (s' & Hs' & Hr'). eauto.
      * intros p Hp. destruct (Hps p Hp) as (x & Hx & _). by apply lookup_lt_Some in Hx.
Qed.

Lemma step_run nr s P r R T base Cur ps (c : bool) :
  rel s (P ++ r :: R) Cur T → ready P (pid r) base Cur ps →
  no_next nr (length P) s = Ok (c, s) →
  (length base < MAXPROCESSNUMBER)%nat → (length P < length T)%nat →
  ∃ s', display_step nr (length P) s = Ok ((), s') ∧
    rel s' (zero_all ps P ++ (if c then clear_next r else r) :: R) (base ++ [length P])
      (<[length P := length base]> T).
Proof.
  intros Hr Hrd Hc Hlen HT. unfold display_step. erewrite bind_Ok by done.
  destruct (rel_clear _ _ _ _ (length P) c r Hr) as (s1 & Hs1 & Hr1).
  { by rewrite lookup_app_r, Nat.sub_diag. }
  erewrite bind_Ok by done. rewrite insert_app_r_alt, Nat.sub_diag in Hr1 by lia. simpl in Hr1.
  destruct (step_enter s1 P (if c then clear_next r else r) R T base Cur ps) as (s2 & Hs2 & Hr2);
    [done|by destruct c|done|].
  erewrite bind_Ok by done. unfold mbind, M_bind, gets.
  pose proof Hr2 as (_ & _ & _ & Ht & _). rewrite Ht, length_app. simpl. rewrite Nat.add_1_r.
  by apply rel_set_tabcnt.
Qed.

Lemma display_loop_add nr from n1 n2 s :
  display_loop nr from (n1 + n2) s =
  (display_loop nr from n1;; display_loop nr (from + n1) n2) s.
Proof.
  revert from s. induction n1 as [|n1 IH]; intros from s; simpl.
  - by rewrite Nat.add_0_r.
  - unfold mbind, M_bind. destruct (display_step nr from s) as [[[] s']|]; [|done].
    rewrite IH. unfold mbind, M_bind. by replace (from + S n1)%nat with (S from + n1)%nat by lia.
Qed.

(** The rows and the indentations shown for a forest. *)
Definition sh (right : bool) (d : nat) (w : Z) (ts : list tree) : list prinfo :=
  snd <$> shown_forest right d w ts.

Fixpoint depths (d : nat) (t : tree) : list nat :=
  let 'Tree _ ts := t in
  d :: (fix go ts := match ts with [] => [] | t :: ts => depths (S d) t ++ go ts end) ts.

Fixpoint forest_depths (d : nat) (ts : list tree) : list nat :=
  match ts with [] => [] | t :: ts => depths d t ++ forest_depths d ts end.

Lemma depths_eq d i ts : depths d (Tree i ts) = d :: forest_depths (S d) ts.
Proof. simpl. f_equal. induction ts as [|t ts IH]; simpl; [done|]. by rewrite IH. Qed.

Lemma shown_depths right d ns t : fst <$> shown right d ns t = depths d t.
Proof.
  revert right d ns. induction t as [i ts IH] using tree_forall_ind. intros right d ns.
  rewrite shown_eq, depths_eq, fmap_cons. f_equal. clear ns.
  induction IH as [|t ts Ht _ IHts]; [done|]. cbn [shown_forest forest_depths].
  by rewrite fmap_app, Ht, IHts.
Qed.

Lemma depths_length d t : length (depths d t) = tree_size t.
Proof.
  revert d. induction t as [i ts IH] using tree_forall_ind. intros d.
  rewrite depths_eq, tree_size_eq. simpl. f_equal. unfold forest_size.
  induction IH as [|t ts Ht _ IHts]; simpl; [done|]. by rewrite length_app, Ht, IHts.
Qed.

Lemma forest_depths_length d ts : length (forest_depths d ts) = forest_size ts.
Proof.
  induction ts as [|t ts IH]; simpl; [done|]. by rewrite length_app, depths_length, IH.
Qed.

Lemma shown_forest_depths right d w ts : fst <$> shown_forest right d w ts = forest_depths d ts.
Proof.
  induction ts as [|t ts IH]; [done|]. cbn [shown_forest forest_depths].
  by rewrite fmap_app, shown_depths, IH.
Qed.

Lemma sh_length right d w ts : length (sh right d w ts) = forest_size ts.
Proof.
  unfold sh. rewrite length_fmap, <- (length_fmap fst), shown_forest_depths.
  apply forest_depths_length.
Qed.

Lemma sh_cons right d w i us ts :
  sh right d w (Tree i us :: ts) =
  row i us (shown_next right w (Tree i us) ts) ::
  sh (right && is_nil ts) (S d) (t_flags i) us ++ sh right d w ts.
Proof. unfold sh. cbn [shown_forest]. rewrite shown_eq, fmap_app. done. Qed.

(** [q] can be the pid of a row after the forest [ts] whose last tree has the
    flag word [w] as its next sibling. *)
Definition later_ok (w : Z) (ts : list tree) (q : Z) : Prop :=
  q ≠ 0 ∧ w ≠ q ∧ Forall (λ x, t_flags x ≠ q) (forest_infos ts).

(** What is known after the forest [ts] is processed: the entries [pf] it left on
    the stack can be popped for any later pid [q], popping them turns the rows
    [B] into [BF], and the topmost one has no child. *)
Record settled (w : Z) (ts : list tree) (lo : nat) (B BF : list prinfo) (pf : list nat) : Prop := Settled {
  settled_zero : zero_all pf B = BF;
  settled_range : ∀ p, p ∈ pf → (lo <= p)%nat;
  settled_next : ∀ q, later_ok w ts q →
    ∀ p, p ∈ pf → ∃ r, B !! p = Some r ∧ next_sibling_pid r ≠ q;
}.

Definition childless_top (B : list prinfo) (Sk : list nat) : Prop :=
  ∃ Sk' l r, Sk = Sk' ++ [l] ∧ B !! l = Some r ∧ first_child_pid r = 0.

(** The statement proved for every forest that is not empty. *)
Definition forest_spec (ts : list tree) : Prop :=
  ∀ w nr P Q E TP TR TQ base Cur ps s,
  listable (forest_infos ts) → Forall (λ x, w ≠ t_pid x ∧ t_pid x ≠ 0) (forest_infos ts) →
  (∀ r Q', Q = r :: Q' → later_ok w ts (pid r)) →
  nr = Z.of_nat (length P + forest_size ts + length Q) →
  rel s (P ++ forest_rows w ts ++ Q ++ E) Cur (TP ++ TR ++ TQ) →
  length TP = length P → length TR = forest_size ts →
  length (TP ++ TR ++ TQ) = MAXPROCESSNUMBER →
  ready P (first_pid ts) base Cur ps → (length base <= length P)%nat →
  ∃ s' pf, display_loop nr (length P) (forest_size ts) s = Ok ((), s') ∧
    rel s' ((zero_all ps P ++ sh true (length base) w ts) ++ Q ++ E) (base ++ pf)
      (TP ++ forest_depths (length base) ts ++ TQ) ∧
    childless_top (zero_all ps P ++ sh true (length base) w ts) (base ++ pf) ∧
    settled w ts (length P) (zero_all ps P ++ sh true (length base) w ts)
      (zero_all ps P ++ sh false (length base) w ts) pf.

Lemma head_pid w ts Q E : ts ≠ [] →
  ∃ r R, forest_rows w ts ++ Q ++ E = r :: R ∧ pid r = first_pid ts.
Proof.
  destruct ts as [|[i us] ts]; [done|]. intros _. cbn [forest_rows]. rewrite rows_eq. by eexists _, _.
Qed.

(** The check of the own next sibling of the row of [Tree i us]. *)
Lemma no_next_run nr s P w i us ts Q E Cur T :
  rel s (P ++ forest_rows w (Tree i us :: ts) ++ Q ++ E) Cur T →
  nr = Z.of_nat (length P + forest_size (Tree i us :: ts) + length Q) →
  (∀ r Q', Q = r :: Q' → later_ok w (Tree i us :: ts) (pid r)) →
  no_next nr (length P) s = Ok (is_nil us && is_nil ts, s).
Proof.
  intros Hr Hnr HQ. unfold no_next. unfold forest_size in Hnr. cbn [sum_list_with] in Hnr.
  rewrite tree_size_eq in Hnr. cbn [forest_rows] in Hr. rewrite rows_eq in Hr. simpl in Hr.
  assert (∀ r R, (forest_rows (t_flags i) us ++ forest_rows w ts) ++ Q ++ E = r :: R →
    (r' ← get_buf (length P); r'' ← get_buf (S (length P));
     mret (negb (next_sibling_pid r' =? pid r'') && negb (first_child_pid r' =? pid r''))) s
    = Ok (negb (next_pid w ts =? pid r) && negb (first_pid us =? pid r), s)) as Hnext.
  { intros r R Heq. rewrite Heq in Hr.
    erewrite bind_Ok by (eapply rel_get_buf; [done|]; by rewrite lookup_app_r, Nat.sub_diag).
    erewrite bind_Ok; [done|]. eapply rel_get_buf; [done|].
    rewrite lookup_app_r by lia. by replace (S (length P) - length P)%nat with 1%nat by lia. }
  fold (forest_size us) in Hnr. fold (forest_size ts) in Hnr.
  destruct us as [|u us].
  - destruct ts as [|t ts].
    + destruct Q as [|r Q].
      * simpl in Hnr. rewrite (proj2 (Z.eqb_eq _ _)) by lia. done.
      * simpl length in Hnr. rewrite (proj2 (Z.eqb_neq _ _)) by (simpl in *; lia).
        destruct (HQ r Q) as (Hq0 & Hw & _); [done|].
        rewrite (Hnext r (Q ++ E)) by done. cbn [next_pid first_pid is_nil].
        by rewrite (proj2 (Z.eqb_neq w (pid r))), (proj2 (Z.eqb_neq 0 (pid r))) by lia.
    + pose proof (forest_size_length (t :: ts)). simpl length in *.
      rewrite (proj2 (Z.eqb_neq _ _)) by lia.
      destruct (head_pid w (t :: ts) Q E) as (r & R & Heq & Hp); [done|].
      rewrite (Hnext r R) by (by rewrite <- app_assoc). simpl in *.
      by rewrite Hp, Z.eqb_refl.
  - pose proof (forest_size_length (u :: us)). simpl length in *.
    rewrite (proj2 (Z.eqb_neq _ _)) by lia.
    destruct (head_pid (t_flags i) (u :: us) (forest_rows w ts) (Q ++ E)) as (r & R & Heq & Hp); [done|].
    rewrite (Hnext r R) by (by rewrite <- app_assoc). simpl in *.
    by rewrite Hp, Z.eqb_refl, andb_false_r.
Qed.

(** Processing the children of the task on top of the stack. *)
Lemma children_run nr P i us ns Q E TP TR TQ base s :
  (us ≠ [] → forest_spec us) →
  listable (i :: forest_infos us) →
  (∀ r Q', Q = r :: Q' → later_ok (t_flags i) us (pid r)) →
  nr = Z.of_nat (S (length P) + forest_size us + length Q) →
  rel s ((P ++ [row i us ns]) ++ forest_rows (t_flags i) us ++ Q ++ E) (base ++ [length P])
    (TP ++ TR ++ TQ) →
  length TP = S (length P) → length TR = forest_size us →
  length (TP ++ TR ++ TQ) = MAXPROCESSNUMBER → (length base <= length P)%nat →
  ∃ s' pf, display_loop nr (S (length P)) (forest_size us) s = Ok ((), s') ∧
    rel s' (((P ++ [row i us ns]) ++ sh true (S (length base)) (t_flags i) us) ++ Q ++ E)
      (base ++ length P :: pf) (TP ++ forest_depths (S (length base)) us ++ TQ) ∧
    childless_top ((P ++ [row i us ns]) ++ sh true (S (length base)) (t_flags i) us)
      (base ++ length P :: pf) ∧
    settled (t_flags i) us (S (length P))
      ((P ++ [row i us ns]) ++ sh true (S (length base)) (t_flags i) us)
      ((P ++ [row i us ns]) ++ sh false (S (length base)) (t_flags i) us) pf.
Proof.
  intros Hspec Hl HQ Hnr Hr HTP HTR HT Hb.
  assert ((P ++ [row i us ns]) !! length P = Some (row i us ns)) as HP
    by (by rewrite lookup_app_r, Nat.sub_diag).
  destruct us as [|u us].
  - exists s, []. cbn [sh shown_forest forest_depths fmap list_fmap forest_size] in *.
    apply nil_length_inv in HTR as ->. rewrite !app_nil_r in *. split_and!; [done|done|..].
    + by exists base, (length P), (row i [] ns).
    + split; [done|set_solver|set_solver].
  - destruct Hl as [Hi Hl].
    destruct (Hspec ltac:(done) (t_flags i) nr (P ++ [row i (u :: us) ns]) Q E TP TR TQ
      (base ++ [length P]) (base ++ [length P]) [] s) as (s' & pf & Hs' & Hr' & Hc' & Hst');
      try done; rewrite ?length_app; simpl length; try lia.
    + eapply Ready_first; done.
    + rewrite !length_app, !Nat.add_1_r in *. exists s', pf.
      replace (base ++ length P :: pf) with ((base ++ [length P]) ++ pf) by (by rewrite <- app_assoc).
      done.
Qed.

(** Processing the first tree of a forest: its root and its children. *)
Lemma tree_run w nr P i us ts Q E TP x TR1 TR2 TQ base Cur ps s :
  (us ≠ [] → forest_spec us) →
  listable (forest_infos (Tree i us :: ts)) →
  Forall (λ x, t_pid x ≠ 0) (forest_infos ts) →
  (∀ r Q', Q = r :: Q' → later_ok w (Tree i us :: ts) (pid r)) →
  nr = Z.of_nat (length P + forest_size (Tree i us :: ts) + length Q) →
  rel s (P ++ forest_rows w (Tree i us :: ts) ++ Q ++ E) Cur (TP ++ (x :: TR1 ++ TR2) ++ TQ) →
  length TP = length P → length TR1 = forest_size us → length TR2 = forest_size ts →
  length (TP ++ (x :: TR1 ++ TR2) ++ TQ) = MAXPROCESSNUMBER →
  ready P (t_pid i) base Cur ps → (length base <= length P)%nat →
  let d := length base in
  let P1 := zero_all ps P ++ [row i us (shown_next true w (Tree i us) ts)] in
  ∃ s' pf, display_loop nr (length P) (S (forest_size us)) s = Ok ((), s') ∧
    rel s' ((P1 ++ sh true (S d) (t_flags i) us) ++ (forest_rows w ts ++ Q) ++ E)
      (base ++ length P :: pf) ((TP ++ [d]) ++ forest_depths (S d) us ++ TR2 ++ TQ) ∧
    childless_top (P1 ++ sh true (S d) (t_flags i) us) (base ++ length P :: pf) ∧
    settled (t_flags i) us (S (length P))
      (P1 ++ sh true (S d) (t_flags i) us) (P1 ++ sh false (S d) (t_flags i) us) pf.
Proof.
  intros Hspec Hl Hpid HQ Hnr Hr HTP HTR1 HTR2 HT Hrd Hb d P1.
  pose proof (no_next_run nr s P w i us ts Q E Cur _ Hr Hnr HQ) as Hnn.
  assert (forest_size (Tree i us :: ts) = S (forest_size us + forest_size ts)) as Hsz by done.
  cbn [forest_infos] in Hl. rewrite infos_eq in Hl.
  cbn [forest_rows] in Hr. rewrite rows_eq in Hr. cbn [app] in Hr.
  destruct (step_run nr s P _ _ _ base Cur ps _ Hr Hrd Hnn) as (s1 & Hs1 & Hr1).
  { rewrite !length_app in HT. simpl in HT. lia. }
  { rewrite !length_app. simpl. lia. }
  replace (if is_nil us && is_nil ts then _ else _)
    with (row i us (shown_next true w (Tree i us) ts)) in Hr1 by (by destruct us, ts).
  rewrite <- HTP, insert_app_r_alt, Nat.sub_diag in Hr1 by lia. simpl in Hr1. rewrite HTP in Hr1.
  destruct (children_run nr (zero_all ps P) i us (shown_next true w (Tree i us) ts)
    (forest_rows w ts ++ Q) E (TP ++ [d]) TR1 (TR2 ++ TQ) base s1)
    as (s2 & pf & Hs2 & Hr2 & Hc2 & Hst2); rewrite ?zero_all_length in *.
  - done.
  - by apply listable_app in Hl as [? _].
  - intros r Q' Heq. destruct ts as [|[i2 us2] ts].
    + destruct (HQ r Q' Heq) as (? & ? & Hf). cbn [forest_infos] in Hf.
      rewrite infos_eq, app_nil_r, Forall_cons in Hf. split_and!; [done|apply Hf|apply Hf].
    + cbn [forest_rows] in Heq. rewrite rows_eq in Heq. inversion Heq; subst. simpl.
      apply listable_app in Hl as (_ & _ & Hf). cbn [forest_infos] in Hf, Hpid.
      rewrite infos_eq in Hf, Hpid. cbn [app] in Hf, Hpid.
      rewrite Forall_cons in Hf. rewrite Forall_cons in Hpid.
      split_and!; [apply Hpid| |].
      * destruct Hf as [[Hf _]%Forall_cons _]. apply Hf.
      * destruct Hf as [_ Hf]. eapply Forall_impl; [done|]. by intros a [[? _] _]%Forall_cons.
  - rewrite length_app, forest_rows_length. lia.
  - rewrite <- !app_assoc. cbn [app]. rewrite <- !app_assoc in Hr1. done.
  - rewrite length_app. simpl. lia.
  - done.
  - rewrite <- HT, !length_app. simpl. rewrite !length_app. lia.
  - done.
  - exists s2, pf. split_and!; try done. cbn [display_loop]. by erewrite bind_Ok.
Qed.

Lemma forest_run n ts : (forest_size ts <= n)%nat → ts ≠ [] → forest_spec ts.
Proof.
  revert ts. induction n as [|n IH]; intros [|[i us] ts] Hn Hne;
    [done|by apply Nat.le_0_r in Hn|done|].
  intros w nr P Q E TP TR TQ base Cur ps s Hl Hpid HQ Hnr Hr HTP HTR HT Hrd Hb.
  assert (forest_size (Tree i us :: ts) = S (forest_size us) + forest_size ts)%nat as Hsz by done.
  rewrite Hsz in Hn, HTR.
  destruct TR as [|x TR]; [done|]. simpl in HTR.
  rewrite <- (take_drop (forest_size us) TR) in Hr, HT.
  set (TR1 := take (forest_size us) TR) in *. set (TR2 := drop (forest_size us) TR) in *.
  assert (length TR1 = forest_size us ∧ length TR2 = forest_size ts) as [HTR1 HTR2].
  { unfold TR1, TR2. rewrite length_take, length_drop. lia. }
  destruct (tree_run w nr P i us ts Q E TP x TR1 TR2 TQ base Cur ps s)
    as (s1 & pf1 & Hs1 & Hr1 & Hc1 & [Hz1 Hrange1 Hnext1]); try done.
  { intros. apply IH; [lia|done]. }
  { cbn [forest_infos] in Hpid. apply Forall_app in Hpid as [_ Hpid].
    eapply Forall_impl; [done|]. by intros ? []. }
  rewrite Hsz. setoid_rewrite display_loop_add. unfold mbind, M_bind. rewrite Hs1.
  set (rF := row i us (shown_next true w (Tree i us) ts)) in *.
  assert (∀ r, zero_all ps P ++ sh r (length base) w (Tree i us :: ts) =
    (zero_all ps P ++ [row i us (shown_next r w (Tree i us) ts)]) ++
    sh (r && is_nil ts) (S (length base)) (t_flags i) us ++ sh r (length base) w ts) as Hsh.
  { intros r. by rewrite sh_cons, <- !app_assoc. }
  assert (forest_depths (length base) (Tree i us :: ts) =
    (length base :: forest_depths (S (length base)) us) ++ forest_depths (length base) ts) as Hdp.
  { cbn [forest_depths]. by rewrite depths_eq. }
  destruct ts as [|t2 ts].
  - exists s1, (length P :: pf1). cbn [is_nil andb] in Hsh. subst rF.
    assert (∀ r, sh r (length base) w [] = []) as Hnil by done.
    rewrite !Hsh, Hdp, !Hnil. cbn [forest_depths andb]. rewrite !app_nil_r. apply nil_length_inv in HTR2. rewrite HTR2 in Hr1.
    split_and!; [done|by rewrite <- (app_assoc TP) in Hr1|done|]. split.
    + rewrite zero_all_cons, Hz1, <- app_assoc, alter_app_r_alt by (rewrite zero_all_length; lia).
      rewrite zero_all_length, Nat.sub_diag. by rewrite <- app_assoc.
    + intros p [->|Hp]%elem_of_cons; [lia|]. specialize (Hrange1 p Hp). lia.
    + intros q (Hq0 & Hqw & Hq) p [->|Hp]%elem_of_cons.
      * eexists. rewrite <- app_assoc, lookup_app_r, zero_all_length, Nat.sub_diag
          by (by rewrite zero_all_length). split; [done|]. simpl. by destruct us; simpl; auto.
      * apply Hnext1; [|done]. cbn [forest_infos] in Hq. rewrite infos_eq, app_nil_r, Forall_cons in Hq.
        by destruct Hq.
  - destruct t2 as [i2 us2]. set (P2 := (zero_all ps P ++ [rF]) ++ sh true (S (length base)) (t_flags i) us) in *.
    assert (length P2 = length P + S (forest_size us))%nat as HP2.
    { unfold P2. rewrite !length_app, zero_all_length, sh_length. simpl. lia. }
    assert (P2 !! length P = Some rF) as HrF.
    { unfold P2. rewrite <- app_assoc, lookup_app_r, zero_all_length, Nat.sub_diag
        by (by rewrite zero_all_length). done. }
    cbn [forest_infos] in Hl, Hpid. rewrite infos_eq in Hl, Hpid.
    apply listable_app in Hl as (Hl1 & Hl2 & Hl12). apply Forall_app in Hpid as [Hpid1 Hpid2].
    assert (later_ok (t_flags i) us (t_pid i2)) as Hlater.
    { split_and!.
      - apply Forall_app in Hpid2 as [Hp _]. rewrite infos_eq, Forall_cons in Hp. apply Hp.
      - apply Forall_cons in Hl12 as [Hp _]. apply Forall_app in Hp as [Hp _].
        rewrite infos_eq, Forall_cons in Hp. apply Hp.
      - apply Forall_cons in Hl12 as [_ Hp]. eapply Forall_impl; [done|].
        intros a [Ha _]%Forall_app. rewrite infos_eq, Forall_cons in Ha. apply Ha. }
    destruct (IH (Tree i2 us2 :: ts) ltac:(lia) ltac:(done) w nr P2 Q E
      ((TP ++ [length base]) ++ forest_depths (S (length base)) us) TR2 TQ
      base (base ++ length P :: pf1) pf1 s1) as (s2 & pf2 & Hs2 & Hr2 & Hc2 & [Hz2 Hrange2 Hnext2]).
    + done.
    + done.
    + intros r Q' ->. destruct (HQ r Q') as (? & ? & Hf); [done|]. cbn [forest_infos] in Hf.
      rewrite infos_eq in Hf. apply Forall_app in Hf as [_ Hf]. done.
    + rewrite Hnr, Hsz, HP2. lia.
    + by rewrite <- !app_assoc in Hr1 |- *.
    + rewrite !length_app, forest_depths_length. simpl. lia.
    + done.
    + rewrite <- HT, !length_app, forest_depths_length. simpl. rewrite !length_app. lia.
    + destruct Hc1 as (Sk' & l & r & HSk & Hlk & Hfc).
      eapply (Ready_next _ _ _ _ _ (length P) rF l r Sk'); try done.
      * apply Hlater.
      * intros Hin. specialize (Hrange1 _ Hin). lia.
      * intros p Hp. by apply Hnext1.
      * rewrite Hfc. destruct Hlater as [? _]. done.
    + lia.
    + rewrite HP2 in *. rewrite Hz1 in *.
      assert (∀ r, zero_all ps P ++ sh r (length base) w (Tree i us :: Tree i2 us2 :: ts) =
        ((zero_all ps P ++ [rF]) ++ sh false (S (length base)) (t_flags i) us) ++
        sh r (length base) w (Tree i2 us2 :: ts)) as Hsh'.
      { intros r. rewrite Hsh. cbn [is_nil]. rewrite andb_false_r, <- !app_assoc. by destruct r. }
      exists s2, pf2. rewrite !Hsh', Hdp. split_and!; [done| |done|].
      * rewrite <- !app_assoc in Hr2. rewrite <- !app_assoc. exact Hr2.
      * split; [done|..].
        -- intros p Hp. specialize (Hrange2 p Hp). lia.
        -- intros q (Hq0 & Hqw & Hq). apply Hnext2. split_and!; [done..|].
           cbn [forest_infos] in Hq. rewrite infos_eq in Hq. by apply Forall_app in Hq as [_ Hq].
Qed.

(** ** The whole of [display] *)

Definition print_shown (x : nat * prinfo) : string := print_line (fst x) (snd x).

Lemma print_loop_run s B1 E T1 TQ l :
  buf s = B1 ++ (snd <$> l) ++ E → tabcnt s = T1 ++ (fst <$> l) ++ TQ → length T1 = length B1 →
  print_loop (length B1) (length l) s = Ok (print_shown <$> l, s).
Proof.
  revert B1 T1. induction l as [|[d r] l IH]; intros B1 T1 HB HT Hlen; [done|].
  cbn [length print_loop]. rewrite !fmap_cons in *. cbn [fst snd] in *.
  assert (get_tabcnt (length B1) s = Ok (d, s)) as Hd.
  { unfold get_tabcnt. by rewrite HT, <- Hlen, lookup_app_r, Nat.sub_diag by lia. }
  assert (get_buf (length B1) s = Ok (r, s)) as Hr.
  { unfold get_buf. by rewrite HB, lookup_app_r, Nat.sub_diag by lia. }
  erewrite bind_Ok by done. erewrite bind_Ok by done.
  specialize (IH (B1 ++ [r]) (T1 ++ [d])). rewrite !length_app, !Nat.add_1_r in IH. simpl in IH.
  rewrite <- !app_assoc in IH. erewrite bind_Ok by (apply IH; [done|done|lia]). done.
Qed.

Lemma display_run t E junk :
  listable (infos t) → (tree_size t <= MAXPROCESSNUMBER)%nat →
  length junk = MAXPROCESSNUMBER →
  display (rows 0 t ++ E) (Z.of_nat (tree_size t)) junk = Ok (print_shown <$> shown true 0 0 t).
Proof.
  destruct t as [i us]. intros Hl Hsz Hj. rewrite tree_size_eq in *.
  unfold display. rewrite Nat2Z.id.
  set (s0 := Disp _ _ _ _).
  destruct (tree_run 0 (Z.of_nat (S (forest_size us))) [] i us [] [] E [] 0%nat
    (replicate (forest_size us) 0%nat) [] (replicate (MAXPROCESSNUMBER - S (forest_size us)) 0%nat)
    [] [] [] s0) as (s1 & pf & Hs1 & Hr1 & _ & _); try done.
  - intros. by eapply forest_run.
  - cbn [forest_infos]. by rewrite app_nil_r.
  - change (forest_size [Tree i us]) with (S (forest_size us) + 0)%nat. simpl length. lia.
  - unfold s0, rel. simpl buf. split_and!; try done.
    + cbn [forest_rows next_pid]. by rewrite app_nil_r.
    + cbn [tabcnt app]. rewrite app_nil_r.
      replace MAXPROCESSNUMBER with (S (forest_size us) + (MAXPROCESSNUMBER - S (forest_size us)))%nat
        at 1 by lia.
      by rewrite replicate_add.
  - by rewrite length_replicate.
  - rewrite app_nil_r. cbn [app length]. rewrite length_app, !length_replicate. lia.
  - by apply Ready_root.
  - erewrite bind_Ok by exact Hs1.
    assert (shown true 0 0 (Tree i us) = (0%nat, row i us 0) :: shown_forest true 1 (t_flags i) us) as Hsh
      by apply shown_eq.
    assert (length (shown true 0 0 (Tree i us)) = S (forest_size us)) as Hlen.
    { rewrite <- (length_fmap fst), shown_depths, depths_length. apply tree_size_eq. }
    rewrite <- Hlen.
    pose proof (print_loop_run s1 [] E [] (replicate (MAXPROCESSNUMBER - S (forest_size us)) 0%nat)
                  (shown true 0 0 (Tree i us))) as Hpr.
    change (length (@nil prinfo)) with 0%nat in Hpr.
    destruct Hr1 as (HB & HT & _). cbn [zero_all foldr app length] in HB, HT.
    rewrite Hpr; [done| |  |done]; rewrite Hsh, fmap_cons; cbn [fst snd app].
    + rewrite HB. unfold sh. rewrite <- app_assoc. cbn [app]. by destruct us.
    + rewrite HT, shown_forest_depths. done.
Qed.

(** ** Theorems *)

(** The tasks on the path of last children from the root. *)
Fixpoint right_path (t : tree) : list tinfo :=
  let 'Tree i ts := t in
  i :: (fix go ts := match ts with [] => [] | [t] => right_path t | _ :: ts => go ts end) ts.

Lemma shown_forest_clean d w ts :
  (w = 0 ∨ Forall (λ t, has_children t = false) (from_option (λ t, [t]) [] (last ts))) →
  Forall (λ t, ∀ d ns, shown true d ns t = shown false d ns t)
    (from_option (λ t, [t]) [] (last ts)) →
  shown_forest true d w ts = shown_forest false d w ts.
Proof.
  induction ts as [|t ts IH]; intros Hw Hf; [done|]. cbn [shown_forest].
  destruct ts as [|t2 ts].
  - cbn in Hf, Hw. rewrite Forall_singleton in Hf. cbn [is_nil shown_next andb shown_forest]. rewrite Hf.
    do 2 f_equal. destruct Hw as [->|Hw]; [by destruct (has_children t)|].
    rewrite Forall_singleton in Hw. by rewrite Hw.
  - cbn [is_nil]. rewrite !andb_false_r. f_equal. by apply IH.
Qed.

Lemma shown_clean t d ns :
  Forall (λ i, t_flags i = 0) (right_path t) → shown true d ns t = shown false d ns t.
Proof.
  revert d ns. induction t as [i ts IH] using tree_forall_ind. intros d ns [Hi Hr]%Forall_cons.
  rewrite !shown_eq. f_equal. apply shown_forest_clean; [by left|]. clear Hi d ns.
  induction IH as [|t ts Ht Hts IHts]; [constructor|]. destruct ts as [|t2 ts].
  - cbn in *. apply Forall_singleton. auto.
  - apply IHts. exact Hr.
Qed.

Lemma main_run `{TaskLayout} m t lfuel fuel b buf0 nr0 junk :
  in_memory m t → is_list (lists m) (t_addr (info t) + off_sibling) [] →
  (tree_size t <= fuel)%nat → (tree_size t <= lfuel)%nat →
  length b = Z.to_nat MAXBUFFERSIZE → length junk = MAXPROCESSNUMBER →
  (tree_size t <= MAXPROCESSNUMBER)%nat → listable (infos t) →
  main m lfuel fuel (t_addr (info t)) (Some b) true true buf0 nr0 junk =
  Ok (print_shown <$> shown true 0 0 t).
Proof.
  intros Hm Hs Hf Hlf Hb Hj Hsz Hl. unfold main.
  rewrite ptree_run by (try done; unfold MAXPROCESSNUMBER, MAXBUFFERSIZE in *; lia).
  cbn. by apply display_run.
Qed.

(** C9.  Run against the system call, the program prints one line per task, in
    depth-first order, indented by its depth, each with the pid of its first
    child and of its next sibling, if no flag word is the pid of a later task:
    the stack of [display] recovers the depths, its clearing removes the flag
    words that [convert] stored for last siblings, and neither array is
    overrun.  The one exception is described by [shown]: last children with
    children that end the listing keep the flag word. *)
Theorem main_prints_tree `{TaskLayout} m t lfuel fuel b buf0 nr0 junk :
  in_memory m t → is_list (lists m) (t_addr (info t) + off_sibling) [] →
  (tree_size t <= fuel)%nat → (tree_size t <= lfuel)%nat →
  length b = Z.to_nat MAXBUFFERSIZE → length junk = MAXPROCESSNUMBER →
  (tree_size t <= MAXPROCESSNUMBER)%nat → listable (infos t) →
  main m lfuel fuel (t_addr (info t)) (Some b) true true buf0 nr0 junk =
  Ok (print_shown <$> shown true 0 0 t).
Proof. apply main_run. Qed.

(** When the flag words on the path of last children are 0, every printed
    next sibling is right: the pid of the next child of the same parent, and 0
    for a last child. *)
Theorem display_repairs_siblings t E junk :
  listable (infos t) → (tree_size t <= MAXPROCESSNUMBER)%nat →
  length junk = MAXPROCESSNUMBER → Forall (λ i, t_flags i = 0) (right_path t) →
  display (rows 0 t ++ E) (Z.of_nat (tree_size t)) junk = Ok (print_shown <$> shown false 0 0 t).
Proof. intros. rewrite display_run by done. by rewrite shown_clean. Qed.

(** When the system call fails, [main] prints what the uninitialised buffer and
    counter hold. *)
Lemma main_ignores_failure `{TaskLayout} m t lfuel fuel b buf_ok buf0 nr0 junk :
  in_memory m t → is_list (lists m) (t_addr (info t) + off_sibling) [] →
  (tree_size t <= fuel)%nat → (tree_size t <= lfuel)%nat →
  length b = Z.to_nat MAXBUFFERSIZE → (tree_size t <= Z.to_nat MAXBUFFERSIZE)%nat →
  main m lfuel fuel (t_addr (info t)) (Some b) false buf_ok buf0 nr0 junk = display buf0 nr0 junk.
Proof.
  intros. unfold main, ptree. unfold mbind at 1, res_bind.
  unfold mbind, M_bind, kmalloc, read_lock, modify. by rewrite run_dfs_fits.
Qed.

(** ** Concrete runs *)

Lemma demo_tree_listable : listable (infos demo_tree).
Proof. repeat split; repeat constructor; simpl; lia. Qed.

Lemma main_prints_tree_witness :
  main demo_mem 4 4 0x1000 (Some (replicate 2048 inhabitant)) true true [] 0 (replicate 256 0%nat) =
  Ok (print_shown <$> shown true 0 0 demo_tree).
Proof.
  apply (main_prints_tree demo_mem demo_tree 4 4 (replicate 2048 inhabitant) [] 0 (replicate 256 0%nat)
           demo_tree_in_memory demo_root_sibling);
    [simpl; lia | simpl; lia | reflexivity | reflexivity | unfold MAXPROCESSNUMBER; simpl; lia
    | exact demo_tree_listable].
Defined.

Lemma display_repairs_siblings_witness :
  display (rows 0 demo_tree) 4 (replicate 256 0%nat) = Ok (print_shown <$> shown false 0 0 demo_tree).
Proof.
  rewrite <- (app_nil_r (rows 0 demo_tree)).
  apply (display_repairs_siblings demo_tree [] (replicate 256 0%nat) demo_tree_listable);
    [unfold MAXPROCESSNUMBER; simpl; lia | reflexivity | repeat constructor].
Defined.

(** [init] has executed a program, so its flag word is 1; its last child [sh] has
    a child of its own and ends the listing. *)
Definition demo_sh_tree : tree :=
  Tree (TInfo 0x1000 0 0 0 0 "swapper" 0)
    [Tree (TInfo 0x2000 0 1 1 0 "init" 1)
       [Tree (TInfo 0x3000 1 10 1 0 "sh" 1) [Tree (TInfo 0x4000 10 11 0 0 "ps" 1) []]]].

(** In a listing that ends in the last child of [init] and its child, the
    line of that last child shows 1, the flag word of [init], as its next
    sibling, although it has none. *)
Theorem display_shows_flag_word :
  ∃ l1 l2 l3 l4, display (rows 0 demo_sh_tree) 4 (replicate 256 0%nat) = Ok [l1; l2; l3; l4] ∧
    l3 = String "009"%char (String "009"%char "sh,10,1,1,11,1,0") +:+ String "010"%char "".
Proof. do 4 eexists. split; [vm_compute; reflexivity|reflexivity]. Qed.

(** The arrays of [display] have 256 entries but the system call can return
    up to 2048: with 257 tasks the loop stores past the end of [tabcnt]. *)
Theorem display_overruns_tabcnt :
  let t := Tree (TInfo 0 0 0 0 0 "swapper" 0)
             ((λ k, Tree (TInfo 0 0 (Z.of_nat k) 0 0 "task" 0) []) <$> seq 1 256) in
  (tree_size t <= Z.to_nat MAXBUFFERSIZE)%nat ∧
  display (rows 0 t) (Z.of_nat (tree_size t)) (replicate 256 0%nat) = Err (OutOfBounds 256).
Proof. split; [unfold MAXBUFFERSIZE; vm_compute; lia|vm_compute; reflexivity]. Qed.
