(* ===== verification/PTreeCall.v ===== *)
(** * The program that runs ptree in a child process

    Models [Project 1/ptreecall/jni/ptreecall.c] as two processes that take their steps in
    any order, with the buffer that the C library keeps for standard output: it is written
    out line by line on a terminal, and otherwise only when the process exits.  The program
    that the child executes is the one of [PTreeDisplay.v]. *)

From stdpp Require Import pretty relations.
From S2P Require Import Prelude CLib ListHead PTree PTreeDisplay.

(** [tty]: standard output is a terminal; [fork_ok]: [fork] succeeds; [exec]: the lines that
    the executed program prints, or [None] when [execl] fails. *)
Record config := Config {
  tty : bool;
  fork_ok : bool;
  exec : option (list string);
  parentpid : Z;
  childpid : Z;
}.

(** Where the parent is: before [fork], [printf], [wait], or the return from [main]. *)
Inductive ppc := PFork | PPrint | PWait | PReturn | PDone.

(** Where the child is: before the two [printf], [execl], or [_exit]; or running the other
    program with lines still to print. *)
Inductive cpc := CPrint1 | CPrint2 | CExec | CRun (lines : list string) | CExit | CDone.

(** What reached the output, the parent with its buffer, and the child with its own. *)
Record world := World {
  output : list string;
  parent : ppc;
  pbuf : list string;
  child : option (cpc * list string);
}.

Section system.
Context (c : config).

Definition parent_line : string := "515030910339 Parent PID = " +:+ pretty (parentpid c) +:+ newline.
Definition child_line : string := "515030910339 Child PID = " +:+ pretty (childpid c) +:+ newline.
Definition exec_line : string := "Execuating ptree in child process:" +:+ newline.

(** [printf] of a line: the new output and the new buffer. *)
Definition emit (l : string) (out buf : list string) : list string * list string :=
  if tty c then (out ++ [l], buf) else (out, buf ++ [l]).

Definition step_parent (w : world) : option world :=
  match parent w with
  | PFork =>
      if fork_ok c then Some (World (output w) PPrint (pbuf w) (Some (CPrint1, pbuf w)))
      else Some (World (output w) PReturn (pbuf w) None)
  | PPrint => let '(out, buf) := emit parent_line (output w) (pbuf w) in Some (World out PWait buf (child w))
  | PWait =>
      match child w with
      | Some (CDone, _) | None => Some (World (output w) PReturn (pbuf w) (child w))
      | _ => None
      end
  | PReturn => Some (World (output w ++ pbuf w) PDone [] (child w))
  | PDone => None
  end.

Definition step_child (w : world) : option world :=
  let go '(out, buf) pc := Some (World out (parent w) (pbuf w) (Some (pc, buf))) in
  match child w with
  | Some (CPrint1, buf) => go (emit child_line (output w) buf) CPrint2
  | Some (CPrint2, buf) => go (emit exec_line (output w) buf) CExec
  | Some (CExec, buf) =>
      match exec c with
      | Some lines => go (output w, []) (CRun lines)
      | None => go (output w, buf) CExit
      end
  | Some (CRun (l :: ls), buf) => go (emit l (output w) buf) (CRun ls)
  | Some (CRun [], buf) => go (output w ++ buf, []) CDone
  | Some (CExit, buf) => go (output w, []) CDone
  | Some (CDone, _) | None => None
  end.

Definition step (w w' : world) : Prop := step_parent w = Some w' ∨ step_child w = Some w'.

Definition init : world := World [] PFork [] None.

(** Neither process can take a step. *)
Definition finished (w : world) : Prop := step_parent w = None ∧ step_child w = None.

(** ** Every run is short *)

Definition child_rank (pc : cpc) : nat :=
  let e := match exec c with Some ls => (2 + length ls)%nat | None => 2%nat end in
  match pc with
  | CPrint1 => 2 + e
  | CPrint2 => 1 + e
  | CExec => e
  | CRun ls => 1 + length ls
  | CExit => 1
  | CDone => 0
  end.

Definition rank (w : world) : nat :=
  match parent w with
  | PFork => 5 + child_rank CPrint1
  | PPrint => 3
  | PWait => 2
  | PReturn => 1
  | PDone => 0
  end + match child w with Some (pc, _) => child_rank pc | None => 0 end.

(** Without a child in the beginning. *)
Definition forked (w : world) : Prop := parent w = PFork → child w = None.

Lemma step_rank w w' : forked w → step w w' → (rank w' < rank w)%nat ∧ forked w'.
Proof.
  intros F [E|E].
  - unfold step_parent in E. unfold rank, forked in *. destruct w as [o p pb ch]. cbn in *.
    destruct p; [|destruct (emit _ _ _)|destruct ch as [[[] ?]|]| |]; try done; simplify_eq/=; try (split; [lia|done]).
    rewrite F in * by done. destruct (fork_ok c); simplify_eq/=; split; try done; lia.
  - unfold step_child in E. unfold rank, forked, child_rank in *. destruct w as [o p pb ch]. cbn in *.
    destruct ch as [[pc buf]|]; [|done]. assert (p ≠ PFork) as Hp by (intros ->; by specialize (F eq_refl)).
    destruct pc as [| | |[|l ls]| |]; unfold emit in E; destruct (tty c), (exec c) as [lines|]; simplify_eq/=; (split; [lia|done]).
Qed.

(** ** On a terminal *)

(** What the child prints in all, and [said pc a]: what it has printed when it is at [pc]. *)
Definition child_text : list string := child_line :: exec_line :: default [] (exec c).

Inductive said : cpc → list string → Prop :=
  | said_1 : said CPrint1 []
  | said_2 : said CPrint2 [child_line]
  | said_exec : said CExec [child_line; exec_line]
  | said_run a ls : is_Some (exec c) → child_text = a ++ ls → said (CRun ls) a
  | said_exit : exec c = None → said CExit child_text
  | said_done : said CDone child_text.

(** [a] with the line of the parent somewhere in it. *)
Definition woven (a out : list string) : Prop := ∃ x y, a = x ++ y ∧ out = x ++ parent_line :: y.

Definition tty_inv (w : world) : Prop :=
  pbuf w = [] ∧
  match child w with
  | None => output w = [] ∧ (parent w = PFork ∨ (fork_ok c = false ∧ (parent w = PReturn ∨ parent w = PDone)))
  | Some (pc, buf) => fork_ok c = true ∧ buf = [] ∧ ∃ a, said pc a ∧
      match parent w with
      | PFork => False
      | PPrint => output w = a
      | PWait => woven a (output w)
      | PReturn | PDone => woven a (output w) ∧ pc = CDone
      end
  end.

Lemma woven_snoc a out l : woven a out → woven (a ++ [l]) (out ++ [l]).
Proof. intros (x & y & -> & ->). exists x, (y ++ [l]). by rewrite <- !app_assoc. Qed.

Lemma woven_end a : woven a (a ++ [parent_line]).
Proof. exists a, []. by rewrite app_nil_r. Qed.

Lemma tty_step w w' : tty c = true → tty_inv w → step w w' → tty_inv w'.
Proof.
  intros T I [E|E]; unfold tty_inv in *; destruct w as [o p pb ch]; cbn in *; destruct I as [-> I].
  - unfold step_parent in E. cbn in E. unfold emit in E. rewrite T in E.
    destruct ch as [[pc buf]|].
    + destruct I as (HF & -> & a & Ha & I). destruct p; [done| | | |done]; cbn in *.
      * simplify_eq/=. split_and!; [done|done|done|]. exists a. split; [done|apply woven_end].
      * destruct pc; simplify_eq/=. split_and!; [done|done|done|]. by exists a.
      * simplify_eq/=. rewrite app_nil_r. split_and!; [done|done|done|]. by exists a.
    + destruct I as [-> I]. destruct p; cbn in *; simplify_eq/=; try by (destruct I as [?|[? [?|?]]]).
      * destruct (fork_ok c) eqn:HF; simplify_eq/=; [|tauto]. split_and!; [done|done|done|]. exists []. split; [constructor|done].
      * destruct I as [?|[? [?|?]]]; (done || tauto).
  - unfold step_child in E. cbn in E. destruct ch as [[pc buf]|]; [|done]. destruct I as (HF & -> & a & Ha & I).
    assert (∀ pc' a', said pc' a' → pc ≠ CDone → (a' = a ∧ World o p [] (Some (pc', [])) = w' ∨
        ∃ l, a' = a ++ [l] ∧ World (o ++ [l]) p [] (Some (pc', [])) = w') → tty_inv w') as Hgo.
    { intros pc' a' Ha' Hpc Hc. unfold tty_inv. destruct Hc as [[-> <-]|(l & -> & <-)]; cbn; (split_and!; [done|done|done|]).
      - exists a. split; [done|]. destruct p; try done; by destruct I.
      - exists (a ++ [l]). split; [done|]. destruct p; cbn in *; [done|by subst|by apply woven_snoc|by destruct I..]. }
    unfold emit in E. rewrite T in E.
    destruct Ha as [| | |a ls [lines Hx] Ht|Hx|]; cbn in E; try (rewrite Hx in E); simplify_eq/=.
    + eapply (Hgo CPrint2); [constructor|done|]. right. by exists child_line.
    + eapply (Hgo CExec); [constructor|done|]. right. by exists exec_line.
    + destruct (exec c) as [lines|] eqn:Hx; simplify_eq/=.
      * eapply (Hgo (CRun lines)); [|done|by left]. constructor; [by eexists|]. unfold child_text. by rewrite Hx.
      * eapply (Hgo CExit); [|done|by left]. replace [child_line; exec_line] with child_text by (unfold child_text; by rewrite Hx). by constructor.
    + destruct ls as [|l ls]; simplify_eq/=.
      * eapply (Hgo CDone); [|done|left; by rewrite app_nil_r]. rewrite app_nil_r in Ht. rewrite <- Ht. constructor.
      * eapply (Hgo (CRun ls)); [|done|right; by exists l]. constructor; [by eexists|]. by rewrite Ht, <- app_assoc.
    + eapply (Hgo CDone); [constructor|done|by left].
Qed.

(** ** With a buffered output *)

Definition buffered_inv (w : world) : Prop :=
  match child w with
  | None => output w = [] ∧ pbuf w = [] ∧ (parent w = PFork ∨ (fork_ok c = false ∧ (parent w = PReturn ∨ parent w = PDone)))
  | Some (pc, buf) =>
      fork_ok c = true ∧
      match pc with CRun ls => exec c = Some (buf ++ ls) | CExit => exec c = None | _ => True end ∧
      match parent w with
      | PFork => False
      | PPrint => output w = match pc with CDone => default [] (exec c) | _ => [] end ∧ pbuf w = []
      | PWait => output w = match pc with CDone => default [] (exec c) | _ => [] end ∧ pbuf w = [parent_line]
      | PReturn => pc = CDone ∧ output w = default [] (exec c) ∧ pbuf w = [parent_line]
      | PDone => pc = CDone ∧ output w = default [] (exec c) ++ [parent_line] ∧ pbuf w = []
      end
  end.

Lemma buffered_step w w' : tty c = false → buffered_inv w → step w w' → buffered_inv w'.
Proof.
  intros T I [E|E]; unfold buffered_inv in *; destruct w as [o p pb ch]; cbn in *.
  - unfold step_parent in E. cbn in E. unfold emit in E. rewrite T in E. destruct ch as [[pc buf]|].
    + destruct I as (HF & Hpc & I). destruct p; [done| | | |done]; cbn in *.
      * destruct I as [Ho ->]. simplify_eq/=. by split_and!.
      * destruct I as [Ho ->]. destruct pc; simplify_eq/=. by split_and!.
      * destruct I as (-> & -> & ->). simplify_eq/=. by split_and!.
    + destruct I as (-> & -> & I). destruct p; cbn in *; simplify_eq/=; try by (destruct I as [?|[? [?|?]]]).
      * destruct (fork_ok c) eqn:HF; simplify_eq/=; [by split_and!|tauto].
      * destruct I as [?|[? [?|?]]]; (done || tauto).
  - unfold step_child in E. cbn in E. unfold emit in E. rewrite T in E. destruct ch as [[pc buf]|]; [|done].
    destruct I as (HF & Hpc & I). destruct (exec c) as [lines|] eqn:Hx.
    all: destruct pc as [| | |[|l ls]| |]; simplify_eq/=; (split_and!; [done|try done|]).
    all: try (destruct p; cbn in *; naive_solver).
    all: rewrite <- ?app_assoc; try done; destruct p; cbn in *; rewrite ?app_nil_r in *; naive_solver.
Qed.

(** ** What a run prints *)

Definition prints_in_the_end (out : list string) : Prop :=
  if negb (fork_ok c) then out = []
  else if tty c then woven child_text out
  else out = default [] (exec c) ++ [parent_line].

Lemma run_rank n w : nsteps step n init w → forked w ∧ (n + rank w <= rank init)%nat.
Proof.
  intros H. remember init as w0 eqn:E. assert (forked w0) as F0 by (by subst). clear E.
  induction H as [w0|n w0 w1 w H1 Hn IH]; [split; [done|lia]|].
  destruct (step_rank _ _ F0 H1) as [Hr F1]. destruct (IH F1) as [? ?]. split; [done|lia].
Qed.

Lemma tty_run n w : tty c = true → nsteps step n init w → tty_inv w.
Proof.
  intros T H. remember init as w0 eqn:E. assert (tty_inv w0) as I0 by (subst; unfold tty_inv; cbn; tauto). clear E.
  induction H as [|n w0 w1 w H1 Hn IH]; [done|]. eauto using tty_step.
Qed.

Lemma buffered_run n w : tty c = false → nsteps step n init w → buffered_inv w.
Proof.
  intros T H. remember init as w0 eqn:E. assert (buffered_inv w0) as I0 by (subst; unfold buffered_inv; cbn; tauto). clear E.
  induction H as [|n w0 w1 w H1 Hn IH]; [done|]. eauto using buffered_step.
Qed.

(** A child that cannot take a step has ended. *)
Lemma child_stuck w pc buf : child w = Some (pc, buf) → step_child w = None → pc = CDone.
Proof.
  intros Hc E. unfold step_child in E. rewrite Hc in E. unfold emit in E.
  destruct pc as [| | |[|l ls]| |], (tty c), (exec c); done.
Qed.

(** In a state without steps both processes have ended, and everything was printed. *)
Lemma finished_output n w :
  nsteps step n init w → finished w → parent w = PDone ∧ (∀ pc buf, child w = Some (pc, buf) → pc = CDone) ∧ prints_in_the_end (output w).
Proof.
  intros Hn [Hp Hc]. unfold prints_in_the_end.
  assert (∀ pc buf, child w = Some (pc, buf) → pc = CDone) as Hcd by (intros; by eapply child_stuck).
  assert (parent w = PDone) as Hpd.
  { unfold step_parent in Hp. destruct (parent w); [by destruct (fork_ok c)|by destruct (emit _ _ _)| |done|done].
    destruct (child w) as [[pc buf]|] eqn:Ec; [|done]. by rewrite (Hcd pc buf eq_refl) in Hp. }
  split_and!; [done|done|]. destruct (tty c) eqn:T.
  - pose proof (tty_run n w T Hn) as [_ I]. rewrite Hpd in I. destruct (child w) as [[pc buf]|] eqn:Ec.
    + destruct I as (-> & _ & a & Ha & HW & ->). cbn. inversion Ha; subst. done.
    + destruct I as (-> & [?|[-> _]]); done.
  - pose proof (buffered_run n w T Hn) as I. unfold buffered_inv in I. rewrite Hpd in I. destruct (child w) as [[pc buf]|].
    + destruct I as (-> & _ & -> & -> & _). done.
    + destruct I as (-> & _ & [?|[-> _]]); done.
Qed.
End system.

(** C20. The parent and the child of ptreecall, in any order of their steps: no run takes more
    than [rank init] steps, and where neither process can go on both have ended, the child
    before the parent leaves [wait], and the output is complete.  On a terminal it is the
    two lines of the child and then the process tree, as [ptree] prints it for the tree [t]
    in the memory of the kernel, with the line of the parent somewhere in between. *)
Theorem ptreecall_shows_tree `{TaskLayout} m t lfuel fuel b buf0 nr0 junk ppid cpid :
  in_memory m t → is_list (lists m) (t_addr (info t) + off_sibling) [] →
  (tree_size t <= fuel)%nat → (tree_size t <= lfuel)%nat →
  length b = Z.to_nat MAXBUFFERSIZE → length junk = MAXPROCESSNUMBER →
  (tree_size t <= MAXPROCESSNUMBER)%nat → listable (infos t) →
  ∃ lines, main m lfuel fuel (t_addr (info t)) (Some b) true true buf0 nr0 junk = Ok lines ∧
    let c := Config true true (Some lines) ppid cpid in
    ∀ n w, nsteps (step c) n init w → (n <= rank c init)%nat ∧
      (finished c w → parent w = PDone ∧ ∃ x y, x ++ y = [child_line c; exec_line] ++ (print_shown <$> shown true 0 0 t) ∧
         output w = x ++ parent_line c :: y).
Proof.
  intros. eexists. split; [by apply main_run|]. intros c n w Hn. split; [apply (run_rank c) in Hn as [_ ?]; lia|].
  intros Hf. destruct (finished_output c n w Hn Hf) as (Hp & _ & x & y & E & Ho). split; [done|]. by exists x, y.
Qed.

(** When the output is not a terminal, the two lines that the child printed are lost: they
    are still in its buffer when [execl] replaces the process, or when [_exit] ends it
    without flushing if there is no [ptree] to execute; whatever the order of steps, the
    output in the end is that of [ptree] followed by the line of the parent. *)
Theorem ptreecall_loses_child_lines c n w :
  tty c = false → fork_ok c = true → nsteps (step c) n init w → finished c w →
  output w = default [] (exec c) ++ [parent_line c].
Proof.
  intros T F Hn Hf. destruct (finished_output c n w Hn Hf) as (_ & _ & Ho). unfold prints_in_the_end in Ho. by rewrite T, F in Ho.
Qed.

(** ** Examples *)

(** A run given by the order of the processes: [true] for the parent. *)
Fixpoint scheduled (c : config) (l : list bool) (w : world) : option world :=
  match l with
  | [] => Some w
  | b :: l => w' ← (if b : bool then step_parent c w else step_child c w); scheduled c l w'
  end.

Lemma scheduled_steps c l : ∀ w w', scheduled c l w = Some w' → nsteps (step c) (length l) w w'.
Proof.
  induction l as [|b l IH]; intros w w' E; cbn in *; [simplify_eq; constructor|].
  apply bind_Some in E as (w1 & E1 & E). econstructor; [|by apply IH]. unfold step. destruct b; [by left|by right].
Qed.

Lemma ptreecall_shows_tree_witness :
  ∃ lines, main demo_mem 4 4 0x1000 (Some (replicate 2048 inhabitant)) true true [] 0 (replicate 256 0%nat) = Ok lines ∧
    let c := Config true true (Some lines) 10 11 in
    ∀ n w, nsteps (step c) n init w → (n <= rank c init)%nat ∧
      (finished c w → parent w = PDone ∧ ∃ x y, x ++ y = [child_line c; exec_line] ++ (print_shown <$> shown true 0 0 demo_tree) ∧
         output w = x ++ parent_line c :: y).
Proof.
  apply (ptreecall_shows_tree demo_mem demo_tree 4 4 (replicate 2048 inhabitant) [] 0 (replicate 256 0%nat) 10 11
           demo_tree_in_memory demo_root_sibling);
    [simpl; lia|simpl; lia|reflexivity|reflexivity|unfold MAXPROCESSNUMBER; simpl; lia|exact demo_tree_listable].
Defined.

Definition piped : config := Config false true (Some ["swapper"; "init"]%string) 10 11.

Definition piped_end : world := World ["swapper"; "init"; parent_line piped]%string PDone [] (Some (CDone, [])).

Lemma ptreecall_loses_child_lines_witness : output piped_end = default [] (exec piped) ++ [parent_line piped].
Proof.
  apply (ptreecall_loses_child_lines piped 10 piped_end); [reflexivity|reflexivity| |split; reflexivity].
  apply (scheduled_steps piped [true; true; false; false; false; false; false; false; true; true]). vm_compute. reflexivity.
Defined.
