(* ===== verification/Burger.v ===== *)
(** * The Burger Buddies simulation

    Models [Project 1/BBC/jni/BurgerBuddies.c]: cooks, cashiers and customers as
    threads that interleave at the granularity of the statements of the source
    (a program counter per thread), the six mutexes and the semaphores, the ring
    buffer of idle cashiers, and the manager that dismisses the staff with
    SIGUSR1.  [rack] and the other counters are kept as unbounded integers. *)

From S2P Require Import Prelude CLib.

(** ** Threads

    Each constructor is the statement the thread executes next; the number is
    its source line. *)

Inductive cook_pc :=
  | K_lockCK        (** 48 [pthread_mutex_lock(&CK)] *)
  | K_lockRack      (** 49 [pthread_mutex_lock(&checkRack)] *)
  | K_testFull      (** 51 [if (rack == racksize)] *)
  | K_unlockFull    (** 53 [pthread_mutex_unlock(&checkRack)] *)
  | K_waitFull      (** 54 [sem_wait(&rackFull)] *)
  | K_relock        (** 55 [pthread_mutex_lock(&checkRack)] *)
  | K_add           (** 58 [++rack] *)
  | K_print         (** 60 [printf("Cook [%d] makes a burger.")] *)
  | K_testOne       (** 61 [if (rack == 1 && waitForBurger)] *)
  | K_decWait       (** 63 [--waitForBurger] *)
  | K_postEmpty     (** 65 [sem_post(&rackEmpty)] *)
  | K_unlockRack    (** 67 [pthread_mutex_unlock(&checkRack)] *)
  | K_unlockCK      (** 69 [pthread_mutex_unlock(&CK)] *)
  | K_sleep.        (** 70 [sleep(1)] *)

Inductive cashier_pc :=
  | A_lockQueue     (** 80 [pthread_mutex_lock(&queueMutex)] *)
  | A_enqueue       (** 81 [enqueue(id)] *)
  | A_testOne       (** 83 [if (queueSize() == 1 && waitForCashier)] *)
  | A_decWait       (** 85 [--waitForCashier] *)
  | A_postBusy      (** 87 [sem_post(&cashiersAllBusy)] *)
  | A_unlockQueue   (** 89 [pthread_mutex_unlock(&queueMutex)] *)
  | A_waitCustomer  (** 91 [sem_wait(&cashierAvailable[id-1])] *)
  | A_printAccept   (** 93 [printf("Cashier [%d] accepts an order.")] *)
  | A_lockCA        (** 95 [pthread_mutex_lock(&CA)] *)
  | A_lockRack      (** 96 [pthread_mutex_lock(&checkRack)] *)
  | A_testEmpty     (** 98 [if (rack == 0)] *)
  | A_incWait       (** 100 [++waitForBurger] *)
  | A_unlockEmpty   (** 101 [pthread_mutex_unlock(&checkRack)] *)
  | A_waitEmpty     (** 103 [sem_wait(&rackEmpty)] *)
  | A_relock        (** 104 [pthread_mutex_lock(&checkRack)] *)
  | A_take          (** 107 [--rack] *)
  | A_testWasFull   (** 110 [if (rack + 1 == racksize)] *)
  | A_postFull      (** 110 [sem_post(&rackFull)] *)
  | A_unlockRack    (** 111 [pthread_mutex_unlock(&checkRack)] *)
  | A_printTake     (** 112 [printf("Cashier [%d] takes a burger to customer.")] *)
  | A_unlockCA      (** 113 [pthread_mutex_unlock(&CA)] *)
  | A_lockCnt       (** 115 [pthread_mutex_lock(&cntMutex)] *)
  | A_incServed     (** 116 [++customersServed] *)
  | A_testAll       (** 118 [if (customersServed == customers)] *)
  | A_postFinish    (** 118 [sem_post(&finish)] *)
  | A_unlockCnt.    (** 119 [pthread_mutex_unlock(&cntMutex)] *)

Inductive customer_pc :=
  | U_sleep                    (** 126 [sleep(1)] *)
  | U_lockCM                   (** 128 [pthread_mutex_lock(&CM)] *)
  | U_lockQueue                (** 130 [pthread_mutex_lock(&queueMutex)] *)
  | U_testSize                 (** 131 [tmp = queueSize()], 134 [if (tmp == 0)] *)
  | U_incWait                  (** 136 [++waitForCashier] *)
  | U_unlockBusy               (** 137 [pthread_mutex_unlock(&queueMutex)] *)
  | U_waitBusy                 (** 139 [sem_wait(&cashiersAllBusy)] *)
  | U_relock                   (** 140 [pthread_mutex_lock(&queueMutex)] *)
  | U_print                    (** 142 [printf("Customer [%d] comes.")] *)
  | U_dequeue                  (** 144 [serverID = dequeue()] *)
  | U_unlockQueue (server : Z) (** 145 [pthread_mutex_unlock(&queueMutex)] *)
  | U_wake (server : Z)        (** 146 [sem_post(&cashierAvailable[serverID-1])] *)
  | U_unlockCM                 (** 148 [pthread_mutex_unlock(&CM)] *)
  | U_exit.                    (** 155 [pthread_exit(0)] *)

Inductive manager_pc :=
  | M_wait                     (** 159 [sem_wait(&finish)] *)
  | M_killCook (i : nat)       (** 161 [pthread_kill(Cooks[i], SIGUSR1)] *)
  | M_killCashier (i : nat)    (** 162 [pthread_kill(Cashiers[i], SIGUSR1)] *)
  | M_exit.                    (** 163 [pthread_exit(0)] *)

(** A thread runs until SIGUSR1 is sent to it; then its handler
    [thread_exit_handler] may end it at any statement. *)
Inductive status := Running | Signalled | Exited.

Record thread (P : Type) := Thread { pc : P; st : status }.
Arguments Thread {P} pc st.
Arguments pc {P} t.
Arguments st {P} t.

Inductive event :=
  | Makes (cook : Z)
  | Accepts (cashier : Z)
  | Takes (cashier : Z)
  | Comes (customer : Z).

(** ** The shared state *)

Record shop := Shop {
  rack : Z;  (** burgers on the rack *)
  customersServed : Z;
  head : Z;
  tail : Z;
  waitForCashier : Z;
  waitForBurger : Z;
  sleepingQueue : list Z;  (** array of [cashiers + 1] entries *)
  cntMutex : bool;  (** a mutex is [true] when locked *)
  checkRack : bool;
  queueMutex : bool;
  CK : bool;
  CA : bool;
  CM : bool;
  finish : Z;  (** a semaphore is its value *)
  rackFull : Z;
  rackEmpty : Z;
  cashiersAllBusy : Z;
  cashierAvailable : list Z;
  Cooks : list (thread cook_pc);
  Cashiers : list (thread cashier_pc);
  Customers : list (thread customer_pc);
  Manager : manager_pc;
  out : list event;  (** what was printed, latest first *)
}.

Definition set_rack (v : Z) (s : shop) : shop :=
  Shop v (customersServed s) (head s) (tail s) (waitForCashier s) (waitForBurger s) (sleepingQueue s) (cntMutex s) (checkRack s) (queueMutex s) (CK s) (CA s) (CM s) (finish s) (rackFull s) (rackEmpty s) (cashiersAllBusy s) (cashierAvailable s) (Cooks s) (Cashiers s) (Customers s) (Manager s) (out s).

Definition set_customersServed (v : Z) (s : shop) : shop :=
  Shop (rack s) v (head s) (tail s) (waitForCashier s) (waitForBurger s) (sleepingQueue s) (cntMutex s) (checkRack s) (queueMutex s) (CK s) (CA s) (CM s) (finish s) (rackFull s) (rackEmpty s) (cashiersAllBusy s) (cashierAvailable s) (Cooks s) (Cashiers s) (Customers s) (Manager s) (out s).

Definition set_head (v : Z) (s : shop) : shop :=
  Shop (rack s) (customersServed s) v (tail s) (waitForCashier s) (waitForBurger s) (sleepingQueue s) (cntMutex s) (checkRack s) (queueMutex s) (CK s) (CA s) (CM s) (finish s) (rackFull s) (rackEmpty s) (cashiersAllBusy s) (cashierAvailable s) (Cooks s) (Cashiers s) (Customers s) (Manager s) (out s).

Definition set_tail (v : Z) (s : shop) : shop :=
  Shop (rack s) (customersServed s) (head s) v (waitForCashier s) (waitForBurger s) (sleepingQueue s) (cntMutex s) (checkRack s) (queueMutex s) (CK s) (CA s) (CM s) (finish s) (rackFull s) (rackEmpty s) (cashiersAllBusy s) (cashierAvailable s) (Cooks s) (Cashiers s) (Customers s) (Manager s) (out s).

Definition set_waitForCashier (v : Z) (s : shop) : shop :=
  Shop (rack s) (customersServed s) (head s) (tail s) v (waitForBurger s) (sleepingQueue s) (cntMutex s) (checkRack s) (queueMutex s) (CK s) (CA s) (CM s) (finish s) (rackFull s) (rackEmpty s) (cashiersAllBusy s) (cashierAvailable s) (Cooks s) (Cashiers s) (Customers s) (Manager s) (out s).

Definition set_waitForBurger (v : Z) (s : shop) : shop :=
  Shop (rack s) (customersServed s) (head s) (tail s) (waitForCashier s) v (sleepingQueue s) (cntMutex s) (checkRack s) (queueMutex s) (CK s) (CA s) (CM s) (finish s) (rackFull s) (rackEmpty s) (cashiersAllBusy s) (cashierAvailable s) (Cooks s) (Cashiers s) (Customers s) (Manager s) (out s).

Definition set_sleepingQueue (v : list Z) (s : shop) : shop :=
  Shop (rack s) (customersServed s) (head s) (tail s) (waitForCashier s) (waitForBurger s) v (cntMutex s) (checkRack s) (queueMutex s) (CK s) (CA s) (CM s) (finish s) (rackFull s) (rackEmpty s) (cashiersAllBusy s) (cashierAvailable s) (Cooks s) (Cashiers s) (Customers s) (Manager s) (out s).

Definition set_cntMutex (v : bool) (s : shop) : shop :=
  Shop (rack s) (customersServed s) (head s) (tail s) (waitForCashier s) (waitForBurger s) (sleepingQueue s) v (checkRack s) (queueMutex s) (CK s) (CA s) (CM s) (finish s) (rackFull s) (rackEmpty s) (cashiersAllBusy s) (cashierAvailable s) (Cooks s) (Cashiers s) (Customers s) (Manager s) (out s).

Definition set_checkRack (v : bool) (s : shop) : shop :=
  Shop (rack s) (customersServed s) (head s) (tail s) (waitForCashier s) (waitForBurger s) (sleepingQueue s) (cntMutex s) v (queueMutex s) (CK s) (CA s) (CM s) (finish s) (rackFull s) (rackEmpty s) (cashiersAllBusy s) (cashierAvailable s) (Cooks s) (Cashiers s) (Customers s) (Manager s) (out s).

Definition set_queueMutex (v : bool) (s : shop) : shop :=
  Shop (rack s) (customersServed s) (head s) (tail s) (waitForCashier s) (waitForBurger s) (sleepingQueue s) (cntMutex s) (checkRack s) v (CK s) (CA s) (CM s) (finish s) (rackFull s) (rackEmpty s) (cashiersAllBusy s) (cashierAvailable s) (Cooks s) (Cashiers s) (Customers s) (Manager s) (out s).

Definition set_CK (v : bool) (s : shop) : shop :=
  Shop (rack s) (customersServed s) (head s) (tail s) (waitForCashier s) (waitForBurger s) (sleepingQueue s) (cntMutex s) (checkRack s) (queueMutex s) v (CA s) (CM s) (finish s) (rackFull s) (rackEmpty s) (cashiersAllBusy s) (cashierAvailable s) (Cooks s) (Cashiers s) (Customers s) (Manager s) (out s).

Definition set_CA (v : bool) (s : shop) : shop :=
  Shop (rack s) (customersServed s) (head s) (tail s) (waitForCashier s) (waitForBurger s) (sleepingQueue s) (cntMutex s) (checkRack s) (queueMutex s) (CK s) v (CM s) (finish s) (rackFull s) (rackEmpty s) (cashiersAllBusy s) (cashierAvailable s) (Cooks s) (Cashiers s) (Customers s) (Manager s) (out s).

Definition set_CM (v : bool) (s : shop) : shop :=
  Shop (rack s) (customersServed s) (head s) (tail s) (waitForCashier s) (waitForBurger s) (sleepingQueue s) (cntMutex s) (checkRack s) (queueMutex s) (CK s) (CA s) v (finish s) (rackFull s) (rackEmpty s) (cashiersAllBusy s) (cashierAvailable s) (Cooks s) (Cashiers s) (Customers s) (Manager s) (out s).

Definition set_finish (v : Z) (s : shop) : shop :=
  Shop (rack s) (customersServed s) (head s) (tail s) (waitForCashier s) (waitForBurger s) (sleepingQueue s) (cntMutex s) (checkRack s) (queueMutex s) (CK s) (CA s) (CM s) v (rackFull s) (rackEmpty s) (cashiersAllBusy s) (cashierAvailable s) (Cooks s) (Cashiers s) (Customers s) (Manager s) (out s).

Definition set_rackFull (v : Z) (s : shop) : shop :=
  Shop (rack s) (customersServed s) (head s) (tail s) (waitForCashier s) (waitForBurger s) (sleepingQueue s) (cntMutex s) (checkRack s) (queueMutex s) (CK s) (CA s) (CM s) (finish s) v (rackEmpty s) (cashiersAllBusy s) (cashierAvailable s) (Cooks s) (Cashiers s) (Customers s) (Manager s) (out s).

Definition set_rackEmpty (v : Z) (s : shop) : shop :=
  Shop (rack s) (customersServed s) (head s) (tail s) (waitForCashier s) (waitForBurger s) (sleepingQueue s) (cntMutex s) (checkRack s) (queueMutex s) (CK s) (CA s) (CM s) (finish s) (rackFull s) v (cashiersAllBusy s) (cashierAvailable s) (Cooks s) (Cashiers s) (Customers s) (Manager s) (out s).

Definition set_cashiersAllBusy (v : Z) (s : shop) : shop :=
  Shop (rack s) (customersServed s) (head s) (tail s) (waitForCashier s) (waitForBurger s) (sleepingQueue s) (cntMutex s) (checkRack s) (queueMutex s) (CK s) (CA s) (CM s) (finish s) (rackFull s) (rackEmpty s) v (cashierAvailable s) (Cooks s) (Cashiers s) (Customers s) (Manager s) (out s).

Definition set_cashierAvailable (v : list Z) (s : shop) : shop :=
  Shop (rack s) (customersServed s) (head s) (tail s) (waitForCashier s) (waitForBurger s) (sleepingQueue s) (cntMutex s) (checkRack s) (queueMutex s) (CK s) (CA s) (CM s) (finish s) (rackFull s) (rackEmpty s) (cashiersAllBusy s) v (Cooks s) (Cashiers s) (Customers s) (Manager s) (out s).

Definition set_Cooks (v : list (thread cook_pc)) (s : shop) : shop :=
  Shop (rack s) (customersServed s) (head s) (tail s) (waitForCashier s) (waitForBurger s) (sleepingQueue s) (cntMutex s) (checkRack s) (queueMutex s) (CK s) (CA s) (CM s) (finish s) (rackFull s) (rackEmpty s) (cashiersAllBusy s) (cashierAvailable s) v (Cashiers s) (Customers s) (Manager s) (out s).

Definition set_Cashiers (v : list (thread cashier_pc)) (s : shop) : shop :=
  Shop (rack s) (customersServed s) (head s) (tail s) (waitForCashier s) (waitForBurger s) (sleepingQueue s) (cntMutex s) (checkRack s) (queueMutex s) (CK s) (CA s) (CM s) (finish s) (rackFull s) (rackEmpty s) (cashiersAllBusy s) (cashierAvailable s) (Cooks s) v (Customers s) (Manager s) (out s).

Definition set_Customers (v : list (thread customer_pc)) (s : shop) : shop :=
  Shop (rack s) (customersServed s) (head s) (tail s) (waitForCashier s) (waitForBurger s) (sleepingQueue s) (cntMutex s) (checkRack s) (queueMutex s) (CK s) (CA s) (CM s) (finish s) (rackFull s) (rackEmpty s) (cashiersAllBusy s) (cashierAvailable s) (Cooks s) (Cashiers s) v (Manager s) (out s).

Definition set_Manager (v : manager_pc) (s : shop) : shop :=
  Shop (rack s) (customersServed s) (head s) (tail s) (waitForCashier s) (waitForBurger s) (sleepingQueue s) (cntMutex s) (checkRack s) (queueMutex s) (CK s) (CA s) (CM s) (finish s) (rackFull s) (rackEmpty s) (cashiersAllBusy s) (cashierAvailable s) (Cooks s) (Cashiers s) (Customers s) v (out s).

Definition set_out (v : list event) (s : shop) : shop :=
  Shop (rack s) (customersServed s) (head s) (tail s) (waitForCashier s) (waitForBurger s) (sleepingQueue s) (cntMutex s) (checkRack s) (queueMutex s) (CK s) (CA s) (CM s) (finish s) (rackFull s) (rackEmpty s) (cashiersAllBusy s) (cashierAvailable s) (Cooks s) (Cashiers s) (Customers s) (Manager s) v.

(** The command-line parameters. *)
Record config := Config { cooks : Z; cashiers : Z; customers : Z; racksize : Z }.

Section shop.
Context (c : config).

(** ** The ring buffer of idle cashiers *)

Definition queueSize (s : shop) : Z :=
  Z.rem (tail s + 1 - head s + cashiers c + 1) (cashiers c + 1).

Definition enqueue (id : Z) (s : shop) : shop :=
  let t := Z.rem (tail s + 1) (cashiers c + 1) in
  set_sleepingQueue (<[Z.to_nat t := id]> (sleepingQueue s)) (set_tail t s).

(** The result 0 stands for an empty queue. *)
Definition dequeue (s : shop) : Z * shop :=
  if negb (head s =? Z.rem (tail s + 1) (cashiers c + 1))
  then (default 0 (sleepingQueue s !! Z.to_nat (head s)),
        set_head (Z.rem (head s + 1) (cashiers c + 1)) s)
  else (0, s).

(** ** One statement of each thread

    [None]: the thread is blocked (on a mutex or a semaphore) or has ended.  The
    thread functions return the statement to execute next and the new shared
    state. *)

Definition lock (m : shop → bool) (set : bool → shop → shop) (s : shop) : option shop :=
  if m s then None else Some (set true s).

Definition unlock (set : bool → shop → shop) (s : shop) : shop := set false s.

Definition sem_wait (v : shop → Z) (set : Z → shop → shop) (s : shop) : option shop :=
  if 0 <? v s then Some (set (v s - 1) s) else None.

Definition sem_post (v : shop → Z) (set : Z → shop → shop) (s : shop) : shop :=
  set (v s + 1) s.

Definition print (e : event) (s : shop) : shop := set_out (e :: out s) s.

Definition cook (id : Z) (p : cook_pc) (s : shop) : option (cook_pc * shop) :=
  match p with
  | K_lockCK => s ← lock CK set_CK s; Some (K_lockRack, s)
  | K_lockRack => s ← lock checkRack set_checkRack s; Some (K_testFull, s)
  | K_testFull => Some (if rack s =? racksize c then K_unlockFull else K_add, s)
  | K_unlockFull => Some (K_waitFull, unlock set_checkRack s)
  | K_waitFull => s ← sem_wait rackFull set_rackFull s; Some (K_relock, s)
  | K_relock => s ← lock checkRack set_checkRack s; Some (K_add, s)
  | K_add => Some (K_print, set_rack (rack s + 1) s)
  | K_print => Some (K_testOne, print (Makes id) s)
  | K_testOne =>
      Some (if (rack s =? 1) && negb (waitForBurger s =? 0) then K_decWait else K_unlockRack, s)
  | K_decWait => Some (K_postEmpty, set_waitForBurger (waitForBurger s - 1) s)
  | K_postEmpty => Some (K_unlockRack, sem_post rackEmpty set_rackEmpty s)
  | K_unlockRack => Some (K_unlockCK, unlock set_checkRack s)
  | K_unlockCK => Some (K_sleep, unlock set_CK s)
  | K_sleep => Some (K_lockCK, s)
  end.

(** [cashierAvailable[i]]; the index of a cashier is [id - 1]. *)
Definition available (i : Z) (s : shop) : Z := default 0 (cashierAvailable s !! Z.to_nat i).

Definition set_available (i v : Z) (s : shop) : shop :=
  set_cashierAvailable (<[Z.to_nat i := v]> (cashierAvailable s)) s.

Definition cashier (id : Z) (p : cashier_pc) (s : shop) : option (cashier_pc * shop) :=
  match p with
  | A_lockQueue => s ← lock queueMutex set_queueMutex s; Some (A_enqueue, s)
  | A_enqueue => Some (A_testOne, enqueue id s)
  | A_testOne =>
      Some (if (queueSize s =? 1) && negb (waitForCashier s =? 0) then A_decWait else A_unlockQueue, s)
  | A_decWait => Some (A_postBusy, set_waitForCashier (waitForCashier s - 1) s)
  | A_postBusy => Some (A_unlockQueue, sem_post cashiersAllBusy set_cashiersAllBusy s)
  | A_unlockQueue => Some (A_waitCustomer, unlock set_queueMutex s)
  | A_waitCustomer =>
      s ← sem_wait (available (id - 1)) (set_available (id - 1)) s; Some (A_printAccept, s)
  | A_printAccept => Some (A_lockCA, print (Accepts id) s)
  | A_lockCA => s ← lock CA set_CA s; Some (A_lockRack, s)
  | A_lockRack => s ← lock checkRack set_checkRack s; Some (A_testEmpty, s)
  | A_testEmpty => Some (if rack s =? 0 then A_incWait else A_take, s)
  | A_incWait => Some (A_unlockEmpty, set_waitForBurger (waitForBurger s + 1) s)
  | A_unlockEmpty => Some (A_waitEmpty, unlock set_checkRack s)
  | A_waitEmpty => s ← sem_wait rackEmpty set_rackEmpty s; Some (A_relock, s)
  | A_relock => s ← lock checkRack set_checkRack s; Some (A_take, s)
  | A_take => Some (A_testWasFull, set_rack (rack s - 1) s)
  | A_testWasFull => Some (if rack s + 1 =? racksize c then A_postFull else A_unlockRack, s)
  | A_postFull => Some (A_unlockRack, sem_post rackFull set_rackFull s)
  | A_unlockRack => Some (A_printTake, unlock set_checkRack s)
  | A_printTake => Some (A_unlockCA, print (Takes id) s)
  | A_unlockCA => Some (A_lockCnt, unlock set_CA s)
  | A_lockCnt => s ← lock cntMutex set_cntMutex s; Some (A_incServed, s)
  | A_incServed => Some (A_testAll, set_customersServed (customersServed s + 1) s)
  | A_testAll => Some (if customersServed s =? customers c then A_postFinish else A_unlockCnt, s)
  | A_postFinish => Some (A_unlockCnt, sem_post finish set_finish s)
  | A_unlockCnt => Some (A_lockQueue, unlock set_cntMutex s)
  end.

Definition customer (id : Z) (p : customer_pc) (s : shop) : option (customer_pc * shop) :=
  match p with
  | U_sleep => Some (U_lockCM, s)
  | U_lockCM => s ← lock CM set_CM s; Some (U_lockQueue, s)
  | U_lockQueue => s ← lock queueMutex set_queueMutex s; Some (U_testSize, s)
  | U_testSize => Some (if queueSize s =? 0 then U_incWait else U_print, s)
  | U_incWait => Some (U_unlockBusy, set_waitForCashier (waitForCashier s + 1) s)
  | U_unlockBusy => Some (U_waitBusy, unlock set_queueMutex s)
  | U_waitBusy => s ← sem_wait cashiersAllBusy set_cashiersAllBusy s; Some (U_relock, s)
  | U_relock => s ← lock queueMutex set_queueMutex s; Some (U_print, s)
  | U_print => Some (U_dequeue, print (Comes id) s)
  | U_dequeue => let '(server, s) := dequeue s in Some (U_unlockQueue server, s)
  | U_unlockQueue server => Some (U_wake server, unlock set_queueMutex s)
  | U_wake server =>
      Some (U_unlockCM, sem_post (available (server - 1)) (set_available (server - 1)) s)
  | U_unlockCM => Some (U_exit, unlock set_CM s)
  | U_exit => None
  end.

(** [pthread_kill(t, SIGUSR1)] *)
Definition signal {P} (t : thread P) : thread P :=
  Thread (pc t) (match st t with Running => Signalled | x => x end).

Definition manager (p : manager_pc) (s : shop) : option (manager_pc * shop) :=
  match p with
  | M_wait => s ← sem_wait finish set_finish s; Some (M_killCook 0, s)
  | M_killCook i =>
      if Z.of_nat i <? cooks c then Some (M_killCook (S i), set_Cooks (alter signal i (Cooks s)) s)
      else Some (M_killCashier 0, s)
  | M_killCashier i =>
      if Z.of_nat i <? cashiers c
      then Some (M_killCashier (S i), set_Cashiers (alter signal i (Cashiers s)) s)
      else Some (M_exit, s)
  | M_exit => None
  end.

(** ** The interleaving of the threads *)

(** Which thread takes a step, or which signalled thread runs its handler. *)
Inductive choice :=
  | Cook (i : nat)
  | Cashier (i : nat)
  | Customer (i : nat)
  | Boss
  | CookHandler (i : nat)
  | CashierHandler (i : nat).

(** The thread number [i] (from 0) has the id [i + 1]. *)
Definition run_thread {P} (threads : shop → list (thread P)) (set : list (thread P) → shop → shop)
    (body : Z → P → shop → option (P * shop)) (i : nat) (s : shop) : option shop :=
  t ← threads s !! i;
  match st t with
  | Exited => None
  | _ =>
      '(p, s') ← body (Z.of_nat i + 1) (pc t) s;
      Some (set (<[i := Thread p (st t)]> (threads s')) s')
  end.

Definition run_handler {P} (threads : shop → list (thread P)) (set : list (thread P) → shop → shop)
    (i : nat) (s : shop) : option shop :=
  t ← threads s !! i;
  match st t with
  | Signalled => Some (set (<[i := Thread (pc t) Exited]> (threads s)) s)
  | _ => None
  end.

Definition step (ch : choice) (s : shop) : option shop :=
  match ch with
  | Cook i => run_thread Cooks set_Cooks cook i s
  | Cashier i => run_thread Cashiers set_Cashiers cashier i s
  | Customer i => run_thread Customers set_Customers customer i s
  | Boss => '(p, s') ← manager (Manager s) s; Some (set_Manager p s')
  | CookHandler i => run_handler Cooks set_Cooks i s
  | CashierHandler i => run_handler Cashiers set_Cashiers i s
  end.

(** The state when all threads are created; [junk] is the uninitialised array
    [sleepingQueue]. *)
Definition init (junk : list Z) : shop :=
  Shop 0 0 0 (-1) 0 0 junk false false false false false false 0 0 0 0
    (replicate (Z.to_nat (cashiers c)) 0)
    (replicate (Z.to_nat (cooks c)) (Thread K_lockCK Running))
    (replicate (Z.to_nat (cashiers c)) (Thread A_lockQueue Running))
    (replicate (Z.to_nat (customers c)) (Thread U_sleep Running))
    M_wait [].

Inductive reachable : shop → Prop :=
  | reachable_init junk :
      length junk = Z.to_nat (cashiers c + 1) → reachable (init junk)
  | reachable_step s ch s' : reachable s → step ch s = Some s' → reachable s'.

Fixpoint run (chs : list choice) (s : shop) : option shop :=
  match chs with
  | [] => Some s
  | ch :: chs => s ← step ch s; run chs s
  end.
End shop.

(** ** [main]: the parameters

    [None]: the number of arguments is wrong and the usage message is printed. *)
Definition main (argv : list string) : option config :=
  match argv with
  | [_; a1; a2; a3; a4] => Some (Config (atoi a1) (atoi a2) (atoi a3) (atoi a4))
  | _ => None
  end.
