(* ===== verification/BurgerInv.v ===== *)
(** * Invariants of the Burger Buddies simulation

    The synchronisation of [Burger.v] is correct because of linear relations
    between the semaphores, the shared counters and the number of threads at each
    statement; they hold in every reachable state. *)

From S2P Require Import Prelude CLib Burger.

(** ** Counting threads *)

Class Coded (P : Type) := code : P → nat.

#[export] Instance cook_code : Coded cook_pc := λ p,
  match p with
  | K_lockCK => 0 | K_lockRack => 1 | K_testFull => 2 | K_unlockFull => 3 | K_waitFull => 4
  | K_relock => 5 | K_add => 6 | K_print => 7 | K_testOne => 8 | K_decWait => 9
  | K_postEmpty => 10 | K_unlockRack => 11 | K_unlockCK => 12 | K_sleep => 13
  end%nat.

#[export] Instance cashier_code : Coded cashier_pc := λ p,
  match p with
  | A_lockQueue => 0 | A_enqueue => 1 | A_testOne => 2 | A_decWait => 3 | A_postBusy => 4
  | A_unlockQueue => 5 | A_waitCustomer => 6 | A_printAccept => 7 | A_lockCA => 8
  | A_lockRack => 9 | A_testEmpty => 10 | A_incWait => 11 | A_unlockEmpty => 12
  | A_waitEmpty => 13 | A_relock => 14 | A_take => 15 | A_testWasFull => 16 | A_postFull => 17
  | A_unlockRack => 18 | A_printTake => 19 | A_unlockCA => 20 | A_lockCnt => 21
  | A_incServed => 22 | A_testAll => 23 | A_postFinish => 24 | A_unlockCnt => 25
  end%nat.

#[export] Instance customer_code : Coded customer_pc := λ p,
  match p with
  | U_sleep => 0 | U_lockCM => 1 | U_lockQueue => 2 | U_testSize => 3 | U_incWait => 4
  | U_unlockBusy => 5 | U_waitBusy => 6 | U_relock => 7 | U_print => 8 | U_dequeue => 9
  | U_unlockQueue _ => 10 | U_wake _ => 11 | U_unlockCM => 12 | U_exit => 13
  end%nat.

(** The number of threads at the statement [x] (of any argument). *)
Fixpoint at_pc {P} `{Coded P} (x : P) (l : list (thread P)) : Z :=
  match l with
  | [] => 0
  | t :: l => Z.b2z (Nat.eqb (code (pc t)) (code x)) + at_pc x l
  end.

Section counting.
Context {P : Type} `{Coded P}.
Implicit Types (l : list (thread P)).

Lemma at_pc_nonneg x l : 0 <= at_pc x l.
Proof. induction l as [|t l IH]; simpl; [lia|]. destruct (Nat.eqb _ _); simpl; lia. Qed.

Lemma at_pc_insert x l i t t' :
  l !! i = Some t →
  at_pc x (<[i := t']> l) =
  at_pc x l - Z.b2z (Nat.eqb (code (pc t)) (code x)) + Z.b2z (Nat.eqb (code (pc t')) (code x)).
Proof.
  revert i. induction l as [|t0 l IH]; intros [|i] Hi; simplify_eq/=; [lia|].
  rewrite (IH i) by done. lia.
Qed.

Lemma at_pc_here_code l i t x :
  l !! i = Some t → code (pc t) = code x → 1 <= at_pc x l.
Proof.
  intros Hi Hx. revert i Hi. induction l as [|t0 l IH]; intros [|i] Hi; simplify_eq/=.
  - rewrite Hx, Nat.eqb_refl. pose proof (at_pc_nonneg x l). simpl. lia.
  - specialize (IH i Hi). destruct (Nat.eqb _ _); simpl; lia.
Qed.

Lemma at_pc_signal x l i : at_pc x (alter signal i l) = at_pc x l.
Proof.
  revert i. induction l as [|t0 l IH]; intros [|i]; [done..|].
  change (alter signal (S i) (t0 :: l)) with (t0 :: alter signal i l). cbn [at_pc]. by rewrite IH.
Qed.

Lemma at_pc_replicate x n p :
  at_pc x (replicate n (Thread p Running)) = if Nat.eqb (code p) (code x) then Z.of_nat n else 0.
Proof. induction n as [|n IH]; simpl; [by case_match|]. rewrite IH. case_match; simpl; lia. Qed.
End counting.

(** ** Case analysis on the steps *)

Lemma run_thread_inv {P} threads set (body : Z → P → shop → option (P * shop)) i s s' :
  run_thread threads set body i s = Some s' →
  ∃ p x p' s1, threads s !! i = Some (Thread p x) ∧ x ≠ Exited ∧
    body (Z.of_nat i + 1) p s = Some (p', s1) ∧ s' = set (<[i := Thread p' x]> (threads s1)) s1.
Proof.
  unfold run_thread. destruct (threads s !! i) as [[p x]|]; [|done]. simpl.
  intros Hr. exists p, x. destruct x; simpl in *; try done;
    destruct (body _ p s) as [[p' s1]|]; simplify_eq/=; by exists p', s1.
Qed.

Lemma run_handler_inv {P} (threads : shop → list (thread P)) set i s s' :
  run_handler threads set i s = Some s' →
  ∃ p, threads s !! i = Some (Thread p Signalled) ∧
    s' = set (<[i := Thread p Exited]> (threads s)) s.
Proof.
  unfold run_handler. destruct (threads s !! i) as [[p x]|]; [|done]. simpl.
  destruct x; simpl; try done. intros. simplify_eq. by exists p.
Qed.

(** [by_step H] opens a step into the statements of the threads; the thread that
    moves is found by [Ht]. *)
Ltac by_step H :=
  match type of H with
  | step _ ?ch _ = Some _ =>
      destruct ch as [i|i|i| |i|i]; simpl in H;
      [ apply run_thread_inv in H as (p & x & p' & s1 & Ht & Hx & Hb & ->);
        destruct p; simpl in Hb
      | apply run_thread_inv in H as (p & x & p' & s1 & Ht & Hx & Hb & ->);
        destruct p; simpl in Hb
      | apply run_thread_inv in H as (p & x & p' & s1 & Ht & Hx & Hb & ->);
        destruct p; simpl in Hb
      | match type of H with context [manager _ (Manager ?s) _] => destruct (Manager s) eqn:Hman end;
        simpl in H
      | apply run_handler_inv in H as (p & Ht & ->)
      | apply run_handler_inv in H as (p & Ht & ->) ];
      unfold lock, unlock, sem_wait, sem_post in *; simpl in *;
      repeat case_match; simplify_eq/=
  end.

(** [count_step Ht] rewrites the thread counts after the thread found by [Ht] has
    moved; [nonneg] adds the facts that counts are not negative. *)
Ltac count_step Ht :=
  rewrite ?at_pc_signal; repeat rewrite (at_pc_insert _ _ _ _ _ Ht); cbn [code cook_code cashier_code customer_code Nat.eqb Z.b2z pc].

Ltac nonneg :=
  repeat match goal with
  | |- context [at_pc ?x ?l] =>
      lazymatch goal with _ : 0 <= at_pc x l |- _ => fail | _ => pose proof (at_pc_nonneg x l) end
  | _ : context [at_pc ?x ?l] |- _ =>
      lazymatch goal with _ : 0 <= at_pc x l |- _ => fail | _ => pose proof (at_pc_nonneg x l) end
  end.

Ltac bits :=
  repeat match goal with
  | _ : context [Z.b2z ?b] |- _ =>
      lazymatch goal with
      | _ : 0 <= Z.b2z b <= 1 |- _ => fail
      | _ => assert (0 <= Z.b2z b <= 1) by (destruct b; simpl; lia)
      end
  end.

(** [count_facts Ht] adds what is known of the counts before the step: the moving
    thread is counted, counts are not negative and mutexes are 0 or 1. *)
Ltac count_facts Ht :=
  repeat match goal with E : ?b = false |- _ => rewrite E in *; clear E end;
  try first
    [ pose proof (at_pc_here_code _ _ _ (U_unlockQueue 0) Ht eq_refl)
    | pose proof (at_pc_here_code _ _ _ (U_wake 0) Ht eq_refl)
    | pose proof (at_pc_here_code _ _ _ _ Ht eq_refl) ];
  cbn [pc Z.b2z] in *; nonneg; bits.

(** ** Mutual exclusion

    Each mutex is locked exactly when one thread is in a section it protects. *)

Record mutexes (s : shop) : Prop := Mutexes {
  mx_CK : let k x := at_pc x (Cooks s) in
    k K_lockRack + k K_testFull + k K_unlockFull + k K_waitFull + k K_relock + k K_add + k K_print +
    k K_testOne + k K_decWait + k K_postEmpty + k K_unlockRack + k K_unlockCK = Z.b2z (CK s);
  mx_checkRack : let k x := at_pc x (Cooks s) in let a x := at_pc x (Cashiers s) in
    k K_testFull + k K_unlockFull + k K_add + k K_print + k K_testOne + k K_decWait +
    k K_postEmpty + k K_unlockRack +
    a A_testEmpty + a A_incWait + a A_unlockEmpty + a A_take + a A_testWasFull + a A_postFull +
    a A_unlockRack = Z.b2z (checkRack s);
  mx_CA : let a x := at_pc x (Cashiers s) in
    a A_lockRack + a A_testEmpty + a A_incWait + a A_unlockEmpty + a A_waitEmpty + a A_relock +
    a A_take + a A_testWasFull + a A_postFull + a A_unlockRack + a A_printTake + a A_unlockCA =
    Z.b2z (CA s);
  mx_queue : let a x := at_pc x (Cashiers s) in let u x := at_pc x (Customers s) in
    a A_enqueue + a A_testOne + a A_decWait + a A_postBusy + a A_unlockQueue +
    u U_testSize + u U_incWait + u U_unlockBusy + u U_print + u U_dequeue + u (U_unlockQueue 0) =
    Z.b2z (queueMutex s);
  mx_CM : let u x := at_pc x (Customers s) in
    u U_lockQueue + u U_testSize + u U_incWait + u U_unlockBusy + u U_waitBusy + u U_relock +
    u U_print + u U_dequeue + u (U_unlockQueue 0) + u (U_wake 0) + u U_unlockCM = Z.b2z (CM s);
  mx_cnt : let a x := at_pc x (Cashiers s) in
    a A_incServed + a A_testAll + a A_postFinish + a A_unlockCnt = Z.b2z (cntMutex s);
}.

Lemma mutexes_init c junk : mutexes (init c junk).
Proof. split; simpl; rewrite !at_pc_replicate; done. Qed.

Lemma mutexes_step c ch s s' : mutexes s → step c ch s = Some s' → mutexes s'.
Proof.
  intros [H1 H2 H3 H4 H5 H6] Hs. cbv zeta in *.
  by_step Hs; unfold dequeue in *; repeat case_match; simplify_eq/=; try by split.
  all: count_facts Ht; split; cbv zeta; simpl; count_step Ht; lia.
Qed.

(** ** The rack

    The semaphore [rackEmpty] and the counter [waitForBurger] pair up cashiers
    that wait with cooks that signal, so that a cashier about to take a burger
    finds one. *)

Record rack_inv (c : config) (s : shop) : Prop := RackInv {
  rk_wait : waitForBurger s + at_pc K_postEmpty (Cooks s) + rackEmpty s =
    at_pc A_unlockEmpty (Cashiers s) + at_pc A_waitEmpty (Cashiers s);
  rk_nonneg : 0 <= waitForBurger s ∧ 0 <= rackEmpty s ∧ 0 <= rackFull s;
  rk_dec : at_pc K_decWait (Cooks s) <= waitForBurger s;
  rk_pending : 1 <= waitForBurger s →
    rack s = at_pc K_print (Cooks s) + at_pc K_testOne (Cooks s) + at_pc K_decWait (Cooks s);
  rk_mid : at_pc K_print (Cooks s) + at_pc K_testOne (Cooks s) + at_pc K_decWait (Cooks s) <= rack s;
  rk_has : at_pc K_postEmpty (Cooks s) + rackEmpty s +
    at_pc A_relock (Cashiers s) + at_pc A_take (Cashiers s) <= rack s;
  rk_inc : 1 <= at_pc A_incWait (Cashiers s) → rack s = 0;
  rk_full : 1 <= at_pc K_unlockFull (Cooks s) + at_pc K_waitFull (Cooks s) →
    racksize c <= rack s ∨ 1 <= rackFull s ∨ 1 <= at_pc A_postFull (Cashiers s) ∨
    1 <= at_pc A_testWasFull (Cashiers s) ∧ rack s = racksize c - 1;
}.

Lemma rack_inv_init c junk : rack_inv c (init c junk).
Proof. split; simpl; rewrite ?at_pc_replicate; simpl; lia. Qed.

Lemma rack_inv_step c ch s s' :
  mutexes s → rack_inv c s → step c ch s = Some s' → rack_inv c s'.
Proof.
  intros [H1 H2 H3 _ _ _] [R1 R2 R3 R4 R5 R6 R7 R8] Hs. cbv zeta in *.
  by_step Hs; unfold dequeue in *; repeat case_match; simplify_eq/=; try by split.
  all: rewrite ?andb_true_iff, ?andb_false_iff, ?negb_true_iff, ?negb_false_iff, ?Z.eqb_eq, ?Z.eqb_neq,
    ?Z.ltb_lt in *.
  all: count_facts Ht; split; cbv zeta; simpl; count_step Ht; lia.
Qed.
