(* ===== verification/BurgerQueue.v ===== *)
(** * The queue of idle cashiers

    The ring buffer of [BurgerBuddies.c] refines a list of cashier ids, and every
    idle cashier is accounted for: it is in the queue, or it was picked by a
    customer who is about to wake it, or its semaphore has been posted.  With the
    counting invariants this shows that a customer never dequeues from an empty
    queue and never indexes [cashierAvailable] out of range. *)

From S2P Require Import Prelude CLib Burger BurgerInv.

Arguments queueSize : simpl never.
Arguments dequeue : simpl never.

(** ** The ring buffer as a list *)

(** The entries of the array [arr] of [K + 1] slots from [h] up to [t], in ring
    order, are the list [Q]. *)
Record ring (K h t : Z) (arr Q : list Z) : Prop := Ring {
  ring_head : 0 <= h <= K;
  ring_tail : -1 <= t <= K;
  ring_length : Z.of_nat (length arr) = K + 1;
  ring_size : Z.of_nat (length Q) <= K;
  ring_next : (t + 1) mod (K + 1) = (h + Z.of_nat (length Q)) mod (K + 1);
  ring_get : ∀ i x, Q !! i = Some x → arr !! Z.to_nat ((h + Z.of_nat i) mod (K + 1)) = Some x;
}.

Definition shop_ring (c : config) (s : shop) : list Z → Prop :=
  ring (cashiers c) (head s) (tail s) (sleepingQueue s).

Lemma mod_cancel a n m K : 0 <= n < K → 0 <= m < K → (a + n) mod K = (a + m) mod K → n = m.
Proof.
  intros Hn Hm E. assert (K ≠ 0) by lia.
  pose proof (Z.div_mod (a + n) K). pose proof (Z.div_mod (a + m) K).
  assert (n - m = K * ((a + n) / K - (a + m) / K)) by lia.
  assert ((a + n) / K - (a + m) / K = 0) by nia. lia.
Qed.

Lemma queueSize_ring c s Q : shop_ring c s Q → queueSize c s = Z.of_nat (length Q).
Proof.
  intros [Hh Ht _ Hs Hn _]. unfold queueSize. rewrite Z.rem_mod_nonneg by lia.
  apply (mod_cancel (head s) _ _ (cashiers c + 1)); [apply Z.mod_pos_bound; lia|lia|].
  rewrite Zplus_mod_idemp_r, <-Hn.
  replace (head s + (tail s + 1 - head s + cashiers c + 1)) with (tail s + 1 + 1 * (cashiers c + 1)) by lia.
  by rewrite Z.mod_add by lia.
Qed.

Lemma enqueue_ring c s Q id :
  shop_ring c s Q → Z.of_nat (length Q) < cashiers c → shop_ring c (enqueue c id s) (Q ++ [id]).
Proof.
  intros [Hh Ht Hl Hs Hn Hg] Hq. unfold shop_ring, enqueue. simpl.
  rewrite Z.rem_mod_nonneg by lia.
  pose proof (Z.mod_pos_bound (tail s + 1) (cashiers c + 1)).
  split; rewrite ?length_insert, ?length_app; simpl; try lia.
  - rewrite Hn, Nat2Z.inj_add, Zplus_mod_idemp_l. f_equal. lia.
  - intros i x [Hi|[Hi Hx]]%lookup_app_Some.
    + rewrite list_lookup_insert_ne; [by apply Hg|]. apply lookup_lt_Some in Hi.
      intros E%Z2Nat.inj; [|apply Z.mod_pos_bound; lia..].
      rewrite Hn in E. apply mod_cancel in E; lia.
    + apply list_lookup_singleton_Some in Hx as [Hx ->].
      replace i with (length Q) by lia. rewrite Hn. apply list_lookup_insert_eq.
      pose proof (Z.mod_pos_bound (head s + Z.of_nat (length Q)) (cashiers c + 1)). lia.
Qed.

Lemma dequeue_ring c s x Q :
  shop_ring c s (x :: Q) →
  dequeue c s = (x, set_head (Z.rem (head s + 1) (cashiers c + 1)) s) ∧
  shop_ring c (set_head (Z.rem (head s + 1) (cashiers c + 1)) s) Q.
Proof.
  intros [Hh Ht Hl Hs Hn Hg]. simpl in *. unfold dequeue.
  rewrite !Z.rem_mod_nonneg by lia. split.
  - destruct (Z.eqb_spec (head s) ((tail s + 1) mod (cashiers c + 1))) as [E|_]; simpl.
    + rewrite Hn in E. rewrite <-(Z.mod_small (head s) (cashiers c + 1)) in E at 1 by lia.
      rewrite <-(Z.add_0_r (head s)) in E at 1. apply mod_cancel in E; lia.
    + specialize (Hg O x eq_refl). rewrite Z.add_0_r, Z.mod_small in Hg by lia. by rewrite Hg.
  - pose proof (Z.mod_pos_bound (head s + 1) (cashiers c + 1)).
    unfold shop_ring. split; simpl; try lia.
    + rewrite Hn, Zplus_mod_idemp_l. f_equal. lia.
    + intros i y Hi. rewrite Zplus_mod_idemp_l.
      specialize (Hg (S i) y Hi). by replace (head s + 1 + Z.of_nat i) with (head s + Z.of_nat (S i)) by lia.
Qed.

(** ** Where an idle cashier is *)

Definition tally {P} (f : P → bool) (l : list (thread P)) : Z :=
  foldr (λ t n, Z.b2z (f (pc t)) + n) 0 l.

Definition serves (id : Z) (p : customer_pc) : bool :=
  match p with U_unlockQueue v | U_wake v => v =? id | _ => false end.

(** The statements of a cashier between [enqueue] and the return of [sem_wait]. *)
Definition is_idle (p : cashier_pc) : bool :=
  match p with A_testOne | A_decWait | A_postBusy | A_unlockQueue | A_waitCustomer => true | _ => false end.

Definition idle_at (l : list (thread cashier_pc)) (id : Z) : bool :=
  if id <? 1 then false
  else match l !! Z.to_nat (id - 1) with Some t => is_idle (pc t) | None => false end.

Definition avail_at (av : list Z) (id : Z) : Z :=
  if id <? 1 then 0 else default 0 (av !! Z.to_nat (id - 1)).

Definition slots (s : shop) (Q : list Z) : Prop :=
  ∀ id, 0 <= avail_at (cashierAvailable s) id ∧
    occ id Q + tally (serves id) (Customers s) + avail_at (cashierAvailable s) id =
    Z.b2z (idle_at (Cashiers s) id).

Lemma tally_nonneg {P} (f : P → bool) l : 0 <= tally f l.
Proof. induction l as [|t l IH]; simpl; [done|]. destruct (f (pc t)); simpl; lia. Qed.

Lemma tally_insert {P} (f : P → bool) l i t t' :
  l !! i = Some t → tally f (<[i := t']> l) = tally f l - Z.b2z (f (pc t)) + Z.b2z (f (pc t')).
Proof.
  revert i. induction l as [|t0 l IH]; intros [|i] Hi; simplify_eq/=; [lia|]. rewrite (IH i Hi). lia.
Qed.

Lemma idle_at_insert l i t t' id :
  l !! i = Some t →
  idle_at (<[i := t']> l) id = if Z.of_nat i + 1 =? id then is_idle (pc t') else idle_at l id.
Proof.
  intros Hi. unfold idle_at. destruct (Z.eqb_spec (Z.of_nat i + 1) id) as [<-|Hn].
  - destruct (Z.ltb_spec (Z.of_nat i + 1) 1); [lia|].
    replace (Z.to_nat (Z.of_nat i + 1 - 1)) with i by lia.
    by rewrite list_lookup_insert_eq by by eapply lookup_lt_Some.
  - destruct (Z.ltb_spec id 1); [done|]. by rewrite list_lookup_insert_ne by lia.
Qed.

Lemma idle_at_here l i t : l !! i = Some t → idle_at l (Z.of_nat i + 1) = is_idle (pc t).
Proof.
  intros Hi. unfold idle_at. destruct (Z.ltb_spec (Z.of_nat i + 1) 1); [lia|].
  replace (Z.to_nat (Z.of_nat i + 1 - 1)) with i by lia. by rewrite Hi.
Qed.

Lemma idle_at_signal l i id : idle_at (alter signal i l) id = idle_at l id.
Proof.
  unfold idle_at. destruct (id <? 1); [done|].
  destruct (decide (i = Z.to_nat (id - 1))) as [->|Hn].
  - rewrite list_lookup_alter_eq. by destruct (l !! _).
  - by rewrite list_lookup_alter_ne.
Qed.

Lemma idle_at_range l id : idle_at l id = true → 1 <= id <= Z.of_nat (length l).
Proof.
  unfold idle_at. destruct (Z.ltb_spec id 1); [done|].
  destruct (l !! _) eqn:E; [|done]. apply lookup_lt_Some in E. lia.
Qed.

Lemma avail_at_insert av v id x :
  1 <= v <= Z.of_nat (length av) →
  avail_at (<[Z.to_nat (v - 1) := x]> av) id = if v =? id then x else avail_at av id.
Proof.
  intros Hv. unfold avail_at. destruct (Z.eqb_spec v id) as [<-|Hn].
  - destruct (Z.ltb_spec v 1); [lia|]. by rewrite list_lookup_insert_eq by lia.
  - destruct (Z.ltb_spec id 1); [done|]. by rewrite list_lookup_insert_ne by lia.
Qed.

Lemma available_at v s : 1 <= v → available (v - 1) s = avail_at (cashierAvailable s) v.
Proof. intros. unfold available, avail_at. by destruct (Z.ltb_spec v 1); [lia|]. Qed.

(** ** The invariant of the queue *)

Record queue_inv (c : config) (s : shop) (Q : list Z) : Prop := QueueInv {
  q_ring : shop_ring c s Q;
  q_slots : slots s Q;
  q_cashiers : Z.of_nat (length (Cashiers s)) = cashiers c;
  q_available : length (cashierAvailable s) = length (Cashiers s);
}.

(** An id in the queue, or held by a customer, is the id of an idle cashier, and
    no id occurs twice. *)
Lemma slots_occ s Q id : slots s Q →
  0 <= occ id Q <= 1 ∧ 0 <= tally (serves id) (Customers s) <= 1 ∧
  (1 <= occ id Q + tally (serves id) (Customers s) → 1 <= id <= Z.of_nat (length (Cashiers s))).
Proof.
  intros H. destruct (H id) as [H1 H2].
  pose proof (occ_nonneg id Q). pose proof (tally_nonneg (serves id) (Customers s)).
  pose proof (idle_at_range (Cashiers s) id) as Hr.
  destruct (idle_at (Cashiers s) id); simpl in *; [specialize (Hr eq_refl)|]; lia.
Qed.

(** A cashier about to join the queue finds room in it. *)
Lemma queue_room c s Q i t :
  queue_inv c s Q → Cashiers s !! i = Some t → is_idle (pc t) = false →
  Z.of_nat (length Q) < cashiers c.
Proof.
  intros [_ Hs Hc _] Ht Hp. set (id := Z.of_nat i + 1).
  assert (NoDup (id :: Q)) as Hnd.
  { constructor.
    - intros Hin%occ_elem. destruct (Hs id) as [? E]. unfold id in *.
      rewrite (idle_at_here _ _ _ Ht), Hp in E.
      pose proof (tally_nonneg (serves (Z.of_nat i + 1)) (Customers s)). simpl in E. lia.
    - apply occ_NoDup. intros x. pose proof (slots_occ s Q x Hs). lia. }
  assert (id :: Q ⊆+ seqZ 1 (cashiers c)) as Hsub.
  { apply NoDup_submseteq; [done|]. intros x [->|Hx]%elem_of_cons; apply elem_of_seqZ.
    - apply lookup_lt_Some in Ht. unfold id. lia.
    - pose proof (slots_occ s Q x Hs). pose proof (occ_elem x Q Hx). lia. }
  apply submseteq_length in Hsub. rewrite length_seqZ in Hsub. simpl in Hsub. lia.
Qed.

(** A cashier moves without becoming idle or ceasing to be. *)
Lemma slots_cashier s s' Q i t t' :
  slots s Q → Cashiers s !! i = Some t → Cashiers s' = <[i := t']> (Cashiers s) →
  is_idle (pc t') = is_idle (pc t) → Customers s' = Customers s →
  cashierAvailable s' = cashierAvailable s → slots s' Q.
Proof.
  intros H Ht E1 Hp E2 E3 id. rewrite E1, E2, E3, (idle_at_insert _ _ _ _ _ Ht), Hp.
  destruct (H id) as [? E]. split; [done|]. rewrite E.
  by destruct (Z.eqb_spec (Z.of_nat i + 1) id) as [<-|]; [rewrite (idle_at_here _ _ _ Ht)|].
Qed.

(** A customer moves and holds the same cashier, if any, as before. *)
Lemma slots_customer s s' Q i t t' :
  slots s Q → Customers s !! i = Some t → Customers s' = <[i := t']> (Customers s) →
  (∀ id, serves id (pc t') = serves id (pc t)) → Cashiers s' = Cashiers s →
  cashierAvailable s' = cashierAvailable s → slots s' Q.
Proof.
  intros H Ht E1 Hp E2 E3 id. rewrite E1, E2, E3, (tally_insert _ _ _ _ _ Ht), Hp.
  destruct (H id) as [? E]. split; [done|]. lia.
Qed.

Lemma slots_enqueue s s' Q i t x :
  slots s Q → Cashiers s !! i = Some t → Cashiers s' = <[i := Thread A_testOne x]> (Cashiers s) →
  is_idle (pc t) = false → Customers s' = Customers s →
  cashierAvailable s' = cashierAvailable s → slots s' (Q ++ [Z.of_nat i + 1]).
Proof.
  intros H Ht E1 Hp E2 E3 id. rewrite E1, E2, E3, (idle_at_insert _ _ _ _ _ Ht), occ_app. simpl.
  destruct (H id) as [? E]. split; [done|].
  destruct (Z.eqb_spec (Z.of_nat i + 1) id) as [<-|]; simpl; [|lia].
  rewrite (idle_at_here _ _ _ Ht), Hp in E. simpl in E. lia.
Qed.

Lemma slots_accept s s' Q i x y :
  slots s Q → length (cashierAvailable s) = length (Cashiers s) →
  Cashiers s !! i = Some (Thread A_waitCustomer x) →
  Cashiers s' = <[i := Thread A_printAccept y]> (Cashiers s) →
  Customers s' = Customers s → 0 < available (Z.of_nat i + 1 - 1) s →
  cashierAvailable s' =
    <[Z.to_nat (Z.of_nat i + 1 - 1) := available (Z.of_nat i + 1 - 1) s - 1]> (cashierAvailable s) →
  slots s' Q.
Proof.
  intros H Hl Ht E1 E2 Hv E3 id. pose proof (lookup_lt_Some _ _ _ Ht).
  rewrite E1, E2, E3, (idle_at_insert _ _ _ _ _ Ht), avail_at_insert by lia.
  destruct (H id) as [? E]. destruct (Z.eqb_spec (Z.of_nat i + 1) id) as [<-|]; [|done].
  rewrite available_at in * by lia. rewrite (idle_at_here _ _ _ Ht) in E. simpl in *. lia.
Qed.

Lemma slots_dequeue s s' v Q i t x :
  slots s (v :: Q) → Customers s !! i = Some t →
  Customers s' = <[i := Thread (U_unlockQueue v) x]> (Customers s) →
  (∀ id, serves id (pc t) = false) → Cashiers s' = Cashiers s →
  cashierAvailable s' = cashierAvailable s → slots s' Q.
Proof.
  intros H Ht E1 Hp E2 E3 id. rewrite E1, E2, E3, (tally_insert _ _ _ _ _ Ht), Hp.
  destruct (H id) as [? E]. split; [done|]. simpl in *. lia.
Qed.

(** The id a customer got from the queue is the id of a cashier. *)
Lemma server_range s Q i t v :
  slots s Q → Customers s !! i = Some t → serves v (pc t) = true →
  1 <= v <= Z.of_nat (length (Cashiers s)).
Proof.
  intros H Ht Hv. destruct (slots_occ s Q v H) as (? & ? & Hr). apply Hr.
  pose proof (tally_insert (serves v) _ _ _ (Thread U_exit Running) Ht) as E.
  pose proof (tally_nonneg (serves v) (<[i:=Thread U_exit Running]> (Customers s))).
  rewrite Hv in E. simpl in E. lia.
Qed.

Lemma slots_wake s s' v Q i x y :
  slots s Q → length (cashierAvailable s) = length (Cashiers s) →
  Customers s !! i = Some (Thread (U_wake v) x) →
  Customers s' = <[i := Thread U_unlockCM y]> (Customers s) → Cashiers s' = Cashiers s →
  cashierAvailable s' = <[Z.to_nat (v - 1) := available (v - 1) s + 1]> (cashierAvailable s) →
  slots s' Q.
Proof.
  intros H Hl Ht E1 E2 E3 id.
  pose proof (server_range s Q i _ v H Ht (Z.eqb_refl v)).
  rewrite E1, E2, E3, (tally_insert _ _ _ _ _ Ht), avail_at_insert by lia.
  destruct (H id) as [? E]. rewrite available_at by lia. simpl.
  destruct (Z.eqb_spec v id) as [<-|]; simpl; lia.
Qed.

Lemma slots_signal s s' Q i :
  slots s Q → Cashiers s' = alter signal i (Cashiers s) → Customers s' = Customers s →
  cashierAvailable s' = cashierAvailable s → slots s' Q.
Proof. intros H E1 E2 E3 id. rewrite E1, E2, E3, idle_at_signal. apply H. Qed.

(** ** Customers that wait for a cashier

    The semaphore [cashiersAllBusy] and the counter [waitForCashier] pair up
    customers that wait with cashiers that signal; [n] is the size of the queue. *)

Record wait_inv (s : shop) (n : Z) : Prop := WaitInv {
  w_wait : waitForCashier s + at_pc A_postBusy (Cashiers s) + cashiersAllBusy s =
    at_pc U_unlockBusy (Customers s) + at_pc U_waitBusy (Customers s);
  w_nonneg : 0 <= waitForCashier s ∧ 0 <= cashiersAllBusy s;
  w_dec : at_pc A_decWait (Cashiers s) <= waitForCashier s;
  w_pending : 1 <= waitForCashier s →
    n = at_pc A_testOne (Cashiers s) + at_pc A_decWait (Cashiers s);
  w_mid : at_pc A_testOne (Cashiers s) + at_pc A_decWait (Cashiers s) <= n;
  w_has : at_pc A_postBusy (Cashiers s) + cashiersAllBusy s +
    at_pc U_relock (Customers s) + at_pc U_print (Customers s) + at_pc U_dequeue (Customers s) <= n;
  w_inc : 1 <= at_pc U_incWait (Customers s) → n = 0;
}.

(** The number of ids a step adds to the queue. *)
Definition queue_change (ch : choice) (s : shop) : Z :=
  match ch with
  | Cashier i => match pc <$> Cashiers s !! i with Some A_enqueue => 1 | _ => 0 end
  | Customer i => match pc <$> Customers s !! i with Some U_dequeue => -1 | _ => 0 end
  | _ => 0
  end.
Arguments queue_change : simpl never.

Lemma wait_inv_step c ch s s' :
  mutexes s → wait_inv s (queueSize c s) → step c ch s = Some s' →
  wait_inv s' (queueSize c s + queue_change ch s).
Proof.
  intros [_ _ _ H4 H5 _] [W1 W2 W3 W4 W5 W6 W7] Hs. cbv zeta in *.
  by_step Hs; unfold queue_change; cbv iota beta; rewrite ?Ht; simpl; rewrite ?Z.add_0_r; try by split.
  all: unfold dequeue in *; repeat case_match; simplify_eq/=.
  all: rewrite ?andb_true_iff, ?andb_false_iff, ?negb_true_iff, ?negb_false_iff,
    ?Z.eqb_eq, ?Z.eqb_neq, ?Z.ltb_lt in *.
  all: count_facts Ht; split; cbv zeta; simpl; count_step Ht; lia.
Qed.

(** A step that leaves the ring buffer alone. *)
Lemma queue_inv_same c ch s s' Q :
  queue_inv c s Q → step c ch s = Some s' → queue_change ch s = 0 → queue_inv c s' Q.
Proof.
  intros [H1 H2 H3 H4] Hs. revert H2 H3 H4.
  by_step Hs; unfold queue_change; cbv iota beta; rewrite ?Ht; simpl; intros H2 H3 H4 Hq; try done.
  all: split; simpl; rewrite ?length_insert, ?length_alter; try done.
  all: try by eapply (slots_cashier s); eauto.
  all: try by eapply (slots_cashier s1); eauto.
  all: try by eapply (slots_customer s); eauto.
  all: try by eapply (slots_customer s1); eauto.
  - eapply (slots_accept s); eauto. simpl. by apply Z.ltb_lt.
  - eapply (slots_wake s); eauto.
  - by eapply (slots_signal s).
Qed.

Lemma queue_inv_step c ch s s' Q :
  wait_inv s (queueSize c s) → queue_inv c s Q → step c ch s = Some s' →
  ∃ Q', queue_inv c s' Q' ∧ queueSize c s' = queueSize c s + queue_change ch s.
Proof.
  intros Hw Hq Hs. destruct (decide (queue_change ch s = 0)) as [E|Hn].
  { pose proof (queue_inv_same _ _ _ _ _ Hq Hs E) as Hq'. exists Q. split; [done|].
    rewrite !(queueSize_ring _ _ Q) by apply q_ring, Hq || apply q_ring, Hq'. lia. }
  unfold queue_change in *. destruct ch as [i|i|i| |i|i]; try done; simpl in Hs.
  - apply run_thread_inv in Hs as ([] & x & p' & s1 & Ht & Hx & Hb & ->); rewrite Ht in *; try done.
    pose proof (queue_room _ _ _ _ _ Hq Ht eq_refl) as Hr. simplify_eq/=.
    pose proof (enqueue_ring c s Q (Z.of_nat i + 1) (q_ring _ _ _ Hq) Hr) as Hring.
    exists (Q ++ [Z.of_nat i + 1]). split.
    + destruct Hq. split; [exact Hring|by eapply (slots_enqueue s)|..]; simpl; by rewrite length_insert.
    + change (queueSize c (enqueue c (Z.of_nat i + 1) s) = queueSize c s + 1).
      rewrite (queueSize_ring _ _ _ Hring), (queueSize_ring _ _ _ (q_ring _ _ _ Hq)), length_app.
      simpl. lia.
  - apply run_thread_inv in Hs as ([] & x & p' & s1 & Ht & Hx & Hb & ->); rewrite Ht in *; try done.
    pose proof (w_has _ _ Hw) as Hh. pose proof (at_pc_here_code _ _ _ _ Ht eq_refl).
    assert (1 <= queueSize c s) as Hsize.
    { destruct Hw. cbn [pc] in *. nonneg. lia. }
    rewrite (queueSize_ring _ _ _ (q_ring _ _ _ Hq)) in *.
    destruct Q as [|v Q]; [simpl in *; lia|].
    destruct (dequeue_ring c s v Q (q_ring _ _ _ Hq)) as [Hd Hring].
    simpl in Hb. rewrite Hd in Hb. simplify_eq. exists Q. split.
    + destruct Hq. split; [exact Hring|by eapply (slots_dequeue s)|..]; done.
    + change (queueSize c (set_head (Z.rem (head s + 1) (cashiers c + 1)) s) =
        Z.of_nat (length (v :: Q)) + -1).
      rewrite (queueSize_ring _ _ _ Hring). simpl. lia.
Qed.
