(* ===== verification/BurgerProps.v ===== *)
(** * What the Burger Buddies simulation guarantees

    The invariants of [BurgerInv.v] and [BurgerQueue.v] hold in every reachable
    state; with the accounting of customers, orders and burgers they give the
    safety properties of the simulation, its freedom from deadlock, and the way
    the bound on the rack fails. *)

From S2P Require Import Prelude CLib Burger BurgerInv BurgerQueue.

(** ** Accounting *)

Definition woken (p : customer_pc) : bool :=
  match p with U_unlockCM | U_exit => true | _ => false end.

Definition came (p : customer_pc) : bool :=
  match p with U_dequeue | U_unlockQueue _ | U_wake _ | U_unlockCM | U_exit => true | _ => false end.

(** The burger is off the rack and not announced, announced and not counted; the
    order is announced and not counted; the cashier is serving a customer. *)
Definition holding (p : cashier_pc) : bool :=
  match p with A_testWasFull | A_postFull | A_unlockRack | A_printTake => true | _ => false end.

Definition after_take (p : cashier_pc) : bool :=
  match p with A_unlockCA | A_lockCnt | A_incServed => true | _ => false end.

Definition after_accept (p : cashier_pc) : bool :=
  match p with
  | A_lockCA | A_lockRack | A_testEmpty | A_incWait | A_unlockEmpty | A_waitEmpty | A_relock | A_take => true
  | _ => holding p || after_take p
  end.

Definition serving (p : cashier_pc) : bool :=
  match p with A_printAccept => true | _ => after_accept p end.

Definition total (av : list Z) : Z := foldr Z.add 0 av.

Definition is_make (e : event) : bool := match e with Makes _ => true | _ => false end.
Definition is_accept (e : event) : bool := match e with Accepts _ => true | _ => false end.
Definition is_take (e : event) : bool := match e with Takes _ => true | _ => false end.
Definition is_come (e : event) : bool := match e with Comes _ => true | _ => false end.

Definition printed (f : event → bool) (l : list event) : Z := foldr (λ e n, Z.b2z (f e) + n) 0 l.

Definition past_wait (p : manager_pc) : Z := match p with M_wait => 0 | _ => 1 end.

Record account (c : config) (s : shop) : Prop := Account {
  ac_customers : Z.of_nat (length (Customers s)) = Z.max 0 (customers c);
  ac_woken : tally woken (Customers s) =
    total (cashierAvailable s) + tally serving (Cashiers s) + customersServed s;
  ac_comes : printed is_come (out s) = tally came (Customers s);
  ac_accepts : printed is_accept (out s) = tally after_accept (Cashiers s) + customersServed s;
  ac_takes : printed is_take (out s) = tally after_take (Cashiers s) + customersServed s;
  ac_makes : printed is_make (out s) + at_pc K_print (Cooks s) =
    rack s + tally holding (Cashiers s) + printed is_take (out s);
  ac_before : customersServed s < customers c →
    finish s + past_wait (Manager s) + at_pc A_postFinish (Cashiers s) = 0;
  ac_after : customersServed s = customers c → 0 < customers c →
    finish s + past_wait (Manager s) + at_pc A_postFinish (Cashiers s) + at_pc A_testAll (Cashiers s) = 1;
  ac_served : 0 <= customersServed s;
  ac_finish : 0 <= finish s;
}.

Lemma total_nonneg av : (∀ id, 0 <= avail_at av id) → 0 <= total av.
Proof.
  induction av as [|x av IH]; intros H; simpl; [done|].
  pose proof (H 1) as H1. unfold avail_at in H1. simpl in H1.
  assert (0 <= total av); [|lia]. apply IH. intros id. unfold avail_at.
  destruct (Z.ltb_spec id 1); [done|]. specialize (H (id + 1)). unfold avail_at in H.
  destruct (Z.ltb_spec (id + 1) 1); [lia|].
  by replace (Z.to_nat (id + 1 - 1)) with (S (Z.to_nat (id - 1))) in H by lia.
Qed.

Lemma total_insert av i v : (i < length av)%nat → total (<[i := v]> av) = total av - default 0 (av !! i) + v.
Proof.
  revert i. induction av as [|x av IH]; intros [|i] Hi; simpl in *; try lia.
  rewrite IH by lia. lia.
Qed.

Lemma tally_le {P} (f g : P → bool) l : (∀ p, f p = true → g p = true) → tally f l <= tally g l.
Proof.
  intros H. induction l as [|t l IH]; simpl; [done|].
  specialize (H (pc t)). destruct (f (pc t)), (g (pc t)); simpl; lia.
Qed.

Lemma tally_length {P} (f : P → bool) l : tally f l <= Z.of_nat (length l).
Proof. induction l as [|t l IH]; simpl; [done|]. destruct (f (pc t)); simpl; lia. Qed.

Lemma tally_here {P} (f : P → bool) l i t : l !! i = Some t → f (pc t) = true → 1 <= tally f l.
Proof.
  intros Hi Hf. revert i Hi. induction l as [|t0 l IH]; intros [|i] Hi; simplify_eq/=.
  - rewrite Hf. pose proof (tally_nonneg f l). simpl. lia.
  - specialize (IH i Hi). destruct (f (pc t0)); simpl; lia.
Qed.

Lemma tally_signal {P} (f : P → bool) l i : tally f (alter signal i l) = tally f l.
Proof.
  revert i. induction l as [|t0 l IH]; intros [|i]; [done..|].
  change (alter signal (S i) (t0 :: l)) with (t0 :: alter signal i l). simpl. by rewrite IH.
Qed.

Lemma tally_replicate {P} (f : P → bool) n p :
  tally f (replicate n (Thread p Running)) = if f p then Z.of_nat n else 0.
Proof. induction n as [|n IH]; simpl; [by case_match|]. rewrite IH. case_match; simpl; lia. Qed.

Lemma account_init c junk : account c (init c junk).
Proof.
  assert (∀ n, total (replicate n 0) = 0) as E by (intros n; by induction n).
  split; simpl; rewrite ?length_replicate, ?tally_replicate, ?at_pc_replicate, ?E; simpl; lia.
Qed.

Ltac tally_step Ht :=
  rewrite ?tally_signal; repeat rewrite (tally_insert _ _ _ _ _ Ht);
  cbn [pc woken came holding after_take after_accept serving orb Z.b2z].

Lemma account_step c ch s s' Q :
  mutexes s → queue_inv c s Q → account c s → step c ch s = Some s' → account c s'.
Proof.
  intros [_ _ _ _ _ H6] Hq [A1 A2 A3 A4 A5 A6 A7 A8 A9 A10] Hs. cbv zeta in *.
  assert (0 <= total (cashierAvailable s)) as Htot.
  { apply total_nonneg. intros id. apply Hq. }
  pose proof (tally_length woken (Customers s)).
  pose proof (tally_nonneg serving (Cashiers s)).
  by_step Hs; unfold dequeue in *; repeat case_match; simplify_eq/=; try by split.
  all: rewrite ?andb_true_iff, ?andb_false_iff, ?negb_true_iff, ?negb_false_iff,
    ?Z.eqb_eq, ?Z.eqb_neq, ?Z.ltb_lt in *.
  all: count_facts Ht; try pose proof (tally_here serving _ _ _ Ht eq_refl).
  all: split; simpl; rewrite ?length_insert, ?length_alter; tally_step Ht; count_step Ht; try lia.
  - apply lookup_lt_Some in Ht. destruct Hq. rewrite total_insert by lia. unfold available. lia.
  - pose proof (server_range s Q _ _ server (q_slots _ _ _ Hq) Ht (Z.eqb_refl server)).
    destruct Hq. rewrite total_insert by lia. unfold available. lia.
Qed.

(** ** The staff is dismissed by the manager only *)

Record staff (c : config) (s : shop) : Prop := Staff {
  st_cooks : Z.of_nat (length (Cooks s)) = Z.max 0 (cooks c);
  st_customers : Forall (λ t, st t = Running) (Customers s);
  st_running : past_wait (Manager s) = 0 →
    Forall (λ t, st t = Running) (Cooks s) ∧ Forall (λ t, st t = Running) (Cashiers s);
}.

Lemma staff_init c junk : staff c (init c junk).
Proof.
  assert (∀ P n (p : P), Forall (λ t, st t = Running) (replicate n (Thread p Running))) as E.
  { intros P n p. by apply Forall_replicate. }
  split; simpl; rewrite ?length_replicate; [lia|apply E|done].
Qed.

Lemma running_insert {P} (l : list (thread P)) i t p :
  l !! i = Some t → Forall (λ t, st t = Running) l →
  Forall (λ t, st t = Running) (<[i := Thread p (st t)]> l).
Proof. intros Hi Hl. apply Forall_insert; [done|]. by apply (Forall_lookup_1 _ _ _ _ Hl Hi). Qed.

Lemma staff_step c ch s s' : staff c s → step c ch s = Some s' → staff c s'.
Proof.
  intros [S1 S2 S3] Hs. revert S1 S2 S3.
  by_step Hs; intros S1 S2 S3; unfold dequeue in *; repeat case_match; simplify_eq/=; try by split.
  all: split; simpl; rewrite ?length_insert, ?length_alter; try done.
  all: try by eapply (running_insert _ _ _ _ Ht).
  all: try (intros E; destruct (S3 E); split; [|done]; by eapply (running_insert _ _ _ _ Ht)).
  all: try (intros E; destruct (S3 E); split; [done|]; by eapply (running_insert _ _ _ _ Ht)).
  all: intros E; destruct (S3 E) as [E1 E2]; exfalso;
    (apply (Forall_lookup_1 _ _ _ _ E1) in Ht || apply (Forall_lookup_1 _ _ _ _ E2) in Ht); done.
Qed.

(** ** All invariants together *)

Record shop_inv (c : config) (s : shop) (Q : list Z) : Prop := ShopInv {
  inv_mutexes : mutexes s;
  inv_rack : rack_inv c s;
  inv_queue : queue_inv c s Q;
  inv_wait : wait_inv s (queueSize c s);
  inv_account : account c s;
  inv_staff : staff c s;
}.

Lemma queue_inv_init c junk :
  0 <= cashiers c → length junk = Z.to_nat (cashiers c + 1) → queue_inv c (init c junk) [].
Proof.
  intros Hc Hj. split; simpl; rewrite ?length_replicate; [|..|lia|done].
  - split; simpl; try lia; [by rewrite !Z.mod_0_l by lia|by intros [|i]].
  - intros id. simpl. rewrite tally_replicate. simpl.
    assert (avail_at (replicate (Z.to_nat (cashiers c)) 0) id = 0) as ->.
    { unfold avail_at. destruct (id <? 1); [done|]. destruct (replicate _ 0 !! _) eqn:E; [|done].
      by apply lookup_replicate in E as [-> _]. }
    split; [done|]. unfold idle_at. destruct (id <? 1); [done|].
    destruct (replicate _ (Thread A_lockQueue _) !! _) eqn:E; [|done].
    by apply lookup_replicate in E as [-> _].
Qed.

Lemma wait_inv_init c junk : 0 <= cashiers c → wait_inv (init c junk) (queueSize c (init c junk)).
Proof.
  intros Hc. assert (queueSize c (init c junk) = 0) as ->.
  { unfold queueSize. simpl. by rewrite Z.rem_mod_nonneg, Z.mod_same by lia. }
  split; simpl; rewrite ?at_pc_replicate; simpl; lia.
Qed.

Lemma reachable_inv c s : 0 <= cashiers c → reachable c s → ∃ Q, shop_inv c s Q.
Proof.
  intros Hc. induction 1 as [junk Hj|s ch s' _ [Q [I1 I2 I3 I4 I5 I6]] Hs].
  - exists []. split; auto using mutexes_init, rack_inv_init, queue_inv_init, wait_inv_init,
      account_init, staff_init.
  - destruct (queue_inv_step _ _ _ _ _ I4 I3 Hs) as (Q' & I3' & E). exists Q'.
    split; eauto using mutexes_step, rack_inv_step, account_step, staff_step.
    rewrite E. by apply wait_inv_step.
Qed.

Lemma reachable_run c chs s s' : reachable c s → run c chs s = Some s' → reachable c s'.
Proof.
  revert s. induction chs as [|ch chs IH]; intros s Hr Hs; simplify_eq/=; [done|].
  destruct (step c ch s) as [s1|] eqn:E; [|done]. simpl in Hs. eauto using reachable_step.
Qed.

(** ** Properties *)

Definition cook_in_rack (p : cook_pc) : bool :=
  match p with
  | K_testFull | K_unlockFull | K_add | K_print | K_testOne | K_decWait | K_postEmpty | K_unlockRack => true
  | _ => false
  end.

Definition cashier_in_rack (p : cashier_pc) : bool :=
  match p with
  | A_testEmpty | A_incWait | A_unlockEmpty | A_take | A_testWasFull | A_postFull | A_unlockRack => true
  | _ => false
  end.

Definition cashier_in_queue (p : cashier_pc) : bool :=
  match p with A_enqueue | A_testOne | A_decWait | A_postBusy | A_unlockQueue => true | _ => false end.

Definition customer_in_queue (p : customer_pc) : bool :=
  match p with
  | U_testSize | U_incWait | U_unlockBusy | U_print | U_dequeue | U_unlockQueue _ => true
  | _ => false
  end.

Definition cashier_in_count (p : cashier_pc) : bool :=
  match p with A_incServed | A_testAll | A_postFinish | A_unlockCnt => true | _ => false end.

Ltac tally_cases := intros l; induction l as [|[[] ?] l IH]; simpl; rewrite ?IH; simpl; lia.

Lemma tally_cook_in_rack l : tally cook_in_rack l =
  at_pc K_testFull l + at_pc K_unlockFull l + at_pc K_add l + at_pc K_print l + at_pc K_testOne l +
  at_pc K_decWait l + at_pc K_postEmpty l + at_pc K_unlockRack l.
Proof. revert l. tally_cases. Qed.

Lemma tally_cashier_in_rack l : tally cashier_in_rack l =
  at_pc A_testEmpty l + at_pc A_incWait l + at_pc A_unlockEmpty l + at_pc A_take l +
  at_pc A_testWasFull l + at_pc A_postFull l + at_pc A_unlockRack l.
Proof. revert l. tally_cases. Qed.

Lemma tally_cashier_in_queue l : tally cashier_in_queue l =
  at_pc A_enqueue l + at_pc A_testOne l + at_pc A_decWait l + at_pc A_postBusy l + at_pc A_unlockQueue l.
Proof. revert l. tally_cases. Qed.

Lemma tally_customer_in_queue l : tally customer_in_queue l =
  at_pc U_testSize l + at_pc U_incWait l + at_pc U_unlockBusy l + at_pc U_print l + at_pc U_dequeue l +
  at_pc (U_unlockQueue 0) l.
Proof. revert l. tally_cases. Qed.

Lemma tally_cashier_in_count l : tally cashier_in_count l =
  at_pc A_incServed l + at_pc A_testAll l + at_pc A_postFinish l + at_pc A_unlockCnt l.
Proof. revert l. tally_cases. Qed.

(** C27. Mutual exclusion: in every reachable state, for whatever interleaving and
    whatever signals, the number of threads inside the sections that [checkRack],
    [queueMutex] and [cntMutex] protect is 1 when the mutex is locked and 0 when it
    is free, so the rack, the queue and the count of served customers are each
    accessed by one thread at a time. *)
Theorem shared_state_mutual_exclusion c s :
  0 <= cashiers c → reachable c s →
  tally cook_in_rack (Cooks s) + tally cashier_in_rack (Cashiers s) = Z.b2z (checkRack s) ∧
  tally cashier_in_queue (Cashiers s) + tally customer_in_queue (Customers s) = Z.b2z (queueMutex s) ∧
  tally cashier_in_count (Cashiers s) = Z.b2z (cntMutex s).
Proof.
  intros Hc Hr. destruct (reachable_inv c s Hc Hr) as [Q [[H1 H2 H3 H4 H5 H6] _ _ _ _ _]].
  rewrite tally_cook_in_rack, tally_cashier_in_rack, tally_cashier_in_queue, tally_customer_in_queue,
    tally_cashier_in_count. cbv beta zeta in *. lia.
Qed.

(** The rack never holds a negative number of burgers, and a cashier that is
    about to take a burger finds one. *)
Theorem rack_never_negative c s :
  0 <= cashiers c → reachable c s →
  0 <= rack s ∧ (∀ i x, Cashiers s !! i = Some (Thread A_take x) → 1 <= rack s).
Proof.
  intros Hc Hr. destruct (reachable_inv c s Hc Hr) as [Q [_ [R1 R2 R3 R4 R5 R6 R7 R8] _ _ _ _]]. split.
  - clear R7 R8. nonneg. lia.
  - intros i x Ht. pose proof (at_pc_here_code _ _ _ _ Ht eq_refl). simpl in *. clear R7 R8. nonneg. lia.
Qed.


(** The manager dismisses the staff only after every customer is served: while
    customers are left no cook and no cashier has been signalled, and [finish] is
    posted at most once. *)
Theorem staff_dismissed_last c s :
  0 <= cashiers c → 0 < customers c → reachable c s →
  customersServed s <= customers c ∧ 0 <= finish s <= 1 ∧
  (customersServed s < customers c →
    Forall (λ t, st t = Running) (Cooks s) ∧ Forall (λ t, st t = Running) (Cashiers s)).
Proof.
  intros Hc Hn Hr. destruct (reachable_inv c s Hc Hr) as [Q [_ _ Hq _ [] [_ _ S3]]].
  assert (0 <= total (cashierAvailable s)) by (apply total_nonneg; intros id; apply Hq).
  pose proof (tally_length woken (Customers s)). pose proof (tally_nonneg serving (Cashiers s)).
  assert (0 <= past_wait (Manager s)) by (destruct (Manager s); done).
  assert (customersServed s <= customers c) by lia.
  assert (customersServed s < customers c ∨ customersServed s = customers c) as [Hlt|Heq] by lia.
  - specialize (ac_before0 Hlt). nonneg. split_and!; [lia..|]. intros _. apply S3. lia.
  - specialize (ac_after0 Heq Hn). nonneg. split_and!; [lia..|]. lia.
Qed.

(** C33. What is printed makes sense at every moment: no more burgers are taken to
    customers than were made, no more than orders were accepted, no more orders are
    accepted than customers came, and the burgers made and not taken are on the
    rack or in the hands of a cashier. *)
Theorem output_consistent c s :
  0 <= cashiers c → reachable c s →
  printed is_take (out s) <= printed is_accept (out s) <= printed is_come (out s) ∧
  printed is_come (out s) <= Z.max 0 (customers c) ∧
  printed is_make (out s) + at_pc K_print (Cooks s) =
    rack s + tally holding (Cashiers s) + printed is_take (out s).
Proof.
  intros Hc Hr. destruct (reachable_inv c s Hc Hr) as [Q [_ _ Hq _ [] _]].
  assert (0 <= total (cashierAvailable s)) by (apply total_nonneg; intros id; apply Hq).
  assert (tally after_take (Cashiers s) <= tally after_accept (Cashiers s)) by (apply tally_le; by intros []).
  assert (tally after_accept (Cashiers s) <= tally serving (Cashiers s)) by (apply tally_le; by intros []).
  assert (tally woken (Customers s) <= tally came (Customers s)) by (apply tally_le; by intros []).
  pose proof (tally_length came (Customers s)). lia.
Qed.

(** ** Freedom from deadlock *)

Section stuck.
Context (c : config) (s : shop) (Hstuck : ∀ ch, step c ch s = None).

(** Where a running thread can be when no step is possible, and what it waits for. *)
Definition cook_blocked (p : cook_pc) : Prop :=
  match p with
  | K_lockCK => CK s = true
  | K_lockRack | K_relock => checkRack s = true
  | K_waitFull => rackFull s <= 0
  | _ => False
  end.

Definition cashier_blocked (id : Z) (p : cashier_pc) : Prop :=
  match p with
  | A_lockQueue => queueMutex s = true
  | A_waitCustomer => available (id - 1) s <= 0
  | A_lockCA => CA s = true
  | A_lockRack | A_relock => checkRack s = true
  | A_waitEmpty => rackEmpty s <= 0
  | A_lockCnt => cntMutex s = true
  | _ => False
  end.

Definition customer_blocked (p : customer_pc) : Prop :=
  match p with
  | U_lockCM => CM s = true
  | U_lockQueue | U_relock => queueMutex s = true
  | U_waitBusy => cashiersAllBusy s <= 0
  | U_exit => True
  | _ => False
  end.

Ltac open_blocked Ht :=
  unfold step, run_thread in Hstuck; rewrite Ht in Hstuck;
  simpl in *; unfold lock, sem_wait, unlock, sem_post, dequeue in Hstuck; simpl in *;
  repeat case_match; simplify_eq/=; try done; by apply Z.ltb_ge.

Lemma cook_stuck i p : Cooks s !! i = Some (Thread p Running) → cook_blocked p.
Proof. intros Ht. specialize (Hstuck (Cook i)). destruct p; open_blocked Ht. Qed.

Lemma cashier_stuck i p :
  Cashiers s !! i = Some (Thread p Running) → cashier_blocked (Z.of_nat i + 1) p.
Proof. intros Ht. specialize (Hstuck (Cashier i)). destruct p; open_blocked Ht. Qed.

Lemma customer_stuck i p : Customers s !! i = Some (Thread p Running) → customer_blocked p.
Proof. intros Ht. specialize (Hstuck (Customer i)). destruct p; open_blocked Ht. Qed.
End stuck.

Lemma tally_none {P} (f : P → bool) l :
  (∀ i t, l !! i = Some t → f (pc t) = false) → tally f l = 0.
Proof.
  induction l as [|t l IH]; intros H; simpl; [done|].
  rewrite (H 0%nat t eq_refl), IH; [done|]. intros i. apply (H (S i)).
Qed.

Lemma tally_all {P} (f : P → bool) l :
  (∀ i t, l !! i = Some t → f (pc t) = true) → tally f l = Z.of_nat (length l).
Proof.
  induction l as [|t l IH]; intros H; simpl; [done|].
  rewrite (H 0%nat t eq_refl), IH; [simpl; lia|]. intros i. apply (H (S i)).
Qed.

Lemma tally_pos {P} (f : P → bool) l :
  tally f l ≠ 0 → ∃ i t, l !! i = Some t ∧ f (pc t) = true.
Proof.
  induction l as [|t l IH]; simpl; [done|]. destruct (f (pc t)) eqn:E; intros Hn.
  - by exists 0%nat, t.
  - destruct IH as (i & t' & ? & ?); [simpl in Hn; lia|]. by exists (S i), t'.
Qed.

Lemma total_nonpos av : (∀ i, default 0 (av !! i) <= 0) → total av <= 0.
Proof.
  induction av as [|x av IH]; intros H; simpl; [done|].
  pose proof (H 0%nat). pose proof (IH (λ i, H (S i))). simpl in *. lia.
Qed.

Definition cook_in_CK (p : cook_pc) : bool := match p with K_lockCK | K_sleep => false | _ => true end.

Definition cashier_in_CA (p : cashier_pc) : bool :=
  match p with A_lockRack | A_waitEmpty | A_relock | A_printTake | A_unlockCA => true | _ => cashier_in_rack p end.

Definition customer_in_CM (p : customer_pc) : bool :=
  match p with U_sleep | U_lockCM | U_exit => false | _ => true end.

Lemma tally_cook_in_CK l : tally cook_in_CK l =
  at_pc K_lockRack l + at_pc K_testFull l + at_pc K_unlockFull l + at_pc K_waitFull l +
  at_pc K_relock l + at_pc K_add l + at_pc K_print l + at_pc K_testOne l + at_pc K_decWait l +
  at_pc K_postEmpty l + at_pc K_unlockRack l + at_pc K_unlockCK l.
Proof. revert l. tally_cases. Qed.

Lemma tally_cashier_in_CA l : tally cashier_in_CA l =
  at_pc A_lockRack l + at_pc A_testEmpty l + at_pc A_incWait l + at_pc A_unlockEmpty l +
  at_pc A_waitEmpty l + at_pc A_relock l + at_pc A_take l + at_pc A_testWasFull l +
  at_pc A_postFull l + at_pc A_unlockRack l + at_pc A_printTake l + at_pc A_unlockCA l.
Proof. revert l. tally_cases. Qed.

Lemma tally_customer_in_CM l : tally customer_in_CM l =
  at_pc U_lockQueue l + at_pc U_testSize l + at_pc U_incWait l + at_pc U_unlockBusy l +
  at_pc U_waitBusy l + at_pc U_relock l + at_pc U_print l + at_pc U_dequeue l +
  at_pc (U_unlockQueue 0) l + at_pc (U_wake 0) l + at_pc U_unlockCM l.
Proof. revert l. tally_cases. Qed.

Section deadlock.
Context (c : config) (s : shop) (Q : list Z).
Context (Hmx : mutexes s) (Hrack : rack_inv c s) (Hqueue : queue_inv c s Q).
Context (Hwait : wait_inv s (queueSize c s)).
Context (HK : ∀ i t, Cooks s !! i = Some t → cook_blocked s (pc t)).
Context (HA : ∀ i t, Cashiers s !! i = Some t → cashier_blocked s (Z.of_nat i + 1) (pc t)).
Context (HU : ∀ i t, Customers s !! i = Some t → customer_blocked s (pc t)).

(** [nobody H] shows that no thread is at the statements a predicate selects, as
    none of them blocks. *)
Ltac nobody H :=
  apply tally_none; intros i [p ?] Hi; apply H in Hi; simpl in Hi;
  destruct p; simpl in Hi; try done; by rewrite Hi in *.

Lemma stuck_rack : tally cook_in_rack (Cooks s) = 0 ∧ tally cashier_in_rack (Cashiers s) = 0 ∧
  checkRack s = false.
Proof.
  assert (tally cook_in_rack (Cooks s) = 0) as E1 by nobody HK.
  assert (tally cashier_in_rack (Cashiers s) = 0) as E2 by nobody HA.
  split_and!; [done..|]. destruct Hmx as [_ H _ _ _ _]. cbv beta zeta in H.
  rewrite tally_cook_in_rack in E1. rewrite tally_cashier_in_rack in E2.
  destruct (checkRack s); [simpl in *; lia|done].
Qed.

Lemma stuck_queue : tally cashier_in_queue (Cashiers s) = 0 ∧
  tally customer_in_queue (Customers s) = 0 ∧ queueMutex s = false ∧ cntMutex s = false.
Proof.
  assert (tally cashier_in_queue (Cashiers s) = 0) as E1 by nobody HA.
  assert (tally customer_in_queue (Customers s) = 0) as E2 by nobody HU.
  assert (tally cashier_in_count (Cashiers s) = 0) as E3 by nobody HA.
  destruct Hmx as [_ _ _ H _ H']. cbv beta zeta in H, H'. split_and!; [done..| |].
  - rewrite tally_cashier_in_queue in E1. rewrite tally_customer_in_queue in E2.
    destruct (queueMutex s); [simpl in *; lia|done].
  - rewrite tally_cashier_in_count in E3. destruct (cntMutex s); [simpl in *; lia|done].
Qed.

(** The cook in the kitchen waits for room, so the rack is full. *)
Lemma stuck_full : 1 <= cooks c → Z.of_nat (length (Cooks s)) = cooks c → racksize c <= rack s.
Proof.
  intros Hc Hl. destruct stuck_rack as (E1 & E2 & E3).
  assert (∃ i x, Cooks s !! i = Some (Thread K_waitFull x)) as (i & x & Hi).
  { destruct (Cooks s !! 0%nat) as [[p x]|] eqn:E0; [|apply lookup_ge_None in E0; lia].
    pose proof (HK _ _ E0) as Hp. destruct p; simpl in Hp; try done; rewrite ?E3 in Hp; try done; [|by eauto].
    destruct (tally_pos cook_in_CK (Cooks s)) as (j & [p y] & Hj & Hin).
    { destruct Hmx as [H _ _ _ _ _]. cbv beta zeta in H. rewrite tally_cook_in_CK, H, Hp. done. }
    pose proof (HK _ _ Hj) as Hp'. destruct p; simpl in Hp', Hin; try done; rewrite ?E3 in Hp'; try done. eauto. }
  pose proof (at_pc_here_code _ _ _ _ Hi eq_refl). apply HK in Hi. destruct Hrack as [_ _ _ _ _ _ _ Hf].
  rewrite tally_cashier_in_rack in E2. simpl in *. nonneg. lia.
Qed.

(** No cashier waits for a burger, so all wait for a customer. *)
Lemma stuck_cashiers : 1 <= rack s →
  ∀ i t, Cashiers s !! i = Some t → pc t = A_waitCustomer ∧ available (Z.of_nat i) s <= 0.
Proof.
  intros Hr. destruct stuck_rack as (E1 & E2 & E3), stuck_queue as (_ & _ & E4 & E5).
  assert (∀ i x, Cashiers s !! i ≠ Some (Thread A_waitEmpty x)) as Hno.
  { intros i x Hi. pose proof (at_pc_here_code _ _ _ _ Hi eq_refl). apply HA in Hi.
    destruct Hrack as [R1 R2 _ R4 _ _ _ _].
    rewrite tally_cashier_in_rack in E2. rewrite tally_cook_in_rack in E1. simpl in *. nonneg. lia. }
  assert (CA s = false) as E6.
  { assert (tally cashier_in_CA (Cashiers s) = 0) as E.
    { apply tally_none. intros i [p x] Hi. pose proof (HA _ _ Hi) as Hp.
      destruct p; simpl in *; try done; [by rewrite E3 in Hp|by apply Hno in Hi|by rewrite E3 in Hp]. }
    destruct Hmx as [_ _ H _ _ _]. cbv beta zeta in H. rewrite tally_cashier_in_CA, H in E.
    by destruct (CA s). }
  intros i [p x] Hi. pose proof (HA _ _ Hi) as Hp.
  destruct p; simpl in *; try done; try congruence; [|by apply Hno in Hi].
  split; [done|]. by replace (Z.of_nat i) with (Z.of_nat i + 1 - 1) by lia.
Qed.

(** With an idle cashier in the queue, all customers have been served. *)
Lemma stuck_customers : 1 <= rack s → 1 <= cashiers c →
  ∀ i t, Customers s !! i = Some t → pc t = U_exit.
Proof.
  intros Hr Hc. pose proof (stuck_cashiers Hr) as Hcash.
  destruct stuck_queue as (E1 & E2 & E3 & _), Hqueue as [Q1 Q2 Q3 Q4].
  assert (1 <= queueSize c s) as Hsize.
  { destruct (Cashiers s !! 0%nat) as [t|] eqn:E0; [|apply lookup_ge_None in E0; lia].
    destruct (Hcash _ _ E0) as [Hp Hav]. destruct (Q2 1) as [_ E].
    assert (tally (serves 1) (Customers s) = 0) as Hs1 by nobody HU.
    change 1 with (Z.of_nat 0 + 1) in E at 4. rewrite (idle_at_here _ _ _ E0), Hp in E.
    change (available (Z.of_nat 0) s) with (avail_at (cashierAvailable s) 1) in Hav.
    rewrite (queueSize_ring _ _ _ Q1). destruct Q; simpl in *; lia. }
  assert (∀ i x, Customers s !! i ≠ Some (Thread U_waitBusy x)) as Hno.
  { intros i x Hi. pose proof (at_pc_here_code _ _ _ _ Hi eq_refl). apply HU in Hi.
    destruct Hwait as [W1 W2 _ W4 _ _ _]. rewrite tally_cashier_in_queue in E1. simpl in *. nonneg. lia. }
  assert (CM s = false) as E4.
  { assert (tally customer_in_CM (Customers s) = 0) as E.
    { apply tally_none. intros i [p x] Hi. pose proof (HU _ _ Hi) as Hp.
      destruct p; simpl in *; try done; try congruence. by apply Hno in Hi. }
    destruct Hmx as [_ _ _ _ H _]. cbv beta zeta in H. rewrite tally_customer_in_CM, H in E.
    by destruct (CM s). }
  intros i [p x] Hi. pose proof (HU _ _ Hi) as Hp.
  destruct p; simpl in *; try done; try congruence. by apply Hno in Hi.
Qed.
End deadlock.

(** The choices that are worth trying in a state. *)
Definition choices (s : shop) : list choice :=
  Boss :: (Cook <$> seq 0 (length (Cooks s))) ++ (Cashier <$> seq 0 (length (Cashiers s))) ++
  (Customer <$> seq 0 (length (Customers s))) ++ (CookHandler <$> seq 0 (length (Cooks s))) ++
  (CashierHandler <$> seq 0 (length (Cashiers s))).

Lemma step_choices c ch s s' : step c ch s = Some s' → ch ∈ choices s.
Proof.
  unfold choices. rewrite elem_of_cons, !elem_of_app, !list_elem_of_fmap.
  assert (∀ {P} (l : list (thread P)) i t, l !! i = Some t → i ∈ seq 0 (length l)) as E.
  { intros P l i t Hi%lookup_lt_Some. apply elem_of_seq. lia. }
  destruct ch; simpl; intros Hs; try by left.
  all: first [apply run_thread_inv in Hs as (? & ? & ? & ? & Hi & _)|apply run_handler_inv in Hs as (? & Hi & _)].
  all: apply E in Hi; naive_solver.
Qed.

Lemma step_or_stuck c s : (∃ ch s', step c ch s = Some s') ∨ ∀ ch, step c ch s = None.
Proof.
  destruct (decide (Exists (λ ch, is_Some (step c ch s)) (choices s))) as [He|Hn].
  - apply Exists_exists in He as (ch & _ & s' & Hs). eauto.
  - right. intros ch. destruct (step c ch s) as [s'|] eqn:E; [|done]. destruct Hn.
    apply Exists_exists. eauto using step_choices.
Qed.

(** C24. Freedom from deadlock: with at least one cook, one cashier and a place on
    the rack, as long as a customer is not served some thread can take a step. *)
Theorem no_deadlock c s :
  1 <= cooks c → 1 <= cashiers c → 1 <= racksize c → reachable c s →
  customersServed s < customers c → ∃ ch s', step c ch s = Some s'.
Proof.
  intros Hk Ha Hr Hre Hs. destruct (step_or_stuck c s) as [?|Hstuck]; [done|exfalso].
  assert (0 <= cashiers c) as Ha' by lia.
  destruct (reachable_inv c s Ha' Hre) as [Q [I1 I2 I3 I4 I5 [S1 S2 S3]]].
  destruct S3 as [S3 S4].
  { destruct I5 as [_ _ _ _ _ _ Hb _ _ Hf]. specialize (Hb Hs). pose proof (at_pc_nonneg A_postFinish (Cashiers s)).
    destruct (Manager s); simpl in *; lia. }
  assert (∀ i t, Cooks s !! i = Some t → cook_blocked s (pc t)) as HK.
  { intros i [p x] Hi. pose proof (Forall_lookup_1 _ _ _ _ S3 Hi). simplify_eq/=. by eapply cook_stuck. }
  assert (∀ i t, Cashiers s !! i = Some t → cashier_blocked s (Z.of_nat i + 1) (pc t)) as HA.
  { intros i [p x] Hi. pose proof (Forall_lookup_1 _ _ _ _ S4 Hi). simplify_eq/=. by eapply cashier_stuck. }
  assert (∀ i t, Customers s !! i = Some t → customer_blocked s (pc t)) as HU.
  { intros i [p x] Hi. pose proof (Forall_lookup_1 _ _ _ _ S2 Hi). simplify_eq/=. by eapply customer_stuck. }
  assert (racksize c <= rack s) as Hfull by (eapply stuck_full; eauto; lia).
  assert (1 <= rack s) as Hrack by lia.
  pose proof (stuck_cashiers c s I1 I2 HK HA HU Hrack) as Hca.
  pose proof (stuck_customers c s Q I1 I2 I3 I4 HK HA HU Hrack Ha) as Hcu.
  assert (tally woken (Customers s) = Z.of_nat (length (Customers s))).
  { apply tally_all. intros i t Hi. by rewrite (Hcu i t Hi). }
  assert (tally serving (Cashiers s) = 0).
  { apply tally_none. intros i t Hi. by destruct (Hca i t Hi) as [-> _]. }
  assert (total (cashierAvailable s) <= 0).
  { apply total_nonpos. intros i. destruct (cashierAvailable s !! i) as [v|] eqn:E; [|done].
    destruct (Cashiers s !! i) as [t|] eqn:E'.
    - destruct (Hca i t E') as [_ Hv]. unfold available in Hv. by rewrite Nat2Z.id, E in Hv.
    - apply lookup_lt_Some in E. apply lookup_ge_None in E'. destruct I3. lia. }
  destruct I5. lia.
Qed.

(** ** The bound on the rack

    [rackFull] is posted whenever a cashier takes a burger from a full rack, also
    when no cook waits.  Such a post is left over: the next cook that finds the
    rack full passes [sem_wait] at once and the rack exceeds its size.  From then
    on [rack == racksize] is false and nothing bounds the rack. *)

Lemma run_app c chs chs' s : run c (chs ++ chs') s = s ← run c chs s; run c chs' s.
Proof.
  revert s. induction chs as [|ch chs IH]; intros s; simpl; [done|].
  destruct (step c ch s); simpl; [apply IH|done].
Qed.

Section overflow.
Context (r : Z) (Hr : 1 <= r).
Let c : config := Config 1 1 1 r.

(** The only cook goes to the rack, makes a burger when nobody waits for one, and
    leaves. *)
Lemma cook_enters s :
  Cooks s = [Thread K_lockCK Running] → CK s = false → checkRack s = false →
  run c (replicate 3 (Cook 0)) s =
    Some (set_Cooks [Thread (if rack s =? r then K_unlockFull else K_add) Running]
      (set_checkRack true (set_CK true s))).
Proof. destruct s; simpl; intros -> -> ->. reflexivity. Qed.

Lemma cook_makes s : Cooks s = [Thread K_add Running] → waitForBurger s = 0 →
  run c (replicate 3 (Cook 0)) s =
    Some (set_Cooks [Thread K_unlockRack Running]
      (set_out (Makes 1 :: out s) (set_rack (rack s + 1) s))).
Proof.
  destruct s; simpl; intros -> ->. unfold run, step, run_thread. simpl. by rewrite andb_false_r.
Qed.

Lemma cook_leaves s : Cooks s = [Thread K_unlockRack Running] →
  run c (replicate 3 (Cook 0)) s =
    Some (set_Cooks [Thread K_lockCK Running] (set_CK false (set_checkRack false s))).
Proof. destruct s; simpl; intros ->. reflexivity. Qed.

Definition cook_round : list choice :=
  replicate 3 (Cook 0) ++ replicate 3 (Cook 0) ++ replicate 3 (Cook 0).

Lemma cook_round_run s :
  Cooks s = [Thread K_lockCK Running] → CK s = false → checkRack s = false →
  waitForBurger s = 0 → rack s ≠ r →
  run c cook_round s = Some (set_out (Makes 1 :: out s) (set_rack (rack s + 1) s)).
Proof.
  intros H1 H2 H3 H4 Hne%Z.eqb_neq. unfold cook_round. rewrite run_app, cook_enters, Hne by done.
  cbn [mbind option_bind]. rewrite run_app, cook_makes by done. cbn [mbind option_bind].
  rewrite cook_leaves by done. destruct s; simpl in *. by subst.
Qed.

(** What a state must look like for the cook to go on with such rounds. *)
Record kitchen_idle (s : shop) : Prop := KitchenIdle {
  ki_reach : reachable c s;
  ki_cooks : Cooks s = [Thread K_lockCK Running];
  ki_CK : CK s = false;
  ki_rack : checkRack s = false;
  ki_wait : waitForBurger s = 0;
}.

Lemma cook_round_idle s : kitchen_idle s → rack s ≠ r →
  kitchen_idle (set_out (Makes 1 :: out s) (set_rack (rack s + 1) s)).
Proof.
  intros [K1 K2 K3 K4 K5] Hne. split; [|exact K2|exact K3|exact K4|exact K5].
  exact (reachable_run c cook_round s _ K1 (cook_round_run s K2 K3 K4 K5 Hne)).
Qed.

(** [n] rounds that do not meet a full rack. *)
Lemma cook_rounds s (n : nat) :
  kitchen_idle s → r < rack s ∨ rack s + Z.of_nat n <= r →
  ∃ o, kitchen_idle (set_out o (set_rack (rack s + Z.of_nat n) s)).
Proof.
  revert s. induction n as [|n IH]; intros s Hs Hn.
  - exists (out s). rewrite Z.add_0_r. by destruct s.
  - destruct (IH (set_out (Makes 1 :: out s) (set_rack (rack s + 1) s))) as [o Ho].
    + apply cook_round_idle; [done|lia].
    + simpl. lia.
    + exists o. simpl in Ho. by replace (rack s + Z.of_nat (S n)) with (rack s + 1 + Z.of_nat n) by lia.
Qed.

(** The cashier accepts the order of the customer and has the rack to itself. *)
Definition order : list choice :=
  replicate 4 (Cashier 0) ++ replicate 8 (Customer 0) ++ replicate 4 (Cashier 0).

Lemma order_run o : ∃ s', run c order (set_out o (set_rack r (init c [0; 0]))) = Some s' ∧
  Cashiers s' = [Thread A_testEmpty Running] ∧ rack s' = r ∧ rackFull s' = 0 ∧
  Cooks s' = [Thread K_lockCK Running] ∧ CK s' = false ∧ waitForBurger s' = 0.
Proof. eexists. split; [vm_compute; reflexivity|]. done. Qed.

(** It takes a burger from the full rack and posts [rackFull]. *)
Lemma cashier_finds s : Cashiers s = [Thread A_testEmpty Running] → rack s = r →
  run c [Cashier 0] s = Some (set_Cashiers [Thread A_take Running] s).
Proof.
  destruct s; simpl; intros -> ->. unfold run, step, run_thread. simpl.
  by rewrite (proj2 (Z.eqb_neq r 0)) by lia.
Qed.

Lemma cashier_takes s : Cashiers s = [Thread A_take Running] → rack s = r →
  run c [Cashier 0; Cashier 0] s =
    Some (set_Cashiers [Thread A_postFull Running] (set_rack (r - 1) s)).
Proof.
  destruct s; simpl; intros -> ->. unfold run, step, run_thread. simpl.
  by rewrite (proj2 (Z.eqb_eq (r - 1 + 1) r)) by lia.
Qed.

Lemma cashier_posts s : Cashiers s = [Thread A_postFull Running] →
  run c [Cashier 0; Cashier 0] s =
    Some (set_Cashiers [Thread A_printTake Running]
      (set_checkRack false (set_rackFull (rackFull s + 1) s))).
Proof. destruct s; simpl; intros ->. reflexivity. Qed.

Definition take_burger : list choice := [Cashier 0] ++ [Cashier 0; Cashier 0] ++ [Cashier 0; Cashier 0].

Lemma take_run s : Cashiers s = [Thread A_testEmpty Running] → rack s = r →
  run c take_burger s =
    Some (set_Cashiers [Thread A_printTake Running]
      (set_checkRack false (set_rackFull (rackFull s + 1) (set_rack (r - 1) s)))).
Proof.
  intros H1 H2. unfold take_burger. rewrite run_app, cashier_finds by done. cbn [mbind option_bind].
  rewrite run_app, cashier_takes by done. cbn [mbind option_bind]. by rewrite cashier_posts.
Qed.

(** A cook at a full rack that finds [rackFull] posted. *)
Definition pass_round : list choice :=
  replicate 3 (Cook 0) ++ replicate 3 (Cook 0) ++ replicate 3 (Cook 0) ++ replicate 3 (Cook 0).

Lemma cook_passes s :
  Cooks s = [Thread K_unlockFull Running] → rackFull s = 1 →
  run c (replicate 3 (Cook 0)) s =
    Some (set_Cooks [Thread K_add Running] (set_checkRack true (set_rackFull 0 s))).
Proof. destruct s; simpl; intros -> ->. reflexivity. Qed.

Lemma pass_run s :
  Cooks s = [Thread K_lockCK Running] → CK s = false → checkRack s = false →
  waitForBurger s = 0 → rack s = r → rackFull s = 1 →
  run c pass_round s =
    Some (set_out (Makes 1 :: out s) (set_rackFull 0 (set_rack (r + 1) s))).
Proof.
  intros H1 H2 H3 H4 H5 H6. unfold pass_round.
  rewrite run_app, cook_enters, H5, Z.eqb_refl by done.
  cbn [mbind option_bind]. rewrite run_app, cook_passes by done. cbn [mbind option_bind].
  rewrite run_app, cook_makes by done. cbn [mbind option_bind].
  rewrite cook_leaves by done. destruct s; simpl in *. by subst.
Qed.

Lemma kitchen_idle_init : kitchen_idle (init c [0; 0]).
Proof. split; try done. by constructor. Qed.

Lemma overflow_starts : ∃ s, kitchen_idle s ∧ rack s = r + 1.
Proof.
  destruct (cook_rounds (init c [0; 0]) (Z.to_nat r) kitchen_idle_init) as [o [K1 _ _ _ _]].
  { simpl. lia. }
  simpl in K1. rewrite Z2Nat.id in K1 by lia.
  destruct (order_run o) as (s1 & Hrun & E1 & E2 & E3 & E4 & E5 & E6).
  pose proof (take_run s1 E1 E2) as Htake. set (s2 := set_Cashiers _ _) in Htake.
  assert (kitchen_idle s2) as Hs2.
  { split; [|exact E4|exact E5|done|exact E6].
    exact (reachable_run c _ _ _ (reachable_run c _ _ _ K1 Hrun) Htake). }
  pose proof (cook_round_idle s2 Hs2 ltac:(simpl; lia)) as Hs3. set (s3 := set_out _ _) in Hs3.
  assert (rack s3 = r) as Er by (simpl; lia).
  assert (rackFull s3 = 1) as Ef by (simpl; lia).
  destruct Hs3 as [L1 L2 L3 L4 L5].
  pose proof (pass_run s3 L2 L3 L4 L5 Er Ef) as Hpass.
  exists (set_out (Makes 1 :: out s3) (set_rackFull 0 (set_rack (r + 1) s3))). split; [|reflexivity].
  split; [exact (reachable_run c _ _ _ L1 Hpass)|exact L2|exact L3|exact L4|exact L5].
Qed.
End overflow.



(** ** Concrete runs *)

(** Two cashiers queue up, a cook makes a burger, the first customer is served by
    the first cashier who is about to take the burger, the second customer is about
    to dequeue. *)
Definition demo_config : config := Config 1 2 2 3.

Definition demo_choices : list choice :=
  replicate 4 (Cashier 0) ++ replicate 4 (Cashier 1) ++ replicate 9 (Cook 0) ++
  replicate 9 (Customer 0) ++ replicate 5 (Cashier 0) ++ replicate 5 (Customer 1).

Definition demo_shop : shop :=
  default (init demo_config [0; 0; 0]) (run demo_config demo_choices (init demo_config [0; 0; 0])).

Lemma demo_reachable : reachable demo_config demo_shop.
Proof.
  apply (reachable_run demo_config demo_choices (init demo_config [0; 0; 0]));
    [by constructor|vm_compute; reflexivity].
Qed.

Lemma shared_state_mutual_exclusion_witness :
  checkRack demo_shop = true ∧ queueMutex demo_shop = true ∧ cntMutex demo_shop = false ∧
  tally cook_in_rack (Cooks demo_shop) + tally cashier_in_rack (Cashiers demo_shop) = 1.
Proof.
  split_and!; [vm_compute; reflexivity..|].
  apply (shared_state_mutual_exclusion demo_config demo_shop); [by vm_compute|exact demo_reachable].
Defined.

Lemma rack_never_negative_witness :
  Cashiers demo_shop !! 0%nat = Some (Thread A_take Running) ∧ 1 <= rack demo_shop.
Proof.
  split; [vm_compute; reflexivity|].
  apply (rack_never_negative demo_config demo_shop ltac:(by vm_compute) demo_reachable) with 0%nat Running.
  vm_compute. reflexivity.
Defined.


Lemma staff_dismissed_last_witness :
  customersServed demo_shop < customers demo_config ∧
  Forall (λ t, st t = Running) (Cooks demo_shop) ∧ Forall (λ t, st t = Running) (Cashiers demo_shop).
Proof.
  split; [by vm_compute|].
  apply (staff_dismissed_last demo_config demo_shop ltac:(by vm_compute) ltac:(by vm_compute) demo_reachable).
  by vm_compute.
Defined.

Lemma output_consistent_witness :
  out demo_shop = [Comes 2; Accepts 1; Comes 1; Makes 1] ∧
  printed is_take (out demo_shop) <= printed is_accept (out demo_shop) <= printed is_come (out demo_shop).
Proof.
  split; [vm_compute; reflexivity|].
  apply (output_consistent demo_config demo_shop); [by vm_compute|exact demo_reachable].
Defined.

Lemma no_deadlock_witness : ∃ ch s', step demo_config ch demo_shop = Some s'.
Proof. apply (no_deadlock demo_config demo_shop); [by vm_compute..|exact demo_reachable|by vm_compute]. Defined.
