(* ===== verification/ArmPgtable.v ===== *)
(** * Page tables of 32-bit ARM

    Models the two-level page tables the kernel is configured with:
    [arch/arm/include/asm/pgtable-2level.h], [pgtable.h], [pgalloc.h] and
    [memory.h], [include/asm-generic/pgtable.h] and [pgtable-nopud.h], the
    allocation of a second-level table ([__pte_alloc] of [mm/memory.c]) and
    [cpu_v7_set_pte_ext] of [arch/arm/mm/proc-v7-2level.S].  The tables live in a
    physical memory of 32-bit words; the kernel reaches them through its linear
    mapping. *)

From S2P Require Import Prelude.

(** ** Constants *)

Definition PAGE_SHIFT : Z := 12.
Definition PAGE_SIZE : Z := 2 ^ PAGE_SHIFT.
Definition PAGE_MASK : Z := u32 (Z.lnot (PAGE_SIZE - 1)).
Definition PTRS_PER_PTE : Z := 512.
Definition PTE_HWTABLE_PTRS : Z := PTRS_PER_PTE.
Definition PTE_HWTABLE_OFF : Z := PTE_HWTABLE_PTRS * 4.
Definition PGDIR_SHIFT : Z := 21.
Definition PGDIR_SIZE : Z := 2 ^ PGDIR_SHIFT.
Definition PGDIR_MASK : Z := u32 (Z.lnot (PGDIR_SIZE - 1)).

Definition L_PTE_PRESENT : Z := Z.shiftl 1 0.
Definition L_PTE_YOUNG : Z := Z.shiftl 1 1.
Definition L_PTE_DIRTY : Z := Z.shiftl 1 6.
Definition L_PTE_RDONLY : Z := Z.shiftl 1 7.
Definition L_PTE_USER : Z := Z.shiftl 1 8.
Definition L_PTE_XN : Z := Z.shiftl 1 9.

Definition PMD_TYPE_TABLE : Z := Z.shiftl 1 0.
Definition PMD_BIT4 : Z := Z.shiftl 1 4.
Definition PMD_DOMAIN (x : Z) : Z := Z.shiftl x 5.
Definition DOMAIN_USER : Z := 1.
Definition _PAGE_USER_TABLE : Z := Z.lor (Z.lor PMD_TYPE_TABLE PMD_BIT4) (PMD_DOMAIN DOMAIN_USER).

Definition PTE_TYPE_MASK : Z := 3.
Definition PTE_EXT_XN : Z := Z.shiftl 1 0.
Definition PTE_EXT_AP0 : Z := Z.shiftl 1 4.
Definition PTE_EXT_AP1 : Z := Z.shiftl 2 4.
Definition PTE_EXT_TEX (x : Z) : Z := Z.shiftl x 6.
Definition PTE_EXT_APX : Z := Z.shiftl 1 9.
Definition PTE_EXT_NG : Z := Z.shiftl 1 11.

Definition PAGE_OFFSET : Z := 0xC0000000.
Definition TASK_SIZE : Z := PAGE_OFFSET - 0x01000000.


(** ** Addresses

    [PHYS_OFFSET] is found by the kernel at boot. *)

Class PhysLayout := { PHYS_OFFSET : Z }.

Section addresses.
Context `{PhysLayout}.

Definition __virt_to_phys (x : Z) : Z := u32 (x - PAGE_OFFSET + PHYS_OFFSET).

Definition __phys_to_virt (x : Z) : Z := u32 (x - PHYS_OFFSET + PAGE_OFFSET).

Definition pgd_index (addr : Z) : Z := Z.shiftr addr PGDIR_SHIFT.

(** A [pgd_t] is two words, a [pmd_t] and a [pte_t] one. *)
Definition pgd_offset (pgd addr : Z) : Z := u32 (pgd + 8 * pgd_index addr).

Definition pgd_addr_end (addr en : Z) : Z :=
  let boundary := Z.land (u32 (addr + PGDIR_SIZE)) PGDIR_MASK in
  if u32 (boundary - 1) <? u32 (en - 1) then boundary else en.

Definition pud_addr_end (addr en : Z) : Z := en.

Definition pmd_addr_end (addr en : Z) : Z := en.

Definition pud_offset (pgd addr : Z) : Z := pgd.

Definition pmd_offset (pud addr : Z) : Z := pud.

(** The entries of the folded levels always exist. *)
Definition pgd_none (pgd : Z) : bool := false.
Definition pgd_bad (pgd : Z) : bool := false.
Definition pud_none (pud : Z) : bool := false.
Definition pud_bad (pud : Z) : bool := false.

Definition pmd_none (pmd : Z) : bool := pmd =? 0.

Definition pmd_bad (pmd : Z) : bool := negb (Z.land pmd 2 =? 0).

Definition pmd_page_vaddr (pmd : Z) : Z := __phys_to_virt (Z.land pmd PAGE_MASK).

(** The page frame number of [pmd_page(pmd)]. *)
Definition pmd_page (pmd : Z) : Z := Z.shiftr pmd PAGE_SHIFT.

Definition pte_index (addr : Z) : Z := Z.land (Z.shiftr addr PAGE_SHIFT) (PTRS_PER_PTE - 1).

Definition pte_pfn (pte : Z) : Z := Z.shiftr pte PAGE_SHIFT.

Definition pfn_pte (pfn prot : Z) : Z := Z.lor (u32 (Z.shiftl pfn PAGE_SHIFT)) prot.

Definition pte_none (pte : Z) : bool := pte =? 0.

Definition pte_present (pte : Z) : bool := negb (Z.land pte L_PTE_PRESENT =? 0).

Definition pte_present_user (pte : Z) : bool :=
  Z.land pte (Z.lor L_PTE_PRESENT L_PTE_USER) =? Z.lor L_PTE_PRESENT L_PTE_USER.

Definition pte_mkspecial (pte : Z) : Z := pte.
End addresses.

(** ** Kernel state

    Physical memory, the page frames the allocator will hand out, and the
    descriptors of the address spaces. *)

Record vma := Vma {
  vm_mm : Z;
  vm_start : Z;
  vm_end : Z;
  vm_page_prot : Z;
  vm_flags : Z;
  vm_pgoff : Z;
}.

(** The red-black tree of areas, by their addresses. *)
Inductive rb_tree := Leaf | Node (l : rb_tree) (v : Z) (r : rb_tree).

Record mm := Mm {
  pgd : Z;
  mm_rb : rb_tree;
  mmap_cache : option Z;
  nr_ptes : Z;
}.

Record kst := KSt {
  words : gmap Z Z;  (** by physical address *)
  frames : list Z;
  vmas : gmap Z vma;
  mms : gmap Z mm;
}.

Definition set_words (w : gmap Z Z) (s : kst) : kst := KSt w (frames s) (vmas s) (mms s).
Definition set_frames (f : list Z) (s : kst) : kst := KSt (words s) f (vmas s) (mms s).
Definition set_vmas (v : gmap Z vma) (s : kst) : kst := KSt (words s) (frames s) v (mms s).
Definition set_mms (m : gmap Z mm) (s : kst) : kst := KSt (words s) (frames s) (vmas s) m.

Definition get_vma (a : Z) : M kst vma := s ← gets vmas; of_option (BadAddr a) (s !! a).

Definition put_vma (a : Z) (v : vma) : M kst () := modify (λ s, set_vmas (<[a := v]> (vmas s)) s).

Definition get_mm (a : Z) : M kst mm := s ← gets mms; of_option (BadAddr a) (s !! a).

Definition put_mm (a : Z) (m : mm) : M kst () := modify (λ s, set_mms (<[a := m]> (mms s)) s).

Section tables.
Context `{PhysLayout}.

(** Access to a word through the linear mapping of the kernel. *)
Definition kread (a : Z) : M kst Z :=
  w ← gets words; of_option (BadAddr a) (w !! __virt_to_phys a).

Definition kwrite (a v : Z) : M kst () :=
  w ← gets words;
  match w !! __virt_to_phys a with
  | Some _ => modify (set_words (<[__virt_to_phys a := v]> w))
  | None => fail (BadAddr a)
  end.

Definition pte_offset_map (pmd addr : Z) : M kst Z :=
  v ← kread pmd; mret (u32 (pmd_page_vaddr v + 4 * pte_index addr)).

Definition pmd_clear (pmdp : Z) : M kst () := kwrite pmdp 0;; kwrite (u32 (pmdp + 4)) 0.

(** [cpu_v7_set_pte_ext]: the linux entry is stored at [ptep], the hardware entry
    2048 bytes above; [bic] is and-not, [eor] exclusive or. *)
Definition bic (x y : Z) : Z := Z.land x (u32 (Z.lnot y)).

Definition hw_pte (pte ext : Z) : Z :=
  let r3 := bic (bic pte 0x3f0) PTE_TYPE_MASK in
  let r3 := Z.lor (Z.lor r3 ext) (Z.lor PTE_EXT_AP0 2) in
  let r3 := if Z.land pte (Z.shiftl 1 4) =? 0 then r3 else Z.lor r3 (PTE_EXT_TEX 1) in
  let r1 := Z.lxor pte L_PTE_DIRTY in
  let r3 := if Z.land r1 (Z.lor L_PTE_RDONLY L_PTE_DIRTY) =? 0 then r3 else Z.lor r3 PTE_EXT_APX in
  let r3 := if Z.land r1 L_PTE_USER =? 0 then r3 else Z.lor r3 PTE_EXT_AP1 in
  let r3 := if Z.land r1 L_PTE_XN =? 0 then r3 else Z.lor r3 PTE_EXT_XN in
  if (Z.land r1 L_PTE_YOUNG =? 0) || (Z.land r1 L_PTE_PRESENT =? 0) then 0 else r3.

Definition set_pte_ext (ptep pte ext : Z) : M kst () :=
  kwrite ptep pte;;
  kwrite (u32 (ptep + 2048)) (hw_pte pte ext).

Definition set_pte_at (addr ptep pteval : Z) : M kst () :=
  let ext := if (addr <? TASK_SIZE) && pte_present_user pteval then PTE_EXT_NG else 0 in
  set_pte_ext ptep pteval ext.

(** ** Allocation of a second-level table *)

Definition zero_page (pfn : Z) (w : gmap Z Z) : gmap Z Z :=
  foldr (λ i, <[pfn * PAGE_SIZE + 4 * Z.of_nat i := 0]>) w (seq 0 1024).

(** A zeroed page from the page allocator; [None] when it has none left. *)
Definition pte_alloc_one : M kst (option Z) := λ s,
  match frames s with
  | [] => Ok (None, s)
  | pfn :: f => Ok (Some pfn, set_frames f (set_words (zero_page pfn (words s)) s))
  end.

Definition pte_free (pfn : Z) : M kst () := modify (λ s, set_frames (pfn :: frames s) s).

Definition __pmd_populate (pmdp pte prot : Z) : M kst () :=
  let pmdval := Z.lor (u32 (pte + PTE_HWTABLE_OFF)) prot in
  kwrite pmdp pmdval;;
  kwrite (u32 (pmdp + 4)) (u32 (pmdval + 256 * 4)).

Definition pmd_populate (pmdp pfn : Z) : M kst () :=
  __pmd_populate pmdp (u32 (Z.shiftl pfn PAGE_SHIFT)) _PAGE_USER_TABLE.

Definition __pte_alloc (m pmd address : Z) : M kst Z :=
  new ← pte_alloc_one;
  match new with
  | None => mret (- ENOMEM)
  | Some new =>
      v ← kread pmd;
      if pmd_none v then
        d ← get_mm m;
        put_mm m (Mm (pgd d) (mm_rb d) (mmap_cache d) (u32 (nr_ptes d + 1)));;
        pmd_populate pmd new;;
        mret 0
      else pte_free new;; mret 0
  end.

(** [None]: no memory for the table. *)
Definition pte_alloc_map_lock (m pmd address : Z) : M kst (option Z) :=
  v ← kread pmd;
  err ← (if pmd_none v then __pte_alloc m pmd address else mret 0);
  if negb (err =? 0) then mret None else pte ← pte_offset_map pmd address; mret (Some pte).
End tables.
Arguments zero_page : simpl never.

(** ** Facts about masks and indices *)

Lemma land_mask x k : is_u32 x → 0 <= k <= 32 → Z.land x (2 ^ 32 - 2 ^ k) = 2 ^ k * (x / 2 ^ k).
Proof.
  intros Hx Hk. replace (2 ^ 32 - 2 ^ k) with (Z.shiftl (Z.ones (32 - k)) k).
  2: { rewrite Z.shiftl_mul_pow2, Z.ones_equiv by lia. unfold Z.pred.
       rewrite Z.mul_add_distr_r, <-Z.pow_add_r by lia. replace (32 - k + k) with 32 by lia. lia. }
  replace (Z.land x (Z.shiftl (Z.ones (32 - k)) k)) with (Z.shiftl (Z.land (Z.shiftr x k) (Z.ones (32 - k))) k).
  2: { apply Z.bits_inj'. intros n Hn. rewrite Z.shiftl_spec, !Z.land_spec, Z.shiftl_spec by lia.
       destruct (decide (n < k)) as [Hlt|Hge].
       - rewrite !(Z.testbit_neg_r _ (n - k)) by lia. by rewrite !andb_false_r.
       - rewrite Z.shiftr_spec by lia. by replace (n - k + k) with n by lia. }
  rewrite Z.land_ones, Z.shiftr_div_pow2 by lia. rewrite Z.shiftl_mul_pow2 by lia.
  rewrite Z.mod_small; [apply Z.mul_comm|]. unfold is_u32 in *. split; [apply Z.div_pos; lia|].
  apply Z.div_lt_upper_bound; [lia|]. rewrite <-Z.pow_add_r by lia. replace (k + (32 - k)) with 32 by lia. lia.
Qed.

Lemma PAGE_MASK_eq : PAGE_MASK = 2 ^ 32 - 2 ^ 12.
Proof. reflexivity. Qed.

Lemma PGDIR_MASK_eq : PGDIR_MASK = 2 ^ 32 - 2 ^ 21.
Proof. reflexivity. Qed.

Lemma pte_index_eq addr : pte_index addr = (addr / 4096) mod 512.
Proof.
  unfold pte_index, PAGE_SHIFT, PTRS_PER_PTE. change (512 - 1) with (Z.ones 9).
  by rewrite Z.land_ones, Z.shiftr_div_pow2 by lia.
Qed.

Lemma pgd_index_eq addr : pgd_index addr = addr / PGDIR_SIZE.
Proof. unfold pgd_index. by rewrite Z.shiftr_div_pow2 by (unfold PGDIR_SHIFT; lia). Qed.

(** The end of the entry of the first level that maps [addr], or of the range. *)
Lemma pgd_addr_end_eq addr en :
  0 <= addr < en → en < 2 ^ 32 →
  pgd_addr_end addr en = Z.min en (PGDIR_SIZE * (addr / PGDIR_SIZE + 1)).
Proof.
  intros Ha He. unfold pgd_addr_end. rewrite PGDIR_MASK_eq.
  change (2 ^ 21) with PGDIR_SIZE. assert (PGDIR_SIZE = 2097152) as E by reflexivity.
  pose proof (u32_range (addr + PGDIR_SIZE)) as Hr.
  replace PGDIR_SIZE with (2 ^ 21) in * by reflexivity. rewrite land_mask by (done || lia).
  unfold u32 in *. change (2 ^ 32) with 4294967296 in *. change (2 ^ 21) with 2097152 in *.
  destruct (decide (addr + 2097152 < 4294967296)).
  - rewrite (Z.mod_small (addr + _)) by lia.
    pose proof (Z.div_mod addr 2097152). pose proof (Z.mod_pos_bound addr 2097152).
    replace (addr + 2097152) with (addr + 1 * 2097152) by lia. rewrite Z.div_add by lia.
    rewrite (Z.mod_small (_ - 1)), (Z.mod_small (en - 1)) by lia.
    destruct (Z.ltb_spec (2097152 * (addr / 2097152 + 1) - 1) (en - 1)); lia.
  - assert (addr / 2097152 = 2047) as Eq by (symmetry; apply (Z.div_unique addr 2097152 2047 (addr - 2047 * 2097152)); lia).
    rewrite Eq.
    assert ((addr + 2097152) mod 4294967296 / 2097152 = 0) as ->.
    { apply Z.div_small. replace (addr + 2097152) with (addr + 2097152 - 4294967296 + 1 * 4294967296) by lia.
      rewrite Z.mod_add, Z.mod_small by lia. lia. }
    destruct (Z.ltb_spec ((2097152 * 0 - 1) mod 4294967296) ((en - 1) mod 4294967296)) as [Hlt|Hge]; [|lia].
    rewrite (Z.mod_small (en - 1)) in Hlt by lia. change ((2097152 * 0 - 1) mod 4294967296) with 4294967295 in Hlt. lia.
Qed.

Section facts.
Context `{PhysLayout}.

Lemma virt_phys x : is_u32 x → __virt_to_phys (__phys_to_virt x) = x.
Proof.
  intros Hx. unfold __virt_to_phys, __phys_to_virt, u32.
  rewrite <-Z.add_sub_swap, <-Zminus_mod_idemp_l, Zplus_mod_idemp_l, Zminus_mod_idemp_l.
  rewrite <-(Z.mod_small x (2 ^ 32)) at 2 by exact Hx. f_equal. lia.
Qed.

Lemma virt_phys_add x d : is_u32 (x + d) → is_u32 x → __virt_to_phys (u32 (__phys_to_virt x + d)) = x + d.
Proof.
  intros Hd Hx. rewrite <-(virt_phys (x + d)) by done. f_equal. unfold __phys_to_virt, u32.
  rewrite Zplus_mod_idemp_l. f_equal. lia.
Qed.

(** ** What the table entries encode *)

Lemma land_low a b k : 0 <= k → 0 <= b < 2 ^ k → Z.land (a * 2 ^ k) b = 0.
Proof.
  intros Hk Hb. rewrite <-Z.shiftl_mul_pow2 by lia. apply Z.bits_inj'. intros n Hn.
  rewrite Z.land_spec, Z.bits_0. destruct (decide (n < k)); [by rewrite Z.shiftl_spec_low by lia|].
  rewrite <-(Z.mod_small b (2 ^ k)), Z.mod_pow2_bits_high by lia. apply andb_false_r.
Qed.

Lemma lor_low a b k : 0 <= k → 0 <= b < 2 ^ k → Z.lor (a * 2 ^ k) b = a * 2 ^ k + b.
Proof.
  intros Hk Hb. pose proof (land_low a b k Hk Hb) as E.
  by rewrite <-(Z.lxor_lor _ _ E), (Z.add_nocarry_lxor _ _ E).
Qed.

(** An entry of the second level maps the frame and has the protection it was made
    from. *)
Lemma pfn_pte_eq pfn prot :
  0 <= pfn < 2 ^ 20 → 0 <= prot < 4096 → pfn_pte pfn prot = pfn * 4096 + prot.
Proof.
  intros Hf Hp. unfold pfn_pte, PAGE_SHIFT. rewrite Z.shiftl_mul_pow2 by lia.
  rewrite u32_id by (unfold is_u32; lia). by rewrite lor_low by lia.
Qed.

Lemma pte_pfn_pfn_pte pfn prot :
  0 <= pfn < 2 ^ 20 → 0 <= prot < 4096 → pte_pfn (pfn_pte pfn prot) = pfn.
Proof.
  intros Hf Hp. rewrite pfn_pte_eq by done. unfold pte_pfn, PAGE_SHIFT.
  rewrite Z.shiftr_div_pow2 by lia. change (2 ^ 12) with 4096.
  rewrite Z.div_add_l, Z.div_small; lia.
Qed.

(** The entry of the first level that [pmd_populate] writes for the table in frame
    [pfn]. *)
Definition pmd_of (pfn : Z) : Z :=
  Z.lor (u32 (u32 (Z.shiftl pfn PAGE_SHIFT) + PTE_HWTABLE_OFF)) _PAGE_USER_TABLE.

Lemma pmd_of_eq pfn : 0 <= pfn < 2 ^ 20 → pmd_of pfn = pfn * 4096 + 2048 + 49.
Proof.
  intros Hf. unfold pmd_of, PAGE_SHIFT. rewrite Z.shiftl_mul_pow2 by lia.
  rewrite (u32_id (pfn * _)) by (unfold is_u32; lia). change PTE_HWTABLE_OFF with 2048.
  rewrite u32_id by (unfold is_u32; lia). change _PAGE_USER_TABLE with 49.
  replace (pfn * 2 ^ 12 + 2048) with ((pfn * 2 + 1) * 2 ^ 11) by lia. rewrite lor_low by lia. lia.
Qed.

Lemma pmd_page_of pfn : 0 <= pfn < 2 ^ 20 → pmd_page (pmd_of pfn) = pfn.
Proof.
  intros Hf. rewrite pmd_of_eq by done. unfold pmd_page, PAGE_SHIFT.
  rewrite Z.shiftr_div_pow2, <-Z.add_assoc by lia. change (2 ^ 12) with 4096.
  rewrite Z.div_add_l, Z.div_small; lia.
Qed.

(** For an entry of the first level, the second-level table starts at its frame. *)
Lemma pmd_page_vaddr_eq v : is_u32 v → pmd_page_vaddr v = __phys_to_virt (pmd_page v * PAGE_SIZE).
Proof.
  intros Hv. unfold pmd_page_vaddr, pmd_page, PAGE_SIZE, PAGE_SHIFT. rewrite PAGE_MASK_eq, land_mask by (done || lia).
  rewrite Z.shiftr_div_pow2 by lia. f_equal. lia.
Qed.

Lemma pmd_page_range v : is_u32 v → 0 <= pmd_page v < 2 ^ 20.
Proof.
  intros Hv. unfold pmd_page, PAGE_SHIFT, is_u32 in *. rewrite Z.shiftr_div_pow2 by lia.
  split; [apply Z.div_pos; lia|apply Z.div_lt_upper_bound; lia].
Qed.
End facts.

(** ** The hardware entry *)

Lemma testbit_single k n : 0 <= k → Z.testbit (Z.shiftl 1 k) n = (n =? k).
Proof.
  intros Hk. rewrite Z.shiftl_1_l. destruct (Z.eqb_spec n k) as [->|Hn].
  - by apply Z.pow2_bits_true.
  - by apply Z.pow2_bits_false.
Qed.

Lemma land_single_zero x k : 0 <= k → (Z.land x (Z.shiftl 1 k) =? 0) = negb (Z.testbit x k).
Proof.
  intros Hk. destruct (Z.testbit x k) eqn:E; simpl.
  - apply Z.eqb_neq. intros E0. assert (Z.testbit (Z.land x (Z.shiftl 1 k)) k = false) as E1 by by rewrite E0, Z.bits_0.
    by rewrite Z.land_spec, E, testbit_single, Z.eqb_refl in E1.
  - apply Z.eqb_eq, Z.bits_inj'. intros n Hn. rewrite Z.land_spec, testbit_single, Z.bits_0 by lia.
    destruct (Z.eqb_spec n k) as [->|]; [by rewrite E|by rewrite andb_false_r].
Qed.

Lemma bic_shiftr x y : is_u32 x → 0 <= y < 4096 → Z.shiftr (bic x y) 12 = Z.shiftr x 12.
Proof.
  intros Hx Hy. unfold bic, is_u32 in *. rewrite Z.shiftr_land.
  replace (Z.shiftr (u32 (Z.lnot y)) 12) with (Z.ones 20).
  - rewrite Z.land_ones, Z.shiftr_div_pow2, Z.mod_small; try lia.
    split; [apply Z.div_pos; lia|apply Z.div_lt_upper_bound; lia].
  - rewrite Z.shiftr_div_pow2 by lia. unfold u32, Z.lnot.
    replace (Z.pred (- y)) with (2 ^ 32 - 1 - y + (-1) * 2 ^ 32) by lia. rewrite Z.mod_add, Z.mod_small by lia.
    change (Z.ones 20) with 1048575. apply (Z.div_unique _ _ _ (4095 - y)); lia.
Qed.

Lemma shiftr_small x : 0 <= x < 4096 → Z.shiftr x 12 = 0.
Proof. intros. rewrite Z.shiftr_div_pow2 by lia. by apply Z.div_small. Qed.

Lemma bic_bit x y n : is_u32 x → 0 <= n < 32 → Z.testbit (bic x y) n = Z.testbit x n && negb (Z.testbit y n).
Proof.
  intros Hx Hn. unfold bic, u32. rewrite Z.land_spec, Z.mod_pow2_bits_low, Z.lnot_spec by lia. done.
Qed.

Lemma bic_range x y : is_u32 x → is_u32 (bic x y).
Proof. apply is_u32_land. Qed.

(** The hardware entry before the test of the young and present bits. *)
Definition hw_valid (pte ext : Z) : Z :=
  let r3 := Z.lor (Z.lor (bic (bic pte 0x3f0) PTE_TYPE_MASK) ext) (Z.lor PTE_EXT_AP0 2) in
  let r3 := if Z.testbit pte 4 then Z.lor r3 (PTE_EXT_TEX 1) else r3 in
  let r3 := if Z.testbit pte 7 || negb (Z.testbit pte 6) then Z.lor r3 PTE_EXT_APX else r3 in
  let r3 := if Z.testbit pte 8 then Z.lor r3 PTE_EXT_AP1 else r3 in
  if Z.testbit pte 9 then Z.lor r3 PTE_EXT_XN else r3.

Lemma dirty_rdonly_test pte :
  (Z.land (Z.lxor pte L_PTE_DIRTY) (Z.lor L_PTE_RDONLY L_PTE_DIRTY) =? 0) =
  negb (Z.testbit pte 7 || negb (Z.testbit pte 6)).
Proof.
  rewrite Z.land_lor_distr_r. unfold L_PTE_RDONLY, L_PTE_DIRTY.
  destruct (Z.eqb_spec (Z.lor (Z.land (Z.lxor pte (Z.shiftl 1 6)) (Z.shiftl 1 7))
    (Z.land (Z.lxor pte (Z.shiftl 1 6)) (Z.shiftl 1 6))) 0) as [E|E].
  - apply Z.lor_eq_0_iff in E as [E1%Z.eqb_eq E2%Z.eqb_eq].
    rewrite !land_single_zero, !Z.lxor_spec, !testbit_single in * by lia. cbn [Z.eqb Pos.eqb] in *.
    destruct (Z.testbit pte 7), (Z.testbit pte 6); done.
  - destruct (Z.testbit pte 7) eqn:E7, (Z.testbit pte 6) eqn:E6; simpl; try done. destruct E.
    apply Z.lor_eq_0_iff. split; apply Z.eqb_eq; rewrite land_single_zero, Z.lxor_spec, testbit_single by lia;
      by rewrite ?E7, ?E6.
Qed.

Lemma hw_pte_eq pte ext :
  hw_pte pte ext = if Z.testbit pte 1 && Z.testbit pte 0 then hw_valid pte ext else 0.
Proof.
  unfold hw_pte. rewrite dirty_rdonly_test. unfold hw_valid, L_PTE_YOUNG, L_PTE_PRESENT, L_PTE_XN, L_PTE_USER.
  rewrite !land_single_zero, !Z.lxor_spec by lia. unfold L_PTE_DIRTY. rewrite !testbit_single by lia.
  cbn [Z.eqb Pos.eqb]. rewrite !xorb_false_r.
  destruct (Z.testbit pte 0), (Z.testbit pte 1), (Z.testbit pte 4), (Z.testbit pte 6), (Z.testbit pte 7),
    (Z.testbit pte 8), (Z.testbit pte 9); reflexivity.
Qed.

(** The hardware entry at bit [n], for an extension [ext] that is 0 or not global. *)
Lemma hw_valid_bit pte ext n :
  is_u32 pte → 0 <= n < 32 →
  Z.testbit (hw_valid pte ext) n =
    Z.testbit pte n && negb (Z.testbit 0x3f0 n) && negb (Z.testbit 3 n) || Z.testbit ext n ||
    Z.testbit 18 n || Z.testbit pte 4 && (n =? 6) ||
    (Z.testbit pte 7 || negb (Z.testbit pte 6)) && (n =? 9) ||
    Z.testbit pte 8 && (n =? 5) || Z.testbit pte 9 && (n =? 0).
Proof.
  intros Hp Hn. unfold hw_valid, PTE_TYPE_MASK, PTE_EXT_TEX, PTE_EXT_APX, PTE_EXT_XN.
  change PTE_EXT_AP1 with (Z.shiftl 1 5). change (Z.lor PTE_EXT_AP0 2) with 18.
  assert (∀ (b : bool) x y, Z.testbit (if b then Z.lor x y else x) n = Z.testbit x n || b && Z.testbit y n) as E.
  { intros [] x y; [by rewrite Z.lor_spec|by rewrite orb_false_r]. }
  rewrite !E, !Z.lor_spec, !bic_bit, !testbit_single by (try apply bic_range; lia || done). done.
Qed.

(** The hardware entry that [cpu_v7_set_pte_ext] stores agrees with the Linux
    entry: it is invalid (0) unless the page is present and young; otherwise it is
    an entry for a small page of the same frame, accessible from user mode exactly
    if the Linux entry has the user bit, not executable exactly if it has the XN
    bit, and read-only unless the page is dirty and not read-only, so that the
    first write to a clean page faults. *)
Theorem hw_pte_agrees pte ext :
  is_u32 pte → ext = 0 ∨ ext = PTE_EXT_NG →
  if Z.testbit pte 0 && Z.testbit pte 1 then
    Z.shiftr (hw_pte pte ext) PAGE_SHIFT = pte_pfn pte ∧
    Z.testbit (hw_pte pte ext) 1 = true ∧
    Z.testbit (hw_pte pte ext) 5 = Z.testbit pte 8 ∧
    Z.testbit (hw_pte pte ext) 0 = Z.testbit pte 9 ∧
    Z.testbit (hw_pte pte ext) 9 = (Z.testbit pte 7 || negb (Z.testbit pte 6))
  else hw_pte pte ext = 0.
Proof.
  intros Hp Hext. rewrite hw_pte_eq, andb_comm. destruct (Z.testbit pte 1 && Z.testbit pte 0); [|done].
  assert (0 <= ext < 4096) by (destruct Hext as [->| ->]; vm_compute; done).
  split.
  - unfold pte_pfn, PAGE_SHIFT.
    assert (∀ (b : bool) x y, 0 <= y < 4096 → Z.shiftr (if b then Z.lor x y else x) 12 = Z.shiftr x 12) as E.
    { intros [] x y Hy; [|done]. by rewrite Z.shiftr_lor, (shiftr_small y), Z.lor_0_r. }
    unfold hw_valid. rewrite !E by done. rewrite !Z.shiftr_lor, (shiftr_small ext) by done.
    rewrite !bic_shiftr by (try apply bic_range; done). by rewrite !Z.lor_0_r.
  - rewrite !hw_valid_bit by (done || lia).
    destruct Hext as [->| ->]; simpl; rewrite ?andb_false_r, ?andb_true_r, ?orb_false_r; done.
Qed.

Lemma hw_pte_agrees_witness :
  Z.shiftr (hw_pte 0x12345143 PTE_EXT_NG) PAGE_SHIFT = pte_pfn 0x12345143 ∧
  Z.testbit (hw_pte 0x12345143 PTE_EXT_NG) 9 = false.
Proof.
  assert (is_u32 0x12345143) as Hu by (unfold is_u32; lia).
  destruct (hw_pte_agrees 0x12345143 PTE_EXT_NG Hu (or_intror eq_refl)) as (H1 & _ & _ & _ & H5).
  split; [exact H1|exact H5].
Defined.
