(* ===== verification/Vma.v ===== *)
(** * Search for a memory area

    Models [find_vma] of [mm/mmap.c]: the cached area and the descent in the
    red-black tree of an address space.  It finds the first area that ends above
    an address. *)

From S2P Require Import Prelude ArmPgtable.

(** The loop over the tree; [best] is the local variable [vma]. *)
Fixpoint rb_search (addr : Z) (t : rb_tree) (best : option Z) : M kst (option Z) :=
  match t with
  | Leaf => mret best
  | Node l v r =>
      vt ← get_vma v;
      if addr <? vm_end vt then
        if vm_start vt <=? addr then mret (Some v) else rb_search addr l (Some v)
      else rb_search addr r best
  end.

Definition find_vma (m : option Z) (addr : Z) : M kst (option Z) :=
  match m with
  | None => mret None
  | Some m =>
      d ← get_mm m;
      hit ← match mmap_cache d with
            | None => mret false
            | Some c => vc ← get_vma c; mret ((addr <? vm_end vc) && (vm_start vc <=? addr))
            end;
      if hit : bool then mret (mmap_cache d)
      else
        v ← rb_search addr (mm_rb d) None;
        match v with
        | None => mret None
        | Some v => put_mm m (Mm (pgd d) (mm_rb d) (Some v) (nr_ptes d));; mret (Some v)
        end
  end.

(** ** Specification *)

Fixpoint inorder (t : rb_tree) : list Z :=
  match t with Leaf => [] | Node l v r => inorder l ++ v :: inorder r end.

(** The areas [vs] of the state, in order, not overlapping. *)
Fixpoint ordered (vm : gmap Z vma) (lo : Z) (vs : list Z) : Prop :=
  match vs with
  | [] => True
  | v :: vs => ∃ a, vm !! v = Some a ∧ lo <= vm_start a < vm_end a ∧ ordered vm (vm_end a) vs
  end.

(** The first area of [vs] that ends above [addr]. *)
Fixpoint first_above (vm : gmap Z vma) (addr : Z) (vs : list Z) : option Z :=
  match vs with
  | [] => None
  | v :: vs =>
      match vm !! v with
      | Some a => if addr <? vm_end a then Some v else first_above vm addr vs
      | None => None
      end
  end.

Lemma ordered_app vm lo vs v ws :
  ordered vm lo (vs ++ v :: ws) →
  ordered vm lo vs ∧ ∃ a, vm !! v = Some a ∧ lo <= vm_start a < vm_end a ∧ ordered vm (vm_end a) ws ∧
    (∀ w b, w ∈ vs → vm !! w = Some b → vm_end b <= vm_start a).
Proof.
  revert lo. induction vs as [|w vs IH]; intros lo; simpl.
  - intros (a & Ha & Hlo & Ho). split; [done|]. exists a. split_and!; try done; [lia..|]. by intros ? ? ?%elem_of_nil.
  - intros (b & Hb & Hlo & Ho). destruct (IH _ Ho) as (Ho' & a & Ha & Hba & Hw & Hbefore). split; [by exists b|].
    exists a. split_and!; try done; [lia..|]. intros x y [->|Hx]%elem_of_cons Hy; [simplify_eq; lia|by apply (Hbefore x)].
Qed.

Lemma first_above_app vm addr vs ws lo :
  ordered vm lo vs →
  first_above vm addr (vs ++ ws) =
    match first_above vm addr vs with Some v => Some v | None => first_above vm addr ws end.
Proof.
  revert lo. induction vs as [|v vs IH]; intros lo Ho; simpl in *; [done|].
  destruct Ho as (a & Ha & _ & Ho). rewrite Ha. destruct (addr <? vm_end a); [done|]. by apply (IH (vm_end a)).
Qed.

(** No area that starts after [addr] at the latest ends above it. *)
Lemma first_above_none vm addr vs lo :
  ordered vm lo vs → (∀ w b, w ∈ vs → vm !! w = Some b → vm_end b <= addr) → first_above vm addr vs = None.
Proof.
  revert lo. induction vs as [|v vs IH]; intros lo Ho Hb; simpl in *; [done|].
  destruct Ho as (a & Ha & _ & Ho). rewrite Ha. pose proof (Hb v a ltac:(left) Ha).
  destruct (Z.ltb_spec addr (vm_end a)); [lia|]. apply (IH _ Ho). intros w b Hw. apply Hb. by right.
Qed.

Lemma rb_search_run addr t best s lo :
  ordered (vmas s) lo (inorder t) →
  rb_search addr t best s =
    Ok (match first_above (vmas s) addr (inorder t) with Some v => Some v | None => best end, s).
Proof.
  revert best lo. induction t as [|l IHl v r IHr]; intros best lo Ho; [done|]. simpl in *.
  destruct (ordered_app _ _ _ _ _ Ho) as (Hl & a & Ha & Hlo & Hr & Hbefore).
  rewrite (bind_Ok _ _ _ a s) by (unfold get_vma; erewrite bind_Ok by done; by rewrite Ha).
  rewrite (first_above_app _ _ _ _ _ Hl). simpl. rewrite Ha.
  destruct (Z.ltb_spec addr (vm_end a)); [destruct (Z.leb_spec (vm_start a) addr)|].
  - rewrite (first_above_none _ _ _ _ Hl); [done|]. intros w b Hw Hb. specialize (Hbefore w b Hw Hb). lia.
  - rewrite (IHl _ _ Hl). by destruct (first_above _ _ (inorder l)).
  - rewrite (IHr _ _ Hr), (first_above_none _ _ _ _ Hl); [done|].
    intros w b Hw Hb. specialize (Hbefore w b Hw Hb). lia.
Qed.

Lemma first_above_in vm addr vs lo v a :
  ordered vm lo vs → v ∈ vs → vm !! v = Some a → vm_start a <= addr < vm_end a →
  first_above vm addr vs = Some v.
Proof.
  revert lo. induction vs as [|w vs IH]; intros lo Ho Hv Ha Haddr; [by apply elem_of_nil in Hv|].
  destruct Ho as (b & Hb & Hlo & Ho). simpl. rewrite Hb. apply elem_of_cons in Hv as [->|Hv].
  - simplify_eq. by destruct (Z.ltb_spec addr (vm_end b)); [|lia].
  - assert (vm_end b <= vm_start a).
    { apply list_elem_of_split in Hv as (l1 & l2 & ->).
      destruct (ordered_app _ _ _ _ _ Ho) as (_ & a' & Ha' & ? & _). simplify_eq. lia. }
    destruct (Z.ltb_spec addr (vm_end b)); [lia|]. by apply (IH _ Ho).
Qed.

(** The state of an address space as the search relies on it. *)
Record mm_ok (s : kst) (m : Z) (d : mm) : Prop := MmOk {
  mo_mm : mms s !! m = Some d;
  mo_ordered : ordered (vmas s) 0 (inorder (mm_rb d));
  mo_cache : ∀ c, mmap_cache d = Some c → c ∈ inorder (mm_rb d);
}.

(** The state after a search that found [v]: the cache holds it. *)
Definition cached (m : Z) (d : mm) (v : option Z) (s : kst) : kst :=
  match v with
  | None => s
  | Some v => set_mms (<[m := Mm (pgd d) (mm_rb d) (Some v) (nr_ptes d)]> (mms s)) s
  end.

Lemma find_vma_run s m d addr :
  mm_ok s m d →
  find_vma (Some m) addr s =
    Ok (first_above (vmas s) addr (inorder (mm_rb d)),
        cached m d (first_above (vmas s) addr (inorder (mm_rb d))) s).
Proof.
  intros [Hm Ho Hc]. unfold find_vma.
  rewrite (bind_Ok _ _ _ d s) by (unfold get_mm; erewrite bind_Ok by done; by rewrite Hm).
  set (go := rb_search addr (mm_rb d) None).
  destruct (mmap_cache d) as [c|] eqn:Ec.
  - specialize (Hc c eq_refl). apply list_elem_of_split in Hc as (l1 & l2 & El).
    pose proof Ho as Ho'. rewrite El in Ho'. destruct (ordered_app _ _ _ _ _ Ho') as (_ & a & Ha & Hlo & _).
    rewrite (bind_Ok _ _ _ ((addr <? vm_end a) && (vm_start a <=? addr)) s)
      by (unfold get_vma; erewrite bind_Ok by (erewrite bind_Ok by done; by rewrite Ha); done).
    destruct (Z.ltb_spec addr (vm_end a)), (Z.leb_spec (vm_start a) addr); cbn [andb].
    { rewrite (first_above_in _ _ _ 0 c a) by (done || rewrite El; set_solver || lia).
      simpl. rewrite <-Ec. destruct s, d. unfold set_mms. simpl in *. by rewrite (insert_id _ _ _ Hm). }
    all: unfold go; rewrite (bind_Ok _ _ _ _ _ (rb_search_run addr _ None s 0 Ho)).
    all: by destruct (first_above _ _ _).
  - rewrite (bind_Ok _ _ _ false s) by done. unfold go. rewrite (bind_Ok _ _ _ _ _ (rb_search_run addr _ None s 0 Ho)).
    by destruct (first_above _ _ _).
Qed.

(** [find_vma] finds the first area, in the order of addresses, that ends above
    the address (so the area that contains it, if any), whether it takes it from the
    cache or from the tree; the result is cached and nothing else changes. *)
Theorem find_vma_first s m d addr :
  mm_ok s m d →
  find_vma (Some m) addr s =
    Ok (first_above (vmas s) addr (inorder (mm_rb d)),
        cached m d (first_above (vmas s) addr (inorder (mm_rb d))) s).
Proof. apply find_vma_run. Qed.

(** Two areas with a gap; the cache holds the second one. *)
Definition demo_vmas : gmap Z vma :=
  {[ 1 := Vma 9 0x8000 0xa000 0 0 0; 2 := Vma 9 0x10000 0x20000 0 0 0 ]}.

Definition demo_mm : mm := Mm 0xc0004000 (Node (Node Leaf 1 Leaf) 2 Leaf) (Some 2) 0.

Definition demo_vm : kst := KSt ∅ [] demo_vmas {[ 9 := demo_mm ]}.

Lemma demo_mm_ok : mm_ok demo_vm 9 demo_mm.
Proof.
  split; [done| |].
  - simpl. eexists. split; [reflexivity|]. simpl. split; [lia|]. eexists. split; [reflexivity|]. simpl. split; [lia|done].
  - intros c Hc. simpl in *. simplify_eq. set_solver.
Qed.

Lemma find_vma_first_witness :
  find_vma (Some 9) 0x9000 demo_vm = Ok (Some 1, cached 9 demo_mm (Some 1) demo_vm) ∧
  find_vma (Some 9) 0xb000 demo_vm = Ok (Some 2, cached 9 demo_mm (Some 2) demo_vm).
Proof.
  split; [apply (find_vma_first demo_vm 9 demo_mm 0x9000 demo_mm_ok)
         |apply (find_vma_first demo_vm 9 demo_mm 0xb000 demo_mm_ok)].
Defined.
