(* ===== verification/PageWalk.v ===== *)
(** * The page table walker

    Models [mm/pagewalk.c]: [walk_page_range] goes over the entries of the first
    level that map a range of addresses and calls the callbacks of a [struct
    mm_walk].  Callbacks may change any state, so the walker works on every state
    that contains the kernel state ([KernelState]). *)

From S2P Require Import Prelude ArmPgtable Vma.

(** ** States that contain the kernel state *)

Class KernelState (S : Type) := {
  kern : S → kst;
  set_kern : kst → S → S;
  kern_set k s : kern (set_kern k s) = k;
  set_kern_kern s : set_kern (kern s) s = s;
  set_kern_set k k' s : set_kern k (set_kern k' s) = set_kern k s;
}.

#[export] Instance kst_kernel : KernelState kst.
Proof. by refine {| kern s := s; set_kern k _ := k |}. Defined.

Definition liftk {S A} `{KernelState S} (m : M kst A) : M S A := λ s,
  match m (kern s) with Ok (a, k) => Ok (a, set_kern k s) | Err e => Err e end.

Definition VM_PFNMAP : Z := 0x400.

Section walk.
Context `{PhysLayout} {St : Type} `{KernelState St}.

Record mm_walk := MmWalk {
  pgd_entry : option (Z → Z → Z → M St Z);
  pud_entry : option (Z → Z → Z → M St Z);
  pmd_entry : option (Z → Z → Z → M St Z);
  pte_entry : option (Z → Z → Z → M St Z);
  pte_hole : option (Z → Z → M St Z);
  hugetlb_entry : option (Z → Z → Z → Z → M St Z);
  walk_mm : option Z;
}.

(** A callback that may be missing. *)
Definition call3 (f : option (Z → Z → Z → M St Z)) (p addr next : Z) : M St Z :=
  match f with Some f => f p addr next | None => mret 0 end.

Definition call_hole (walk : mm_walk) (addr next : Z) : M St Z :=
  match pte_hole walk with Some f => f addr next | None => mret 0 end.

Definition is_some {A} (o : option A) : bool := match o with Some _ => true | None => false end.

Fixpoint walk_pte_loop (fuel : nat) (entry : Z → Z → Z → M St Z) (pte addr en : Z) : M St Z :=
  match fuel with
  | O => fail NoFuel
  | S fuel =>
      err ← entry pte addr (u32 (addr + PAGE_SIZE));
      if negb (err =? 0) then mret err
      else
        let addr := u32 (addr + PAGE_SIZE) in
        if addr =? en then mret err
        else walk_pte_loop fuel entry (u32 (pte + 4)) addr en
  end.

Definition walk_pte_range (fuel : nat) (pmd addr en : Z) (walk : mm_walk) : M St Z :=
  pte ← liftk (pte_offset_map pmd addr);
  match pte_entry walk with
  | Some entry => walk_pte_loop fuel entry pte addr en
  | None => fail NullDeref
  end.

Definition pmd_none_or_trans_huge_or_clear_bad (pmd : Z) : M St bool :=
  v ← liftk (kread pmd);
  if pmd_none v then mret true
  else if pmd_bad v then liftk (pmd_clear pmd);; mret true
  else mret false.

(** The loop; [goto again] repeats it for the same entry. *)
Fixpoint walk_pmd_loop (fuel : nat) (pmd addr en : Z) (walk : mm_walk) : M St Z :=
  match fuel with
  | O => fail NoFuel
  | S fuel =>
      let next := pmd_addr_end addr en in
      let continue err :=
        if next =? en then mret err else walk_pmd_loop fuel (u32 (pmd + 4)) next en walk in
      v ← liftk (kread pmd);
      if pmd_none v then
        err ← call_hole walk addr next;
        if negb (err =? 0) then mret err else continue err
      else
        err ← call3 (pmd_entry walk) pmd addr next;
        if negb (err =? 0) then mret err
        else if negb (is_some (pte_entry walk)) then continue err
        else
          again ← pmd_none_or_trans_huge_or_clear_bad pmd;
          if again : bool then walk_pmd_loop fuel pmd addr en walk
          else
            err ← walk_pte_range fuel pmd addr next walk;
            if negb (err =? 0) then mret err else continue err
  end.

Definition walk_pmd_range (fuel : nat) (pud addr en : Z) (walk : mm_walk) : M St Z :=
  walk_pmd_loop fuel (pmd_offset pud addr) addr en walk.

(** [pud_none_or_clear_bad] is false as the level is folded. *)
Fixpoint walk_pud_loop (fuel : nat) (pud addr en : Z) (walk : mm_walk) : M St Z :=
  match fuel with
  | O => fail NoFuel
  | S fuel' =>
      let next := pud_addr_end addr en in
      let continue err :=
        if next =? en then mret err else walk_pud_loop fuel' (u32 (pud + 8)) next en walk in
      if pud_none pud || pud_bad pud then
        err ← call_hole walk addr next;
        if negb (err =? 0) then mret err else continue err
      else
        err ← call3 (pud_entry walk) pud addr next;
        err ← (if (err =? 0) && (is_some (pmd_entry walk) || is_some (pte_entry walk))
               then walk_pmd_range fuel pud addr next walk else mret err);
        if negb (err =? 0) then mret err else continue err
  end.

Definition walk_pud_range (fuel : nat) (pgd addr en : Z) (walk : mm_walk) : M St Z :=
  walk_pud_loop fuel (pud_offset pgd addr) addr en walk.

(** The area is mapped without page structures and contains [addr]. *)
Definition pfnmap_at (addr : Z) (v : vma) : bool :=
  (vm_start v <=? addr) && negb (Z.land (vm_flags v) VM_PFNMAP =? 0).

(** The kernel has no huge pages: [is_vm_hugetlb_page] is 0 and
    [walk_hugetlb_range] does nothing. *)
Definition is_vm_hugetlb_page (v : vma) : bool := false.

Definition walk_hugetlb_range (addr en : Z) : M St Z := mret 0.

(** The part of the loop of [walk_page_range] after the special cases;
    [continue] is the rest of the loop. *)
Definition walk_page_entry (fuel : nat) (continue : Z → Z → Z → M St Z) (pgd addr next : Z)
    (walk : mm_walk) : M St Z :=
  if pgd_none pgd || pgd_bad pgd then
    err ← call_hole walk addr next;
    if negb (err =? 0) then mret err else continue (u32 (pgd + 8)) next err
  else
    err ← call3 (pgd_entry walk) pgd addr next;
    err ← (if (err =? 0) && (is_some (pud_entry walk) || is_some (pmd_entry walk) || is_some (pte_entry walk))
           then walk_pud_range fuel pgd addr next walk else mret err);
    if negb (err =? 0) then mret err else continue (u32 (pgd + 8)) next err.

Fixpoint walk_page_loop (fuel : nat) (m pgd addr en : Z) (walk : mm_walk) : M St Z :=
  match fuel with
  | O => fail NoFuel
  | S fuel' =>
      let next := pgd_addr_end addr en in
      let continue pgd next err :=
        if next =? en then mret err else walk_page_loop fuel' m pgd next en walk in
      found ← liftk (find_vma (Some m) addr);
      area ← match found with
             | None => mret None
             | Some a => v ← liftk (get_vma a); mret (Some v)
             end;
      match area with
      | Some v =>
          if pfnmap_at addr v then
            d ← liftk (get_mm m);
            continue (pgd_offset (ArmPgtable.pgd d) (vm_end v)) (vm_end v) 0
          else if is_some (hugetlb_entry walk) && (vm_start v <=? addr) && is_vm_hugetlb_page v then
            let next := if vm_end v <? next then vm_end v else next in
            err ← walk_hugetlb_range addr next;
            if negb (err =? 0) then mret err
            else d ← liftk (get_mm m); continue (pgd_offset (ArmPgtable.pgd d) next) next err
          else walk_page_entry fuel continue pgd addr next walk
      | None => walk_page_entry fuel continue pgd addr next walk
      end
  end.

Definition walk_page_range (fuel : nat) (addr en : Z) (walk : mm_walk) : M St Z :=
  if en <=? addr then mret 0
  else match walk_mm walk with
       | None => mret (- EINVAL)
       | Some m => d ← liftk (get_mm m); walk_page_loop fuel m (pgd_offset (ArmPgtable.pgd d) addr) addr en walk
       end.

(** ** Specification of a walk over the entries of the first level *)

(** The parts of the range [addr, en) that each entry of the first level maps. *)
Fixpoint segments (n : nat) (addr en : Z) : list (Z * Z) :=
  match n with
  | O => []
  | S n =>
      let next := pgd_addr_end addr en in
      (addr, next) :: if next =? en then [] else segments n next en
  end.

(** Number of entries of the first level that map the range. *)
Definition entries (addr en : Z) : nat := Z.to_nat (pgd_index (en - 1) - pgd_index addr + 1).

(** The segments follow each other from [addr] to [en], each within one entry. *)
Fixpoint tiles (addr en : Z) (l : list (Z * Z)) : Prop :=
  match l with
  | [] => addr = en
  | (a, b) :: l => a = addr ∧ a < b ∧ pgd_index a = pgd_index (b - 1) ∧ tiles b en l
  end.

Lemma pgd_next addr en : 0 <= addr < en → en < 2 ^ 32 →
  addr < pgd_addr_end addr en <= en ∧ pgd_index (pgd_addr_end addr en - 1) = pgd_index addr ∧
  (pgd_addr_end addr en = en ∨ pgd_index (pgd_addr_end addr en) = pgd_index addr + 1).
Proof.
  intros Ha He. rewrite pgd_addr_end_eq, !pgd_index_eq by done.
  assert (PGDIR_SIZE = 2097152) as -> by reflexivity.
  pose proof (Z.div_mod addr 2097152). pose proof (Z.mod_pos_bound addr 2097152).
  set (q := addr / 2097152) in *. split; [lia|].
  destruct (Z.min_spec en (2097152 * (q + 1))) as [[Hlt ->]|[Hge ->]].
  - split; [|by left]. symmetry. apply (Z.div_unique _ _ _ (en - 1 - 2097152 * q)); lia.
  - split; [symmetry; apply (Z.div_unique _ _ _ 2097151); lia|]. right.
    symmetry. apply (Z.div_unique _ _ _ 0); lia.
Qed.

Lemma pgd_index_mono a b : a <= b → pgd_index a <= pgd_index b.
Proof. intros. rewrite !pgd_index_eq. apply Z.div_le_mono; [done|lia]. Qed.

Lemma segments_tile n addr en : 0 <= addr < en → en < 2 ^ 32 → (entries addr en <= n)%nat →
  tiles addr en (segments n addr en).
Proof.
  revert addr. induction n as [|n IH]; intros addr Ha He Hn.
  - unfold entries in Hn. pose proof (pgd_index_mono addr (en - 1)). lia.
  - destruct (pgd_next addr en Ha He) as (H1 & H2 & H3). simpl. split_and!; [done|lia|by symmetry|].
    destruct (Z.eqb_spec (pgd_addr_end addr en) en) as [->|Hne]; [done|].
    apply IH; [lia|done|]. unfold entries in *. destruct H3 as [H3|H3]; [lia|]. rewrite H3.
    pose proof (pgd_index_mono (pgd_addr_end addr en) (en - 1)). lia.
Qed.

(** Call [f] on the present entries of the first level, in order, up to the first
    error; [p] is the page directory of the address space [m], where each address
    is looked up. *)
Fixpoint visit (m p : Z) (f : Z → Z → Z → M St Z) (l : list (Z * Z)) : M St Z :=
  match l with
  | [] => mret 0
  | (a, b) :: l =>
      _ ← liftk (find_vma (Some m) a);
      v ← liftk (kread (pgd_offset p a));
      err ← (if pmd_none v then mret 0 else f (pgd_offset p a) a b);
      if negb (err =? 0) then mret err else visit m p f l
  end.

(** A walk that only looks at the entries of the first level. *)
Definition pmd_walk (m : Z) (f : Z → Z → Z → M St Z) : mm_walk :=
  MmWalk None None (Some f) None None None (Some m).

(** The address space [m] has the page directory [p], and no area without page
    structures contains an address of the range. *)
Definition walkable (m p lo hi : Z) (s : St) : Prop :=
  ∃ d, mm_ok (kern s) m d ∧ ArmPgtable.pgd d = p ∧
    ∀ addr v a, lo <= addr < hi → first_above (vmas (kern s)) addr (inorder (mm_rb d)) = Some v →
      vmas (kern s) !! v = Some a → pfnmap_at addr a = false.

Lemma liftk_Ok {A} (m : M kst A) s a k : m (kern s) = Ok (a, k) → liftk m s = Ok (a, set_kern k s).
Proof. unfold liftk. by intros ->. Qed.

Lemma first_above_elem vm addr vs v : first_above vm addr vs = Some v → v ∈ vs ∧ is_Some (vm !! v).
Proof.
  induction vs as [|w vs IH]; simpl; [done|]. destruct (vm !! w) eqn:E; [|done].
  destruct (addr <? vm_end _); intros Hf; [simplify_eq; split; [left|by rewrite E]|].
  destruct (IH Hf). split; [by right|done].
Qed.

Lemma cached_vmas m d v k : vmas (cached m d v k) = vmas k.
Proof. by destruct v. Qed.

Lemma cached_words m d v k : words (cached m d v k) = words k.
Proof. by destruct v. Qed.

Lemma cached_ok m d k addr :
  mm_ok k m d → ∃ d', mm_ok (cached m d (first_above (vmas k) addr (inorder (mm_rb d))) k) m d' ∧
    ArmPgtable.pgd d' = ArmPgtable.pgd d ∧ mm_rb d' = mm_rb d.
Proof.
  intros [M1 M2 M3]. destruct (first_above _ _ _) as [v|] eqn:E; [|by exists d].
  exists (Mm (ArmPgtable.pgd d) (mm_rb d) (Some v) (nr_ptes d)). split; [|done]. split; simpl.
  - apply lookup_insert_eq.
  - done.
  - intros c [= <-]. by apply first_above_elem in E as [??].
Qed.

(** The step of the walk that looks up the area of an address. *)
Lemma walkable_find m p lo hi s addr :
  walkable m p lo hi s → lo <= addr < hi →
  ∃ found s', liftk (find_vma (Some m) addr) s = Ok (found, s') ∧ walkable m p lo hi s' ∧
    words (kern s') = words (kern s) ∧
    match found with
    | None => True
    | Some v => ∃ a, vmas (kern s') !! v = Some a ∧ pfnmap_at addr a = false
    end.
Proof.
  intros (d & Hd & Hp & Hno) Ha. set (v := first_above (vmas (kern s)) addr (inorder (mm_rb d))).
  exists v, (set_kern (cached m d v (kern s)) s).
  split; [apply liftk_Ok, find_vma_run, Hd|]. rewrite kern_set.
  split; [|split; [apply cached_words|]].
  - destruct (cached_ok m d (kern s) addr Hd) as (d' & Hd' & Ep & Er). exists d'. rewrite kern_set.
    split; [done|]. split; [congruence|]. rewrite Er, cached_vmas. apply Hno.
  - subst v. destruct (first_above _ _ _) as [w|] eqn:E; [|done]. destruct (first_above_elem _ _ _ _ E) as [_ [a Hv]]. exists a.
    rewrite cached_vmas. split; [done|]. by eapply Hno.
Qed.

(** What the inner loops do for one entry of the first level. *)
Lemma walk_pud_one m f fuel pgd addr next s :
  walk_pud_range (S fuel) pgd addr next (pmd_walk m f) s =
  (v ← liftk (kread pgd); if pmd_none v then mret 0 else f pgd addr next) s.
Proof.
  unfold walk_pud_range, pud_offset. simpl. unfold pud_addr_end, walk_pmd_range, pmd_offset. simpl.
  unfold pmd_addr_end. rewrite Z.eqb_refl. unfold mbind, M_bind, mret, M_ret.
  cbn [Z.eqb andb]. destruct (liftk (kread pgd) s) as [[v s1]|]; [|done].
  destruct (pmd_none v); [done|]. destruct (f pgd addr next s1) as [[err s2]|]; [|done].
  destruct (err =? 0) eqn:E; simpl; by rewrite E.
Qed.

Lemma walk_page_entry_one m f fuel continue pgd addr next s :
  walk_page_entry (S fuel) continue pgd addr next (pmd_walk m f) s =
  (v ← liftk (kread pgd);
   err ← (if pmd_none v then mret 0 else f pgd addr next);
   if negb (err =? 0) then mret err else continue (u32 (pgd + 8)) next err) s.
Proof.
  unfold walk_page_entry. cbn [pgd_none pgd_bad orb call3 pgd_entry pmd_walk pud_entry pmd_entry pte_entry is_some].
  rewrite (bind_Ok _ _ _ 0 s) by done. cbn [Z.eqb andb]. unfold mbind at 1, M_bind at 1.
  rewrite walk_pud_one. unfold mbind, M_bind. by destruct (liftk (kread pgd) s) as [[v s1]|].
Qed.

Lemma pgd_offset_next p a b : pgd_index b = pgd_index a + 1 → pgd_offset p b = u32 (pgd_offset p a + 8).
Proof.
  intros E. unfold pgd_offset. rewrite E. unfold u32. rewrite Zplus_mod_idemp_l. f_equal. lia.
Qed.

(** One step of the walk. *)
Lemma walk_page_step m p f fuel addr hi s :
  0 <= addr < hi → hi < 2 ^ 32 → walkable m p addr (addr + 1) s →
  walk_page_loop (S fuel) m (pgd_offset p addr) addr hi (pmd_walk m f) s =
  (_ ← liftk (find_vma (Some m) addr);
   v ← liftk (kread (pgd_offset p addr));
   err ← (if pmd_none v then mret 0 else f (pgd_offset p addr) addr (pgd_addr_end addr hi));
   if negb (err =? 0) then mret err
   else if pgd_addr_end addr hi =? hi then mret 0
   else walk_page_loop fuel m (pgd_offset p (pgd_addr_end addr hi)) (pgd_addr_end addr hi) hi (pmd_walk m f)) s.
Proof.
  intros Ha He Hw. cbn [walk_page_loop].
  destruct (walkable_find m p addr (addr + 1) s addr Hw ltac:(lia)) as (found & s1 & Hfind & Hw1 & _ & Hv).
  rewrite !(bind_Ok _ _ _ _ _ Hfind).
  set (continue := λ pgd next err : Z, if next =? hi then _ else _).
  transitivity (walk_page_entry (S fuel) continue (pgd_offset p addr) addr (pgd_addr_end addr hi) (pmd_walk m f) s1).
  { destruct found as [v|]; [|done]. destruct Hv as (a & Ha1 & Hpf).
    rewrite (bind_Ok _ _ _ (Some a) s1).
    - by rewrite Hpf.
    - unfold get_vma. erewrite bind_Ok; [done|]. unfold liftk, mbind, M_bind, gets, of_option. rewrite Ha1.
      unfold mret, M_ret. by rewrite set_kern_kern. }
  rewrite walk_page_entry_one. unfold mbind, M_bind, mret, M_ret.
  destruct (liftk (kread (pgd_offset p addr)) s1) as [[v s2]|]; [|done].
  set (act := (if pmd_none v then λ s : St, Ok (0, s) else f (pgd_offset p addr) addr (pgd_addr_end addr hi)) : M St Z).
  destruct (act s2) as [[err s3]|]; [|done].
  destruct (Z.eqb_spec err 0) as [->|]; simpl; [|done]. unfold continue.
  destruct (pgd_next addr hi ltac:(lia) He) as (N1 & N2 & N3).
  destruct (Z.eqb_spec (pgd_addr_end addr hi) hi) as [|Hne]; [done|].
  destruct N3 as [?|N3]; [lia|]. by rewrite <-(pgd_offset_next _ _ _ N3).
Qed.

Lemma walkable_weaken m p lo hi lo' hi' s :
  lo <= lo' → hi' <= hi → walkable m p lo hi s → walkable m p lo' hi' s.
Proof.
  intros H1 H2 (d & Hd & Hp & Hno). exists d. split_and!; [done..|]. intros addr v a Ha. apply Hno. lia.
Qed.

Section pmd_walk.
Context (m p lo hi : Z) (f : Z → Z → Z → M St Z).
Context (Hf : ∀ a b s err s', walkable m p lo hi s → f (pgd_offset p a) a b s = Ok (err, s') →
  walkable m p lo hi s').

Lemma walk_page_loop_visits fuel addr s :
  0 <= lo <= addr → addr < hi → hi < 2 ^ 32 → (entries addr hi <= fuel)%nat → walkable m p lo hi s →
  walk_page_loop fuel m (pgd_offset p addr) addr hi (pmd_walk m f) s =
  visit m p f (segments fuel addr hi) s.
Proof.
  revert addr s. induction fuel as [|fuel IH]; intros addr s Hlo Ha He Hn Hw.
  { unfold entries in Hn. pose proof (pgd_index_mono addr (hi - 1)). lia. }
  rewrite walk_page_step by first [lia|apply (walkable_weaken m p lo hi); [lia|lia|done]]. cbn [segments visit].
  destruct (walkable_find m p lo hi s addr Hw ltac:(lia)) as (found & s1 & Hfind & Hw1 & _ & _).
  rewrite !(bind_Ok _ _ _ _ _ Hfind). unfold mbind, M_bind, mret, M_ret.
  destruct (liftk (kread (pgd_offset p addr)) s1) as [[v s2]|] eqn:Ev; [|done].
  assert (walkable m p lo hi s2) as Hw2.
  { unfold liftk, kread, mbind, M_bind, gets, of_option in Ev. destruct (words _ !! _); [|done].
    unfold mret, M_ret in Ev. rewrite set_kern_kern in Ev. by simplify_eq. }
  destruct (pgd_next addr hi ltac:(lia) He) as (N1 & N2 & N3).
  set (act := (if pmd_none v then λ s : St, Ok (0, s) else f (pgd_offset p addr) addr (pgd_addr_end addr hi)) : M St Z).
  destruct (act s2) as [[err s3]|] eqn:Ef; [|done]. unfold act in Ef.
  assert (walkable m p lo hi s3) as Hw3 by (destruct (pmd_none v); [by simplify_eq|by eapply Hf]).
  destruct (Z.eqb_spec err 0) as [->|]; simpl; [|done].
  destruct (Z.eqb_spec (pgd_addr_end addr hi) hi) as [|Hne]; [done|]. destruct N3 as [?|N3]; [lia|].
  apply IH; [lia..|done| |done].
  unfold entries in *. rewrite N3. pose proof (pgd_index_mono (pgd_addr_end addr hi) (hi - 1)). lia.
Qed.
End pmd_walk.

End walk.
Arguments mm_walk St : clear implicits.

(** A walk of an address space with two present entries and a hole; the callback
    records the entries. *)
Record trace_st := TraceSt { t_kern : kst; t_log : list (Z * Z * Z) }.

#[export] Instance trace_kernel : KernelState trace_st.
Proof. refine {| kern := t_kern; set_kern k s := TraceSt k (t_log s) |}; [done|by intros []|done]. Defined.

#[export] Instance demo_phys : PhysLayout := {| PHYS_OFFSET := 0 |}.

Definition demo_tables : gmap Z Z := {[ 0x4000 := 0x10831; 0x4008 := 0; 0x4010 := 0x11831 ]}.

Definition demo_trace : trace_st := TraceSt (KSt demo_tables [] demo_vmas {[ 9 := demo_mm ]}) [].

Definition record_entry (pmd addr next : Z) : M trace_st Z := λ s,
  Ok (0, TraceSt (t_kern s) (t_log s ++ [(pmd, addr, next)])).

Lemma demo_walkable : walkable 9 0xc0004000 0x1000 0x500000 demo_trace.
Proof.
  exists demo_mm. split; [by destruct demo_mm_ok; split|]. split; [done|].
  intros addr v a _ _ Ha. simpl in Ha. unfold demo_vmas in Ha.
  apply lookup_insert_Some in Ha as [[_ <-]|[_ Ha]]; [apply andb_false_r|].
  apply lookup_singleton_Some in Ha as [_ <-]. apply andb_false_r.
Qed.

