(* ===== verification/Remap.v ===== *)
(** * Mapping page frames into a user address space

    Models [remap_pfn_range] of [mm/memory.c] with its loops over the levels of the
    page table.  For one page it enters the frame in the table of the address,
    allocating the table if needed, and stops at [BUG_ON] when the entry is in
    use. *)

From S2P Require Import Prelude ArmPgtable Vma PageWalk.

Definition VM_SHARED : Z := 0x8.
Definition VM_MAYWRITE : Z := 0x20.
Definition VM_IO : Z := 0x4000.
Definition VM_RESERVED : Z := 0x80000.
Definition VM_PFN_AT_MMAP : Z := 0x40000000.

Definition PAGE_ALIGN (a : Z) : Z := Z.land (u32 (a + (PAGE_SIZE - 1))) PAGE_MASK.

Definition is_cow_mapping (flags : Z) : bool :=
  Z.land flags (Z.lor VM_SHARED VM_MAYWRITE) =? VM_MAYWRITE.

Definition set_vm_flags (f : Z) (v : vma) : vma :=
  Vma (vm_mm v) (vm_start v) (vm_end v) (vm_page_prot v) f (vm_pgoff v).

Definition set_vm_pgoff (o : Z) (v : vma) : vma :=
  Vma (vm_mm v) (vm_start v) (vm_end v) (vm_page_prot v) (vm_flags v) o.

(** This architecture does not track the mappings. *)
Definition track_pfn_vma_new : Z := 0.

Section remap.
Context `{PhysLayout}.

Fixpoint remap_pte_loop (fuel : nat) (pte addr en pfn prot : Z) : M kst Z :=
  match fuel with
  | O => fail NoFuel
  | S fuel =>
      v ← kread pte;
      bug_on 2207 (negb (pte_none v));;
      set_pte_at addr pte (pte_mkspecial (pfn_pte pfn prot));;
      let pfn := u32 (pfn + 1) in
      let addr := u32 (addr + PAGE_SIZE) in
      if addr =? en then mret 0 else remap_pte_loop fuel (u32 (pte + 4)) addr en pfn prot
  end.

Definition remap_pte_range (fuel : nat) (m pmd addr en pfn prot : Z) : M kst Z :=
  pte ← pte_alloc_map_lock m pmd addr;
  match pte with
  | None => mret (- ENOMEM)
  | Some pte => remap_pte_loop fuel pte addr en pfn prot
  end.

Fixpoint remap_pmd_loop (fuel : nat) (m pmd addr en pfn prot : Z) : M kst Z :=
  match fuel with
  | O => fail NoFuel
  | S fuel' =>
      let next := pmd_addr_end addr en in
      err ← remap_pte_range fuel m pmd addr next (u32 (pfn + Z.shiftr addr PAGE_SHIFT)) prot;
      if negb (err =? 0) then mret (- ENOMEM)
      else if next =? en then mret 0 else remap_pmd_loop fuel' m (u32 (pmd + 4)) next en pfn prot
  end.

(** [pmd_alloc] and [pud_alloc] return the entry of the folded level. *)
Definition remap_pmd_range (fuel : nat) (m pud addr en pfn prot : Z) : M kst Z :=
  let pfn := u32 (pfn - Z.shiftr addr PAGE_SHIFT) in
  remap_pmd_loop fuel m (pmd_offset pud addr) addr en pfn prot.

Fixpoint remap_pud_loop (fuel : nat) (m pud addr en pfn prot : Z) : M kst Z :=
  match fuel with
  | O => fail NoFuel
  | S fuel' =>
      let next := pud_addr_end addr en in
      err ← remap_pmd_range fuel m pud addr next (u32 (pfn + Z.shiftr addr PAGE_SHIFT)) prot;
      if negb (err =? 0) then mret (- ENOMEM)
      else if next =? en then mret 0 else remap_pud_loop fuel' m (u32 (pud + 8)) next en pfn prot
  end.

Definition remap_pud_range (fuel : nat) (m pgd addr en pfn prot : Z) : M kst Z :=
  let pfn := u32 (pfn - Z.shiftr addr PAGE_SHIFT) in
  remap_pud_loop fuel m (pud_offset pgd addr) addr en pfn prot.

Fixpoint remap_pgd_loop (fuel : nat) (m pgd addr en pfn prot : Z) : M kst Z :=
  match fuel with
  | O => fail NoFuel
  | S fuel' =>
      let next := pgd_addr_end addr en in
      err ← remap_pud_range fuel m pgd addr next (u32 (pfn + Z.shiftr addr PAGE_SHIFT)) prot;
      if negb (err =? 0) then mret err
      else if next =? en then mret err else remap_pgd_loop fuel' m (u32 (pgd + 8)) next en pfn prot
  end.

Definition remap_pfn_range (fuel : nat) (area addr pfn size prot : Z) : M kst Z :=
  let en := u32 (addr + PAGE_ALIGN size) in
  v ← get_vma area;
  let whole := (addr =? vm_start v) && (en =? vm_end v) in
  if negb whole && is_cow_mapping (vm_flags v) then mret (- EINVAL)
  else
    let v := if whole then set_vm_flags (Z.lor (vm_flags v) VM_PFN_AT_MMAP) (set_vm_pgoff pfn v) else v in
    let v := set_vm_flags (Z.lor (vm_flags v) (Z.lor (Z.lor VM_IO VM_RESERVED) VM_PFNMAP)) v in
    put_vma area v;;
    if negb (track_pfn_vma_new =? 0) then mret (- EINVAL)
    else
      bug_on 2313 (en <=? addr);;
      d ← get_mm (vm_mm v);
      let pfn := u32 (pfn - Z.shiftr addr PAGE_SHIFT) in
      remap_pgd_loop fuel (vm_mm v) (pgd_offset (ArmPgtable.pgd d) addr) addr en pfn prot.

(** ** One page *)

(** The page at [addr] lies within what one entry of the first level maps. *)
Definition one_page (addr : Z) : Prop :=
  0 <= addr ∧ addr + PAGE_SIZE < 2 ^ 32 ∧ pgd_index (addr + PAGE_SIZE - 1) = pgd_index addr.

Lemma one_page_end addr : one_page addr → pgd_addr_end addr (addr + PAGE_SIZE) = addr + PAGE_SIZE.
Proof.
  intros (H1 & H2 & H3). assert (PAGE_SIZE = 4096) as E by reflexivity.
  destruct (pgd_next addr (addr + PAGE_SIZE) ltac:(lia) H2) as (N1 & _ & [N|N]); [done|].
  pose proof (pgd_index_mono (pgd_addr_end addr (addr + PAGE_SIZE)) (addr + PAGE_SIZE - 1)). lia.
Qed.

Lemma u32_sub_add a k : u32 (u32 (a - k) + k) = u32 a.
Proof. unfold u32. rewrite Zplus_mod_idemp_l. f_equal. lia. Qed.

Lemma u32_sub a k : u32 (u32 a - k) = u32 (a - k).
Proof. unfold u32. by rewrite Zminus_mod_idemp_l. Qed.

(** The loops over the levels come down to one call of [remap_pte_range]. *)
Lemma remap_levels fuel m p addr pfn prot s :
  one_page addr →
  remap_pgd_loop (S fuel) m p addr (addr + PAGE_SIZE) (u32 (pfn - Z.shiftr addr PAGE_SHIFT)) prot s =
  (err ← remap_pte_range (S fuel) m p addr (addr + PAGE_SIZE) (u32 pfn) prot;
   mret (if err =? 0 then 0 else - ENOMEM)) s.
Proof.
  intros Ho. cbn [remap_pgd_loop]. rewrite one_page_end by done.
  unfold remap_pud_range. cbn [remap_pud_loop]. unfold remap_pmd_range. cbn [remap_pmd_loop].
  unfold pud_addr_end, pmd_addr_end, pud_offset, pmd_offset. rewrite !u32_sub_add, Z.eqb_refl.
  unfold mbind, M_bind, mret, M_ret.
  rewrite !(u32_id (u32 _)) by apply u32_range.
  destruct (remap_pte_range _ _ _ _ _ _ _ s) as [[err s1]|]; [|done].
  by destruct (err =? 0).
Qed.

Lemma kread_run s a v : words s !! __virt_to_phys a = Some v → kread a s = Ok (v, s).
Proof. intros E. unfold kread, mbind, M_bind, gets, of_option. by rewrite E. Qed.

Lemma kwrite_run s a v :
  is_Some (words s !! __virt_to_phys a) →
  kwrite a v s = Ok ((), set_words (<[__virt_to_phys a := v]> (words s)) s).
Proof. intros [x E]. unfold kwrite, mbind, M_bind, gets. by rewrite E. Qed.

(** The physical address of the entry for [addr] in the table in frame [t]. *)
Definition pte_slot (t addr : Z) : Z := t * PAGE_SIZE + 4 * pte_index addr.

Lemma pte_index_range addr : 0 <= pte_index addr < 512.
Proof. rewrite pte_index_eq. apply Z.mod_pos_bound. lia. Qed.

Lemma pte_slot_virt e addr : is_u32 e →
  __virt_to_phys (u32 (pmd_page_vaddr e + 4 * pte_index addr)) = pte_slot (pmd_page e) addr ∧
  __virt_to_phys (u32 (u32 (pmd_page_vaddr e + 4 * pte_index addr) + 2048)) = pte_slot (pmd_page e) addr + 2048.
Proof.
  intros He. pose proof (pmd_page_range e He). pose proof (pte_index_range addr).
  assert (PAGE_SIZE = 4096) as E by reflexivity. rewrite pmd_page_vaddr_eq by done. unfold pte_slot. split.
  - apply virt_phys_add; unfold is_u32; lia.
  - replace (u32 (u32 (__phys_to_virt (pmd_page e * PAGE_SIZE) + 4 * pte_index addr) + 2048))
      with (u32 (__phys_to_virt (pmd_page e * PAGE_SIZE) + 4 * pte_index addr + 2048))
      by (unfold u32 at 2 3; by rewrite Zplus_mod_idemp_l).
    rewrite <-Z.add_assoc. rewrite virt_phys_add by (unfold is_u32; lia). lia.
Qed.

(** The words of an entry that maps [pfn] with [prot] at [addr]. *)
Definition ext_of (addr pte : Z) : Z :=
  if (addr <? TASK_SIZE) && pte_present_user pte then PTE_EXT_NG else 0.

Definition enter_pte (t addr pte : Z) (w : gmap Z Z) : gmap Z Z :=
  <[pte_slot t addr + 2048 := hw_pte pte (ext_of addr pte)]> (<[pte_slot t addr := pte]> w).

(** The entry is there; it is free or the code stops. *)
Lemma remap_pte_loop_run fuel e addr pfn prot s x :
  one_page addr → is_u32 e → words s !! pte_slot (pmd_page e) addr = Some x →
  is_Some (words s !! (pte_slot (pmd_page e) addr + 2048)) →
  remap_pte_loop (S fuel) (u32 (pmd_page_vaddr e + 4 * pte_index addr)) addr (addr + PAGE_SIZE) pfn prot s =
  if x =? 0 then Ok (0, set_words (enter_pte (pmd_page e) addr (pfn_pte pfn prot) (words s)) s)
  else Err (BugOn 2207).
Proof.
  intros (Ho1 & Ho2 & _) He Hx Hhw. destruct (pte_slot_virt e addr He) as [E1 E2]. cbn [remap_pte_loop].
  rewrite (bind_Ok _ _ _ x s) by (apply kread_run; by rewrite E1).
  unfold pte_none. destruct (x =? 0); [|done]. rewrite (bind_Ok _ _ _ () s) by done.
  rewrite u32_id by (unfold is_u32; assert (PAGE_SIZE = 4096) by reflexivity; lia). rewrite Z.eqb_refl.
  unfold set_pte_at, pte_mkspecial, set_pte_ext. fold (ext_of addr (pfn_pte pfn prot)).
  rewrite bind_assoc. rewrite (bind_Ok _ _ _ () (set_words (<[pte_slot (pmd_page e) addr := pfn_pte pfn prot]> (words s)) s))
    by (rewrite kwrite_run by (rewrite E1, Hx; eauto); by rewrite E1).
  erewrite bind_Ok; [done|]. rewrite kwrite_run; rewrite E2; [done|].
  simpl. apply lookup_insert_is_Some. destruct (decide (pte_slot (pmd_page e) addr = pte_slot (pmd_page e) addr + 2048)); [by left|by right].
Qed.

(** ** Allocation of the table *)

Definition in_frame (f a : Z) : Prop := f * PAGE_SIZE <= a < f * PAGE_SIZE + PAGE_SIZE.

Lemma zero_page_in f i w : (i < 1024)%nat → zero_page f w !! (f * PAGE_SIZE + 4 * Z.of_nat i) = Some 0.
Proof.
  intros Hi. unfold zero_page. assert (i ∈ seq 0 1024) as Hin by (apply elem_of_seq; lia). clear Hi.
  induction (seq 0 1024) as [|j l IH]; [by apply elem_of_nil in Hin|]. simpl.
  destruct (decide (i = j)) as [->|Hne]; [apply lookup_insert_eq|].
  rewrite lookup_insert_ne by lia. apply IH. by apply elem_of_cons in Hin as [?|?].
Qed.

Lemma zero_page_out f a w : ¬ in_frame f a → zero_page f w !! a = w !! a.
Proof.
  intros Ha. unfold zero_page. assert (∀ i, i ∈ seq 0 1024 → f * PAGE_SIZE + 4 * Z.of_nat i ≠ a) as Hne.
  { intros i Hi%elem_of_seq <-. apply Ha. unfold in_frame. assert (PAGE_SIZE = 4096) by reflexivity. lia. }
  induction (seq 0 1024) as [|j l IH]; [done|]. simpl.
  rewrite lookup_insert_ne by (apply Hne; by left). apply IH. intros i Hi. apply Hne. by right.
Qed.

(** The entry of the first level for an address, and its second word. *)
Definition pmd_pa (p addr : Z) : Z := __virt_to_phys (pgd_offset p addr).
Definition pmd_pa' (p addr : Z) : Z := __virt_to_phys (u32 (pgd_offset p addr + 4)).

Lemma pmd_pa_ne p addr : pmd_pa p addr ≠ pmd_pa' p addr.
Proof.
  unfold pmd_pa, pmd_pa', __virt_to_phys. set (x := pgd_offset p addr).
  replace (u32 (u32 (x + 4) - PAGE_OFFSET + PHYS_OFFSET)) with (u32 (x - PAGE_OFFSET + PHYS_OFFSET + 4)).
  - unfold u32. Z.div_mod_to_equations. lia.
  - unfold u32. replace (x - PAGE_OFFSET + PHYS_OFFSET + 4) with (x + 4 + (PHYS_OFFSET - PAGE_OFFSET)) by lia.
    rewrite <-Zplus_mod_idemp_l. f_equal. lia.
Qed.

(** What the page tables must be like to map a page at [addr] with directory [p]:
    the entry of the first level is there, and if it is empty the allocator has a
    frame that does not contain it. *)
Record mappable (w : gmap Z Z) (fs : list Z) (p addr : Z) (e : Z) : Prop := Mappable {
  mp_entry : w !! pmd_pa p addr = Some e;
  mp_u32 : is_u32 e;
  mp_free : e = 0 → ∃ f, head fs = Some f ∧ 0 <= f < 2 ^ 20 ∧ is_Some (w !! pmd_pa' p addr) ∧
    ¬ in_frame f (pmd_pa p addr) ∧ ¬ in_frame f (pmd_pa' p addr);
}.

(** The entry and the memory once there is a table. *)
Definition table_entry (fs : list Z) (e : Z) : Z := if e =? 0 then pmd_of (default 0 (head fs)) else e.

Definition table_words (fs : list Z) (p addr e : Z) (w : gmap Z Z) : gmap Z Z :=
  if e =? 0 then
    let f := default 0 (head fs) in
    <[pmd_pa' p addr := u32 (pmd_of f + 1024)]> (<[pmd_pa p addr := pmd_of f]> (zero_page f w))
  else w.

Lemma pmd_of_u32 f : 0 <= f < 2 ^ 20 → is_u32 (pmd_of f) ∧ pmd_of f ≠ 0.
Proof. intros Hf. rewrite pmd_of_eq by done. unfold is_u32. lia. Qed.

Lemma pmd_populate_run s p addr f :
  is_Some (words s !! pmd_pa p addr) → is_Some (words s !! pmd_pa' p addr) →
  pmd_populate (pgd_offset p addr) f s =
    Ok ((), set_words (<[pmd_pa' p addr := u32 (pmd_of f + 1024)]> (<[pmd_pa p addr := pmd_of f]> (words s))) s).
Proof.
  intros H1 H2. unfold pmd_populate, __pmd_populate. fold (pmd_of f).
  erewrite bind_Ok by by apply kwrite_run. fold (pmd_pa p addr).
  rewrite kwrite_run; [done|]. simpl. fold (pmd_pa' p addr).
  destruct (decide (pmd_pa p addr = pmd_pa' p addr)) as [->|Hne]; [rewrite lookup_insert_eq; eauto|].
  by rewrite lookup_insert_ne.
Qed.

Lemma pte_alloc_run s m d p addr e :
  mms s !! m = Some d → mappable (words s) (frames s) p addr e →
  ∃ s', pte_alloc_map_lock m (pgd_offset p addr) addr s =
      Ok (Some (u32 (pmd_page_vaddr (table_entry (frames s) e) + 4 * pte_index addr)), s') ∧
    words s' = table_words (frames s) p addr e (words s) ∧ vmas s' = vmas s ∧
    (∀ m', m' ≠ m → mms s' !! m' = mms s !! m') ∧
    (∃ n, mms s' !! m = Some (Mm (ArmPgtable.pgd d) (mm_rb d) (mmap_cache d) n)).
Proof.
  intros Hm [He Hu Hfree]. unfold pte_alloc_map_lock. rewrite (bind_Ok _ _ _ e s) by by apply kread_run.
  unfold pmd_none, table_entry, table_words. destruct (Z.eqb_spec e 0) as [->|Hne].
  2: { exists s. rewrite (bind_Ok _ _ _ 0 s) by done. simpl. unfold pte_offset_map.
       rewrite bind_assoc, (bind_Ok _ _ _ e s) by by apply kread_run. split_and!; try done.
       exists (nr_ptes d). rewrite Hm. by destruct d. }
  destruct (Hfree eq_refl) as (f & Hf & Hr & Hpa' & Hn & Hn'). destruct (frames s) as [|f' fs] eqn:Ef; [done|].
  simplify_eq/=. unfold __pte_alloc, pte_alloc_one.
  set (s1 := set_frames fs (set_words (zero_page f (words s)) s)).
  set (d' := Mm (ArmPgtable.pgd d) (mm_rb d) (mmap_cache d) (u32 (nr_ptes d + 1))).
  set (s2 := set_mms (<[m := d']> (mms s1)) s1).
  assert (is_Some (zero_page f (words s) !! pmd_pa' p addr)) by by rewrite zero_page_out.
  assert (zero_page f (words s) !! pmd_pa p addr = Some 0) by by rewrite zero_page_out.
  exists (set_words (<[pmd_pa' p addr := u32 (pmd_of f + 1024)]> (<[pmd_pa p addr := pmd_of f]> (words s2))) s2).
  split; [|split_and!; [done..|intros m' Hm'; simpl; by rewrite lookup_insert_ne|eexists; apply lookup_insert_eq]].
  erewrite bind_Ok; [|erewrite bind_Ok by by rewrite Ef]. 
  2: { cbn beta iota. fold s1. rewrite (bind_Ok _ _ _ 0 s1) by by apply kread_run. cbn [pmd_none Z.eqb].
       rewrite (bind_Ok _ _ _ d s1) by (unfold get_mm, mbind, M_bind, gets, of_option; simpl; by rewrite Hm).
       rewrite (bind_Ok _ _ _ () s2) by done. erewrite bind_Ok by (apply pmd_populate_run; by eauto). reflexivity. }
  simpl. unfold pte_offset_map. rewrite bind_assoc. erewrite bind_Ok; [reflexivity|].
  apply kread_run. simpl. fold (pmd_pa p addr).
  rewrite lookup_insert_ne by (apply not_eq_sym, pmd_pa_ne). apply lookup_insert_eq.
Qed.

(** ** Access from user mode

    The memory management unit follows the tables; the Linux entries stand for the
    hardware entries, which agree with them. *)

Definition translate (w : gmap Z Z) (p va : Z) : option Z :=
  e ← w !! __virt_to_phys (pgd_offset p va);
  if pmd_none e then None
  else
    x ← w !! pte_slot (pmd_page e) va;
    if pte_present x then Some (pte_pfn x * PAGE_SIZE + va mod PAGE_SIZE) else None.

Definition user_read (w : gmap Z Z) (p va : Z) : option Z := a ← translate w p va; w !! a.

(** ** Mapping one page *)

Definition whole_area (addr : Z) (v : vma) : bool :=
  (addr =? vm_start v) && (addr + PAGE_SIZE =? vm_end v).

(** The area once frames are mapped in it. *)
Definition pfnmap_vma (addr pfn : Z) (v : vma) : vma :=
  let v := if whole_area addr v
           then set_vm_flags (Z.lor (vm_flags v) VM_PFN_AT_MMAP) (set_vm_pgoff pfn v) else v in
  set_vm_flags (Z.lor (vm_flags v) (Z.lor (Z.lor VM_IO VM_RESERVED) VM_PFNMAP)) v.

Lemma pfnmap_vma_mm addr pfn v : vm_mm (pfnmap_vma addr pfn v) = vm_mm v.
Proof. unfold pfnmap_vma. by destruct (whole_area addr v). Qed.

(** The table for [addr] and the memory once it is there. *)
Definition table_frame (s : kst) (e : Z) : Z := pmd_page (table_entry (frames s) e).
Definition with_table (s : kst) (p addr e : Z) : gmap Z Z := table_words (frames s) p addr e (words s).

Lemma with_table_new s p addr :
  mappable (words s) (frames s) p addr 0 →
  with_table s p addr 0 !! pte_slot (table_frame s 0) addr = Some 0 ∧
  with_table s p addr 0 !! (pte_slot (table_frame s 0) addr + 2048) = Some 0.
Proof.
  intros [_ _ Hf]. destruct (Hf eq_refl) as (f & Hhd & Hr & _ & Hn & Hn').
  unfold with_table, table_words, table_frame, table_entry. rewrite Hhd. cbn [default from_option Z.eqb]. unfold id.
  rewrite pmd_page_of by done. pose proof (pte_index_range addr). assert (PAGE_SIZE = 4096) as E by reflexivity.
  assert (∀ i, 0 <= i < 1024 → ∀ x y, <[pmd_pa' p addr := x]> (<[pmd_pa p addr := y]> (zero_page f (words s)))
    !! (f * PAGE_SIZE + 4 * i) = Some 0) as Hz.
  { intros i Hi x y. rewrite !lookup_insert_ne.
    - rewrite <-(Z2Nat.id i) by lia. apply zero_page_in. lia.
    - intros Eq. apply Hn. rewrite Eq. unfold in_frame. lia.
    - intros Eq. apply Hn'. rewrite Eq. unfold in_frame. lia. }
  unfold pte_slot. split; [by apply Hz; lia|].
  replace (f * PAGE_SIZE + 4 * pte_index addr + 2048) with (f * PAGE_SIZE + 4 * (pte_index addr + 512)) by lia.
  apply Hz. lia.
Qed.

Lemma table_entry_u32 w fs p addr e : mappable w fs p addr e →
  is_u32 (table_entry fs e) ∧ table_entry fs e ≠ 0.
Proof.
  intros [_ Hu Hf]. unfold table_entry. destruct (Z.eqb_spec e 0) as [->|]; [|done].
  destruct (Hf eq_refl) as (f & -> & Hr & _). by apply pmd_of_u32.
Qed.

Lemma remap_pfn_range_run fuel area v d addr pfn prot s e x :
  vmas s !! area = Some v → mms s !! vm_mm v = Some d → one_page addr → is_u32 pfn →
  whole_area addr v || negb (is_cow_mapping (vm_flags v)) = true →
  mappable (words s) (frames s) (ArmPgtable.pgd d) addr e →
  with_table s (ArmPgtable.pgd d) addr e !! pte_slot (table_frame s e) addr = Some x →
  is_Some (with_table s (ArmPgtable.pgd d) addr e !! (pte_slot (table_frame s e) addr + 2048)) →
  if x =? 0 then
    ∃ s', remap_pfn_range (S fuel) area addr pfn PAGE_SIZE prot s = Ok (0, s') ∧
      words s' = enter_pte (table_frame s e) addr (pfn_pte pfn prot) (with_table s (ArmPgtable.pgd d) addr e) ∧
      vmas s' = <[area := pfnmap_vma addr pfn v]> (vmas s) ∧
      (∀ m', m' ≠ vm_mm v → mms s' !! m' = mms s !! m') ∧
      (∃ n, mms s' !! vm_mm v = Some (Mm (ArmPgtable.pgd d) (mm_rb d) (mmap_cache d) n))
  else remap_pfn_range (S fuel) area addr pfn PAGE_SIZE prot s = Err (BugOn 2207).
Proof.
  intros Hv Hd Ho Hpfn Hcow Hmap Hx Hhw. pose proof Ho as (Ho1 & Ho2 & _).
  assert (PAGE_SIZE = 4096) as Eps by reflexivity.
  set (v' := pfnmap_vma addr pfn v). set (s1 := set_vmas (<[area := v']> (vmas s)) s).
  assert (remap_pfn_range (S fuel) area addr pfn PAGE_SIZE prot s =
    (err ← remap_pte_range (S fuel) (vm_mm v) (pgd_offset (ArmPgtable.pgd d) addr) addr (addr + PAGE_SIZE) pfn prot;
     mret (if err =? 0 then 0 else - ENOMEM)) s1) as ->.
  { unfold remap_pfn_range. change (PAGE_ALIGN PAGE_SIZE) with PAGE_SIZE.
    rewrite u32_id by (unfold is_u32; lia).
    rewrite (bind_Ok _ _ _ v s) by (unfold get_vma, mbind, M_bind, gets, of_option; by rewrite Hv).
    fold (whole_area addr v). destruct (negb (whole_area addr v) && is_cow_mapping (vm_flags v)) eqn:E.
    { by destruct (whole_area addr v), (is_cow_mapping (vm_flags v)). }
    rewrite (bind_Ok _ _ _ () s1) by done. change (track_pfn_vma_new =? 0) with true. cbn [negb].
    rewrite (bind_Ok _ _ _ () s1) by (unfold bug_on; by destruct (Z.leb_spec (addr + PAGE_SIZE) addr); [lia|]).
    assert (∀ b : bool, vm_mm (set_vm_flags (Z.lor (vm_flags (if b then set_vm_flags (Z.lor (vm_flags v) VM_PFN_AT_MMAP)
      (set_vm_pgoff pfn v) else v)) (Z.lor (Z.lor VM_IO VM_RESERVED) VM_PFNMAP)) (if b then set_vm_flags
      (Z.lor (vm_flags v) VM_PFN_AT_MMAP) (set_vm_pgoff pfn v) else v)) = vm_mm v) as -> by by intros [].
    rewrite (bind_Ok _ _ _ d s1) by (unfold get_mm, mbind, M_bind, gets, of_option; simpl; by rewrite Hd).
    rewrite remap_levels by done. by rewrite (u32_id pfn). }
  destruct (pte_alloc_run s1 (vm_mm v) d (ArmPgtable.pgd d) addr e Hd Hmap) as (s2 & Hrun & Hw & Hvm & Hmm & Hmm').
  change (frames s1) with (frames s) in Hrun, Hw. change (words s1) with (words s) in Hw.
  unfold remap_pte_range. destruct (table_entry_u32 _ _ _ _ _ Hmap) as [Hu _].
  pose proof (remap_pte_loop_run fuel (table_entry (frames s) e) addr pfn prot s2 x Ho Hu) as Hl.
  rewrite Hw in Hl. specialize (Hl Hx Hhw). unfold mbind, M_bind. rewrite Hrun, Hl.
  destruct (x =? 0); [|done]. eexists. split; [reflexivity|]. split; [done|]. split; [by simpl; rewrite Hvm|done].
Qed.

Lemma same_page_index va addr : va / PAGE_SIZE = addr / PAGE_SIZE →
  pgd_index va = pgd_index addr ∧ pte_index va = pte_index addr.
Proof.
  change PAGE_SIZE with 4096. intros E. split; [|by rewrite !pte_index_eq, E].
  rewrite !pgd_index_eq. change PGDIR_SIZE with (4096 * 512). by rewrite <-!Z.div_div, E by lia.
Qed.

Lemma pte_present_bit x : pte_present x = Z.testbit x 0.
Proof. unfold pte_present, L_PTE_PRESENT. rewrite land_single_zero by lia. apply negb_involutive. Qed.

Lemma slot_in_frame t addr : in_frame t (pte_slot t addr) ∧ in_frame t (pte_slot t addr + 2048).
Proof.
  pose proof (pte_index_range addr). assert (PAGE_SIZE = 4096) by reflexivity. unfold in_frame, pte_slot. lia.
Qed.

(** An entry made for a page is what the memory management unit finds for every
    address of the page. *)
Lemma translate_entered w p addr va e pte :
  w !! pmd_pa p addr = Some e → e ≠ 0 → ¬ in_frame (pmd_page e) (pmd_pa p addr) →
  va / PAGE_SIZE = addr / PAGE_SIZE → Z.testbit pte 0 = true →
  translate (enter_pte (pmd_page e) addr pte w) p va = Some (pte_pfn pte * PAGE_SIZE + va mod PAGE_SIZE).
Proof.
  intros He Hne Hfr Hva Hp. destruct (same_page_index _ _ Hva) as [E1 E2].
  destruct (slot_in_frame (pmd_page e) addr) as [S1 S2].
  unfold translate, pgd_offset. rewrite E1. fold (pgd_offset p addr). fold (pmd_pa p addr).
  unfold enter_pte. rewrite (lookup_insert_ne _ (pte_slot (pmd_page e) addr + 2048)) by (intros Eq; by rewrite Eq in S2).
  rewrite lookup_insert_ne by (intros Eq; by rewrite Eq in S1). rewrite He. simpl.
  unfold pmd_none. apply Z.eqb_neq in Hne as ->.
  replace (pte_slot (pmd_page e) va) with (pte_slot (pmd_page e) addr) by (unfold pte_slot; by rewrite E2).
  rewrite lookup_insert_ne by lia. rewrite lookup_insert_eq. simpl. by rewrite pte_present_bit, Hp.
Qed.

Lemma with_table_entry s p addr e :
  mappable (words s) (frames s) p addr e → with_table s p addr e !! pmd_pa p addr = Some (table_entry (frames s) e).
Proof.
  intros [He _ _]. unfold with_table, table_words, table_entry. destruct (e =? 0); [|done].
  rewrite lookup_insert_ne by (apply not_eq_sym, pmd_pa_ne). apply lookup_insert_eq.
Qed.

Lemma pfn_pte_bit pfn prot n : 0 <= pfn < 2 ^ 20 → 0 <= n < 12 → Z.testbit (pfn_pte pfn prot) n = Z.testbit prot n.
Proof.
  intros Hf Hn. unfold pfn_pte, PAGE_SHIFT. rewrite Z.shiftl_mul_pow2 by lia.
  rewrite u32_id by (unfold is_u32; lia). by rewrite Z.lor_spec, Z.mul_pow2_bits_low by lia.
Qed.

(** C31. [remap_pfn_range] for one page of an area that is not copy-on-write, where
    the entry for the address is free: it returns 0, allocating the second-level
    table when there is none, and afterwards every address of the page translates
    to the frame it was given; the area is marked [VM_PFNMAP]. *)
Theorem remap_pfn_range_maps fuel area v d addr va pfn prot s e :
  vmas s !! area = Some v → mms s !! vm_mm v = Some d → one_page addr →
  0 <= pfn < 2 ^ 20 → 0 <= prot < 4096 → Z.testbit prot 0 = true →
  is_cow_mapping (vm_flags v) = false →
  mappable (words s) (frames s) (ArmPgtable.pgd d) addr e →
  ¬ in_frame (table_frame s e) (pmd_pa (ArmPgtable.pgd d) addr) →
  (e ≠ 0 → words s !! pte_slot (table_frame s e) addr = Some 0 ∧
    is_Some (words s !! (pte_slot (table_frame s e) addr + 2048))) →
  va / PAGE_SIZE = addr / PAGE_SIZE →
  ∃ s', remap_pfn_range (S fuel) area addr pfn PAGE_SIZE prot s = Ok (0, s') ∧
    translate (words s') (ArmPgtable.pgd d) va = Some (pfn * PAGE_SIZE + va mod PAGE_SIZE) ∧
    vmas s' = <[area := pfnmap_vma addr pfn v]> (vmas s).
Proof.
  intros Hv Hd Ho Hpfn Hprot Hpres Hcow Hmap Hfr Hfree Hva.
  assert (with_table s (ArmPgtable.pgd d) addr e !! pte_slot (table_frame s e) addr = Some 0 ∧
    is_Some (with_table s (ArmPgtable.pgd d) addr e !! (pte_slot (table_frame s e) addr + 2048))) as [Hx Hhw].
  { destruct (decide (e = 0)) as [->|Hne].
    - destruct (with_table_new _ _ _ Hmap) as [? ->]. eauto.
    - unfold with_table, table_words. apply Z.eqb_neq in Hne as E. rewrite E. by apply Hfree. }
  pose proof (remap_pfn_range_run fuel area v d addr pfn prot s e 0 Hv Hd Ho ltac:(unfold is_u32; lia)
    ltac:(by rewrite Hcow, orb_true_r) Hmap Hx Hhw) as (s' & Hrun & Hw & Hvm & _).
  exists s'. split; [done|]. split; [|done]. rewrite Hw. destruct (table_entry_u32 _ _ _ _ _ Hmap) as [_ Hne].
  unfold table_frame in *. rewrite (translate_entered _ _ _ va); try done; [|by apply with_table_entry|].
  - by rewrite pte_pfn_pfn_pte.
  - by rewrite pfn_pte_bit.
Qed.
End remap.

(** A fresh shared area at 0x40000000; the page directory is in frame 4, frame 32
    is free. *)
Definition demo_area : vma := Vma 9 0x40000000 0x40400000 0x303 0xfb 0.

Definition demo_remap : kst :=
  KSt {[ 0x5000 := 0; 0x5004 := 0 ]} [32] {[ 1 := demo_area ]} {[ 9 := Mm 0xc0004000 (Node Leaf 1 Leaf) None 0 ]}.

Lemma demo_mappable : mappable (words demo_remap) (frames demo_remap) 0xc0004000 0x40000000 0.
Proof.
  split; [done|by unfold is_u32|]. intros _. exists 32. split_and!; [done|lia|lia|by eexists|..];
    unfold in_frame; vm_compute; intuition done.
Qed.

Lemma remap_pfn_range_maps_witness :
  ∃ s', remap_pfn_range 1 1 0x40000000 0x123 PAGE_SIZE 0x303 demo_remap = Ok (0, s') ∧
    translate (words s') 0xc0004000 0x40000abc = Some 0x123abc.
Proof.
  destruct (remap_pfn_range_maps 0 1 demo_area (Mm 0xc0004000 (Node Leaf 1 Leaf) None 0) 0x40000000 0x40000abc
    0x123 0x303 demo_remap 0) as (s' & H1 & H2 & _);
    [reflexivity|reflexivity|by unfold one_page|lia|lia|reflexivity|reflexivity|exact demo_mappable| | | |].
  - unfold in_frame. vm_compute. intuition done.
  - done.
  - reflexivity.
  - exists s'. split; [exact H1|exact H2].
Defined.
