(* ===== verification/PageTableModule.v ===== *)
(** * The page table module

    Models [Project 2/pagetable/pagetable.c]: the system calls
    [get_pagetable_layout] and [expose_page_table].  The latter walks the page
    table of a process and maps its second-level tables into the caller, with an
    array of their addresses (a fake page directory). *)

From S2P Require Import Prelude ArmPgtable Vma PageWalk Remap.

Definition PGD_SIZE : Z := Z.shiftl 1 11 * 4.
Definition EACH_PTE_SIZE : Z := Z.shiftl 1 9 * 4.

(** ** [get_pagetable_layout] *)

Record pagetable_layout_info := PagetableLayoutInfo { pgdir_shift : Z; page_shift : Z }.

(** [sizeof(struct pagetable_layout_info)], of the unsigned type [size_t]. *)
Definition sizeof_layout_info : Z := 8.

(** The result and what is written to user space; [writable]: [copy_to_user]
    succeeds. *)
Definition get_pagetable_layout (writable : bool) (size : Z) : Z * option pagetable_layout_info :=
  if u32 size <? sizeof_layout_info then (- EINVAL, None)
  else
    let layout := PagetableLayoutInfo PGDIR_SHIFT PAGE_SHIFT in
    if writable then (0, Some layout) else (- EFAULT, None).

(** ** [expose_page_table] *)

Record task := Task { comm : string; task_mm : option Z }.

(** A pid that is in use, and the process that has it as its thread id. *)
Record pid_struct := PidStruct { pid_task : option task; pid_count : Z }.

Record pstate := PState {
  ps_kern : kst;
  pids : gmap Z pid_struct;
  current_mm : Z;  (** [current->mm] *)
  task_refs : Z;  (** references to processes taken *)
  mmap_sem : gmap Z bool;  (** held for writing *)
  pgd_base : list Z;  (** the [walk_record] *)
  pte_base : Z;
  kmallocs : Z;  (** buffers allocated and not freed *)
  user_pgd : option (list Z);  (** what was copied to [fake_pgd] *)
}.

#[export] Instance pstate_kernel : KernelState pstate.
Proof.
  refine {| kern := ps_kern;
            set_kern k s := PState k (pids s) (current_mm s) (task_refs s) (mmap_sem s) (pgd_base s)
                              (pte_base s) (kmallocs s) (user_pgd s) |}; [done|by intros []|done].
Defined.

Definition set_record (b : list Z) (a : Z) (s : pstate) : pstate :=
  PState (ps_kern s) (pids s) (current_mm s) (task_refs s) (mmap_sem s) b a (kmallocs s) (user_pgd s).

Definition add_kmallocs (n : Z) (s : pstate) : pstate :=
  PState (ps_kern s) (pids s) (current_mm s) (task_refs s) (mmap_sem s) (pgd_base s) (pte_base s)
    (kmallocs s + n) (user_pgd s).

Definition set_user_pgd (b : list Z) (s : pstate) : pstate :=
  PState (ps_kern s) (pids s) (current_mm s) (task_refs s) (mmap_sem s) (pgd_base s) (pte_base s)
    (kmallocs s) (Some b).

Definition set_sem (m : Z) (h : bool) (s : pstate) : pstate :=
  PState (ps_kern s) (pids s) (current_mm s) (task_refs s) (<[m := h]> (mmap_sem s)) (pgd_base s)
    (pte_base s) (kmallocs s) (user_pgd s).

Definition add_refs (nr : Z) (p : pid_struct) (n : Z) (s : pstate) : pstate :=
  PState (ps_kern s) (<[nr := p]> (pids s)) (current_mm s) (task_refs s + n) (mmap_sem s) (pgd_base s)
    (pte_base s) (kmallocs s) (user_pgd s).

(** Which frames are memory: what [memblock] found at boot. *)
Class MemoryMap := { pfn_valid : Z → bool }.

Section module.
Context `{PhysLayout} `{MemoryMap}.

(** [record->pgd_base[i] = v], an array of 2048 words. *)
Definition pgd_base_store (i v : Z) : M pstate () := λ s,
  if (0 <=? i) && (i <? Z.of_nat (length (pgd_base s)))
  then Ok ((), set_record (<[Z.to_nat i := v]> (pgd_base s)) (pte_base s) s)
  else Err (OutOfBounds i).

Definition for_pmd_entry (fuel : nat) (pmd addr next : Z) : M pstate Z :=
  let pmdIndex := Z.land (Z.shiftr addr 21) 0x7FF in
  m ← gets current_mm;
  base ← gets pte_base;
  vma ← liftk (find_vma (Some m) base);
  match vma with
  | None => mret (- EFAULT)
  | Some vma =>
      if pmd =? 0 then mret 0
      else
        v ← liftk (kread pmd);
        if pmd_bad v then mret (- EINVAL)
        else
          let pfn := s32 (pmd_page v) in
          if negb (pfn_valid (u32 pfn)) then mret (- EFAULT)
          else
            area ← liftk (get_vma vma);
            err ← liftk (remap_pfn_range fuel vma base (u32 pfn) PAGE_SIZE (vm_page_prot area));
            if negb (err =? 0) then mret err
            else
              pgd_base_store pmdIndex base;;
              modify (λ s, set_record (pgd_base s) (u32 (base + EACH_PTE_SIZE)) s);;
              mret 0
  end.

(** [find_get_pid] takes a reference. *)
Definition find_get_pid (nr : Z) : M pstate (option pid_struct) := λ s,
  match pids s !! nr with
  | None => Ok (None, s)
  | Some p =>
      let p := PidStruct (pid_task p) (pid_count p + 1) in Ok (Some p, add_refs nr p 0 s)
  end.

(** [get_pid_task] takes a reference to the process, if there is one. *)
Definition get_pid_task (nr : Z) (p : pid_struct) : M pstate (option task) := λ s,
  match pid_task p with
  | None => Ok (None, s)
  | Some t => Ok (Some t, add_refs nr p 1 s)
  end.

(** The loop that prints the areas reads each of them. *)
Fixpoint print_areas (l : list Z) : M kst () :=
  match l with [] => mret () | v :: l => get_vma v;; print_areas l end.

Definition down_write (m : Z) : M pstate () := modify (set_sem m true).
Definition up_write (m : Z) : M pstate () := modify (set_sem m false).

(** [kmalloc_ok]: [kmalloc] succeeds; [writable]: the copy to user space does. *)
Definition expose_page_table (fuel : nat) (kmalloc_ok writable : bool)
    (pid fake_pgd page_table_addr begin_vaddr end_vaddr : Z) : M pstate Z :=
  if end_vaddr <=? begin_vaddr then mret (- EINVAL)
  else
    pid_struct ← find_get_pid pid;
    match pid_struct with
    | None => mret (- EINVAL)
    | Some pid_struct =>
        target ← get_pid_task pid pid_struct;
        target ← of_option NullDeref target;
        m ← of_option NullDeref (task_mm target);
        down_write m;;
        d ← liftk (get_mm m);
        liftk (print_areas (inorder (mm_rb d)));;
        up_write m;;
        if negb kmalloc_ok then mret (- EFAULT)
        else
          modify (add_kmallocs 1);;
          modify (set_record (replicate (Z.to_nat (PGD_SIZE / 4)) 0) page_table_addr);;
          if page_table_addr =? 0 then mret (- EFAULT)
          else
            let walk := MmWalk None None (Some (for_pmd_entry fuel)) None None None (Some m) in
            down_write m;;
            walk_page_range fuel begin_vaddr end_vaddr walk;;
            up_write m;;
            if negb writable then mret (- EFAULT)
            else
              b ← gets pgd_base;
              modify (set_user_pgd b);;
              modify (add_kmallocs (-1));;
              mret 0
    end.

(** ** Where the tables are mapped

    The page at [base] in the address space [cm] of the caller can take a table:
    [v] is the area of the address, mapped for sharing; its entry in the page table
    is free, or the second-level table has to be allocated ([e] is 0). *)
Record dest_ok (k : kst) (cm : Z) (d : mm) (a : Z) (v : vma) (base e : Z) : Prop := DestOk {
  do_mm : mm_ok k cm d;
  do_area : first_above (vmas k) base (inorder (mm_rb d)) = Some a;
  do_vma : vmas k !! a = Some v;
  do_vm_mm : vm_mm v = cm;
  do_cow : is_cow_mapping (vm_flags v) = false;
  do_prot : 0 <= vm_page_prot v < 4096;
  do_present : Z.testbit (vm_page_prot v) 0 = true;
  do_page : one_page base;
  do_map : mappable (words k) (frames k) (ArmPgtable.pgd d) base e;
  do_frame : ¬ in_frame (table_frame k e) (pmd_pa (ArmPgtable.pgd d) base);
}.

(** The entry for [base], once there is a table. *)
Definition dest_entry (k : kst) (d : mm) (base e : Z) : option Z :=
  with_table k (ArmPgtable.pgd d) base e !! pte_slot (table_frame k e) base.

(** Memory after the frame [pfn] was mapped. *)
Definition dest_words (k : kst) (d : mm) (v : vma) (base e pfn : Z) : gmap Z Z :=
  enter_pte (table_frame k e) base (pfn_pte pfn (vm_page_prot v)) (with_table k (ArmPgtable.pgd d) base e).

Definition hw_there (k : kst) (d : mm) (base e : Z) : Prop :=
  is_Some (with_table k (ArmPgtable.pgd d) base e !! (pte_slot (table_frame k e) base + 2048)).

Lemma pmdIndex_eq addr : is_u32 addr → Z.land (Z.shiftr addr 21) 0x7FF = pgd_index addr ∧ 0 <= pgd_index addr < 2048.
Proof.
  intros Ha. unfold pgd_index, PGDIR_SHIFT, is_u32 in *. change 0x7FF with (Z.ones 11).
  rewrite Z.land_ones, Z.shiftr_div_pow2 by lia.
  assert (0 <= addr / 2 ^ 21 < 2048) by (split; [apply Z.div_pos; lia|apply Z.div_lt_upper_bound; lia]).
  split; [by apply Z.mod_small|done].
Qed.

(** The callback on a present entry [et] of the target, at [pmd]: it maps the table
    of the entry at [pte_base], or stops at [BUG_ON] when that page is mapped
    already. *)
Lemma for_pmd_entry_run fuel pmd addr next s d a v e x et :
  is_u32 addr → dest_ok (ps_kern s) (current_mm s) d a v (pte_base s) e →
  dest_entry (ps_kern s) d (pte_base s) e = Some x → hw_there (ps_kern s) d (pte_base s) e →
  pmd ≠ 0 → words (ps_kern s) !! __virt_to_phys pmd = Some et → is_u32 et → pmd_bad et = false →
  pfn_valid (pmd_page et) = true → length (pgd_base s) = 2048%nat →
  if x =? 0 then
    ∃ k', for_pmd_entry (S fuel) pmd addr next s =
        Ok (0, set_record (<[Z.to_nat (pgd_index addr) := pte_base s]> (pgd_base s))
                 (u32 (pte_base s + EACH_PTE_SIZE)) (set_kern k' s)) ∧
      words k' = dest_words (ps_kern s) d v (pte_base s) e (pmd_page et) ∧
      vmas k' = <[a := pfnmap_vma (pte_base s) (pmd_page et) v]> (vmas (ps_kern s)) ∧
      (∀ m', m' ≠ current_mm s → mms k' !! m' = mms (ps_kern s) !! m') ∧
      (∃ n, mms k' !! current_mm s = Some (Mm (ArmPgtable.pgd d) (mm_rb d) (Some a) n))
  else for_pmd_entry (S fuel) pmd addr next s = Err (BugOn 2207).
Proof.
  intros Haddr Hdest Hx Hhw Hpmd Het Hu Hbad Hvalid Hlen. destruct Hdest as [D1 D2 D3 D4 D5 D6 D7 D8 D9 D10].
  set (k := ps_kern s) in *. set (k1 := cached (current_mm s) d (Some a) k).
  unfold for_pmd_entry. rewrite (bind_Ok _ _ _ (current_mm s) s), (bind_Ok _ _ _ (pte_base s) s) by done.
  set (s1 := set_kern k1 s).
  rewrite (bind_Ok _ _ _ (Some a) s1) by (apply liftk_Ok; rewrite (find_vma_run k _ d) by done; by rewrite D2).
  apply Z.eqb_neq in Hpmd as ->.
  rewrite (bind_Ok _ _ _ et s1) by exact (liftk_Ok _ s1 et k1 (kread_run k1 pmd et Het)).
  rewrite Hbad. pose proof (pmd_page_range et Hu) as Hr.
  rewrite (s32_id (pmd_page et)) by (unfold is_s32; lia). rewrite (u32_id (pmd_page et)) by (unfold is_u32; lia).
  rewrite Hvalid. cbn [negb].
  rewrite (bind_Ok _ _ _ v s1) by (rewrite (liftk_Ok _ s1 v k1);
    [done|unfold get_vma, mbind, M_bind, gets, of_option; simpl; by rewrite D3]).
  assert (mms k1 !! vm_mm v = Some (Mm (ArmPgtable.pgd d) (mm_rb d) (Some a) (nr_ptes d))) as Hmm.
  { rewrite D4. apply lookup_insert_eq. }
  pose proof (remap_pfn_range_run fuel a v _ (pte_base s) (pmd_page et) (vm_page_prot v) k1 e x
    D3 Hmm D8 ltac:(unfold is_u32; lia) ltac:(by rewrite D5, orb_true_r) D9 Hx Hhw) as Hrun.
  destruct (x =? 0); [|apply bind_Err; unfold liftk; change (kern s1) with k1; by rewrite Hrun].
  destruct Hrun as (k' & Hrun & Hw & Hv & Hm & Hm').
  exists k'. erewrite bind_Ok by exact (liftk_Ok _ s1 0 k' Hrun). cbn [Z.eqb negb]. unfold pgd_base_store. destruct (pmdIndex_eq addr Haddr) as [-> Hi].
  unfold mbind, M_bind. change (pgd_base (set_kern k' s1)) with (pgd_base s). rewrite Hlen.
  destruct (Z.leb_spec 0 (pgd_index addr)), (Z.ltb_spec (pgd_index addr) (Z.of_nat 2048)); try lia. cbn [andb].
  split; [done|]. split; [done|]. split; [done|]. rewrite D4 in Hm'. split; [|done].
  intros m' Hne. rewrite Hm by by rewrite D4. unfold k1. simpl. by rewrite lookup_insert_ne.
Qed.

(** ** The system call up to the walk *)

Lemma print_areas_run k lo l : ordered (vmas k) lo l → print_areas l k = Ok ((), k).
Proof.
  revert lo. induction l as [|v l IH]; intros lo Ho; [done|]. destruct Ho as (a & Ha & _ & Ho). simpl.
  rewrite (bind_Ok _ _ _ a k) by (unfold get_vma, mbind, M_bind, gets, of_option; by rewrite Ha). by eapply IH.
Qed.

(** The call names a process with the address space [mt] and directory [pt]. *)
Record target_ok (s : pstate) (pid mt pt lo hi : Z) : Prop := TargetOk {
  to_pid : ∃ n c, pids s !! pid = Some (PidStruct (Some (Task c (Some mt))) n);
  to_other : mt ≠ current_mm s;
  to_range : 0 <= lo < hi ∧ hi < 2 ^ 32;
  to_walk : walkable mt pt lo hi s;
}.

(** The state in which the walk starts. *)
Record walk_start (s s1 : pstate) (base : Z) : Prop := WalkStart {
  ws_kern : ps_kern s1 = ps_kern s;
  ws_mm : current_mm s1 = current_mm s;
  ws_base : pgd_base s1 = replicate 2048 0;
  ws_pte : pte_base s1 = base;
  ws_kmallocs : kmallocs s1 = kmallocs s + 1;
}.

(** What follows the walk. *)
Definition after_walk (mt : Z) (writable : bool) : M pstate Z :=
  up_write mt;;
  if negb writable then mret (- EFAULT)
  else
    b ← gets pgd_base;
    modify (set_user_pgd b);;
    modify (add_kmallocs (-1));;
    mret 0.

Lemma expose_prefix fuel writable pid fake base mt pt lo hi s :
  target_ok s pid mt pt lo hi → base ≠ 0 →
  ∃ s1, walk_start s s1 base ∧
    expose_page_table fuel true writable pid fake base lo hi s =
    (walk_page_range fuel lo hi (pmd_walk mt (for_pmd_entry fuel));; after_walk mt writable) s1.
Proof.
  intros [(n & c & Hpid) Hother Hrange (d & Hd & Hp & _)] Hbase. unfold expose_page_table.
  destruct (Z.leb_spec hi lo); [lia|].
  unfold find_get_pid. unfold mbind at 1, M_bind at 1. rewrite Hpid. cbn [pid_task pid_count].
  set (p' := PidStruct _ _). set (s0 := add_refs pid p' 0 s).
  rewrite (bind_Ok _ _ _ (Some (Task c (Some mt))) (add_refs pid p' 1 s0)) by done.
  rewrite (bind_Ok _ _ _ (Task c (Some mt)) (add_refs pid p' 1 s0)) by done.
  rewrite (bind_Ok _ _ _ mt (add_refs pid p' 1 s0)) by done.
  set (s2 := set_sem mt true (add_refs pid p' 1 s0)).
  rewrite (bind_Ok _ _ _ () s2) by done.
  rewrite (bind_Ok _ _ _ d s2).
  2: { unfold liftk, get_mm, mbind, M_bind, gets, of_option. change (kern s2) with (kern s); by rewrite (mo_mm _ _ _ Hd). }
  rewrite (bind_Ok _ _ _ () s2).
  2: { unfold liftk. rewrite (print_areas_run _ 0) by apply (mo_ordered _ _ _ Hd). done. }
  rewrite (bind_Ok _ _ _ () (set_sem mt false s2)) by done. cbn [negb].
  rewrite (bind_Ok _ _ _ () (add_kmallocs 1 (set_sem mt false s2))) by done.
  rewrite (bind_Ok _ _ _ () (set_record (replicate 2048 0) base (add_kmallocs 1 (set_sem mt false s2)))) by done.
  apply Z.eqb_neq in Hbase as ->.
  set (s3 := set_record _ _ _). exists (set_sem mt true s3).
  rewrite (bind_Ok _ _ _ () (set_sem mt true s3)) by done. split; [by split|done].
Qed.

(** ** One entry of the first level *)

Lemma cached_frames m d v k : frames (cached m d v k) = frames k.
Proof. by destruct v. Qed.

Lemma dest_ok_cached k mt dt found cm d a v base e :
  mt ≠ cm → dest_ok k cm d a v base e → dest_ok (cached mt dt found k) cm d a v base e.
Proof.
  intros Hne [[M1 M2 M3] D2 D3 D4 D5 D6 D7 D8 D9 D10].
  split; rewrite ?cached_vmas, ?cached_words, ?cached_frames; try done.
  - split; rewrite ?cached_vmas; try done. destruct found; simpl; [by rewrite lookup_insert_ne|done].
  - unfold table_frame. by rewrite cached_frames.
Qed.

Lemma dest_words_cached k mt dt found d v base e pfn :
  dest_words (cached mt dt found k) d v base e pfn = dest_words k d v base e pfn.
Proof. unfold dest_words, table_frame, with_table. by rewrite cached_frames, cached_words. Qed.

(** The present entry [et] of the target for [addr], and that it can be mapped. *)
Record source_ok (k : kst) (pt addr et : Z) : Prop := SourceOk {
  so_entry : words k !! pmd_pa pt addr = Some et;
  so_present : et ≠ 0;
  so_u32 : is_u32 et;
  so_bad : pmd_bad et = false;
  so_valid : pfn_valid (pmd_page et) = true;
  so_pmd : pgd_offset pt addr ≠ 0;
}.

(** The step of the walk at a present entry. *)
Lemma walk_entry fuel fuel' mt pt lo hi s d a v e x et :
  0 <= lo < hi → hi < 2 ^ 32 → walkable mt pt lo hi s → mt ≠ current_mm s →
  source_ok (ps_kern s) pt lo et → length (pgd_base s) = 2048%nat →
  dest_ok (ps_kern s) (current_mm s) d a v (pte_base s) e →
  dest_entry (ps_kern s) d (pte_base s) e = Some x → hw_there (ps_kern s) d (pte_base s) e →
  let next := pgd_addr_end lo hi in
  let run := walk_page_loop (S fuel) mt (pgd_offset pt lo) lo hi (pmd_walk mt (for_pmd_entry (S fuel'))) s in
  if x =? 0 then
    ∃ k', let s' := set_record (<[Z.to_nat (pgd_index lo) := pte_base s]> (pgd_base s))
                      (u32 (pte_base s + EACH_PTE_SIZE)) (set_kern k' s) in
      run = (if next =? hi then Ok (0, s')
             else walk_page_loop fuel mt (pgd_offset pt next) next hi (pmd_walk mt (for_pmd_entry (S fuel'))) s') ∧
      words k' = dest_words (ps_kern s) d v (pte_base s) e (pmd_page et) ∧
      vmas k' = <[a := pfnmap_vma (pte_base s) (pmd_page et) v]> (vmas (ps_kern s)) ∧
      (∃ dt found, mms k' !! mt = mms (cached mt dt found (ps_kern s)) !! mt ∧ mm_ok (ps_kern s) mt dt ∧
        found = first_above (vmas (ps_kern s)) lo (inorder (mm_rb dt))) ∧
      (∃ n, mms k' !! current_mm s = Some (Mm (ArmPgtable.pgd d) (mm_rb d) (Some a) n))
  else run = Err (BugOn 2207).
Proof.
  intros Hlo Hhi Hw Hne [Het Het0 Hu Hbad Hvalid Hpmd] Hlen Hdest Hx Hhw. cbv zeta.
  pose proof Hw as (dt & Hdt & Hp & Hno).
  rewrite (walk_page_step mt pt) by first [done|apply (walkable_weaken mt pt lo hi); [lia|lia|done]].
  set (found := first_above (vmas (ps_kern s)) lo (inorder (mm_rb dt))).
  set (k1 := cached mt dt found (ps_kern s)). set (s1 := set_kern k1 s).
  rewrite (bind_Ok _ _ _ found s1) by (apply liftk_Ok, find_vma_run, Hdt).
  assert (words k1 !! pmd_pa pt lo = Some et) as Het1 by (unfold k1; by rewrite cached_words).
  rewrite (bind_Ok _ _ _ et s1) by exact (liftk_Ok _ s1 et k1 (kread_run k1 _ et Het1)).
  unfold pmd_none. apply Z.eqb_neq in Het0 as E. rewrite E.
  pose proof (for_pmd_entry_run fuel' (pgd_offset pt lo) lo (pgd_addr_end lo hi) s1 d a v e x et
    ltac:(unfold is_u32; lia) (dest_ok_cached _ _ dt found _ _ _ _ _ _ Hne Hdest)) as Hrun.
  unfold dest_entry, hw_there, table_frame, with_table in Hrun. change (ps_kern s1) with k1 in Hrun.
  unfold k1 in Hrun. rewrite cached_frames, cached_words, cached_vmas in Hrun. fold k1 in Hrun.
  specialize (Hrun Hx Hhw Hpmd Het Hu Hbad Hvalid Hlen). destruct (x =? 0).
  - destruct Hrun as (k' & Hf & Hwk & Hvk & Hmk & Hck). exists k'.
    rewrite (bind_Ok _ _ _ _ _ Hf). cbn [Z.eqb negb]. split; [by destruct (pgd_addr_end lo hi =? hi)|].
    split; [by rewrite Hwk; apply dest_words_cached|]. split; [done|].
    split; [|done]. exists dt, found. split; [by apply Hmk|done].
  - by apply bind_Err.
Qed.

(** The walk of a range within one entry of the first level. *)
Lemma walk_one_entry fuel mt pt lo hi s d a v e et :
  0 <= lo < hi → hi < 2 ^ 32 → pgd_index (hi - 1) = pgd_index lo →
  walkable mt pt lo hi s → mt ≠ current_mm s → source_ok (ps_kern s) pt lo et →
  length (pgd_base s) = 2048%nat → dest_ok (ps_kern s) (current_mm s) d a v (pte_base s) e →
  dest_entry (ps_kern s) d (pte_base s) e = Some 0 → hw_there (ps_kern s) d (pte_base s) e →
  ∃ k', walk_page_range (S fuel) lo hi (pmd_walk mt (for_pmd_entry (S fuel))) s =
      Ok (0, set_record (<[Z.to_nat (pgd_index lo) := pte_base s]> (pgd_base s))
               (u32 (pte_base s + EACH_PTE_SIZE)) (set_kern k' s)) ∧
    words k' = dest_words (ps_kern s) d v (pte_base s) e (pmd_page et) ∧
    ∃ n, mms k' !! current_mm s = Some (Mm (ArmPgtable.pgd d) (mm_rb d) (Some a) n).
Proof.
  intros Hlo Hhi Hidx Hw Hne Hsrc Hlen Hdest Hx Hhw. pose proof Hw as (dt & Hdt & Hp & _).
  unfold walk_page_range. destruct (Z.leb_spec hi lo); [lia|]. cbn [walk_mm pmd_walk].
  rewrite (bind_Ok _ _ _ dt s) by (unfold liftk, get_mm, mbind, M_bind, gets, of_option;
    rewrite (mo_mm _ _ _ Hdt); by destruct s).
  destruct (walk_entry fuel fuel mt pt lo hi s d a v e 0 et Hlo Hhi Hw Hne Hsrc Hlen Hdest Hx Hhw)
    as (k' & Hrun & Hwk & _ & _ & Hck).
  exists k'. split; [|done]. rewrite Hp, Hrun.
  assert (pgd_addr_end lo hi = hi) as ->.
  { destruct (pgd_next lo hi Hlo Hhi) as (N1 & _ & [N|N]); [done|].
    pose proof (pgd_index_mono (pgd_addr_end lo hi) (hi - 1)). lia. }
  by rewrite Z.eqb_refl.
Qed.

(** The frame [T] of the table of the target is not touched when it is mapped: it
    is neither the table nor the directory of the caller. *)
Record untouched (k : kst) (d : mm) (base e T : Z) : Prop := Untouched {
  ut_table : table_frame k e ≠ T;
  ut_pmd : ¬ in_frame T (pmd_pa (ArmPgtable.pgd d) base);
  ut_pmd' : ¬ in_frame T (pmd_pa' (ArmPgtable.pgd d) base);
}.

Lemma in_frame_unique f g x : in_frame f x → in_frame g x → f = g.
Proof. unfold in_frame. assert (PAGE_SIZE = 4096) by reflexivity. lia. Qed.

Lemma dest_words_untouched k cm d a v base e pfn T x :
  dest_ok k cm d a v base e → untouched k d base e T → in_frame T x →
  dest_words k d v base e pfn !! x = words k !! x.
Proof.
  intros Hd [U1 U2 U3] Hx. destruct (slot_in_frame (table_frame k e) base) as [S1 S2].
  unfold dest_words, enter_pte. rewrite !lookup_insert_ne by
    (intros Eq; rewrite <-Eq in Hx; exact (U1 (in_frame_unique _ _ _ S1 Hx)) || exact (U1 (in_frame_unique _ _ _ S2 Hx))).
  unfold with_table, table_words. destruct (Z.eqb_spec e 0) as [->|]; [|done].
  rewrite !lookup_insert_ne by (intros Eq; rewrite <-Eq in Hx; done). apply zero_page_out. intros Hin. apply U1.
  destruct (mp_free _ _ _ _ _ (do_map _ _ _ _ _ _ _ Hd) eq_refl) as (f & Hhd & Hr & _).
  unfold table_frame, table_entry. rewrite Hhd in *. cbn [Z.eqb default from_option] in *. unfold id in *.
  rewrite pmd_page_of by done. exact (in_frame_unique _ _ _ Hin Hx).
Qed.

(** Reading through the page mapped at [base]. *)
Lemma dest_words_read k cm d a v base e pfn i :
  dest_ok k cm d a v base e → base mod PAGE_SIZE = 0 → 0 <= pfn < 2 ^ 20 → 0 <= i < 1024 →
  untouched k d base e pfn →
  user_read (dest_words k d v base e pfn) (ArmPgtable.pgd d) (base + 4 * i) = words k !! (pfn * PAGE_SIZE + 4 * i).
Proof.
  intros Hd Hal Hpfn Hi Hut. pose proof Hd as [D1 D2 D3 D4 D5 D6 D7 D8 D9 D10].
  assert (PAGE_SIZE = 4096) as Eps by reflexivity.
  assert ((base + 4 * i) / PAGE_SIZE = base / PAGE_SIZE ∧ (base + 4 * i) mod PAGE_SIZE = 4 * i) as [Hva Hoff].
  { pose proof (Z.div_mod base PAGE_SIZE). split; symmetry.
    - apply (Z.div_unique _ _ _ (4 * i)); lia.
    - apply (Z.mod_unique _ _ (base / PAGE_SIZE)); lia. }
  unfold user_read, dest_words. destruct (table_entry_u32 _ _ _ _ _ D9) as [_ Hne].
  unfold table_frame in *. rewrite (translate_entered _ _ base (base + 4 * i) (table_entry (frames k) e));
    [|by apply with_table_entry|done..|by rewrite pfn_pte_bit].
  rewrite pte_pfn_pfn_pte, Hoff by done. simpl.
  apply (dest_words_untouched k cm d a v base e pfn pfn); [done|done|]. unfold in_frame. lia.
Qed.

(** The call, and the state it leaves. *)
Lemma expose_run fuel pid fake base lo hi s mt pt d a v e et :
  target_ok s pid mt pt lo hi → base ≠ 0 → base mod PAGE_SIZE = 0 →
  pgd_index (hi - 1) = pgd_index lo → source_ok (ps_kern s) pt lo et →
  dest_ok (ps_kern s) (current_mm s) d a v base e →
  dest_entry (ps_kern s) d base e = Some 0 → hw_there (ps_kern s) d base e →
  untouched (ps_kern s) d base e (pmd_page et) →
  ∃ s', expose_page_table (S fuel) true true pid fake base lo hi s = Ok (0, s') ∧
    user_pgd s' = Some (<[Z.to_nat (pgd_index lo) := base]> (replicate 2048 0)) ∧
    kmallocs s' = kmallocs s ∧
    (∀ i, 0 <= i < 1024 →
      user_read (words (ps_kern s')) (ArmPgtable.pgd d) (base + 4 * i) =
      words (ps_kern s) !! (pmd_page et * PAGE_SIZE + 4 * i)) ∧
    ∃ n, mms (ps_kern s') !! current_mm s' = Some (Mm (ArmPgtable.pgd d) (mm_rb d) (Some a) n).
Proof.
  intros Ht Hb Hal Hidx Hsrc Hdest Hx Hhw Hut.
  destruct (expose_prefix (S fuel) true pid fake base mt pt lo hi s Ht Hb) as (s1 & [W1 W2 W3 W4 W5] & ->).
  destruct Ht as [_ Hne [Hlo Hhi] Hw].
  destruct (walk_one_entry fuel mt pt lo hi s1 d a v e et) as (k' & Hrun & Hwk & Hck); rewrite ?W1, ?W2, ?W4; try done.
  { destruct Hw as (dt & Hdt & Hp & Hno). exists dt. simpl in *. rewrite W1. done. }
  { by rewrite W3, length_replicate. }
  rewrite (bind_Ok _ _ _ _ _ Hrun). unfold after_walk.
  eexists. split; [reflexivity|]. rewrite W3, W4. split; [done|]. split; [simpl; lia|]. split; [|done].
  intros i Hi. simpl. rewrite Hwk, W1, W4. by apply (dest_words_read _ (current_mm s) _ a);
    [..|apply pmd_page_range, (so_u32 _ _ _ _ Hsrc)| |].
Qed.


(** ** A second entry of the first level

    [pte_base] advances by the size of the Linux part of a table, half a page, but
    [remap_pfn_range] maps a whole page. *)

Lemma pfnmap_vma_same addr pfn v :
  vm_start (pfnmap_vma addr pfn v) = vm_start v ∧ vm_end (pfnmap_vma addr pfn v) = vm_end v ∧
  vm_page_prot (pfnmap_vma addr pfn v) = vm_page_prot v ∧ vm_mm (pfnmap_vma addr pfn v) = vm_mm v.
Proof. unfold pfnmap_vma. by destruct (whole_area addr v). Qed.

Lemma pfnmap_vma_cow addr pfn v : is_cow_mapping (vm_flags (pfnmap_vma addr pfn v)) = is_cow_mapping (vm_flags v).
Proof.
  unfold is_cow_mapping, pfnmap_vma. f_equal.
  destruct (whole_area addr v); simpl; rewrite !Z.land_lor_distr_l;
    change (Z.land (Z.lor (Z.lor VM_IO VM_RESERVED) VM_PFNMAP) (Z.lor VM_SHARED VM_MAYWRITE)) with 0;
    try change (Z.land VM_PFN_AT_MMAP (Z.lor VM_SHARED VM_MAYWRITE)) with 0; by rewrite !Z.lor_0_r.
Qed.

Lemma ordered_insert vm lo l a v v' :
  vm !! a = Some v → vm_start v' = vm_start v → vm_end v' = vm_end v → ordered vm lo l → ordered (<[a := v']> vm) lo l.
Proof.
  intros Ha Es Ee. revert lo. induction l as [|w l IH]; intros lo Ho; [done|]. destruct Ho as (b & Hb & Hlo & Ho).
  destruct (decide (w = a)) as [->|Hne].
  - simplify_eq. exists v'. rewrite lookup_insert_eq, Es, Ee. split; [done|]. split; [done|]. by apply IH.
  - exists b. rewrite lookup_insert_ne by done. split; [done|]. split; [done|]. by apply IH.
Qed.

Lemma first_above_insert vm addr l a v' : a ∉ l → first_above (<[a := v']> vm) addr l = first_above vm addr l.
Proof.
  induction l as [|w l IH]; [done|]. intros Hn. simpl. rewrite lookup_insert_ne by set_solver.
  rewrite IH by set_solver. done.
Qed.

(** The destination half a page further is the entry that was just made. *)
Lemma dest_ok_again k k' cm d a v base e pfn n :
  dest_ok k cm d a v base e → base mod PAGE_SIZE = 0 → 0 <= pfn < 2 ^ 20 →
  one_page (base + EACH_PTE_SIZE) → vm_start v <= base → base + EACH_PTE_SIZE < vm_end v →
  words k' = dest_words k d v base e pfn → vmas k' = <[a := pfnmap_vma base pfn v]> (vmas k) →
  mms k' !! cm = Some (Mm (ArmPgtable.pgd d) (mm_rb d) (Some a) n) →
  let d' := Mm (ArmPgtable.pgd d) (mm_rb d) (Some a) n in
  let base' := base + EACH_PTE_SIZE in
  let e' := table_entry (frames k) e in
  dest_ok k' cm d' a (pfnmap_vma base pfn v) base' e' ∧
  dest_entry k' d' base' e' = Some (pfn_pte pfn (vm_page_prot v)) ∧ hw_there k' d' base' e'.
Proof.
  intros [D1 D2 D3 D4 D5 D6 D7 D8 D9 D10] Hal Hpfn Hone Hst Hend Hw Hv Hm. cbv zeta.
  destruct (pfnmap_vma_same base pfn v) as (Es & Ee & Ep & Emm).
  destruct (first_above_elem _ _ _ _ D2) as [Hin _].
  assert (EACH_PTE_SIZE = 2048) as Eh by reflexivity. assert (PAGE_SIZE = 4096) as Eps by reflexivity.
  destruct (same_page_index (base + EACH_PTE_SIZE) base) as [E1 E2].
  { rewrite Eps. symmetry. pose proof (Z.div_mod base 4096). rewrite Eps in Hal.
    apply (Z.div_unique _ _ _ 2048); lia. }
  destruct (table_entry_u32 _ _ _ _ _ D9) as [Hu Hne].
  assert (pgd_offset (ArmPgtable.pgd d) (base + EACH_PTE_SIZE) = pgd_offset (ArmPgtable.pgd d) base) as Eo
    by (unfold pgd_offset; by rewrite E1).
  destruct (slot_in_frame (table_frame k e) base) as [S1 S2].
  assert (words k' !! pmd_pa (ArmPgtable.pgd d) base = Some (table_entry (frames k) e)) as Hent.
  { rewrite Hw. unfold dest_words, enter_pte.
    rewrite !lookup_insert_ne by (intros Eq; rewrite Eq in S1 || rewrite Eq in S2; done). by apply with_table_entry. }
  assert (table_frame k' (table_entry (frames k) e) = table_frame k e) as Efr.
  { unfold table_frame, table_entry at 1. by apply Z.eqb_neq in Hne as ->. }
  assert (with_table k' (ArmPgtable.pgd d) (base + EACH_PTE_SIZE) (table_entry (frames k) e) = words k') as Ewt.
  { unfold with_table, table_words. by apply Z.eqb_neq in Hne as ->. }
  assert (pte_slot (table_frame k e) (base + EACH_PTE_SIZE) = pte_slot (table_frame k e) base) as Esl
    by (unfold pte_slot; by rewrite E2).
  unfold dest_entry, hw_there. cbn [ArmPgtable.pgd]. rewrite Efr, Ewt, Esl. split_and!.
  - split; rewrite ?Hv, ?Ep, ?Emm, ?pfnmap_vma_cow; try done.
    + split; [done|rewrite Hv; apply (ordered_insert _ _ _ _ v); [done..|apply (mo_ordered _ _ _ D1)]|]. by intros c [= <-].
    + apply (first_above_in _ _ _ 0 _ (pfnmap_vma base pfn v)); rewrite ?Es, ?Ee; try done; [|by rewrite lookup_insert_eq|lia].
      apply (ordered_insert _ _ _ _ v); [done..|apply (mo_ordered _ _ _ D1)].
    + apply lookup_insert_eq.
    + split; [|done|done]. cbn [ArmPgtable.pgd]. unfold pmd_pa. by rewrite Eo.
    + cbn [ArmPgtable.pgd]. unfold pmd_pa. by rewrite Efr, Eo.
  - rewrite Hw. unfold dest_words, enter_pte. rewrite lookup_insert_ne by lia. apply lookup_insert_eq.
  - rewrite Hw. unfold dest_words, enter_pte. rewrite lookup_insert_eq. eauto.
Qed.

(** The address space of the target stays walkable when the caller maps a page. *)
Lemma walkable_keeps mt pt lo hi addr s (s' : pstate) dt a v v' :
  mm_ok (ps_kern s) mt dt → walkable mt pt lo hi s → lo <= addr →
  mms (ps_kern s') !! mt =
    mms (cached mt dt (first_above (vmas (ps_kern s)) addr (inorder (mm_rb dt))) (ps_kern s)) !! mt →
  vmas (ps_kern s) !! a = Some v → vm_start v' = vm_start v → vm_end v' = vm_end v →
  vmas (ps_kern s') = <[a := v']> (vmas (ps_kern s)) → a ∉ inorder (mm_rb dt) →
  walkable mt pt lo hi s'.
Proof.
  intros Hdt (dt0 & Hdt0 & Hp & Hno) Hlo Hm Ha Es Ee Hv Hout.
  assert (dt0 = dt) as -> by (destruct Hdt, Hdt0; simpl in *; congruence).
  destruct (cached_ok mt dt (ps_kern s) addr Hdt) as (dt' & [M1 M2 M3] & Ep & Er).
  exists dt'. split; [|split; [congruence|]].
  - split; [simpl; by rewrite Hm|simpl; rewrite Hv|done].
    rewrite cached_vmas in M2. by apply (ordered_insert _ _ _ _ v).
  - simpl. rewrite Hv, Er. intros ad w b Hr. rewrite first_above_insert by done. intros Hf Hb.
    destruct (first_above_elem _ _ _ _ Hf) as [Hin _].
    rewrite lookup_insert_ne in Hb by (intros ->; done). by eapply Hno.
Qed.

(** C36. A range over two present entries of the first level: the second table is to
    be mapped half a page after the first, into the page that is already mapped, and
    the kernel stops at the [BUG_ON] of [remap_pte_range]. *)
Theorem expose_two_entries_bug fuel pid fake base lo hi s mt pt d a v e et et2 writable :
  target_ok s pid mt pt lo hi → base ≠ 0 → base mod PAGE_SIZE = 0 →
  pgd_addr_end lo hi < hi →
  source_ok (ps_kern s) pt lo et → source_ok (ps_kern s) pt (pgd_addr_end lo hi) et2 →
  dest_ok (ps_kern s) (current_mm s) d a v base e →
  dest_entry (ps_kern s) d base e = Some 0 → hw_there (ps_kern s) d base e →
  one_page (base + EACH_PTE_SIZE) → vm_start v <= base → base + EACH_PTE_SIZE < vm_end v →
  dest_words (ps_kern s) d v base e (pmd_page et) !! pmd_pa pt (pgd_addr_end lo hi) = Some et2 →
  (∀ dt, mms (ps_kern s) !! mt = Some dt → a ∉ inorder (mm_rb dt)) →
  expose_page_table (S (S fuel)) true writable pid fake base lo hi s = Err (BugOn 2207).
Proof.
  intros Ht Hb Hal Hnext Hsrc Hsrc2 Hdest Hx Hhw Hone Hst Hend Hkeep Hout.
  destruct (expose_prefix (S (S fuel)) writable pid fake base mt pt lo hi s Ht Hb) as (s1 & [W1 W2 W3 W4 W5] & ->).
  destruct Ht as [_ Hne [Hlo Hhi] Hw]. apply bind_Err.
  assert (walkable mt pt lo hi s1) as Hw1.
  { destruct Hw as (dt & Hdt & Hp & Hno). exists dt. simpl in *. by rewrite W1. }
  unfold walk_page_range. destruct (Z.leb_spec hi lo); [lia|]. cbn [walk_mm pmd_walk].
  pose proof Hw1 as (dt & Hdt & Hp & _).
  rewrite (bind_Ok _ _ _ dt s1) by (unfold liftk, get_mm, mbind, M_bind, gets, of_option;
    rewrite (mo_mm _ _ _ Hdt); by destruct s1).
  destruct (walk_entry (S fuel) (S fuel) mt pt lo hi s1 d a v e 0 et) as (k' & Hrun & Hwk & Hvk & Hmt & n & Hck);
    rewrite ?W1, ?W2, ?W4; try done; [by rewrite W3, length_replicate|].
  rewrite Hp, Hrun. destruct (Z.eqb_spec (pgd_addr_end lo hi) hi); [lia|].
  assert (EACH_PTE_SIZE = 2048 ∧ PAGE_SIZE = 4096) as [Eh Eps] by done. rewrite W4.
  rewrite (u32_id (base + EACH_PTE_SIZE)) by (destruct Hone as (? & ? & _); unfold is_u32; lia).
  set (s2 := set_record _ _ _).
  destruct Hmt as (dt' & found & Hmt & Hdt' & ->). rewrite W1, W2 in *. rewrite W4 in *.
  assert (walkable mt pt (pgd_addr_end lo hi) hi s2) as Hw2.
  { destruct (pgd_next lo hi Hlo Hhi) as (N1 & _). apply (walkable_weaken mt pt lo hi); [lia|lia|].
    destruct (pfnmap_vma_same base (pmd_page et) v) as (Es & Ee & _).
    apply (walkable_keeps mt pt lo hi lo s s2 dt' a v (pfnmap_vma base (pmd_page et) v)); try done.
    - apply (do_vma _ _ _ _ _ _ _ Hdest).
    - apply Hout, (mo_mm _ _ _ Hdt'). }
  destruct (dest_ok_again (ps_kern s) k' (current_mm s) d a v base e (pmd_page et) n) as (Hd2 & Hx2 & Hhw2); try done.
  { apply pmd_page_range, (so_u32 _ _ _ _ Hsrc). }
  destruct (pgd_next lo hi Hlo Hhi) as (N1 & _).
  pose proof (walk_entry fuel (S fuel) mt pt (pgd_addr_end lo hi) hi s2 (Mm (ArmPgtable.pgd d) (mm_rb d) (Some a) n)
    a (pfnmap_vma base (pmd_page et) v) (table_entry (frames (ps_kern s)) e) (pfn_pte (pmd_page et) (vm_page_prot v)) et2
    ltac:(lia) Hhi Hw2) as Hbug.
  cbv zeta in Hbug. change (current_mm s2) with (current_mm s1) in Hbug. rewrite W2 in Hbug.
  assert (pfn_pte (pmd_page et) (vm_page_prot v) =? 0 = false) as E0.
  { apply Z.eqb_neq. intros E0. pose proof (do_present _ _ _ _ _ _ _ Hdest) as Hp0.
    rewrite <-(pfn_pte_bit (pmd_page et)), E0 in Hp0 by (apply pmd_page_range, (so_u32 _ _ _ _ Hsrc) || lia). done. }
  rewrite E0 in Hbug. apply Hbug; try done.
  - destruct Hsrc2. split; try done. simpl. by rewrite Hwk.
  - change (pgd_base s2) with (<[Z.to_nat (pgd_index lo) := base]> (pgd_base s1)).
    by rewrite W3, length_insert, length_replicate.
Qed.
End module.

(** ** A concrete request

    The target (address space 20) has its directory at frame 16 and two tables in
    frames 0x21 and 0x22; the caller (10) has its directory at frame 4 and a fresh
    shared area; frame 0x20 is free. *)

#[export] Instance demo_memory : MemoryMap := {| pfn_valid pfn := pfn <? 0x10000 |}.

Definition demo_dest : vma := Vma 10 0x40000000 0x40400000 0x303 0xfb 0.
Definition demo_code : vma := Vma 20 0x8000 0x400000 0x303 0x75 0.
Definition demo_caller : mm := Mm 0xc0004000 (Node Leaf 1 Leaf) None 0.
Definition demo_target : mm := Mm 0xc0010000 (Node Leaf 2 Leaf) None 0.

Definition demo_words : gmap Z Z :=
  {[ 0x5000 := 0; 0x5004 := 0; 0x10000 := 0x21831; 0x10008 := 0x22831; 0x21020 := 0x12345343 ]}.

Definition demo_kern : kst :=
  KSt demo_words [0x20] {[ 1 := demo_dest; 2 := demo_code ]} {[ 10 := demo_caller; 20 := demo_target ]}.

Definition demo_request : pstate :=
  PState demo_kern {[ 77 := PidStruct (Some (Task "sh" (Some 20))) 1 ]} 10 0 ∅ [] 0 0 None.

Lemma demo_target_ok hi : 0x8000 < hi <= 0x400000 → target_ok demo_request 77 20 0xc0010000 0x8000 hi.
Proof.
  intros Hhi. split; [by exists 1, "sh"|done|lia|]. exists demo_target. split; [|split; [done|]].
  - split; [done| |done]. exists demo_code. split; [done|]. by split.
  - intros addr w b _ Hf Hb. apply first_above_elem in Hf as [Hin _]. simpl in Hin.
    apply list_elem_of_singleton in Hin as ->. change (Some demo_code = Some b) in Hb. simplify_eq.
    apply andb_false_r.
Qed.

Lemma demo_dest_ok : dest_ok demo_kern 10 demo_caller 1 demo_dest 0x40000000 0.
Proof.
  split; try done.
  - split; [done| |done]. exists demo_dest. split; [done|]. by split.
  - split; [done|done|]. intros _. exists 0x20.
    split_and!; [done|lia|lia|by eexists|unfold in_frame; vm_compute; intuition done..].
  - unfold in_frame. vm_compute. intuition done.
Qed.

Lemma demo_source_ok : source_ok demo_kern 0xc0010000 0x8000 0x21831.
Proof. split; done. Qed.

Lemma demo_untouched : untouched demo_kern demo_caller 0x40000000 0 (pmd_page 0x21831).
Proof. split; unfold in_frame; vm_compute; intuition done. Qed.


Lemma demo_source_ok2 : source_ok demo_kern 0xc0010000 (pgd_addr_end 0x8000 0x400000) 0x22831.
Proof. split; done. Qed.

Lemma expose_two_entries_bug_witness :
  expose_page_table 2 true true 77 0x1000 0x40000000 0x8000 0x400000 demo_request = Err (BugOn 2207).
Proof.
  destruct (with_table_new demo_kern 0xc0004000 0x40000000 (do_map _ _ _ _ _ _ _ demo_dest_ok)) as [Hx Hhw].
  apply (expose_two_entries_bug 0 77 0x1000 0x40000000 0x8000 0x400000 demo_request 20 0xc0010000 demo_caller 1
    demo_dest 0 0x21831 0x22831 true (demo_target_ok 0x400000 ltac:(lia)) ltac:(done) eq_refl ltac:(done)
    demo_source_ok demo_source_ok2 demo_dest_ok Hx (ex_intro _ 0 Hhw)); clear Hx Hhw.
  - by unfold one_page.
  - done.
  - done.
  - vm_compute. reflexivity.
  - intros dt Hdt. change (Some demo_target = Some dt) in Hdt. simplify_eq. simpl. set_solver.
Defined.
