(* ===== verification/VmTools.v ===== *)
(** * The tools that show page tables

    Models [Project 2/VATranslate/jni/VATranslate.c] and
    [Project 2/vm_inspector/jni/vm_inspector.c]: the conversion of hexadecimal
    addresses, and the programs that ask the kernel for the page table of a process
    and print the physical address of a virtual address, or the frames of a range of
    pages.  The lines they print are lists of strings. *)

From Stdlib Require Import Ascii.
From stdpp Require Import pretty.
From S2P Require Import Prelude CLib ArmPgtable Vma PageWalk Remap PageTableModule.

(** ** Hexadecimal addresses *)

(** For a hex digit, the hex digit that is 8 less. *)
Definition lower (c : ascii) : ascii :=
  if 97 <=? char c then of_char (char c - 97 + 50)
  else if 65 <=? char c then of_char (char c - 65 + 50)
  else of_char (char c - 8).

Definition strtolu (str : string) : Z :=
  let flag := (strlen str =? 8) && match str with String c _ => 56 <=? char c | EmptyString => false end in
  let str := if flag then match str with String c s => String (lower c) s | EmptyString => str end else str in
  let res := u32 (strtol str 16) in
  Z.lor res (u32 (Z.shiftl (Z.b2z flag) 31)).

Lemma hex_not_special c : is_hex c = true →
  isspace c = false ∧ char c ≠ 45 ∧ char c ≠ 43 ∧ char c ≠ 120 ∧ char c ≠ 88.
Proof.
  pose proof (ascii_all (λ c, negb (is_hex c) || negb (isspace c || (char c =? 45) || (char c =? 43) ||
    (char c =? 120) || (char c =? 88))) ltac:(by vm_compute) c) as H.
  cbn beta in H. intros Hc. rewrite Hc in H. cbn [negb orb] in H. apply negb_true_iff in H.
  rewrite !orb_false_iff, !Z.eqb_neq in H. tauto.
Qed.

Lemma strtol_hex s : hex_string s = true → strtol s 16 = clamp (hex_value s).
Proof.
  intros Hs. unfold strtol.
  assert (skip_space s = s) as ->.
  { destruct s as [|c s]; [done|]. simpl in *. apply andb_true_iff in Hs as [Hc _].
    by destruct (hex_not_special c Hc) as [-> _]. }
  assert (split_sign s = (false, s)) as ->.
  { destruct s as [|c s]; [done|]. simpl in *. apply andb_true_iff in Hs as [Hc _].
    destruct (hex_not_special c Hc) as (_ & H1%Z.eqb_neq & H2%Z.eqb_neq & _). by rewrite H1, H2. }
  assert (skip_prefix 16 s = s) as ->.
  { destruct s as [|c [|x s]]; [done..|]. simpl in *. apply andb_true_iff in Hs as [_ Hs].
    apply andb_true_iff in Hs as [Hx _].
    destruct (hex_not_special x Hx) as (_ & _ & _ & H1%Z.eqb_neq & H2%Z.eqb_neq).
    rewrite H1, H2. by rewrite andb_false_r. }
  rewrite digits_hex by done. simpl. done.
Qed.

(** The first digit of an 8-digit address and its high bit. *)
Lemma lower_digit c d : digit_value c = Some d → d < 16 →
  if 56 <=? char c then digit_value (lower c) = Some (d - 8) ∧ 8 <= d else d < 8.
Proof.
  intros Hd Hlt.
  pose proof (ascii_all (λ c, match digit_value c with
      | Some d => (16 <=? d) || (if 56 <=? char c then
          (8 <=? d) && match digit_value (lower c) with Some d' => d' =? d - 8 | None => false end
          else d <? 8)
      | None => true end) ltac:(by vm_compute) c) as H.
  cbn beta in H. rewrite Hd in H. apply orb_true_iff in H as [H|H]; [lia|].
  destruct (56 <=? char c); [|lia]. apply andb_true_iff in H as [H1 H2]. split; [|lia].
  destruct (digit_value (lower c)); [|done]. f_equal. lia.
Qed.

Lemma digits_is_hex c d : digit_value c = Some d → d < 16 → is_hex c = true.
Proof. intros Hd Hlt. unfold is_hex. rewrite Hd. by apply Z.ltb_lt. Qed.

Lemma strtolu_run s : hex_string s = true → strlen s <= 8 → strtolu s = hex_value s.
Proof.
  intros Hs Hlen. unfold strtolu. pose proof (hex_value_range s Hs) as Hr. pose proof (strlen_nonneg s).
  destruct s as [|c s]; [by vm_compute|]. pose proof Hs as Hs'. cbn [hex_string] in Hs.
  apply andb_true_iff in Hs as [(d & Hd & Hlt)%is_hex_value Hs]. pose proof (lower_digit c d Hd ltac:(lia)) as Hlow.
  pose proof (hex_value_range s Hs) as Hrs. rewrite strlen_cons in *. pose proof (strlen_nonneg s).
  assert (∀ z, 0 <= z < 2 ^ 31 → u32 (clamp z) = z) as Hclamp.
  { intros z Hz. unfold clamp, LONG_MAX, LONG_MIN. rewrite Z.min_r, Z.max_r by lia. apply u32_id. unfold is_u32. lia. }
  destruct (Z.eqb_spec (strlen s + 1) 8) as [E|Hne]; cbn [andb]; [destruct (56 <=? char c)|].
  - destruct Hlow as [Hlow Hd8]. assert (strlen s = 7) as E7 by lia.
    rewrite strtol_hex by (cbn [hex_string]; rewrite (digits_is_hex _ _ Hlow) by lia; done).
    cbn [hex_value Z.b2z]. rewrite Hlow, Hd, E7 in *. rewrite Hclamp by lia.
    change (u32 (Z.shiftl 1 31)) with (1 * 2 ^ 31). rewrite Z.lor_comm, lor_low by lia. lia.
  - assert (strlen s = 7) as E7 by lia. rewrite strtol_hex by done. rewrite Z.lor_0_r. apply Hclamp.
    cbn [hex_value] in *. rewrite Hd, E7 in *. lia.
  - rewrite strtol_hex by done. rewrite Z.lor_0_r. apply Hclamp.
    assert (16 ^ (strlen s + 1) <= 16 ^ 7) by (apply Z.pow_le_mono_r; lia). lia.
Qed.

Lemma hex_digits_value n z acc :
  hex_string acc = true → 0 <= z →
  hex_string (hex_digits n z acc) = true ∧ strlen (hex_digits n z acc) = strlen acc + Z.of_nat n ∧
  hex_value (hex_digits n z acc) = (z mod 16 ^ Z.of_nat n) * 16 ^ strlen acc + hex_value acc.
Proof.
  revert z acc. induction n as [|n IH]; intros z acc Ha Hz.
  { cbn [hex_digits]. rewrite Z.mod_1_r. split_and!; [done|lia|lia]. }
  cbn [hex_digits]. pose proof (Z.mod_pos_bound z 16 ltac:(lia)) as Hm.
  pose proof (hex_char_value (z mod 16) Hm) as Hc. pose proof (strlen_nonneg acc).
  destruct (IH (z / 16) (String (hex_char (z mod 16)) acc)) as (H1 & H2 & H3).
  { cbn [hex_string]. by rewrite (digits_is_hex _ _ Hc) by lia. }
  { apply Z.div_pos; lia. }
  split; [done|]. rewrite H2, H3, strlen_cons. split; [lia|]. cbn [hex_value]. rewrite Hc.
  rewrite Nat2Z.inj_succ, Z.pow_succ_r, Z.rem_mul_r, Z.pow_add_r by lia. lia.
Qed.

Lemma hex_width_u32 v : is_u32 v → (hex_width v <= 8)%nat.
Proof.
  intros [H0 H1]. unfold hex_width. destruct (Z.eqb_spec v 0); [lia|].
  assert (Z.log2 v < 32) by (apply Z.log2_lt_pow2; lia). pose proof (Z.log2_nonneg v).
  assert (Z.log2 v / 4 < 8) by (apply Z.div_lt_upper_bound; lia). lia.
Qed.

(** [strtolu] reads a string of up to 8 hexadecimal digits as the number it
    denotes, over the whole range of [unsigned long] although [strtol] saturates at
    2^31 - 1; so it reads back every address that the tools print with [%08lx]. *)
Theorem strtolu_reads_addresses s v :
  hex_string s = true → strlen s <= 8 → is_u32 v →
  strtolu s = hex_value s ∧ strtolu (fmt_hex 8 v) = v.
Proof.
  intros Hs Hl Hv. split; [by apply strtolu_run|]. unfold fmt_hex.
  pose proof (hex_width_u32 v Hv). rewrite Nat.max_l by lia.
  destruct (hex_digits_value 8 v "" eq_refl) as (H1 & H2 & H3); [apply Hv|].
  rewrite strtolu_run; [|done|rewrite H2; vm_compute; done]. rewrite H3.
  change (strlen "") with 0. rewrite Z.pow_0_r, Z.mul_1_r, Z.add_0_r. by apply Z.mod_small.
Qed.

Lemma strtolu_reads_addresses_witness :
  strtolu "BeF00000" = 0xbef00000 ∧ strtolu (fmt_hex 8 0xffff1234) = 0xffff1234.
Proof.
  destruct (strtolu_reads_addresses "BeF00000" 0xffff1234) as [H1 H2];
    [reflexivity|vm_compute; discriminate|split; [lia|reflexivity]|].
  rewrite H1. split; [reflexivity|exact H2].
Defined.

(** With a prefix the high bit is lost: the string has 10 characters. *)
Lemma strtolu_prefix_saturates : strtolu "0xbef00000" = 0x7fffffff.
Proof. reflexivity. Qed.

(** ** The page table as user space sees it *)

Definition str_nl (s : string) : string := s +:+ newline.

Section tools.
Context `{PhysLayout} `{MemoryMap}.

(** [((unsigned long * )fake_pgd)[i]] *)
Definition fake_pgd_load (i : Z) : M pstate Z :=
  b ← gets user_pgd;
  b ← of_option NullDeref b;
  of_option (OutOfBounds i) (b !! Z.to_nat i).

(** A word of user memory of the running process. *)
Definition user_load (a : Z) : M pstate Z :=
  m ← gets current_mm;
  d ← liftk (get_mm m);
  w ← gets (λ s, words (ps_kern s));
  of_option (BadAddr a) (user_read w (ArmPgtable.pgd d) a).

Definition translation_lines (begin_vaddr v_pgd v_pte v_offset p pageFrame physical_addr : Z) : list string :=
  [ str_nl "Virtual Address Translation:";
    str_nl ("  virtual address = 0x" +:+ fmt_hex 8 begin_vaddr);
    str_nl ("  pgd: 0x" +:+ fmt_hex 3 v_pgd +:+ tab +:+ "pte: 0x" +:+ fmt_hex 3 v_pte +:+ tab +:+
            "offset: 0x" +:+ fmt_hex 3 v_offset);
    str_nl ("  pgd_base[0x" +:+ fmt_hex 0 v_pgd +:+ "] = 0x" +:+ fmt_hex 8 p +:+ tab +:+ "pte[0x" +:+
            fmt_hex 0 v_pte +:+ "] = 0x" +:+ fmt_hex 8 pageFrame);
    str_nl ("  physical address = 0x" +:+ fmt_hex 8 physical_addr) ].

Definition VATranslate_expose_page_table (fuel : nat) (kmalloc_ok writable : bool)
    (pid fake_pgd page_table_addr begin_vaddr end_vaddr : Z) : M pstate (list string) :=
  r ← expose_page_table fuel kmalloc_ok writable pid fake_pgd page_table_addr begin_vaddr end_vaddr;
  if negb (r =? 0) then mret [str_nl "Failed to expose pagetable layout."]
  else
    let v_pgd := Z.land (Z.shiftr begin_vaddr 21) 0x7FF in
    let v_pte := Z.land (Z.shiftr begin_vaddr PAGE_SHIFT) 0x1FF in
    let v_offset := Z.land begin_vaddr 0xFFF in
    p ← fake_pgd_load v_pgd;
    x ← user_load (u32 (p + 4 * v_pte));
    let pageFrame := Z.land x 0xFFFFF000 in
    let physical_addr := u32 (pageFrame + v_offset) in
    mret ((if pageFrame =? 0 then ["Invalid physical address!"] else []) ++
          translation_lines begin_vaddr v_pgd v_pte v_offset p pageFrame physical_addr).

Definition rule : string := str_nl "============================================================".

Definition display_pagetable_layout (layout : pagetable_layout_info) : list string :=
  [ rule; str_nl "Android pagetable layout:";
    str_nl ("  pgdir_shift = " +:+ pretty (pgdir_shift layout));
    str_nl ("  page_shift = " +:+ pretty (page_shift layout)); rule ].

Definition VATranslate_get_pagetable_layout (writable : bool) : list string :=
  match get_pagetable_layout writable sizeof_layout_info with
  | (r, Some layout) =>
      if negb (r =? 0) then [str_nl "Failed to get pagetable layout."; newline]
      else display_pagetable_layout layout
  | (_, None) => [str_nl "Failed to get pagetable layout."; newline]
  end.


(** [fake_pgd] and [page_table_addr]: what [malloc] and [mmap] return; the exit
    status and the lines printed. *)
Definition VATranslate_main (fuel : nat) (kmalloc_ok writable : bool) (fake_pgd page_table_addr : Z)
    (argv : list string) : M pstate (Z * list string) :=
  let out := VATranslate_get_pagetable_layout writable in
  match argv with
  | [_; a1; a2] =>
      let pid := atoi a1 in
      let begin_vaddr := strtolu a2 in
      let end_vaddr := u32 (begin_vaddr + 1) in
      if fake_pgd =? 0 then mret (- EFAULT, out)
      else if page_table_addr =? 0 then mret (- EFAULT, out)
      else
        l ← VATranslate_expose_page_table fuel kmalloc_ok writable pid fake_pgd page_table_addr begin_vaddr end_vaddr;
        mret (0, out ++ l)
  | _ => mret (- EAGAIN, out ++ [str_nl "Unmatched parameters for VATranslate!";
                                 str_nl "The correct format should be:"; str_nl "./VATranslate #PID #VA"])
  end.

(** ** [vm_inspector] *)

Definition page_line (i pageFrame : Z) : string :=
  str_nl ("        0x" +:+ fmt_hex 5 i +:+ "                0x" +:+ fmt_hex 5 (Z.shiftr pageFrame PAGE_SHIFT)).

(** The loop over the [n] pages from [i]. *)
Fixpoint inspect_loop (n : nat) (i : Z) : M pstate (list string) :=
  match n with
  | O => mret []
  | S n =>
      p ← fake_pgd_load (Z.shiftr i 9);
      pageFrame ← user_load (u32 (p + 4 * Z.land i 0x1FF));
      rest ← inspect_loop n (i + 1);
      mret (if pte_present pageFrame then page_line i pageFrame :: rest else rest)
  end.

Definition inspector_expose_page_table (fuel : nat) (kmalloc_ok writable : bool)
    (pid fake_pgd page_table_addr begin_vaddr end_vaddr : Z) : M pstate (list string) :=
  r ← expose_page_table fuel kmalloc_ok writable pid fake_pgd page_table_addr begin_vaddr end_vaddr;
  if negb (r =? 0) then mret [str_nl "Failed to expose pagetable layout."]
  else
    let b := Z.land (Z.shiftr begin_vaddr PAGE_SHIFT) 0xFFFFF in
    let e := Z.land (Z.shiftr end_vaddr PAGE_SHIFT) 0xFFFFF in
    l ← inspect_loop (Z.to_nat (e - b + 1)) b;
    mret (str_nl ("  Virtual Page Number" +:+ tab +:+ "Physical Page Number") :: l).

Definition inspector_main (fuel : nat) (kmalloc_ok writable : bool) (fake_pgd page_table_addr : Z)
    (argv : list string) : M pstate (Z * list string) :=
  match argv with
  | [_; a1; a2; a3] =>
      let pid := atoi a1 in
      let begin_vaddr := strtolu a2 in
      let end_vaddr := strtolu a3 in
      if fake_pgd =? 0 then mret (- EFAULT, [])
      else if page_table_addr =? 0 then mret (- EFAULT, [])
      else
        l ← inspector_expose_page_table fuel kmalloc_ok writable pid fake_pgd page_table_addr begin_vaddr end_vaddr;
        mret (0, l)
  | _ => mret (- EAGAIN, [str_nl "Unmatched parameters for vm_inspector!";
                          str_nl "The correct format should be:"; str_nl "./vm_inspector #Pid #Va_Begin #Va_End"])
  end.

(** ** What the tools print

    The request is as for [expose_page_table_exposes]: [et] is the entry of the first
    level of the target for the range, [base] a free page of the caller. *)

Section request.
Context (pid fake base lo hi : Z) (s : pstate) (mt pt : Z) (d : mm) (a : Z) (v : vma) (e et : Z).

Record request_ok : Prop := RequestOk {
  rq_target : target_ok s pid mt pt lo hi;
  rq_base : base ≠ 0 ∧ base mod PAGE_SIZE = 0;
  rq_one : pgd_index (hi - 1) = pgd_index lo;
  rq_source : source_ok (ps_kern s) pt lo et;
  rq_dest : dest_ok (ps_kern s) (current_mm s) d a v base e;
  rq_free : dest_entry (ps_kern s) d base e = Some 0 ∧ hw_there (ps_kern s) d base e;
  rq_untouched : untouched (ps_kern s) d base e (pmd_page et);
}.

Context (Hreq : request_ok).

(** After the call the fake directory leads to the table of the target. *)
Lemma exposed_loads fuel :
  ∃ s', expose_page_table (S fuel) true true pid fake base lo hi s = Ok (0, s') ∧
    fake_pgd_load (pgd_index lo) s' = Ok (base, s') ∧
    ∀ i x, 0 <= i < 512 → words (ps_kern s) !! (pmd_page et * PAGE_SIZE + 4 * i) = Some x →
      user_load (u32 (base + 4 * i)) s' = Ok (x, s').
Proof.
  destruct Hreq as [Ht [Hb Hal] Hone Hsrc Hdest [Hx Hhw] Hut].
  destruct (expose_run fuel pid fake base lo hi s mt pt d a v e et) as (s' & H1 & H2 & H3 & H4 & n & H5); try done.
  exists s'. split; [done|]. destruct Ht as [_ _ [Hlo Hhi] _].
  destruct (pmdIndex_eq lo ltac:(unfold is_u32; lia)) as [_ Hi]. split.
  - unfold fake_pgd_load. rewrite (bind_Ok _ _ _ (user_pgd s') s') by done. rewrite H2. unfold of_option at 1.
    erewrite bind_Ok by reflexivity. rewrite list_lookup_insert_eq by (rewrite length_replicate; lia). done.
  - intros i x Hi' Hw. specialize (H4 i ltac:(lia)). rewrite Hw in H4.
    destruct (do_page _ _ _ _ _ _ _ Hdest) as (P1 & P2 & _). assert (PAGE_SIZE = 4096) as Eps by reflexivity.
    rewrite u32_id by (unfold is_u32; lia).
    unfold user_load. rewrite (bind_Ok _ _ _ (current_mm s') s') by done.
    erewrite bind_Ok by (unfold liftk, get_mm, mbind, M_bind, gets, of_option; simpl; by rewrite H5).
    erewrite bind_Ok by done. simpl. rewrite H4. by destruct s'.
Qed.

Lemma land_low_mask x k : 0 <= k → Z.land x (2 ^ k - 1) = x mod 2 ^ k.
Proof. intros Hk. rewrite <-Z.land_ones by lia. by rewrite Z.ones_equiv. Qed.


(** The lines for the [n] pages from [i]: those whose entry in the table in frame
    [T] is present. *)
Fixpoint present_lines (w : gmap Z Z) (T : Z) (n : nat) (i : Z) : list string :=
  match n with
  | O => []
  | S n =>
      match w !! pte_slot T (i * PAGE_SIZE) with
      | Some x => if pte_present x then [page_line i x] else []
      | None => []
      end ++ present_lines w T n (i + 1)
  end.

Lemma inspect_loop_run s' n i T :
  fake_pgd_load (pgd_index lo) s' = Ok (base, s') →
  (∀ j x, 0 <= j < 512 → words (ps_kern s) !! (T * PAGE_SIZE + 4 * j) = Some x →
    user_load (u32 (base + 4 * j)) s' = Ok (x, s')) →
  (∀ j, i <= j < i + Z.of_nat n → j / 512 = pgd_index lo ∧ is_Some (words (ps_kern s) !! pte_slot T (j * PAGE_SIZE))) →
  inspect_loop n i s' = Ok (present_lines (words (ps_kern s)) T n i, s').
Proof.
  intros Hp Hload. revert i. induction n as [|n IH]; intros i Hin; [done|].
  destruct (Hin i ltac:(lia)) as [Hi [x Hx]]. cbn [inspect_loop present_lines].
  rewrite (Z.shiftr_div_pow2 i 9) by lia. change (2 ^ 9) with 512. rewrite Hi, (bind_Ok _ _ _ _ _ Hp), Hx.
  assert (pte_index (i * PAGE_SIZE) = Z.land i 0x1FF) as E.
  { rewrite pte_index_eq. change PAGE_SIZE with 4096. rewrite Z.div_mul by lia.
    change 0x1FF with (2 ^ 9 - 1). by rewrite land_low_mask by lia. }
  rewrite <-E. rewrite (bind_Ok _ _ _ x s') by (apply Hload; [apply pte_index_range|exact Hx]).
  rewrite (bind_Ok _ _ _ _ _ (IH (i + 1) ltac:(intros j Hj; apply Hin; lia))). by destruct (pte_present x).
Qed.

End request.
End tools.

(** ** Concrete runs *)

Lemma demo_request_ok hi : 0x8000 < hi <= 0x200000 →
  request_ok 77 0x40000000 0x8000 hi demo_request 20 0xc0010000 demo_caller 1 demo_dest 0 0x21831.
Proof.
  intros Hhi. split; [apply demo_target_ok; lia|done| |exact demo_source_ok|exact demo_dest_ok| |exact demo_untouched].
  - rewrite !pgd_index_eq. change (0x8000 / PGDIR_SIZE) with 0. apply Z.div_small. change PGDIR_SIZE with 0x200000. lia.
  - destruct (with_table_new demo_kern 0xc0004000 0x40000000 (do_map _ _ _ _ _ _ _ demo_dest_ok)) as [Hx Hhw].
    split; [exact Hx|exact (ex_intro _ 0 Hhw)].
Qed.



(** The same request with a full table. *)
Definition demo_full : pstate :=
  set_kern (KSt (list_to_map ((λ i, (0x21000 + 4 * Z.of_nat i, 0x12345343)) <$> seq 0 512) ∪ demo_words)
    [0x20] (vmas demo_kern) (mms demo_kern)) demo_request.

(** The end address given to [vm_inspector] is exclusive for the kernel but its
    page is read: with a range that ends at a boundary of 2 MB the program follows
    the empty next entry of the fake directory, a null pointer. *)
Theorem inspector_faults_at_boundary :
  match expose_page_table 1 true true 77 0x1000 0x40000000 0x8000 0x200000 demo_full with
  | Ok (r, _) => r = 0
  | Err _ => False
  end ∧
  inspector_expose_page_table 1 true true 77 0x1000 0x40000000 0x8000 0x200000 demo_full = Err (BadAddr 0).
Proof. split; vm_compute; reflexivity. Qed.
