(* ===== verification/SyscallHooks.v ===== *)
(** * The modules in the system call table

    Models the initialisation and exit functions of
    [Project 1/ptreemodule/ptreemodule.c] and [Project 2/pagetable/pagetable.c]:
    each saves an entry of the system call table in a static variable, replaces it
    by its own function and puts it back on exit.  Both modules use entry 233. *)

From S2P Require Import Prelude PTree.

(** The table is the array of words at 0xc000d8c4; the static variables of the
    modules are 0 until they are set. *)
Record hooks := Hooks {
  syscall : gmap Z Z;
  oldcall : Z;
  oldcall_NR_get_pagetable_layout : Z;
  oldcall_NR_expose_page_table : Z;
}.

Definition __NR_get_pagetable_layout : Z := 233.
Definition __NR_expose_page_table : Z := 378.

Definition load (nr : Z) : M hooks Z := t ← gets syscall; of_option (BadAddr nr) (t !! nr).

Definition store (nr v : Z) : M hooks () :=
  load nr;;
  modify (λ s, Hooks (<[nr := v]> (syscall s)) (oldcall s) (oldcall_NR_get_pagetable_layout s)
                 (oldcall_NR_expose_page_table s)).

Definition set_oldcall (v : Z) : M hooks () :=
  modify (λ s, Hooks (syscall s) v (oldcall_NR_get_pagetable_layout s) (oldcall_NR_expose_page_table s)).

Definition set_old_layout (v : Z) : M hooks () :=
  modify (λ s, Hooks (syscall s) (oldcall s) v (oldcall_NR_expose_page_table s)).

Definition set_old_expose (v : Z) : M hooks () :=
  modify (λ s, Hooks (syscall s) (oldcall s) (oldcall_NR_get_pagetable_layout s) v).

Section modules.
(** The addresses of the functions of the modules. *)
Context (ptree_fn layout_fn expose_fn : Z).

Definition ptree_init : M hooks Z :=
  old ← load __NR_ptree;
  set_oldcall old;;
  store __NR_ptree ptree_fn;;
  mret 0.

Definition ptree_exit : M hooks () :=
  s ← gets oldcall;
  store __NR_ptree s.

Definition pagetable_layout_init : M hooks Z :=
  old ← load __NR_get_pagetable_layout;
  set_old_layout old;;
  store __NR_get_pagetable_layout layout_fn;;
  old ← load __NR_expose_page_table;
  set_old_expose old;;
  store __NR_expose_page_table expose_fn;;
  mret 0.

Definition pagetable_layout_exit : M hooks () :=
  s ← gets oldcall_NR_get_pagetable_layout;
  store __NR_get_pagetable_layout s;;
  s ← gets oldcall_NR_expose_page_table;
  store __NR_expose_page_table s.

(** [insmod] and [rmmod] of the two modules. *)
Inductive command := InsPtree | RmPtree | InsPagetable | RmPagetable.

Definition run_command (c : command) : M hooks () :=
  match c with
  | InsPtree => ptree_init;; mret ()
  | RmPtree => ptree_exit
  | InsPagetable => pagetable_layout_init;; mret ()
  | RmPagetable => pagetable_layout_exit
  end.

Fixpoint run_commands (l : list command) : M hooks () :=
  match l with [] => mret () | c :: l => run_command c;; run_commands l end.

(** Sequences in which a module that is loaded last is removed first, and no module
    is loaded twice. *)
Inductive nested : list command → Prop :=
  | nested_nil : nested []
  | nested_ptree : nested [InsPtree; RmPtree]
  | nested_pagetable : nested [InsPagetable; RmPagetable]
  | nested_ptree_outer : nested [InsPtree; InsPagetable; RmPagetable; RmPtree]
  | nested_pagetable_outer : nested [InsPagetable; InsPtree; RmPtree; RmPagetable]
  | nested_app l1 l2 : nested l1 → nested l2 → nested (l1 ++ l2).

Lemma run_commands_app l1 l2 s :
  run_commands (l1 ++ l2) s = (run_commands l1;; run_commands l2) s.
Proof.
  revert s. induction l1 as [|c l1 IH]; intros s; simpl; [done|].
  unfold mbind, M_bind. destruct (run_command c s) as [[[] s']|]; [|done]. rewrite IH. done.
Qed.

(** The entries the modules use exist. *)
Definition has_entries (s : hooks) : Prop := is_Some (syscall s !! 233) ∧ is_Some (syscall s !! 378).

Ltac run_hooks :=
  repeat first
    [ progress unfold run_command, ptree_init, ptree_exit, pagetable_layout_init, pagetable_layout_exit,
        set_oldcall, set_old_layout, set_old_expose, load, store, modify, gets, of_option, mbind, M_bind, mret, M_ret,
        __NR_ptree, __NR_get_pagetable_layout, __NR_expose_page_table
    | progress simpl | rewrite lookup_insert_eq | rewrite lookup_insert_ne by done
    | match goal with H : _ !! _ = Some _ |- _ => rewrite H end ].

Lemma nested_run l s : nested l → has_entries s →
  ∃ s', run_commands l s = Ok ((), s') ∧ syscall s' = syscall s.
Proof.
  intros Hl. revert s. induction Hl as [| | | | |l1 l2 _ IH1 _ IH2]; intros s Hs.
  6: { destruct (IH1 s Hs) as (s1 & H1 & E1).
       assert (has_entries s1) as Hs1 by (unfold has_entries; by rewrite E1).
       destruct (IH2 s1 Hs1) as (s2 & H2 & E2).
       exists s2. rewrite run_commands_app. unfold mbind, M_bind. rewrite H1. split; [done|congruence]. }
  all: destruct Hs as [[v1 H1] [v2 H2]].
  { by exists s. }
  all: destruct s as [t o1 o2 o3]; cbn [run_commands]; simpl in H1, H2; run_hooks; eexists; (split; [reflexivity|]); simpl.
  all: apply map_eq; intros i; destruct (decide (i = 233)) as [->|]; [|destruct (decide (i = 378)) as [->|]];
    repeat first [ rewrite lookup_insert_eq | rewrite lookup_insert_ne by done ]; congruence.
Qed.

(** Loading and removing the modules leaves the system call table as it was, for
    every sequence of commands in which the module loaded last is removed first. *)
Theorem nested_modules_restore_table l s :
  nested l → has_entries s → ∃ s', run_commands l s = Ok ((), s') ∧ syscall s' = syscall s.
Proof. apply nested_run. Qed.

(** When the modules are removed in the order they were loaded, entry 233 of the
    table points into the module that was removed first: a call of 233 runs code that
    has been freed. *)
Theorem fifo_removal_dangles s :
  has_entries s →
  ∃ s', run_commands [InsPtree; InsPagetable; RmPtree; RmPagetable] s = Ok ((), s') ∧
    syscall s' !! __NR_ptree = Some ptree_fn.
Proof.
  intros [[v1 H1] [v2 H2]]. destruct s as [t o1 o2 o3]. cbn [run_commands]. simpl in H1, H2.
  run_hooks. eexists. split; [reflexivity|]. simpl.
  by rewrite lookup_insert_ne, lookup_insert_eq by done.
Qed.
End modules.

Definition demo_hooks : hooks := Hooks {[ 233 := 0xc0040000; 378 := 0xc0050000 ]} 0 0 0.

Lemma demo_has_entries : has_entries demo_hooks.
Proof. split; by eexists. Qed.

Lemma nested_modules_restore_table_witness :
  ∃ s', run_commands 1 2 3 [InsPtree; InsPagetable; RmPagetable; RmPtree] demo_hooks = Ok ((), s') ∧
    syscall s' = syscall demo_hooks.
Proof. apply (nested_modules_restore_table 1 2 3 _ demo_hooks); [constructor|exact demo_has_entries]. Defined.

Lemma fifo_removal_dangles_witness :
  ∃ s', run_commands 0xbf000000 2 3 [InsPtree; InsPagetable; RmPtree; RmPagetable] demo_hooks = Ok ((), s') ∧
    syscall s' !! 233 = Some 0xbf000000.
Proof. apply (fifo_removal_dangles 0xbf000000 2 3 demo_hooks demo_has_entries). Defined.
