(* ===== verification/Hoare.v ===== *)
(** * Running monadic programs against postconditions

    [runs m s Q]: from state [s] the program [m] returns, and [Q] holds of the value
    and the state it returns.  A fault or a lack of fuel falsifies [runs], so every
    theorem stated with it includes that the code returns.

    [ends m s Q]: if [m] returns, [Q] holds; used only together with [runs], to add what
    a program computes to a proof that it returns. *)

From S2P Require Import Prelude.

Definition runs {S A} (m : M S A) (s : S) (Q : A → S → Prop) : Prop :=
  ∃ a s', m s = Ok (a, s') ∧ Q a s'.

Section runs.
Context {S : Type}.

Lemma runs_ret {A} (a : A) (s : S) (Q : A → S → Prop) : Q a s → runs (mret a) s Q.
Proof. intros H. by exists a, s. Qed.

Lemma runs_ok {A} (m : M S A) s a s' (Q : A → S → Prop) : m s = Ok (a, s') → Q a s' → runs m s Q.
Proof. intros ? ?. by exists a, s'. Qed.

Lemma runs_bind {A B} (m : M S A) (f : A → M S B) (s : S) (Q : B → S → Prop) :
  runs m s (λ a s', runs (f a) s' Q) → runs (m ≫= f) s Q.
Proof.
  intros (a & s' & Hm & b & s'' & Hf & HQ). exists b, s''. split; [|done].
  by rewrite (bind_Ok _ _ _ _ _ Hm).
Qed.

Lemma runs_mono {A} (m : M S A) (s : S) (P Q : A → S → Prop) :
  runs m s P → (∀ a s', P a s' → Q a s') → runs m s Q.
Proof. intros (a & s' & Hm & HP) H. exists a, s'. auto. Qed.

Lemma runs_gets {A} (f : S → A) (s : S) (Q : A → S → Prop) : Q (f s) s → runs (gets f) s Q.
Proof. intros H. by exists (f s), s. Qed.

Lemma runs_modify (f : S → S) (s : S) (Q : () → S → Prop) : Q () (f s) → runs (modify f) s Q.
Proof. intros H. by exists (), (f s). Qed.

Lemma runs_when (c : bool) (m : M S ()) (s : S) (Q : () → S → Prop) :
  (c = true → runs m s Q) → (c = false → Q () s) → runs (when c m) s Q.
Proof. intros H1 H2. destruct c; simpl; [by apply H1|]. apply runs_ret, H2; done. Qed.

(** Two statements are run as one. *)
Lemma runs_seq {A B} (m : M S ()) (m' : M S A) (k : A → M S B) (s : S) (Q : B → S → Prop) :
  runs (m;; m') s (λ a s', runs (k a) s' Q) → runs (m;; a ← m'; k a) s Q.
Proof.
  intros (a & s' & Hm & b & s'' & Hk & HQ). exists b, s''. split; [|done].
  rewrite <- bind_assoc. by rewrite (bind_Ok _ _ _ _ _ Hm).
Qed.

Lemma runs_and {A} (m : M S A) (s : S) (P Q : A → S → Prop) :
  runs m s P → runs m s Q → runs m s (λ a s', P a s' ∧ Q a s').
Proof. intros (a & s' & Hm & HP) (a' & s'' & Hm' & HQ). rewrite Hm in Hm'. simplify_eq. eexists _, _. split; [exact Hm|done]. Qed.
End runs.

(** [rstep H as (pattern)] runs the first action of a program, by the lemma [H] about it,
    and names what it gives. *)
Tactic Notation "rstep" uconstr(H) "as" simple_intropattern(p) :=
  apply runs_bind; eapply runs_mono; [eapply H|cbn beta; intros ?a ?s p].

Definition ends {S A} (m : M S A) (s : S) (Q : A → S → Prop) : Prop := ∀ a s', m s = Ok (a, s') → Q a s'.

Section ends.
Context {S : Type}.

Lemma ends_ret {A} (a : A) (s : S) (Q : A → S → Prop) : Q a s → ends (mret a) s Q.
Proof. intros H a' s' E. rewrite ret_Ok in E. by simplify_eq. Qed.

Lemma ends_fail {A} e (s : S) (Q : A → S → Prop) : ends (fail e) s Q.
Proof. by intros a s' E. Qed.

Lemma ends_bind {A B} (m : M S A) (f : A → M S B) (s : S) (Q : B → S → Prop) :
  ends m s (λ a s', ends (f a) s' Q) → ends (m ≫= f) s Q.
Proof. intros H b s'' E. apply bind_Ok_inv in E as (a & s' & Hm & Hf). by eapply H. Qed.

Lemma ends_mono {A} (m : M S A) (s : S) (P Q : A → S → Prop) :
  ends m s P → (∀ a s', P a s' → Q a s') → ends m s Q.
Proof. unfold ends. eauto. Qed.

Lemma ends_gets {A} (f : S → A) (s : S) (Q : A → S → Prop) : Q (f s) s → ends (gets f) s Q.
Proof. intros H a s' E. unfold gets in E. by simplify_eq. Qed.

Lemma ends_modify (f : S → S) (s : S) (Q : () → S → Prop) : Q () (f s) → ends (modify f) s Q.
Proof. intros H a s' E. unfold modify in E. by simplify_eq. Qed.

Lemma ends_when (c : bool) (m : M S ()) (s : S) (Q : () → S → Prop) :
  (c = true → ends m s Q) → (c = false → Q () s) → ends (when c m) s Q.
Proof. intros H1 H2. destruct c; simpl; [by apply H1|]. apply ends_ret, H2; done. Qed.

Lemma runs_ends {A} (m : M S A) (s : S) (P Q : A → S → Prop) :
  runs m s P → ends m s Q → runs m s (λ a s', P a s' ∧ Q a s').
Proof. intros (a & s' & Hm & HP) H. exists a, s'. eauto. Qed.
End ends.
