(* ===== verification/SeqFile.v ===== *)
(** * Sequential files of the kernel

    Models [goldfish/fs/seq_file.c] with [goldfish/include/linux/seq_file.h]: the buffer of
    a sequential file ([seq_printf], [seq_puts], [seq_putc], [seq_write]), the calls of an
    open file ([seq_open], [traverse], [seq_read], [seq_lseek], [seq_release]), and the
    files of a single record ([single_open]).  The methods of a file are the record
    [seq_operations]; [Records] states what a file needs of them. *)

From Stdlib Require Import Ascii.
From S2P Require Import Prelude Hoare ArmPgtable.

(** [struct seq_file]: [sq_buf] is the block that [buf] points to.  The mutex serialises
    the calls, each of which is one action of the model. *)
Record seq_file := SeqFile {
  sq_buf : option (list ascii);
  sq_size : Z;
  sq_from : Z;
  sq_count : Z;
  sq_index : Z;
  sq_read_pos : Z;
  sq_version : Z;
}.

Definition set_buf b (m : seq_file) := SeqFile b (sq_size m) (sq_from m) (sq_count m) (sq_index m) (sq_read_pos m) (sq_version m).
Definition set_size n (m : seq_file) := SeqFile (sq_buf m) n (sq_from m) (sq_count m) (sq_index m) (sq_read_pos m) (sq_version m).
Definition set_from n (m : seq_file) := SeqFile (sq_buf m) (sq_size m) n (sq_count m) (sq_index m) (sq_read_pos m) (sq_version m).
Definition set_count n (m : seq_file) := SeqFile (sq_buf m) (sq_size m) (sq_from m) n (sq_index m) (sq_read_pos m) (sq_version m).
Definition set_index n (m : seq_file) := SeqFile (sq_buf m) (sq_size m) (sq_from m) (sq_count m) n (sq_read_pos m) (sq_version m).
Definition set_read_pos n (m : seq_file) := SeqFile (sq_buf m) (sq_size m) (sq_from m) (sq_count m) (sq_index m) n (sq_version m).
Definition set_version n (m : seq_file) := SeqFile (sq_buf m) (sq_size m) (sq_from m) (sq_count m) (sq_index m) (sq_read_pos m) n.

(** What [start] and [next] return: NULL, [ERR_PTR(e)] or a pointer. *)
Inductive ptr := PNull | PErr (e : Z) | PItem (v : Z).

Record seq_operations := SeqOperations {
  start : Z → M seq_file (ptr * Z);
  stop : ptr → M seq_file ();
  next : Z → Z → M seq_file (ptr * Z);
  show : Z → M seq_file Z;
}.

(** The open file, with the calls of [kmalloc] made so far and the blocks not yet freed. *)
Record file := File {
  private_data : option seq_file;
  f_pos : Z;
  f_version : Z;
  f_pwrite : bool;
  kcalls : nat;
  live : Z;
}.

(** The slab allocator: the [k]-th call with size [n] fails or returns a block of [n] bytes,
    with whatever is in it; and the sizes of the structures allocated. *)
Class Slab := {
  sizeof_seq_file : Z;
  sizeof_seq_operations : Z;
  kmalloc : nat → Z → option (list ascii);
  kmalloc_size k n b : kmalloc k n = Some b → Z.of_nat (length b) = n;
}.

(** ** The buffer *)

Definition seq_overflow (m : seq_file) : bool := sq_count m =? sq_size m.

Definition seq_set_overflow : M seq_file () := modify (λ m, set_count (sq_size m) m).

(** Bytes written at offset [off] of the buffer. *)
Definition write_at (off : Z) (t b : list ascii) : list ascii :=
  take (Z.to_nat off) b ++ t ++ drop (Z.to_nat off + length t) b.

Definition poke (off : Z) (t : list ascii) : M seq_file () := λ m,
  match sq_buf m with
  | None => Err NullDeref
  | Some b =>
      if (0 <=? off) && (off + Z.of_nat (length t) <=? Z.of_nat (length b))
      then Ok ((), set_buf (Some (write_at off t b)) m)
      else Err (OutOfBounds (off + Z.of_nat (length t)))
  end.

(** [seq_printf]: [t] is the formatted text; [vsnprintf] stores what fits, with a NUL. *)
Definition seq_printf (t : list ascii) : M seq_file Z :=
  m ← gets id;
  if sq_count m <? sq_size m then
    poke (sq_count m) (take (Z.to_nat (sq_size m - sq_count m - 1)) t ++ ["000"%char]);;
    if sq_count m + Z.of_nat (length t) <? sq_size m
    then modify (set_count (sq_count m + Z.of_nat (length t)));; mret 0
    else seq_set_overflow;; mret (-1)
  else seq_set_overflow;; mret (-1).

Definition seq_putc (c : ascii) : M seq_file Z :=
  m ← gets id;
  if sq_count m <? sq_size m then
    poke (sq_count m) [c];; modify (set_count (sq_count m + 1));; mret 0
  else mret (-1).

Definition seq_puts (t : list ascii) : M seq_file Z :=
  m ← gets id;
  let len := Z.of_nat (length t) in
  if sq_count m + len <? sq_size m then
    poke (sq_count m) t;; modify (set_count (sq_count m + len));; mret 0
  else seq_set_overflow;; mret (-1).

Definition seq_write (t : list ascii) : M seq_file Z :=
  m ← gets id;
  let len := Z.of_nat (length t) in
  if sq_count m + len <? sq_size m then
    poke (sq_count m) t;; modify (set_count (sq_count m + len));; mret 0
  else seq_set_overflow;; mret (-1).

(** ** The calls of an open file *)

Definition get_m : M file seq_file := λ s,
  match private_data s with Some m => Ok (m, s) | None => Err NullDeref end.

Definition set_m (m : option seq_file) (s : file) : file := File m (f_pos s) (f_version s) (f_pwrite s) (kcalls s) (live s).
Definition set_f_pos n (s : file) : file := File (private_data s) n (f_version s) (f_pwrite s) (kcalls s) (live s).
Definition set_f_version n (s : file) : file := File (private_data s) (f_pos s) n (f_pwrite s) (kcalls s) (live s).
Definition set_live n (s : file) : file := File (private_data s) (f_pos s) (f_version s) (f_pwrite s) (kcalls s) n.

(** An action on the [struct seq_file] of the file. *)
Definition on_m {A} (a : M seq_file A) : M file A := λ s,
  match private_data s with
  | Some m => match a m with Ok (x, m') => Ok (x, set_m (Some m') s) | Err e => Err e end
  | None => Err NullDeref
  end.

Definition upd_m (f : seq_file → seq_file) : M file () := on_m (modify f).

Section calls.
Context {K : Slab}.

Definition do_kmalloc (n : Z) : M file (option (list ascii)) := λ s,
  let b := kmalloc (kcalls s) n in
  Ok (b, File (private_data s) (f_pos s) (f_version s) (f_pwrite s) (S (kcalls s))
           (live s + match b with Some _ => 1 | None => 0 end)).

(** [kfree]; NULL is allowed. *)
Definition kfree {A} (b : option A) : M file () :=
  when (bool_decide (is_Some b)) (modify (λ s, set_live (live s - 1) s)).

Definition seq_open : M file Z :=
  s ← gets id;
  got ← match private_data s with
        | Some _ => mret true
        | None => b ← do_kmalloc sizeof_seq_file; mret (bool_decide (is_Some b))
        end;
  if negb got then mret (- ENOMEM) else
  modify (λ s, File (Some (SeqFile None 0 0 0 0 0 0)) (f_pos s) 0 false (kcalls s) (live s));;
  mret 0.

(** [m->buf = kmalloc(m->size = n, GFP_KERNEL)], and whether it is not NULL. *)
Definition grab (n : Z) : M file bool :=
  upd_m (set_size n);;
  b ← do_kmalloc n;
  upd_m (set_buf b);;
  mret (bool_decide (is_Some b)).

(** [kfree(m->buf); m->buf = kmalloc(m->size <<= 1, GFP_KERNEL)] *)
Definition regrow : M file bool :=
  m ← get_m;
  kfree (sq_buf m);;
  grab (u32 (Z.shiftl (sq_size m) 1)).

Variable ops : seq_operations.

(** The [while] of [traverse] and what follows it, up to the return value.  [error] is the
    variable of the function. *)
Fixpoint traverse_loop (fuel : nat) (offset pos index error : Z) (p : ptr) : M file Z :=
  match fuel with
  | O => fail NoFuel
  | S fuel =>
      let finish (error index : Z) := on_m (stop ops p);; upd_m (set_index index);; mret error in
      match p with
      | PNull => finish error index
      | PErr e => finish e index
      | PItem v =>
          error ← on_m (show ops v);
          if error <? 0 then finish error index else
          when (negb (error =? 0)) (upd_m (set_count 0));;
          m ← get_m;
          if seq_overflow m then
            on_m (stop ops p);;
            got ← regrow;
            mret (if got : bool then - EAGAIN else - ENOMEM)
          else if offset <? pos + sq_count m then
            upd_m (set_from (offset - pos));;
            upd_m (λ m, set_count (sq_count m - (offset - pos)) m);;
            finish 0 index
          else
            upd_m (set_count 0);;
            if pos + sq_count m =? offset then finish 0 (index + 1) else
            '(p', index') ← on_m (next ops v index);
            traverse_loop fuel offset (pos + sq_count m) index' 0 p'
      end
  end.

Definition traverse (fuel : nat) (offset : Z) : M file Z :=
  upd_m (set_version 0);;
  upd_m (set_from 0);;
  upd_m (set_count 0);;
  if offset =? 0 then upd_m (set_index 0);; mret 0 else
  m ← get_m;
  got ← match sq_buf m with Some _ => mret true | None => grab PAGE_SIZE end;
  if negb got then mret (- ENOMEM) else
  '(p, index) ← on_m (start ops 0);
  traverse_loop fuel offset 0 index 0 p.

(** [while ((err = traverse(m, offset)) == -EAGAIN);] *)
Fixpoint traverse_retry (tries fuel : nat) (offset : Z) : M file Z :=
  match tries with
  | O => fail NoFuel
  | S tries =>
      err ← traverse fuel offset;
      if err =? - EAGAIN then traverse_retry tries fuel offset else mret err
  end.

(** The first loop of [seq_read] ends at the label [Fill], after the loop, or at
    [Enomem]. *)
Inductive first_end := Fill (p : ptr) (pos : Z) | Ended (p : ptr) (err : Z) | Enomem.

Fixpoint first_record (fuel : nat) (p : ptr) (pos : Z) : M file first_end :=
  match fuel with
  | O => fail NoFuel
  | S fuel =>
      match p with
      | PNull => mret (Ended p 0)
      | PErr e => mret (Ended p e)
      | PItem v =>
          err ← on_m (show ops v);
          if err <? 0 then mret (Ended p err) else
          when (negb (err =? 0)) (upd_m (set_count 0));;
          m ← get_m;
          if sq_count m =? 0 then
            '(p', pos') ← on_m (next ops v pos);
            upd_m (set_index pos');;
            first_record fuel p' pos'
          else if sq_count m <? sq_size m then mret (Fill p pos) else
          on_m (stop ops p);;
          got ← regrow;
          if negb got then mret Enomem else
          upd_m (set_count 0);;
          upd_m (set_version 0);;
          m ← get_m;
          '(p', pos') ← on_m (start ops (sq_index m));
          first_record fuel p' pos'
      end
  end.

(** The loop after [Fill]: more records, as long as they fit. *)
Fixpoint fill_loop (fuel : nat) (p : ptr) (pos sz : Z) : M file (ptr * Z) :=
  match fuel with
  | O => fail NoFuel
  | S fuel =>
      m ← get_m;
      if negb (sq_count m <? sz) then mret (p, pos) else
      match p with
      | PItem v =>
          '(p', nxt) ← on_m (next ops v pos);
          match p' with
          | PItem v' =>
              err ← on_m (show ops v');
              m' ← get_m;
              if seq_overflow m' || negb (err =? 0) then
                upd_m (set_count (sq_count m));;
                if err <=? 0 then mret (p', pos) else fill_loop fuel p' nxt sz
              else fill_loop fuel p' nxt sz
          | _ => mret (p', pos)
          end
      | _ => mret (p, pos)
      end
  end.

(** [copy_to_user] of [n] bytes from offset [off] of the buffer: [None] when it faults. *)
Definition copy_out (user_ok : bool) (off n : Z) : M file (option (list ascii)) :=
  m ← get_m;
  match sq_buf m with
  | None => fail NullDeref
  | Some b =>
      if off + n <=? Z.of_nat (length b)
      then mret (if user_ok || (n =? 0) then Some (take (Z.to_nat n) (drop (Z.to_nat off) b)) else None)
      else fail (OutOfBounds (off + n))
  end.

(** From the label [Done]: the value returned, the bytes the user got and [*ppos]. *)
Definition seq_done (err : Z) (copied : list ascii) (ppos : Z) : M file (Z * list ascii * Z) :=
  let n := Z.of_nat (length copied) in
  when (negb (n =? 0)) (upd_m (λ m, set_read_pos (sq_read_pos m + n) m));;
  m ← get_m;
  modify (set_f_version (sq_version m));;
  mret (if n =? 0 then (err, copied, ppos) else (n, copied, ppos + n)).

(** From "we need at least one record in buffer" to [Done], with [sz] bytes still wanted. *)
Definition seq_fill (fuel : nat) (user_ok : bool) (sz : Z) (copied : list ascii) (ppos : Z)
    : M file (Z * list ascii * Z) :=
  m ← get_m;
  '(p, pos) ← on_m (start ops (sq_index m));
  r ← first_record fuel p pos;
  match r with
  | Enomem => seq_done (- ENOMEM) copied ppos
  | Ended p err => on_m (stop ops p);; upd_m (set_count 0);; seq_done err copied ppos
  | Fill p pos =>
      '(p, pos) ← fill_loop fuel p pos sz;
      on_m (stop ops p);;
      m ← get_m;
      let n := Z.min (sq_count m) sz in
      d ← copy_out user_ok 0 n;
      match d with
      | None => seq_done (- EFAULT) copied ppos
      | Some d =>
          upd_m (set_count (sq_count m - n));;
          when (negb (sq_count m - n =? 0)) (upd_m (set_from n));;
          upd_m (set_index (if sq_count m - n =? 0 then pos + 1 else pos));;
          seq_done 0 (copied ++ d) ppos
      end
  end.

Definition seq_read (fuel : nat) (user_ok : bool) (sz ppos : Z) : M file (Z * list ascii * Z) :=
  m ← get_m;
  v ← gets f_version;
  upd_m (set_version v);;
  err ← (if ppos =? sq_read_pos m then mret 0 else
         err ← traverse_retry fuel fuel ppos;
         if err =? 0 then upd_m (set_read_pos ppos);; mret 0 else
         upd_m (λ m, SeqFile (sq_buf m) (sq_size m) (sq_from m) 0 0 0 0);; mret err);
  if negb (err =? 0) then seq_done err [] ppos else
  m ← get_m;
  got ← match sq_buf m with Some _ => mret true | None => grab PAGE_SIZE end;
  if negb got then seq_done (- ENOMEM) [] ppos else
  m ← get_m;
  if sq_count m =? 0 then seq_fill fuel user_ok sz [] ppos else
  let n := Z.min (sq_count m) sz in
  d ← copy_out user_ok (sq_from m) n;
  match d with
  | None => seq_done (- EFAULT) [] ppos
  | Some d =>
      upd_m (set_count (sq_count m - n));;
      upd_m (set_from (sq_from m + n));;
      when (sq_count m - n =? 0) (upd_m (λ m, set_index (sq_index m + 1) m));;
      if sz - n =? 0 then seq_done 0 d ppos else seq_fill fuel user_ok (sz - n) d ppos
  end.

Definition seq_lseek (fuel : nat) (offset origin : Z) : M file Z :=
  m ← get_m;
  s ← gets id;
  upd_m (set_version (f_version s));;
  let offset := if origin =? 1 then offset + f_pos s else offset in
  r ← (if negb ((origin =? 0) || (origin =? 1)) || (offset <? 0) then mret (- EINVAL) else
       if offset =? sq_read_pos m then mret offset else
       err ← traverse_retry fuel fuel offset;
       if err =? 0 then
         upd_m (set_read_pos offset);; modify (set_f_pos offset);; mret offset
       else
         modify (set_f_pos 0);;
         upd_m (λ m, SeqFile (sq_buf m) (sq_size m) (sq_from m) 0 0 0 0);; mret err);
  m ← get_m;
  modify (set_f_version (sq_version m));;
  mret r.

Definition seq_release : M file Z :=
  m ← get_m;
  kfree (sq_buf m);;
  kfree (Some m);;
  modify (set_m None);;
  mret 0.

(** The system call [read], on a file open for reading. *)
Definition sys_read (fuel : nat) (user_ok : bool) (n : Z) : M file (Z * list ascii) :=
  pos ← gets f_pos;
  '(ret, d, pos') ← seq_read fuel user_ok n pos;
  modify (set_f_pos pos');;
  mret (ret, d).
End calls.

(** ** Files of a single record *)

Definition single_start (pos : Z) : M seq_file (ptr * Z) :=
  mret (if pos =? 0 then PItem 1 else PNull, pos).

Definition single_next (_ pos : Z) : M seq_file (ptr * Z) := mret (PNull, pos + 1).

Definition single_stop (_ : ptr) : M seq_file () := mret ().

Definition single_ops (show : M seq_file Z) : seq_operations :=
  SeqOperations single_start single_stop single_next (λ _, show).

(** [single_open]: on success the method table [op] is a block of its own. *)
Definition single_open `{Slab} : M file Z :=
  op ← do_kmalloc sizeof_seq_operations;
  match op with
  | None => mret (- ENOMEM)
  | Some _ =>
      res ← seq_open;
      when (negb (res =? 0)) (kfree op);;
      mret res
  end.

Definition single_release : M file Z :=
  res ← seq_release;
  kfree (Some ());;
  mret res.
