(* ===== verification/SeqFileInv.v ===== *)
(** * Sequential files: what the methods print and what the buffer holds

    [shown] says what a method that prints a text does to the buffer, [Records] what a file
    needs of its methods: they enumerate a list of records and print each.  The lemmas
    follow the loops of [traverse] and [seq_read] with the part of the records not yet
    given to the reader. *)

From Stdlib Require Import Ascii.
From S2P Require Import Prelude Hoare ArmPgtable SeqFile.

Notation len l := (Z.of_nat (length l)).

(** ** Printing into the buffer *)

Definition room (m : seq_file) (b : list ascii) : Prop :=
  sq_buf m = Some b ∧ len b = sq_size m ∧ 0 <= sq_count m <= sq_size m.

(** [shown t m m']: the text [t] was appended to the buffer, or it did not fit and the file
    is marked as overflown; what the buffer held is kept. *)
Inductive shown (t : list ascii) (m m' : seq_file) : Prop :=
  | Shown b b' c' :
      sq_buf m = Some b → length b' = length b →
      m' = set_count c' (set_buf (Some b') m) →
      take (Z.to_nat (sq_count m)) b' = take (Z.to_nat (sq_count m)) b →
      (c' = sq_count m + len t ∧ c' < sq_size m ∧
         take (Z.to_nat c') b' = take (Z.to_nat (sq_count m)) b ++ t) ∨
      (c' = sq_size m ∧ sq_size m <= sq_count m + len t) →
      shown t m m'.

Lemma write_at_length off t b :
  0 <= off → off + len t <= len b → length (write_at off t b) = length b.
Proof. intros. unfold write_at. rewrite !length_app, length_take, length_drop. lia. Qed.

Lemma write_at_before off t b :
  0 <= off <= len b → take (Z.to_nat off) (write_at off t b) = take (Z.to_nat off) b.
Proof. intros. unfold write_at. apply take_app_length'. rewrite length_take. lia. Qed.

Lemma write_at_text off t u b :
  0 <= off <= len b →
  take (Z.to_nat (off + len t)) (write_at off (t ++ u) b) = take (Z.to_nat off) b ++ t.
Proof.
  intros. unfold write_at. rewrite <- app_assoc, app_assoc. apply take_app_length'.
  rewrite length_app, length_take. lia.
Qed.

Lemma poke_run m b off t :
  sq_buf m = Some b → 0 <= off → off + len t <= len b →
  poke off t m = Ok ((), set_buf (Some (write_at off t b)) m).
Proof. intros Hb ? ?. unfold poke. rewrite Hb, (proj2 (Z.leb_le 0 off)), (proj2 (Z.leb_le (off + _) _)) by lia. done. Qed.

Lemma full_shown t m b : room m b → sq_size m <= sq_count m + len t → shown t m (set_count (sq_size m) m).
Proof.
  intros (Hb & Hl & Hc) Ht. eapply (Shown _ _ _ b b (sq_size m)); [done|done| |done|by right].
  destruct m. cbn in *. by subst.
Qed.

Lemma seq_printf_shown t m b :
  room m b → ∃ r m', seq_printf t m = Ok (r, m') ∧ shown t m m'.
Proof.
  intros R. pose proof R as (Hb & Hl & Hc). unfold seq_printf. rewrite (bind_Ok _ _ _ _ _ eq_refl). cbn [id].
  destruct (Z.ltb_spec (sq_count m) (sq_size m)) as [Hlt|Hge].
  - erewrite bind_Ok.
    2:{ apply (poke_run _ b); [done|lia|]. rewrite length_app, length_take. simpl. lia. }
    set (u := take _ t ++ _). assert (off_ok : 0 <= sq_count m <= len b) by lia.
    assert (length (write_at (sq_count m) u b) = length b) as Hw.
    { apply write_at_length; [lia|]. unfold u. rewrite length_app, length_take. simpl. lia. }
    destruct (Z.ltb_spec (sq_count m + len t) (sq_size m)) as [Hfit|Hno].
    + eexists 0, _. split; [reflexivity|].
      eapply (Shown _ _ _ b (write_at (sq_count m) u b) (sq_count m + len t)); [done|done|done|by apply write_at_before|].
      left. split_and!; [done|done|]. unfold u. rewrite (take_ge t) by lia. by apply write_at_text.
    + eexists (-1), _. split; [reflexivity|].
      eapply (Shown _ _ _ b (write_at (sq_count m) u b) (sq_size m)); [done|done|done|by apply write_at_before|right; split; [done|lia]].
  - eexists (-1), _. split; [reflexivity|]. eapply full_shown; [done|lia].
Qed.

Lemma seq_puts_shown t m b :
  room m b → ∃ r m', seq_puts t m = Ok (r, m') ∧ shown t m m'.
Proof.
  intros R. pose proof R as (Hb & Hl & Hc). unfold seq_puts. rewrite (bind_Ok _ _ _ _ _ eq_refl). cbn [id].
  destruct (Z.ltb_spec (sq_count m + len t) (sq_size m)) as [Hlt|Hge].
  - erewrite bind_Ok by (apply (poke_run _ b); [done|lia|lia]).
    eexists 0, _. split; [reflexivity|].
    eapply (Shown _ _ _ b (write_at (sq_count m) t b) (sq_count m + len t)); [done|by apply write_at_length; lia|done|apply write_at_before; lia|].
    left. split_and!; [done|done|]. rewrite <- (app_nil_r t) at 2. apply write_at_text. lia.
  - eexists (-1), _. split; [reflexivity|]. eapply full_shown; [done|lia].
Qed.

Lemma seq_write_shown t m b :
  room m b → ∃ r m', seq_write t m = Ok (r, m') ∧ shown t m m'.
Proof. apply seq_puts_shown. Qed.

Lemma seq_putc_shown c m b :
  room m b → ∃ r m', seq_putc c m = Ok (r, m') ∧ shown [c] m m'.
Proof.
  intros R. pose proof R as (Hb & Hl & Hc). unfold seq_putc. rewrite (bind_Ok _ _ _ _ _ eq_refl). cbn [id].
  destruct (Z.ltb_spec (sq_count m) (sq_size m)) as [Hlt|Hge].
  - erewrite bind_Ok by (apply (poke_run _ b); simpl; [done|lia|lia]).
    eexists 0, _. split; [reflexivity|].
    eapply (Shown _ _ _ b (write_at (sq_count m) [c] b) (sq_count m + 1)); [done|apply write_at_length; simpl; lia|done|apply write_at_before; lia|].
    destruct (decide (sq_count m + 1 < sq_size m)) as [?|?]; [left|right; simpl; lia].
    split_and!; [done|done|]. by apply (write_at_text (sq_count m) [c] [] b); lia.
  - eexists (-1), _. split; [reflexivity|].
    assert (sq_count m = sq_size m) as E by lia.
    eapply (Shown _ _ _ b b (sq_size m)); [done|done| |done|right; simpl; lia].
    destruct m. cbn in *. by subst.
Qed.

Lemma shown_room t m m' b : room m b → shown t m m' → ∃ b', room m' b'.
Proof.
  intros (Hb & Hl & Hc) [b1 b' c' Hb1 Hl' -> _ Hc']. exists b'. simplify_eq.
  split_and!; cbn; [done|lia|lia|]. destruct Hc' as [(-> & ? & _)|[-> _]]; lia.
Qed.

(** Texts printed one after the other. *)
Lemma shown_app t u m b m1 m2 : room m b → shown t m m1 → shown u m1 m2 → shown (t ++ u) m m2.
Proof.
  intros (Hb & Hl & Hc) [b0 b1 c1 Hb0 Hl1 -> Hk1 H1] [b2 b3 c2 Hb2 Hl2 -> Hk2 H2]. cbn in *.
  assert (b0 = b) as -> by congruence. assert (b2 = b1) as -> by congruence.
  assert (sq_count m <= c1) as Hle by (destruct H1 as [(-> & _)|[-> _]]; lia).
  assert (take (Z.to_nat (sq_count m)) b3 = take (Z.to_nat (sq_count m)) b) as Hk.
  { rewrite <- Hk1. apply (f_equal (take (Z.to_nat (sq_count m)))) in Hk2. by rewrite !take_take, !min_l in Hk2 by lia. }
  eapply (Shown _ _ _ b b3 c2); [done|congruence|by destruct m|done|]. rewrite length_app.
  destruct H1 as [(-> & ? & E1)|[-> ?]], H2 as [(-> & ? & E2)|[-> ?]]; [left|right..]; try (split; lia).
  split_and!; [lia|done|]. by rewrite E2, E1, app_assoc.
Qed.

Lemma shown_nil m b : room m b → sq_count m < sq_size m → shown [] m m.
Proof.
  intros (Hb & Hl & Hc) Hlt. eapply (Shown _ _ _ b b (sq_count m)); [done|done| |done|].
  - destruct m. cbn in *. by subst.
  - left. rewrite app_nil_r. simpl. split_and!; [lia|done|done].
Qed.

(** ** Methods that enumerate records *)

Definition item (recs : list (list ascii)) (handle : Z → Z) (pos : Z) : ptr :=
  if pos <? len recs then PItem (handle pos) else PNull.

Class Records (ops : seq_operations) (recs : list (list ascii)) := {
  handle : Z → Z;
  rec_start pos m : 0 <= pos → start ops pos m = Ok ((item recs handle pos, pos), m);
  rec_next pos m : 0 <= pos < len recs → next ops (handle pos) pos m = Ok ((item recs handle (pos + 1), pos + 1), m);
  rec_stop p m : stop ops p m = Ok ((), m);
  rec_show pos t m b : 0 <= pos → recs !! Z.to_nat pos = Some t → room m b →
    ∃ m', show ops (handle pos) m = Ok (0, m') ∧ shown t m m';
}.

(** ** The file while a call runs

    [st fp fv l m s]: the open file [s] has the [struct seq_file] [m]; [l] counts the blocks
    other than the buffer. *)

Definition has_buf (m : seq_file) : Z := match sq_buf m with Some _ => 1 | None => 0 end.

Record st (fp fv l : Z) (m : seq_file) (s : file) : Prop := St {
  st_m : private_data s = Some m;
  st_pos : f_pos s = fp;
  st_version : f_version s = fv;
  st_live : live s = l + has_buf m;
}.

Lemma runs_get_m fp fv l m s Q : st fp fv l m s → Q m s → runs get_m s Q.
Proof. intros S HQ. eapply runs_ok; [|exact HQ]. unfold get_m. by rewrite (st_m _ _ _ _ _ S). Qed.

Lemma runs_on_m {A} fp fv l m s (a : M seq_file A) x m' Q :
  st fp fv l m s → a m = Ok (x, m') → has_buf m' = has_buf m →
  (∀ s', st fp fv l m' s' → Q x s') → runs (on_m a) s Q.
Proof.
  intros S Ha Hb HQ. eapply runs_ok; [unfold on_m; by rewrite (st_m _ _ _ _ _ S), Ha|].
  apply HQ. split; cbn; try apply S; [done|]. rewrite Hb. apply S.
Qed.

Lemma runs_upd_m fp fv l m s f Q :
  st fp fv l m s → has_buf (f m) = has_buf m → (∀ s', st fp fv l (f m) s' → Q () s') → runs (upd_m f) s Q.
Proof. intros S Hb HQ. by eapply runs_on_m. Qed.

Section loops.
Context {K : Slab} (lim : Z).
Context (granted : ∀ k n, 0 <= n <= Z.max PAGE_SIZE (2 * lim) → is_Some (kmalloc k n)).
Context (lim_ok : 0 <= lim < 2 ^ 31).

Lemma grab_runs fp fv l m s n :
  st fp fv l m s → sq_buf m = None → 0 <= n <= Z.max PAGE_SIZE (2 * lim) →
  runs (grab n) s (λ got s', got = true ∧ ∃ b, len b = n ∧ st fp fv l (set_buf (Some b) (set_size n m)) s').
Proof.
  intros S Hb Hn. unfold grab. apply runs_bind. eapply runs_upd_m; [exact S|done|]. intros s1 S1.
  destruct (granted (kcalls s1) n Hn) as [b Eb]. apply runs_bind.
  eapply runs_ok; [unfold do_kmalloc; by rewrite Eb|]. apply runs_bind.
  eapply runs_ok; [unfold upd_m, on_m; cbn; by rewrite (st_m _ _ _ _ _ S1)|]. apply runs_ret.
  split; [done|]. exists b. split; [by eapply kmalloc_size|].
  split; cbn; try apply S1; [done|]. rewrite (st_live _ _ _ _ _ S1). unfold has_buf. cbn. rewrite Hb. lia.
Qed.

Lemma regrow_runs fp fv l m s b :
  st fp fv l m s → sq_buf m = Some b → 0 <= sq_size m <= lim →
  runs regrow s (λ got s', got = true ∧ ∃ b', len b' = 2 * sq_size m ∧ st fp fv l (set_buf (Some b') (set_size (2 * sq_size m) m)) s').
Proof.
  intros S Hb Hn. unfold regrow. apply runs_bind. eapply runs_get_m; [exact S|]. apply runs_bind.
  rewrite Hb. unfold kfree. rewrite bool_decide_true by done. apply runs_modify.
  rewrite Z.shiftl_mul_pow2, Z.mul_comm by lia. change (2 ^ 1) with 2. rewrite u32_id by (split; lia).
  unfold grab. apply runs_bind. eapply runs_ok; [unfold upd_m, on_m; cbn; by rewrite (st_m _ _ _ _ _ S)|].
  apply runs_bind. edestruct (granted (kcalls s) (2 * sq_size m)) as [b' Eb]; [lia|].
  eapply runs_ok; [unfold do_kmalloc; cbn; by rewrite Eb|]. apply runs_bind.
  eapply runs_ok; [unfold upd_m, on_m; cbn; reflexivity|]. apply runs_ret.
  split; [done|]. exists b'. split; [by eapply kmalloc_size|].
  split; cbn; try apply S; [done|]. rewrite (st_live _ _ _ _ _ S). unfold has_buf. cbn. rewrite Hb. lia.
Qed.

Context (ops : seq_operations) (recs : list (list ascii)) {R : Records ops recs}.
Context (recs_lim : ∀ t, t ∈ recs → len t <= lim).

(** What the records from [pos] on print. *)
Definition text_from (pos : Z) : list ascii := concat (drop (Z.to_nat pos) recs).

Lemma text_from_end pos : len recs <= pos → text_from pos = [].
Proof. intros. unfold text_from. by rewrite drop_ge by lia. Qed.

Lemma text_from_cons pos t : 0 <= pos → recs !! Z.to_nat pos = Some t → text_from pos = t ++ text_from (pos + 1).
Proof.
  intros Hp Ht. unfold text_from. rewrite (drop_S _ _ _ Ht). cbn. do 3 f_equal. lia.
Qed.

Lemma item_record pos :
  0 <= pos → (item recs handle pos = PNull ∧ len recs <= pos) ∨
  (∃ t, recs !! Z.to_nat pos = Some t ∧ item recs handle pos = PItem (handle pos) ∧ 0 <= pos < len recs ∧ len t <= lim).
Proof.
  intros Hp. unfold item. destruct (Z.ltb_spec pos (len recs)) as [Hlt|?]; [right|by left].
  destruct (lookup_lt_is_Some_2 recs (Z.to_nat pos)) as [t Ht]; [lia|]. exists t. split_and!; [done|done|done|done|].
  apply recs_lim. by eapply list_elem_of_lookup_2.
Qed.

(** A method that prints the record at [pos] into an empty buffer. *)
Lemma show_runs fp fv l m s b pos t :
  st fp fv l m s → room m b → 0 <= pos → recs !! Z.to_nat pos = Some t →
  runs (on_m (show ops (handle pos))) s (λ r s', r = 0 ∧ ∃ m' b', st fp fv l m' s' ∧ room m' b' ∧ shown t m m').
Proof.
  intros S Hr Hp Ht. destruct (rec_show pos t m b Hp Ht Hr) as (m' & E & Hs).
  destruct (shown_room _ _ _ _ Hr Hs) as [b' Hr'].
  eapply runs_on_m; [exact S|exact E| |].
  { unfold has_buf. by rewrite (proj1 Hr'), (proj1 Hr). }
  intros s' S'. split; [done|]. exists m', b'. done.
Qed.

(** The fields of [m] that printing and growing the buffer leave. *)
Definition moved (m m' : seq_file) : Prop :=
  sq_read_pos m' = sq_read_pos m ∧ sq_size m <= sq_size m' ∧ 0 <= sq_index m'.

Lemma shown_moved t m m' : 0 <= sq_index m → shown t m m' → moved m m' ∧ sq_size m' = sq_size m ∧ sq_index m' = sq_index m.
Proof. intros Hi [b b' c' _ _ -> _ _]. unfold moved. cbn. split_and!; lia. Qed.

(** An overflow: the buffer is doubled and the record at [sq_index m] is printed again. *)
Lemma regrow_restart fp fv l fuel m s b p (Q : first_end → file → Prop) :
  st fp fv l m s → sq_buf m = Some b → 0 <= sq_size m <= lim → 0 <= sq_index m →
  (∀ m' b' s', st fp fv l m' s' → room m' b' → sq_count m' = 0 → sq_size m' = 2 * sq_size m → sq_index m' = sq_index m →
     sq_read_pos m' = sq_read_pos m → runs (first_record ops fuel (item recs handle (sq_index m')) (sq_index m')) s' Q) →
  runs (on_m (stop ops p);; got ← regrow;
        if negb got then mret Enomem else
        upd_m (set_count 0);; upd_m (set_version 0);;
        m ← get_m; '(p', pos') ← on_m (start ops (sq_index m)); first_record ops fuel p' pos') s Q.
Proof.
  intros S Hb Hs Hi HQ. apply runs_bind. eapply runs_on_m; [exact S|apply rec_stop|done|]. intros s2 S2. apply runs_bind.
  eapply runs_mono; [by eapply regrow_runs|]. cbn beta. intros got s3 (-> & b3 & Hl3 & S3).
  cbn [negb]. apply runs_bind. eapply runs_upd_m; [exact S3|done|]. intros s4 S4. apply runs_bind.
  eapply runs_upd_m; [exact S4|done|]. intros s5 S5. apply runs_bind. eapply runs_get_m; [exact S5|].
  apply runs_bind. eapply runs_on_m; [exact S5|by apply rec_start|done|]. intros s6 S6.
  eapply (HQ _ b3 s6 S6); try done. split_and!; cbn; [done|done|lia|lia].
Qed.

Lemma first_record_runs fp fv l fuel : ∀ g s m b,
  st fp fv l m s → room m b → sq_count m = 0 → 0 <= sq_index m → 0 < sq_size m → lim < sq_size m * 2 ^ Z.of_nat g →
  (Z.to_nat (len recs - sq_index m) + g < fuel)%nat →
  runs (first_record ops fuel (item recs handle (sq_index m)) (sq_index m)) s (λ r s',
    ∃ m' b', st fp fv l m' s' ∧ room m' b' ∧ moved m m' ∧
    match r with
    | Enomem => False
    | Ended _ err => err = 0 ∧ text_from (sq_index m) = [] ∧ len recs <= sq_index m'
    | Fill p pos => p = PItem (handle pos) ∧ 0 <= pos < len recs ∧ 0 < sq_count m' < sq_size m' ∧
        text_from (sq_index m) = take (Z.to_nat (sq_count m')) b' ++ text_from (pos + 1)
    end).
Proof.
  induction fuel as [|fuel IH]; intros g s m b S Hr Hc Hi Hs Hg Hf; [lia|]. cbn [first_record].
  destruct (item_record (sq_index m) Hi) as [(-> & He)|(t & Ht & -> & Hn & Hlt)].
  { apply runs_ret. exists m, b. split_and!; try done. by apply text_from_end. }
  apply runs_bind. eapply runs_mono; [by eapply show_runs|]. cbn beta. intros r s1 (-> & m1 & b1 & S1 & Hr1 & Hsh).
  destruct (shown_moved _ _ _ Hi Hsh) as (Hm1 & Ez & Ei).
  cbn [negb Z.eqb when]. change (0 <? 0) with false. cbn iota. apply runs_bind, runs_ret.
  apply runs_bind. eapply runs_get_m; [exact S1|]. pose proof Hr1 as (Hb1 & Hl1 & Hc1).
  rewrite (text_from_cons _ _ Hi Ht).
  destruct Hsh as [b0 b' c' Hb0 Hl' E Hk Hsh]. rewrite Hc, !Z.add_0_l in Hsh. cbn in Hsh.
  assert (sq_count m1 = c') as Ec by (by subst m1). assert (b1 = b') as -> by (subst m1; by simplify_eq/=).
  destruct Hsh as [(-> & Hfit & Htxt)|[-> Hfull]].
  - rewrite Ec. destruct (Z.eqb_spec (len t) 0) as [E0|E0].
    + destruct t; [|simpl in E0; lia]. apply runs_bind.
      eapply runs_on_m; [exact S1|by apply rec_next|done|]. intros s2 S2. apply runs_bind.
      eapply runs_upd_m; [exact S2|done|]. intros s3 S3.
      eapply runs_mono; [apply (IH g s3 (set_index (sq_index m + 1) m1) b' S3)|].
      * done.
      * cbn. by rewrite Ec.
      * cbn. lia.
      * cbn. lia.
      * cbn. by rewrite Ez.
      * cbn. lia.
      * cbn beta. intros r s' (m' & b'' & S' & Hr' & (Hp' & Hz' & Hi') & HQ). exists m', b''.
        split_and!; [done|done| |exact HQ]. unfold moved in *. cbn in *. lia.
    + rewrite (proj2 (Z.ltb_lt _ _)) by lia. apply runs_ret. exists m1, b'. rewrite Ec. split_and!; try done; try lia.
      by rewrite Htxt.
  - rewrite Ec, (proj2 (Z.eqb_neq _ _)), Ez, Z.ltb_irrefl by lia.
    eapply regrow_restart; [exact S1|exact Hb1|lia|lia|].
    intros m2 b2 s2 S2 Hr2 Hc2 Hz2 Hi2 Hp2.
    destruct g as [|g]; [change (2 ^ Z.of_nat 0) with 1 in Hg; lia|].
    rewrite Nat2Z.inj_succ, Z.pow_succ_r in Hg by lia.
    eapply runs_mono; [apply (IH g s2 m2 b2 S2 Hr2 Hc2); [lia|lia|nia|lia]|].
    cbn beta. intros r s' (m' & b'' & S' & Hr' & (Hp' & Hz' & Hi') & HQ). exists m', b''.
    rewrite Hi2, Ei, (text_from_cons _ _ Hi Ht) in HQ. split_and!; [done|done| |exact HQ].
    unfold moved in *. lia.
Qed.

(** More records are added as long as they fit; a record that does not is left for later. *)
Lemma fill_loop_runs fp fv l sz fuel : ∀ s m b pos,
  st fp fv l m s → room m b → 0 <= pos < len recs → 0 < sq_count m < sq_size m → 0 <= sq_index m →
  (Z.to_nat (len recs - pos) < fuel)%nat →
  runs (fill_loop ops fuel (PItem (handle pos)) pos sz) s (λ r s', ∃ m' b',
    st fp fv l m' s' ∧ room m' b' ∧ moved m m' ∧ 0 <= r.2 < len recs ∧ 0 < sq_count m' < sq_size m' ∧
    take (Z.to_nat (sq_count m)) b ++ text_from (pos + 1) = take (Z.to_nat (sq_count m')) b' ++ text_from (r.2 + 1)).
Proof.
  induction fuel as [|fuel IH]; intros s m b pos S Hr Hp Hc Hi Hf; [lia|]. cbn [fill_loop].
  apply runs_bind. eapply runs_get_m; [exact S|].
  destruct (sq_count m <? sz); cbn [negb].
  2:{ apply runs_ret. exists m, b. unfold moved. cbn [snd]. split_and!; (done || lia). }
  apply runs_bind. eapply runs_on_m; [exact S|by apply rec_next|done|]. intros s1 S1.
  destruct (item_record (pos + 1)) as [(-> & He)|(t & Ht & -> & Hn & Hlt)]; [lia| |].
  { apply runs_ret. exists m, b. unfold moved. cbn [snd]. split_and!; (done || lia). }
  apply runs_bind. eapply runs_mono; [eapply show_runs; [exact S1|done|lia|done]|]. cbn beta.
  intros r s2 (-> & m2 & b2 & S2 & Hr2 & Hsh). destruct (shown_moved _ _ _ Hi Hsh) as (Hm2 & Ez & Ei).
  apply runs_bind. eapply runs_get_m; [exact S2|]. pose proof Hr as (Hb & Hl & _). pose proof Hr2 as (Hb2 & Hl2 & Hc2).
  destruct Hsh as [b0 b' c' Hb0 Hl' E Hk Hsh]. assert (b0 = b) as -> by congruence.
  assert (sq_count m2 = c') as Ec by (by subst m2). assert (b2 = b') as -> by (subst m2; by simplify_eq/=).
  unfold seq_overflow. rewrite (text_from_cons (pos + 1) t) by (done || lia).
  destruct Hsh as [(-> & Hfit & Htxt)|[-> Hfull]].
  - rewrite (proj2 (Z.eqb_neq _ _)) by lia. cbn.
    eapply runs_mono; [apply (IH s2 m2 b' (pos + 1) S2); [done|lia|lia|lia|lia]|]. cbn beta.
    intros [p' pos'] s' (m' & b'' & S' & Hr' & Hm' & Hp' & Hc' & HW). exists m', b''.
    split_and!; try done; unfold moved in *; try lia. rewrite <- HW, Ec, Htxt. by rewrite app_assoc.
  - rewrite Ec, Ez, Z.eqb_refl. cbn. apply runs_bind. eapply runs_upd_m; [exact S2|done|]. intros s3 S3.
    apply runs_ret. exists (set_count (sq_count m) m2), b'. unfold moved, room in *. cbn.
    split_and!; try done; try lia. by rewrite Hk, (text_from_cons (pos + 1) t) by (done || lia).
Qed.

(** ** What is left for the reader *)

Definition pending (m : seq_file) : list ascii :=
  if sq_count m =? 0 then text_from (sq_index m)
  else take (Z.to_nat (sq_count m)) (drop (Z.to_nat (sq_from m)) (default [] (sq_buf m))) ++ text_from (sq_index m + 1).

Definition wf (m : seq_file) : Prop :=
  0 <= sq_index m ∧
  match sq_buf m with
  | None => sq_count m = 0
  | Some b => len b = sq_size m ∧ PAGE_SIZE <= sq_size m ∧ 0 <= sq_count m ∧
      (sq_count m = 0 ∨ 0 <= sq_from m ∧ sq_from m + sq_count m <= sq_size m)
  end.

Lemma seq_done_runs fp fv l m s err d ppos :
  st fp fv l m s → (d = [] → err = 0) →
  runs (seq_done err d ppos) s (λ r s', r = (len d, d, ppos + len d) ∧
    st fp (sq_version m) l (set_read_pos (sq_read_pos m + len d) m) s').
Proof.
  intros S He. unfold seq_done. apply runs_bind, runs_when; intros Hd.
  - eapply runs_upd_m; [exact S|done|]. intros s1 S1. apply runs_bind. eapply runs_get_m; [exact S1|].
    apply runs_bind, runs_modify, runs_ret. apply negb_true_iff in Hd. rewrite Hd. split; [done|].
    split; cbn; try apply S1. done.
  - apply runs_bind. eapply runs_get_m; [exact S|].
    apply runs_bind, runs_modify, runs_ret. apply negb_false_iff in Hd. rewrite Hd. apply Z.eqb_eq in Hd.
    destruct d; [|simpl in Hd; lia]. rewrite He by done. simpl. rewrite !Z.add_0_r. split; [done|].
    destruct m. split; cbn; try apply S. done.
Qed.

(** After the records were collected: the reader gets the first [n] bytes. *)
Lemma deliver_runs fp fv l m s b d0 n pos ppos :
  st fp fv l m s → room m b → PAGE_SIZE <= sq_size m → 0 <= pos → 0 < sq_count m → 0 <= n <= sq_count m →
  runs (upd_m (set_count (sq_count m - n));;
        when (negb (sq_count m - n =? 0)) (upd_m (set_from n));;
        upd_m (set_index (if sq_count m - n =? 0 then pos + 1 else pos));;
        seq_done 0 d0 ppos) s (λ r s', ∃ fv' m', r = (len d0, d0, ppos + len d0) ∧
    st fp fv' l m' s' ∧ wf m' ∧ sq_read_pos m' = sq_read_pos m + len d0 ∧
    pending m' = drop (Z.to_nat n) (take (Z.to_nat (sq_count m)) b ++ text_from (pos + 1))).
Proof.
  intros S (Hb & Hl & Hc) Hpg Hp Hc0 Hn.
  apply runs_bind. eapply runs_upd_m; [exact S|done|]. intros s1 S1.
  assert (length (take (Z.to_nat (sq_count m)) b) = Z.to_nat (sq_count m)) as Ht by (rewrite length_take; lia).
  destruct (Z.eqb_spec (sq_count m - n) 0) as [E|E]; cbn [negb when]; apply runs_bind.
  - apply runs_ret. apply runs_bind. eapply runs_upd_m; [exact S1|done|]. intros s2 S2.
    eapply runs_mono; [eapply seq_done_runs; [exact S2|done]|]. cbn beta. intros r s3 (-> & S3).
    eexists _, _. split; [done|]. split; [exact S3|]. unfold wf, pending. cbn. rewrite Hb, E. cbn.
    split_and!; try done; try lia. by rewrite drop_app_length' by lia.
  - eapply runs_upd_m; [exact S1|done|]. intros s2 S2. apply runs_bind. eapply runs_upd_m; [exact S2|done|]. intros s3 S3.
    eapply runs_mono; [eapply seq_done_runs; [exact S3|done]|]. cbn beta. intros r s4 (-> & S4).
    eexists _, _. split; [done|]. split; [exact S4|]. unfold wf, pending. cbn. rewrite Hb. cbn.
    rewrite (proj2 (Z.eqb_neq _ _)) by done. split_and!; try done; try lia.
    rewrite drop_app_le by lia. f_equal. rewrite skipn_firstn_comm. f_equal. lia.
Qed.

Lemma seq_fill_runs fp fv l m s b sz d0 ppos fuel :
  st fp fv l m s → sq_buf m = Some b → wf m → sq_count m = 0 → 0 <= sz → (length recs + 32 < fuel)%nat →
  runs (seq_fill ops fuel true sz d0 ppos) s (λ r s', ∃ k fv' m',
    let d := d0 ++ take k (text_from (sq_index m)) in
    r = (len d, d, ppos + len d) ∧ st fp fv' l m' s' ∧ wf m' ∧ sq_read_pos m' = sq_read_pos m + len d ∧
    pending m' = drop k (text_from (sq_index m)) ∧
    Z.of_nat k <= sz ∧ (text_from (sq_index m) ≠ [] → 0 < sz → (0 < k)%nat)).
Proof.
  intros S Hb (Hi & Hw) Hc Hsz Hf. rewrite Hb in Hw. destruct Hw as (Hl & Hpg & _).
  unfold seq_fill. apply runs_bind. eapply runs_get_m; [exact S|]. apply runs_bind.
  eapply runs_on_m; [exact S|by apply rec_start|done|]. intros s1 S1. apply runs_bind.
  assert (0 < PAGE_SIZE) as Hpos by done.
  eapply runs_mono; [apply (first_record_runs fp fv l fuel 32 s1 m b S1); [split_and!; [done|done|lia|lia]|done|done|lia| |lia]|].
  { change PAGE_SIZE with 4096 in Hpg. change (2 ^ Z.of_nat 32) with 4294967296. lia. }
  cbn beta. intros r s2 (m2 & b2 & S2 & Hr2 & (Hp2 & Hz2 & Hi2) & HQ). destruct r as [p pos|p err|]; [| |done].
  - destruct HQ as (-> & Hpos' & Hc2 & HW). apply runs_bind.
    eapply runs_mono; [eapply fill_loop_runs; [exact S2|exact Hr2|done|done|done|lia]|]. cbn beta.
    intros [p pos'] s3 (m3 & b3 & S3 & Hr3 & (Hp3 & Hz3 & Hi3) & Hps & Hc3 & HW3). cbn [snd] in *.
    pose proof Hr3 as (Hb3 & Hl3 & _).
    apply runs_bind. eapply runs_on_m; [exact S3|apply rec_stop|done|]. intros s4 S4. apply runs_bind.
    eapply runs_get_m; [exact S4|]. apply runs_bind. set (n := Z.min (sq_count m3) sz).
    unfold copy_out. apply runs_bind. eapply runs_get_m; [exact S4|]. rewrite Hb3, (proj2 (Z.leb_le _ _)) by lia.
    cbn [orb]. apply runs_ret. rewrite HW, HW3.
    assert (take (Z.to_nat n) (drop (Z.to_nat 0) b3) = take (Z.to_nat n) (take (Z.to_nat (sq_count m3)) b3 ++ text_from (pos' + 1))) as ->.
    { rewrite take_app_le by (rewrite length_take; lia). rewrite take_take, min_l by lia. done. }
    eapply runs_mono; [eapply deliver_runs; [exact S4|exact Hr3|lia|lia|lia|lia]|]. cbn beta.
    intros r s5 (fv' & m' & -> & S5 & Hw5 & Hrp & Hpd). exists (Z.to_nat n), fv', m'. cbn zeta.
    split_and!; try done; try lia.
  - destruct HQ as (-> & HW & Hend). apply runs_bind. eapply runs_on_m; [exact S2|apply rec_stop|done|]. intros s3 S3.
    apply runs_bind. eapply runs_upd_m; [exact S3|done|]. intros s4 S4.
    eapply runs_mono; [eapply seq_done_runs; [exact S4|done]|]. cbn beta. intros r s5 (-> & S5).
    eexists 0%nat, _, _. cbn zeta. rewrite HW, app_nil_r. split; [done|]. split; [exact S5|].
    pose proof Hr2 as (Hb2 & Hl2 & _). unfold wf, pending. cbn. rewrite Hb2, text_from_end by done.
    split_and!; try done; try lia.
Qed.

(** ** Repositioning *)

Lemma wf_room m b : wf m → sq_buf m = Some b → sq_count m = 0 → room m b ∧ PAGE_SIZE <= sq_size m.
Proof. intros (_ & Hw) Hb Hc. rewrite Hb in Hw. assert (0 < PAGE_SIZE) by done. unfold room. split_and!; try done; try apply Hw; lia. Qed.

Lemma finish_runs fp fv l m s p i e (Q : Z → file → Prop) :
  st fp fv l m s → (∀ s', st fp fv l (set_index i m) s' → Q e s') →
  runs (on_m (stop ops p);; upd_m (set_index i);; mret e) s Q.
Proof.
  intros S HQ. apply runs_bind. eapply runs_on_m; [exact S|apply rec_stop|done|]. intros s1 S1.
  apply runs_bind. eapply runs_upd_m; [exact S1|done|]. intros s2 S2. apply runs_ret. auto.
Qed.

(** The position after the record [t] that starts at [pos]. *)
Lemma drop_record pos index t :
  0 <= pos → 0 <= index → recs !! Z.to_nat index = Some t → drop (Z.to_nat pos) (concat recs) = text_from index →
  drop (Z.to_nat (pos + len t)) (concat recs) = text_from (index + 1).
Proof.
  intros Hp Hi Ht HT. replace (Z.to_nat (pos + len t)) with (Z.to_nat pos + length t)%nat by lia.
  rewrite <- drop_drop, HT, (text_from_cons _ _ Hi Ht). by rewrite drop_app_length.
Qed.

(** A position inside that record. *)
Lemma drop_inside pos index t offset :
  0 <= pos <= offset → offset <= pos + len t → 0 <= index → recs !! Z.to_nat index = Some t →
  drop (Z.to_nat pos) (concat recs) = text_from index →
  drop (Z.to_nat offset) (concat recs) = drop (Z.to_nat (offset - pos)) t ++ text_from (index + 1).
Proof.
  intros Hp Ho Hi Ht HT. replace (Z.to_nat offset) with (Z.to_nat pos + Z.to_nat (offset - pos))%nat by lia.
  by rewrite <- drop_drop, HT, (text_from_cons _ _ Hi Ht), drop_app_le by lia.
Qed.

(** The loop of [traverse] from the record at [index], which starts at [pos]: it stops in
    front of byte [offset], or doubles the buffer and asks to be called again. *)
Lemma traverse_loop_runs fp fv l offset fuel : ∀ s m b pos index,
  st fp fv l m s → room m b → PAGE_SIZE <= sq_size m → sq_count m = 0 → sq_from m = 0 → 0 <= sq_index m → 0 <= index → 0 <= pos < offset →
  drop (Z.to_nat pos) (concat recs) = text_from index →
  (Z.to_nat (len recs - index) < fuel)%nat →
  runs (traverse_loop ops fuel offset pos index 0 (item recs handle index)) s (λ err s', ∃ m',
    st fp fv l m' s' ∧ wf m' ∧ is_Some (sq_buf m') ∧
    (err = 0 ∧ pending m' = drop (Z.to_nat offset) (concat recs) ∨
     err = - EAGAIN ∧ sq_size m' = 2 * sq_size m ∧ sq_size m <= lim)).
Proof.
  induction fuel as [|fuel IH]; intros s m b pos index S Hr Hpg Hc Hfr Hi Hix Hp HT Hf; [lia|]. cbn [traverse_loop].
  assert (0 < PAGE_SIZE) as Hpp by done.
  destruct (item_record index Hix) as [(-> & He)|(t & Ht & -> & Hn & Hlt)].
  { eapply finish_runs; [exact S|]. intros s' S'. eexists. split; [exact S'|]. pose proof Hr as (Hb & Hl & _).
    unfold wf, pending. cbn. rewrite Hb, Hc. cbn. split_and!; try done; try lia. left. split; [done|].
    rewrite text_from_end by done. rewrite text_from_end in HT by done.
    replace (Z.to_nat offset) with (Z.to_nat pos + Z.to_nat (offset - pos))%nat by lia. by rewrite <- drop_drop, HT, drop_nil. }
  apply runs_bind. eapply runs_mono; [by eapply show_runs|]. cbn beta. intros r s1 (-> & m1 & b1 & S1 & Hr1 & Hsh).
  change (0 <? 0) with false. cbn [negb Z.eqb when]. cbn iota. apply runs_bind, runs_ret.
  apply runs_bind. eapply runs_get_m; [exact S1|]. pose proof Hr1 as (Hb1 & Hl1 & Hc1).
  destruct Hsh as [b0 b' c' Hb0 Hl' E Hk Hsh]. rewrite Hc, !Z.add_0_l in Hsh. cbn in Hsh.
  assert (sq_count m1 = c') as Ec by (by subst m1). assert (sq_size m1 = sq_size m) as Ez by (by subst m1).
  assert (sq_from m1 = 0) as Ef by (by subst m1). assert (0 <= sq_index m1) as Ei by (by subst m1).
  assert (b1 = b') as -> by (subst m1; by simplify_eq/=). clear E.
  unfold seq_overflow. rewrite Ec, Ez.
  destruct Hsh as [(-> & Hfit & Htxt)|[-> Hfull]].
  - rewrite (proj2 (Z.eqb_neq (len t) _)) by lia. pose proof (drop_record pos index t (proj1 Hp) Hix Ht HT) as Hnext.
    destruct (Z.ltb_spec offset (pos + len t)) as [Hin|Hout].
    + apply runs_bind. eapply runs_upd_m; [exact S1|done|]. intros s2 S2.
      apply runs_bind. eapply runs_upd_m; [exact S2|done|]. intros s3 S3.
      eapply finish_runs; [exact S3|]. intros s' S'. eexists. split; [exact S'|]. unfold wf, pending. cbn. rewrite Hb1, Ec. cbn.
      rewrite (proj2 (Z.eqb_neq _ _)) by lia. split_and!; try done; try lia. left. split; [done|].
      rewrite (drop_inside pos index t) by (done || lia). f_equal.
      change (take (Z.to_nat 0) b0 ++ t) with t in Htxt. apply (f_equal (drop (Z.to_nat (offset - pos)))) in Htxt. rewrite <- Htxt, skipn_firstn_comm. f_equal. lia.
    + apply runs_bind. eapply runs_upd_m; [exact S1|done|]. intros s2 S2.
      destruct (Z.eqb_spec (pos + len t) offset) as [E|E].
      * eapply finish_runs; [exact S2|]. intros s' S'. eexists. split; [exact S'|]. unfold wf, pending. cbn. rewrite Hb1. cbn.
        split_and!; try done; try lia. left. split; [done|]. by rewrite <- E, Hnext.
      * apply runs_bind. eapply runs_on_m; [exact S2|by apply rec_next|done|]. intros s3 S3.
        eapply runs_mono; [eapply (IH s3 (set_count 0 m1) b'); [exact S3|..]|].
        all: try done; unfold room; cbn; try lia. { split_and!; try done; lia. }
        cbn. intros err s' (m' & S' & Hw' & Hb' & HQ). exists m'. rewrite Ez in HQ. done.
  - rewrite Z.eqb_refl. apply runs_bind. eapply runs_on_m; [exact S1|apply rec_stop|done|]. intros s2 S2.
    apply runs_bind. eapply runs_mono; [eapply regrow_runs; [exact S2|exact Hb1|lia]|]. cbn beta.
    intros got s3 (-> & b3 & Hl3 & S3). apply runs_ret. eexists. split; [exact S3|].
    unfold wf. cbn. rewrite Ec, Ef, Ez in *. split_and!; try done; try lia.
Qed.

Lemma traverse_runs fp fv l m s offset fuel :
  st fp fv l m s → wf m → 0 <= offset → (length recs < fuel)%nat →
  runs (traverse ops fuel offset) s (λ err s', ∃ m',
    st fp fv l m' s' ∧ wf m' ∧
    (err = 0 ∧ pending m' = drop (Z.to_nat offset) (concat recs) ∨
     err = - EAGAIN ∧ is_Some (sq_buf m') ∧ sq_size m' <= 2 * lim ∧
       2 * (if bool_decide (is_Some (sq_buf m)) then sq_size m else PAGE_SIZE) <= sq_size m')).
Proof.
  intros S (Hi & Hw) Ho Hf. unfold traverse. do 3 (apply runs_bind; eapply runs_upd_m; [eassumption|done|]; clear S; intros ? S).
  set (m1 := set_count 0 _) in S. destruct (Z.eqb_spec offset 0) as [->|Hne].
  { apply runs_bind. eapply runs_upd_m; [exact S|done|]. intros t S'. apply runs_ret. eexists. split; [exact S'|].
    unfold wf, pending. cbn. destruct (sq_buf m); split_and!; try done; try lia; left; by split. }
  apply runs_bind. eapply runs_get_m; [exact S|]. apply runs_bind.
  assert (0 < PAGE_SIZE) as Hpp by done.
  eapply (runs_mono _ _ (λ got s', got = true ∧ ∃ b m2, st fp fv l m2 s' ∧ room m2 b ∧ PAGE_SIZE <= sq_size m2 ∧
    sq_count m2 = 0 ∧ sq_from m2 = 0 ∧ 0 <= sq_index m2 ∧
    sq_size m2 = if bool_decide (is_Some (sq_buf m)) then sq_size m else PAGE_SIZE)).
  { change (sq_buf m1) with (sq_buf m). destruct (sq_buf m) as [b|] eqn:Hb.
    - apply runs_ret. split; [done|]. exists b, m1. unfold room. cbn. split_and!; try done; try lia.
    - eapply runs_mono; [eapply grab_runs; [exact S|done|lia]|]. cbn beta. intros got t (-> & b & Hl & S').
      split; [done|]. eexists b, _. split; [exact S'|]. unfold room. cbn. split_and!; try done; lia. }
  cbn beta. intros got s2 (-> & b & m2 & S2 & Hr2 & Hp2 & Hc2 & Hf2 & Hi2 & <-). cbn [negb].
  apply runs_bind. eapply runs_on_m; [exact S2|by apply rec_start|done|]. intros s3 S3.
  eapply runs_mono; [eapply (traverse_loop_runs fp fv l offset fuel s3 m2 b 0 0); try done; lia|]. cbn beta.
  intros err t (m' & S' & Hw' & Hb' & [[-> HQ]|(-> & Hz & Hl)]); exists m'; split_and!; try done; [by left|right].
  split_and!; try done; lia.
Qed.

Lemma traverse_retry_runs fp fv l offset fuel tries : ∀ g s m,
  st fp fv l m s → wf m → 0 <= offset → (length recs < fuel)%nat →
  lim < (if bool_decide (is_Some (sq_buf m)) then sq_size m else PAGE_SIZE) * 2 ^ Z.of_nat g → (g < tries)%nat →
  runs (traverse_retry ops tries fuel offset) s (λ err s', err = 0 ∧ ∃ m',
    st fp fv l m' s' ∧ wf m' ∧ pending m' = drop (Z.to_nat offset) (concat recs)).
Proof.
  induction tries as [|tries IH]; intros g s m S Hw Ho Hf Hg Ht; [lia|]. cbn [traverse_retry].
  apply runs_bind. eapply runs_mono; [by eapply traverse_runs|]. cbn beta.
  intros err s' (m' & S' & Hw' & [[-> HQ]|(-> & Hb' & Hz & Hl)]).
  - apply runs_ret. split; [done|]. by exists m'.
  - rewrite Z.eqb_refl. destruct g as [|g]; [change (2 ^ Z.of_nat 0) with 1 in Hg; lia|].
    apply (IH g s' m'); try done; [|lia]. rewrite bool_decide_true by done.
    rewrite Nat2Z.inj_succ, Z.pow_succ_r in Hg by lia. pose proof (Z.pow_pos_nonneg 2 (Z.of_nat g)). nia.
Qed.

(** ** Reading *)

(** The file is in front of byte [sq_read_pos m] of its text. *)
Definition good (m : seq_file) : Prop :=
  wf m ∧ 0 <= sq_read_pos m ∧ pending m = drop (Z.to_nat (sq_read_pos m)) (concat recs).

(** [reads sz pos d]: [d] is what a read of at most [sz] bytes at [pos] may return. *)
Definition reads (sz pos : Z) (d : list ascii) : Prop :=
  d = take (length d) (drop (Z.to_nat pos) (concat recs)) ∧ len d <= sz ∧
  (0 < sz → pos < len (concat recs) → d ≠ []).

Lemma reads_take sz pos k W :
  W = drop (Z.to_nat pos) (concat recs) → 0 <= pos → Z.of_nat k <= sz → (W ≠ [] → 0 < sz → (0 < k)%nat) →
  reads sz pos (take k W) ∧ drop k W = drop (Z.to_nat (pos + len (take k W))) (concat recs).
Proof.
  intros HW Hp Hk Hn. unfold reads. rewrite <- HW. split_and!.
  - rewrite length_take. by destruct (decide (k <= length W)%nat); [rewrite min_l by lia|rewrite min_r, !take_ge by lia].
  - rewrite length_take. lia.
  - intros Hs Hlt E. apply (f_equal length) in E. rewrite length_take in E. cbn in E.
    assert (length W ≠ 0%nat) by (rewrite HW, length_drop; lia).
    assert (W ≠ []) as HW' by (by intros ->). specialize (Hn HW' Hs). lia.
  - rewrite length_take, Z2Nat.inj_add, <- drop_drop, <- HW, Nat2Z.id by lia.
    destruct (decide (k <= length W)%nat); [by rewrite min_l by lia|by rewrite min_r, !drop_ge by lia].
Qed.

(** Ending a call in a state whose pending text is what follows the bytes delivered. *)
Lemma done_reads fp fv l m s sz ppos k W :
  st fp fv l m s → wf m → sq_read_pos m = ppos → 0 <= ppos →
  W = drop (Z.to_nat ppos) (concat recs) → pending m = drop k W → Z.of_nat k <= sz → (W ≠ [] → 0 < sz → (0 < k)%nat) →
  runs (seq_done 0 (take k W) ppos) s (λ r s', ∃ d fv' m', r = (len d, d, ppos + len d) ∧ st fp fv' l m' s' ∧ good m' ∧
    sq_read_pos m' = ppos + len d ∧ reads sz ppos d).
Proof.
  intros S Hw Hrp Hp HW Hpd Hk Hk'. destruct (reads_take sz ppos k W HW Hp Hk Hk') as [HR HD].
  eapply runs_mono; [eapply seq_done_runs; [exact S|done]|]. cbn beta. intros r s' (-> & S').
  eexists _, _, _. split; [done|]. split; [exact S'|]. unfold good, wf, pending in *. cbn. rewrite Hrp.
  split_and!; try done; try lia; try apply Hw. by rewrite <- HD.
Qed.

(** The records after the bytes [take n W] delivered so far. *)
Lemma fill_reads fp fv l m s b sz ppos fuel n W :
  st fp fv l m s → sq_buf m = Some b → wf m → sq_count m = 0 → sq_read_pos m = ppos → 0 <= ppos →
  W = drop (Z.to_nat ppos) (concat recs) → text_from (sq_index m) = drop n W → (n <= length W)%nat → Z.of_nat n <= sz →
  (length recs + 32 < fuel)%nat →
  runs (seq_fill ops fuel true (sz - Z.of_nat n) (take n W) ppos) s (λ r s', ∃ d fv' m',
    r = (len d, d, ppos + len d) ∧ st fp fv' l m' s' ∧ good m' ∧ sq_read_pos m' = ppos + len d ∧ reads sz ppos d).
Proof.
  intros S Hb Hw Hc Hrp Hp HW HT Hn Hsz Hf.
  eapply runs_mono; [eapply seq_fill_runs; [exact S|exact Hb|done|done|lia|done]|].
  cbn. rewrite HT. intros r s' (k & fv' & m' & -> & S' & Hw' & Hrp' & Hpd & Hk & Hk').
  rewrite take_take_drop in Hrp' |- *. rewrite drop_drop in Hpd.
  destruct (reads_take sz ppos (n + k) W HW) as [HR HD]; [lia|lia| |].
  { intros Hne Hs. destruct n as [|n]; [|lia]. rewrite drop_0 in Hk'. specialize (Hk' Hne). lia. }
  eexists _, fv', m'. split_and!; [done|done| |lia|done]. split; [done|]. rewrite Hrp', Hrp, Hpd. split; [lia|done].
Qed.

(** From the point where the buffer exists. *)
Lemma seq_read_tail fp fv l m s b sz ppos fuel :
  st fp fv l m s → good m → sq_buf m = Some b → sq_read_pos m = ppos → 0 <= sz → (length recs + 32 < fuel)%nat →
  runs (if sq_count m =? 0 then seq_fill ops fuel true sz [] ppos else
        let n := Z.min (sq_count m) sz in
        d ← copy_out true (sq_from m) n;
        match d with
        | None => seq_done (- EFAULT) [] ppos
        | Some d =>
            upd_m (set_count (sq_count m - n));;
            upd_m (set_from (sq_from m + n));;
            when (sq_count m - n =? 0) (upd_m (λ m, set_index (sq_index m + 1) m));;
            if sz - n =? 0 then seq_done 0 d ppos else seq_fill ops fuel true (sz - n) d ppos
        end) s (λ r s', ∃ d fv' m', r = (len d, d, ppos + len d) ∧ st fp fv' l m' s' ∧ good m' ∧
          sq_read_pos m' = ppos + len d ∧ reads sz ppos d).
Proof.
  intros S (Hwf & Hrp & HW) Hb Hpp Hsz Hf. pose proof Hwf as (Hi & Hw). rewrite Hb in Hw. destruct Hw as (Hl & Hpg & Hc0 & Hfr).
  rewrite Hpp in Hrp, HW. unfold pending in HW. destruct (Z.eqb_spec (sq_count m) 0) as [E|E].
  { replace (seq_fill ops fuel true sz []) with
      (seq_fill ops fuel true (sz - Z.of_nat 0) (take 0 (drop (Z.to_nat ppos) (concat recs)))) by (cbn; by rewrite Z.sub_0_r).
    eapply (fill_reads _ _ _ _ _ _ _ _ _ 0); try done; lia. }
  destruct Hfr as [?|Hfr]; [lia|]. set (n := Z.min (sq_count m) sz). cbn zeta. apply runs_bind.
  unfold copy_out. apply runs_bind. eapply runs_get_m; [exact S|]. rewrite Hb, (proj2 (Z.leb_le _ _)) by lia.
  cbn [orb]. apply runs_ret. rewrite Hb in HW. cbn [default] in HW.
  set (P := take (Z.to_nat (sq_count m)) (drop (Z.to_nat (sq_from m)) b)) in HW.
  assert (length P = Z.to_nat (sq_count m)) as HP by (unfold P; rewrite length_take, length_drop; lia).
  set (W := P ++ text_from (sq_index m + 1)) in HW.
  assert (Z.to_nat n <= length W)%nat as HnW by (unfold W; rewrite length_app; lia).
  assert (take (Z.to_nat n) (drop (Z.to_nat (sq_from m)) b) = take (Z.to_nat n) W) as ->.
  { unfold W. rewrite take_app_le by lia. unfold P. by rewrite take_take, min_l by lia. }
  do 2 (apply runs_bind; eapply runs_upd_m; [eassumption|done|]; clear S; intros ? S).
  destruct (Z.eqb_spec (sq_count m - n) 0) as [E0|E0]; cbn [when]; apply runs_bind.
  - eapply runs_upd_m; [exact S|done|]. clear S. intros s3 S.
    assert (text_from (sq_index m + 1) = drop (Z.to_nat n) W) as HD by (unfold W; by rewrite drop_app_length' by lia).
    set (m3 := set_index _ _) in S. assert (wf m3) as Hw3.
    { unfold wf. cbn. rewrite Hb. split_and!; try done; lia. }
    destruct (Z.eqb_spec (sz - n) 0) as [Ez|Ez].
    + eapply done_reads; [exact S|done|done|done|done| |lia|lia]. unfold pending. cbn. by rewrite E0.
    + replace n with (Z.of_nat (Z.to_nat n)) at 1 by lia. eapply fill_reads; [exact S|done|done|done|done|done|done|done|done|lia|done].
  - apply runs_ret. rewrite (proj2 (Z.eqb_eq (sz - n) 0)) by lia.
    eapply done_reads; [exact S| |done|done|done| |lia|lia].
    + unfold wf. cbn. rewrite Hb. split_and!; try done; lia.
    + unfold pending. cbn. rewrite (proj2 (Z.eqb_neq _ _)), Hb by done. unfold W, P. cbn.
      rewrite drop_app_le by (fold P; lia). f_equal. rewrite skipn_firstn_comm, drop_drop. f_equal; [lia|]. f_equal. lia.
Qed.

Lemma seq_read_runs fp fv l m s sz ppos fuel :
  st fp fv l m s → good m → 0 <= ppos → 0 <= sz → (length recs + 32 < fuel)%nat →
  runs (seq_read ops fuel true sz ppos) s (λ r s', ∃ d fv' m',
    r = (len d, d, ppos + len d) ∧ st fp fv' l m' s' ∧ good m' ∧ sq_read_pos m' = ppos + len d ∧ reads sz ppos d).
Proof.
  intros S (Hw & Hrp & Hpd) Hp Hsz Hf. unfold seq_read. assert (0 < PAGE_SIZE) as Hpp by done.
  apply runs_bind. eapply runs_get_m; [exact S|]. apply runs_bind, runs_gets.
  apply runs_bind. eapply runs_upd_m; [exact S|done|]. clear S. intros s1 S. apply runs_bind.
  eapply (runs_mono _ _ (λ err s', err = 0 ∧ ∃ m', st fp fv l m' s' ∧ good m' ∧ sq_read_pos m' = ppos)).
  { destruct (Z.eqb_spec ppos (sq_read_pos m)) as [->|Hne]; [apply runs_ret; split; [done|]; by exists (set_version (f_version s) m)|].
    apply runs_bind. eapply runs_mono; [eapply (traverse_retry_runs _ _ _ _ _ _ 32); [exact S|done|done|lia| |lia]|].
    { change (2 ^ Z.of_nat 32) with 4294967296. cbn [sq_buf set_version sq_size]. unfold wf in Hw. change PAGE_SIZE with 4096 in *.
      destruct (sq_buf m); case_bool_decide as Hs; try lia. by destruct Hs. }
    cbn beta. intros err s2 (-> & m2 & S2 & Hw2 & Hpd2). cbn. apply runs_bind. eapply runs_upd_m; [exact S2|done|]. intros s3 S3.
    apply runs_ret. split; [done|]. eexists. split; [exact S3|]. unfold good. cbn. by split_and!. }
  cbn beta. intros err s2 (-> & m2 & S2 & HG & Hrp2). cbn [Z.eqb negb]. cbn iota.
  apply runs_bind. eapply runs_get_m; [exact S2|]. apply runs_bind.
  eapply (runs_mono _ _ (λ got s', got = true ∧ ∃ b m', st fp fv l m' s' ∧ good m' ∧ sq_read_pos m' = ppos ∧ sq_buf m' = Some b)).
  { destruct (sq_buf m2) as [b|] eqn:Hb; [apply runs_ret; split; [done|]; by exists b, m2|].
    eapply runs_mono; [eapply grab_runs; [exact S2|done|lia]|].
    cbn beta. intros got s3 (-> & b & Hl & S3). split; [done|]. eexists b, _. split; [exact S3|]. split; [|done].
    destruct HG as ((Hi2 & Hw2) & Hp2 & Hpd2). rewrite Hb in Hw2. unfold good, wf, pending in *. cbn. rewrite Hw2 in *.
    split_and!; try done; lia. }
  cbn beta. intros got s3 (-> & b & m3 & S3 & HG3 & Hrp3 & Hb3). cbn [negb]. cbn iota.
  apply runs_bind. eapply runs_get_m; [exact S3|]. by eapply seq_read_tail.
Qed.

Lemma seq_lseek_runs fp fv l m s offset origin fuel :
  st fp fv l m s → good m → sq_read_pos m = fp → (length recs + 32 < fuel)%nat → (origin = 0 ∨ origin = 1) →
  let target := if origin =? 1 then offset + fp else offset in
  0 <= target →
  runs (seq_lseek ops fuel offset origin) s (λ r s', r = target ∧ ∃ fv' m',
    st target fv' l m' s' ∧ good m' ∧ sq_read_pos m' = target).
Proof.
  intros S (Hw & Hrp & Hpd) Hfp Hf Ho target Ht. unfold seq_lseek.
  apply runs_bind. eapply runs_get_m; [exact S|]. apply runs_bind, runs_gets.
  apply runs_bind. pose proof (st_pos _ _ _ _ _ S) as Ep. eapply runs_upd_m; [exact S|done|]. clear S. intros s1 S.
  cbn zeta. unfold id. rewrite Ep. fold target. apply runs_bind.
  assert (negb ((origin =? 0) || (origin =? 1)) || (target <? 0) = false) as ->.
  { rewrite (proj2 (Z.ltb_ge _ _)) by done. by destruct Ho as [->| ->]. }
  eapply (runs_mono _ _ (λ r s', r = target ∧ ∃ m', st target fv l m' s' ∧ good m' ∧ sq_read_pos m' = target)).
  { destruct (Z.eqb_spec target (sq_read_pos m)) as [E|Hne].
    { apply runs_ret. split; [done|]. eexists. rewrite E, Hfp. split; [exact S|]. by split. }
    apply runs_bind. eapply runs_mono; [eapply (traverse_retry_runs _ _ _ _ _ _ 32); [exact S|done|done|lia| |lia]|].
    { change (2 ^ Z.of_nat 32) with 4294967296. cbn [sq_buf set_version sq_size]. unfold wf in Hw. change PAGE_SIZE with 4096 in *.
      destruct (sq_buf m); case_bool_decide as Hs; try lia. by destruct Hs. }
    cbn beta. intros err s2 (-> & m2 & S2 & Hw2 & Hpd2). cbn. apply runs_bind. eapply runs_upd_m; [exact S2|done|]. intros s3 S3.
    apply runs_bind, runs_modify, runs_ret. split; [done|]. exists (set_read_pos target m2).
    split; [split; cbn; try apply S3; done|]. unfold good. cbn. by split_and!. }
  cbn beta. intros r s2 (-> & m2 & S2 & HG & Hrp2). apply runs_bind. eapply runs_get_m; [exact S2|].
  apply runs_bind, runs_modify, runs_ret. split; [done|]. eexists _, m2. split; [|done].
  split; cbn; try apply S2. done.
Qed.
End loops.

(** ** Files of a single record *)

(** [prints a t]: the method [a] prints the text [t] and returns 0. *)
Definition prints (a : M seq_file Z) (t : list ascii) : Prop :=
  ∀ m b, room m b → ∃ m', a m = Ok (0, m') ∧ shown t m m'.

Lemma printf_prints t : prints (seq_printf t;; mret 0) t.
Proof.
  intros m b Hr. destruct (seq_printf_shown t m b Hr) as (r & m' & E & Hs). exists m'. split; [|done].
  by rewrite (bind_Ok _ _ _ _ _ E).
Qed.

Lemma prints_seq a a' t t' : prints a t → prints a' t' → prints (a;; a') (t ++ t').
Proof.
  intros Ha Ha' m b Hr. destruct (Ha m b Hr) as (m1 & E1 & H1). destruct (shown_room _ _ _ _ Hr H1) as [b1 Hr1].
  destruct (Ha' m1 b1 Hr1) as (m2 & E2 & H2). exists m2. split; [by rewrite (bind_Ok _ _ _ _ _ E1)|by eapply shown_app].
Qed.

Definition single_records (a : M seq_file Z) (t : list ascii) (H : prints a t) : Records (single_ops a) [t].
Proof.
  refine {| handle := λ _, 1 |}.
  - intros pos m Hp. unfold item. cbn. unfold single_start. destruct (Z.eqb_spec pos 0) as [->|?]; [done|].
    by rewrite (proj2 (Z.ltb_ge _ _)) by (cbn; lia).
  - intros pos m Hp. unfold item. cbn in *. by rewrite (proj2 (Z.ltb_ge _ _)) by lia.
  - done.
  - intros pos u m b Hp Hu Hr. cbn. apply list_lookup_singleton_Some in Hu as [_ ->]. by eapply H.
Defined.
