(* ===== verification/SeqFileProps.v ===== *)
(** * Sequential files: what readers see

    A file whose methods enumerate records behaves like a plain file that holds the texts
    of the records one after the other ([seq_file_refines]); and two situations in which it
    does not: a buffer that could not be enlarged ([failed_growth_leaks]) and [lseek] after
    [pread] ([lseek_after_pread]). *)

From Stdlib Require Import Ascii.
From S2P Require Import Prelude Hoare ArmPgtable SeqFile SeqFileInv.

(** ** Sessions of system calls *)

Inductive fop := FRead (n : Z) | FPread (n pos : Z) | FLseek (offset origin : Z).

Section session.
Context {K : Slab} (ops : seq_operations) (fuel : nat).

Definition do_fop (o : fop) : M file (Z * list ascii) :=
  match o with
  | FRead n => sys_read ops fuel true n
  | FPread n pos => '(ret, d, _) ← seq_read ops fuel true n pos; mret (ret, d)
  | FLseek offset origin => r ← seq_lseek ops fuel offset origin; mret (r, [])
  end.

Fixpoint do_fops (l : list fop) : M file (list (Z * list ascii)) :=
  match l with
  | [] => mret []
  | o :: l => r ← do_fop o; rs ← do_fops l; mret (r :: rs)
  end.

Definition session (l : list fop) : M file (list (Z * list ascii)) :=
  _ ← seq_open; rs ← do_fops l; _ ← seq_release; mret rs.

(** [pread] of [n] bytes at 0, [lseek] to where they ended, [read] of [n'] bytes. *)
Definition pread_seek_read (n n' : Z) : M file (list ascii * Z * list ascii) :=
  _ ← seq_open;
  '(_, d) ← do_fop (FPread n 0);
  '(r, _) ← do_fop (FLseek (len d) 0);
  '(_, d') ← do_fop (FRead n');
  mret (d, r, d').
End session.

(** A plain file with the contents [concat recs] at position [pos]. *)
Definition seek_target (pos offset origin : Z) : option Z :=
  let target := if origin =? 1 then offset + pos else offset in
  if ((origin =? 0) || (origin =? 1)) && (0 <=? target) then Some target else None.

Inductive plain_file (recs : list (list ascii)) : Z → list fop → list (Z * list ascii) → Prop :=
  | plain_end pos : plain_file recs pos [] []
  | plain_read pos n d l rs :
      reads recs n pos d → plain_file recs (pos + len d) l rs → plain_file recs pos (FRead n :: l) ((len d, d) :: rs)
  | plain_pread pos n q d l rs :
      reads recs n q d → plain_file recs pos l rs → plain_file recs pos (FPread n q :: l) ((len d, d) :: rs)
  | plain_seek pos offset origin target l rs :
      seek_target pos offset origin = Some target → plain_file recs target l rs →
      plain_file recs pos (FLseek offset origin :: l) ((target, []) :: rs)
  | plain_seek_bad pos offset origin l rs :
      seek_target pos offset origin = None → plain_file recs pos l rs →
      plain_file recs pos (FLseek offset origin :: l) ((- EINVAL, []) :: rs).

Definition is_pread (o : fop) : bool := match o with FPread _ _ => true | _ => false end.
Definition is_lseek (o : fop) : bool := match o with FLseek _ _ => true | _ => false end.

(** Sizes and positions of [read] and [pread] are not negative. *)
Definition fop_ok (o : fop) : bool :=
  match o with FRead n => 0 <=? n | FPread n pos => (0 <=? n) && (0 <=? pos) | FLseek _ _ => true end.

Section props.
Context {K : Slab} (lim : Z).
Context (granted : ∀ k n, 0 <= n <= Z.max PAGE_SIZE (2 * lim) → is_Some (kmalloc k n)).
Context (lim_ok : 0 <= lim < 2 ^ 31).
Context (ops : seq_operations) (recs : list (list ascii)) {R : Records ops recs}.
Context (recs_lim : ∀ t, t ∈ recs → len t <= lim).
Context (fuel : nat) (fuel_ok : (length recs + 32 < fuel)%nat).

(** The file between two calls: at position [pos], where the last call left it unless the
    session uses [pread]. *)
Definition at_pos (mixed : bool) (l pos : Z) (s : file) : Prop :=
  0 <= pos ∧ ∃ fv m, st pos fv l m s ∧ good recs m ∧ (mixed = false → sq_read_pos m = pos).

Lemma read_runs mixed l pos s n :
  at_pos mixed l pos s → 0 <= n →
  runs (do_fop ops fuel (FRead n)) s (λ r s', ∃ d, r = (len d, d) ∧ reads recs n pos d ∧ at_pos mixed l (pos + len d) s').
Proof.
  intros (Hp & fv & m & S & G & _) Hn. cbn. unfold sys_read. apply runs_bind, runs_gets. rewrite (st_pos _ _ _ _ _ S).
  apply runs_bind. eapply runs_mono; [by eapply seq_read_runs|]. cbn beta.
  intros r s1 (d & fv' & m' & -> & S' & G' & Hrp & HR). apply runs_bind, runs_modify, runs_ret.
  exists d. split_and!; [done|done|]. split; [lia|]. exists fv', m'. split_and!; [|done|done]. split; cbn; try apply S'. done.
Qed.

Lemma pread_runs l pos s n q :
  at_pos true l pos s → 0 <= n → 0 <= q →
  runs (do_fop ops fuel (FPread n q)) s (λ r s', ∃ d, r = (len d, d) ∧ reads recs n q d ∧ at_pos true l pos s').
Proof.
  intros (Hp & fv & m & S & G & _) Hn Hq. cbn. apply runs_bind. eapply runs_mono; [by eapply seq_read_runs|]. cbn beta.
  intros r s1 (d & fv' & m' & -> & S' & G' & Hrp & HR). apply runs_ret.
  exists d. split_and!; [done|done|]. split; [lia|]. by exists fv', m'.
Qed.

Lemma lseek_runs l pos s offset origin :
  at_pos false l pos s →
  runs (do_fop ops fuel (FLseek offset origin)) s (λ r s', match seek_target pos offset origin with
    | Some target => r = (target, []) ∧ at_pos false l target s'
    | None => r = (- EINVAL, []) ∧ at_pos false l pos s' end).
Proof.
  intros (Hp & fv & m & S & G & Hrp). specialize (Hrp eq_refl). cbn. apply runs_bind. unfold seek_target.
  destruct (Z.leb_spec 0 (if origin =? 1 then offset + pos else offset)) as [Ht|Ht];
    [destruct (decide (origin = 0 ∨ origin = 1)) as [Ho|Ho]|].
  - eapply runs_mono; [by eapply seq_lseek_runs|]. cbn beta. intros r s' (-> & fv' & m' & S' & G' & Hrp').
    apply runs_ret. replace ((origin =? 0) || (origin =? 1)) with true by (by destruct Ho as [->| ->]). cbn.
    split; [done|]. split; [done|]. by exists fv', m'.
  - assert ((origin =? 0) || (origin =? 1) = false) as E by (apply orb_false_iff; split; apply Z.eqb_neq; tauto).
    unfold seq_lseek. rewrite E. cbn.
    apply runs_bind. eapply runs_get_m; [exact S|]. apply runs_bind, runs_gets. apply runs_bind.
    eapply runs_upd_m; [exact S|done|]. intros s1 S1. apply runs_bind, runs_ret. apply runs_bind.
    eapply runs_get_m; [exact S1|]. apply runs_bind, runs_modify, runs_ret, runs_ret. split; [done|]. split; [done|].
    eexists _, _. split; [split; cbn; try apply S1; done|]. done.
  - rewrite andb_false_r.
    unfold seq_lseek. apply runs_bind. eapply runs_get_m; [exact S|]. apply runs_bind, runs_gets. apply runs_bind.
    unfold id. rewrite (st_pos _ _ _ _ _ S).
    eapply runs_upd_m; [exact S|done|]. intros s1 S1. rewrite (proj2 (Z.ltb_lt _ 0)), orb_true_r by done.
    apply runs_bind, runs_ret. apply runs_bind.
    eapply runs_get_m; [exact S1|]. apply runs_bind, runs_modify, runs_ret, runs_ret. split; [done|]. split; [done|].
    eexists _, _. split; [split; cbn; try apply S1; done|]. done.
Qed.

Lemma fops_run mixed lv l : ∀ pos s,
  at_pos mixed lv pos s → forallb fop_ok l = true → (if mixed then existsb is_lseek l else existsb is_pread l) = false →
  runs (do_fops ops fuel l) s (λ rs s', plain_file recs pos l rs ∧ ∃ pos', at_pos mixed lv pos' s').
Proof.
  induction l as [|o l IH]; intros pos s Hs Hok Hm; cbn [do_fops].
  { apply runs_ret. split; [constructor|eauto]. }
  cbn in Hok. apply andb_true_iff in Hok as [Ho Hok].
  assert ((if mixed then existsb is_lseek l else existsb is_pread l) = false) as Hm'.
  { destruct mixed; cbn in Hm; by apply orb_false_iff in Hm as [_ ?]. }
  apply runs_bind. destruct o as [n|n q|offset origin].
  - eapply runs_mono; [eapply read_runs; [exact Hs|by apply Z.leb_le]|]. cbn beta. intros r s1 (d & -> & HR & Hs1).
    apply runs_bind. eapply runs_mono; [by eapply IH|]. cbn beta. intros rs s2 (HP & Hs2). apply runs_ret.
    split; [by constructor|done].
  - destruct mixed; [|by cbn in Hm]. cbn in Ho. apply andb_true_iff in Ho as [?%Z.leb_le ?%Z.leb_le].
    eapply runs_mono; [by eapply pread_runs|]. cbn beta. intros r s1 (d & -> & HR & Hs1).
    apply runs_bind. eapply runs_mono; [by eapply IH|]. cbn beta. intros rs s2 (HP & Hs2). apply runs_ret.
    split; [by constructor|done].
  - destruct mixed; [by cbn in Hm|]. eapply runs_mono; [by eapply lseek_runs|]. cbn beta. intros r s1 Hr.
    destruct (seek_target pos offset origin) as [target|] eqn:E; destruct Hr as [-> Hs1];
      (apply runs_bind; eapply runs_mono; [by eapply IH|]; cbn beta; intros rs s2 (HP & Hs2); apply runs_ret;
       split; [by econstructor|done]).
Qed.

Lemma open_runs s :
  private_data s = None → f_pos s = 0 → sizeof_seq_file <= PAGE_SIZE → 0 <= sizeof_seq_file →
  runs seq_open s (λ r s', r = 0 ∧ ∀ mixed, at_pos mixed (live s + 1) 0 s').
Proof.
  intros Hd Hp Hz Hz0. unfold seq_open. apply runs_bind, runs_gets. unfold id. rewrite Hd. apply runs_bind.
  destruct (granted (kcalls s) sizeof_seq_file) as [b Eb]; [lia|].
  apply runs_bind. eapply runs_ok; [unfold do_kmalloc; by rewrite Eb|]. apply runs_ret. cbn.
  apply runs_bind, runs_modify, runs_ret. split; [done|]. intros mixed. split; [done|].
  eexists 0, _. split; [split; cbn; [done|done|done|]|].
  - unfold has_buf. cbn. lia.
  - unfold good, wf, pending, text_from. cbn. by rewrite drop_0.
Qed.

Lemma single_release_runs mixed l pos s :
  at_pos mixed l pos s → runs seq_release s (λ r s', r = 0 ∧ live s' = l - 1 ∧ private_data s' = None).
Proof.
  intros (_ & fv & m & S & _). unfold seq_release. apply runs_bind. eapply runs_get_m; [exact S|].
  apply runs_bind. unfold kfree. pose proof (st_live _ _ _ _ _ S) as Hl. unfold has_buf in Hl.
  destruct (sq_buf m); (rewrite bool_decide_true by done) || (rewrite bool_decide_false by (by intros [? ?])).
  - apply runs_modify. apply runs_bind. rewrite bool_decide_true by done. apply runs_modify.
    apply runs_bind, runs_modify, runs_ret. cbn. split_and!; [done|lia|done].
  - apply runs_ret. apply runs_bind. rewrite bool_decide_true by done. apply runs_modify.
    apply runs_bind, runs_modify, runs_ret. cbn. split_and!; [done|lia|done].
Qed.
End props.

(** C6. A sequential file is a plain file: when its methods enumerate the records [recs] and the
    slab allocator grants blocks of up to twice the longest record, every session that opens
    the file, reads, preads or seeks in any order (but not both preads and seeks), and
    releases it, returns; each call gives what the same call gives on a plain file that holds
    the texts of the records one after the other: a read gives the next bytes, at most as
    many as asked for and none only at the end; and the release frees every block. *)
Theorem seq_file_refines `{Slab} lim ops recs `{!Records ops recs} fuel s l :
  (∀ k n, 0 <= n <= Z.max PAGE_SIZE (2 * lim) → is_Some (kmalloc k n)) → 0 <= lim < 2 ^ 31 →
  0 <= sizeof_seq_file <= PAGE_SIZE →
  (∀ t, t ∈ recs → len t <= lim) → (length recs + 32 < fuel)%nat →
  private_data s = None → f_pos s = 0 →
  forallb fop_ok l = true → existsb is_lseek l && existsb is_pread l = false →
  runs (session ops fuel l) s (λ rs s', plain_file recs 0 l rs ∧ live s' = live s ∧ private_data s' = None).
Proof.
  intros Hg Hlim Hz Hrl Hf Hd Hp Hok Hmix. unfold session. apply runs_bind.
  eapply runs_mono; [eapply (open_runs lim Hg recs fuel Hf); [done|done|lia|lia]|]. cbn beta. intros r s1 (-> & Hs1). apply runs_bind.
  eapply runs_mono; [eapply (fops_run lim Hg Hlim ops recs Hrl fuel Hf (negb (existsb is_lseek l))); [apply Hs1|done|]|].
  { destruct (existsb is_lseek l); [done|done]. }
  cbn beta. intros rs s2 (HP & pos & Hs2). apply runs_bind. eapply runs_mono; [by eapply single_release_runs|]. cbn beta.
  intros r s3 (-> & Hl & Hn). apply runs_ret. split_and!; [done|lia|done].
Qed.

(** ** Where a sequential file is not a plain file *)

(** Single actions on a file whose fields are known. *)
Section steps.
Context {K : Slab} (p fv : Z) (pw : bool) (k : nat) (l : Z) (m : seq_file).
Notation F m k l := (File (Some m) p fv pw k l).

Lemma get_m_at Q : Q m (F m k l) → runs get_m (F m k l) Q.
Proof. intros HQ. by eapply runs_ok. Qed.

Lemma on_m_at {A} (a : M seq_file A) x m' (Q : A → file → Prop) : a m = Ok (x, m') → Q x (F m' k l) → runs (on_m a) (F m k l) Q.
Proof. intros Ha HQ. eapply runs_ok; [|exact HQ]. unfold on_m. cbn [private_data]. by rewrite Ha. Qed.

Lemma upd_m_at f Q : Q () (F (f m) k l) → runs (upd_m f) (F m k l) Q.
Proof. intros HQ. by eapply on_m_at. Qed.

Lemma grab_at n b (Q : bool → file → Prop) :
  kmalloc k n = b →
  Q (bool_decide (is_Some b)) (F (set_buf b (set_size n m)) (S k) (l + match b with Some _ => 1 | None => 0 end)) →
  runs (grab n) (F m k l) Q.
Proof.
  intros Hk HQ. unfold grab. apply runs_bind, upd_m_at. apply runs_bind.
  eapply runs_ok; [unfold do_kmalloc; cbn [kcalls]; by rewrite Hk|]. cbn [private_data f_pos f_version f_pwrite kcalls live].
  apply runs_bind. eapply runs_ok; [reflexivity|]. by apply runs_ret.
Qed.
End steps.

Section failures.
Context {K : Slab} (ops : seq_operations) (recs : list (list ascii)) {R : Records ops recs}.

(** A read whose first record overflows the fresh buffer, when the larger buffer is
    refused: the file keeps a count of bytes it has no buffer for. *)
Lemma growth_refused fuel fv pw k l t n b0 :
  recs !! 0%nat = Some t → PAGE_SIZE <= len t → kmalloc k PAGE_SIZE = Some b0 → kmalloc (S k) (2 * PAGE_SIZE) = None →
  runs (do_fop ops (S fuel) (FRead n)) (File (Some (SeqFile None 0 0 0 0 0 0)) 0 fv pw k l) (λ r s', r = (- ENOMEM, []) ∧
    ∃ v, s' = File (Some (SeqFile None (2 * PAGE_SIZE) 0 PAGE_SIZE 0 0 v)) 0 v pw (S (S k)) l).
Proof.
  intros Ht Hlen K1 K2. cbn [do_fop]. unfold sys_read. apply runs_bind, runs_gets. cbn [f_pos].
  apply runs_bind. unfold seq_read. apply runs_bind, get_m_at. apply runs_bind, runs_gets.
  apply runs_bind, upd_m_at. cbn [sq_read_pos Z.eqb]. apply runs_bind, runs_ret. cbn [negb Z.eqb].
  apply runs_bind, get_m_at. cbn [sq_buf set_version]. apply runs_bind. eapply grab_at; [exact K1|]. cbn [bool_decide is_Some].
  rewrite bool_decide_true by done. cbn [negb]. apply runs_bind, get_m_at. cbn [sq_count set_buf set_size set_version Z.eqb].
  unfold seq_fill. apply runs_bind, get_m_at. apply runs_bind. eapply on_m_at; [by apply rec_start|].
  assert (item recs handle 0 = PItem (handle 0)) as E0.
  { unfold item. apply lookup_lt_Some in Ht. by rewrite (proj2 (Z.ltb_lt 0 _)) by lia. }
  cbn [sq_index set_buf set_size set_version]. rewrite E0. cbn [first_record]. apply runs_bind, runs_bind.
  pose proof (kmalloc_size _ _ _ K1) as Hb0.
  edestruct (rec_show 0 t (SeqFile (Some b0) PAGE_SIZE 0 0 0 0 fv) b0) as (m' & Esh & Hsh); [done|done|by split_and!|].
  destruct Hsh as [b b' c' Hb Hl' -> Hk [(-> & Hfit & _)|[-> _]]]; cbn [sq_size sq_count] in *; [lia|].
  eapply on_m_at; [exact Esh|]. change (0 <? 0) with false. cbn [Z.eqb negb when]. cbn iota. apply runs_bind, runs_ret.
  apply runs_bind, get_m_at. cbn [sq_size sq_count set_count set_buf]. change (PAGE_SIZE =? 0) with false. rewrite Z.ltb_irrefl. cbn iota.
  apply runs_bind. eapply on_m_at; [apply rec_stop|]. apply runs_bind. unfold regrow. apply runs_bind, get_m_at.
  cbn [sq_size sq_buf set_count set_buf]. apply runs_bind. unfold kfree. rewrite bool_decide_true by done. apply runs_modify.
  unfold set_live. cbn [private_data f_pos f_version f_pwrite kcalls live].
  change (u32 (Z.shiftl PAGE_SIZE 1)) with (2 * PAGE_SIZE). eapply grab_at; [exact K2|].
  rewrite bool_decide_false by (by intros [? ?]). cbn [negb]. apply runs_ret. unfold seq_done. apply runs_bind, runs_ret.
  apply runs_bind, get_m_at. apply runs_bind, runs_modify, runs_ret. apply runs_bind, runs_modify, runs_ret.
  split; [done|]. exists fv. unfold set_f_pos, set_f_version. cbn. do 2 f_equal. lia.
Qed.

(** The next read delivers that many bytes of a block that nothing was written to. *)
Lemma unwritten_read fuel v pw k l n junk :
  0 < n <= PAGE_SIZE → kmalloc k PAGE_SIZE = Some junk →
  runs (do_fop ops fuel (FRead n)) (File (Some (SeqFile None (2 * PAGE_SIZE) 0 PAGE_SIZE 0 0 v)) 0 v pw k l)
    (λ r s', r = (n, take (Z.to_nat n) junk) ∧ is_Some (private_data s')).
Proof.
  intros Hn K1. pose proof (kmalloc_size _ _ _ K1) as Hj. cbn [do_fop]. unfold sys_read. apply runs_bind, runs_gets. cbn [f_pos].
  apply runs_bind. unfold seq_read. apply runs_bind, get_m_at. apply runs_bind, runs_gets.
  apply runs_bind, upd_m_at. cbn [sq_read_pos Z.eqb]. apply runs_bind, runs_ret. cbn [negb Z.eqb].
  apply runs_bind, get_m_at. cbn [sq_buf set_version]. apply runs_bind. eapply grab_at; [exact K1|].
  rewrite bool_decide_true by done. cbn [negb]. apply runs_bind, get_m_at. cbn [sq_count sq_from set_buf set_size set_version].
  change (PAGE_SIZE =? 0) with false. cbn iota. rewrite Z.min_r by lia. apply runs_bind. unfold copy_out. apply runs_bind, get_m_at.
  cbn [sq_buf set_buf]. rewrite (proj2 (Z.leb_le _ _)) by lia. cbn [orb]. apply runs_ret. rewrite drop_0.
  apply runs_bind, upd_m_at. apply runs_bind, upd_m_at. apply runs_bind.
  eapply (runs_mono _ _ (λ _ s', ∃ m', s' = File (Some m') 0 v pw (S k) (l + 1))).
  { apply runs_when; intros _; [apply upd_m_at|]; by eexists. }
  cbn beta. intros _ s1 (m1 & ->). rewrite (proj2 (Z.eqb_eq (n - n) 0)) by lia. unfold seq_done.
  assert (len (take (Z.to_nat n) junk) = n) as E by (rewrite length_take; lia). rewrite E.
  rewrite (proj2 (Z.eqb_neq n 0)) by lia. cbn [negb when].
  apply runs_bind, upd_m_at. apply runs_bind, get_m_at. apply runs_bind, runs_modify, runs_ret. apply runs_bind, runs_modify, runs_ret.
  split; [done|]. by eexists.
Qed.
End failures.

(** C39. When the buffer must grow for a long record and the larger buffer is refused, the read
    fails with [-ENOMEM] as it should, but [m->count] still says that the old buffer is
    full: the next read of up to a page succeeds and gives the reader the contents of a
    freshly allocated block, which may be anything, instead of text of the file. *)
Theorem failed_growth_leaks `{Slab} ops recs `{!Records ops recs} fuel s t n b0 junk :
  recs !! 0%nat = Some t → PAGE_SIZE <= len t → 0 < n <= PAGE_SIZE → private_data s = None → f_pos s = 0 →
  is_Some (kmalloc (kcalls s) sizeof_seq_file) → kmalloc (S (kcalls s)) PAGE_SIZE = Some b0 →
  kmalloc (S (S (kcalls s))) (2 * PAGE_SIZE) = None → kmalloc (S (S (S (kcalls s)))) PAGE_SIZE = Some junk →
  runs (session ops (S fuel) [FRead n; FRead n]) s (λ rs _, rs = [(- ENOMEM, []); (n, take (Z.to_nat n) junk)]).
Proof.
  intros Ht Hlen Hn Hd Hp [b K0] K1 K2 K3. destruct s as [d p fv pw k lv]. cbn in Hd, Hp, K0, K1, K2, K3. subst d p.
  unfold session. apply runs_bind. unfold seq_open. apply runs_bind, runs_gets. cbn [id private_data]. apply runs_bind, runs_bind.
  eapply runs_ok; [unfold do_kmalloc; cbn [kcalls]; by rewrite K0|]. apply runs_ret. rewrite bool_decide_true by done. cbn [negb].
  apply runs_bind, runs_modify, runs_ret. cbn [private_data f_pos f_version f_pwrite kcalls live].
  apply runs_bind. cbn [do_fops]. apply runs_bind. eapply runs_mono; [eapply growth_refused; eassumption|]. cbn beta.
  intros r s1 (-> & v & ->). apply runs_bind, runs_bind. eapply runs_mono; [by eapply unwritten_read|]. cbn beta.
  intros r s2 (-> & m & Em). apply runs_bind, runs_ret, runs_ret, runs_ret. apply runs_bind. unfold seq_release.
  apply runs_bind. eapply runs_ok; [unfold get_m; by rewrite Em|]. apply runs_bind. unfold kfree.
  apply runs_when; intros _; [apply runs_modify|]; apply runs_bind; apply runs_when; intros _; try apply runs_modify;
    apply runs_bind, runs_modify, runs_ret, runs_ret; done.
Qed.

(** [lseek] to the position where a preceding [pread] ended reports success and does not
    move the file: the next [read] gives the text at the old position again. *)
Theorem lseek_after_pread `{Slab} lim ops recs `{!Records ops recs} fuel s n n' :
  (∀ k n, 0 <= n <= Z.max PAGE_SIZE (2 * lim) → is_Some (kmalloc k n)) → 0 <= lim < 2 ^ 31 →
  0 <= sizeof_seq_file <= PAGE_SIZE →
  (∀ t, t ∈ recs → len t <= lim) → (length recs + 32 < fuel)%nat →
  private_data s = None → f_pos s = 0 → 0 < n → 0 < n' → concat recs ≠ [] →
  runs (pread_seek_read ops fuel n n') s
    (λ '(d, r, d') _, d ≠ [] ∧ r = len d ∧ d' ≠ [] ∧ reads recs n 0 d ∧ reads recs n' 0 d').
Proof.
  intros Hg Hlim Hz Hrl Hf Hd Hp Hn Hn' Hc. unfold pread_seek_read. apply runs_bind.
  eapply runs_mono; [eapply (open_runs lim Hg recs fuel Hf); [done|done|lia|lia]|]. cbn beta. intros r s1 (-> & Hs1).
  destruct (Hs1 true) as (_ & fv & m & S & G & _). apply runs_bind, runs_bind.
  eapply runs_mono; [eapply (seq_read_runs lim Hg Hlim ops recs Hrl); [exact S|exact G|done|lia|done]|]. cbn beta.
  intros r s2 (d & fv' & m' & -> & S' & G' & Hrp & HR). apply runs_ret.
  assert (0 < len (concat recs)) as Hlc by (destruct (concat recs); [done|simpl; lia]).
  apply runs_bind. cbn [do_fop]. apply runs_bind. unfold seq_lseek. apply runs_bind. eapply runs_get_m; [exact S'|].
  apply runs_bind, runs_gets. apply runs_bind. eapply runs_upd_m; [exact S'|done|]. intros s3 S3.
  cbn [Z.eqb orb negb]. rewrite (proj2 (Z.ltb_ge (len d) 0)), Hrp, Z.add_0_l, Z.eqb_refl by lia.
  apply runs_bind, runs_ret. apply runs_bind. eapply runs_get_m; [exact S3|]. apply runs_bind, runs_modify, runs_ret, runs_ret.
  apply runs_bind. eapply runs_mono; [eapply (read_runs lim Hg Hlim ops recs Hrl fuel Hf true (live s + 1) 0)|].
  { split; [done|]. eexists _, _. split; [split; cbn; try apply S3; done|]. done. }
  { lia. }
  cbn beta. intros r s4 (d' & -> & HR' & _). apply runs_ret. split_and!; try done; [by apply HR|by apply HR'].
Qed.

(** ** Examples *)

(** An allocator that grants everything but blocks of more than [top] bytes. *)
Definition zero_slab (top : Z) : Slab.
Proof.
  refine {| sizeof_seq_file := 80; sizeof_seq_operations := 16;
            kmalloc k n := if (0 <=? n) && (n <=? top) then Some (replicate (Z.to_nat n) "000"%char) else None |}.
  intros k n b. destruct (Z.leb_spec 0 n); [|done]. destruct (n <=? top); [|done].
  intros [= <-]. rewrite length_replicate. lia.
Defined.

Lemma zero_slab_grants top lim : Z.max PAGE_SIZE (2 * lim) <= top →
  ∀ k n, 0 <= n <= Z.max PAGE_SIZE (2 * lim) → is_Some (@kmalloc (zero_slab top) k n).
Proof. intros Ht k n Hn. cbn [kmalloc zero_slab]. rewrite (proj2 (Z.leb_le 0 n)), (proj2 (Z.leb_le n top)) by lia. by eexists. Qed.

Definition two_lines : list ascii := String.list_ascii_of_string "one" ++ "010"%char :: String.list_ascii_of_string "two".

Definition two_lines_ops : seq_operations := single_ops (seq_printf two_lines;; mret 0).

Definition two_lines_records : Records two_lines_ops [two_lines] := single_records _ _ (printf_prints two_lines).

Definition closed : file := File None 0 0 true 0 0.

Lemma seq_file_refines_witness :
  runs (@session (zero_slab 8192) two_lines_ops 40 [FRead 3; FLseek (-1) 1; FRead 100; FRead 1; FLseek 0 2]) closed
    (λ rs s', plain_file [two_lines] 0 [FRead 3; FLseek (-1) 1; FRead 100; FRead 1; FLseek 0 2] rs ∧
       live s' = live closed ∧ private_data s' = None).
Proof.
  apply (@seq_file_refines (zero_slab 8192) 7 two_lines_ops [two_lines] two_lines_records); try done.
  - by apply zero_slab_grants.
  - intros t ->%list_elem_of_singleton. done.
  - cbn. lia.
Defined.

(** The same session, computed. *)
Lemma two_lines_session :
  (fst <$> (match @session (zero_slab 8192) two_lines_ops 40 [FRead 3; FLseek (-1) 1; FRead 100; FRead 1; FLseek 0 2] closed with
            | Ok (rs, _) => rs | Err _ => [] end)) = [3; 2; 5; 0; - EINVAL].
Proof. vm_compute. reflexivity. Qed.

Lemma lseek_after_pread_witness :
  runs (@pread_seek_read (zero_slab 8192) two_lines_ops 40 3 4) closed
    (λ '(d, r, d') _, d ≠ [] ∧ r = len d ∧ d' ≠ [] ∧ reads [two_lines] 3 0 d ∧ reads [two_lines] 4 0 d').
Proof.
  apply (@lseek_after_pread (zero_slab 8192) 7 two_lines_ops [two_lines] two_lines_records); try done.
  - by apply zero_slab_grants.
  - intros t ->%list_elem_of_singleton. done.
  - cbn. lia.
Defined.

Definition long_record : list ascii := replicate 4096 "x"%char.

Definition long_ops : seq_operations := single_ops (seq_printf long_record;; mret 0).

Definition long_records : Records long_ops [long_record] := single_records _ _ (printf_prints long_record).

Lemma failed_growth_leaks_witness :
  runs (@session (zero_slab 4096) long_ops 2 [FRead 8; FRead 8]) closed
    (λ rs _, rs = [(- ENOMEM, []); (8, take (Z.to_nat 8) (replicate (Z.to_nat 4096) "000"%char))]).
Proof.
  apply (@failed_growth_leaks (zero_slab 4096) long_ops [long_record] long_records 1 closed long_record 8
           (replicate (Z.to_nat 4096) "000"%char) (replicate (Z.to_nat 4096) "000"%char)); try reflexivity; try done.
Defined.
