(* ===== verification/Lru.v ===== *)
(** * Page reclaim: pages, zones and the lists of least recently used pages

    Models [include/linux/mm_inline.h] and [mm/swap.c], with what they use of
    [page-flags.h], [mmzone.h], [mm.h], [pagevec.h] and [vmstat.h], for a uniprocessor
    kernel without memory control groups and huge pages.  The counter [PG_referenced]
    is the field this kernel adds to [struct page].

    A list that is threaded through [page->lru] is kept as the list of its pages, from
    head to tail; the theorems of [ListHead] justify this view of [list_add],
    [list_del], [list_move] and [list_splice].  Code runs one call at a time; what
    other tasks did before is the state a call starts in. *)

From S2P Require Import Prelude.

(** ** Page flags *)

Definition PG_locked : Z := 0.
Definition PG_dirty : Z := 4.
Definition PG_lru : Z := 5.
Definition PG_active : Z := 6.
Definition PG_private : Z := 11.
Definition PG_private_2 : Z := 12.
Definition PG_writeback : Z := 13.
Definition PG_head : Z := 14.
Definition PG_tail : Z := 15.
Definition PG_swapcache : Z := 16.
Definition PG_reclaim : Z := 18.
Definition PG_swapbacked : Z := 19.
Definition PG_unevictable : Z := 20.
Definition PG_mlocked : Z := 21.

(** [page->mapping]: nothing, an [anon_vma] (the pointer has bit [PAGE_MAPPING_ANON])
    or the [address_space] of a file. *)
Inductive page_map := NoMap | AnonMap (anon_vma : Z) | FileMap (space : Z).

Record page := Page {
  flags : Z;
  _count : Z;
  _mapcount : Z;
  mapping : page_map;
  first_page : Z;
  page_zone : Z;
  PG_referenced : Z;
}.

Definition set_flags (f : Z) (pg : page) : page :=
  Page f (_count pg) (_mapcount pg) (mapping pg) (first_page pg) (page_zone pg) (PG_referenced pg).
Definition set_count (c : Z) (pg : page) : page :=
  Page (flags pg) c (_mapcount pg) (mapping pg) (first_page pg) (page_zone pg) (PG_referenced pg).
Definition set_mapcount (c : Z) (pg : page) : page :=
  Page (flags pg) (_count pg) c (mapping pg) (first_page pg) (page_zone pg) (PG_referenced pg).
Definition set_mapping (m : page_map) (pg : page) : page :=
  Page (flags pg) (_count pg) (_mapcount pg) m (first_page pg) (page_zone pg) (PG_referenced pg).
Definition set_PG_referenced (r : Z) (pg : page) : page :=
  Page (flags pg) (_count pg) (_mapcount pg) (mapping pg) (first_page pg) (page_zone pg) r.

Definition SetPage (b : Z) (pg : page) : page := set_flags (Z.setbit (flags pg) b) pg.
Definition ClearPage (b : Z) (pg : page) : page := set_flags (Z.clearbit (flags pg) b) pg.

Definition PageLocked (pg : page) : bool := Z.testbit (flags pg) PG_locked.
Definition PageDirty (pg : page) : bool := Z.testbit (flags pg) PG_dirty.
Definition PageLRU (pg : page) : bool := Z.testbit (flags pg) PG_lru.
Definition PageActive (pg : page) : bool := Z.testbit (flags pg) PG_active.
Definition PageWriteback (pg : page) : bool := Z.testbit (flags pg) PG_writeback.
Definition PageHead (pg : page) : bool := Z.testbit (flags pg) PG_head.
Definition PageTail (pg : page) : bool := Z.testbit (flags pg) PG_tail.
Definition PageSwapCache (pg : page) : bool := Z.testbit (flags pg) PG_swapcache.
Definition PageSwapBacked (pg : page) : bool := Z.testbit (flags pg) PG_swapbacked.
Definition PageUnevictable (pg : page) : bool := Z.testbit (flags pg) PG_unevictable.
Definition PageMlocked (pg : page) : bool := Z.testbit (flags pg) PG_mlocked.
Definition PageCompound (pg : page) : bool := PageHead pg || PageTail pg.
Definition PageAnon (pg : page) : bool := match mapping pg with AnonMap _ => true | _ => false end.
Definition page_has_private (pg : page) : bool :=
  Z.testbit (flags pg) PG_private || Z.testbit (flags pg) PG_private_2.

Definition page_mapcount (pg : page) : Z := _mapcount pg + 1.
Definition page_mapped (pg : page) : bool := 0 <=? _mapcount pg.

(** ** Zones and the lists *)

Definition LRU_BASE : Z := 0.
Definition LRU_ACTIVE : Z := 1.
Definition LRU_FILE : Z := 2.
Definition LRU_INACTIVE_ANON : Z := LRU_BASE.
Definition LRU_ACTIVE_ANON : Z := LRU_BASE + LRU_ACTIVE.
Definition LRU_INACTIVE_FILE : Z := LRU_BASE + LRU_FILE.
Definition LRU_ACTIVE_FILE : Z := LRU_BASE + LRU_FILE + LRU_ACTIVE.
Definition LRU_UNEVICTABLE : Z := 4.

Definition is_file_lru (lru : Z) : bool := (lru =? LRU_INACTIVE_FILE) || (lru =? LRU_ACTIVE_FILE).
Definition is_active_lru (lru : Z) : bool := (lru =? LRU_ACTIVE_ANON) || (lru =? LRU_ACTIVE_FILE).

(** [enum zone_stat_item], as far as it is used. *)
Definition NR_FREE_PAGES : Z := 0.
Definition NR_LRU_BASE : Z := 1.
Definition NR_INACTIVE_ANON : Z := NR_LRU_BASE.
Definition NR_ACTIVE_ANON : Z := 2.
Definition NR_INACTIVE_FILE : Z := 3.
Definition NR_ACTIVE_FILE : Z := 4.
Definition NR_FILE_PAGES : Z := 9.
Definition NR_VMSCAN_WRITE : Z := 18.
Definition NR_VMSCAN_IMMEDIATE : Z := 19.
Definition NR_ISOLATED_ANON : Z := 21.
Definition NR_ISOLATED_FILE : Z := 22.

Record zone := Zone {
  lru_lock : bool;
  vm_stat : gmap Z Z;
  recent_rotated : gmap Z Z;
  recent_scanned : gmap Z Z;
  pages_scanned : Z;
  all_unreclaimable : bool;
  congested : bool;
  inactive_ratio : Z;
  present_pages : Z;
  watermark : Z * Z * Z;
  lowmem_reserve : gmap Z Z;
  nr_free : gmap Z Z;
}.

Definition stat (m : gmap Z Z) (i : Z) : Z := default 0 (m !! i).
Definition add_stat (i d : Z) (m : gmap Z Z) : gmap Z Z := <[i := stat m i + d]> m.

Definition set_lru_lock (b : bool) (z : zone) : zone :=
  Zone b (vm_stat z) (recent_rotated z) (recent_scanned z) (pages_scanned z) (all_unreclaimable z) (congested z)
    (inactive_ratio z) (present_pages z) (watermark z) (lowmem_reserve z) (nr_free z).
Definition set_vm_stat (m : gmap Z Z) (z : zone) : zone :=
  Zone (lru_lock z) m (recent_rotated z) (recent_scanned z) (pages_scanned z) (all_unreclaimable z) (congested z)
    (inactive_ratio z) (present_pages z) (watermark z) (lowmem_reserve z) (nr_free z).
Definition set_recent (r sc : gmap Z Z) (z : zone) : zone :=
  Zone (lru_lock z) (vm_stat z) r sc (pages_scanned z) (all_unreclaimable z) (congested z)
    (inactive_ratio z) (present_pages z) (watermark z) (lowmem_reserve z) (nr_free z).
Definition set_pages_scanned (n : Z) (z : zone) : zone :=
  Zone (lru_lock z) (vm_stat z) (recent_rotated z) (recent_scanned z) n (all_unreclaimable z) (congested z)
    (inactive_ratio z) (present_pages z) (watermark z) (lowmem_reserve z) (nr_free z).
Definition set_all_unreclaimable (b : bool) (z : zone) : zone :=
  Zone (lru_lock z) (vm_stat z) (recent_rotated z) (recent_scanned z) (pages_scanned z) b (congested z)
    (inactive_ratio z) (present_pages z) (watermark z) (lowmem_reserve z) (nr_free z).
Definition set_congested (b : bool) (z : zone) : zone :=
  Zone (lru_lock z) (vm_stat z) (recent_rotated z) (recent_scanned z) (pages_scanned z) (all_unreclaimable z) b
    (inactive_ratio z) (present_pages z) (watermark z) (lowmem_reserve z) (nr_free z).

(** The head of a list: the list [lru] of zone [z] is [(z, lru)], a list head that is a
    local variable of a function has a number of its own. *)
Definition head : Type := Z * Z.

(** The lists of pages that are held, and of pages that are about to be freed. *)
Definition held (n : Z) : head := (-1, n).
Definition doomed (n : Z) : head := (-2, n).

(** The pagevecs: [lru_add_pvecs] has one for each list, 0 to 4. *)
Definition lru_rotate_pvecs : Z := 5.
Definition lru_deactivate_pvecs : Z := 6.

(** A file: whether it is marked unevictable, the operations it has, and whether its
    device is congested. *)
Record address_space := AddressSpace {
  as_unevictable : bool;
  as_writepage : bool;
  as_freepage : bool;
  as_migratepage : bool;
  as_congested : bool;
  as_error : bool;
}.

(** A memory area that the reverse map of a page lists: the flags of the area, whether
    it covers the page ([vma_address]), the young bit of the entry that maps the page
    ([page_check_address] finds none: [None]), and whether another task that has the swap
    token is faulting in it. *)
Record rarea := RArea {
  ra_flags : Z;
  ra_covers : bool;
  ra_young : option bool;
  ra_token : bool;
}.

(** The scan counts that shrinkers carry over ([nr_in_batch]), and the pages that the slab
    allocator gave back on behalf of the task that reclaims ([None]: it does not count
    them). *)
Record slab_state := SlabState {
  nr_in_batch : gmap Z Z;
  reclaimed_slab : option Z;
}.

(** The node, as far as its daemon uses it: the number of zones, the order and the zone that
    the wake-ups since its last look ask for, and whether it waits on [kswapd_wait]. *)
Record pg_data := PgData {
  nr_zones : Z;
  kswapd_max_order : Z;
  classzone_idx : Z;
  kswapd_waits : bool;
}.

Record lst := LSt {
  pages : gmap Z page;
  lists : gmap head (list Z);
  zones : gmap Z zone;
  pvecs : gmap Z (list Z);
  spaces : gmap Z address_space;
  vm_events : gmap string Z;
  freed : list Z;
  rmaps : gmap Z (list rarea);
  nr_swap_pages : Z;
  slab : slab_state;
  pgdat : pg_data;
}.

Definition set_pages (x : gmap Z page) (s : lst) : lst :=
  LSt x (lists s) (zones s) (pvecs s) (spaces s) (vm_events s) (freed s) (rmaps s) (nr_swap_pages s) (slab s) (pgdat s).
Definition set_lists (x : gmap head (list Z)) (s : lst) : lst :=
  LSt (pages s) x (zones s) (pvecs s) (spaces s) (vm_events s) (freed s) (rmaps s) (nr_swap_pages s) (slab s) (pgdat s).
Definition set_zones (x : gmap Z zone) (s : lst) : lst :=
  LSt (pages s) (lists s) x (pvecs s) (spaces s) (vm_events s) (freed s) (rmaps s) (nr_swap_pages s) (slab s) (pgdat s).
Definition set_pvecs (x : gmap Z (list Z)) (s : lst) : lst :=
  LSt (pages s) (lists s) (zones s) x (spaces s) (vm_events s) (freed s) (rmaps s) (nr_swap_pages s) (slab s) (pgdat s).
Definition set_spaces (x : gmap Z address_space) (s : lst) : lst :=
  LSt (pages s) (lists s) (zones s) (pvecs s) x (vm_events s) (freed s) (rmaps s) (nr_swap_pages s) (slab s) (pgdat s).
Definition set_vm_events (x : gmap string Z) (s : lst) : lst :=
  LSt (pages s) (lists s) (zones s) (pvecs s) (spaces s) x (freed s) (rmaps s) (nr_swap_pages s) (slab s) (pgdat s).
Definition set_freed (x : list Z) (s : lst) : lst :=
  LSt (pages s) (lists s) (zones s) (pvecs s) (spaces s) (vm_events s) x (rmaps s) (nr_swap_pages s) (slab s) (pgdat s).

Definition set_rmaps (x : gmap Z (list rarea)) (s : lst) : lst :=
  LSt (pages s) (lists s) (zones s) (pvecs s) (spaces s) (vm_events s) (freed s) x (nr_swap_pages s) (slab s) (pgdat s).

Definition set_slab (x : slab_state) (s : lst) : lst :=
  LSt (pages s) (lists s) (zones s) (pvecs s) (spaces s) (vm_events s) (freed s) (rmaps s) (nr_swap_pages s) x (pgdat s).

Definition set_pgdat (x : pg_data) (s : lst) : lst :=
  LSt (pages s) (lists s) (zones s) (pvecs s) (spaces s) (vm_events s) (freed s) (rmaps s) (nr_swap_pages s) (slab s) x.

Definition list_at (s : lst) (h : head) : list Z := default [] (lists s !! h).
Definition pvec_at (s : lst) (i : Z) : list Z := default [] (pvecs s !! i).

(** ** Access to the state *)

Definition page_at (p : Z) : M lst page := m ← gets pages; of_option (BadAddr p) (m !! p).

Definition upd_page (p : Z) (f : page → page) : M lst () :=
  pg ← page_at p;
  modify (λ s, set_pages (<[p := f pg]> (pages s)) s).

Definition zone_at (z : Z) : M lst zone := m ← gets zones; of_option (BadAddr z) (m !! z).

Definition upd_zone (z : Z) (f : zone → zone) : M lst () :=
  zd ← zone_at z;
  modify (λ s, set_zones (<[z := f zd]> (zones s)) s).

Definition get_list (h : head) : M lst (list Z) := gets (λ s, list_at s h).
Definition set_list (h : head) (l : list Z) : M lst () := modify (λ s, set_lists (<[h := l]> (lists s)) s).

(** The page is linked into some list. *)
Definition linked (p : Z) (s : lst) : bool :=
  bool_decide (map_Exists (λ _ l, p ∈ l) (lists s)).

Definition without (p : Z) (l : list Z) : list Z := filter (λ x, x ≠ p) l.

Definition list_del (p : Z) : M lst () :=
  b ← gets (linked p);
  if (b : bool) then modify (λ s, set_lists (without p <$> lists s) s) else fail ListCorrupt.

Definition list_add (p : Z) (h : head) : M lst () :=
  b ← gets (linked p);
  if (b : bool) then fail ListCorrupt
  else l ← get_list h; set_list h (p :: l).

Definition list_add_tail (p : Z) (h : head) : M lst () :=
  b ← gets (linked p);
  if (b : bool) then fail ListCorrupt
  else l ← get_list h; set_list h (l ++ [p]).

Definition list_move (p : Z) (h : head) : M lst () := list_del p;; list_add p h.
Definition list_move_tail (p : Z) (h : head) : M lst () := list_del p;; list_add_tail p h.

(** [list_splice]; the source is not used afterwards and is left empty. *)
Definition list_splice (src dst : head) : M lst () :=
  l ← get_list src;
  l' ← get_list dst;
  set_list src [];;
  set_list dst (l ++ l').

Definition spin_lock_irq (z : Z) : M lst () :=
  zd ← zone_at z;
  if lru_lock zd then fail Deadlock else upd_zone z (set_lru_lock true).

Definition spin_unlock_irq (z : Z) : M lst () := upd_zone z (set_lru_lock false).

Definition __mod_zone_page_state (z item delta : Z) : M lst () :=
  upd_zone z (λ zd, set_vm_stat (add_stat item delta (vm_stat zd)) zd).

Definition zone_page_state (zd : zone) (item : Z) : Z := u32 (stat (vm_stat zd) item).

Definition count_vm_events (e : string) (n : Z) : M lst () :=
  modify (λ s, set_vm_events (<[e := default 0 (vm_events s !! e) + n]> (vm_events s)) s).

Definition count_vm_event (e : string) : M lst () := count_vm_events e 1.

(** [page_mapping]: swapper_space is the address space 0. *)
Definition swapper_space : Z := 0.

Definition page_mapping (pg : page) : option Z :=
  if PageSwapCache pg then Some swapper_space
  else match mapping pg with FileMap m => Some m | _ => None end.

(** ** mm_inline.h *)

Definition page_is_file_cache (pg : page) : bool := negb (PageSwapBacked pg).

(** Without transparent huge pages. *)
Definition hpage_nr_pages : Z := 1.

Definition add_page_to_lru_list (z p lru : Z) : M lst () :=
  list_add p (z, lru);;
  __mod_zone_page_state z (NR_LRU_BASE + lru) hpage_nr_pages.

Definition del_page_from_lru_list (z p lru : Z) : M lst () :=
  list_del p;;
  __mod_zone_page_state z (NR_LRU_BASE + lru) (- hpage_nr_pages).

Definition page_lru_base_type (pg : page) : Z :=
  if page_is_file_cache pg then LRU_INACTIVE_FILE else LRU_INACTIVE_ANON.

Definition page_off_lru (p : Z) : M lst Z :=
  pg ← page_at p;
  if PageUnevictable pg then
    upd_page p (ClearPage PG_unevictable);;
    mret LRU_UNEVICTABLE
  else if PageActive pg then
    upd_page p (ClearPage PG_active);;
    mret (page_lru_base_type pg + LRU_ACTIVE)
  else mret (page_lru_base_type pg).

Definition page_lru (pg : page) : Z :=
  if PageUnevictable pg then LRU_UNEVICTABLE
  else page_lru_base_type pg + (if PageActive pg then LRU_ACTIVE else 0).

(** ** Reference counts *)

Definition put_page_testzero (p : Z) : M lst bool :=
  pg ← page_at p;
  upd_page p (set_count (_count pg - 1));;
  mret (_count pg - 1 =? 0).

Definition get_page_unless_zero (p : Z) : M lst bool :=
  pg ← page_at p;
  if _count pg =? 0 then mret false
  else upd_page p (set_count (_count pg + 1));; mret true.

(** The page goes to the page allocator, which links it into a list of its own. *)
Definition free_hot_cold_page (p : Z) : M lst () := modify (λ s, set_freed (p :: freed s) s).

Fixpoint free_pages_from (l : list Z) : M lst () :=
  match l with
  | [] => mret ()
  | p :: l => free_hot_cold_page p;; free_pages_from l
  end.

Definition free_hot_cold_page_list (h : head) : M lst () :=
  l ← get_list h;
  set_list h [];;
  free_pages_from l.

(** ** swap.c *)

Definition __page_cache_release (p : Z) : M lst () :=
  pg ← page_at p;
  when (PageLRU pg) (
    spin_lock_irq (page_zone pg);;
    upd_page p (ClearPage PG_lru);;
    lru ← page_off_lru p;
    del_page_from_lru_list (page_zone pg) p lru;;
    spin_unlock_irq (page_zone pg)).

Definition __put_single_page (p : Z) : M lst () :=
  __page_cache_release p;;
  free_hot_cold_page p.

(** The destructor of a compound page gives it to the page allocator. *)
Definition __put_compound_page (p : Z) : M lst () :=
  __page_cache_release p;;
  free_hot_cold_page p.

Definition compound_head (p : Z) (pg : page) : Z := if PageTail pg then first_page pg else p.

(** The page cannot be split while the function runs: the compound lock is empty
    without transparent huge pages. *)
Definition put_compound_page (p : Z) : M lst () :=
  pg ← page_at p;
  if PageTail pg then
    let page_head := compound_head p pg in
    got ← (if p =? page_head then mret false else get_page_unless_zero page_head);
    if (got : bool) then
      put_page_testzero page_head;;
      upd_page p (set_mapcount (_mapcount pg - 1));;
      zero ← put_page_testzero page_head;
      when zero (
        hd ← page_at page_head;
        if PageHead hd then __put_compound_page page_head else __put_single_page page_head)
    else
      zero ← put_page_testzero p;
      when zero (__put_single_page p)
  else
    zero ← put_page_testzero p;
    when zero (if PageHead pg then __put_compound_page p else __put_single_page p).

Definition put_page (p : Z) : M lst () :=
  pg ← page_at p;
  if PageCompound pg then put_compound_page p
  else
    zero ← put_page_testzero p;
    when zero (__put_single_page p).

(** [__get_page_tail] and [get_page]; [__get_page_tail_foll] without reference on the
    head page increments the count of the tail page in [_mapcount]. *)
Definition __get_page_tail (p : Z) : M lst bool :=
  pg ← page_at p;
  let page_head := compound_head p pg in
  got ← (if p =? page_head then mret false else get_page_unless_zero page_head);
  if (got : bool) then
    if PageTail pg then
      upd_page p (set_mapcount (_mapcount pg + 1));;
      mret true
    else
      put_page page_head;;
      mret false
  else mret false.

Definition get_page (p : Z) : M lst () :=
  pg ← page_at p;
  got ← (if PageTail pg then __get_page_tail p else mret false);
  when (negb got) (upd_page p (λ pg, set_count (_count pg + 1) pg)).

(** [put_pages_list], for a list of [n] pages or fewer. *)
Fixpoint put_pages_list (n : nat) (h : head) : M lst () :=
  l ← get_list h;
  match n, last l with
  | _, None => mret ()
  | O, _ => fail NoFuel
  | S n, Some victim =>
      list_del victim;;
      put_page victim;;
      put_pages_list n h
  end.

(** The loop of [release_pages]; [zn] is the zone whose lock is held. *)
Fixpoint release_loop (pages_to_free : head) (ps : list Z) (zn : option Z) : M lst (option Z) :=
  match ps with
  | [] => mret zn
  | p :: ps =>
      pg ← page_at p;
      if PageCompound pg then
        match zn with Some z => spin_unlock_irq z | None => mret () end;;
        put_compound_page p;;
        release_loop pages_to_free ps None
      else
        zero ← put_page_testzero p;
        if negb zero then release_loop pages_to_free ps zn
        else
          zn' ← (if PageLRU pg then
                   let pagezone := page_zone pg in
                   (if bool_decide (zn = Some pagezone) then mret ()
                    else
                      match zn with Some z => spin_unlock_irq z | None => mret () end;;
                      spin_lock_irq pagezone);;
                   upd_page p (ClearPage PG_lru);;
                   lru ← page_off_lru p;
                   del_page_from_lru_list pagezone p lru;;
                   mret (Some pagezone)
                 else mret zn);
          list_add p pages_to_free;;
          release_loop pages_to_free ps zn'
  end.

Definition release_free_list : head := doomed 0.

Definition release_pages (ps : list Z) : M lst () :=
  set_list release_free_list [];;
  zn ← release_loop release_free_list ps None;
  match zn with Some z => spin_unlock_irq z | None => mret () end;;
  free_hot_cold_page_list release_free_list.

(** The loop of [pagevec_lru_move_fn]; [move_fn] gets the integer that [arg] points to
    and returns its new value. *)
Fixpoint move_loop (move_fn : Z → Z → M lst Z) (ps : list Z) (arg : Z) (zn : option Z)
    : M lst (option Z * Z) :=
  match ps with
  | [] => mret (zn, arg)
  | p :: ps =>
      pg ← page_at p;
      let pagezone := page_zone pg in
      (if bool_decide (zn = Some pagezone) then mret ()
       else
         match zn with Some z => spin_unlock_irq z | None => mret () end;;
         spin_lock_irq pagezone);;
      arg ← move_fn p arg;
      move_loop move_fn ps arg (Some pagezone)
  end.

Definition pagevec_lru_move_fn (pvec : Z) (move_fn : Z → Z → M lst Z) (arg : Z) : M lst Z :=
  ps ← gets (λ s, pvec_at s pvec);
  r ← move_loop move_fn ps arg None;
  match r.1 with Some z => spin_unlock_irq z | None => mret () end;;
  release_pages ps;;
  modify (λ s, set_pvecs (<[pvec := []]> (pvecs s)) s);;
  mret r.2.

Definition PAGEVEC_SIZE : Z := 14.

(** [pagevec_add] returns the number of slots that are left. *)
Definition pagevec_add (pvec p : Z) : M lst Z :=
  ps ← gets (λ s, pvec_at s pvec);
  if PAGEVEC_SIZE <=? Z.of_nat (length ps) then fail (OutOfBounds (Z.of_nat (length ps)))
  else
    modify (λ s, set_pvecs (<[pvec := ps ++ [p]]> (pvecs s)) s);;
    mret (PAGEVEC_SIZE - Z.of_nat (length ps) - 1).

Definition pagevec_move_tail_fn (p pgmoved : Z) : M lst Z :=
  pg ← page_at p;
  if PageLRU pg && negb (PageActive pg) && negb (PageUnevictable pg) then
    let lru := page_lru_base_type pg in
    list_move_tail p (page_zone pg, lru);;
    mret (pgmoved + 1)
  else mret pgmoved.

Definition pagevec_move_tail (pvec : Z) : M lst () :=
  pgmoved ← pagevec_lru_move_fn pvec pagevec_move_tail_fn 0;
  count_vm_events "PGROTATED" pgmoved.

Definition rotate_reclaimable_page (p : Z) : M lst () :=
  pg ← page_at p;
  when (negb (PageLocked pg) && negb (PageDirty pg) && negb (PageActive pg) &&
        negb (PageUnevictable pg) && PageLRU pg) (
    get_page p;;
    space ← pagevec_add lru_rotate_pvecs p;
    when (space =? 0) (pagevec_move_tail lru_rotate_pvecs)).

Definition b2z (b : bool) : Z := if b then 1 else 0.

Definition update_page_reclaim_stat (z : Z) (file rotated : bool) : M lst () :=
  upd_zone z (λ zd, set_recent (if rotated then add_stat (b2z file) 1 (recent_rotated zd) else recent_rotated zd)
                      (add_stat (b2z file) 1 (recent_scanned zd)) zd).

Definition __activate_page (p arg : Z) : M lst Z :=
  pg ← page_at p;
  let zn := page_zone pg in
  when (PageLRU pg && negb (PageActive pg) && negb (PageUnevictable pg)) (
    let file := page_is_file_cache pg in
    let lru := page_lru_base_type pg in
    del_page_from_lru_list zn p lru;;
    upd_page p (SetPage PG_active);;
    add_page_to_lru_list zn p (lru + LRU_ACTIVE);;
    count_vm_event "PGACTIVATE";;
    update_page_reclaim_stat zn file true);;
  mret arg.

Definition activate_page (p : Z) : M lst () :=
  pg ← page_at p;
  spin_lock_irq (page_zone pg);;
  __activate_page p 0;;
  spin_unlock_irq (page_zone pg).

Definition mark_page_accessed (p : Z) : M lst () :=
  pg ← page_at p;
  when (negb (PageActive pg) && negb (PageUnevictable pg) && PageLRU pg) (activate_page p);;
  upd_page p (set_PG_referenced 0).

Definition __pagevec_lru_add_fn (lru p arg : Z) : M lst Z :=
  pg ← page_at p;
  let file := is_file_lru lru in
  let active := is_active_lru lru in
  upd_page p (SetPage PG_lru);;
  when active (upd_page p (SetPage PG_active));;
  add_page_to_lru_list (page_zone pg) p lru;;
  update_page_reclaim_stat (page_zone pg) file active;;
  mret arg.

Definition __pagevec_lru_add (pvec lru : Z) : M lst () :=
  pagevec_lru_move_fn pvec (__pagevec_lru_add_fn lru) 0;;
  mret ().

Definition __lru_cache_add (p lru : Z) : M lst () :=
  get_page p;;
  space ← pagevec_add lru p;
  when (space =? 0) (__pagevec_lru_add lru lru).

Definition lru_cache_add_lru (p lru : Z) : M lst () :=
  pg ← page_at p;
  (if PageActive pg then upd_page p (ClearPage PG_active)
   else when (PageUnevictable pg) (upd_page p (ClearPage PG_unevictable)));;
  __lru_cache_add p lru.

Definition add_page_to_unevictable_list (p : Z) : M lst () :=
  pg ← page_at p;
  spin_lock_irq (page_zone pg);;
  upd_page p (SetPage PG_unevictable);;
  upd_page p (SetPage PG_lru);;
  add_page_to_lru_list (page_zone pg) p LRU_UNEVICTABLE;;
  spin_unlock_irq (page_zone pg).

Definition lru_deactivate_fn (p arg : Z) : M lst Z :=
  pg ← page_at p;
  let zn := page_zone pg in
  if negb (PageLRU pg) then mret arg
  else if PageUnevictable pg then mret arg
  else if page_mapped pg then mret arg
  else
    let active := PageActive pg in
    let file := page_is_file_cache pg in
    let lru := page_lru_base_type pg in
    del_page_from_lru_list zn p (lru + b2z active);;
    upd_page p (ClearPage PG_active);;
    add_page_to_lru_list zn p lru;;
    (if PageWriteback pg || PageDirty pg then upd_page p (SetPage PG_reclaim)
     else
       list_move_tail p (zn, lru);;
       count_vm_event "PGROTATED");;
    when active (count_vm_event "PGDEACTIVATE");;
    update_page_reclaim_stat zn file false;;
    mret arg.

Fixpoint drain_lrus (lrus : list Z) : M lst () :=
  match lrus with
  | [] => mret ()
  | lru :: lrus =>
      ps ← gets (λ s, pvec_at s lru);
      when (negb (bool_decide (ps = []))) (__pagevec_lru_add lru lru);;
      drain_lrus lrus
  end.

(** [lru_add_drain_cpu] and [lru_add_drain], for the only CPU. *)
Definition lru_add_drain : M lst () :=
  drain_lrus [0; 1; 2; 3; 4];;
  ps ← gets (λ s, pvec_at s lru_rotate_pvecs);
  when (negb (bool_decide (ps = []))) (pagevec_move_tail lru_rotate_pvecs);;
  ps ← gets (λ s, pvec_at s lru_deactivate_pvecs);
  when (negb (bool_decide (ps = [])))
    (pagevec_lru_move_fn lru_deactivate_pvecs lru_deactivate_fn 0;; mret ()).

Definition deactivate_page (p : Z) : M lst () :=
  pg ← page_at p;
  if PageUnevictable pg then mret ()
  else
    got ← get_page_unless_zero p;
    when got (
      space ← pagevec_add lru_deactivate_pvecs p;
      when (space =? 0) (pagevec_lru_move_fn lru_deactivate_pvecs lru_deactivate_fn 0;; mret ())).

(** [__pagevec_release] of a pagevec that holds the pages [ps]. *)
Definition __pagevec_release (ps : list Z) : M lst () :=
  lru_add_drain;;
  release_pages ps.
