(* ===== verification/LruInv.v ===== *)
(** * The invariant of the lists of pages

    The relation between the lists, the flags and counts of pages and the counters of
    zones, stated so that it can be followed through the code statement by statement:
    one page may be in hand, that is, between two lists or with flags that do not fit
    its list yet. *)

From S2P Require Import Prelude Hoare Lru.

(** ** Flags *)

Ltac page_unfold :=
  unfold page_lru, page_lru_base_type, page_is_file_cache, PageCompound, page_mapped, page_mapcount,
    PageLRU, PageActive, PageUnevictable, PageHead, PageTail, PageSwapBacked,
    PageDirty, PageWriteback, PageLocked, PageMlocked, PageSwapCache, page_has_private in *.

(** Solves goals about the flags of pages after flags were set and cleared. *)
Ltac page_solve :=
  page_unfold; unfold SetPage, ClearPage in *; cbn [flags _count _mapcount mapping first_page page_zone
    PG_referenced set_flags set_count set_mapcount set_mapping set_PG_referenced] in *;
  rewrite ?Z.setbit_eqb, ?Z.clearbit_eqb, ?Z.setbit_eqb, ?Z.clearbit_eqb in * by (by vm_compute);
  unfold PG_locked, PG_dirty, PG_lru, PG_active, PG_private, PG_private_2, PG_writeback, PG_head, PG_tail,
    PG_swapcache, PG_reclaim, PG_swapbacked, PG_unevictable, PG_mlocked in *; cbn [Z.eqb Pos.eqb negb orb] in *;
  rewrite ?orb_true_l, ?orb_false_l, ?andb_true_r, ?andb_false_r in *; cbn [negb] in *;
  try done; try congruence.

(** ** The invariant *)

Record hand := Hand { h_page : Z; h_data : page; h_spare : Z; h_loc : option head }.

(** What the list a page is on tells of it: a page on a list of a zone has [PG_lru] and
    the flags that select the list; a held page is referenced by its holder. *)
Definition on_list (ref : Z → Z) (h : head) (p : Z) (pg : page) : Prop :=
  PageCompound pg = false ∧
  ((0 <= h.1 ∧ PageLRU pg = true ∧ h = (page_zone pg, page_lru pg)) ∨
   (h.1 = -1 ∧ PageLRU pg = false ∧ ref p + 1 <= _count pg) ∨
   (h.1 = -2 ∧ PageLRU pg = false ∧ _count pg = 0)).

(** A page that waits in a pagevec to be added to list [l]. *)
Definition pend_ok (l : Z) (pg : page) : Prop :=
  PageLRU pg = false ∧ PageActive pg = false ∧ PageUnevictable pg = false ∧ PageCompound pg = false ∧
  0 <= l <= 3 ∧ is_file_lru l = page_is_file_cache pg.

Definition unlinked (s : lst) (p : Z) : Prop := ∀ h, p ∉ list_at s h.

(** The counters of a zone that the invariant is about, relative to [NR_LRU_BASE]: those of
    the five lists and those of isolated pages, which belong to no list. *)
Notation counted l := (0 <= l <= 4 ∨ 20 <= l <= 21).
Notation uncounted item := (¬ (1 <= item <= 5 ∨ 21 <= item <= 22)).

(** [off] is how far the counters of the zones are from the lengths of the lists, [ref]
    the number of references that pagevecs hold, [pend] the pages that wait in
    [lru_add_pvecs] with the list they are for, and [lk] the zone whose lock is held. *)
Record inv (hd : option hand) (off : Z → Z → Z) (ref : Z → Z) (pend : list (Z * Z)) (lk : option Z)
    (s : lst) : Prop := Inv {
  inv_nodup h : NoDup (list_at s h);
  inv_disj h h' p : p ∈ list_at s h → p ∈ list_at s h' → h = h';
  inv_page h p : p ∈ list_at s h → (∀ x, hd = Some x → h_page x ≠ p) →
    ∃ pg, pages s !! p = Some pg ∧ on_list ref h p pg;
  inv_lru p pg : pages s !! p = Some pg → (∀ x, hd = Some x → h_page x ≠ p) → PageLRU pg = true →
    p ∈ list_at s (page_zone pg, page_lru pg);
  inv_stat z zd l : zones s !! z = Some zd → 0 <= z → counted l →
    stat (vm_stat zd) (NR_LRU_BASE + l) = Z.of_nat (length (list_at s (z, l))) + off z l;
  inv_lock z zd : zones s !! z = Some zd → lru_lock zd = bool_decide (lk = Some z);
  inv_zone p pg : pages s !! p = Some pg → is_Some (zones s !! page_zone pg) ∧ 0 <= page_zone pg;
  inv_ref p pg : pages s !! p = Some pg → 0 <= ref p <= _count pg;
  inv_pend p l : (p, l) ∈ pend → (∀ x, hd = Some x → h_page x ≠ p) ∧ 1 <= ref p ∧ unlinked s p ∧
    ∃ pg, pages s !! p = Some pg ∧ pend_ok l pg;
  inv_pend_nodup : NoDup (pend.*1);
  inv_freed p : p ∈ freed s → (∀ x, hd = Some x → h_page x ≠ p) ∧ unlinked s p ∧
    ∃ pg, pages s !! p = Some pg ∧ _count pg = 0 ∧ PageLRU pg = false;
  inv_freed_nodup : NoDup (freed s);
  inv_hand x : hd = Some x → pages s !! h_page x = Some (h_data x) ∧
    ref (h_page x) + h_spare x <= _count (h_data x) ∧
    match h_loc x with Some h => h_page x ∈ list_at s h | None => unlinked s (h_page x) end;
}.

Definition off_add (z l d : Z) (off : Z → Z → Z) : Z → Z → Z :=
  λ z' l', if bool_decide (z = z') && bool_decide (l = l') then off z' l' + d else off z' l'.

Definition ref_add (p d : Z) (ref : Z → Z) : Z → Z := λ q, if bool_decide (p = q) then ref q + d else ref q.

Lemma inv_ext hd off off' ref ref' pend lk s :
  (∀ z l, 0 <= z → counted l → off z l = off' z l) → (∀ p, ref p = ref' p) →
  inv hd off ref pend lk s → inv hd off' ref' pend lk s.
Proof.
  intros Ho Hr [H1 H2 H3 H4 H5 H6 H7 H8 H9 H10 H11 H12 H13]. split; try done.
  - intros h p Hp Hx. destruct (H3 h p Hp Hx) as (pg & E & Ho'). exists pg. split; [done|].
    unfold on_list in *. by rewrite <- Hr.
  - intros. rewrite <- Ho by done. by apply H5.
  - intros. rewrite <- Hr. eauto.
  - intros p l Hp. rewrite <- Hr. eauto.
  - intros x Hx. rewrite <- Hr. eauto.
Qed.

Section take_drop.
Context (off : Z → Z → Z) (ref : Z → Z) (pend : list (Z * Z)) (lk : option Z) (s : lst).
Notation inv_none := (inv None off ref pend lk s).
Notation inv_some p pg k loc := (inv (Some (Hand p pg k loc)) off ref pend lk s).

Lemma pend_not p l : inv_none → (p, l) ∈ pend → ∃ pg, pages s !! p = Some pg ∧ pend_ok l pg.
Proof. intros H Hp. destruct (inv_pend _ _ _ _ _ _ H _ _ Hp) as (_ & _ & _ & ?). done. Qed.

(** Taking a page in hand. *)
Lemma take p pg k loc :
  inv_none → pages s !! p = Some pg → p ∉ pend.*1 → p ∉ freed s → ref p + k <= _count pg →
  match loc with Some h => p ∈ list_at s h | None => unlinked s p end →
  inv_some p pg k loc.
Proof.
  intros [H1 H2 H3 H4 H5 H6 H7 H8 H9 H10 H11 H12 H13] Hp Hnp Hnf Hk Hloc. split; try done.
  - intros h q Hq _. by apply H3.
  - intros q pg' Hq _. by apply H4.
  - intros q l Hq. destruct (H9 q l Hq) as (_ & ? & ? & ?). split; [|done]. intros x ?; simplify_eq/=.
    intros <-. apply Hnp. apply list_elem_of_fmap. by exists (p, l).
  - intros q Hq. destruct (H11 q Hq) as (_ & ?). split; [|done]. intros x ?; simplify_eq/=. by intros <-.
  - intros x ?; simplify_eq/=. done.
Qed.

Lemma take_lru p pg :
  inv_none → pages s !! p = Some pg → PageLRU pg = true →
  PageCompound pg = false ∧ inv_some p pg 0 (Some (page_zone pg, page_lru pg)).
Proof.
  intros H Hp HL. pose proof (inv_lru _ _ _ _ _ _ H p pg Hp ltac:(done) HL) as Hin.
  destruct (inv_page _ _ _ _ _ _ H _ _ Hin ltac:(done)) as (pg' & Hp' & Hc & _). simplify_eq.
  split; [done|]. apply take; try done.
  - intros ([q l] & -> & Hq)%list_elem_of_fmap. simpl in *.
    destruct (pend_not _ _ H Hq) as (pg' & ? & ? & _). congruence.
  - intros Hf. destruct (inv_freed _ _ _ _ _ _ H _ Hf) as (_ & _ & pg' & ? & _ & ?). congruence.
  - pose proof (inv_ref _ _ _ _ _ _ H _ _ Hp). lia.
Qed.

Lemma take_held p n :
  inv_none → p ∈ list_at s (held n) →
  ∃ pg, pages s !! p = Some pg ∧ PageCompound pg = false ∧ PageLRU pg = false ∧
    inv_some p pg 1 (Some (held n)).
Proof.
  intros H Hin. destruct (inv_page _ _ _ _ _ _ H _ _ Hin ltac:(done)) as (pg & Hp & Hc & Hcase).
  exists pg. split; [done|]. split; [done|].
  destruct Hcase as [(? & _)|[(_ & HL & Hr)|(Hbad & _)]]; [simpl in *; lia| |simpl in *; lia].
  split; [done|]. apply take; try done.
  - intros ([q l] & -> & Hq)%list_elem_of_fmap. simpl in *.
    destruct (inv_pend _ _ _ _ _ _ H _ _ Hq) as (_ & _ & Hu & _). by apply (Hu _ Hin).
  - intros Hf. destruct (inv_freed _ _ _ _ _ _ H _ Hf) as (_ & Hu & _). by apply (Hu _ Hin).
Qed.

(** Putting the page in hand back, where its flags fit. *)
Lemma drop p pg k loc :
  inv_some p pg k loc → 0 <= k →
  match loc with
  | Some h => on_list ref h p pg
  | None => PageLRU pg = false
  end → inv_none.
Proof.
  intros [H1 H2 H3 H4 H5 H6 H7 H8 H9 H10 H11 H12 H13] Hk Hd.
  destruct (H13 _ eq_refl) as (Hp & Hr & Hloc). simpl in *. split; try done.
  - intros h q Hq _. destruct (decide (q = p)) as [->|Hne].
    + exists pg. split; [done|]. destruct loc as [h'|]; [|by destruct (Hloc h)].
      by rewrite (H2 h h' p Hq Hloc).
    + apply H3; [done|]. intros x ?; simplify_eq/=. done.
  - intros q pg' Hq _ HL. destruct (decide (q = p)) as [->|Hne].
    + simplify_eq. destruct loc as [h'|]; [|congruence].
      destruct Hd as (_ & [(_ & _ & ->)|[(_ & ? & _)|(_ & ? & _)]]); [done|congruence|congruence].
    + apply H4; [done| |done]. intros x ?; simplify_eq/=. done.
  - intros q l Hq. destruct (H9 q l Hq) as (_ & ?). done.
  - intros q Hq. destruct (H11 q Hq) as (_ & ?). done.
Qed.

(** The page in hand becomes a page that waits in a pagevec, which holds a reference. *)
Lemma drop_pend p pg k l :
  inv_some p pg k None → 1 <= k → pend_ok l pg →
  inv None off (ref_add p 1 ref) ((p, l) :: pend) lk s.
Proof.
  intros H Hk Hok. pose proof H as [H1 H2 H3 H4 H5 H6 H7 H8 H9 H10 H11 H12 H13].
  destruct (H13 _ eq_refl) as (Hp & Hr & Hloc). simpl in *.
  assert (∀ q, q ≠ p → ref_add p 1 ref q = ref q) as Href
    by (intros q ?; unfold ref_add; rewrite bool_decide_eq_false_2 by done; done).
  assert (ref_add p 1 ref p = ref p + 1) as Hrefp by (unfold ref_add; by rewrite bool_decide_eq_true_2).
  split; try done.
  - intros h q Hq _. destruct (decide (q = p)) as [->|Hne]; [by destruct (Hloc h)|].
    destruct (H3 h q Hq) as (pg' & ? & ?); [intros x ?; by simplify_eq/=|].
    exists pg'. split; [done|]. unfold on_list in *. by rewrite Href.
  - intros q pg' Hq _ HL. destruct (decide (q = p)) as [->|Hne].
    + simplify_eq. destruct Hok as (? & _). congruence.
    + apply H4; [done| |done]. intros x ?; by simplify_eq/=.
  - intros q pg' Hq. pose proof (H8 _ _ Hq). destruct (decide (q = p)) as [->|Hne].
    + simplify_eq. rewrite Hrefp. lia.
    + by rewrite Href.
  - intros q l' [[= -> ->]|Hq]%elem_of_cons.
    + pose proof (H8 _ _ Hp). rewrite Hrefp. split; [done|]. split; [lia|]. split; [done|]. by exists pg.
    + destruct (H9 q l' Hq) as (Hx & ? & ?). assert (q ≠ p) by (intros ->; by apply (Hx _ eq_refl)).
      by rewrite Href.
  - simpl. constructor; [|done]. intros ([q l'] & -> & Hq)%list_elem_of_fmap.
    destruct (H9 _ _ Hq) as (Hx & _). by apply (Hx _ eq_refl).
  - intros q Hq. destruct (H11 q Hq) as (_ & ?). done.
Qed.

(** The next page that waits is taken in hand. *)
Lemma take_pend p l pend' :
  pend = (p, l) :: pend' → inv_none →
  ∃ pg, pages s !! p = Some pg ∧ pend_ok l pg ∧ inv (Some (Hand p pg 0 None)) off ref pend' lk s.
Proof.
  intros -> [H1 H2 H3 H4 H5 H6 H7 H8 H9 H10 H11 H12 H13].
  destruct (H9 p l ltac:(left)) as (_ & Hr & Hu & pg & Hp & Hok). exists pg. split; [done|]. split; [done|].
  apply NoDup_cons in H10 as [Hn H10]. split; try done.
  - intros h q Hq _. by apply H3.
  - intros q pg' Hq _. by apply H4.
  - intros q l' Hq. destruct (H9 q l' ltac:(by right)) as (_ & ?). split; [|done].
    intros x ?; simplify_eq/=. intros <-. apply Hn. apply list_elem_of_fmap. by exists (p, l').
  - intros q Hq. destruct (H11 q Hq) as (_ & ? & pg' & ? & ? & ?). split; [|by eauto].
    intros x ?; simplify_eq/=. intros <-. pose proof (H8 _ _ Hp). simplify_eq. lia.
  - intros x ?; simplify_eq/=. pose proof (H8 _ _ Hp). split; [done|]. split; [lia|done].
Qed.
End take_drop.

(** ** The primitive operations on the page in hand *)

Definition del (p : Z) (s : lst) : lst := set_lists (without p <$> lists s) s.
Definition put_list (h : head) (l : list Z) (s : lst) : lst := set_lists (<[h := l]> (lists s)) s.
Definition pset (p : Z) (pg : page) (s : lst) : lst := set_pages (<[p := pg]> (pages s)) s.
Definition zset (z : Z) (zd : zone) (s : lst) : lst := set_zones (<[z := zd]> (zones s)) s.

Lemma list_at_del p s h : list_at (del p s) h = without p (list_at s h).
Proof. unfold list_at, del. simpl. rewrite lookup_fmap. by destruct (lists s !! h). Qed.

Lemma list_at_put h l s : list_at (put_list h l s) h = l.
Proof. unfold list_at, put_list. simpl. by rewrite lookup_insert_eq. Qed.

Lemma list_at_put_ne h h' l s : h ≠ h' → list_at (put_list h l s) h' = list_at s h'.
Proof. intros. unfold list_at, put_list. simpl. by rewrite lookup_insert_ne. Qed.

Lemma elem_without p q l : q ∈ without p l ↔ q ∈ l ∧ q ≠ p.
Proof. unfold without. rewrite list_elem_of_filter. tauto. Qed.

Lemma without_id p l : p ∉ l → without p l = l.
Proof.
  induction l as [|x l IH]; [done|]. intros [Hx Hl]%not_elem_of_cons. unfold without in *.
  rewrite filter_cons_True by congruence. by rewrite IH.
Qed.

Lemma length_without p l : NoDup l → p ∈ l → S (length (without p l)) = length l.
Proof.
  induction 1 as [|x l Hx Hl IH]; [by intros ?%elem_of_nil|]. unfold without in *. intros [->|Hp]%elem_of_cons.
  - rewrite filter_cons_False by (by intros []). simpl. f_equal. f_equal. by apply without_id.
  - rewrite filter_cons_True by (by intros ->). simpl. f_equal. by apply IH.
Qed.

Lemma linked_spec p s : linked p s = true ↔ ∃ h, p ∈ list_at s h.
Proof.
  unfold linked. rewrite bool_decide_eq_true. unfold map_Exists, list_at. split.
  - intros (h & l & Hl & Hp). exists h. by rewrite Hl.
  - intros (h & Hp). destruct (lists s !! h) as [l|] eqn:E; simpl in Hp; [|by apply elem_of_nil in Hp].
    by exists h, l.
Qed.

Lemma linked_false p s : unlinked s p → linked p s = false.
Proof. intros H. apply not_true_iff_false. rewrite linked_spec. intros (h & Hp). by apply (H h). Qed.

Lemma lru_list_del_run p h s : p ∈ list_at s h → list_del p s = Ok ((), del p s).
Proof. intros H. unfold list_del. erewrite bind_Ok by done. by rewrite (proj2 (linked_spec p s)) by eauto. Qed.

Lemma lru_list_add_run p h s : unlinked s p → list_add p h s = Ok ((), put_list h (p :: list_at s h) s).
Proof. intros H. unfold list_add. erewrite bind_Ok by done. by rewrite linked_false. Qed.

Lemma lru_list_add_tail_run p h s : unlinked s p → list_add_tail p h s = Ok ((), put_list h (list_at s h ++ [p]) s).
Proof. intros H. unfold list_add_tail. erewrite bind_Ok by done. by rewrite linked_false. Qed.

Lemma page_at_run p pg s : pages s !! p = Some pg → page_at p s = Ok (pg, s).
Proof. intros H. unfold page_at. erewrite bind_Ok by done. by rewrite H. Qed.

Lemma upd_page_run p pg f s : pages s !! p = Some pg → upd_page p f s = Ok ((), pset p (f pg) s).
Proof. intros H. unfold upd_page. by erewrite bind_Ok by (by apply page_at_run). Qed.

Lemma zone_at_run z zd s : zones s !! z = Some zd → zone_at z s = Ok (zd, s).
Proof. intros H. unfold zone_at. erewrite bind_Ok by done. by rewrite H. Qed.

Lemma upd_zone_run z zd f s : zones s !! z = Some zd → upd_zone z f s = Ok ((), zset z (f zd) s).
Proof. intros H. unfold upd_zone. by erewrite bind_Ok by (by apply zone_at_run). Qed.

Section primitives.
Context (off : Z → Z → Z) (ref : Z → Z) (pend : list (Z * Z)) (lk : option Z) (s : lst).

Lemma hand_at p pg k loc : inv (Some (Hand p pg k loc)) off ref pend lk s → pages s !! p = Some pg.
Proof. intros H. by destruct (inv_hand _ _ _ _ _ _ H _ eq_refl). Qed.

Lemma hand_zone p pg k loc :
  inv (Some (Hand p pg k loc)) off ref pend lk s → ∃ zd, zones s !! page_zone pg = Some zd ∧ 0 <= page_zone pg.
Proof.
  intros H. destruct (inv_zone _ _ _ _ _ _ H p pg) as [[zd ?] ?]; [by eapply hand_at|]. by exists zd.
Qed.

Lemma inv_pset p pg k loc pg' k' :
  inv (Some (Hand p pg k loc)) off ref pend lk s → page_zone pg' = page_zone pg →
  ref p <= _count pg' → ref p + k' <= _count pg' →
  inv (Some (Hand p pg' k' loc)) off ref pend lk (pset p pg' s).
Proof.
  intros [H1 H2 H3 H4 H5 H6 H7 H8 H9 H10 H11 H12 H13] Hz Hc Hk.
  destruct (H13 _ eq_refl) as (Hp & Hr & Hloc). simpl in *.
  assert (∀ q, q ≠ p → pages (pset p pg' s) !! q = pages s !! q) as Hne
    by (intros q ?; simpl; by rewrite lookup_insert_ne).
  split; try done.
  - intros h q Hq Hx. assert (q ≠ p) by (intros ->; by apply (Hx _ eq_refl)). rewrite Hne by done.
    apply H3; [done|]. intros x ?; by simplify_eq/=.
  - intros q pgq Hq Hx HL. assert (q ≠ p) by (intros ->; by apply (Hx _ eq_refl)). rewrite Hne in Hq by done.
    apply H4; [done| |done]. intros x ?; by simplify_eq/=.
  - intros q pgq. destruct (decide (q = p)) as [->|].
    + simpl. rewrite lookup_insert_eq. intros; simplify_eq. rewrite Hz. by apply (H7 p).
    + rewrite Hne by done. apply H7.
  - intros q pgq. destruct (decide (q = p)) as [->|].
    + simpl. rewrite lookup_insert_eq. intros; simplify_eq. pose proof (H8 _ _ Hp). lia.
    + rewrite Hne by done. apply H8.
  - intros q l Hq. destruct (H9 q l Hq) as (Hx & ? & ? & ?). assert (q ≠ p) by (intros ->; by apply (Hx _ eq_refl)).
    rewrite Hne by done. split; [|done]. intros x ?; by simplify_eq/=.
  - intros q Hq. destruct (H11 q Hq) as (Hx & ? & ?). assert (q ≠ p) by (intros ->; by apply (Hx _ eq_refl)).
    rewrite Hne by done. split; [|done]. intros x ?; by simplify_eq/=.
  - intros x ?; simplify_eq/=. by rewrite lookup_insert_eq.
Qed.

Lemma inv_del p pg k h :
  inv (Some (Hand p pg k (Some h))) off ref pend lk s →
  inv (Some (Hand p pg k None)) (off_add h.1 h.2 1 off) ref pend lk (del p s).
Proof.
  intros [H1 H2 H3 H4 H5 H6 H7 H8 H9 H10 H11 H12 H13].
  destruct (H13 _ eq_refl) as (Hp & Hr & Hloc). simpl in *. split; try done.
  - intros h'. rewrite list_at_del. by apply NoDup_filter.
  - intros h1 h2 q. rewrite !list_at_del, !elem_without. intros [? _] [? _]. eauto.
  - intros h' q Hq Hx. rewrite list_at_del, elem_without in Hq. destruct Hq as [Hq ?].
    apply H3; [done|]. intros x ?; by simplify_eq/=.
  - intros q pgq Hq Hx HL. rewrite list_at_del, elem_without. split; [|intros ->; by apply (Hx _ eq_refl)].
    apply H4; [done| |done]. intros x ?; simplify_eq/=. by apply (Hx _ eq_refl).
  - intros z zd l Hz ? ?. rewrite list_at_del. simpl in Hz. rewrite (H5 z zd l) by done. unfold off_add.
    destruct h as [z' l']; simpl. destruct (decide (z' = z ∧ l' = l)) as [[-> ->]|Hne].
    + rewrite !bool_decide_eq_true_2 by done. simpl. pose proof (length_without p _ (H1 (z, l)) Hloc). lia.
    + replace (bool_decide (z' = z) && bool_decide (l' = l)) with false
        by (symmetry; apply andb_false_iff; rewrite !bool_decide_eq_false; destruct (decide (z' = z)); tauto).
      rewrite without_id; [done|]. intros Hin. pose proof (H2 _ _ _ Hin Hloc). simplify_eq. by destruct Hne.
  - intros q l Hq. destruct (H9 q l Hq) as (Hx & ? & Hu & ?). split; [intros x ?; by simplify_eq/=; apply (Hx _ eq_refl)|].
    split; [done|]. split; [|done]. intros h'. rewrite list_at_del, elem_without. intros []. by apply (Hu h').
  - intros q Hq. destruct (H11 q Hq) as (Hx & Hu & ?). split; [intros x ?; by simplify_eq/=; apply (Hx _ eq_refl)|].
    split; [|done]. intros h'. rewrite list_at_del, elem_without. intros []. by apply (Hu h').
  - intros x ?; simplify_eq/=. split; [done|]. split; [done|]. intros h'. rewrite list_at_del, elem_without. tauto.
Qed.

Lemma inv_push p pg k h l :
  inv (Some (Hand p pg k None)) off ref pend lk s → l ≡ₚ p :: list_at s h →
  inv (Some (Hand p pg k (Some h))) (off_add h.1 h.2 (-1) off) ref pend lk (put_list h l s).
Proof.
  intros [H1 H2 H3 H4 H5 H6 H7 H8 H9 H10 H11 H12 H13] Hl.
  destruct (H13 _ eq_refl) as (Hp & Hr & Hu). simpl in *.
  assert (∀ h' q, q ∈ list_at (put_list h l s) h' ↔ q ∈ list_at s h' ∨ (q = p ∧ h' = h)) as Hin.
  { intros h' q. destruct (decide (h = h')) as [<-|].
    - rewrite list_at_put, Hl, elem_of_cons. tauto.
    - rewrite list_at_put_ne by done. naive_solver. }
  split; try done.
  - intros h'. destruct (decide (h = h')) as [<-|].
    + rewrite list_at_put, Hl. constructor; [apply Hu|apply H1].
    + rewrite list_at_put_ne by done. apply H1.
  - intros h1 h2 q. rewrite !Hin. intros [Hq1|[-> ->]] [Hq2|[Hq2 ->]]; [by eauto| | |done].
    + subst. by destruct (Hu h1).
    + by destruct (Hu h2).
  - intros h' q Hq Hx. apply Hin in Hq as [Hq|[-> ->]]; [|by destruct (Hx _ eq_refl)].
    apply H3; [done|]. intros x ?; simplify_eq/=. by apply (Hx _ eq_refl).
  - intros q pgq Hq Hx HL. apply Hin. left. apply H4; [done| |done].
    intros x ?; simplify_eq/=. by apply (Hx _ eq_refl).
  - intros z zd l' Hz ? ?. simpl in Hz. rewrite (H5 z zd l') by done. unfold off_add. destruct h as [z' l'']; simpl.
    destruct (decide (z' = z ∧ l'' = l')) as [[-> ->]|Hne].
    + rewrite !bool_decide_eq_true_2 by done. simpl. rewrite list_at_put, Hl. simpl. lia.
    + replace (bool_decide (z' = z) && bool_decide (l'' = l')) with false
        by (symmetry; apply andb_false_iff; rewrite !bool_decide_eq_false; destruct (decide (z' = z)); tauto).
      rewrite list_at_put_ne; [done|]. intros ?; simplify_eq. by destruct Hne.
  - intros q l' Hq. destruct (H9 q l' Hq) as (Hx & ? & Hu' & ?).
    split; [intros x ?; by simplify_eq/=; apply (Hx _ eq_refl)|].
    split; [done|]. split; [|done]. intros h' [?|[-> ->]]%Hin; [by apply (Hu' h')|by apply (Hx _ eq_refl)].
  - intros q Hq. destruct (H11 q Hq) as (Hx & Hu' & ?).
    split; [intros x ?; by simplify_eq/=; apply (Hx _ eq_refl)|].
    split; [|done]. intros h' [?|[-> ->]]%Hin; [by apply (Hu' h')|by apply (Hx _ eq_refl)].
  - intros x ?; simplify_eq/=. split; [done|]. split; [done|]. apply Hin. by right.
Qed.

(** A change of a zone that leaves the counters of the lists and the lock alone, or
    changes them as [off'] and [lk'] say. *)
Lemma inv_zset hd z zd zd' off' lk' :
  inv hd off ref pend lk s → zones s !! z = Some zd →
  (∀ l, counted l → stat (vm_stat zd') (NR_LRU_BASE + l) - stat (vm_stat zd) (NR_LRU_BASE + l) = off' z l - off z l) →
  (∀ z' l, z' ≠ z → off' z' l = off z' l) →
  lru_lock zd' = bool_decide (lk' = Some z) →
  (∀ z' zd, z' ≠ z → zones s !! z' = Some zd → bool_decide (lk' = Some z') = bool_decide (lk = Some z')) →
  inv hd off' ref pend lk' (zset z zd' s).
Proof.
  intros [H1 H2 H3 H4 H5 H6 H7 H8 H9 H10 H11 H12 H13] Hz Hs Ho Hl Hlk. split; try done.
  - intros z' zd1 l. simpl. destruct (decide (z' = z)) as [->|].
    + rewrite lookup_insert_eq. intros ? ? Hr; simplify_eq. specialize (Hs l Hr). specialize (H5 z zd l Hz ltac:(done) Hr).
      change (list_at (zset z zd1 s) (z, l)) with (list_at s (z, l)). lia.
    + rewrite lookup_insert_ne by done. intros. rewrite Ho by done. by apply H5.
  - intros z' zd1. simpl. destruct (decide (z' = z)) as [->|].
    + rewrite lookup_insert_eq. intros; by simplify_eq.
    + rewrite lookup_insert_ne by done. intros E. rewrite (Hlk _ _ ltac:(done) E). by apply H6.
  - intros q pgq Hq. destruct (H7 _ _ Hq) as [[zd1 E] ?]. split; [|done]. simpl.
    destruct (decide (page_zone pgq = z)) as [->|]; [rewrite lookup_insert_eq|rewrite lookup_insert_ne]; by eauto.
Qed.
End primitives.

(** ** The primitive operations, run *)

Lemma stat_add_eq m i d : stat (add_stat i d m) i = stat m i + d.
Proof. unfold stat, add_stat. by rewrite lookup_insert_eq. Qed.

Lemma stat_add_ne m i j d : i ≠ j → stat (add_stat i d m) j = stat m j.
Proof. intros. unfold stat, add_stat. by rewrite lookup_insert_ne. Qed.

Section steps.
Context (off : Z → Z → Z) (ref : Z → Z) (pend : list (Z * Z)) (lk : option Z) (s : lst).
Notation hold p pg k loc := (inv (Some (Hand p pg k loc)) off ref pend lk s).

Lemma r_page p pg k loc (Q : page → lst → Prop) : hold p pg k loc → Q pg s → runs (page_at p) s Q.
Proof. intros H. eapply runs_ok, page_at_run. by eapply hand_at. Qed.

Lemma r_upd p pg k loc f k' (Q : () → lst → Prop) :
  hold p pg k loc → page_zone (f pg) = page_zone pg → ref p <= _count (f pg) → ref p + k' <= _count (f pg) →
  (∀ s', s' = pset p (f pg) s → inv (Some (Hand p (f pg) k' loc)) off ref pend lk s' → Q () s') →
  runs (upd_page p f) s Q.
Proof.
  intros H Hz Hc Hk HQ. eapply runs_ok; [by eapply upd_page_run, hand_at|].
  apply HQ; [done|]. by eapply inv_pset.
Qed.

Lemma r_flag p pg k loc f (Q : () → lst → Prop) :
  hold p pg k loc → page_zone (f pg) = page_zone pg → _count (f pg) = _count pg →
  (∀ s', s' = pset p (f pg) s → inv (Some (Hand p (f pg) k loc)) off ref pend lk s' → Q () s') →
  runs (upd_page p f) s Q.
Proof.
  intros H Hz Hc HQ. pose proof (inv_hand _ _ _ _ _ _ H _ eq_refl) as (Hp & Hr & _). simpl in *.
  pose proof (inv_ref _ _ _ _ _ _ H _ _ Hp). eapply r_upd; [done|done|lia|by rewrite Hc|done].
Qed.

Lemma r_del p pg k h (Q : () → lst → Prop) :
  hold p pg k (Some h) →
  (∀ s', s' = del p s → (∀ h', h' ≠ h → p ∉ list_at s h') →
     inv (Some (Hand p pg k None)) (off_add h.1 h.2 1 off) ref pend lk s' → Q () s') →
  runs (list_del p) s Q.
Proof.
  intros H HQ. destruct (inv_hand _ _ _ _ _ _ H _ eq_refl) as (_ & _ & Hin). simpl in *.
  eapply runs_ok; [by eapply lru_list_del_run|]. apply HQ; [done| |by apply inv_del].
  intros h' Hne Hin'. apply Hne. by eapply inv_disj.
Qed.

Lemma r_add p pg k h (Q : () → lst → Prop) :
  hold p pg k None →
  (∀ s', s' = put_list h (p :: list_at s h) s →
     inv (Some (Hand p pg k (Some h))) (off_add h.1 h.2 (-1) off) ref pend lk s' → Q () s') →
  runs (list_add p h) s Q.
Proof.
  intros H HQ. destruct (inv_hand _ _ _ _ _ _ H _ eq_refl) as (_ & _ & Hu). simpl in *.
  eapply runs_ok; [by eapply lru_list_add_run|]. apply HQ; [done|]. by apply inv_push.
Qed.

Lemma r_add_tail p pg k h (Q : () → lst → Prop) :
  hold p pg k None →
  (∀ s', s' = put_list h (list_at s h ++ [p]) s →
     inv (Some (Hand p pg k (Some h))) (off_add h.1 h.2 (-1) off) ref pend lk s' → Q () s') →
  runs (list_add_tail p h) s Q.
Proof.
  intros H HQ. destruct (inv_hand _ _ _ _ _ _ H _ eq_refl) as (_ & _ & Hu). simpl in *.
  eapply runs_ok; [by eapply lru_list_add_tail_run|]. apply HQ; [done|]. apply inv_push; [done|].
  by rewrite Permutation_app_comm.
Qed.

Context (hd : option hand).
Notation now := (inv hd off ref pend lk s).

Lemma r_stat z zd l d (Q : () → lst → Prop) :
  now → zones s !! z = Some zd → counted l →
  (∀ s', s' = zset z (set_vm_stat (add_stat (NR_LRU_BASE + l) d (vm_stat zd)) zd) s →
     inv hd (off_add z l d off) ref pend lk s' → Q () s') →
  runs (__mod_zone_page_state z (NR_LRU_BASE + l) d) s Q.
Proof.
  intros H Hz Hl HQ. eapply runs_ok; [by eapply upd_zone_run|]. apply HQ; [done|].
  eapply inv_zset; [done|done| | | |done]; simpl.
  - intros l' Hl'. unfold off_add. rewrite (bool_decide_eq_true_2 (z = z)) by done. simpl.
    destruct (decide (l = l')) as [->|]; [rewrite bool_decide_eq_true_2, stat_add_eq by done; lia|].
    rewrite bool_decide_eq_false_2, stat_add_ne by (done || (unfold NR_LRU_BASE; lia)). lia.
  - intros z' l' ?. unfold off_add. by rewrite bool_decide_eq_false_2.
  - by eapply inv_lock.
Qed.

(** Counters that are not those of the lists. *)
Lemma r_stat_other z zd item d (Q : () → lst → Prop) :
  now → zones s !! z = Some zd → uncounted item →
  (∀ s', s' = zset z (set_vm_stat (add_stat item d (vm_stat zd)) zd) s → inv hd off ref pend lk s' → Q () s') →
  runs (__mod_zone_page_state z item d) s Q.
Proof.
  intros H Hz Hl HQ. eapply runs_ok; [by eapply upd_zone_run|]. apply HQ; [done|].
  eapply inv_zset; [done|done| |done| |done]; simpl.
  - intros l' Hl'. rewrite stat_add_ne by (unfold NR_LRU_BASE; lia). lia.
  - by eapply inv_lock.
Qed.

Lemma r_zone z zd f (Q : () → lst → Prop) :
  now → zones s !! z = Some zd → vm_stat (f zd) = vm_stat zd → lru_lock (f zd) = lru_lock zd →
  (∀ s', s' = zset z (f zd) s → inv hd off ref pend lk s' → Q () s') →
  runs (upd_zone z f) s Q.
Proof.
  intros H Hz Hs Hl HQ. eapply runs_ok; [by eapply upd_zone_run|]. apply HQ; [done|].
  eapply inv_zset; [done|done| |done| |done].
  - intros l' _. rewrite Hs. lia.
  - rewrite Hl. by eapply inv_lock.
Qed.

Lemma r_events e n (Q : () → lst → Prop) :
  now → (∀ s', s' = set_vm_events (<[e := default 0 (vm_events s !! e) + n]> (vm_events s)) s →
    inv hd off ref pend lk s' → Q () s') → runs (count_vm_events e n) s Q.
Proof. intros H HQ. apply runs_modify, HQ; [done|]. by destruct H. Qed.
End steps.

Lemma r_lock off ref pend s hd z zd (Q : () → lst → Prop) :
  inv hd off ref pend None s → zones s !! z = Some zd →
  (∀ s', s' = zset z (set_lru_lock true zd) s → inv hd off ref pend (Some z) s' → Q () s') →
  runs (spin_lock_irq z) s Q.
Proof.
  intros H Hz HQ. unfold spin_lock_irq. apply runs_bind. eapply runs_ok; [by eapply zone_at_run|].
  rewrite (inv_lock _ _ _ _ _ _ H z zd Hz), bool_decide_eq_false_2 by done.
  eapply runs_ok; [by eapply upd_zone_run|]. apply HQ; [done|].
  eapply inv_zset; [done|done| |done| |]; simpl.
  - intros; lia.
  - by rewrite bool_decide_eq_true_2.
  - intros z' zd' ? ?. rewrite !bool_decide_eq_false_2 by congruence. done.
Qed.

Lemma r_unlock off ref pend s hd z (Q : () → lst → Prop) :
  inv hd off ref pend (Some z) s → is_Some (zones s !! z) →
  (∀ s' zd, zones s !! z = Some zd → s' = zset z (set_lru_lock false zd) s → inv hd off ref pend None s' → Q () s') →
  runs (spin_unlock_irq z) s Q.
Proof.
  intros H [zd Hz] HQ. eapply runs_ok; [by eapply upd_zone_run|]. apply (HQ _ zd); [done|done|].
  eapply inv_zset; [done|done| |done|done|]; simpl.
  - intros; lia.
  - intros z' zd' ? ?. rewrite !bool_decide_eq_false_2 by congruence. done.
Qed.
