(* ===== verification/LruOps.v ===== *)
(** * The operations of swap.c preserve the invariant

    Each operation of [Lru] is run against the invariant of [LruInv]: called within its
    contract it returns, and the lists, flags, counters and locks agree afterwards. *)

From S2P Require Import Prelude Hoare Lru LruInv.

(** ** What no operation changes *)

Definition shape (pg : page) : Z * bool * bool * bool * page_map * Z :=
  (page_zone pg, PageCompound pg, PageSwapBacked pg, PageSwapCache pg, mapping pg, _mapcount pg).

Lemma shape_mapping pg pg' : shape pg' = shape pg → page_mapping pg' = page_mapping pg.
Proof. unfold shape, page_mapping. by intros [= _ _ _ -> -> _]. Qed.

Record frame (s s' : lst) : Prop := Frame {
  frame_pvecs : (pvecs s', spaces s') = (pvecs s, spaces s);
  frame_pages q : shape <$> pages s' !! q = shape <$> pages s !! q;
  frame_local h : h.1 < 0 → list_at s' h = list_at s h;
  frame_flags h q : h.1 < 0 → q ∈ list_at s h → flags <$> pages s' !! q = flags <$> pages s !! q;
}.

#[global] Instance frame_preorder : PreOrder frame.
Proof.
  split; [done|]. intros s1 s2 s3 [A B C D] [A' B' C' D']. split; [congruence|intros; by rewrite B'| |].
  - intros h Hh. by rewrite C', C.
  - intros h q Hh Hq. rewrite (D' h q Hh) by (by rewrite C). by apply (D h).
Qed.

Lemma frame_pset p pg pg' s : pages s !! p = Some pg → shape pg' = shape pg →
  (flags pg' = flags pg ∨ ∀ h, h.1 < 0 → p ∉ list_at s h) → frame s (pset p pg' s).
Proof.
  intros Hp Hs Hor. split; [done| |done|].
  - intros q. simpl. destruct (decide (p = q)) as [<-|]; [|by rewrite lookup_insert_ne].
    rewrite lookup_insert_eq, Hp. simpl. by f_equal.
  - intros h q Hh Hq. simpl. destruct (decide (p = q)) as [<-|]; [|by rewrite lookup_insert_ne].
    rewrite lookup_insert_eq, Hp. simpl. destruct Hor as [->|Hn]; [done|]. by destruct (Hn h Hh).
Qed.

(** A page in hand that is on no local list. *)
Lemma frame_hand p pg k loc pg' off ref pend lk s :
  inv (Some (Hand p pg k loc)) off ref pend lk s → (∀ h, loc = Some h → h.1 = page_zone pg) → shape pg' = shape pg →
  frame s (pset p pg' s).
Proof.
  intros H Hloc Hs. destruct (inv_hand _ _ _ _ _ _ H _ eq_refl) as (Hp & _ & Hl). simpl in *.
  apply (frame_pset p pg); [done|done|]. right. intros h Hh Hin. destruct loc as [h'|]; [|by destruct (Hl h)].
  destruct (inv_zone _ _ _ _ _ _ H _ _ Hp) as [_ Hz]. rewrite (inv_disj _ _ _ _ _ _ H _ _ _ Hin Hl), (Hloc h') in Hh by done. lia.
Qed.

(** A page with a reference less, or more. *)
Lemma frame_count p pg c s : pages s !! p = Some pg → frame s (pset p (set_count c pg) s).
Proof. intros Hp. by apply (frame_pset p pg); [..|left]. Qed.

Lemma frame_same s s' : (pvecs s', spaces s') = (pvecs s, spaces s) → pages s' = pages s → lists s' = lists s → frame s s'.
Proof. intros ? E El. split; [done|by rewrite E| |by rewrite E]. intros h _. unfold list_at. by rewrite El. Qed.

Lemma frame_del p z l s : (∀ h, h ≠ (z, l) → p ∉ list_at s h) → 0 <= z → frame s (del p s).
Proof.
  intros H Hz. split; [done|done| |done]. intros h Hh. rewrite list_at_del. apply without_id, H. intros ->. simpl in *. lia.
Qed.

Lemma frame_put h l s : 0 <= h.1 → frame s (put_list h l s).
Proof. intros H. split; [done|done| |done]. intros h' Hh'. apply list_at_put_ne. intros <-. lia. Qed.

Lemma shape_flag b pg : b ≠ PG_head → b ≠ PG_tail → b ≠ PG_swapbacked → b ≠ PG_swapcache → 0 <= b →
  shape (SetPage b pg) = shape pg ∧ shape (ClearPage b pg) = shape pg.
Proof.
  intros ? ? ? ? ?. unfold shape, PageCompound, PageHead, PageTail, PageSwapBacked, PageSwapCache, SetPage, ClearPage.
  cbn [flags set_flags page_zone mapping _mapcount]. rewrite !Z.setbit_eqb, !Z.clearbit_eqb by done.
  by rewrite (proj2 (Z.eqb_neq b PG_head)), (proj2 (Z.eqb_neq b PG_tail)), (proj2 (Z.eqb_neq b PG_swapbacked)),
    (proj2 (Z.eqb_neq b PG_swapcache)), !andb_true_r by done.
Qed.

Lemma shape_set b pg : b ≠ PG_head → b ≠ PG_tail → b ≠ PG_swapbacked → b ≠ PG_swapcache → 0 <= b → shape (SetPage b pg) = shape pg.
Proof. intros. by apply shape_flag. Qed.

Lemma shape_clear b pg : b ≠ PG_head → b ≠ PG_tail → b ≠ PG_swapbacked → b ≠ PG_swapcache → 0 <= b → shape (ClearPage b pg) = shape pg.
Proof. intros. by apply shape_flag. Qed.

(** Closes [frame s s'] where [s'] is reached from [s] by primitive operations. *)
Ltac frame_solve :=
  subst;
  repeat match goal with
  | |- frame ?s ?s => reflexivity
  | H : frame ?t ?u |- frame ?s ?u => transitivity t; [|exact H]; clear H
  | |- frame ?s (pset ?p (set_count _ _) ?t) => transitivity t; [|apply frame_count; assumption]
  | H : inv (Some (Hand ?p ?pg _ _)) _ _ _ _ ?t |- frame ?s (pset ?p _ ?t) =>
      transitivity t; [|eapply (frame_hand p pg);
        [exact H|first [assumption|intros ? ?; simplify_eq/=; reflexivity]|first [by apply shape_set|by apply shape_clear|reflexivity]]]; clear H
  | |- frame ?s (zset _ _ ?t) => transitivity t; [|by apply frame_same]
  | |- frame ?s (del _ ?t) => transitivity t; [|eapply frame_del; [eassumption|assumption]]
  | |- frame ?s (put_list _ _ ?t) => transitivity t; [|apply frame_put; assumption]
  | |- frame ?s (set_vm_events _ ?t) => transitivity t; [|by apply frame_same]
  | |- frame ?s (set_freed _ ?t) => transitivity t; [|by apply frame_same]
  end.

(** Closes equalities of the differences between counters and lengths. *)
Ltac off_solve :=
  intros; unfold off_add, hpage_nr_pages; cbn [fst snd];
  repeat (case_bool_decide; simplify_eq/=; try lia).

Lemma page_lru_range pg : 0 <= page_lru pg <= 4.
Proof.
  unfold page_lru, page_lru_base_type, LRU_UNEVICTABLE, LRU_INACTIVE_FILE, LRU_INACTIVE_ANON, LRU_ACTIVE, LRU_BASE, LRU_FILE.
  repeat case_match; lia.
Qed.

(** No page is on a list that no flags select; the counters of isolated pages have none. *)
Lemma inv_no_list off ref pend lk s z l : inv None off ref pend lk s → 0 <= z → 4 < l → list_at s (z, l) = [].
Proof.
  intros H Hz Hl. apply elem_of_nil_inv. intros p Hp.
  destruct (inv_page _ _ _ _ _ _ H _ _ Hp ltac:(done)) as (pg & _ & _ & [(_ & _ & E)|[(E & _)|(E & _)]]); simpl in E; [|lia..].
  injection E as _ E. pose proof (page_lru_range pg). lia.
Qed.

Lemma inv_isolated off ref pend lk s z zd l : inv None off ref pend lk s → zones s !! z = Some zd → 0 <= z → 20 <= l <= 21 →
  stat (vm_stat zd) (NR_LRU_BASE + l) = off z l.
Proof.
  intros H Hz Hz0 Hl. rewrite (inv_stat _ _ _ _ _ _ H z zd l Hz Hz0) by lia. rewrite (inv_no_list _ _ _ _ _ _ _ H) by lia. done.
Qed.

Lemma page_lru_inactive pg : PageUnevictable pg = false → PageActive pg = false → page_lru pg = page_lru_base_type pg.
Proof. unfold page_lru. intros -> ->. lia. Qed.

Lemma base_type_range pg : 0 <= page_lru_base_type pg <= 2.
Proof. unfold page_lru_base_type. case_match; unfold LRU_INACTIVE_FILE, LRU_INACTIVE_ANON, LRU_BASE, LRU_FILE; lia. Qed.

Lemma on_lru_list ref p pg : PageCompound pg = false → PageLRU pg = true → 0 <= page_zone pg →
  on_list ref (page_zone pg, page_lru pg) p pg.
Proof. intros. split; [done|]. by left. Qed.

(** The flags that put a page on the active list that goes with its inactive list. *)
Lemma page_lru_active pg : PageUnevictable pg = false → page_lru (SetPage PG_active pg) = page_lru_base_type pg + LRU_ACTIVE.
Proof. intros H. page_solve. by rewrite H. Qed.

Section ops.
Context (off : Z → Z → Z) (ref : Z → Z) (pend : list (Z * Z)).
Notation quiet := (inv None off ref pend).

(** [r_zone_of H as (zd, Hz)]: the zone of the page in hand. *)
Ltac zone_of H := let zd := fresh "zd" in let Hz := fresh "Hz" in let Hn := fresh "Hn" in
  destruct (hand_zone _ _ _ _ _ _ _ _ _ H) as (zd & Hz & Hn).

Lemma del_page_from_lru_list_inv lk s p pg k z l off' (Q : () → lst → Prop) :
  inv (Some (Hand p pg k (Some (z, l)))) off' ref pend lk s → z = page_zone pg → 0 <= l <= 4 →
  (∀ s', frame s s' → freed s' = freed s → inv (Some (Hand p pg k None)) off' ref pend lk s' → Q () s') →
  runs (del_page_from_lru_list z p l) s Q.
Proof.
  intros H -> Hl HQ. unfold del_page_from_lru_list. apply runs_bind. eapply r_del; [exact H|]. intros s1 E1 U1 H1.
  zone_of H1. eapply r_stat; [exact H1|exact Hz|by left|]. intros s2 E2 H2. apply HQ; [frame_solve|by subst|].
  eapply inv_ext; [|done|exact H2]. off_solve.
Qed.

Lemma add_page_to_lru_list_inv lk s p pg k z l off' (Q : () → lst → Prop) :
  inv (Some (Hand p pg k None)) off' ref pend lk s → z = page_zone pg → 0 <= l <= 4 →
  (∀ s', frame s s' → inv (Some (Hand p pg k (Some (z, l)))) off' ref pend lk s' → Q () s') →
  runs (add_page_to_lru_list z p l) s Q.
Proof.
  intros H -> Hl HQ. unfold add_page_to_lru_list. apply runs_bind. eapply r_add; [exact H|]. intros s1 E1 H1.
  zone_of H1. eapply r_stat; [exact H1|exact Hz|by left|]. intros s2 E2 H2. apply HQ; [frame_solve|].
  eapply inv_ext; [|done|exact H2]. off_solve.
Qed.

Lemma update_stat_inv hd lk s z file rotated (Q : () → lst → Prop) :
  inv hd off ref pend lk s → is_Some (zones s !! z) →
  (∀ s', frame s s' → inv hd off ref pend lk s' → Q () s') →
  runs (update_page_reclaim_stat z file rotated) s Q.
Proof.
  intros H [zd Hz] HQ. eapply r_zone; [exact H|exact Hz|done|done|]. intros s1 E1 H1. apply HQ; [frame_solve|done].
Qed.

Lemma activate_fn_inv lk s p pg arg :
  quiet lk s → pages s !! p = Some pg →
  runs (__activate_page p arg) s (λ a s', a = arg ∧ quiet lk s' ∧ frame s s').
Proof.
  intros H Hp. unfold __activate_page. apply runs_bind. eapply runs_ok; [by apply page_at_run|].
  apply runs_bind, runs_when; [|intros _; by apply runs_ret].
  intros [[HL HA]%andb_true_iff HU]%andb_true_iff. apply negb_true_iff in HA, HU.
  destruct (take_lru _ _ _ _ _ _ _ H Hp HL) as [Hc H0].
  rewrite page_lru_inactive in H0 by done. pose proof (base_type_range pg) as Hbt.
  apply runs_bind. eapply del_page_from_lru_list_inv; [exact H0|done|lia|]. intros s1 F1 _ H1.
  apply runs_bind. eapply r_flag; [exact H1|done|done|]. intros s2 E2 H2. pose proof (hand_at _ _ _ _ _ _ _ _ _ H1) as Hat.
  apply runs_bind. eapply add_page_to_lru_list_inv; [exact H2|done|unfold LRU_ACTIVE; lia|]. intros s3 F3 H3.
  apply runs_bind. eapply r_events; [exact H3|]. intros s4 E4 H4.
  zone_of H4. eapply update_stat_inv; [exact H4|by eexists|]. intros s5 F5 H5.
  apply runs_ret. split; [done|]. split; [|frame_solve].
  eapply drop; [exact H5|done|]. rewrite <- page_lru_active by done.
  apply (on_lru_list ref p (SetPage PG_active pg)); [page_solve|page_solve|done].
Qed.

Lemma move_tail_inv lk s p pg k z l (Q : () → lst → Prop) :
  inv (Some (Hand p pg k (Some (z, l)))) off ref pend lk s → 0 <= z →
  (∀ s', frame s s' → inv (Some (Hand p pg k (Some (z, l)))) off ref pend lk s' → Q () s') →
  runs (list_move_tail p (z, l)) s Q.
Proof.
  intros H Hz HQ. unfold list_move_tail. apply runs_bind. eapply r_del; [exact H|]. intros s1 E1 U1 H1.
  eapply r_add_tail; [exact H1|]. intros s2 E2 H2. apply HQ; [frame_solve|].
  eapply inv_ext; [|done|exact H2]. off_solve.
Qed.

Lemma move_tail_fn_inv lk s p pg arg :
  quiet lk s → pages s !! p = Some pg →
  runs (pagevec_move_tail_fn p arg) s (λ _ s', quiet lk s' ∧ frame s s').
Proof.
  intros H Hp. unfold pagevec_move_tail_fn. apply runs_bind. eapply runs_ok; [by apply page_at_run|].
  destruct (PageLRU pg && negb (PageActive pg) && negb (PageUnevictable pg)) eqn:Hcond; [|by apply runs_ret].
  apply andb_true_iff in Hcond as [[HL HA]%andb_true_iff HU]. apply negb_true_iff in HA, HU.
  destruct (take_lru _ _ _ _ _ _ _ H Hp HL) as [Hc H0]. rewrite <- page_lru_inactive by done.
  zone_of H0. apply runs_bind. eapply move_tail_inv; [exact H0|done|]. intros s1 F1 H1. apply runs_ret. split; [|done].
  eapply drop; [exact H1|done|by apply on_lru_list].
Qed.

Lemma page_lru_deactivated pg : PageUnevictable pg = false → page_lru (ClearPage PG_active pg) = page_lru_base_type pg.
Proof. intros H. page_solve. rewrite H. case_match; done. Qed.

Lemma deactivate_fn_inv lk s p pg arg :
  quiet lk s → pages s !! p = Some pg →
  runs (lru_deactivate_fn p arg) s (λ _ s', quiet lk s' ∧ frame s s').
Proof.
  intros H Hp. unfold lru_deactivate_fn. apply runs_bind. eapply runs_ok; [by apply page_at_run|].
  destruct (PageLRU pg) eqn:HL; cbn [negb]; [|by apply runs_ret].
  destruct (PageUnevictable pg) eqn:HU; [by apply runs_ret|].
  destruct (page_mapped pg) eqn:HM; [by apply runs_ret|].
  destruct (take_lru _ _ _ _ _ _ _ H Hp HL) as [Hc H0]. pose proof (base_type_range pg) as Hbt.
  assert (page_lru pg = page_lru_base_type pg + b2z (PageActive pg)) as Elru
    by (unfold page_lru; rewrite HU; by destruct (PageActive pg)).
  rewrite Elru in H0. pose proof (page_lru_range pg) as Hlr. rewrite Elru in Hlr.
  apply runs_bind. eapply del_page_from_lru_list_inv; [exact H0|done|lia|]. intros s1 F1 _ H1.
  apply runs_bind. eapply r_flag; [exact H1|done|done|]. intros s2 E2 H2.
  pose proof (hand_at _ _ _ _ _ _ _ _ _ H1) as Hat.
  apply runs_bind. eapply add_page_to_lru_list_inv; [exact H2|done|lia|]. intros s3 F3 H3.
  pose proof (hand_at _ _ _ _ _ _ _ _ _ H3) as Hat3.
  set (pg1 := ClearPage PG_active pg) in *.
  apply runs_bind. apply (runs_mono _ _ (λ _ s4, frame s3 s4 ∧ ∃ pg2,
    inv (Some (Hand p pg2 0 (Some (page_zone pg, page_lru_base_type pg)))) off ref pend lk s4 ∧
    page_zone pg2 = page_zone pg ∧ PageCompound pg2 = false ∧ PageLRU pg2 = true ∧ page_lru pg2 = page_lru_base_type pg)).
  { assert (page_zone pg1 = page_zone pg ∧ PageCompound pg1 = false ∧ PageLRU pg1 = true ∧
      page_lru pg1 = page_lru_base_type pg) as Hpg1.
    { split; [done|]. split; [subst pg1; page_solve|]. split; [subst pg1; page_solve|]. by apply page_lru_deactivated. }
    destruct (PageWriteback pg || PageDirty pg).
    - eapply r_flag; [exact H3|done|done|]. intros s4 E4 H4. split; [frame_solve|]. exists (SetPage PG_reclaim pg1).
      destruct Hpg1 as (Z1 & C1 & L1 & P1). split; [done|]. split; [exact Z1|].
      rewrite <- C1, <- P1. clear - L1. split; [page_solve|]. split; page_solve.
    - zone_of H3. apply runs_bind. eapply move_tail_inv; [exact H3|done|]. intros s4 F4 H4. eapply r_events; [exact H4|].
      intros s5 E5 H5. split; [frame_solve|]. by exists pg1. }
  intros [] s4 (F4 & pg2 & H4 & Z2 & C2 & L2 & P2).
  apply runs_bind, (runs_mono _ _ (λ _ s5, frame s4 s5 ∧
    inv (Some (Hand p pg2 0 (Some (page_zone pg, page_lru_base_type pg)))) off ref pend lk s5)).
  { apply runs_when; [|by intros]. intros _. eapply r_events; [exact H4|]. intros s5 E5 H5. split; [frame_solve|done]. }
  intros [] s5 [F5 H5]. zone_of H5. rewrite Z2 in *.
  apply runs_bind. eapply update_stat_inv; [exact H5|by eexists|]. intros s6 F6 H6. apply runs_ret.
  split; [|frame_solve]. eapply drop; [exact H6|done|]. rewrite <- P2, <- Z2. apply on_lru_list; [done|done|by rewrite Z2].
Qed.
End ops.

(** A page that waits in [lru_add_pvecs] moves to its list. *)
Lemma add_fn_inv off ref pend lk s p l arg :
  inv None off ref ((p, l) :: pend) lk s →
  runs (__pagevec_lru_add_fn l p arg) s (λ _ s', inv None off ref pend lk s' ∧ frame s s').
Proof.
  intros H. destruct (take_pend _ _ _ _ _ _ _ _ eq_refl H) as (pg & Hp & (HL & HA & HU & Hc & Hl & Hf) & H0).
  unfold __pagevec_lru_add_fn. apply runs_bind. eapply runs_ok; [by apply page_at_run|].
  apply runs_bind. eapply r_flag; [exact H0|done|done|]. intros s1 E1 H1.
  set (pg' := if is_active_lru l then SetPage PG_active (SetPage PG_lru pg) else SetPage PG_lru pg).
  apply runs_bind, (runs_mono _ _ (λ _ s2, frame s1 s2 ∧ inv (Some (Hand p pg' 0 None)) off ref pend lk s2)).
  { apply runs_when; intros Ha; subst pg'; rewrite Ha; [|done]. eapply r_flag; [exact H1|done|done|].
    intros s2 E2 H2. pose proof (hand_at _ _ _ _ _ _ _ _ _ H1) as Hat. split; [frame_solve|done]. }
  intros [] s2 [F2 H2].
  assert (page_zone pg' = page_zone pg) as Ez by (subst pg'; by destruct (is_active_lru l)).
  rewrite <- Ez. apply runs_bind. eapply add_page_to_lru_list_inv; [exact H2|done|lia|]. intros s3 F3 H3.
  destruct (hand_zone _ _ _ _ _ _ _ _ _ H3) as (zd & Hz & Hn).
  apply runs_bind. eapply update_stat_inv; [exact H3|by eexists|]. intros s4 F4 H4. apply runs_ret.
  split; [|frame_solve]. eapply drop; [exact H4|done|]. replace l with (page_lru pg').
  - apply on_lru_list; [subst pg'; destruct (is_active_lru l); page_solve|subst pg'; destruct (is_active_lru l); page_solve|done].
  - assert (l = 0 ∨ l = 1 ∨ l = 2 ∨ l = 3) as Hcases by lia. subst pg'. clear - HA HU Hf Hcases.
    destruct Hcases as [->|[->|[->| ->]]];
      (match goal with |- context [is_active_lru ?x] =>
         let b := eval vm_compute in (is_active_lru x) in change (is_active_lru x) with b; cbn iota end);
      (match type of Hf with is_file_lru ?x = _ =>
         let b := eval vm_compute in (is_file_lru x) in change (is_file_lru x) with b in Hf end);
      page_solve; rewrite ?HU, ?HA; destruct (Z.testbit (flags pg) 19); done.
Qed.

(** ** Dropping references *)

Lemma ref_add_eq p d ref : ref_add p d ref p = ref p + d.
Proof. unfold ref_add. by rewrite bool_decide_eq_true_2. Qed.

Lemma ref_add_ne p q d ref : p ≠ q → ref_add p d ref q = ref q.
Proof. intros. unfold ref_add. by rewrite bool_decide_eq_false_2. Qed.

(** One of the references of a page that are counted in [ref] is dropped. *)
Lemma inv_put off ref pend lk s p pg :
  inv None off ref pend lk s → pages s !! p = Some pg → 1 <= ref p → (p ∈ pend.*1 → 2 <= ref p) →
  inv None off (ref_add p (-1) ref) pend lk (pset p (set_count (_count pg - 1) pg) s).
Proof.
  intros [H1 H2 H3 H4 H5 H6 H7 H8 H9 H10 H11 H12 H13] Hp Hr Hpend. pose proof (H8 _ _ Hp) as Hc.
  set (pg' := set_count (_count pg - 1) pg).
  assert (∀ q, q ≠ p → pages (pset p pg' s) !! q = pages s !! q) as Hne by (intros; simpl; by rewrite lookup_insert_ne).
  assert (pages (pset p pg' s) !! p = Some pg') as Heq by (simpl; by rewrite lookup_insert_eq).
  split; try done.
  - intros h q Hq _. destruct (H3 h q Hq ltac:(done)) as (pgq & E & Hcq & Hon). destruct (decide (q = p)) as [->|].
    + simplify_eq. exists pg'. split; [done|]. split; [done|]. rewrite ref_add_eq. subst pg'. cbn [_count set_count].
      destruct Hon as [?|[(? & ? & ?)|(? & ? & ?)]]; [by left|right; left; split_and!; [done|done|lia]|lia].
    + exists pgq. rewrite Hne by done. split; [done|]. split; [done|]. by rewrite ref_add_ne.
  - intros q pgq Hq _ HL. destruct (decide (q = p)) as [->|].
    + rewrite Heq in Hq. injection Hq as <-. exact (H4 p pg Hp ltac:(done) HL).
    + rewrite Hne in Hq by done. by apply H4.
  - intros q pgq Hq. destruct (decide (q = p)) as [->|].
    + rewrite Heq in Hq. injection Hq as <-. exact (H7 p pg Hp).
    + rewrite Hne in Hq by done. by eapply H7.
  - intros q pgq Hq. destruct (decide (q = p)) as [->|].
    + rewrite Heq in Hq. injection Hq as <-. rewrite ref_add_eq. subst pg'. cbn [_count set_count]. lia.
    + rewrite Hne in Hq by done. rewrite ref_add_ne by done. by apply H8.
  - intros q l Hq. destruct (H9 q l Hq) as (_ & Hr' & Hu & pgq & E & Hok). split; [done|].
    destruct (decide (q = p)) as [->|].
    + simplify_eq. assert (p ∈ pend.*1) as Hin by (apply list_elem_of_fmap; by exists (p, l)). specialize (Hpend Hin).
      rewrite ref_add_eq. split; [lia|]. split; [done|]. exists pg'. split; [done|]. exact Hok.
    + rewrite ref_add_ne, Hne by done. eauto.
  - intros q Hq. destruct (H11 q Hq) as (_ & Hu & pgq & E & Hz & HL). split; [done|]. split; [done|].
    assert (q ≠ p) by (intros ->; simplify_eq; lia). rewrite Hne by done. eauto.
Qed.

Definition waits (pend : list (Z * Z)) (p : Z) : Z := if bool_decide (p ∈ pend.*1) then 1 else 0.

(** The contract of dropping a reference for every page of [ps]. *)
Definition droppable (ref : Z → Z) (pend : list (Z * Z)) (s : lst) (ps : list Z) : Prop :=
  (∀ p, p ∈ ps → ∃ pg, pages s !! p = Some pg ∧ PageCompound pg = false) ∧
  (∀ p, occ p ps + waits pend p <= ref p).

Definition lock_ok (zn : option Z) (s : lst) : Prop := ∀ z, zn = Some z → is_Some (zones s !! z).

Lemma switch_lock_inv hd off ref pend zn s z :
  inv hd off ref pend zn s → lock_ok zn s → is_Some (zones s !! z) →
  runs (if bool_decide (zn = Some z) then mret ()
        else
          match zn with Some z => spin_unlock_irq z | None => mret () end;;
          spin_lock_irq z) s
    (λ _ s', inv hd off ref pend (Some z) s' ∧ frame s s' ∧ freed s' = freed s ∧ lists s' = lists s ∧ pages s' = pages s ∧
       is_Some (zones s' !! z)).
Proof.
  intros H Hlk [zd Hz]. case_bool_decide as Hzn; [subst; apply runs_ret; split_and!; by eauto|].
  apply runs_bind. apply (runs_mono _ _ (λ _ s1, inv hd off ref pend None s1 ∧ frame s s1 ∧ freed s1 = freed s ∧
    lists s1 = lists s ∧ pages s1 = pages s ∧ is_Some (zones s1 !! z))).
  - destruct zn as [z'|]; [|apply runs_ret; split_and!; by eauto]. eapply r_unlock; [exact H|by apply Hlk|].
    intros s1 zd' Hz' E1 H1. split; [done|]. split; [frame_solve|]. subst. simpl.
    rewrite lookup_insert_ne by congruence. split_and!; by eauto.
  - intros [] s1 (H1 & F1 & Ef & El & Ep & zd1 & Hz1). eapply r_lock; [exact H1|exact Hz1|]. intros s2 E2 H2.
    split; [done|]. split; [frame_solve|]. subst. simpl. rewrite lookup_insert_eq. split_and!; [congruence..|by eexists].
Qed.

Lemma page_off_lru_inv off ref pend lk s p pg k loc (Q : Z → lst → Prop) :
  inv (Some (Hand p pg k loc)) off ref pend lk s → (∀ h, loc = Some h → h.1 = page_zone pg) →
  (∀ s' pg', frame s s' → freed s' = freed s → inv (Some (Hand p pg' k loc)) off ref pend lk s' → page_zone pg' = page_zone pg →
     _count pg' = _count pg → PageLRU pg' = PageLRU pg → PageCompound pg' = PageCompound pg → Q (page_lru pg) s') →
  runs (page_off_lru p) s Q.
Proof.
  intros H Hloc HQ. unfold page_off_lru. apply runs_bind. eapply r_page; [exact H|].
  pose proof (hand_at _ _ _ _ _ _ _ _ _ H) as Hat. unfold page_lru in *.
  destruct (PageUnevictable pg); [|destruct (PageActive pg)].
  - apply runs_bind. eapply r_flag; [exact H|done|done|]. intros s1 E1 H1. apply runs_ret.
    eapply HQ; [frame_solve|by subst|exact H1|done|done|page_solve|page_solve].
  - apply runs_bind. eapply r_flag; [exact H|done|done|]. intros s1 E1 H1. apply runs_ret.
    eapply HQ; [frame_solve|by subst|exact H1|done|done|page_solve|page_solve].
  - apply runs_ret. rewrite Z.add_0_r in HQ. by eapply HQ.
Qed.

Lemma put_page_testzero_run s p pg :
  pages s !! p = Some pg →
  put_page_testzero p s = Ok (_count pg - 1 =? 0, pset p (set_count (_count pg - 1) pg) s).
Proof.
  intros Hp. unfold put_page_testzero. rewrite (bind_Ok _ _ _ _ _ (page_at_run _ _ _ Hp)).
  by rewrite (bind_Ok _ _ _ _ _ (upd_page_run _ _ _ _ Hp)).
Qed.

(** A page that is not on the lists of a zone and loses its last reference is on no
    list at all. *)
Lemma last_ref off ref pend lk s p pg :
  inv None off ref pend lk s → pages s !! p = Some pg → 1 <= ref p → waits pend p + 1 <= ref p → _count pg = 1 →
  p ∉ pend.*1 ∧ p ∉ freed s ∧ (PageLRU pg = false → unlinked s p).
Proof.
  intros H Hp Hr Hw Hc. pose proof (inv_ref _ _ _ _ _ _ H _ _ Hp). split_and!.
  - intros Hin. unfold waits in Hw. rewrite bool_decide_eq_true_2 in Hw by done. lia.
  - intros Hf. destruct (inv_freed _ _ _ _ _ _ H _ Hf) as (_ & _ & pg' & ? & ? & _). simplify_eq. lia.
  - intros HL h Hin. destruct (inv_page _ _ _ _ _ _ H _ _ Hin ltac:(done)) as (pg' & ? & _ & Hon). simplify_eq.
    destruct Hon as [(_ & ? & _)|[(_ & _ & ?)|(_ & _ & ?)]]; [congruence|lia|lia].
Qed.

(** The frame of code that uses the local list [h0]. *)
Record frame_but (h0 : head) (s s' : lst) : Prop := FrameBut {
  frame_but_pvecs : (pvecs s', spaces s') = (pvecs s, spaces s);
  frame_but_pages q : shape <$> pages s' !! q = shape <$> pages s !! q;
  frame_but_local h : h.1 < 0 → h ≠ h0 → list_at s' h = list_at s h;
  frame_but_flags h q : h.1 < 0 → h ≠ h0 → q ∈ list_at s h → flags <$> pages s' !! q = flags <$> pages s !! q;
}.

#[global] Instance frame_but_preorder h0 : PreOrder (frame_but h0).
Proof.
  split; [done|]. intros s1 s2 s3 [A B C D] [A' B' C' D']. split; [congruence|intros; by rewrite B'| |].
  - intros h Hh Hne. by rewrite C', C.
  - intros h q Hh Hne Hq. rewrite (D' h q Hh) by (by rewrite ?C). by apply (D h).
Qed.

Lemma frame_weaken h0 s s' : frame s s' → frame_but h0 s s'.
Proof. intros [A B C D]. split; [done|done| |]; intros h; [intros Hh _; by apply C|intros q Hh _; by apply D]. Qed.

Lemma frame_strengthen h0 s s' : frame_but h0 s s' → list_at s' h0 = [] → list_at s h0 = [] → frame s s'.
Proof.
  intros [A B C D] E E0. split; [done|done| |]; intros h; destruct (decide (h = h0)) as [->|]; intros.
  - congruence.
  - by apply C.
  - rewrite E0 in *. by destruct (not_elem_of_nil q).
  - by eapply D.
Qed.

Lemma frame_but_page h0 s s' q pg :
  frame_but h0 s s' → pages s !! q = Some pg → ∃ pg', pages s' !! q = Some pg' ∧ shape pg' = shape pg.
Proof.
  intros [_ F _ _] Hq. specialize (F q). rewrite Hq in F. destruct (pages s' !! q) as [pg'|] eqn:E; [|done].
  simplify_eq/=. exists pg'. unfold shape. split; congruence.
Qed.

Lemma frame_page s s' q pg : frame s s' → pages s !! q = Some pg → ∃ pg', pages s' !! q = Some pg' ∧ shape pg' = shape pg.
Proof. intros F. by eapply frame_but_page, (frame_weaken (0, 0)). Qed.

Lemma droppable_step h ref pend s s' p ps :
  droppable ref pend s (p :: ps) → frame_but h s s' → droppable (ref_add p (-1) ref) pend s' ps.
Proof.
  intros [D1 D2] F. split.
  - intros q Hq. destruct (D1 q ltac:(by right)) as (pg & E & Hc). destruct (frame_but_page _ _ _ _ _ F E) as (pg' & E' & Hs).
    exists pg'. split; [done|]. unfold shape in Hs. congruence.
  - intros q. specialize (D2 q). rewrite occ_cons in D2. unfold ref_add. repeat case_bool_decide; subst; try done; lia.
Qed.

(** The page in hand, without references, goes to a list of pages to be freed. *)
Lemma doom_inv off ref pend lk s p pg n (Q : () → lst → Prop) :
  inv (Some (Hand p pg 0 None)) off ref pend lk s → PageLRU pg = false → PageCompound pg = false → _count pg = 0 →
  (∀ s', frame_but (doomed n) s s' → freed s' = freed s → zones s' = zones s → inv None off ref pend lk s' → Q () s') →
  runs (list_add p (doomed n)) s Q.
Proof.
  intros H HL Hc H0 HQ. eapply r_add; [exact H|]. intros s1 E1 H1. apply HQ; [|by subst|by subst|].
  - subst. split; [done|done| |done]. intros h _ Hne. by apply list_at_put_ne.
  - eapply inv_ext; [| |eapply drop; [exact H1|done|]]; [off_solve|done|].
    split; [done|]. right; right. done.
Qed.

(** The page in hand leaves the list of its zone. *)
Lemma take_off_lru_inv {A} off ref pend s p pg z (k : M lst A) (Q : A → lst → Prop) :
  inv (Some (Hand p pg 0 (Some (page_zone pg, page_lru pg)))) off ref pend (Some z) s → z = page_zone pg →
  (∀ s' pg', frame s s' → freed s' = freed s → inv (Some (Hand p pg' 0 None)) off ref pend (Some z) s' →
     page_zone pg' = page_zone pg → PageLRU pg' = false → PageCompound pg' = PageCompound pg →
     _count pg' = _count pg → runs k s' Q) →
  runs (upd_page p (ClearPage PG_lru);; lru ← page_off_lru p; del_page_from_lru_list z p lru;; k) s Q.
Proof.
  intros H -> HQ. pose proof (hand_at _ _ _ _ _ _ _ _ _ H) as Hat.
  apply runs_bind. eapply r_flag; [exact H|done|done|]. intros s1 E1 H1.
  apply runs_bind. eapply page_off_lru_inv; [exact H1|by intros h ?; simplify_eq|]. intros s2 pg2 F2 Ef2 H2 Z2 C2 L2 K2.
  assert (page_lru (ClearPage PG_lru pg) = page_lru pg) as E by page_solve. rewrite E.
  apply runs_bind. eapply del_page_from_lru_list_inv; [exact H2|by rewrite Z2|apply page_lru_range|].
  intros s3 F3 Ef3 H3.
  eapply HQ; [frame_solve|by rewrite Ef3, Ef2, E1|exact H3|done|rewrite L2; page_solve|rewrite K2; page_solve|done].
Qed.

Lemma release_one_inv off ref pend zn s p pg n (Q : option Z → lst → Prop) :
  inv None off ref pend zn s → lock_ok zn s → pages s !! p = Some pg → PageCompound pg = false →
  1 + waits pend p <= ref p → _count pg = 1 →
  (∀ zn' s', inv None off (ref_add p (-1) ref) pend zn' s' → lock_ok zn' s' → frame_but (doomed n) s s' →
     freed s' = freed s → Q zn' s') →
  runs (if PageLRU pg then
          let pagezone := page_zone pg in
          (if bool_decide (zn = Some pagezone) then mret ()
           else
             match zn with Some z => spin_unlock_irq z | None => mret () end;;
             spin_lock_irq pagezone);;
          upd_page p (ClearPage PG_lru);;
          lru ← page_off_lru p;
          del_page_from_lru_list pagezone p lru;;
          mret (Some pagezone)
        else mret zn) (pset p (set_count (_count pg - 1) pg) s)
    (λ zn' s', runs (list_add p (doomed n)) s' (λ _ s'', Q zn' s'')).
Proof.
  intros H Hlk Hp Hc Hr H1 HQ.
  assert (1 <= ref p ∧ 0 <= waits pend p) as [Hr1 Hw] by (unfold waits in *; case_bool_decide; lia).
  destruct (last_ref _ _ _ _ _ _ _ H Hp Hr1 ltac:(lia) H1) as (Hnp & Hnf & Hu).
  set (pg1 := set_count (_count pg - 1) pg). set (s1 := pset p pg1 s).
  assert (inv None off (ref_add p (-1) ref) pend zn s1) as I1 by (by apply inv_put).
  assert (pages s1 !! p = Some pg1) as Hp1 by (simpl; by rewrite lookup_insert_eq).
  assert (_count pg1 = 0) as Hz1 by (simpl; lia).
  assert (frame s s1) as F1 by (by apply frame_count).
  destruct (PageLRU pg) eqn:HL; cbn zeta.
  - assert (is_Some (zones s1 !! page_zone pg)) as Hz by (by eapply (inv_zone _ _ _ _ _ _ I1 p pg1)).
    apply runs_bind. eapply runs_mono; [by eapply switch_lock_inv|]. cbn beta.
    intros [] s2 (I2 & F2 & Ef2 & El2 & Ep2 & Hz2).
    rewrite <- Ep2 in Hp1. destruct (take_lru _ _ _ _ _ _ _ I2 Hp1 HL) as [_ I2'].
    eapply take_off_lru_inv; [exact I2'|done|]. intros s3 pg3 F3 Ef3 I3 Z3 L3 K3 C3. apply runs_ret.
    eapply doom_inv; [exact I3|done|rewrite K3; exact Hc|by rewrite C3|]. intros s4 F4 Ef4 Ez4 I4.
    apply HQ; [done| |etrans; [apply frame_weaken|exact F4]; frame_solve|by rewrite Ef4, Ef3, Ef2].
    intros z [= <-]. rewrite Ez4. destruct (hand_zone _ _ _ _ _ _ _ _ _ I3) as (zd & Hzd & _). rewrite Z3 in Hzd. by eexists.
  - apply runs_ret. eapply (doom_inv off (ref_add p (-1) ref) pend zn s1 p pg1); [|exact HL|exact Hc|exact Hz1|].
    + eapply take; [exact I1|done|done|done| |by apply Hu]. rewrite ref_add_eq.
      pose proof (inv_ref _ _ _ _ _ _ H _ _ Hp). lia.
    + intros s2 F2 Ef2 Ez2 I2. apply HQ; [done| |etrans; [by apply frame_weaken|exact F2]|by rewrite Ef2].
      intros z Ez. rewrite Ez2. by apply Hlk.
Qed.

Lemma release_loop_inv off pend n ps : ∀ ref zn s,
  inv None off ref pend zn s → lock_ok zn s → droppable ref pend s ps →
  runs (release_loop (doomed n) ps zn) s (λ zn' s',
    inv None off (λ p, ref p - occ p ps) pend zn' s' ∧ lock_ok zn' s' ∧ frame_but (doomed n) s s' ∧ freed s' = freed s).
Proof.
  induction ps as [|p ps IH]; intros ref zn s H Hlk Hd; cbn [release_loop].
  { apply runs_ret. split_and!; try done. eapply inv_ext; [| |exact H]; [done|]. intros; simpl; lia. }
  destruct (proj1 Hd p ltac:(left)) as (pg & Hp & Hc).
  assert (1 + waits pend p <= ref p) as Hr.
  { pose proof (proj2 Hd p) as Hd2. rewrite occ_cons, bool_decide_eq_true_2 in Hd2 by done.
    pose proof (occ_nonneg p ps). lia. }
  assert (1 <= ref p) as Hr1 by (unfold waits in Hr; case_bool_decide; lia).
  assert (p ∈ pend.*1 → 2 <= ref p) as Hr2 by (unfold waits in Hr; case_bool_decide; [lia|done]).
  apply runs_bind. eapply runs_ok; [by apply page_at_run|]. rewrite Hc.
  apply runs_bind. eapply runs_ok; [by apply put_page_testzero_run|].
  assert (∀ zn' s', inv None off (ref_add p (-1) ref) pend zn' s' → lock_ok zn' s' → frame_but (doomed n) s s' →
    freed s' = freed s → runs (release_loop (doomed n) ps zn') s' (λ zn'' s'', inv None off (λ q, ref q - occ q (p :: ps)) pend zn'' s'' ∧
      lock_ok zn'' s'' ∧ frame_but (doomed n) s s'' ∧ freed s'' = freed s)) as Hrest.
  { intros zn' s' I' Hlk' F' Ef'. eapply runs_mono; [apply (IH _ _ _ I' Hlk'); by eapply droppable_step|]. cbn beta.
    intros zn'' s'' (I'' & Hlk'' & F'' & Ef''). split_and!; [|done|by etrans|congruence].
    eapply inv_ext; [done| |exact I'']. intros q. rewrite occ_cons. unfold ref_add. case_bool_decide; lia. }
  destruct (Z.eqb_spec (_count pg - 1) 0) as [Hz|Hz]; cbn [negb].
  - apply runs_bind. eapply runs_mono; [apply (release_one_inv off ref pend zn s p pg n
      (λ zn' s', inv None off (ref_add p (-1) ref) pend zn' s' ∧ lock_ok zn' s' ∧ frame_but (doomed n) s s' ∧ freed s' = freed s));
      [done|done|done|done|done|lia|done]|].
    cbn beta. intros zn' s' Hdoom. apply runs_bind. eapply runs_mono; [exact Hdoom|]. cbn beta.
    intros [] s'' (I'' & Hlk'' & F'' & Ef''). by apply Hrest.
  - apply Hrest; [by apply inv_put|done|apply frame_weaken; frame_solve|done].
Qed.

(** ** Freeing a list of pages *)

Lemma free_pages_from_run l : ∀ s, free_pages_from l s = Ok ((), set_freed (reverse l ++ freed s) s).
Proof.
  induction l as [|p l IH]; intros s; cbn [free_pages_from].
  - by destruct s.
  - erewrite bind_Ok by done. rewrite IH. simpl. by rewrite reverse_cons, <- app_assoc.
Qed.

Lemma free_list_inv off ref pend lk s n :
  inv None off ref pend lk s →
  runs (free_hot_cold_page_list (doomed n)) s (λ _ s',
    inv None off ref pend lk s' ∧ frame_but (doomed n) s s' ∧ list_at s' (doomed n) = [] ∧
    freed s' = reverse (list_at s (doomed n)) ++ freed s ∧ zones s' = zones s ∧ pages s' = pages s).
Proof.
  intros H. unfold free_hot_cold_page_list. set (l := list_at s (doomed n)).
  apply runs_bind, runs_gets. apply runs_bind. eapply runs_ok; [done|].
  eapply runs_ok; [apply free_pages_from_run|]. change (set_lists _ s) with (put_list (doomed n) [] s).
  set (s' := set_freed _ _).
  assert (∀ h, h ≠ doomed n → list_at s' h = list_at s h) as Hne by (intros; by apply (list_at_put_ne (doomed n))).
  assert (list_at s' (doomed n) = []) as Heq by apply (list_at_put (doomed n)).
  split_and!; try done; [|split; [done|done|by intros; apply Hne|done]].
  assert (∀ h q, q ∈ list_at s' h → q ∈ list_at s h ∧ q ∉ l) as Hin.
  { intros h q. destruct (decide (h = doomed n)) as [->|]; [rewrite Heq; by intros ?%elem_of_nil|].
    rewrite Hne by done. intros Hq. split; [done|]. intros Hq'. by pose proof (inv_disj _ _ _ _ _ _ H _ _ _ Hq Hq'). }
  assert (∀ q, q ∈ l → ∃ pg, pages s !! q = Some pg ∧ _count pg = 0 ∧ PageLRU pg = false) as Hl.
  { intros q Hq. destruct (inv_page _ _ _ _ _ _ H _ _ Hq ltac:(done)) as (pg & E & _ & [(? & _)|[(? & _)|(_ & ? & ?)]]);
      simpl in *; [lia|lia|]. by exists pg. }
  destruct H as [H1 H2 H3 H4 H5 H6 H7 H8 H9 H10 H11 H12 H13]. split; try done.
  - intros h. destruct (decide (h = doomed n)) as [->|]; [rewrite Heq; constructor|by rewrite Hne].
  - intros h h' q [? _]%Hin [? _]%Hin. eauto.
  - intros h q [Hq _]%Hin _. by apply H3.
  - intros q pg Hq _ HL. rewrite Hne; [by apply H4|]. intros E. destruct (H7 _ _ Hq) as [_ ?].
    apply (f_equal fst) in E. simpl in E. lia.
  - intros z zd l' Hz ? ?. rewrite Hne; [by apply H5|]. intros E. apply (f_equal fst) in E. simpl in E. lia.
  - intros q l' Hq. destruct (H9 _ _ Hq) as (_ & ? & Hu & ?). split_and!; try done. intros h [? _]%Hin. by apply (Hu h).
  - intros q. simpl. rewrite elem_of_app, elem_of_reverse. intros [Hq|Hq].
    + split; [done|]. split; [intros h [_ ?]%Hin; done|by apply Hl].
    + destruct (H11 q Hq) as (_ & Hu & ?). split; [done|]. split; [|done]. intros h [? _]%Hin. by apply (Hu h).
  - simpl. apply NoDup_app. split_and!; [by rewrite reverse_Permutation| |done].
    intros q Hq Hf. rewrite elem_of_reverse in Hq. destruct (H11 q Hf) as (_ & Hu & _). by apply (Hu _ Hq).
Qed.

Lemma release_pages_inv off ref pend s ps :
  inv None off ref pend None s → droppable ref pend s ps → list_at s release_free_list = [] →
  runs (release_pages ps) s (λ _ s',
    inv None off (λ p, ref p - occ p ps) pend None s' ∧ frame s s' ∧ ∃ l, freed s' = l ++ freed s).
Proof.
  intros H Hd He. unfold release_pages. apply runs_bind. eapply runs_ok; [done|].
  change (set_lists _ s) with (put_list release_free_list [] s).
  assert (∀ h, list_at (put_list release_free_list [] s) h = list_at s h) as Hsame.
  { intros h. destruct (decide (release_free_list = h)) as [<-|]; [by rewrite list_at_put|by rewrite list_at_put_ne]. }
  set (s0 := put_list _ [] s) in *.
  assert (inv None off ref pend None s0) as H0.
  { destruct H as [H1 H2 H3 H4 H5 H6 H7 H8 H9 H10 H11 H12 H13].
    split; try done; intros; rewrite ?Hsame in *; eauto.
    - destruct (H9 _ _ ltac:(done)) as (_ & ? & Hu & ?). split_and!; try done. intros h. by rewrite Hsame.
    - destruct (H11 _ ltac:(done)) as (_ & Hu & ?). split_and!; try done. intros h. by rewrite Hsame. }
  assert (frame s s0) as F0 by (split; [done|done|intros; apply Hsame|done]).
  apply runs_bind. eapply runs_mono; [by apply (release_loop_inv off pend 0 ps ref None s0)|]. cbn beta.
  intros zn s1 (H1 & Hlk & F1 & Ef1).
  apply runs_bind. apply (runs_mono _ _ (λ _ s2, inv None off (λ p, ref p - occ p ps) pend None s2 ∧ frame s1 s2 ∧
    freed s2 = freed s1)).
  { destruct zn as [z|]; [|by apply runs_ret]. eapply r_unlock; [exact H1|by apply Hlk|]. intros s2 zd Hz E2 H2.
    split_and!; [done|frame_solve|by subst]. }
  intros [] s2 (H2 & F2 & Ef2). eapply runs_mono; [by eapply (free_list_inv _ _ _ None s2 0)|]. cbn beta.
  intros [] s3 (H3 & F3 & He3 & Ef3 & _). split; [done|]. split; [|eexists; rewrite Ef3, Ef2, Ef1; done].
  apply (frame_strengthen (doomed 0)); [|done|done].
  etrans; [by apply (frame_weaken (doomed 0))|]. etrans; [exact F1|]. etrans; [by apply (frame_weaken (doomed 0))|done].
Qed.

(** ** The loop over a pagevec *)

(** [wait ps] are the pages that wait to be added while [ps] is left of the pagevec. *)
Lemma move_loop_inv off ref (wait : list Z → list (Z * Z)) fn :
  (∀ p ps arg z s, inv None off ref (wait (p :: ps)) (Some z) s → is_Some (pages s !! p) →
     runs (fn p arg) s (λ _ s', inv None off ref (wait ps) (Some z) s' ∧ frame s s')) →
  ∀ ps arg zn s, inv None off ref (wait ps) zn s → lock_ok zn s → (∀ p, p ∈ ps → is_Some (pages s !! p)) →
  runs (move_loop fn ps arg zn) s (λ r s', inv None off ref (wait []) r.1 s' ∧ lock_ok r.1 s' ∧ frame s s').
Proof.
  intros Hfn ps. induction ps as [|p ps IH]; intros arg zn s H Hlk Hps; cbn [move_loop]; [by apply runs_ret|].
  destruct (Hps p ltac:(left)) as [pg Hp].
  apply runs_bind. eapply runs_ok; [by apply page_at_run|].
  assert (is_Some (zones s !! page_zone pg)) as Hz by (by eapply (inv_zone _ _ _ _ _ _ H p pg)).
  apply runs_bind. eapply runs_mono; [by eapply switch_lock_inv|]. cbn beta.
  intros [] s1 (H1 & F1 & _ & _ & Ep1 & Hz1).
  apply runs_bind. eapply runs_mono; [eapply Hfn; [exact H1|rewrite Ep1; by eexists]|]. cbn beta.
  intros arg' s2 [H2 F2]. destruct (frame_page _ _ _ _ F2 (eq_trans (f_equal (.!! p) Ep1) Hp)) as (pg2 & Hp2 & Hs2).
  eapply runs_mono; [apply IH; [exact H2| |]|].
  - intros z [= <-]. unfold shape in Hs2. destruct (inv_zone _ _ _ _ _ _ H2 _ _ Hp2) as [? _].
    replace (page_zone pg) with (page_zone pg2) by congruence. done.
  - intros q Hq. destruct (Hps q ltac:(by right)) as [pgq Hpq].
    destruct (frame_page _ _ _ _ F2 (eq_trans (f_equal (.!! q) Ep1) Hpq)) as (pgq' & ? & _). by eexists.
  - cbn beta. intros r s3 (H3 & Hlk3 & F3). split_and!; [done|done|frame_solve].
Qed.

Lemma pagevec_lru_move_fn_inv off ref (wait : list Z → list (Z * Z)) fn i arg s :
  (∀ p ps arg z s, inv None off ref (wait (p :: ps)) (Some z) s → is_Some (pages s !! p) →
     runs (fn p arg) s (λ _ s', inv None off ref (wait ps) (Some z) s' ∧ frame s s')) →
  inv None off ref (wait (pvec_at s i)) None s → droppable ref (wait []) s (pvec_at s i) →
  list_at s release_free_list = [] →
  runs (pagevec_lru_move_fn i fn arg) s (λ _ s',
    inv None off (λ p, ref p - occ p (pvec_at s i)) (wait []) None s' ∧
    pvecs s' = <[i := []]> (pvecs s) ∧ frame_but (0, 0) (set_pvecs (<[i := []]> (pvecs s)) s) s').
Proof.
  intros Hfn H Hd He. unfold pagevec_lru_move_fn. apply runs_bind, runs_gets. set (ps := pvec_at s i) in *.
  apply runs_bind. eapply runs_mono; [apply (move_loop_inv _ _ _ _ Hfn ps arg None s H); [done|]|].
  { intros p Hp. destruct (proj1 Hd p Hp) as (pg & ? & _). by eexists. }
  cbn beta. intros [zn arg'] s1 (H1 & Hlk & F1). cbn [fst snd] in *.
  apply runs_bind. apply (runs_mono _ _ (λ _ s2, inv None off ref (wait []) None s2 ∧ frame s1 s2)).
  { destruct zn as [z|]; [|by apply runs_ret]. eapply r_unlock; [exact H1|by apply Hlk|]. intros s2 zd Hz E2 H2.
    split; [done|frame_solve]. }
  intros [] s2 [H2 F2]. assert (frame s s2) as F by (by etrans).
  apply runs_bind. eapply runs_mono; [eapply release_pages_inv; [exact H2| |]|].
  - split; [|apply Hd]. intros p Hp. destruct (proj1 Hd p Hp) as (pg & E & Hc).
    destruct (frame_page _ _ _ _ F E) as (pg' & E' & Hs). exists pg'. unfold shape in Hs. split; congruence.
  - by rewrite (frame_local _ _ F).
  - cbn beta. intros [] s3 (H3 & F3 & _). apply runs_bind, runs_modify, runs_ret.
    pose proof (transitivity F F3) as [A B C D]. injection A as A A2. split; [by destruct H3|]. split; [simpl; by rewrite A|].
    split; [simpl; by rewrite A, A2|done| |]; intros h; [intros Hh _; by apply C|intros q Hh _; by apply D].
Qed.
