(* ===== verification/LruApi.v ===== *)
(** * The invariant between calls, and the interface of swap.c

    Between calls no page is in hand, no lock is held, the counters of the zones are the
    lengths of the lists, and the references and waiting pages are those of the
    pagevecs.  Each function that other code calls keeps this, within its contract. *)

From S2P Require Import Prelude Hoare Lru LruInv LruOps.

(** The references to a page that are accounted for: one for each slot of a pagevec that
    holds it, and [ex p] others, of callers. *)
Definition refs (ex : Z → Z) (s : lst) (p : Z) : Z := occ p (concat (map (pvec_at s) [0; 1; 2; 3; 4; 5; 6])) + ex p.

Definition tag (l : Z) (ps : list Z) : list (Z * Z) := map (λ p, (p, l)) ps.

Definition pend_of (s : lst) : list (Z * Z) := concat (map (λ l, tag l (pvec_at s l)) [0; 1; 2; 3; 4]).

(** [hd] is the page in hand, [off] and [lv] are the differences between counters and
    lengths and the contents of the local lists, and [lk] is the zone whose lock is held;
    see [lru_inv] for the state between calls. *)
Record lru_gen (hd : option hand) (off : Z → Z → Z) (ex : Z → Z) (lv : head → list Z) (lk : option Z) (s : lst) : Prop := LruGen {
  li_inv : inv hd off (refs ex s) (pend_of s) lk s;
  li_full i : 0 <= i <= 6 → Z.of_nat (length (pvec_at s i)) < PAGEVEC_SIZE;
  li_page i p : 0 <= i <= 6 → p ∈ pvec_at s i → ∃ pg, pages s !! p = Some pg ∧ PageCompound pg = false;
  li_local h : h.1 < 0 → list_at s h = lv h;
}.

Notation lru_st off ex lv := (lru_gen None off ex lv None).

(** The same, but for the pagevec [i] that may have no room left. *)
Record lru_but (off : Z → Z → Z) (ex : Z → Z) (lv : head → list Z) (i : Z) (s : lst) : Prop := LruBut {
  lb_inv : inv None off (refs ex s) (pend_of s) None s;
  lb_full j : 0 <= j <= 6 → j ≠ i → Z.of_nat (length (pvec_at s j)) < PAGEVEC_SIZE;
  lb_page j p : 0 <= j <= 6 → p ∈ pvec_at s j → ∃ pg, pages s !! p = Some pg ∧ PageCompound pg = false;
  lb_local h : h.1 < 0 → list_at s h = lv h;
}.

(** Between calls: no page is on a local list, and every counter is the length of its list. *)
Definition lru_inv : lst → Prop := lru_st (λ _ _, 0) (λ _, 0) (λ _, []).

Lemma lru_inv_weaken off ex lv i s : lru_st off ex lv s → lru_but off ex lv i s.
Proof. intros [A B C D]. split; auto. Qed.

Lemma tag_fst l ps : (tag l ps).*1 = ps.
Proof. induction ps as [|p ps IH]; [done|]. change (p :: (tag l ps).*1 = p :: ps). congruence. Qed.

Lemma elem_tag p l l' ps : (p, l) ∈ tag l' ps ↔ l = l' ∧ p ∈ ps.
Proof.
  unfold tag. rewrite list_elem_of_In, in_map_iff. setoid_rewrite <- list_elem_of_In. naive_solver.
Qed.

Lemma waits_occ pend p : waits pend p <= occ p (pend.*1).
Proof. unfold waits. case_bool_decide as H; [by apply occ_elem in H|apply occ_nonneg]. Qed.

Lemma inv_pend_perm hd off ref pend pend' lk s :
  pend ≡ₚ pend' → inv hd off ref pend lk s → inv hd off ref pend' lk s.
Proof.
  intros Hp [H1 H2 H3 H4 H5 H6 H7 H8 H9 H10 H11 H12 H13]. split; try done.
  - intros p l Hin. rewrite <- Hp in Hin. by apply H9.
  - by rewrite <- Hp.
Qed.

(** ** Emptying a pagevec *)

Lemma pvec_upd s s' i ps : pvecs s' = <[i := ps]> (pvecs s) → ∀ j,
  pvec_at s' j = if decide (i = j) then ps else pvec_at s j.
Proof.
  intros E j. unfold pvec_at. rewrite E. destruct (decide (i = j)) as [->|]; [by rewrite lookup_insert_eq|].
  by rewrite lookup_insert_ne.
Qed.

Lemma refs_upd ex s s' i ps p : pvecs s' = <[i := ps]> (pvecs s) → 0 <= i <= 6 →
  refs ex s' p = refs ex s p - occ p (pvec_at s i) + occ p ps.
Proof.
  intros E Hi. pose proof (pvec_upd _ _ _ _ E) as Hu. unfold refs. cbn [map concat]. rewrite !Hu, !occ_app.
  assert (i = 0 ∨ i = 1 ∨ i = 2 ∨ i = 3 ∨ i = 4 ∨ i = 5 ∨ i = 6) as Hc by lia.
  destruct Hc as [->|[->|[->|[->|[->|[->| ->]]]]]]; simpl; lia.
Qed.

(** The pages that wait in the other pagevecs. *)
Definition others (i : Z) (s : lst) : list (Z * Z) :=
  concat (map (λ l, if bool_decide (l = i) then [] else tag l (pvec_at s l)) [0; 1; 2; 3; 4]).

Lemma pend_of_split s i : 0 <= i <= 4 → pend_of s ≡ₚ tag i (pvec_at s i) ++ others i s.
Proof.
  intros Hi. unfold pend_of, others. cbn [map concat].
  assert (i = 0 ∨ i = 1 ∨ i = 2 ∨ i = 3 ∨ i = 4) as Hc by lia.
  destruct Hc as [->|[->|[->|[->| ->]]]]; simpl; rewrite ?app_nil_r; solve_Permutation.
Qed.

Lemma pend_of_upd s s' i ps : pvecs s' = <[i := ps]> (pvecs s) → 0 <= i <= 4 →
  pend_of s' ≡ₚ tag i ps ++ others i s.
Proof.
  intros E Hi. rewrite (pend_of_split s' i Hi). pose proof (pvec_upd _ _ _ _ E) as Hu. rewrite Hu.
  destruct (decide (i = i)) as [_|]; [|done]. unfold others. cbn [map concat]. rewrite !Hu.
  assert (i = 0 ∨ i = 1 ∨ i = 2 ∨ i = 3 ∨ i = 4) as Hc by lia.
  destruct Hc as [->|[->|[->|[->| ->]]]]; done.
Qed.

Lemma pend_of_same s s' i ps : pvecs s' = <[i := ps]> (pvecs s) → 5 <= i → pend_of s' = pend_of s.
Proof.
  intros E Hi. pose proof (pvec_upd _ _ _ _ E) as Hu. unfold pend_of. cbn [map concat]. rewrite !Hu.
  repeat (destruct (decide (i = _)); [lia|]). done.
Qed.

Lemma waits_others ex s i p : 0 <= i <= 4 → 0 <= ex p → occ p (pvec_at s i) + waits (others i s) p <= refs ex s p.
Proof.
  intros Hi. pose proof (waits_occ (others i s) p) as Hw. unfold others, refs in *. cbn [map concat] in *.
  rewrite !occ_app. pose proof (occ_nonneg p). rewrite !fmap_app in Hw.
  assert (i = 0 ∨ i = 1 ∨ i = 2 ∨ i = 3 ∨ i = 4) as Hc by lia.
  destruct Hc as [->|[->|[->|[->| ->]]]]; simpl in Hw |- *; rewrite ?tag_fst, ?occ_app in Hw; simpl in Hw |- *;
    pose proof (H (pvec_at s 5)); pose proof (H (pvec_at s 6)); lia.
Qed.

Lemma waits_pend ex s i p : 5 <= i <= 6 → 0 <= ex p → occ p (pvec_at s i) + waits (pend_of s) p <= refs ex s p.
Proof.
  intros Hi. pose proof (waits_occ (pend_of s) p) as Hw. unfold pend_of, refs in *. cbn [map concat] in *.
  rewrite !occ_app. pose proof (occ_nonneg p). rewrite !fmap_app, !tag_fst, !occ_app in Hw. simpl in *.
  assert (i = 5 ∨ i = 6) as Hc by lia.
  destruct Hc as [->| ->]; pose proof (H (pvec_at s 5)); pose proof (H (pvec_at s 6)); lia.
Qed.

(** What a call leaves alone: which pages there are, and their zones. *)
Record kept (s s' : lst) : Prop := Kept {
  kept_shape q : (shape <$> pages s' !! q, spaces s') = (shape <$> pages s !! q, spaces s);
  kept_local h : h.1 < 0 → list_at s' h = list_at s h;
  kept_flags h q : h.1 < 0 → q ∈ list_at s h → flags <$> pages s' !! q = flags <$> pages s !! q;
}.

#[global] Instance kept_preorder : PreOrder kept.
Proof.
  split; [done|]. intros s1 s2 s3 [A B C] [A' B' C']. split.
  - intros q. by rewrite A'.
  - intros h Hh. by rewrite B', B.
  - intros h q Hh Hq. rewrite (C' h q Hh) by (by rewrite B). by apply (C h).
Qed.

Lemma frame_kept s s' : frame s s' → kept s s'.
Proof. intros [A B C D]. split; [|done|done]. intros q. rewrite B. congruence. Qed.

Lemma frame_but_kept s s' x : frame_but (0, 0) (set_pvecs x s) s' → kept s s'.
Proof.
  intros [A B C D]. split.
  - intros q. simpl in A. rewrite B. simpl. congruence.
  - intros h Hh. apply C; [done|]. intros ->. simpl in Hh. lia.
  - intros h q Hh. apply (D h); [done|]. intros ->. simpl in Hh. lia.
Qed.

Lemma kept_page s s' q pg : kept s s' → pages s !! q = Some pg → ∃ pg', pages s' !! q = Some pg' ∧ shape pg' = shape pg.
Proof.
  intros [K _ _] Hq. specialize (K q). rewrite Hq in K. destruct (pages s' !! q) as [pg'|] eqn:E; [|done].
  exists pg'. simpl in K. split; [done|]. injection K as. unfold shape. congruence.
Qed.

Section api.
Context (off : Z → Z → Z) (ex : Z → Z) (lv : head → list Z) (Hex : ∀ p, 0 <= ex p) (Hrel : lv release_free_list = []).
Notation lru_inv := (lru_st off ex lv).
Notation lru_inv_but := (lru_but off ex lv).

(** After the pages of pagevec [i] were moved and released. *)
Lemma drained_inv i s s' : 0 <= i <= 6 → lru_inv_but i s →
  inv None off (λ p, refs ex s p - occ p (pvec_at s i)) (if decide (i <= 4) then others i s else pend_of s) None s' →
  pvecs s' = <[i := []]> (pvecs s) → frame_but (0, 0) (set_pvecs (<[i := []]> (pvecs s)) s) s' → lru_inv s'.
Proof.
  intros Hi [A B C D] H E F. pose proof (pvec_upd _ _ _ _ E) as Hu. split.
  - apply (inv_ext _ off _ (λ p, refs ex s p - occ p (pvec_at s i))); [done| |].
    { intros p. rewrite (refs_upd _ _ _ _ _ p E) by done. simpl. lia. }
    destruct (decide (i <= 4)).
    + eapply inv_pend_perm; [symmetry; apply (pend_of_upd _ _ _ _ E); lia|exact H].
    + rewrite (pend_of_same _ _ _ _ E) by lia. exact H.
  - intros j Hj. rewrite Hu. destruct (decide (i = j)); [done|]. by apply B.
  - intros j p Hj. rewrite Hu. destruct (decide (i = j)); [by intros ?%elem_of_nil|]. intros Hp.
    destruct (C j p Hj Hp) as (pg & Ep & Hc). destruct (frame_but_page _ _ _ _ _ F Ep) as (pg' & ? & Hs).
    exists pg'. unfold shape in Hs. split; congruence.
  - intros h Hh. rewrite (frame_but_local _ _ _ F h Hh) by (intros ->; simpl in *; lia). by apply D.
Qed.

Lemma pagevec_lru_add_inv i s : 0 <= i <= 4 → lru_inv_but i s →
  runs (__pagevec_lru_add i i) s (λ _ s', lru_inv s' ∧ kept s s').
Proof.
  intros Hi L. pose proof L as [A B C D]. unfold __pagevec_lru_add. apply runs_bind. eapply runs_mono.
  - eapply (pagevec_lru_move_fn_inv off (refs ex s) (λ ps, tag i ps ++ others i s)).
    + intros p ps arg z s0 H _. by apply add_fn_inv.
    + eapply inv_pend_perm; [by apply pend_of_split|exact A].
    + split; [by intros p; apply C; lia|]. intros p. by apply waits_others.
    + by rewrite D.
  - cbn beta. intros a s' (H & E & F). apply runs_ret. split.
    + eapply drained_inv; [|exact L| |exact E|exact F]; [lia|]. by destruct (decide (i <= 4)); [|lia].
    + by eapply frame_but_kept.
Qed.

Lemma move_fn_inv fn i s arg : 5 <= i <= 6 → lru_inv_but i s →
  (∀ off ref pend lk s p pg arg, inv None off ref pend lk s → pages s !! p = Some pg →
     runs (fn p arg) s (λ _ s', inv None off ref pend lk s' ∧ frame s s')) →
  runs (pagevec_lru_move_fn i fn arg) s (λ _ s', lru_inv s' ∧ kept s s').
Proof.
  intros Hi L Hfn. pose proof L as [A B C D]. eapply runs_mono.
  - eapply (pagevec_lru_move_fn_inv off (refs ex s) (λ _, pend_of s)).
    + intros p ps a z s0 H [pg Hp]. by eapply Hfn.
    + exact A.
    + split; [by intros p; apply C; lia|]. intros p. by apply waits_pend.
    + by rewrite D.
  - cbn beta. intros a s' (H & E & F). split.
    + eapply drained_inv; [|exact L| |exact E|exact F]; [lia|]. by destruct (decide (i <= 4)); [lia|].
    + by eapply frame_but_kept.
Qed.

(** ** Adding to a pagevec *)

(** A reference is taken and handed to a pagevec. *)
Lemma inv_get off' ref pend lk s p pg :
  inv None off' ref pend lk s → pages s !! p = Some pg → p ∉ freed s → (∀ n, p ∉ list_at s (doomed n)) →
  inv None off' (ref_add p 1 ref) pend lk (pset p (set_count (_count pg + 1) pg) s).
Proof.
  intros [H1 H2 H3 H4 H5 H6 H7 H8 H9 H10 H11 H12 H13] Hp Hnf Hnd.
  set (pg' := set_count (_count pg + 1) pg).
  assert (∀ q, q ≠ p → pages (pset p pg' s) !! q = pages s !! q) as Hne by (intros; simpl; by rewrite lookup_insert_ne).
  assert (pages (pset p pg' s) !! p = Some pg') as Heq by (simpl; by rewrite lookup_insert_eq).
  split; try done.
  - intros h q Hq _. destruct (H3 h q Hq ltac:(done)) as (pgq & E & Hcq & Hon). destruct (decide (q = p)) as [->|].
    + simplify_eq. exists pg'. split; [done|]. split; [done|]. rewrite ref_add_eq. subst pg'. cbn [_count set_count].
      destruct Hon as [?|[(? & ? & ?)|(Hh & _)]]; [by left|right; left; split_and!; [done|done|lia]|].
      destruct h as [a n]; simpl in Hh; subst a. by destruct (Hnd n).
    + exists pgq. rewrite Hne by done. split; [done|]. split; [done|]. by rewrite ref_add_ne.
  - intros q pgq Hq _ HL. destruct (decide (q = p)) as [->|].
    + rewrite Heq in Hq. injection Hq as <-. exact (H4 p pg Hp ltac:(done) HL).
    + rewrite Hne in Hq by done. by apply H4.
  - intros q pgq Hq. destruct (decide (q = p)) as [->|].
    + rewrite Heq in Hq. injection Hq as <-. exact (H7 p pg Hp).
    + rewrite Hne in Hq by done. by eapply H7.
  - intros q pgq Hq. destruct (decide (q = p)) as [->|].
    + rewrite Heq in Hq. injection Hq as <-. pose proof (H8 _ _ Hp). rewrite ref_add_eq. subst pg'. cbn [_count set_count]. lia.
    + rewrite Hne in Hq by done. rewrite ref_add_ne by done. by apply H8.
  - intros q l Hq. destruct (H9 q l Hq) as (_ & Hr' & Hu & pgq & E & Hok). split; [done|].
    destruct (decide (q = p)) as [->|].
    + simplify_eq. rewrite ref_add_eq. split; [lia|]. split; [done|]. exists pg'. split; [done|]. exact Hok.
    + rewrite ref_add_ne, Hne by done. eauto.
  - intros q Hq. destruct (H11 q Hq) as (_ & Hu & pgq & E & Hz & HL). split; [done|]. split; [done|].
    assert (q ≠ p) by (by intros ->). rewrite Hne by done. eauto.
Qed.

Definition push_pvec (i p : Z) (s : lst) : lst := set_pvecs (<[i := pvec_at s i ++ [p]]> (pvecs s)) s.

Lemma pagevec_add_run i p s : Z.of_nat (length (pvec_at s i)) < PAGEVEC_SIZE →
  pagevec_add i p s = Ok (PAGEVEC_SIZE - Z.of_nat (length (pvec_at s i)) - 1, push_pvec i p s).
Proof.
  intros H. unfold pagevec_add. erewrite bind_Ok by done. cbn beta.
  rewrite (proj2 (Z.leb_gt _ _)) by done. by erewrite bind_Ok by done.
Qed.

Lemma get_page_run p pg s : pages s !! p = Some pg → PageCompound pg = false →
  get_page p s = Ok ((), pset p (set_count (_count pg + 1) pg) s).
Proof.
  intros Hp [_ Ht]%orb_false_iff. unfold get_page. rewrite (bind_Ok _ _ _ _ _ (page_at_run _ _ _ Hp)), Ht.
  erewrite bind_Ok by done. cbn [negb when]. by rewrite (upd_page_run _ _ _ _ Hp).
Qed.

Lemma push_other_inv i s p pg : 5 <= i <= 6 → lru_inv s → pages s !! p = Some pg → PageCompound pg = false →
  p ∉ freed s → (∀ n, p ∉ list_at s (doomed n)) → lru_inv_but i (push_pvec i p (pset p (set_count (_count pg + 1) pg) s)).
Proof.
  intros Hi [A B C D] Hp Hc Hf Hnd. set (s1 := pset _ _ s).
  assert (pvecs (push_pvec i p s1) = <[i := pvec_at s i ++ [p]]> (pvecs s)) as E by done.
  pose proof (pvec_upd s _ _ _ E) as Hu. split.
  - apply (inv_ext _ off _ (ref_add p 1 (refs ex s))); [done| |].
    { intros q. rewrite (refs_upd _ s _ _ _ q E) by lia. rewrite occ_app, occ_cons. unfold ref_add. simpl.
      case_bool_decide; lia. }
    rewrite (pend_of_same s _ _ _ E) by lia.
    pose proof (inv_get _ _ _ _ _ _ _ A Hp Hf) as H. destruct H as [H1 H2 H3 H4 H5 H6 H7 H8 H9 H10 H11 H12 H13]; [done|done].
  - intros j Hj Hne. rewrite Hu. destruct (decide (i = j)); [done|by apply B].
  - intros j q Hj Hq. assert (∃ pg, pages s !! q = Some pg ∧ PageCompound pg = false) as (pgq & Hq1 & Hq2).
    { rewrite Hu in Hq. destruct (decide (i = j)) as [<-|]; [|by eapply C].
      apply elem_of_app in Hq as [Hq|Hq%list_elem_of_singleton]; [by eapply C|subst; eauto]. }
    destruct (decide (q = p)) as [->|].
    + simplify_eq. eexists. simpl. rewrite lookup_insert_eq. by split.
    + exists pgq. simpl. by rewrite lookup_insert_ne.
  - done.
Qed.

Lemma kept_count p pg c s : pages s !! p = Some pg → kept s (pset p (set_count c pg) s).
Proof. intros Hp. by apply frame_kept, frame_count. Qed.

Lemma length_push i p s : length (pvec_at (push_pvec i p s) i) = S (length (pvec_at s i)).
Proof.
  unfold pvec_at at 1, push_pvec. simpl. rewrite lookup_insert_eq. simpl. rewrite length_app. simpl. lia.
Qed.

(** A pagevec that [add] leaves full is emptied by [m]. *)
Lemma push_drain i s s1 p (m : M lst ()) : 0 <= i <= 6 → lru_inv s → pvecs s1 = pvecs s → kept s s1 →
  lru_inv_but i (push_pvec i p s1) →
  (∀ s2, lru_inv_but i s2 → runs m s2 (λ _ s', lru_inv s' ∧ kept s2 s')) →
  runs (space ← pagevec_add i p; when (space =? 0) m) s1 (λ _ s', lru_inv s' ∧ kept s s').
Proof.
  intros Hi L Epv K L1 Hm. pose proof (li_full _ _ _ _ _ _ L i Hi) as Hfull.
  assert (pvec_at s1 i = pvec_at s i) as Ei by (unfold pvec_at; by rewrite Epv). rewrite <- Ei in Hfull.
  apply runs_bind. eapply runs_ok; [by apply pagevec_add_run|]. cbn beta. pose proof (length_push i p s1) as Hlen.
  assert (kept s (push_pvec i p s1)) as K1 by (by destruct K).
  apply runs_when.
  - intros _. eapply runs_mono; [by apply Hm|]. cbn beta. intros _ s2 [L2 K2]. split; [done|].
    by etrans.
  - intros Hz%Z.eqb_neq. split; [|done]. destruct L1 as [A B C D]. split; try done. intros j Hj.
    destruct (decide (j = i)) as [->|]; [lia|by apply B].
Qed.

Lemma lru_inv_events s e : lru_inv s → lru_inv (set_vm_events e s).
Proof. intros [A B C D]. split; try done. by destruct A. Qed.

Lemma move_tail_drain_inv s2 : lru_inv_but lru_rotate_pvecs s2 →
  runs (pagevec_move_tail lru_rotate_pvecs) s2 (λ _ s', lru_inv s' ∧ kept s2 s').
Proof.
  intros L. unfold pagevec_move_tail. apply runs_bind. eapply runs_mono.
  { apply (move_fn_inv pagevec_move_tail_fn lru_rotate_pvecs s2 0 ltac:(done) L). intros. by eapply move_tail_fn_inv. }
  cbn beta. intros n s3 [L3 K3]. apply runs_modify. split; [by apply lru_inv_events|by destruct K3].
Qed.

Lemma deactivate_drain_inv s2 : lru_inv_but lru_deactivate_pvecs s2 →
  runs (pagevec_lru_move_fn lru_deactivate_pvecs lru_deactivate_fn 0;; mret ()) s2 (λ _ s', lru_inv s' ∧ kept s2 s').
Proof.
  intros L. apply runs_bind. eapply runs_mono.
  { apply (move_fn_inv lru_deactivate_fn lru_deactivate_pvecs s2 0 ltac:(done) L). intros. by eapply deactivate_fn_inv. }
  cbn beta. intros n s3 [L3 K3]. by apply runs_ret.
Qed.

(** A page that is on the lists of a zone, or referenced, is neither freed nor about to
    be freed. *)
Lemma not_doomed s p pg : lru_inv s → pages s !! p = Some pg → PageLRU pg = true ∨ _count pg ≠ 0 →
  p ∉ freed s ∧ ∀ n, p ∉ list_at s (doomed n).
Proof.
  intros L Hp Hor. split.
  - intros Hf. destruct (inv_freed _ _ _ _ _ _ (li_inv _ _ _ _ _ _ L) _ Hf) as (_ & _ & pg' & ? & ? & ?). simplify_eq. destruct Hor; congruence.
  - intros n Hin. destruct (inv_page _ _ _ _ _ _ (li_inv _ _ _ _ _ _ L) _ _ Hin ltac:(done)) as (pg' & ? & _ & Hon). simplify_eq.
    destruct Hon as [(? & _)|[(? & _)|(_ & ? & ?)]]; simpl in *; [lia|lia|]. destruct Hor; congruence.
Qed.

Lemma rotate_reclaimable_page_inv s p : lru_inv s → is_Some (pages s !! p) →
  runs (rotate_reclaimable_page p) s (λ _ s', lru_inv s' ∧ kept s s').
Proof.
  intros L [pg Hp]. unfold rotate_reclaimable_page. apply runs_bind. eapply runs_ok; [by apply page_at_run|].
  apply runs_when; [|done]. intros [_ HL]%andb_true_iff.
  destruct (take_lru _ _ _ _ _ _ _ (li_inv _ _ _ _ _ _ L) Hp HL) as [Hc _].
  destruct (not_doomed _ _ _ L Hp ltac:(by left)) as [Hf Hnd].
  apply runs_bind. eapply runs_ok; [by apply get_page_run|].
  eapply push_drain; [done|exact L|done|by apply kept_count|by apply push_other_inv|apply move_tail_drain_inv].
Qed.

Lemma get_page_unless_zero_run s p pg : pages s !! p = Some pg →
  get_page_unless_zero p s =
    if _count pg =? 0 then Ok (false, s) else Ok (true, pset p (set_count (_count pg + 1) pg) s).
Proof.
  intros Hp. unfold get_page_unless_zero. rewrite (bind_Ok _ _ _ _ _ (page_at_run _ _ _ Hp)).
  destruct (_count pg =? 0); [done|]. by rewrite (bind_Ok _ _ _ _ _ (upd_page_run _ _ _ _ Hp)).
Qed.

Lemma deactivate_page_inv s p pg : lru_inv s → pages s !! p = Some pg → PageCompound pg = false →
  runs (deactivate_page p) s (λ _ s', lru_inv s' ∧ kept s s').
Proof.
  intros L Hp Hc. unfold deactivate_page. apply runs_bind. eapply runs_ok; [by apply page_at_run|].
  destruct (PageUnevictable pg); [by apply runs_ret|].
  pose proof (get_page_unless_zero_run _ _ _ Hp) as Hget. destruct (Z.eqb_spec (_count pg) 0) as [|Hz].
  - apply runs_bind. eapply runs_ok; [exact Hget|]. by apply runs_ret.
  - destruct (not_doomed _ _ _ L Hp ltac:(by right)) as [Hf Hnd].
    apply runs_bind. eapply runs_ok; [exact Hget|]. cbn [when].
    eapply push_drain; [done|exact L|done|by apply kept_count|by apply push_other_inv|apply deactivate_drain_inv].
Qed.

Lemma drain_lrus_inv ls : ∀ s, (∀ l, l ∈ ls → 0 <= l <= 4) → lru_inv s →
  runs (drain_lrus ls) s (λ _ s', lru_inv s' ∧ kept s s').
Proof.
  induction ls as [|l ls IH]; intros s Hls L; cbn [drain_lrus]; [by apply runs_ret|].
  apply runs_bind, runs_gets. apply runs_bind. apply (runs_mono _ _ (λ _ s', lru_inv s' ∧ kept s s')).
  - apply runs_when; [|done]. intros _. apply pagevec_lru_add_inv; [apply Hls; left|by apply lru_inv_weaken].
  - intros [] s1 [L1 K1]. eapply runs_mono; [apply IH; [intros; apply Hls; by right|exact L1]|]. cbn beta.
    intros [] s2 [L2 K2]. split; [done|]. by etrans.
Qed.

Lemma lru_add_drain_inv s : lru_inv s → runs lru_add_drain s (λ _ s', lru_inv s' ∧ kept s s').
Proof.
  intros L. unfold lru_add_drain. apply runs_bind. eapply runs_mono; [apply drain_lrus_inv; [|exact L]|].
  { intros l Hl. repeat (apply elem_of_cons in Hl as [->|Hl]; [lia|]). by apply elem_of_nil in Hl. }
  cbn beta. intros [] s1 [L1 K1]. apply runs_bind, runs_gets. apply runs_bind.
  apply (runs_mono _ _ (λ _ s', lru_inv s' ∧ kept s1 s')).
  { apply runs_when; [|done]. intros _. by apply move_tail_drain_inv, lru_inv_weaken. }
  intros [] s2 [L2 K2]. apply runs_bind, runs_gets.
  apply (runs_mono _ _ (λ _ s', lru_inv s' ∧ kept s2 s')).
  { apply runs_when; [|done]. intros _. by apply deactivate_drain_inv, lru_inv_weaken. }
  intros [] s3 [L3 K3]. split; [done|]. etrans; [done|]. by etrans.
Qed.

(** ** Changes that the lists do not see *)

Record lru_same (pg pg' : page) : Prop := LruSame {
  same_shape : shape pg' = shape pg;
  same_lru : PageLRU pg' = PageLRU pg;
  same_active : PageActive pg' = PageActive pg;
  same_unevictable : PageUnevictable pg' = PageUnevictable pg;
  same_count : _count pg' = _count pg;
}.

Lemma lru_same_list pg pg' : lru_same pg pg' → page_lru pg' = page_lru pg ∧ page_zone pg' = page_zone pg ∧
  PageCompound pg' = PageCompound pg ∧ page_is_file_cache pg' = page_is_file_cache pg.
Proof.
  intros [A B C D E]. unfold shape in A. injection A as Z1 C1 S1.
  unfold page_lru, page_lru_base_type, page_is_file_cache. by rewrite C, D, S1.
Qed.

Lemma inv_touch off' ref pend lk s p pg pg' :
  inv None off' ref pend lk s → pages s !! p = Some pg → lru_same pg pg' → inv None off' ref pend lk (pset p pg' s).
Proof.
  intros [H1 H2 H3 H4 H5 H6 H7 H8 H9 H10 H11 H12 H13] Hp Hsame.
  destruct (lru_same_list _ _ Hsame) as (Elru & Ez & Ec & Ef). destruct Hsame as [_ EL EA EU Ecount].
  assert (∀ q, q ≠ p → pages (pset p pg' s) !! q = pages s !! q) as Hne by (intros; simpl; by rewrite lookup_insert_ne).
  assert (pages (pset p pg' s) !! p = Some pg') as Heq by (simpl; by rewrite lookup_insert_eq).
  split; try done.
  - intros h q Hq _. destruct (H3 h q Hq ltac:(done)) as (pgq & E & Hon). destruct (decide (q = p)) as [->|].
    + simplify_eq. exists pg'. split; [done|]. unfold on_list in *. by rewrite Ec, EL, Ez, Elru, Ecount.
    + exists pgq. by rewrite Hne.
  - intros q pgq Hq _ HL. destruct (decide (q = p)) as [->|].
    + rewrite Heq in Hq. injection Hq as <-. rewrite Ez, Elru. apply (H4 p pg Hp); [done|by rewrite <- EL].
    + rewrite Hne in Hq by done. by apply H4.
  - intros q pgq Hq. destruct (decide (q = p)) as [->|].
    + rewrite Heq in Hq. injection Hq as <-. rewrite Ez. exact (H7 p pg Hp).
    + rewrite Hne in Hq by done. by eapply H7.
  - intros q pgq Hq. destruct (decide (q = p)) as [->|].
    + rewrite Heq in Hq. injection Hq as <-. rewrite Ecount. exact (H8 p pg Hp).
    + rewrite Hne in Hq by done. by apply H8.
  - intros q l Hq. destruct (H9 q l Hq) as (_ & Hr' & Hu & pgq & E & Hok). split_and!; try done.
    destruct (decide (q = p)) as [->|]; [|by rewrite Hne; eauto].
    simplify_eq. exists pg'. split; [done|]. unfold pend_ok in *. by rewrite EL, EA, EU, Ec, Ef.
  - intros q Hq. destruct (H11 q Hq) as (_ & Hu & pgq & E & Hz & HL). split_and!; try done.
    destruct (decide (q = p)) as [->|]; [|by rewrite Hne; eauto].
    simplify_eq. exists pg'. by rewrite Ecount, EL.
Qed.

(** ** Pages on no list *)

(** A page that is on no list and waits in no pagevec: a new page, or one that was
    isolated from its list. *)
Record loose (s : lst) (p : Z) (pg : page) : Prop := Loose {
  lo_page : pages s !! p = Some pg;
  lo_lru : PageLRU pg = false;
  lo_compound : PageCompound pg = false;
  lo_unlinked : unlinked s p;
  lo_pend : p ∉ (pend_of s).*1;
  lo_freed : p ∉ freed s;
}.

Lemma take_loose s p pg k : lru_inv s → loose s p pg → refs ex s p + k <= _count pg →
  inv (Some (Hand p pg k None)) off (refs ex s) (pend_of s) None s.
Proof. intros L [A B C D E F] Hk. by apply take; [apply L|..]. Qed.

(** From a state where a page is in hand to the state between calls. *)
Lemma drop_st s s' p pg k loc :
  lru_inv s → inv (Some (Hand p pg k loc)) off (refs ex s) (pend_of s) None s' → 0 <= k →
  match loc with Some h => on_list (refs ex s) h p pg | None => PageLRU pg = false end → frame s s' →
  lru_inv s' ∧ kept s s'.
Proof.
  intros [A B C D] H Hk Hloc F. pose proof F as [FA FB FC FD]. injection FA as FA FS.
  assert (∀ i, pvec_at s' i = pvec_at s i) as Hpv by (intros; unfold pvec_at; by rewrite FA).
  split; [|by apply frame_kept]. split.
  - assert (pend_of s' = pend_of s) as -> by (unfold pend_of; cbn [map]; by rewrite !Hpv).
    apply (inv_ext _ off off (refs ex s)); [done|intros q; unfold refs; cbn [map]; by rewrite !Hpv|].
    by eapply drop.
  - intros i. rewrite Hpv. apply B.
  - intros i q Hi. rewrite Hpv. intros Hq. destruct (C i q Hi Hq) as (pgq & E & Hc).
    destruct (frame_page _ _ _ _ F E) as (pg' & ? & Hs). exists pg'. unfold shape in Hs. split; congruence.
  - intros h Hh. rewrite FC by done. by apply D.
Qed.

Lemma quiet_st s s' : lru_inv s → inv None off (refs ex s) (pend_of s) None s' → frame s s' → lru_inv s' ∧ kept s s'.
Proof.
  intros [A B C D] H F. pose proof F as [FA FB FC FD]. injection FA as FA FS.
  assert (∀ i, pvec_at s' i = pvec_at s i) as Hpv by (intros; unfold pvec_at; by rewrite FA).
  split; [|by apply frame_kept]. split.
  - assert (pend_of s' = pend_of s) as -> by (unfold pend_of; cbn [map]; by rewrite !Hpv).
    apply (inv_ext _ off off (refs ex s)); [done|intros q; unfold refs; cbn [map]; by rewrite !Hpv|done].
  - intros i. rewrite Hpv. apply B.
  - intros i q Hi. rewrite Hpv. intros Hq. destruct (C i q Hi Hq) as (pgq & E & Hc).
    destruct (frame_page _ _ _ _ F E) as (pg' & ? & Hs). exists pg'. unfold shape in Hs. split; congruence.
  - intros h Hh. rewrite FC by done. by apply D.
Qed.

Lemma push_add_inv s p pg l : lru_inv s → loose s p pg → pend_ok l pg →
  lru_inv_but l (push_pvec l p (pset p (set_count (_count pg + 1) pg) s)).
Proof.
  intros L Lo Hok. pose proof L as [A B C D]. set (pg1 := set_count (_count pg + 1) pg). set (s1 := pset p pg1 s).
  pose proof (lo_page _ _ _ Lo) as Hp. pose proof Hok as (_ & _ & _ & Hc & Hl & _).
  assert (pvecs (push_pvec l p s1) = <[l := pvec_at s l ++ [p]]> (pvecs s)) as E by done.
  pose proof (pvec_upd s _ _ _ E) as Hu.
  assert (inv (Some (Hand p pg1 1 None)) off (refs ex s) (pend_of s) None s1) as H1.
  { pose proof (inv_ref _ _ _ _ _ _ A _ _ Hp).
    eapply inv_pset; [by apply (take_loose s p pg 0); [..|lia]|done|subst pg1; simpl; lia|subst pg1; simpl; lia]. }
  pose proof (drop_pend _ _ _ _ _ _ _ _ l H1 ltac:(done) ltac:(exact Hok)) as H2. split.
  - apply (inv_ext _ off _ (ref_add p 1 (refs ex s))); [done| |].
    { intros q. rewrite (refs_upd _ s _ _ _ q E) by lia. rewrite occ_app, occ_cons. unfold ref_add. simpl. case_bool_decide; lia. }
    eapply inv_pend_perm; [|by destruct H2; split].
    rewrite (pend_of_upd s _ _ _ E) by lia. rewrite (pend_of_split s l) by lia. unfold tag. rewrite map_app. simpl.
    solve_Permutation.
  - intros j Hj Hne. rewrite Hu. destruct (decide (l = j)); [done|by apply B].
  - intros j q Hj Hq. assert (∃ pg, pages s !! q = Some pg ∧ PageCompound pg = false) as (pgq & Hq1 & Hq2).
    { rewrite Hu in Hq. destruct (decide (l = j)) as [<-|]; [|by eapply C].
      apply elem_of_app in Hq as [Hq|Hq%list_elem_of_singleton]; [by eapply C|subst; eauto]. }
    destruct (decide (q = p)) as [->|].
    + simplify_eq. exists pg1. simpl. by rewrite lookup_insert_eq.
    + exists pgq. simpl. by rewrite lookup_insert_ne.
  - done.
Qed.

Lemma __lru_cache_add_inv s p pg l : lru_inv s → loose s p pg → pend_ok l pg →
  runs (__lru_cache_add p l) s (λ _ s', lru_inv s' ∧ kept s s').
Proof.
  intros L Lo Hok. pose proof (lo_page _ _ _ Lo) as Hp. pose proof Hok as (_ & _ & _ & Hc & Hl & _).
  unfold __lru_cache_add. apply runs_bind. eapply runs_ok; [by apply get_page_run|].
  eapply push_drain; [lia|exact L|done|by apply kept_count|by apply push_add_inv|].
  intros s2 L2. apply pagevec_lru_add_inv; [lia|done].
Qed.

(** Changing a loose page keeps it loose. *)
Lemma loose_set s p pg pg' : lru_inv s → loose s p pg → PageLRU pg' = false → shape pg' = shape pg →
  _count pg' = _count pg →
  lru_inv (pset p pg' s) ∧ kept s (pset p pg' s) ∧ loose (pset p pg' s) p pg'.
Proof.
  intros L Lo HL Hs Hc. pose proof (lo_page _ _ _ Lo) as Hp. pose proof (inv_ref _ _ _ _ _ _ (li_inv _ _ _ _ _ _ L) _ _ Hp) as Hr.
  assert (page_zone pg' = page_zone pg) as Hz by (unfold shape in Hs; congruence).
  destruct (drop_st s (pset p pg' s) p pg' 0 None) as [L' K]; [done| |done|done|eapply frame_pset; [done|done|right; intros h _; apply Lo]|].
  { eapply inv_pset; [by apply (take_loose s p pg 0); [..|lia]|done|lia|lia]. }
  split; [done|]. split; [done|]. destruct Lo as [_ _ Lc Lu Lp Lf]. split; try done.
  - simpl. by rewrite lookup_insert_eq.
  - unfold shape in Hs. congruence.
Qed.

Lemma lru_cache_add_lru_inv s p pg l : lru_inv s → loose s p pg → PageActive pg && PageUnevictable pg = false →
  0 <= l <= 3 → is_file_lru l = page_is_file_cache pg →
  runs (lru_cache_add_lru p l) s (λ _ s', lru_inv s' ∧ kept s s').
Proof.
  intros L Lo Hau Hl Hf. pose proof (lo_page _ _ _ Lo) as Hp. pose proof (lo_lru _ _ _ Lo) as HL.
  pose proof (lo_compound _ _ _ Lo) as Hc.
  unfold lru_cache_add_lru. apply runs_bind. eapply runs_ok; [by apply page_at_run|].
  assert (∀ b, b = PG_active ∨ b = PG_unevictable → PageActive (ClearPage b pg) = false →
    PageUnevictable (ClearPage b pg) = false → runs (__lru_cache_add p l) (pset p (ClearPage b pg) s)
      (λ _ s', lru_inv s' ∧ kept s s')) as Hrest.
  { intros b Hb Ha Hu. assert (pend_ok l (ClearPage b pg)) as Hok
      by (destruct Hb; subst b; split_and!; try done; try lia; [page_solve..|rewrite Hf; page_solve]).
    destruct (loose_set s p pg (ClearPage b pg)) as (L1 & K1 & Lo1); [done|done|apply Hok| |done|].
    { destruct Hb; subst b; by apply shape_clear. }
    eapply runs_mono; [by eapply __lru_cache_add_inv|]. cbn beta. intros _ s2 [L2 K2]. split; [done|].
    by etrans. }
  destruct (PageActive pg) eqn:Ha; cbn [andb] in Hau.
  - apply runs_bind. eapply runs_ok; [by apply upd_page_run|]. apply (Hrest PG_active); [by left|page_solve|page_solve].
  - destruct (PageUnevictable pg) eqn:Hu; cbn [when]; apply runs_bind.
    + eapply runs_ok; [by apply upd_page_run|]. apply (Hrest PG_unevictable); [by right|page_solve|page_solve].
    + apply runs_ret. by eapply __lru_cache_add_inv.
Qed.

Lemma add_page_to_unevictable_list_inv s p pg : lru_inv s → loose s p pg →
  runs (add_page_to_unevictable_list p) s (λ _ s', lru_inv s' ∧ kept s s' ∧
    pages s' !! p = Some (SetPage PG_lru (SetPage PG_unevictable pg))).
Proof.
  intros L Lo. pose proof (lo_page _ _ _ Lo) as Hp. pose proof (inv_ref _ _ _ _ _ _ (li_inv _ _ _ _ _ _ L) _ _ Hp) as Hr.
  pose proof (lo_compound _ _ _ Lo) as Hc.
  assert (inv (Some (Hand p pg 0 None)) off (refs ex s) (pend_of s) None s) as H0 by (apply take_loose; [done|done|lia]).
  unfold add_page_to_unevictable_list. apply runs_bind. eapply runs_ok; [by apply page_at_run|].
  destruct (hand_zone _ _ _ _ _ _ _ _ _ H0) as (zd & Hz & Hn).
  apply runs_bind. eapply r_lock; [exact H0|exact Hz|]. intros s1 E1 H1. pose proof (hand_at _ _ _ _ _ _ _ _ _ H1) as A1.
  apply runs_bind. eapply r_flag; [exact H1|done|done|]. intros s2 E2 H2. pose proof (hand_at _ _ _ _ _ _ _ _ _ H2) as A2.
  apply runs_bind. eapply r_flag; [exact H2|done|done|]. intros s3 E3 H3.
  apply runs_bind. eapply add_page_to_lru_list_inv; [exact H3|done|done|]. intros s4 F4 H4.
  destruct (hand_zone _ _ _ _ _ _ _ _ _ H4) as (zd4 & Hz4 & _).
  eapply r_unlock; [exact H4|by eexists|]. intros s5 zd5 _ E5 H5.
  pose proof (hand_at _ _ _ _ _ _ _ _ _ H5) as A5. rewrite (assoc (∧)). split; [|done].
  eapply drop_st; [exact L|exact H5|done| |frame_solve]. set (pg' := SetPage PG_lru _) in *.
  replace LRU_UNEVICTABLE with (page_lru pg') by (subst pg'; page_solve).
  apply (on_lru_list _ p pg'); [subst pg'; page_solve|subst pg'; page_solve|done].
Qed.

Lemma activate_page_inv s p pg : lru_inv s → pages s !! p = Some pg →
  runs (activate_page p) s (λ _ s', lru_inv s' ∧ kept s s').
Proof.
  intros L Hp. unfold activate_page. apply runs_bind. eapply runs_ok; [by apply page_at_run|].
  destruct (inv_zone _ _ _ _ _ _ (li_inv _ _ _ _ _ _ L) _ _ Hp) as [[zd Hz] Hn].
  apply runs_bind. eapply r_lock; [apply L|exact Hz|]. intros s1 E1 H1.
  apply runs_bind. eapply runs_mono; [eapply activate_fn_inv; [exact H1|by subst]|]. cbn beta.
  intros a s2 (_ & H2 & F2). assert (frame s s2) as F by frame_solve.
  destruct (frame_page _ _ _ _ F Hp) as (pg2 & Hp2 & Hs2).
  eapply r_unlock; [exact H2| |].
  - destruct (inv_zone _ _ _ _ _ _ H2 _ _ Hp2) as [? _]. unfold shape in Hs2.
    by replace (page_zone pg) with (page_zone pg2) by congruence.
  - intros s3 zd3 _ E3 H3. apply quiet_st; [done|done|frame_solve].
Qed.

Lemma touch_inv s p pg pg' : lru_inv s → pages s !! p = Some pg → lru_same pg pg' → flags pg' = flags pg →
  lru_inv (pset p pg' s) ∧ kept s (pset p pg' s).
Proof.
  intros L Hp Hs Hf. apply quiet_st; [done| |eapply frame_pset; [done|apply Hs|by left]].
  eapply inv_touch; [apply L|done|done].
Qed.

Lemma mark_page_accessed_inv s p pg : lru_inv s → pages s !! p = Some pg →
  runs (mark_page_accessed p) s (λ _ s', lru_inv s' ∧ kept s s').
Proof.
  intros L Hp. unfold mark_page_accessed. apply runs_bind. eapply runs_ok; [by apply page_at_run|].
  apply runs_bind. apply (runs_mono _ _ (λ _ s', lru_inv s' ∧ kept s s')).
  - apply runs_when; [|done]. intros _. by eapply activate_page_inv.
  - intros [] s1 [L1 K1]. destruct (kept_page _ _ _ _ K1 Hp) as (pg1 & Hp1 & _).
    eapply runs_ok; [by apply upd_page_run|].
    destruct (touch_inv s1 p pg1 (set_PG_referenced 0 pg1) L1 Hp1) as [L2 K2]; [done|done|]. split; [done|].
    by etrans.
Qed.

(** ** Dropping a reference of the caller *)

Lemma inv_grow off' ref pend lk s p pg :
  inv None off' ref pend lk s → pages s !! p = Some pg → ref p + 1 <= _count pg → (∀ n, p ∉ list_at s (held n)) →
  inv None off' (ref_add p 1 ref) pend lk s.
Proof.
  intros [H1 H2 H3 H4 H5 H6 H7 H8 H9 H10 H11 H12 H13] Hp Hr Hnh.
  assert (∀ q, ref q <= ref_add p 1 ref q) as Hle by (intros q; unfold ref_add; case_bool_decide; lia).
  split; try done.
  - intros h q Hq _. destruct (H3 h q Hq ltac:(done)) as (pgq & E & Hc & Hon). exists pgq. split; [done|]. split; [done|].
    destruct (decide (q = p)) as [->|]; [|by rewrite ref_add_ne].
    destruct Hon as [?|[(Hh & _)|?]]; [by left| |by right; right].
    destruct h as [a n]; simpl in Hh; subst a. by destruct (Hnh n).
  - intros q pgq Hq. pose proof (H8 _ _ Hq). destruct (decide (q = p)) as [->|]; [|by rewrite ref_add_ne].
    simplify_eq. rewrite ref_add_eq. lia.
  - intros q l Hq. destruct (H9 q l Hq) as (? & ? & ?). split; [done|]. split; [|done]. specialize (Hle q). lia.
Qed.

(** The page in hand, without references, goes to the page allocator. *)
Lemma drop_freed off' ref pend lk s p pg :
  inv (Some (Hand p pg 0 None)) off' ref pend lk s → PageLRU pg = false → _count pg = 0 →
  inv None off' ref pend lk (set_freed (p :: freed s) s).
Proof.
  intros H HL H0. pose proof (drop _ _ _ _ _ _ _ _ _ H ltac:(done) HL) as D.
  destruct (inv_hand _ _ _ _ _ _ H _ eq_refl) as (Hp & _ & Hu). simpl in *.
  destruct D as [H1 H2 H3 H4 H5 H6 H7 H8 H9 H10 H11 H12 H13]. split; try done.
  - intros q [->|Hq]%elem_of_cons; [|by apply H11]. split_and!; [done|done|by exists pg].
  - simpl. constructor; [|done]. intros Hf. destruct (inv_freed _ _ _ _ _ _ H _ Hf) as (Hx & _). by apply (Hx _ eq_refl).
Qed.

(** What [put_page] needs: the page is a page of its own, not held on a local list, and
    has a reference that no pagevec accounts for. *)
Record puttable (s : lst) (p : Z) (pg : page) : Prop := Puttable {
  pu_page : pages s !! p = Some pg;
  pu_compound : PageCompound pg = false;
  pu_ref : refs ex s p + 1 <= _count pg;
  pu_held n : p ∉ list_at s (held n);
}.

Lemma put_page_inv s p pg : lru_inv s → puttable s p pg → runs (put_page p) s (λ _ s', lru_inv s' ∧ kept s s').
Proof.
  intros L [Hp Hc Hr Hh]. pose proof (li_inv _ _ _ _ _ _ L) as A. pose proof (inv_ref _ _ _ _ _ _ A _ _ Hp) as Hr0.
  unfold put_page. apply runs_bind. eapply runs_ok; [by apply page_at_run|]. rewrite Hc.
  apply runs_bind. eapply runs_ok; [by apply put_page_testzero_run|].
  set (ref' := ref_add p 1 (refs ex s)).
  assert (ref' p = refs ex s p + 1) as Er by apply ref_add_eq.
  pose proof (inv_grow _ _ _ _ _ _ _ A Hp Hr Hh) as A'. fold ref' in A'.
  assert (waits (pend_of s) p + 1 <= ref' p) as Hw.
  { unfold waits. case_bool_decide as Hin; [|lia]. apply list_elem_of_fmap in Hin as ([q l] & -> & Hin).
    destruct (inv_pend _ _ _ _ _ _ A _ _ Hin) as (_ & ? & _). simpl in *. lia. }
  assert (1 <= ref' p ∧ (p ∈ (pend_of s).*1 → 2 <= ref' p)) as [Hw1 Hw2].
  { split; [lia|]. intros Hin. unfold waits in Hw. rewrite bool_decide_eq_true_2 in Hw by done. lia. }
  set (pg1 := set_count (_count pg - 1) pg). set (s1 := pset p pg1 s).
  assert (inv None off (refs ex s) (pend_of s) None s1) as H1.
  { eapply inv_ext; [done| |by apply (inv_put _ _ _ _ _ _ _ A' Hp Hw1 Hw2)]. intros q. unfold ref', ref_add.
    case_bool_decide; lia. }
  assert (frame s s1) as F1 by (by apply frame_count).
  apply runs_when; [|intros _; by apply quiet_st]. intros Hz%Z.eqb_eq.
  destruct (last_ref _ _ _ _ _ _ _ A' Hp Hw1 Hw ltac:(lia)) as (Hnp & Hnf & Hu).
  assert (pages s1 !! p = Some pg1) as Hp1 by (simpl; by rewrite lookup_insert_eq).
  assert (_count pg1 = 0) as Hz1 by (simpl; lia).
  unfold __put_single_page. apply runs_bind.
  apply (runs_mono _ _ (λ _ s', ∃ pg', inv (Some (Hand p pg' 0 None)) off (refs ex s) (pend_of s) None s' ∧ PageLRU pg' = false ∧
    _count pg' = 0 ∧ frame s s')).
  - unfold __page_cache_release. apply runs_bind. eapply runs_ok; [by apply page_at_run|]. apply runs_when.
    + intros HL. destruct (take_lru _ _ _ _ _ _ _ H1 Hp1 HL) as [_ H2].
      destruct (hand_zone _ _ _ _ _ _ _ _ _ H2) as (zd & Hzd & _).
      apply runs_bind. eapply r_lock; [exact H2|exact Hzd|]. intros s2 E2 I2.
      eapply take_off_lru_inv; [exact I2|done|]. intros s3 pg3 F3 _ I3 Z3 L3 K3 C3.
      destruct (hand_zone _ _ _ _ _ _ _ _ _ I3) as (zd3 & Hzd3 & _). rewrite Z3 in Hzd3.
      eapply r_unlock; [exact I3|by eexists|]. intros s4 zd4 _ E4 I4. exists pg3. split_and!; [done|done|by rewrite C3|].
      frame_solve.
    + intros HL. exists pg1. split_and!; [|done|done|done]. apply take; [done|done|done|done| |by apply Hu].
      pose proof (inv_ref _ _ _ _ _ _ A _ _ Hp). lia.
  - intros [] s2 (pg2 & I2 & L2 & C2 & F2). apply runs_modify. apply quiet_st; [done|by eapply drop_freed|].
    etrans; [exact F2|by apply frame_same].
Qed.
End api.
