(* ===== verification/Rmap.v ===== *)
(** * References to a page through page tables

    Models [page_referenced] of [mm/rmap.c] and the page lock.  The reverse map of a
    page is the list of areas of its [anon_vma] or of its file, in the order in which
    the code visits them. *)

From S2P Require Import Prelude Lru.

Definition VM_EXEC : Z := 0x4.
Definition VM_LOCKED : Z := 0x2000.
Definition VM_SEQ_READ : Z := 0x8000.

Definition VM_SequentialReadHint (vm_flags : Z) : bool := negb (Z.land vm_flags VM_SEQ_READ =? 0).

Definition trylock_page (p : Z) : M lst bool :=
  pg ← page_at p;
  upd_page p (SetPage PG_locked);;
  mret (negb (PageLocked pg)).

Definition unlock_page (p : Z) : M lst () := upd_page p (ClearPage PG_locked).

(** One area: the number of references, what is left of [mapcount], the flags collected
    and the area with its young bit cleared. *)
Definition page_referenced_one (a : rarea) (mapcount vm_flags : Z) : Z * Z * Z * rarea :=
  match ra_young a with
  | None => (0, mapcount, vm_flags, a)
  | Some young =>
      if negb (Z.land (ra_flags a) VM_LOCKED =? 0) then (0, 0, Z.lor vm_flags VM_LOCKED, a)
      else
        let referenced := (if young && negb (VM_SequentialReadHint (ra_flags a)) then 1 else 0) +
                          (if ra_token a then 1 else 0) in
        (referenced, u32 (mapcount - 1),
         if referenced =? 0 then vm_flags else Z.lor vm_flags (ra_flags a),
         RArea (ra_flags a) (ra_covers a) (Some false) (ra_token a))
  end.

(** The loop of [page_referenced_anon] and [page_referenced_file]. *)
Fixpoint page_referenced_loop (l : list rarea) (mapcount vm_flags : Z) : Z * Z * list rarea :=
  match l with
  | [] => (0, vm_flags, [])
  | a :: l =>
      if negb (ra_covers a) then
        let '(r, f, l') := page_referenced_loop l mapcount vm_flags in (r, f, a :: l')
      else
        let '(r, mapcount', vm_flags', a') := page_referenced_one a mapcount vm_flags in
        if mapcount' =? 0 then (r, vm_flags', a' :: l)
        else
          let '(r', f, l') := page_referenced_loop l mapcount' vm_flags' in (r + r', f, a' :: l')
  end.

(** [page_referenced_anon] and [page_referenced_file]; the number of references and the
    flags of the areas. *)
Definition page_referenced_rmap (p mapcount : Z) : M lst (Z * Z) :=
  m ← gets rmaps;
  let '(r, f, l') := page_referenced_loop (default [] (m !! p)) mapcount 0 in
  modify (λ s, set_rmaps (<[p := l']> (rmaps s)) s);;
  mret (r, f).

Definition page_referenced (p : Z) (is_locked : bool) : M lst (Z * Z) :=
  pg ← page_at p;
  match page_mapped pg, mapping pg with
  | true, AnonMap _ => page_referenced_rmap p (page_mapcount pg)
  | true, FileMap _ =>
      if is_locked then
        bug_on 846 (negb (PageLocked pg));;
        page_referenced_rmap p (page_mapcount pg)
      else
        we_locked ← trylock_page p;
        if negb we_locked then mret (1, 0)
        else
          r ← page_referenced_rmap p (page_mapcount pg);
          unlock_page p;;
          mret r
  | _, _ => mret (0, 0)
  end.

(** ** What [page_referenced] counts *)

Definition mapped_areas (l : list rarea) : list rarea :=
  filter (λ a, ra_covers a = true ∧ is_Some (ra_young a)) l.

Definition locked (a : rarea) : bool := negb (Z.land (ra_flags a) VM_LOCKED =? 0).

Definition refs_in (a : rarea) : Z :=
  if ra_covers a then
    match ra_young a with
    | Some young => (if young && negb (VM_SequentialReadHint (ra_flags a)) then 1 else 0) + (if ra_token a then 1 else 0)
    | None => 0
    end
  else 0.

Definition total_refs (l : list rarea) : Z := foldr (λ a n, refs_in a + n) 0 l.

Definition aged (a : rarea) : rarea :=
  match ra_young a with
  | Some _ => if ra_covers a then RArea (ra_flags a) (ra_covers a) (Some false) (ra_token a) else a
  | None => a
  end.

Lemma refs_in_nonneg a : 0 <= refs_in a.
Proof. unfold refs_in. repeat case_match; lia. Qed.

Lemma total_refs_nonneg l : 0 <= total_refs l.
Proof. induction l as [|a l IH]; simpl; [lia|]. pose proof (refs_in_nonneg a). lia. Qed.

(** The flags of the areas that count. *)
Definition ref_flags (l : list rarea) (f : Z) : Z :=
  foldl (λ f a, if refs_in a =? 0 then f else Z.lor f (ra_flags a)) f l.

(** Areas that are not mapped give nothing. *)
Lemma unmapped_tail l f : mapped_areas l = [] → total_refs l = 0 ∧ ref_flags l f = f ∧ map aged l = l.
Proof.
  unfold mapped_areas. revert f. induction l as [|a l IH]; intros f; [done|].
  destruct (decide (ra_covers a = true ∧ is_Some (ra_young a))) as [H|H];
    [rewrite filter_cons_True by done; done|rewrite filter_cons_False by done].
  intros E. assert (refs_in a = 0 ∧ aged a = a) as [Hr Ha].
  { unfold refs_in, aged. destruct (ra_covers a), (ra_young a) as [y|]; try done. by destruct H. }
  destruct (IH f E) as (IH1 & IH2 & IH3). unfold ref_flags in *. simpl. by rewrite Hr, Ha, IH1, IH3.
Qed.

(** When no area is locked and [mapcount] is the number of areas that map the page, the
    loop counts the references of all of them and clears every young bit. *)
Lemma page_referenced_loop_spec l : ∀ mapcount f,
  Forall (λ a, locked a = false) l → Z.of_nat (length (mapped_areas l)) = mapcount → 0 < mapcount < 2 ^ 32 →
  page_referenced_loop l mapcount f = (total_refs l, ref_flags l f, map aged l).
Proof.
  induction l as [|a l IH]; intros mc f Hl Hmc Hr; [simpl in Hmc; lia|].
  apply Forall_cons in Hl as [Ha Hl]. cbn [page_referenced_loop]. unfold mapped_areas in Hmc.
  destruct (ra_covers a) eqn:Hc; cbn [negb].
  - unfold page_referenced_one. destruct (ra_young a) as [y|] eqn:Hy.
    + rewrite filter_cons_True in Hmc by (split; [done|by eexists]). unfold locked in Ha. rewrite Ha.
      change (length (a :: filter (λ a, ra_covers a = true ∧ is_Some (ra_young a)) l))
        with (S (length (mapped_areas l))) in Hmc.
      set (n := (if y && _ then 1 else 0) + _).
      assert (refs_in a = n) as Hn by (unfold refs_in; by rewrite Hc, Hy).
      assert (aged a = RArea (ra_flags a) (ra_covers a) (Some false) (ra_token a)) as Hag by (unfold aged; by rewrite Hy, Hc).
      rewrite u32_id by (unfold is_u32; lia). simpl. unfold ref_flags. simpl. rewrite Hn, Hag.
      destruct (Z.eqb_spec (mc - 1) 0) as [Hz|Hz].
      * assert (mapped_areas l = []) as E by (destruct (mapped_areas l); simpl in *; [done|lia]).
        destruct (unmapped_tail l (if n =? 0 then f else Z.lor f (ra_flags a)) E) as (-> & Hrf & ->).
        unfold ref_flags in Hrf. by rewrite Hrf, Z.add_0_r.
      * rewrite IH; [done|done|lia|lia].
    + rewrite filter_cons_False in Hmc by (intros [_ [??]]; congruence). cbn [fst snd].
      rewrite (proj2 (Z.eqb_neq mc 0)) by lia. rewrite IH by done. simpl.
      assert (refs_in a = 0) as Hn by (unfold refs_in; by rewrite Hc, Hy). unfold ref_flags. simpl. rewrite Hn.
      assert (aged a = a) as -> by (unfold aged; by rewrite Hy). done.
  - rewrite filter_cons_False in Hmc by (intros [? _]; congruence). rewrite IH by done. simpl.
    assert (refs_in a = 0) as Hn by (unfold refs_in; by rewrite Hc). unfold ref_flags. simpl. rewrite Hn.
    assert (aged a = a) as -> by (unfold aged; rewrite Hc; by destruct (ra_young a)). done.
Qed.

(** The page is mapped by the areas of [l], none of which is locked in memory. *)
Record rmap_ok (s : lst) (p : Z) (pg : page) (l : list rarea) : Prop := RmapOk {
  ro_page : pages s !! p = Some pg;
  ro_mapping : mapping pg ≠ NoMap;
  ro_areas : default [] (rmaps s !! p) = l;
  ro_count : Z.of_nat (length (mapped_areas l)) = page_mapcount pg;
  ro_mapped : 0 < page_mapcount pg < 2 ^ 32;
  ro_unlocked : Forall (λ a, locked a = false) l;
}.

Lemma set_clear_locked pg : PageLocked pg = false → ClearPage PG_locked (SetPage PG_locked pg) = pg.
Proof.
  intros H. unfold ClearPage, SetPage, set_flags. destruct pg as [f c m mp fp z r]. simpl in *.
  unfold PageLocked in H. simpl in H. f_equal. apply Z.bits_inj'. intros n Hn.
  rewrite Z.clearbit_eqb, Z.setbit_eqb by done. destruct (Z.eqb_spec PG_locked n) as [<-|]; simpl.
  - by rewrite H.
  - by rewrite andb_true_r.
Qed.

Lemma page_referenced_run s p pg l is_locked : rmap_ok s p pg l → PageLocked pg = is_locked →
  page_referenced p is_locked s = Ok ((total_refs l, ref_flags l 0), set_rmaps (<[p := map aged l]> (rmaps s)) s).
Proof.
  intros [Hp Hm Hl Hc Hr Hu] Hlock. unfold page_referenced.
  assert (∀ s1, rmaps s1 = rmaps s → page_referenced_rmap p (page_mapcount pg) s1 =
    Ok ((total_refs l, ref_flags l 0), set_rmaps (<[p := map aged l]> (rmaps s1)) s1)) as Hrun.
  { intros s1 E1. unfold page_referenced_rmap. erewrite bind_Ok by done. rewrite E1, Hl.
    rewrite (page_referenced_loop_spec l _ 0 Hu Hc Hr). erewrite bind_Ok by done. by rewrite ret_Ok, E1. }
  erewrite bind_Ok by (unfold page_at; erewrite bind_Ok by done; by rewrite Hp).
  assert (page_mapped pg = true) as -> by (unfold page_mapped, page_mapcount in *; apply Z.leb_le; lia).
  destruct (mapping pg) as [|av|m]; [done|by apply Hrun|]. destruct is_locked.
  { rewrite Hlock. erewrite bind_Ok by done. by apply Hrun. }
  assert (trylock_page p s = Ok (true, set_pages (<[p := SetPage PG_locked pg]> (pages s)) s)) as Htry.
  { unfold trylock_page, upd_page, page_at. erewrite bind_Ok by (erewrite bind_Ok by done; by rewrite Hp).
    erewrite bind_Ok by (erewrite bind_Ok by (erewrite bind_Ok by done; by rewrite Hp); done). by rewrite Hlock. }
  erewrite bind_Ok by exact Htry. cbn [negb]. erewrite bind_Ok by (by apply Hrun).
  assert (∀ s1, pages s1 !! p = Some (SetPage PG_locked pg) →
    unlock_page p s1 = Ok ((), set_pages (<[p := pg]> (pages s1)) s1)) as Hun.
  { intros s1 E1. unfold unlock_page, upd_page, page_at.
    erewrite bind_Ok by (erewrite bind_Ok by done; by rewrite E1). by rewrite set_clear_locked. }
  erewrite bind_Ok by (apply Hun; simpl; by rewrite lookup_insert_eq). rewrite ret_Ok. destruct s as [pgs ? ? ? ? ? ? ? ? ?]. simpl.
  do 2 f_equal. f_equal. unfold set_rmaps. simpl. f_equal. rewrite insert_insert_eq. by rewrite insert_id.
Qed.

Lemma total_refs_pos l a : a ∈ l → 0 < refs_in a → 0 < total_refs l.
Proof.
  induction l as [|b l IH]; [by intros ?%elem_of_nil|]. simpl. intros [->|Ha]%elem_of_cons Hp.
  - pose proof (total_refs_nonneg l). lia.
  - pose proof (refs_in_nonneg b). specialize (IH Ha Hp). lia.
Qed.

(** [page_referenced] returns the number of references to a mapped page through its
    page tables, clears every young bit, and its result is positive whenever some area
    that maps the page was accessed other than sequentially; it is not always 0. *)
Theorem page_referenced_counts s p pg l is_locked :
  rmap_ok s p pg l → PageLocked pg = is_locked →
  page_referenced p is_locked s = Ok ((total_refs l, ref_flags l 0), set_rmaps (<[p := map aged l]> (rmaps s)) s) ∧
  (∀ a, a ∈ l → ra_covers a = true → ra_young a = Some true → VM_SequentialReadHint (ra_flags a) = false →
     0 < total_refs l).
Proof.
  intros H Hl. split; [by apply (page_referenced_run s p pg)|]. intros a Ha Hc Hy Hs. apply (total_refs_pos l a Ha).
  unfold refs_in. rewrite Hc, Hy, Hs. simpl. destruct (ra_token a); lia.
Qed.

Definition demo_areas : list rarea := [RArea 0x75 true (Some true) false; RArea 0x71 true (Some false) false].

Definition demo_rmap : lst :=
  LSt {[ 7 := Page 0x20 2 1 (FileMap 3) 0 0 0 ]} ∅ ∅ ∅ ∅ ∅ [] {[ 7 := demo_areas ]} 0 (SlabState ∅ None) (PgData 1 0 0 false).

Lemma page_referenced_counts_witness :
  page_referenced 7 false demo_rmap =
    Ok ((1, 0x75), set_rmaps (<[7 := map aged demo_areas]> (rmaps demo_rmap)) demo_rmap) ∧ 0 < total_refs demo_areas.
Proof.
  assert (rmap_ok demo_rmap 7 (Page 0x20 2 1 (FileMap 3) 0 0 0) demo_areas) as H.
  { split; [done|done|done|done|done|by repeat constructor]. }
  destruct (page_referenced_counts demo_rmap 7 (Page 0x20 2 1 (FileMap 3) 0 0 0) demo_areas false H eq_refl)
    as [H1 H2].
  split; [exact H1|]. by apply (H2 (RArea 0x75 true (Some true) false)); [left|..].
Defined.
