(* ===== verification/Vmscan.v ===== *)
(** * Page reclaim: scanning the lists

    Models [mm/vmscan.c] for a kernel without memory control groups, compaction and
    NUMA: isolating pages, the decision by references and by the counter
    [PG_referenced], shrinking the inactive and the active list and putting pages back.

    The functions that write, unmap and swap pages are operations of the class
    [Reclaim]; what the scan relies on is stated where theorems need it. *)

From S2P Require Import Prelude Lru Rmap.

Definition PG_REFERENCED_SHRINK_THRESHOLD : Z := 2.
Definition SWAP_CLUSTER_MAX : Z := 32.
Definition DEF_PRIORITY : Z := 12.
Definition PAGE_ALLOC_COSTLY_ORDER : Z := 3.

Definition RECLAIM_MODE_SINGLE : Z := 0x01.
Definition RECLAIM_MODE_ASYNC : Z := 0x02.
Definition RECLAIM_MODE_SYNC : Z := 0x04.
Definition RECLAIM_MODE_LUMPYRECLAIM : Z := 0x08.

Definition __GFP_HIGHMEM : Z := 0x02.
Definition __GFP_IO : Z := 0x40.
Definition __GFP_FS : Z := 0x80.

Definition has (x bits : Z) : bool := negb (Z.land x bits =? 0).

Record scan_control := ScanControl {
  nr_scanned : Z;
  nr_reclaimed : Z;
  nr_to_reclaim : Z;
  hibernation_mode : bool;
  gfp_mask : Z;
  may_writepage : bool;
  may_unmap : bool;
  may_swap : bool;
  order : Z;
  reclaim_mode : Z;
}.

Definition set_mode (m : Z) (sc : scan_control) : scan_control :=
  ScanControl (nr_scanned sc) (nr_reclaimed sc) (nr_to_reclaim sc) (hibernation_mode sc) (gfp_mask sc)
    (may_writepage sc) (may_unmap sc) (may_swap sc) (order sc) m.

Definition add_scanned (n : Z) (sc : scan_control) : scan_control :=
  ScanControl (u32 (nr_scanned sc + n)) (nr_reclaimed sc) (nr_to_reclaim sc) (hibernation_mode sc) (gfp_mask sc)
    (may_writepage sc) (may_unmap sc) (may_swap sc) (order sc) (reclaim_mode sc).

(** The task that reclaims, the state of swapping, and the operations on pages that are
    not modelled. *)
Class Reclaim := {
  current_is_kswapd : bool;
  pf_swapwrite : bool;
  current_space : option Z;
  fatal_signal_pending : bool;
  total_swap_pages : Z;
  vm_swappiness : Z;
  buffer_heads_over_limit : bool;
  congestion_wait : M lst ();
  wait_on_page_writeback : Z → M lst ();
  writepage : Z → M lst Z;
  try_to_unmap : Z → M lst Z;
  add_to_swap : Z → M lst bool;
  try_to_free_swap : Z → M lst ();
  try_to_release_page : Z → Z → M lst bool;
  try_to_free_buffers : Z → M lst bool;
  swapcache_free : Z → M lst ();
  freepage : Z → M lst ();
}.

Definition set_reclaim_mode (priority : Z) (sync : bool) (sc : scan_control) : scan_control :=
  let syncmode := if sync then RECLAIM_MODE_SYNC else RECLAIM_MODE_ASYNC in
  if PAGE_ALLOC_COSTLY_ORDER <? order sc then set_mode (Z.lor RECLAIM_MODE_LUMPYRECLAIM syncmode) sc
  else if negb (order sc =? 0) && (priority <? DEF_PRIORITY - 2)
    then set_mode (Z.lor RECLAIM_MODE_LUMPYRECLAIM syncmode) sc
  else set_mode (Z.lor RECLAIM_MODE_SINGLE RECLAIM_MODE_ASYNC) sc.

Definition reset_reclaim_mode (sc : scan_control) : scan_control :=
  set_mode (Z.lor RECLAIM_MODE_SINGLE RECLAIM_MODE_ASYNC) sc.

(** [page_count] of a page that is not compound. *)
Definition is_page_cache_freeable (pg : page) : bool := _count pg - b2z (page_has_private pg) =? 2.

Section vmscan.
Context `{Reclaim}.

Definition space_at (m : Z) : M lst address_space := sp ← gets spaces; of_option (BadAddr m) (sp !! m).

(** [mapping] stands for its device: two spaces share a device only if they are equal. *)
Definition may_write_to_queue (m : Z) (a : address_space) (sc : scan_control) : bool :=
  if pf_swapwrite then true
  else if negb (as_congested a) then true
  else if bool_decide (current_space = Some m) then true
  else PAGE_ALLOC_COSTLY_ORDER <? order sc.

Definition set_error (a : address_space) : address_space :=
  AddressSpace (as_unevictable a) (as_writepage a) (as_freepage a) (as_migratepage a) (as_congested a) true.

(** [lock_page] waits for the page; the model takes the lock. *)
Definition handle_write_error (m p : Z) : M lst () :=
  upd_page p (SetPage PG_locked);;
  pg ← page_at p;
  when (bool_decide (page_mapping pg = Some m))
    (modify (λ s, set_spaces (alter set_error m (spaces s)) s));;
  unlock_page p.

Inductive pageout_t := PAGE_KEEP | PAGE_ACTIVATE | PAGE_SUCCESS | PAGE_CLEAN.

Definition AOP_WRITEPAGE_ACTIVATE : Z := 0x80000.

Definition clear_page_dirty_for_io (p : Z) : M lst bool :=
  pg ← page_at p;
  upd_page p (ClearPage PG_dirty);;
  mret (PageDirty pg).

Definition pageout (p : Z) (m : option Z) (sc : scan_control) : M lst pageout_t :=
  pg ← page_at p;
  if negb (is_page_cache_freeable pg) then mret PAGE_KEEP
  else
    match m with
    | None =>
        if page_has_private pg then
          freed ← try_to_free_buffers p;
          if (freed : bool) then upd_page p (ClearPage PG_dirty);; mret PAGE_CLEAN
          else mret PAGE_KEEP
        else mret PAGE_KEEP
    | Some m =>
        a ← space_at m;
        if negb (as_writepage a) then mret PAGE_ACTIVATE
        else if negb (may_write_to_queue m a sc) then mret PAGE_KEEP
        else
          dirty ← clear_page_dirty_for_io p;
          if (dirty : bool) then
            upd_page p (SetPage PG_reclaim);;
            res ← writepage p;
            when (res <? 0) (handle_write_error m p);;
            if res =? AOP_WRITEPAGE_ACTIVATE then
              upd_page p (ClearPage PG_reclaim);;
              mret PAGE_ACTIVATE
            else
              pg ← page_at p;
              when (negb (PageWriteback pg)) (upd_page p (ClearPage PG_reclaim));;
              __mod_zone_page_state (page_zone pg) NR_VMSCAN_WRITE 1;;
              mret PAGE_SUCCESS
          else mret PAGE_CLEAN
    end.

Definition page_freeze_refs (p count : Z) : M lst bool :=
  pg ← page_at p;
  if _count pg =? count then upd_page p (set_count 0);; mret true else mret false.

Definition page_unfreeze_refs (p count : Z) : M lst () := upd_page p (set_count count).

Definition NR_SHMEM : Z := 23.

Definition __delete_from_page_cache (p : Z) : M lst () :=
  pg ← page_at p;
  upd_page p (set_mapping NoMap);;
  __mod_zone_page_state (page_zone pg) NR_FILE_PAGES (-1);;
  when (PageSwapBacked pg) (__mod_zone_page_state (page_zone pg) NR_SHMEM (-1));;
  bug_on 134 (page_mapped pg).

Definition __delete_from_swap_cache (p : Z) : M lst () :=
  pg ← page_at p;
  upd_page p (ClearPage PG_swapcache);;
  __mod_zone_page_state (page_zone pg) NR_FILE_PAGES (-1).

Definition __remove_mapping (m p : Z) : M lst bool :=
  pg ← page_at p;
  bug_on 587 (negb (PageLocked pg));;
  bug_on 588 (negb (bool_decide (page_mapping pg = Some m)));;
  frozen ← page_freeze_refs p 2;
  if negb frozen then mret false
  else if PageDirty pg then page_unfreeze_refs p 2;; mret false
  else
    (if PageSwapCache pg then
       __delete_from_swap_cache p;;
       swapcache_free p
     else
       a ← space_at m;
       __delete_from_page_cache p;;
       when (as_freepage a) (freepage p));;
    mret true.

Definition remove_mapping (m p : Z) : M lst bool :=
  removed ← __remove_mapping m p;
  if (removed : bool) then page_unfreeze_refs p 1;; mret true else mret false.

Definition page_evictable (pg : page) : M lst bool :=
  match page_mapping pg with
  | None => mret (negb (PageMlocked pg))
  | Some m => a ← space_at m; mret (negb (as_unevictable a) && negb (PageMlocked pg))
  end.

Definition isolate_lru_page (p : Z) : M lst Z :=
  pg ← page_at p;
  if PageLRU pg then
    let z := page_zone pg in
    spin_lock_irq z;;
    let lru := page_lru pg in
    get_page p;;
    upd_page p (ClearPage PG_lru);;
    del_page_from_lru_list z p lru;;
    spin_unlock_irq z;;
    mret 0
  else mret (- EBUSY).

(** The part of [putback_lru_page] from the label [redo]; [n] bounds the jumps back,
    which happen only when another task makes the page evictable meanwhile. *)
Fixpoint putback_redo (n : nat) (p : Z) (active : bool) : M lst Z :=
  match n with
  | O => fail NoFuel
  | S n =>
      upd_page p (ClearPage PG_unevictable);;
      pg ← page_at p;
      evictable ← page_evictable pg;
      lru ← (if (evictable : bool) then
               let lru := b2z active + page_lru_base_type pg in
               lru_cache_add_lru p lru;;
               mret lru
             else
               add_page_to_unevictable_list p;;
               mret LRU_UNEVICTABLE);
      pg ← page_at p;
      evictable ← page_evictable pg;
      if (lru =? LRU_UNEVICTABLE) && evictable then
        ret ← isolate_lru_page p;
        if ret =? 0 then put_page p;; putback_redo n p active else mret lru
      else mret lru
  end.

Definition putback_lru_page (p : Z) : M lst () :=
  pg ← page_at p;
  let active := PageActive pg in
  upd_page p (ClearPage PG_active);;
  let was_unevictable := PageUnevictable pg in
  lru ← putback_redo 1 p active;
  (if was_unevictable && negb (lru =? LRU_UNEVICTABLE) then count_vm_event "UNEVICTABLE_PGRESCUED"
   else when (negb was_unevictable && (lru =? LRU_UNEVICTABLE)) (count_vm_event "UNEVICTABLE_PGCULLED"));;
  put_page p.

Inductive page_references := PAGEREF_RECLAIM | PAGEREF_RECLAIM_CLEAN | PAGEREF_KEEP | PAGEREF_ACTIVATE.

#[global] Instance page_references_eq_dec : EqDecision page_references.
Proof. solve_decision. Defined.

Definition page_check_references (p : Z) (sc : scan_control) : M lst page_references :=
  r ← page_referenced p true;
  let referenced_ptes := r.1 in
  let vm_flags := r.2 in
  pg ← page_at p;
  let referenced_time := PG_referenced pg in
  upd_page p (set_PG_referenced (u32 (PG_referenced pg + 1)));;
  if has (reclaim_mode sc) RECLAIM_MODE_LUMPYRECLAIM then mret PAGEREF_RECLAIM
  else if has vm_flags VM_LOCKED then mret PAGEREF_RECLAIM
  else if negb (referenced_ptes =? 0) then
    if PageSwapBacked pg then mret PAGEREF_ACTIVATE
    else
      upd_page p (λ pg, set_PG_referenced (u32 (PG_referenced pg - 1)) pg);;
      if (referenced_time <? 1) || (1 <? referenced_ptes) then mret PAGEREF_ACTIVATE
      else if has vm_flags VM_EXEC then mret PAGEREF_ACTIVATE
      else mret PAGEREF_KEEP
  else if (referenced_time <? 1) && negb (PageSwapBacked pg) then mret PAGEREF_RECLAIM_CLEAN
  else mret PAGEREF_RECLAIM.

Definition vm_swap_full : M lst bool := gets (λ s, nr_swap_pages s * 2 <? total_swap_pages).

(** ** shrink_page_list *)

(** The counters of [shrink_page_list] and the scan control it changes. *)
Record spl := Spl {
  spl_sc : scan_control;
  pgactivate : Z;
  nr_dirty : Z;
  nr_congested : Z;
  spl_reclaimed : Z;
  nr_writeback : Z;
}.

Definition spl_set_sc (sc : scan_control) (c : spl) : spl :=
  Spl sc (pgactivate c) (nr_dirty c) (nr_congested c) (spl_reclaimed c) (nr_writeback c).
Definition spl_activated (c : spl) : spl :=
  Spl (spl_sc c) (pgactivate c + 1) (nr_dirty c) (nr_congested c) (spl_reclaimed c) (nr_writeback c).
Definition spl_dirty (c : spl) : spl :=
  Spl (spl_sc c) (pgactivate c) (nr_dirty c + 1) (nr_congested c) (spl_reclaimed c) (nr_writeback c).
Definition spl_congested (c : spl) : spl :=
  Spl (spl_sc c) (pgactivate c) (nr_dirty c) (nr_congested c + 1) (spl_reclaimed c) (nr_writeback c).
Definition spl_freed (c : spl) : spl :=
  Spl (spl_sc c) (pgactivate c) (nr_dirty c) (nr_congested c) (spl_reclaimed c + 1) (nr_writeback c).
Definition spl_written (c : spl) : spl :=
  Spl (spl_sc c) (pgactivate c) (nr_dirty c) (nr_congested c) (spl_reclaimed c) (nr_writeback c + 1).

(** The labels a page of the loop leaves by; [L_done] is the [continue] of a page that a
    speculative reference will free. *)
Inductive label := L_free_it | L_cull_mlocked | L_activate_locked | L_keep_locked | L_keep | L_keep_lumpy | L_done.

(** From the test of [page_has_private] to the label [free_it]. *)
Definition free_or_keep (p : Z) (m : option Z) (c : spl) : M lst (label * spl) :=
  let remove :=
    match m with
    | None => mret (L_keep_locked, c)
    | Some m =>
        removed ← __remove_mapping m p;
        if negb removed then mret (L_keep_locked, c)
        else upd_page p (ClearPage PG_locked);; mret (L_free_it, c)
    end in
  pg ← page_at p;
  if page_has_private pg then
    released ← try_to_release_page p (gfp_mask (spl_sc c));
    if negb released then mret (L_activate_locked, c)
    else
      pg ← page_at p;
      match m with
      | None =>
          if _count pg =? 1 then
            unlock_page p;;
            zero ← put_page_testzero p;
            if (zero : bool) then mret (L_free_it, c) else mret (L_done, spl_freed c)
          else remove
      | Some _ => remove
      end
  else remove.

(** A dirty page: whether and how it is written. *)
Definition write_dirty (p : Z) (m : option Z) (references : page_references) (may_enter_fs : bool) (priority : Z)
    (c : spl) : M lst (label * spl) :=
  pg ← page_at p;
  if PageDirty pg then
    let c := spl_dirty c in
    if page_is_file_cache pg && (negb current_is_kswapd || (DEF_PRIORITY - 2 <=? priority)) then
      __mod_zone_page_state (page_zone pg) NR_VMSCAN_IMMEDIATE 1;;
      upd_page p (SetPage PG_reclaim);;
      mret (L_keep_locked, c)
    else
      if bool_decide (references = PAGEREF_RECLAIM_CLEAN) then mret (L_keep_locked, c)
      else if negb may_enter_fs then mret (L_keep_locked, c)
      else if negb (may_writepage (spl_sc c)) then mret (L_keep_locked, c)
      else
        out ← pageout p m (spl_sc c);
        match out with
        | PAGE_KEEP => mret (L_keep_locked, spl_congested c)
        | PAGE_ACTIVATE => mret (L_activate_locked, c)
        | PAGE_SUCCESS =>
            pg ← page_at p;
            if PageWriteback pg then mret (L_keep_lumpy, c)
            else if PageDirty pg then mret (L_keep, c)
            else
              got ← trylock_page p;
              if negb got then mret (L_keep, c)
              else
                pg ← page_at p;
                if PageDirty pg || PageWriteback pg then mret (L_keep_locked, c)
                else free_or_keep p (page_mapping pg) c
        | PAGE_CLEAN => free_or_keep p m c
        end
  else free_or_keep p m c.

Definition SWAP_SUCCESS : Z := 0.
Definition SWAP_AGAIN : Z := 1.
Definition SWAP_FAIL : Z := 2.
Definition SWAP_MLOCK : Z := 3.

(** A page that is mapped is unmapped. *)
Definition unmap_mapped (p : Z) (references : page_references) (priority : Z) (c : spl) (may_enter_fs : bool)
    : M lst (label * spl) :=
  pg ← page_at p;
  let m := page_mapping pg in
  if page_mapped pg && bool_decide (is_Some m) then
    r ← try_to_unmap p;
    if r =? SWAP_FAIL then mret (L_activate_locked, c)
    else if r =? SWAP_AGAIN then mret (L_keep_locked, c)
    else if r =? SWAP_MLOCK then mret (L_cull_mlocked, c)
    else write_dirty p m references may_enter_fs priority c
  else write_dirty p m references may_enter_fs priority c.

(** The page is to be reclaimed: it gets swap space and is unmapped. *)
Definition unmap_page (p : Z) (references : page_references) (may_enter_fs : bool) (priority : Z) (c : spl)
    : M lst (label * spl) :=
  pg ← page_at p;
  if PageAnon pg && negb (PageSwapCache pg) then
    if negb (has (gfp_mask (spl_sc c)) __GFP_IO) then mret (L_keep_locked, c)
    else
      added ← add_to_swap p;
      if negb added then mret (L_activate_locked, c) else unmap_mapped p references priority c true
  else unmap_mapped p references priority c may_enter_fs.

(** The decision by references. *)
Definition reclaim_page (p : Z) (may_enter_fs : bool) (priority : Z) (c : spl) : M lst (label * spl) :=
  references ← page_check_references p (spl_sc c);
  match references with
  | PAGEREF_ACTIVATE => mret (L_activate_locked, c)
  | PAGEREF_KEEP => mret (L_keep_locked, c)
  | PAGEREF_RECLAIM | PAGEREF_RECLAIM_CLEAN => unmap_page p references may_enter_fs priority c
  end.

(** A page from the lock to its label. *)
Definition shrink_page (p priority : Z) (c : spl) : M lst (label * spl) :=
  got ← trylock_page p;
  if negb got then mret (L_keep, c)
  else
    let c := spl_set_sc (add_scanned 1 (spl_sc c)) c in
    pg ← page_at p;
    evictable ← page_evictable pg;
    if negb evictable then mret (L_cull_mlocked, c)
    else if negb (may_unmap (spl_sc c)) && page_mapped pg then mret (L_keep_locked, c)
    else
      let c := if page_mapped pg || PageSwapCache pg then spl_set_sc (add_scanned 1 (spl_sc c)) c else c in
      let may_enter_fs := has (gfp_mask (spl_sc c)) __GFP_FS ||
                          (PageSwapCache pg && has (gfp_mask (spl_sc c)) __GFP_IO) in
      if PageWriteback pg then
        let c := spl_written c in
        if has (reclaim_mode (spl_sc c)) RECLAIM_MODE_SYNC && may_enter_fs then
          wait_on_page_writeback p;;
          reclaim_page p may_enter_fs priority c
        else
          unlock_page p;;
          mret (L_keep_lumpy, c)
      else reclaim_page p may_enter_fs priority c.

Definition spl_ret_pages : head := held 10.
Definition spl_free_pages : head := doomed 10.

(** The code at the labels. *)
Definition at_label (p : Z) (l : label) (c : spl) : M lst spl :=
  let keep_lumpy c := list_add p spl_ret_pages;; mret c in
  let keep c := keep_lumpy (spl_set_sc (reset_reclaim_mode (spl_sc c)) c) in
  let keep_locked c := unlock_page p;; keep c in
  match l with
  | L_free_it =>
      list_add p spl_free_pages;;
      mret (spl_freed c)
  | L_cull_mlocked =>
      pg ← page_at p;
      when (PageSwapCache pg) (try_to_free_swap p);;
      unlock_page p;;
      putback_lru_page p;;
      mret (spl_set_sc (reset_reclaim_mode (spl_sc c)) c)
  | L_activate_locked =>
      pg ← page_at p;
      full ← vm_swap_full;
      when (PageSwapCache pg && full) (try_to_free_swap p);;
      upd_page p (SetPage PG_active);;
      keep_locked (spl_activated c)
  | L_keep_locked => keep_locked c
  | L_keep => keep c
  | L_keep_lumpy => keep_lumpy c
  | L_done => mret c
  end.

(** The loop over the pages of [page_list], from its tail; [n] pages or fewer. *)
Fixpoint shrink_page_loop (n : nat) (page_list : head) (priority : Z) (c : spl) : M lst spl :=
  l ← get_list page_list;
  match last l, n with
  | None, _ => mret c
  | _, O => fail NoFuel
  | Some p, S n =>
      list_del p;;
      r ← shrink_page p priority c;
      c ← at_label p r.1 r.2;
      shrink_page_loop n page_list priority c
  end.

(** [shrink_page_list]: the number of pages reclaimed, and the scan control, the dirty
    pages and the pages under writeback after it. *)
Definition shrink_page_list (page_list : head) (z priority : Z) (sc : scan_control) : M lst (Z * scan_control * Z * Z) :=
  set_list spl_ret_pages [];;
  set_list spl_free_pages [];;
  l ← get_list page_list;
  c ← shrink_page_loop (length l) page_list priority (Spl sc 0 0 0 0 0);
  when (negb (nr_dirty c =? 0) && (nr_dirty c =? nr_congested c)) (upd_zone z (set_congested true));;
  free_hot_cold_page_list spl_free_pages;;
  list_splice spl_ret_pages page_list;;
  count_vm_events "PGACTIVATE" (pgactivate c);;
  mret (spl_reclaimed c, spl_sc c, nr_dirty c, nr_writeback c).

(** ** Isolating pages *)

Definition ISOLATE_INACTIVE : Z := 0x1.
Definition ISOLATE_ACTIVE : Z := 0x2.
Definition ISOLATE_CLEAN : Z := 0x4.
Definition ISOLATE_UNMAPPED : Z := 0x8.
Definition ISOLATE_ASYNC_MIGRATE : Z := 0x10.

(** The page is one that the modes [ISOLATE_CLEAN] and [ISOLATE_ASYNC_MIGRATE] skip. *)
Definition isolate_blocks (pg : page) (mode : Z) : M lst bool :=
  if has mode (Z.lor ISOLATE_CLEAN ISOLATE_ASYNC_MIGRATE) then
    if PageWriteback pg then mret true
    else if PageDirty pg then
      if has mode ISOLATE_CLEAN then mret true
      else
        match page_mapping pg with
        | Some m => a ← space_at m; mret (negb (as_migratepage a))
        | None => mret false
        end
    else mret false
  else mret false.

Definition __isolate_lru_page (p mode : Z) (file : bool) : M lst Z :=
  pg ← page_at p;
  if negb (PageLRU pg) then mret (- EINVAL)
  else
    let both := Z.lor ISOLATE_ACTIVE ISOLATE_INACTIVE in
    let all_lru_mode := Z.land mode both =? both in
    if negb all_lru_mode && negb (Bool.eqb (PageActive pg) (has mode ISOLATE_ACTIVE)) then mret (- EINVAL)
    else if negb all_lru_mode && negb (Bool.eqb (page_is_file_cache pg) file) then mret (- EINVAL)
    else if PageUnevictable pg then mret (- EINVAL)
    else
      blocked ← isolate_blocks pg mode;
      if (blocked : bool) then mret (- EBUSY)
      else if has mode ISOLATE_UNMAPPED && page_mapped pg then mret (- EBUSY)
      else
        got ← get_page_unless_zero p;
        if (got : bool) then
          upd_page p (ClearPage PG_lru);;
          mret 0
        else mret (- EBUSY).

(** The block of pages around the page that lumpy reclaim took: the pages taken; [n]
    bounds the pages left in the block.  The counters that only tracing reads are not
    kept. *)
Fixpoint lumpy_loop (n : nat) (pfn end_pfn page_pfn zone_id : Z) (dst : head) (mode : Z) (file : bool) (nr_taken : Z)
    : M lst Z :=
  if end_pfn <=? pfn then mret nr_taken
  else
    match n with
    | O => fail NoFuel
    | S n =>
        if pfn =? page_pfn then lumpy_loop n (pfn + 1) end_pfn page_pfn zone_id dst mode file nr_taken
        else
          cursor ← page_at pfn;
          if negb (page_zone cursor =? zone_id) then mret nr_taken
          else
            swap ← gets nr_swap_pages;
            if (swap <=? 0) && PageSwapBacked cursor && negb (PageSwapCache cursor) then mret nr_taken
            else
              r ← __isolate_lru_page pfn mode file;
              if r =? 0 then
                list_move pfn dst;;
                lumpy_loop n (pfn + 1) end_pfn page_pfn zone_id dst mode file (nr_taken + hpage_nr_pages)
              else
                cursor ← page_at pfn;
                if negb (PageTail cursor) && (_count cursor =? 0)
                then lumpy_loop n (pfn + 1) end_pfn page_pfn zone_id dst mode file nr_taken
                else mret nr_taken
    end.

(** The loop of [isolate_lru_pages]: the pages scanned and the pages taken. *)
Fixpoint isolate_loop (n : nat) (nr_to_scan : Z) (src dst : head) (sc : scan_control) (mode : Z) (file : bool)
    (scan nr_taken : Z) : M lst (Z * Z) :=
  l ← get_list src;
  match last l with
  | None => mret (scan, nr_taken)
  | Some p =>
      if nr_to_scan <=? scan then mret (scan, nr_taken)
      else
        match n with
        | O => fail NoFuel
        | S n =>
            r ← __isolate_lru_page p mode file;
            if r =? 0 then
              list_move p dst;;
              if (order sc =? 0) || negb (has (reclaim_mode sc) RECLAIM_MODE_LUMPYRECLAIM) then
                isolate_loop n nr_to_scan src dst sc mode file (scan + 1) (nr_taken + hpage_nr_pages)
              else
                pg ← page_at p;
                let pfn := Z.land p (Z.lnot (Z.shiftl 1 (order sc) - 1)) in
                taken ← lumpy_loop (Z.to_nat (Z.shiftl 1 (order sc))) pfn (pfn + Z.shiftl 1 (order sc)) p (page_zone pg)
                          dst mode file 0;
                isolate_loop n nr_to_scan src dst sc mode file (scan + taken + 1)
                  (nr_taken + hpage_nr_pages + taken)
            else if r =? - EBUSY then
              list_move p src;;
              isolate_loop n nr_to_scan src dst sc mode file (scan + 1) nr_taken
            else fail (BugOn 1241)
        end
  end.

Definition isolate_lru_pages (nr_to_scan z : Z) (dst : head) (sc : scan_control) (mode : Z) (active file : bool)
    : M lst (Z * Z) :=
  let lru := LRU_BASE + (if active then LRU_ACTIVE else 0) + (if file then LRU_FILE else 0) in
  isolate_loop (Z.to_nat nr_to_scan) nr_to_scan (z, lru) dst sc mode file 0 0.

(** ** Shrinking the inactive list *)

Definition too_many_isolated (zd : zone) (file : bool) : bool :=
  if current_is_kswapd then false
  else
    let inactive := zone_page_state zd (if file then NR_INACTIVE_FILE else NR_INACTIVE_ANON) in
    let isolated := zone_page_state zd (if file then NR_ISOLATED_FILE else NR_ISOLATED_ANON) in
    inactive <? isolated.

Definition pages_to_free : head := doomed 20.

(** The loop of [putback_inactive_pages]. *)
Fixpoint putback_loop (n : nat) (z : Z) (page_list : head) : M lst () :=
  l ← get_list page_list;
  match last l, n with
  | None, _ => mret ()
  | _, O => fail NoFuel
  | Some p, S n =>
      list_del p;;
      pg ← page_at p;
      evictable ← page_evictable pg;
      (if negb evictable then
         spin_unlock_irq z;;
         putback_lru_page p;;
         spin_lock_irq z
       else
         upd_page p (SetPage PG_lru);;
         let lru := page_lru pg in
         add_page_to_lru_list z p lru;;
         when (is_active_lru lru)
           (upd_zone z (λ zd, set_recent (add_stat (b2z (is_file_lru lru)) hpage_nr_pages (recent_rotated zd))
                                (recent_scanned zd) zd));;
         zero ← put_page_testzero p;
         when zero (
           upd_page p (ClearPage PG_lru);;
           upd_page p (ClearPage PG_active);;
           del_page_from_lru_list z p lru;;
           if PageCompound pg then
             spin_unlock_irq z;;
             free_hot_cold_page p;;
             spin_lock_irq z
           else list_add p pages_to_free));;
      putback_loop n z page_list
  end.

(** At its end [page_list] is empty; the source moves [pages_to_free] there for its caller
    to free, the model leaves it for the caller where it is. *)
Definition putback_inactive_pages (z : Z) (page_list : head) : M lst () :=
  set_list pages_to_free [];;
  l ← get_list page_list;
  putback_loop (length l) z page_list.

(** The loop of [update_isolated_counts]: the array [count] and [nr_active]. *)
Fixpoint count_isolated (l : list Z) (count : gmap Z Z) (nr_active : Z) : M lst (gmap Z Z * Z) :=
  match l with
  | [] => mret (count, nr_active)
  | p :: l =>
      pg ← page_at p;
      let lru := page_lru_base_type pg in
      if PageActive pg then
        upd_page p (ClearPage PG_active);;
        count_isolated l (add_stat (lru + LRU_ACTIVE) hpage_nr_pages count) (nr_active + hpage_nr_pages)
      else count_isolated l (add_stat lru hpage_nr_pages count) nr_active
  end.

(** [update_isolated_counts]: [nr_anon] and [nr_file]. *)
Definition update_isolated_counts (z : Z) (page_list : head) : M lst (Z * Z) :=
  l ← get_list page_list;
  r ← count_isolated l ∅ 0;
  let count := r.1 in
  count_vm_events "PGDEACTIVATE" r.2;;
  __mod_zone_page_state z NR_ACTIVE_FILE (- stat count LRU_ACTIVE_FILE);;
  __mod_zone_page_state z NR_INACTIVE_FILE (- stat count LRU_INACTIVE_FILE);;
  __mod_zone_page_state z NR_ACTIVE_ANON (- stat count LRU_ACTIVE_ANON);;
  __mod_zone_page_state z NR_INACTIVE_ANON (- stat count LRU_INACTIVE_ANON);;
  let nr_anon := stat count LRU_ACTIVE_ANON + stat count LRU_INACTIVE_ANON in
  let nr_file := stat count LRU_ACTIVE_FILE + stat count LRU_INACTIVE_FILE in
  __mod_zone_page_state z NR_ISOLATED_ANON nr_anon;;
  __mod_zone_page_state z NR_ISOLATED_FILE nr_file;;
  mret (nr_anon, nr_file).

Definition should_reclaim_stall (nr_taken nr_freed priority : Z) (sc : scan_control) : bool :=
  if current_is_kswapd then false
  else if has (reclaim_mode sc) RECLAIM_MODE_SINGLE then false
  else if nr_freed =? nr_taken then false
  else
    let lumpy_stall_priority :=
      if PAGE_ALLOC_COSTLY_ORDER <? order sc then DEF_PRIORITY else DEF_PRIORITY / 3 in
    priority <=? lumpy_stall_priority.

(** The wait at the head of [shrink_inactive_list]; [true] when the task is about to die. *)
Fixpoint wait_isolated (n : nat) (z : Z) (file : bool) : M lst bool :=
  zd ← zone_at z;
  if too_many_isolated zd file then
    match n with
    | O => fail NoFuel
    | S n =>
        congestion_wait;;
        if fatal_signal_pending then mret true else wait_isolated n z file
    end
  else mret false.

Definition inactive_list : head := held 1.

(** [shrink_inactive_list]; [n] bounds the waits, [wait_iff_congested] waits and changes
    nothing. *)
Definition shrink_inactive_list (n : nat) (nr_to_scan z : Z) (sc : scan_control) (priority : Z) (file : bool)
    : M lst (Z * scan_control) :=
  die ← wait_isolated n z file;
  if (die : bool) then mret (SWAP_CLUSTER_MAX, sc)
  else
    set_list inactive_list [];;
    let sc := set_reclaim_mode priority false sc in
    let isolate_mode := ISOLATE_INACTIVE in
    let isolate_mode := if has (reclaim_mode sc) RECLAIM_MODE_LUMPYRECLAIM then Z.lor isolate_mode ISOLATE_ACTIVE
                        else isolate_mode in
    lru_add_drain;;
    let isolate_mode := if may_unmap sc then isolate_mode else Z.lor isolate_mode ISOLATE_UNMAPPED in
    let isolate_mode := if may_writepage sc then isolate_mode else Z.lor isolate_mode ISOLATE_CLEAN in
    spin_lock_irq z;;
    r ← isolate_lru_pages nr_to_scan z inactive_list sc isolate_mode false file;
    let scanned := r.1 in
    let nr_taken := r.2 in
    upd_zone z (λ zd, set_pages_scanned (pages_scanned zd + scanned) zd);;
    count_vm_events (if current_is_kswapd then "PGSCAN_KSWAPD" else "PGSCAN_DIRECT") scanned;;
    spin_unlock_irq z;;
    if nr_taken =? 0 then mret (0, sc)
    else
      isolated ← update_isolated_counts z inactive_list;
      let nr_anon := isolated.1 in
      let nr_file := isolated.2 in
      r ← shrink_page_list inactive_list z priority sc;
      let '(reclaimed, sc, _, _) := r in
      r ← (if should_reclaim_stall nr_taken reclaimed priority sc then
             r ← shrink_page_list inactive_list z priority (set_reclaim_mode priority true sc);
             let '(more, sc, _, _) := r in mret (reclaimed + more, sc)
           else mret (reclaimed, sc));
      let reclaimed := r.1 in
      let sc := r.2 in
      spin_lock_irq z;;
      upd_zone z (λ zd, set_recent (recent_rotated zd)
                          (add_stat 1 nr_file (add_stat 0 nr_anon (recent_scanned zd))) zd);;
      count_vm_events (if current_is_kswapd then "PGSTEAL_KSWAPD" else "PGSTEAL_DIRECT") reclaimed;;
      putback_inactive_pages z inactive_list;;
      __mod_zone_page_state z NR_ISOLATED_ANON (- nr_anon);;
      __mod_zone_page_state z NR_ISOLATED_FILE (- nr_file);;
      spin_unlock_irq z;;
      free_hot_cold_page_list pages_to_free;;
      mret (reclaimed, sc).

(** ** Shrinking the active list *)

(** [move_active_pages_to_lru] for [n] pages or fewer: the number of pages moved. *)
Fixpoint move_active_loop (n : nat) (z : Z) (l free : head) (lru : Z) (pgmoved : Z) : M lst Z :=
  ps ← get_list l;
  match last ps, n with
  | None, _ => mret pgmoved
  | _, O => fail NoFuel
  | Some p, S n =>
      pg ← page_at p;
      upd_page p (SetPage PG_lru);;
      list_move p (z, lru);;
      zero ← put_page_testzero p;
      when zero (
        upd_page p (ClearPage PG_lru);;
        upd_page p (ClearPage PG_active);;
        del_page_from_lru_list z p lru;;
        if PageCompound pg then
          spin_unlock_irq z;;
          free_hot_cold_page p;;
          spin_lock_irq z
        else list_add p free);;
      move_active_loop n z l free lru (pgmoved + hpage_nr_pages)
  end.

Definition move_active_pages_to_lru (z : Z) (l free : head) (lru : Z) : M lst () :=
  ps ← get_list l;
  pgmoved ← move_active_loop (length ps) z l free lru 0;
  __mod_zone_page_state z (NR_LRU_BASE + lru) pgmoved;;
  when (negb (is_active_lru lru)) (count_vm_events "PGDEACTIVATE" pgmoved).

Definition l_hold : head := held 2.
Definition l_active : head := held 3.
Definition l_inactive : head := held 4.

(** The local list that [shrink_active_list] reuses for the pages to be freed. *)
Definition l_free : head := doomed 30.

(** A page of [l_hold] that can be reclaimed: it is kept active, or deactivated. *)
Definition age_page (p : Z) : M lst Z :=
  pg ← page_at p;
  when (buffer_heads_over_limit && page_has_private pg) (
    got ← trylock_page p;
    when got (try_to_release_page p 0;; unlock_page p));;
  r ← page_referenced p false;
  pg ← page_at p;
  let nr_rotated := if r.1 =? 0 then 0 else hpage_nr_pages in
  if negb (r.1 =? 0) && has r.2 VM_EXEC && page_is_file_cache pg then
    list_add p l_active;;
    mret nr_rotated
  else
    upd_page p (set_PG_referenced (u32 (PG_referenced pg + 1)));;
    if u32 (PG_referenced pg + 1) <? PG_REFERENCED_SHRINK_THRESHOLD then
      list_add p l_active;;
      mret nr_rotated
    else
      upd_page p (ClearPage PG_active);;
      list_add p l_inactive;;
      mret nr_rotated.

(** The loop over [l_hold]: the number of pages that were referenced. *)
Fixpoint shrink_active_loop (n : nat) (nr_rotated : Z) : M lst Z :=
  l ← get_list l_hold;
  match last l, n with
  | None, _ => mret nr_rotated
  | _, O => fail NoFuel
  | Some p, S n =>
      list_del p;;
      pg ← page_at p;
      evictable ← page_evictable pg;
      rotated ← (if negb evictable then putback_lru_page p;; mret 0 else age_page p);
      shrink_active_loop n (nr_rotated + rotated)
  end.

Definition shrink_active_list (nr_to_scan z : Z) (sc : scan_control) (file : bool) : M lst scan_control :=
  set_list l_hold [];;
  set_list l_active [];;
  set_list l_inactive [];;
  set_list l_free [];;
  lru_add_drain;;
  let sc := reset_reclaim_mode sc in
  let isolate_mode := ISOLATE_ACTIVE in
  let isolate_mode := if may_unmap sc then isolate_mode else Z.lor isolate_mode ISOLATE_UNMAPPED in
  let isolate_mode := if may_writepage sc then isolate_mode else Z.lor isolate_mode ISOLATE_CLEAN in
  spin_lock_irq z;;
  r ← isolate_lru_pages nr_to_scan z l_hold sc isolate_mode true file;
  let scanned := r.1 in
  let nr_taken := r.2 in
  upd_zone z (λ zd, set_pages_scanned (pages_scanned zd + scanned) zd);;
  upd_zone z (λ zd, set_recent (recent_rotated zd) (add_stat (b2z file) nr_taken (recent_scanned zd)) zd);;
  count_vm_events "PGREFILL" scanned;;
  __mod_zone_page_state z (if file then NR_ACTIVE_FILE else NR_ACTIVE_ANON) (- nr_taken);;
  __mod_zone_page_state z (NR_ISOLATED_ANON + b2z file) nr_taken;;
  spin_unlock_irq z;;
  l ← get_list l_hold;
  nr_rotated ← shrink_active_loop (length l) 0;
  spin_lock_irq z;;
  upd_zone z (λ zd, set_recent (add_stat (b2z file) nr_rotated (recent_rotated zd)) (recent_scanned zd) zd);;
  move_active_pages_to_lru z l_active l_free (LRU_ACTIVE + b2z file * LRU_FILE);;
  move_active_pages_to_lru z l_inactive l_free (LRU_BASE + b2z file * LRU_FILE);;
  __mod_zone_page_state z (NR_ISOLATED_ANON + b2z file) (- nr_taken);;
  spin_unlock_irq z;;
  free_hot_cold_page_list l_free;;
  mret sc.
End vmscan.
