(* ===== verification/VmscanZone.v ===== *)
(** * Page reclaim: zones, shrinkers and direct reclaim

    Models the part of [mm/vmscan.c] that decides how much of each list of a zone is
    scanned ([get_scan_count]), shrinks a zone ([shrink_zone]), calls the shrinkers of slab
    caches ([shrink_slab]) and is the entry point of direct reclaim
    ([try_to_free_pages]), without memory control groups and compaction.

    The shrinkers, the waits and the wake-ups are operations of the class [Balance]. *)

From S2P Require Import Prelude Lru Rmap Vmscan.

Definition RECLAIM_MODE_COMPACTION : Z := 0x10.
Definition __GFP_MOVABLE : Z := 0x08.
Definition __GFP_REPEAT : Z := 0x400.
Definition GFP_ZONEMASK : Z := 0x0f.

(** The zones of this configuration; [ZONE_DMA] and [ZONE_DMA32] do not exist. *)
Definition ZONE_NORMAL : Z := 0.
Definition ZONE_HIGHMEM : Z := 1.
Definition ZONE_MOVABLE : Z := 2.
Definition ZONES_SHIFT : Z := 2.

Definition GFP_ZONE_TABLE : Z :=
  Z.lor (Z.shiftl ZONE_HIGHMEM (__GFP_HIGHMEM * ZONES_SHIFT))
    (Z.shiftl ZONE_MOVABLE (Z.lor __GFP_MOVABLE __GFP_HIGHMEM * ZONES_SHIFT)).

Definition gfp_zone (gfp : Z) : Z :=
  Z.land (Z.shiftr GFP_ZONE_TABLE (Z.land gfp GFP_ZONEMASK * ZONES_SHIFT)) (Z.shiftl 1 ZONES_SHIFT - 1).

(** A shrinker: its number, the callback with the mask and the number of objects to scan,
    the cost of an object and the size of a batch. *)
Record shrinker := Shrinker {
  sh_id : Z;
  shrink : Z → Z → M lst Z;
  seeks : Z;
  batch : Z;
}.

Class Balance := {
  laptop_mode : bool;
  oom_killer_disabled : bool;
  shrinker_list : list shrinker;
  shrinker_rwsem_busy : bool;
  throttle_vm_writeout : Z → M lst ();
  wait_iff_congested : M lst ();
  disable_swap_token : M lst ();
  wakeup_flusher_threads : Z → M lst ();
}.

(** Division of unsigned integers. *)
Definition udiv (a b : Z) : M lst Z := if b =? 0 then fail DivByZero else mret (a / b).

Definition high_wmark_pages (zd : zone) : Z := (watermark zd).2.

Definition populated_zone (zd : zone) : bool := negb (present_pages zd =? 0).

Definition zone_nr_lru_pages (zd : zone) (lru : Z) : Z := zone_page_state zd (NR_LRU_BASE + lru).

Definition zone_reclaimable_pages (zd : zone) (swap : Z) : Z :=
  let nr := zone_page_state zd NR_ACTIVE_FILE + zone_page_state zd NR_INACTIVE_FILE in
  u32 (if 0 <? swap then nr + (zone_page_state zd NR_ACTIVE_ANON + zone_page_state zd NR_INACTIVE_ANON) else nr).

Definition set_nr_scanned (n : Z) (sc : scan_control) : scan_control :=
  ScanControl n (nr_reclaimed sc) (nr_to_reclaim sc) (hibernation_mode sc) (gfp_mask sc)
    (may_writepage sc) (may_unmap sc) (may_swap sc) (order sc) (reclaim_mode sc).
Definition add_reclaimed (n : Z) (sc : scan_control) : scan_control :=
  ScanControl (nr_scanned sc) (u32 (nr_reclaimed sc + n)) (nr_to_reclaim sc) (hibernation_mode sc) (gfp_mask sc)
    (may_writepage sc) (may_unmap sc) (may_swap sc) (order sc) (reclaim_mode sc).
Definition set_gfp (g : Z) (sc : scan_control) : scan_control :=
  ScanControl (nr_scanned sc) (nr_reclaimed sc) (nr_to_reclaim sc) (hibernation_mode sc) g
    (may_writepage sc) (may_unmap sc) (may_swap sc) (order sc) (reclaim_mode sc).
Definition set_may_writepage (sc : scan_control) : scan_control :=
  ScanControl (nr_scanned sc) (nr_reclaimed sc) (nr_to_reclaim sc) (hibernation_mode sc) (gfp_mask sc)
    true (may_unmap sc) (may_swap sc) (order sc) (reclaim_mode sc).

Section zone.
Context `{Reclaim, Balance}.

(** ** Shrinkers *)

Definition SHRINK_BATCH : Z := 128.

Definition do_shrinker_shrink (sh : shrinker) (gfp nr_to_scan : Z) : M lst Z := shrink sh gfp nr_to_scan.

(** [atomic_long_xchg(&shrinker->nr_in_batch, 0)]. *)
Definition take_batch (sh : shrinker) : M lst Z :=
  sl ← gets slab;
  modify (set_slab (SlabState (<[sh_id sh := 0]> (nr_in_batch sl)) (reclaimed_slab sl)));;
  mret (stat (nr_in_batch sl) (sh_id sh)).

Definition give_batch (sh : shrinker) (n : Z) : M lst () :=
  sl ← gets slab;
  modify (set_slab (SlabState (<[sh_id sh := s32 (stat (nr_in_batch sl) (sh_id sh) + n)]> (nr_in_batch sl)) (reclaimed_slab sl))).

(** How many objects of a shrinker are scanned. *)
Definition slab_total_scan (nr delta max_pass : Z) : Z :=
  let total_scan := s32 (nr + delta) in
  let total_scan := if total_scan <? 0 then max_pass else total_scan in
  let total_scan := if delta <? max_pass / 4 then Z.min total_scan (max_pass / 2) else total_scan in
  if s32 (max_pass * 2) <? total_scan then s32 (max_pass * 2) else total_scan.

(** The batches: what is left of the scan, and the number of objects freed. *)
Fixpoint shrink_batches (n : nat) (sh : shrinker) (gfp batch_size total_scan ret : Z) : M lst (Z * Z) :=
  if total_scan <? batch_size then mret (total_scan, ret)
  else
    match n with
    | O => fail NoFuel
    | S n =>
        nr_before ← do_shrinker_shrink sh gfp 0;
        shrink_ret ← do_shrinker_shrink sh gfp batch_size;
        if shrink_ret =? -1 then mret (total_scan, ret)
        else
          let ret := if shrink_ret <? nr_before then u32 (ret + (nr_before - shrink_ret)) else ret in
          count_vm_events "SLABS_SCANNED" batch_size;;
          shrink_batches n sh gfp batch_size (total_scan - batch_size) ret
    end.

Definition shrink_one (sh : shrinker) (gfp nr_pages_scanned lru_pages ret : Z) : M lst Z :=
  let batch_size := if batch sh =? 0 then SHRINK_BATCH else batch sh in
  max_pass ← do_shrinker_shrink sh gfp 0;
  if max_pass <=? 0 then mret ret
  else
    nr ← take_batch sh;
    d ← udiv (u32 (4 * nr_pages_scanned)) (u32 (seeks sh));
    delta ← udiv (u64 (d * max_pass)) (u32 (lru_pages + 1));
    let total_scan := slab_total_scan nr delta max_pass in
    r ← shrink_batches (Z.to_nat total_scan) sh gfp batch_size total_scan ret;
    when (0 <? r.1) (give_batch sh r.1);;
    mret r.2.

Fixpoint shrink_slabs (l : list shrinker) (gfp nr_pages_scanned lru_pages ret : Z) : M lst Z :=
  match l with
  | [] => mret ret
  | sh :: l =>
      ret ← shrink_one sh gfp nr_pages_scanned lru_pages ret;
      shrink_slabs l gfp nr_pages_scanned lru_pages ret
  end.

Definition shrink_slab (gfp nr_pages_scanned lru_pages : Z) : M lst Z :=
  let nr_pages_scanned := if nr_pages_scanned =? 0 then SWAP_CLUSTER_MAX else nr_pages_scanned in
  if shrinker_rwsem_busy then mret 1
  else shrink_slabs shrinker_list gfp nr_pages_scanned lru_pages 0.

(** ** One zone *)

Definition inactive_anon_is_low_global (zd : zone) : bool :=
  let active := zone_page_state zd NR_ACTIVE_ANON in
  let inactive := zone_page_state zd NR_INACTIVE_ANON in
  u32 (inactive * inactive_ratio zd) <? active.

Definition inactive_anon_is_low (zd : zone) : bool :=
  if total_swap_pages =? 0 then false else inactive_anon_is_low_global zd.

Definition inactive_file_is_low_global (zd : zone) : bool :=
  zone_page_state zd NR_INACTIVE_FILE <? zone_page_state zd NR_ACTIVE_FILE.

Definition inactive_file_is_low (zd : zone) : bool := inactive_file_is_low_global zd.

Definition inactive_list_is_low (zd : zone) (file : bool) : bool :=
  if file then inactive_file_is_low zd else inactive_anon_is_low zd.

(** [waits] bounds the waits of [shrink_inactive_list]. *)
Definition shrink_list (waits : nat) (lru nr_to_scan z : Z) (sc : scan_control) (priority : Z) : M lst (Z * scan_control) :=
  let file := is_file_lru lru in
  if is_active_lru lru then
    zd ← zone_at z;
    if inactive_list_is_low zd file then
      sc ← shrink_active_list nr_to_scan z sc file;
      mret (0, sc)
    else mret (0, sc)
  else shrink_inactive_list waits nr_to_scan z sc priority file.

Definition vmscan_swappiness : Z := vm_swappiness.

(** A statistic of a zone is halved when more than a quarter of the pages was scanned. *)
Definition halve (i pages : Z) (zd : zone) : zone :=
  if pages / 4 <? u32 (stat (recent_scanned zd) i) then
    set_recent (<[i := u32 (stat (recent_rotated zd) i) / 2]> (recent_rotated zd))
      (<[i := u32 (stat (recent_scanned zd) i) / 2]> (recent_scanned zd)) zd
  else zd.

(** The number of pages of a list to scan. *)
Definition scan_share (zd : zone) (lru priority : Z) (noswap force_scan : bool) (fraction : Z * Z) (denominator : Z)
    : M lst Z :=
  let file := is_file_lru lru in
  let scan := zone_nr_lru_pages zd lru in
  if negb (priority =? 0) || noswap || (vmscan_swappiness =? 0) then
    let scan := Z.shiftr scan priority in
    let scan := if (scan =? 0) && force_scan then SWAP_CLUSTER_MAX else scan in
    q ← udiv (u64 (scan * (if file then fraction.2 else fraction.1))) denominator;
    mret (u32 q)
  else mret scan.

Fixpoint scan_shares (lrus : list Z) (z priority : Z) (noswap force_scan : bool) (fraction : Z * Z) (denominator : Z)
    (nr : gmap Z Z) : M lst (gmap Z Z) :=
  match lrus with
  | [] => mret nr
  | lru :: lrus =>
      zd ← zone_at z;
      n ← scan_share zd lru priority noswap force_scan fraction denominator;
      scan_shares lrus z priority noswap force_scan fraction denominator (<[lru := n]> nr)
  end.

Definition evictable_lrus : list Z := [LRU_INACTIVE_ANON; LRU_ACTIVE_ANON; LRU_INACTIVE_FILE; LRU_ACTIVE_FILE].

Definition get_scan_count (z : Z) (sc : scan_control) (priority : Z) : M lst (gmap Z Z) :=
  zd ← zone_at z;
  let force_scan := current_is_kswapd && all_unreclaimable zd in
  let out noswap fraction denominator :=
    scan_shares evictable_lrus z priority noswap force_scan fraction denominator ∅ in
  swap ← gets nr_swap_pages;
  if negb (may_swap sc) || (swap <=? 0) then out true (0, 1) 1
  else
    let anon := u32 (zone_nr_lru_pages zd LRU_ACTIVE_ANON + zone_nr_lru_pages zd LRU_INACTIVE_ANON) in
    let file := u32 (zone_nr_lru_pages zd LRU_ACTIVE_FILE + zone_nr_lru_pages zd LRU_INACTIVE_FILE) in
    let free := zone_page_state zd NR_FREE_PAGES in
    if u32 (file + free) <=? high_wmark_pages zd then out false (1, 0) 1
    else
      let anon_prio := u32 vmscan_swappiness in
      let file_prio := u32 (200 - vmscan_swappiness) in
      spin_lock_irq z;;
      upd_zone z (halve 0 anon);;
      upd_zone z (halve 1 file);;
      zd ← zone_at z;
      ap ← udiv (u32 (anon_prio * u32 (stat (recent_scanned zd) 0 + 1))) (u32 (stat (recent_rotated zd) 0 + 1));
      fp ← udiv (u32 (file_prio * u32 (stat (recent_scanned zd) 1 + 1))) (u32 (stat (recent_rotated zd) 1 + 1));
      spin_unlock_irq z;;
      out false (ap, fp) (u32 (ap + fp + 1)).

Definition COMPACT_SKIPPED : Z := 0.
Definition COMPACT_CONTINUE : Z := 1.
Definition COMPACT_PARTIAL : Z := 2.

(** Without compaction. *)
Definition compaction_suitable : Z := COMPACT_SKIPPED.

Definition should_continue_reclaim (zd : zone) (reclaimed scanned swap : Z) (sc : scan_control) : bool :=
  if negb (has (reclaim_mode sc) RECLAIM_MODE_COMPACTION) then false
  else if (if has (gfp_mask sc) __GFP_REPEAT then (reclaimed =? 0) && (scanned =? 0) else reclaimed =? 0) then false
  else
    let pages_for_compaction := u32 (Z.shiftl 2 (order sc)) in
    let inactive_lru_pages := zone_nr_lru_pages zd LRU_INACTIVE_FILE in
    let inactive_lru_pages := if 0 <? swap then u32 (inactive_lru_pages + zone_nr_lru_pages zd LRU_INACTIVE_ANON)
                              else inactive_lru_pages in
    if (nr_reclaimed sc <? pages_for_compaction) && (pages_for_compaction <? inactive_lru_pages) then true
    else negb ((compaction_suitable =? COMPACT_PARTIAL) || (compaction_suitable =? COMPACT_CONTINUE)).

(** The lists of a zone, a batch of each. *)
Fixpoint shrink_lists (waits : nat) (lrus : list Z) (z priority : Z) (nr : gmap Z Z) (nr_reclaimed : Z) (sc : scan_control)
    : M lst (gmap Z Z * Z * scan_control) :=
  match lrus with
  | [] => mret (nr, nr_reclaimed, sc)
  | lru :: lrus =>
      if stat nr lru =? 0 then shrink_lists waits lrus z priority nr nr_reclaimed sc
      else
        let nr_to_scan := Z.min (stat nr lru) SWAP_CLUSTER_MAX in
        r ← shrink_list waits lru nr_to_scan z sc priority;
        shrink_lists waits lrus z priority (<[lru := stat nr lru - nr_to_scan]> nr) (u32 (nr_reclaimed + r.1)) r.2
  end.

(** The [while] loop of [shrink_mem_cgroup_zone]; [n] bounds its iterations. *)
Fixpoint shrink_zone_loop (n waits : nat) (z priority nr_to_reclaim : Z) (nr : gmap Z Z) (nr_reclaimed : Z) (sc : scan_control)
    : M lst (Z * scan_control) :=
  if (stat nr LRU_INACTIVE_ANON =? 0) && (stat nr LRU_ACTIVE_FILE =? 0) && (stat nr LRU_INACTIVE_FILE =? 0)
  then mret (nr_reclaimed, sc)
  else
    match n with
    | O => fail NoFuel
    | S n =>
        r ← shrink_lists waits evictable_lrus z priority nr nr_reclaimed sc;
        let '(nr, nr_reclaimed, sc) := r in
        if (nr_to_reclaim <=? nr_reclaimed) && (priority <? DEF_PRIORITY) then mret (nr_reclaimed, sc)
        else shrink_zone_loop n waits z priority nr_to_reclaim nr nr_reclaimed sc
    end.

(** A bound on the iterations: each takes a page or more from a count that is not 0. *)
Definition scan_fuel (nr : gmap Z Z) : nat :=
  Z.to_nat (stat nr LRU_INACTIVE_ANON + stat nr LRU_ACTIVE_FILE + stat nr LRU_INACTIVE_FILE).

(** [restarts] bounds the jumps to [restart]. *)
Fixpoint shrink_mem_cgroup_zone (restarts waits : nat) (priority z : Z) (sc : scan_control) : M lst scan_control :=
  let scanned0 := nr_scanned sc in
  nr ← get_scan_count z sc priority;
  r ← shrink_zone_loop (scan_fuel nr) waits z priority (nr_to_reclaim sc) nr 0 sc;
  let '(reclaimed, sc) := r in
  let sc := add_reclaimed reclaimed sc in
  zd ← zone_at z;
  sc ← (if inactive_anon_is_low zd then shrink_active_list SWAP_CLUSTER_MAX z sc false else mret sc);
  zd ← zone_at z;
  swap ← gets nr_swap_pages;
  if should_continue_reclaim zd reclaimed (u32 (nr_scanned sc - scanned0)) swap sc then
    match restarts with
    | O => fail NoFuel
    | S restarts => shrink_mem_cgroup_zone restarts waits priority z sc
    end
  else
    throttle_vm_writeout (gfp_mask sc);;
    mret sc.

(** There is one control group, and [vmpressure] does nothing. *)
Definition shrink_zone (waits : nat) (priority z : Z) (sc : scan_control) : M lst scan_control :=
  shrink_mem_cgroup_zone 0 waits priority z sc.

(** ** Direct reclaim *)

(** The zones of a zonelist up to an index. *)
Definition zones_upto (zonelist : list Z) (highidx : Z) : list Z := filter (λ z, z <= highidx) zonelist.

Fixpoint shrink_zones_loop (zs : list Z) (waits : nat) (priority : Z) (sc : scan_control) : M lst scan_control :=
  match zs with
  | [] => mret sc
  | z :: zs =>
      zd ← zone_at z;
      if negb (populated_zone zd) then shrink_zones_loop zs waits priority sc
      else if all_unreclaimable zd && negb (priority =? DEF_PRIORITY) then shrink_zones_loop zs waits priority sc
      else
        sc ← shrink_zone waits priority z sc;
        shrink_zones_loop zs waits priority sc
  end.

(** [shrink_zones]; reclaim is never aborted for compaction. *)
Definition shrink_zones (waits : nat) (priority : Z) (zonelist : list Z) (sc : scan_control) : M lst scan_control :=
  let sc := if buffer_heads_over_limit then set_gfp (Z.lor (gfp_mask sc) __GFP_HIGHMEM) sc else sc in
  shrink_zones_loop (zones_upto zonelist (gfp_zone (gfp_mask sc))) waits priority sc.

Definition zone_reclaimable (zd : zone) (swap : Z) : bool := u32 (pages_scanned zd) <? u32 (zone_reclaimable_pages zd swap * 6).

Fixpoint zones_unreclaimable (zs : list Z) : M lst bool :=
  match zs with
  | [] => mret true
  | z :: zs =>
      zd ← zone_at z;
      if negb (populated_zone zd) then zones_unreclaimable zs
      else if negb (all_unreclaimable zd) then mret false
      else zones_unreclaimable zs
  end.

(** The function [all_unreclaimable]; the field of a zone has the same name. *)
Definition all_zones_unreclaimable (zonelist : list Z) (sc : scan_control) : M lst bool :=
  zones_unreclaimable (zones_upto zonelist (gfp_zone (gfp_mask sc))).

Fixpoint count_lru_pages (zs : list Z) (lru_pages : Z) : M lst Z :=
  match zs with
  | [] => mret lru_pages
  | z :: zs =>
      zd ← zone_at z;
      swap ← gets nr_swap_pages;
      count_lru_pages zs (u32 (lru_pages + zone_reclaimable_pages zd swap))
  end.

(** The pages that slab caches gave back are added to the pages reclaimed. *)
Definition collect_slab (sc : scan_control) : M lst scan_control :=
  sl ← gets slab;
  match reclaimed_slab sl with
  | None => mret sc
  | Some n =>
      modify (set_slab (SlabState (nr_in_batch sl) (Some 0)));;
      mret (add_reclaimed n sc)
  end.

(** The loop over priorities, from [n - 1] down to 0. *)
Fixpoint free_pages_loop (n waits : nat) (zonelist : list Z) (gfp total_scanned : Z) (sc : scan_control) : M lst scan_control :=
  match n with
  | O => mret sc
  | S n =>
      let priority := Z.of_nat n in
      let sc := set_nr_scanned 0 sc in
      when (priority =? 0) disable_swap_token;;
      sc ← shrink_zones waits priority zonelist sc;
      lru_pages ← count_lru_pages (zones_upto zonelist (gfp_zone (gfp_mask sc))) 0;
      shrink_slab gfp (nr_scanned sc) lru_pages;;
      sc ← collect_slab sc;
      let total_scanned := u32 (total_scanned + nr_scanned sc) in
      if nr_to_reclaim sc <=? nr_reclaimed sc then mret sc
      else
        let writeback_threshold := u32 (nr_to_reclaim sc + nr_to_reclaim sc / 2) in
        sc ← (if writeback_threshold <? total_scanned then
                wakeup_flusher_threads (if laptop_mode then 0 else total_scanned);;
                mret (set_may_writepage sc)
              else mret sc);
        when (negb (hibernation_mode sc) && negb (nr_scanned sc =? 0) && (priority <? DEF_PRIORITY - 2)) wait_iff_congested;;
        free_pages_loop n waits zonelist gfp total_scanned sc
  end.

Definition do_try_to_free_pages (waits : nat) (zonelist : list Z) (sc : scan_control) (shrink_gfp : Z) : M lst Z :=
  count_vm_event "ALLOCSTALL";;
  sc ← free_pages_loop (Z.to_nat (DEF_PRIORITY + 1)) waits zonelist shrink_gfp 0 sc;
  if negb (nr_reclaimed sc =? 0) then mret (nr_reclaimed sc)
  else if oom_killer_disabled then mret 0
  else
    all ← all_zones_unreclaimable zonelist sc;
    if negb all then mret 1 else mret 0.

Definition try_to_free_pages (waits : nat) (zonelist : list Z) (order gfp : Z) : M lst Z :=
  let sc := ScanControl 0 0 SWAP_CLUSTER_MAX false gfp (negb laptop_mode) true true order 0 in
  do_try_to_free_pages waits zonelist sc gfp.

(** Background aging of the anonymous pages of a zone, by kswapd. *)
Definition age_active_anon (z : Z) (sc : scan_control) : M lst scan_control :=
  if total_swap_pages =? 0 then mret sc
  else
    zd ← zone_at z;
    if inactive_anon_is_low zd then shrink_active_list SWAP_CLUSTER_MAX z sc false else mret sc.
End zone.
