(* ===== verification/Watermark.v ===== *)
(** * Watermarks

    Models [zone_watermark_ok] of [mm/page_alloc.c] with the mixed signed and unsigned
    arithmetic of the code, and shows what a check that passes guarantees. *)

From S2P Require Import Prelude Lru Vmscan VmscanZone.

Definition MAX_ORDER : Z := 11.
Definition ALLOC_HARDER : Z := 0x10.
Definition ALLOC_HIGH : Z := 0x20.
Definition min_free_order_shift : Z := 1.

Definition min_wmark_pages (zd : zone) : Z := (watermark zd).1.1.
Definition low_wmark_pages (zd : zone) : Z := (watermark zd).1.2.

(** The loop over the orders from [o] below the requested one, [n] of them. *)
Fixpoint lower_orders_ok (n : nat) (o : Z) (zd : zone) (free_pages min : Z) : bool :=
  match n with
  | O => true
  | S n =>
      let free_pages := s32 (free_pages - u32 (Z.shiftl (stat (nr_free zd) o) o)) in
      let min := Z.shiftr min min_free_order_shift in
      if free_pages <=? min then false else lower_orders_ok n (o + 1) zd free_pages min
  end.

(** [free_pages] and [min] are of type [long]; the sum with the reserve, which is
    unsigned, makes the first comparison one of unsigned integers. *)
Definition __zone_watermark_ok (zd : zone) (order mark classzone_idx alloc_flags free_pages : Z) : bool :=
  let min := s32 mark in
  let free_pages := s32 (free_pages - s32 (s32 (Z.shiftl 1 order) - 1)) in
  let min := if has alloc_flags ALLOC_HIGH then s32 (min - Z.quot min 2) else min in
  let min := if has alloc_flags ALLOC_HARDER then s32 (min - Z.quot min 4) else min in
  if u32 free_pages <=? u32 (min + stat (lowmem_reserve zd) classzone_idx) then false
  else lower_orders_ok (Z.to_nat order) 0 zd free_pages min.

Definition zone_watermark_ok (zd : zone) (order mark classzone_idx alloc_flags : Z) : bool :=
  __zone_watermark_ok zd order mark classzone_idx alloc_flags (s32 (zone_page_state zd NR_FREE_PAGES)).

(** Without a drift of counters between CPUs. *)
Definition zone_watermark_ok_safe (zd : zone) (order mark classzone_idx alloc_flags : Z) : bool :=
  __zone_watermark_ok zd order mark classzone_idx alloc_flags (s32 (zone_page_state zd NR_FREE_PAGES)).

(** ** The pages in blocks of an order and above *)

Definition block_pages (zd : zone) (o : Z) : Z := stat (nr_free zd) o * 2 ^ o.

Definition pages_from (zd : zone) (o : Z) : Z := foldr (λ i n, block_pages zd i + n) 0 (seqZ o (MAX_ORDER - o)).

(** The counters of the allocator: the free pages are those of the free blocks, and there
    are fewer of them than a [long] can count. *)
Record blocks_counted (zd : zone) : Prop := BlocksCounted {
  bc_nonneg o : 0 <= o < MAX_ORDER → 0 <= stat (nr_free zd) o;
  bc_free : stat (vm_stat zd) NR_FREE_PAGES = pages_from zd 0;
  bc_small : pages_from zd 0 < 2 ^ 31;
}.

Lemma pages_from_step zd o : o < MAX_ORDER → pages_from zd o = block_pages zd o + pages_from zd (o + 1).
Proof.
  intros Ho. unfold pages_from. rewrite seqZ_cons by lia. cbn [foldr].
  replace (Z.pred (MAX_ORDER - o)) with (MAX_ORDER - (o + 1)) by lia. by replace (Z.succ o) with (o + 1) by lia.
Qed.

Lemma block_pages_nonneg zd o : blocks_counted zd → 0 <= o < MAX_ORDER → 0 <= block_pages zd o.
Proof. intros C Ho. apply Z.mul_nonneg_nonneg; [by apply C|]. by apply Z.pow_nonneg. Qed.

Lemma pages_from_nonneg zd o : blocks_counted zd → 0 <= o → 0 <= pages_from zd o.
Proof.
  intros C Ho. unfold pages_from. assert (∀ i, i ∈ seqZ o (MAX_ORDER - o) → 0 <= block_pages zd i) as H.
  { intros i Hi%elem_of_seqZ. apply block_pages_nonneg; [done|lia]. }
  induction (seqZ _ _) as [|i l IH]; cbn [foldr]; [done|]. specialize (IH ltac:(intros j ?; apply H; by right)).
  specialize (H i ltac:(left)). lia.
Qed.

Lemma pages_from_small zd o : blocks_counted zd → 0 <= o <= MAX_ORDER → pages_from zd o < 2 ^ 31.
Proof.
  intros C Ho. replace o with (Z.of_nat (Z.to_nat o)) in * by lia. induction (Z.to_nat o) as [|n IH]; [apply C|].
  pose proof (pages_from_step zd (Z.of_nat n) ltac:(lia)) as E. pose proof (block_pages_nonneg zd (Z.of_nat n) C ltac:(lia)).
  replace (Z.of_nat (S n)) with (Z.of_nat n + 1) in * by lia. specialize (IH ltac:(lia)). lia.
Qed.

Lemma pages_from_block zd o : blocks_counted zd → 0 <= o → 0 < pages_from zd o → ∃ i, o <= i < MAX_ORDER ∧ 0 < stat (nr_free zd) i.
Proof.
  intros C Ho. unfold pages_from. intros Hpos. assert (∃ i, i ∈ seqZ o (MAX_ORDER - o) ∧ 0 < block_pages zd i) as (i & Hi & Hb).
  { induction (seqZ o _) as [|i l IH]; cbn [foldr] in Hpos; [done|]. destruct (Z.lt_ge_cases 0 (block_pages zd i)) as [H|H].
    - exists i. split; [left|done].
    - destruct IH as (j & Hj & Hb); [lia|]. exists j. split; [by right|done]. }
  apply elem_of_seqZ in Hi. exists i. split; [lia|]. pose proof (bc_nonneg _ C i ltac:(lia)). unfold block_pages in Hb. nia.
Qed.

(** ** What the check decides *)

Lemma s32_small z : - 2 ^ 31 <= z < 2 ^ 31 → s32 z = z.
Proof. apply s32_id. Qed.

Lemma lower_orders_ok_spec zd k : blocks_counted zd → 0 <= k < 2 ^ 11 → ∀ n o min, 0 <= o → o + Z.of_nat n <= MAX_ORDER → 
  lower_orders_ok n o zd (pages_from zd o - k) min = true ↔
  ∀ i, o <= i < o + Z.of_nat n → min / 2 ^ (i - o + 1) < pages_from zd (i + 1) - k.
Proof.
  intros C Hk. induction n as [|n IH]; intros o min Ho Hn; cbn [lower_orders_ok]; [split; [intros _ i Hi; lia|done]|].
  pose proof (pages_from_step zd o ltac:(unfold MAX_ORDER in *; lia)) as E. pose proof (pages_from_nonneg zd (o + 1) C ltac:(lia)) as H1.
  pose proof (pages_from_small zd o C ltac:(lia)) as H2. pose proof (block_pages_nonneg zd o C ltac:(lia)) as H3.
  rewrite Z.shiftl_mul_pow2 by done. change (stat (nr_free zd) o * 2 ^ o) with (block_pages zd o).
  rewrite (u32_id (block_pages zd o)) by (unfold is_u32; lia). rewrite s32_small by lia.
  replace (pages_from zd o - k - block_pages zd o) with (pages_from zd (o + 1) - k) by lia.
  unfold min_free_order_shift. rewrite Z.shiftr_div_pow2 by done. change (2 ^ 1) with 2.
  assert (∀ i, o + 1 <= i → min / 2 / 2 ^ (i - (o + 1) + 1) = min / 2 ^ (i - o + 1)) as Hdiv.
  { intros i Hi. rewrite Z.div_div by lia. f_equal. replace (i - o + 1) with (Z.succ (i - o)) by lia.
    rewrite Z.pow_succ_r by lia. f_equal. f_equal. lia. }
  destruct (Z.leb_spec (pages_from zd (o + 1) - k) (min / 2)) as [Hle|Hlt].
  - split; [done|]. intros H. specialize (H o ltac:(lia)). replace (o - o + 1) with 1 in H by lia. change (2 ^ 1) with 2 in H. lia.
  - rewrite IH by lia. split.
    + intros H i Hi. destruct (decide (i = o)) as [->|]; [by replace (o - o + 1) with 1 by lia|].
      rewrite <- Hdiv by lia. apply H. lia.
    + intros H i Hi. rewrite Hdiv by lia. apply H. lia.
Qed.

Lemma order_pages_small order : 0 <= order < MAX_ORDER → 0 <= 2 ^ order - 1 < 2 ^ 11.
Proof.
  intros Ho. pose proof (Z.pow_lt_mono_r 2 order 11 ltac:(lia) ltac:(lia) ltac:(unfold MAX_ORDER in *; lia)).
  pose proof (Z.pow_pos_nonneg 2 order ltac:(lia) ltac:(lia)). lia.
Qed.

(** The condition that the check is for. *)
Definition above_mark (zd : zone) (order mark reserve : Z) : Prop :=
  mark + reserve < pages_from zd 0 - (2 ^ order - 1) ∧
  ∀ o, 0 <= o < order → mark / 2 ^ (o + 1) < pages_from zd (o + 1) - (2 ^ order - 1).

(** With fewer pages than the request needs, the first lower order fails the check. *)
Lemma above_mark_enough zd order mark : blocks_counted zd → 0 <= order → 0 <= mark → 
  (∀ o, 0 <= o < order → mark / 2 ^ (o + 1) < pages_from zd (o + 1) - (2 ^ order - 1)) → 2 ^ order - 1 <= pages_from zd 0.
Proof.
  intros C Ho Hm H. pose proof (pages_from_nonneg zd 0 C ltac:(lia)). destruct (decide (order = 0)) as [->|]; [change (2 ^ 0) with 1; lia|].
  specialize (H 0 ltac:(lia)). pose proof (pages_from_step zd 0 ltac:(done)). pose proof (block_pages_nonneg zd 0 C ltac:(done)).
  pose proof (Z.div_pos mark (2 ^ (0 + 1)) Hm ltac:(lia)). lia.
Qed.

Lemma zone_watermark_ok_spec zd order mark i : blocks_counted zd → 0 <= order < MAX_ORDER →
  0 <= mark → 0 <= stat (lowmem_reserve zd) i → mark + stat (lowmem_reserve zd) i < 2 ^ 31 →
  zone_watermark_ok zd order mark i 0 = true ↔ above_mark zd order mark (stat (lowmem_reserve zd) i).
Proof.
  intros C Ho Hm Hr Hsum. pose proof (order_pages_small order Ho) as Hk.
  pose proof (pages_from_nonneg zd 0 C ltac:(lia)) as Hn0. pose proof (bc_small _ C) as Hs0.
  unfold zone_watermark_ok, __zone_watermark_ok, zone_page_state, above_mark. rewrite (bc_free _ C), (u32_id (pages_from zd 0)) by (unfold is_u32; lia).
  rewrite Z.shiftl_1_l, (s32_small (2 ^ order)), (s32_small (2 ^ order - 1)) by lia.
  rewrite (s32_small (pages_from zd 0)), (s32_small (pages_from zd 0 - _)), (s32_small mark) by lia. cbn [has Z.land Z.eqb negb].
  rewrite (u32_id (mark + _)) by (unfold is_u32; lia).
  pose proof (lower_orders_ok_spec zd _ C Hk (Z.to_nat order) 0 mark ltac:(lia) ltac:(lia)) as Hloop. rewrite Z2Nat.id in Hloop by lia.
  assert (lower_orders_ok (Z.to_nat order) 0 zd (pages_from zd 0 - (2 ^ order - 1)) mark = true ↔
    ∀ o, 0 <= o < order → mark / 2 ^ (o + 1) < pages_from zd (o + 1) - (2 ^ order - 1)) as E.
  { rewrite Hloop. split; intros H o Hlt; specialize (H o ltac:(lia)); by replace (o - 0 + 1) with (o + 1) in * by lia. }
  clear Hloop. destruct (Z.lt_ge_cases (pages_from zd 0) (2 ^ order - 1)) as [Hneg|Hge].
  - pose proof (above_mark_enough zd order mark C ltac:(lia) Hm) as Hen.
    set (low := ∀ o, _) in *. assert (¬ low) as Hno by (intros H; specialize (Hen H); lia).
    destruct (u32 _ <=? _); [|rewrite E]; (split; [done|]); by intros [_ ?].
  - rewrite u32_id by (unfold is_u32; lia).
    destruct (Z.leb_spec (pages_from zd 0 - (2 ^ order - 1)) (mark + stat (lowmem_reserve zd) i)) as [Hle|Hlt]; [split; [done|lia]|].
    rewrite E. split; [done|]. by intros [_ ?].
Qed.

Lemma above_mark_block zd order mark reserve : blocks_counted zd → 0 <= order < MAX_ORDER → 0 <= mark → 0 <= reserve →
  above_mark zd order mark reserve → ∃ o, order <= o < MAX_ORDER ∧ 0 < stat (nr_free zd) o.
Proof.
  intros C Ho Hm Hr [H1 H2]. apply pages_from_block; [done|lia|].
  pose proof (order_pages_small order Ho). destruct (decide (order = 0)) as [->|Hne]; [lia|].
  specialize (H2 (order - 1) ltac:(lia)). replace (order - 1 + 1) with order in H2 by lia.
  pose proof (Z.div_pos mark (2 ^ order) Hm ltac:(by apply Z.pow_pos_nonneg; lia)). lia.
Qed.

(** C37. The watermark check of [page_alloc.c] passes exactly if the free pages that
    remain after the request exceed the mark and the reserve, and at each lower order the
    pages in larger blocks exceed the mark halved as often; although the code compares the
    free pages, which may be negative, with an unsigned sum. A check that passes
    guarantees a free block that is large enough for the request. *)
Theorem zone_watermark_ok_serves zd order mark classzone_idx : blocks_counted zd → 0 <= order < MAX_ORDER →
  0 <= mark → 0 <= stat (lowmem_reserve zd) classzone_idx → mark + stat (lowmem_reserve zd) classzone_idx < 2 ^ 31 →
  (zone_watermark_ok zd order mark classzone_idx 0 = true ↔ above_mark zd order mark (stat (lowmem_reserve zd) classzone_idx)) ∧
  (zone_watermark_ok zd order mark classzone_idx 0 = true → ∃ o, order <= o < MAX_ORDER ∧ 0 < stat (nr_free zd) o).
Proof.
  intros C Ho Hm Hr Hsum. rewrite zone_watermark_ok_spec by done. split; [done|]. by apply above_mark_block.
Qed.

(** A zone with three single pages and two blocks of four. *)
Definition demo_blocks : zone := Zone false {[ 0 := 11 ]} ∅ ∅ 0 false false 1 16 (1, 2, 3) {[ 1 := 2 ]} {[ 0 := 3; 2 := 2 ]}.

Lemma demo_blocks_counted : blocks_counted demo_blocks.
Proof.
  split; [|vm_compute; reflexivity|vm_compute; reflexivity]. intros o _. unfold stat. cbn [nr_free demo_blocks].
  destruct (decide (o = 0)) as [->|]; [vm_compute; discriminate|]. destruct (decide (o = 2)) as [->|]; [vm_compute; discriminate|].
  rewrite lookup_insert_ne, lookup_singleton_ne by done. done.
Qed.

Lemma zone_watermark_ok_serves_witness :
  zone_watermark_ok demo_blocks 2 3 1 0 = true ∧ ∃ o, 2 <= o < MAX_ORDER ∧ 0 < stat (nr_free demo_blocks) o.
Proof.
  assert (zone_watermark_ok demo_blocks 2 3 1 0 = true) as E by (vm_compute; reflexivity). split; [exact E|].
  apply (zone_watermark_ok_serves demo_blocks 2 3 1 demo_blocks_counted); [done|done|vm_compute; discriminate|vm_compute; reflexivity|exact E].
Defined.
