(* ===== verification/Buddy.v ===== *)
(** * The page allocator of a zone

    Models the buddy system of [mm/page_alloc.c]: freeing and merging of blocks
    ([__free_one_page]), splitting and allocation ([expand], [__rmqueue] with the fall-back
    between mobility types), the lists of single pages of the CPU ([free_hot_cold_page],
    [buffered_rmqueue]), and the checks of page frames, for a configuration without
    debugging of the allocator and with a contiguous memory map.

    A page is its frame number. The state is that of one zone: the frames that the memory
    map has around it, the linked lists through [page->lru], the zone's counters and lock,
    and the mobility type of each block of [pageblock_nr_pages] pages. *)

From S2P Require Import Prelude Lru Vmscan VmscanZone Watermark.

Definition PG_reserved : Z := 10.
Definition PG_slab : Z := 7.
Definition NR_PAGEFLAGS : Z := 22.
Definition NR_MLOCK : Z := 6.

Definition MIGRATE_UNMOVABLE : Z := 0.
Definition MIGRATE_RECLAIMABLE : Z := 1.
Definition MIGRATE_MOVABLE : Z := 2.
Definition MIGRATE_PCPTYPES : Z := 3.
Definition MIGRATE_RESERVE : Z := 3.
Definition MIGRATE_ISOLATE : Z := 4.
Definition MIGRATE_TYPES : Z := 5.

Definition pageblock_order : Z := MAX_ORDER - 1.
Definition pageblock_nr_pages : Z := 2 ^ pageblock_order.

Definition PAGE_BUDDY_MAPCOUNT_VALUE : Z := -128.

Definition __GFP_COLD : Z := 0x100.
Definition __GFP_COMP : Z := 0x4000.

Definition PAGE_FLAGS_CHECK_AT_FREE : Z :=
  foldr (λ b m, Z.lor (2 ^ b) m) 0
    [PG_lru; PG_locked; PG_private; PG_private_2; PG_writeback; PG_reserved; PG_slab; PG_swapcache; PG_active; PG_unevictable; PG_mlocked].

Definition PAGE_FLAGS_CHECK_AT_PREP : Z := Z.ones NR_PAGEFLAGS.

(** What the allocator uses of [struct page]; [c_order] is the order of a compound page,
    which its first tail page holds. *)
Record frame := Frame {
  f_flags : Z;
  f_count : Z;
  f_mapcount : Z;
  f_mapping : page_map;
  private : Z;
  f_first_page : Z;
  c_order : Z;
  page_zone_id : Z;
}.

Definition set_f_flags (x : Z) (f : frame) : frame :=
  Frame x (f_count f) (f_mapcount f) (f_mapping f) (private f) (f_first_page f) (c_order f) (page_zone_id f).
Definition set_page_count (x : Z) (f : frame) : frame :=
  Frame (f_flags f) x (f_mapcount f) (f_mapping f) (private f) (f_first_page f) (c_order f) (page_zone_id f).
Definition set_f_mapcount (x : Z) (f : frame) : frame :=
  Frame (f_flags f) (f_count f) x (f_mapping f) (private f) (f_first_page f) (c_order f) (page_zone_id f).
Definition set_f_mapping (x : page_map) (f : frame) : frame :=
  Frame (f_flags f) (f_count f) (f_mapcount f) x (private f) (f_first_page f) (c_order f) (page_zone_id f).
Definition set_page_private (x : Z) (f : frame) : frame :=
  Frame (f_flags f) (f_count f) (f_mapcount f) (f_mapping f) x (f_first_page f) (c_order f) (page_zone_id f).
Definition set_first_page (x : Z) (f : frame) : frame :=
  Frame (f_flags f) (f_count f) (f_mapcount f) (f_mapping f) (private f) x (c_order f) (page_zone_id f).
Definition set_c_order (x : Z) (f : frame) : frame :=
  Frame (f_flags f) (f_count f) (f_mapcount f) (f_mapping f) (private f) (f_first_page f) x (page_zone_id f).

Definition PageBuddy (f : frame) : bool := f_mapcount f =? PAGE_BUDDY_MAPCOUNT_VALUE.
Definition __SetPageBuddy (f : frame) : frame := set_f_mapcount PAGE_BUDDY_MAPCOUNT_VALUE f.
Definition __ClearPageBuddy (f : frame) : frame := set_f_mapcount (-1) f.
Definition reset_page_mapcount (f : frame) : frame := set_f_mapcount (-1) f.
Definition page_order (f : frame) : Z := private f.

Definition set_page_order (order : Z) (f : frame) : frame := __SetPageBuddy (set_page_private order f).
Definition rmv_page_order (f : frame) : frame := set_page_private 0 (__ClearPageBuddy f).

(** The lists: [(order, type)] is a list of free blocks, [(-1, type)] a list of the CPU. *)
Definition free_list (order migratetype : Z) : head := (order, migratetype).
Definition pcp_list (migratetype : Z) : head := (-1, migratetype).

Record zst := ZSt {
  frames : gmap Z frame;
  chains : gmap head (list Z);
  zdata : zone;
  zlock : bool;
  pcp_count : Z;
  pageblock_flags : gmap Z Z;
  zevents : gmap string Z;
}.

Definition set_frames (x : gmap Z frame) (s : zst) : zst :=
  ZSt x (chains s) (zdata s) (zlock s) (pcp_count s) (pageblock_flags s) (zevents s).
Definition set_chains (x : gmap head (list Z)) (s : zst) : zst :=
  ZSt (frames s) x (zdata s) (zlock s) (pcp_count s) (pageblock_flags s) (zevents s).
Definition set_zdata (x : zone) (s : zst) : zst :=
  ZSt (frames s) (chains s) x (zlock s) (pcp_count s) (pageblock_flags s) (zevents s).
Definition set_zlock (x : bool) (s : zst) : zst :=
  ZSt (frames s) (chains s) (zdata s) x (pcp_count s) (pageblock_flags s) (zevents s).
Definition set_pcp_count (x : Z) (s : zst) : zst :=
  ZSt (frames s) (chains s) (zdata s) (zlock s) x (pageblock_flags s) (zevents s).
Definition set_pageblock_flags (x : gmap Z Z) (s : zst) : zst :=
  ZSt (frames s) (chains s) (zdata s) (zlock s) (pcp_count s) x (zevents s).
Definition set_zevents (x : gmap string Z) (s : zst) : zst :=
  ZSt (frames s) (chains s) (zdata s) (zlock s) (pcp_count s) (pageblock_flags s) x.

Definition chain (s : zst) (h : head) : list Z := default [] (chains s !! h).

(** ** Access to the state *)

Definition frame_at (p : Z) : M zst frame := m ← gets frames; of_option (BadAddr p) (m !! p).

Definition upd_frame (p : Z) (f : frame → frame) : M zst () :=
  fr ← frame_at p;
  modify (λ s, set_frames (<[p := f fr]> (frames s)) s).

Definition upd_zdata (f : zone → zone) : M zst () := modify (λ s, set_zdata (f (zdata s)) s).

Definition set_nr_free (m : gmap Z Z) (z : zone) : zone :=
  Zone (lru_lock z) (vm_stat z) (recent_rotated z) (recent_scanned z) (pages_scanned z) (all_unreclaimable z) (congested z)
    (inactive_ratio z) (present_pages z) (watermark z) (lowmem_reserve z) m.

Definition add_nr_free (order d : Z) : M zst () := upd_zdata (λ zd, set_nr_free (add_stat order d (nr_free zd)) zd).
Definition mod_zone_state (item d : Z) : M zst () := upd_zdata (λ zd, set_vm_stat (add_stat item d (vm_stat zd)) zd).

Definition count_zevents (e : string) (n : Z) : M zst () :=
  modify (λ s, set_zevents (<[e := default 0 (zevents s !! e) + n]> (zevents s)) s).

Definition spin_lock : M zst () :=
  b ← gets zlock;
  if (b : bool) then fail Deadlock else modify (set_zlock true).
Definition spin_unlock : M zst () := modify (set_zlock false).

Definition in_chain (p : Z) (s : zst) : bool := bool_decide (map_Exists (λ _ l, p ∈ l) (chains s)).

Definition chain_del (p : Z) : M zst () :=
  b ← gets (in_chain p);
  if (b : bool) then modify (λ s, set_chains (without p <$> chains s) s) else fail ListCorrupt.

Definition chain_put (p : Z) (h : head) (f : list Z → list Z) : M zst () :=
  b ← gets (in_chain p);
  if (b : bool) then fail ListCorrupt
  else modify (λ s, set_chains (<[h := f (chain s h)]> (chains s)) s).

Definition chain_add (p : Z) (h : head) : M zst () := chain_put p h (λ l, p :: l).
Definition chain_add_tail (p : Z) (h : head) : M zst () := chain_put p h (λ l, l ++ [p]).
Definition chain_move (p : Z) (h : head) : M zst () := chain_del p;; chain_add p h.

Class Allocator := {
  zone_id : Z;
  zone_start_pfn : Z;
  spanned_pages : Z;
  pcp_high : Z;
  pcp_batch : Z;
  page_group_by_mobility_disabled : bool;
}.

Section buddy.
Context `{Allocator}.

(** ** Checks of frames *)

(** [bad_page], but for its messages. *)
Definition bad_page (p : Z) : M zst () := upd_frame p reset_page_mapcount.

Definition has_mapping (f : frame) : bool := match f_mapping f with NoMap => false | _ => true end.

(** What no page may have that is freed or allocated. *)
Definition in_use (mask : Z) (f : frame) : bool :=
  negb (f_mapcount f + 1 =? 0) || has_mapping f || negb (f_count f =? 0) || has (f_flags f) mask.

(** Whether the page is bad. *)
Definition free_pages_check (p : Z) : M zst bool :=
  f ← frame_at p;
  if in_use PAGE_FLAGS_CHECK_AT_FREE f then
    bad_page p;;
    mret true
  else
    when (has (f_flags f) PAGE_FLAGS_CHECK_AT_PREP) (upd_frame p (λ f, set_f_flags (Z.ldiff (f_flags f) PAGE_FLAGS_CHECK_AT_PREP) f));;
    mret false.

Definition check_new_page (p : Z) : M zst bool :=
  f ← frame_at p;
  if in_use PAGE_FLAGS_CHECK_AT_PREP f then
    bad_page p;;
    mret true
  else mret false.

Fixpoint check_all (ps : list Z) (bad : Z) : M zst Z :=
  match ps with
  | [] => mret bad
  | p :: ps =>
      b ← free_pages_check p;
      check_all ps (if (b : bool) then bad + 1 else bad)
  end.

(** The frames of a block. *)
Definition block_frames (p order : Z) : list Z := seqZ p (2 ^ order).

Definition free_pages_prepare (p order : Z) : M zst bool :=
  f ← frame_at p;
  when (match f_mapping f with AnonMap _ => true | _ => false end) (upd_frame p (set_f_mapping NoMap));;
  bad ← check_all (block_frames p order) 0;
  mret (bad =? 0).

(** ** Compound pages *)

Definition frame_head (f : frame) : bool := Z.testbit (f_flags f) PG_head.
Definition frame_tail (f : frame) : bool := Z.testbit (f_flags f) PG_tail.

Definition set_flag (b : Z) (f : frame) : frame := set_f_flags (Z.setbit (f_flags f) b) f.
Definition clear_flag (b : Z) (f : frame) : frame := set_f_flags (Z.clearbit (f_flags f) b) f.

Fixpoint prep_tails (ps : list Z) (page : Z) : M zst () :=
  match ps with
  | [] => mret ()
  | p :: ps =>
      upd_frame p (λ f, set_first_page page (set_page_count 0 (set_flag PG_tail f)));;
      prep_tails ps page
  end.

Definition prep_compound_page (page order : Z) : M zst () :=
  upd_frame (page + 1) (set_c_order order);;
  upd_frame page (set_flag PG_head);;
  prep_tails (seqZ (page + 1) (2 ^ order - 1)) page.

Fixpoint destroy_tails (ps : list Z) (page bad : Z) : M zst Z :=
  match ps with
  | [] => mret bad
  | p :: ps =>
      f ← frame_at p;
      let wrong := negb (frame_tail f) || negb (f_first_page f =? page) in
      when wrong (bad_page page);;
      upd_frame p (clear_flag PG_tail);;
      destroy_tails ps page (if wrong then bad + 1 else bad)
  end.

Definition compound_order (page : Z) : M zst Z :=
  f ← frame_at page;
  if frame_head f then
    f1 ← frame_at (page + 1);
    mret (c_order f1)
  else mret 0.

Definition destroy_compound_page (page order : Z) : M zst Z :=
  o ← compound_order page;
  f ← frame_at page;
  let wrong := negb (o =? order) || negb (frame_head f) in
  when wrong (bad_page page);;
  upd_frame page (clear_flag PG_head);;
  destroy_tails (seqZ (page + 1) (2 ^ order - 1)) page (if wrong then 1 else 0).

(** ** Freeing *)

Definition __find_buddy_index (page_idx order : Z) : Z := Z.lxor page_idx (Z.shiftl 1 order).

Definition page_is_buddy (page buddy order : Z) : M zst bool :=
  fp ← frame_at page;
  fb ← frame_at buddy;
  if negb (page_zone_id fp =? page_zone_id fb) then mret false
  else mret (PageBuddy fb && (page_order fb =? order)).

(** The loop that merges the block with its buddy; [n] bounds the iterations. *)
Fixpoint merge_buddies (n : nat) (page page_idx order : Z) : M zst (Z * Z * Z) :=
  if order <? MAX_ORDER - 1 then
    match n with
    | O => fail NoFuel
    | S n =>
        let buddy_idx := __find_buddy_index page_idx order in
        let buddy := page + (buddy_idx - page_idx) in
        b ← page_is_buddy page buddy order;
        if (b : bool) then
          chain_del buddy;;
          add_nr_free order (-1);;
          upd_frame buddy rmv_page_order;;
          let combined_idx := Z.land buddy_idx page_idx in
          merge_buddies n (page + (combined_idx - page_idx)) combined_idx (order + 1)
        else mret (page, page_idx, order)
    end
  else mret (page, page_idx, order).

(** Whether the buddy of the next order is free. *)
Definition higher_buddy_free (page page_idx order : Z) : M zst bool :=
  if order <? MAX_ORDER - 2 then
    let buddy_idx := __find_buddy_index page_idx order in
    let combined_idx := Z.land buddy_idx page_idx in
    let higher_page := page + (combined_idx - page_idx) in
    let buddy_idx := __find_buddy_index combined_idx (order + 1) in
    let higher_buddy := higher_page + (buddy_idx - combined_idx) in
    page_is_buddy higher_page higher_buddy (order + 1)
  else mret false.

Definition __free_one_page (page order migratetype : Z) : M zst () :=
  f ← frame_at page;
  bad ← (if frame_head f || frame_tail f then destroy_compound_page page order else mret 0);
  if negb (bad =? 0) then mret ()
  else
    let page_idx := Z.land page (Z.shiftl 1 MAX_ORDER - 1) in
    r ← merge_buddies (Z.to_nat MAX_ORDER) page page_idx order;
    let '(page, page_idx, order) := r in
    upd_frame page (set_page_order order);;
    tail ← higher_buddy_free page page_idx order;
    (if (tail : bool) then chain_add_tail page (free_list order migratetype)
     else chain_add page (free_list order migratetype));;
    add_nr_free order 1.

Definition free_one_page (page order migratetype : Z) : M zst () :=
  spin_lock;;
  upd_zdata (set_all_unreclaimable false);;
  upd_zdata (set_pages_scanned 0);;
  __free_one_page page order migratetype;;
  mod_zone_state NR_FREE_PAGES (2 ^ order);;
  spin_unlock.

(** The mobility type of the block of the page. *)
Definition pageblock_index (p : Z) : Z :=
  Z.shiftr (p - Z.land zone_start_pfn (Z.lnot (pageblock_nr_pages - 1))) pageblock_order.

Definition get_pageblock_migratetype (p : Z) : M zst Z :=
  m ← gets pageblock_flags;
  mret (stat m (pageblock_index p)).

Definition set_pageblock_migratetype (p migratetype : Z) : M zst () :=
  let migratetype := if page_group_by_mobility_disabled then MIGRATE_UNMOVABLE else migratetype in
  modify (λ s, set_pageblock_flags (<[pageblock_index p := Z.land migratetype 7]> (pageblock_flags s)) s).

Definition free_page_mlock : M zst () :=
  mod_zone_state NR_MLOCK (-1);;
  count_zevents "UNEVICTABLE_MLOCKFREED" 1.

Definition test_clear_mlocked (p : Z) : M zst bool :=
  f ← frame_at p;
  upd_frame p (clear_flag PG_mlocked);;
  mret (Z.testbit (f_flags f) PG_mlocked).

Definition __free_pages_ok (p order : Z) : M zst () :=
  wasMlocked ← test_clear_mlocked p;
  ok ← free_pages_prepare p order;
  if negb (ok : bool) then mret ()
  else
    when wasMlocked free_page_mlock;;
    count_zevents "PGFREE" (2 ^ order);;
    mt ← get_pageblock_migratetype p;
    free_one_page p order mt.

(** *** The lists of the CPU *)

(** The next list that is not empty; with all lists empty the loop would not end. *)
Fixpoint next_list (n : nat) (migratetype batch_free : Z) : M zst (Z * Z) :=
  match n with
  | O => fail NoFuel
  | S n =>
      let batch_free := batch_free + 1 in
      let migratetype := if migratetype + 1 =? MIGRATE_PCPTYPES then 0 else migratetype + 1 in
      l ← gets (λ s, chain s (pcp_list migratetype));
      if bool_decide (l = []) then next_list n migratetype batch_free
      else mret (migratetype, batch_free)
  end.

(** Pages from the tail of one list; what is left of [to_free] and of [batch_free]. *)
Fixpoint free_batch (n : nat) (migratetype to_free batch_free : Z) : M zst (Z * Z) :=
  match n with
  | O => fail NoFuel
  | S n =>
      l ← gets (λ s, chain s (pcp_list migratetype));
      p ← of_option ListCorrupt (last l);
      chain_del p;;
      f ← frame_at p;
      __free_one_page p 0 (private f);;
      let to_free := to_free - 1 in
      if to_free =? 0 then mret (to_free, batch_free)
      else
        let batch_free := batch_free - 1 in
        if batch_free =? 0 then mret (to_free, batch_free)
        else
          l ← gets (λ s, chain s (pcp_list migratetype));
          if bool_decide (l = []) then mret (to_free, batch_free)
          else free_batch n migratetype to_free batch_free
  end.

Fixpoint bulk_loop (n : nat) (migratetype to_free batch_free : Z) : M zst () :=
  if to_free =? 0 then mret ()
  else
    match n with
    | O => fail NoFuel
    | S n =>
        r ← next_list (Z.to_nat MIGRATE_PCPTYPES) migratetype batch_free;
        let '(migratetype, batch_free) := r in
        let batch_free := if batch_free =? MIGRATE_PCPTYPES then to_free else batch_free in
        r ← free_batch (Z.to_nat to_free) migratetype to_free batch_free;
        let '(to_free, batch_free) := r in
        bulk_loop n migratetype to_free batch_free
    end.

Definition free_pcppages_bulk (count : Z) : M zst () :=
  spin_lock;;
  upd_zdata (set_all_unreclaimable false);;
  upd_zdata (set_pages_scanned 0);;
  bulk_loop (Z.to_nat count) 0 count 0;;
  mod_zone_state NR_FREE_PAGES count;;
  spin_unlock.

Definition free_hot_cold_page (p : Z) (cold : bool) : M zst () :=
  wasMlocked ← test_clear_mlocked p;
  ok ← free_pages_prepare p 0;
  if negb (ok : bool) then mret ()
  else
    mt ← get_pageblock_migratetype p;
    upd_frame p (set_page_private mt);;
    when wasMlocked free_page_mlock;;
    count_zevents "PGFREE" 1;;
    if (MIGRATE_PCPTYPES <=? mt) && (mt =? MIGRATE_ISOLATE) then free_one_page p 0 mt
    else
      let mt := if MIGRATE_PCPTYPES <=? mt then MIGRATE_MOVABLE else mt in
      (if cold then chain_add_tail p (pcp_list mt) else chain_add p (pcp_list mt));;
      n ← gets pcp_count;
      modify (set_pcp_count (n + 1));;
      when (pcp_high <=? n + 1)
        (free_pcppages_bulk pcp_batch;;
         n ← gets pcp_count;
         modify (set_pcp_count (n - pcp_batch))).

Fixpoint free_hot_cold_page_list (l : list Z) (cold : bool) : M zst () :=
  match l with
  | [] => mret ()
  | p :: l =>
      free_hot_cold_page p cold;;
      free_hot_cold_page_list l cold
  end.

(** The pages of the CPU are given back to the zone. *)
Definition drain_pages : M zst () :=
  n ← gets pcp_count;
  when (negb (n =? 0))
    (free_pcppages_bulk n;;
     modify (set_pcp_count 0)).

Definition __free_pages (p order : Z) : M zst () :=
  f ← frame_at p;
  upd_frame p (set_page_count (f_count f - 1));;
  when (f_count f - 1 =? 0)
    (if order =? 0 then free_hot_cold_page p false else __free_pages_ok p order).

(** The destructor of a compound page. *)
Definition free_compound_page (p : Z) : M zst () :=
  o ← compound_order p;
  __free_pages_ok p o.

Fixpoint unreserve (ps : list Z) : M zst () :=
  match ps with
  | [] => mret ()
  | p :: ps =>
      upd_frame p (λ f, set_page_count 0 (clear_flag PG_reserved f));;
      unreserve ps
  end.

(** A block of pages is handed over at boot. *)
Definition __free_pages_bootmem (p order : Z) : M zst () :=
  unreserve (block_frames p order);;
  upd_frame p (set_page_count 1);;
  __free_pages p order.

(** ** Allocation *)

(** The block at [page] of order [low + n] is split down to [low]: the upper halves become
    free blocks. *)
Fixpoint expand (n : nat) (page low migratetype : Z) : M zst () :=
  match n with
  | O => mret ()
  | S n =>
      let high := low + Z.of_nat n in
      let size := 2 ^ high in
      chain_add (page + size) (free_list high migratetype);;
      add_nr_free high 1;;
      upd_frame (page + size) (set_page_order high);;
      expand n page low migratetype
  end.

Fixpoint rmqueue_orders (orders : list Z) (order migratetype : Z) : M zst (option Z) :=
  match orders with
  | [] => mret None
  | current_order :: orders =>
      l ← gets (λ s, chain s (free_list current_order migratetype));
      match l with
      | [] => rmqueue_orders orders order migratetype
      | page :: _ =>
          chain_del page;;
          upd_frame page rmv_page_order;;
          add_nr_free current_order (-1);;
          expand (Z.to_nat (current_order - order)) page order migratetype;;
          mret (Some page)
      end
  end.

Definition __rmqueue_smallest (order migratetype : Z) : M zst (option Z) :=
  rmqueue_orders (seqZ order (MAX_ORDER - order)) order migratetype.

(** The rows of the table have a column more than the source gives entries, which is 0. *)
Definition fallbacks (migratetype : Z) : list Z :=
  if migratetype =? MIGRATE_UNMOVABLE then [MIGRATE_RECLAIMABLE; MIGRATE_MOVABLE; MIGRATE_RESERVE; 0]
  else if migratetype =? MIGRATE_RECLAIMABLE then [MIGRATE_UNMOVABLE; MIGRATE_MOVABLE; MIGRATE_RESERVE; 0]
  else if migratetype =? MIGRATE_MOVABLE then [MIGRATE_RECLAIMABLE; MIGRATE_UNMOVABLE; MIGRATE_RESERVE; 0]
  else if migratetype =? MIGRATE_RESERVE then [MIGRATE_RESERVE; MIGRATE_RESERVE; MIGRATE_RESERVE; 0]
  else [0; 0; 0; 0].

(** The free blocks between two pages get another type; [n] bounds the iterations. *)
Fixpoint move_loop (n : nat) (page end_page migratetype pages_moved : Z) : M zst Z :=
  if end_page <? page then mret pages_moved
  else
    match n with
    | O => fail NoFuel
    | S n =>
        f ← frame_at page;
        if negb (PageBuddy f) then move_loop n (page + 1) end_page migratetype pages_moved
        else
          let order := page_order f in
          chain_move page (free_list order migratetype);;
          move_loop n (page + 2 ^ order) end_page migratetype (pages_moved + 2 ^ order)
    end.

Definition move_freepages (start_page end_page migratetype : Z) : M zst Z :=
  fs ← frame_at start_page;
  fe ← frame_at end_page;
  if negb (page_zone_id fs =? page_zone_id fe) then fail (BugOn 918)
  else move_loop (Z.to_nat (end_page - start_page + 1)) start_page end_page migratetype 0.

Definition move_freepages_block (page migratetype : Z) : M zst Z :=
  let start_pfn := Z.land page (Z.lnot (pageblock_nr_pages - 1)) in
  let end_pfn := start_pfn + pageblock_nr_pages - 1 in
  let start_page := if start_pfn <? zone_start_pfn then page else start_pfn in
  if zone_start_pfn + spanned_pages <=? end_pfn then mret 0
  else move_freepages start_page end_pfn migratetype.

Fixpoint change_blocks (n : nat) (page migratetype : Z) : M zst () :=
  match n with
  | O => mret ()
  | S n =>
      set_pageblock_migratetype page migratetype;;
      change_blocks n (page + pageblock_nr_pages) migratetype
  end.

Definition change_pageblock_range (page start_order migratetype : Z) : M zst () :=
  change_blocks (Z.to_nat (2 ^ (start_order - pageblock_order))) page migratetype.

(** The block [page] of another type is taken. *)
Definition take_fallback (page current_order order start_migratetype migratetype : Z) : M zst () :=
  add_nr_free current_order (-1);;
  migratetype ← (if (pageblock_order / 2 <=? current_order) || (start_migratetype =? MIGRATE_RECLAIMABLE) || page_group_by_mobility_disabled then
      pages ← move_freepages_block page start_migratetype;
      when ((2 ^ (pageblock_order - 1) <=? pages) || page_group_by_mobility_disabled)
        (set_pageblock_migratetype page start_migratetype);;
      mret start_migratetype
    else mret migratetype);
  chain_del page;;
  upd_frame page rmv_page_order;;
  when (pageblock_order <=? current_order) (change_pageblock_range page current_order start_migratetype);;
  expand (Z.to_nat (current_order - order)) page order migratetype.

Fixpoint fallback_types (types : list Z) (current_order order start_migratetype : Z) : M zst (option Z) :=
  match types with
  | [] => mret None
  | migratetype :: types =>
      if migratetype =? MIGRATE_RESERVE then fallback_types types current_order order start_migratetype
      else
        l ← gets (λ s, chain s (free_list current_order migratetype));
        match l with
        | [] => fallback_types types current_order order start_migratetype
        | page :: _ =>
            take_fallback page current_order order start_migratetype migratetype;;
            mret (Some page)
        end
  end.

(** From the largest order down to [order]; [n] of them. *)
Fixpoint fallback_orders (n : nat) (order start_migratetype : Z) : M zst (option Z) :=
  match n with
  | O => mret None
  | S n =>
      r ← fallback_types (fallbacks start_migratetype) (order + Z.of_nat n) order start_migratetype;
      match r with
      | Some page => mret (Some page)
      | None => fallback_orders n order start_migratetype
      end
  end.

Definition __rmqueue_fallback (order start_migratetype : Z) : M zst (option Z) :=
  fallback_orders (Z.to_nat (MAX_ORDER - order)) order start_migratetype.

(** The reserve is taken rather than fail. *)
Definition __rmqueue (order migratetype : Z) : M zst (option Z) :=
  r ← __rmqueue_smallest order migratetype;
  match r with
  | Some page => mret (Some page)
  | None =>
      if migratetype =? MIGRATE_RESERVE then mret None
      else
        r ← __rmqueue_fallback order migratetype;
        match r with
        | Some page => mret (Some page)
        | None => __rmqueue_smallest order MIGRATE_RESERVE
        end
  end.

(** Next to the page [pos], or to the head of the list. *)
Fixpoint insert_after (pos p : Z) (l : list Z) : list Z :=
  match l with
  | [] => []
  | q :: l => if q =? pos then q :: p :: l else q :: insert_after pos p l
  end.
Fixpoint insert_before (pos p : Z) (l : list Z) : list Z :=
  match l with
  | [] => []
  | q :: l => if q =? pos then p :: q :: l else q :: insert_before pos p l
  end.

(** The pages are linked one behind the other; the number of pages. *)
Fixpoint rmqueue_loop (n : nat) (order migratetype : Z) (h : head) (cold : bool) (pos : option Z) (i : Z) : M zst Z :=
  match n with
  | O => mret i
  | S n =>
      r ← __rmqueue order migratetype;
      match r with
      | None => mret i
      | Some page =>
          chain_put page h (match pos, cold with
            | None, false => cons page
            | None, true => λ l, l ++ [page]
            | Some q, false => insert_after q page
            | Some q, true => insert_before q page
            end);;
          upd_frame page (set_page_private migratetype);;
          rmqueue_loop n order migratetype h cold (Some page) (i + 1)
      end
  end.

Definition rmqueue_bulk (order count : Z) (h : head) (migratetype : Z) (cold : bool) : M zst Z :=
  spin_lock;;
  i ← rmqueue_loop (Z.to_nat count) order migratetype h cold None 0;
  mod_zone_state NR_FREE_PAGES (- (i * 2 ^ order));;
  spin_unlock;;
  mret i.

Fixpoint check_new_pages (ps : list Z) : M zst bool :=
  match ps with
  | [] => mret false
  | p :: ps =>
      b ← check_new_page p;
      if (b : bool) then mret true else check_new_pages ps
  end.

(** Whether a page of the block is bad. The contents of pages are not modelled. *)
Definition prep_new_page (page order gfp_flags : Z) : M zst bool :=
  b ← check_new_pages (block_frames page order);
  if (b : bool) then mret true
  else
    upd_frame page (set_page_private 0);;
    upd_frame page (set_page_count 1);;
    when (negb (order =? 0) && has gfp_flags __GFP_COMP) (prep_compound_page page order);;
    mret false.

(** A page from the lists of the CPU, which are filled when they are empty. *)
Definition pcp_rmqueue (migratetype : Z) (cold : bool) : M zst (option Z) :=
  l ← gets (λ s, chain s (pcp_list migratetype));
  when (bool_decide (l = []))
    (i ← rmqueue_bulk 0 pcp_batch (pcp_list migratetype) migratetype cold;
     n ← gets pcp_count;
     modify (set_pcp_count (n + i)));;
  l ← gets (λ s, chain s (pcp_list migratetype));
  match (if cold then last l else hd_error l) with
  | None => mret None
  | Some page =>
      chain_del page;;
      n ← gets pcp_count;
      modify (set_pcp_count (n - 1));;
      mret (Some page)
  end.

(** A block of the zone. *)
Definition zone_rmqueue (order migratetype : Z) : M zst (option Z) :=
  spin_lock;;
  r ← __rmqueue order migratetype;
  spin_unlock;;
  match r with
  | None => mret None
  | Some page =>
      mod_zone_state NR_FREE_PAGES (- 2 ^ order);;
      mret (Some page)
  end.

(** A block with a bad page is not given out, and another one is taken; [n] bounds the
    retries. *)
Fixpoint buffered_rmqueue (n : nat) (order gfp_flags migratetype : Z) : M zst (option Z) :=
  let cold := has gfp_flags __GFP_COLD in
  r ← (if order =? 0 then pcp_rmqueue migratetype cold else zone_rmqueue order migratetype);
  match r with
  | None => mret None
  | Some page =>
      count_zevents "PGALLOC" (2 ^ order);;
      bad ← prep_new_page page order gfp_flags;
      if (bad : bool) then
        match n with
        | O => fail NoFuel
        | S n => buffered_rmqueue n order gfp_flags migratetype
        end
      else mret (Some page)
  end.

(** ** Splitting *)

Fixpoint set_refcounted (ps : list Z) : M zst () :=
  match ps with
  | [] => mret ()
  | p :: ps =>
      upd_frame p (set_page_count 1);;
      set_refcounted ps
  end.

Definition split_page (page order : Z) : M zst () := set_refcounted (seqZ (page + 1) (2 ^ order - 1)).

Fixpoint movable_blocks (n : nat) (page endpage : Z) : M zst () :=
  if page <? endpage then
    match n with
    | O => fail NoFuel
    | S n =>
        set_pageblock_migratetype page MIGRATE_MOVABLE;;
        movable_blocks n (page + pageblock_nr_pages) endpage
    end
  else mret ().

(** A free block is taken out of the zone as single pages; the number of pages. *)
Definition split_free_page (page : Z) : M zst Z :=
  f ← frame_at page;
  if negb (PageBuddy f) then fail (BugOn 1365)
  else
    let order := page_order f in
    zd ← gets zdata;
    if negb (zone_watermark_ok zd 0 (u32 (low_wmark_pages zd + 2 ^ order)) 0 0) then mret 0
    else
      chain_del page;;
      add_nr_free order (-1);;
      upd_frame page rmv_page_order;;
      mod_zone_state NR_FREE_PAGES (- 2 ^ order);;
      upd_frame page (set_page_count 1);;
      split_page page order;;
      when (pageblock_order - 1 <=? order)
        (movable_blocks (Z.to_nat (2 ^ order)) page (page + 2 ^ order - 1));;
      mret (2 ^ order).
End buddy.
