(* ===== verification/BuddyBlocks.v ===== *)
(** * Blocks of pages

    The combinatorics of a buddy system, apart from its data structures: aligned blocks,
    their buddies, and sets of disjoint blocks in which no two buddies are left unmerged.
    Such a set is determined by the pages it covers. *)

From S2P Require Import Prelude Watermark.

(** The pages of the block of order [o] at [p]. *)
Definition in_block (p o x : Z) : Prop := p <= x < p + 2 ^ o.

#[export] Instance in_block_dec p o x : Decision (in_block p o x).
Proof. unfold in_block. apply _. Defined.

Lemma in_block_0 p x : in_block p 0 x ↔ x = p.
Proof. unfold in_block. lia. Qed.

Definition aligned (p o : Z) : Prop := (2 ^ o | p).

(** The other half of the next larger block, and that block. *)
Definition buddy_of (p o : Z) : Z := Z.lxor p (2 ^ o).
Definition parent_of (p o : Z) : Z := Z.land (buddy_of p o) p.

Lemma pow2_pos o : 0 <= o → 0 < 2 ^ o.
Proof. intros. apply Z.pow_pos_nonneg; lia. Qed.
#[export] Hint Resolve pow2_pos : core.

Lemma pow2_S o : 0 <= o → 2 ^ (o + 1) = 2 * 2 ^ o.
Proof. intros. rewrite Z.pow_add_r by lia. change (2 ^ 1) with 2. lia. Qed.

(** ** Buddies *)

Lemma lxor_even_1 k : Z.lxor (2 * k) 1 = 2 * k + 1.
Proof.
  symmetry. apply Z.add_nocarry_lxor. change 1 with (Z.ones 1) at 1. rewrite Z.land_ones by done. change (2 ^ 1) with 2.
  rewrite Z.mul_comm. by apply Z.mod_mul.
Qed.

Lemma lxor_odd_1 k : Z.lxor (2 * k + 1) 1 = 2 * k.
Proof. rewrite <- lxor_even_1, Z.lxor_assoc, Z.lxor_nilpotent. apply Z.lxor_0_r. Qed.

Lemma land_odd_even k : Z.land (2 * k + 1) (2 * k) = 2 * k.
Proof.
  rewrite <- lxor_even_1. apply Z.bits_inj'. intros n Hn. rewrite Z.land_spec, Z.lxor_spec.
  destruct (decide (n = 0)) as [->|].
  - rewrite Z.testbit_even_0. by rewrite andb_false_r.
  - rewrite (Z.bits_above_log2 1 n) by (cbn; lia). destruct (Z.testbit (2 * k) n); done.
Qed.

Lemma mul_pow2_lxor a b o : 0 <= o → Z.lxor (2 ^ o * a) (2 ^ o * b) = 2 ^ o * Z.lxor a b.
Proof. intros Ho. rewrite !(Z.mul_comm (2 ^ o)), <- !Z.shiftl_mul_pow2 by done. symmetry. apply Z.shiftl_lxor. Qed.

Lemma mul_pow2_land a b o : 0 <= o → Z.land (2 ^ o * a) (2 ^ o * b) = 2 ^ o * Z.land a b.
Proof. intros Ho. rewrite !(Z.mul_comm (2 ^ o)), <- !Z.shiftl_mul_pow2 by done. symmetry. apply Z.shiftl_land. Qed.

(** A block is the lower or the upper half of its parent. *)
Lemma buddy_cases p o : 0 <= o → aligned p o →
  (aligned p (o + 1) ∧ buddy_of p o = p + 2 ^ o ∧ parent_of p o = p) ∨
  (aligned (p - 2 ^ o) (o + 1) ∧ buddy_of p o = p - 2 ^ o ∧ parent_of p o = p - 2 ^ o).
Proof.
  intros Ho [a ->]. unfold parent_of, buddy_of, aligned. rewrite (Z.mul_comm a).
  replace (Z.lxor (2 ^ o * a) (2 ^ o)) with (2 ^ o * Z.lxor a 1) by (rewrite <- mul_pow2_lxor by done; by rewrite Z.mul_1_r).
  rewrite mul_pow2_land, pow2_S by done. destruct (Z.Even_or_Odd a) as [[k ->]|[k ->]].
  - left. rewrite lxor_even_1, land_odd_even. split_and!; [exists k; lia|lia|lia].
  - right. rewrite lxor_odd_1, Z.land_comm, land_odd_even. split_and!; [exists k; lia|lia|lia].
Qed.

Lemma aligned_le p o k : 0 <= o <= k → aligned p k → aligned p o.
Proof. intros H. apply Z.divide_trans. exists (2 ^ (k - o)). rewrite <- Z.pow_add_r by lia. f_equal. lia. Qed.

Lemma aligned_half p o : 0 <= o → aligned p (o + 1) → aligned p o ∧ aligned (p + 2 ^ o) o.
Proof.
  intros Ho H. assert (aligned p o) as Hp by (by eapply aligned_le; [|exact H]; lia). split; [done|].
  apply Z.divide_add_r; [done|apply Z.divide_refl].
Qed.

Lemma buddy_aligned p o : 0 <= o → aligned p o → aligned (buddy_of p o) o.
Proof.
  intros Ho H. destruct (buddy_cases p o Ho H) as [(_ & -> & _)|(_ & -> & _)];
    [apply Z.divide_add_r|apply Z.divide_sub_r]; first [done | apply Z.divide_refl].
Qed.

Lemma parent_aligned p o : 0 <= o → aligned p o → aligned (parent_of p o) (o + 1).
Proof. intros Ho H. by destruct (buddy_cases p o Ho H) as [(? & _ & ->)|(? & _ & ->)]. Qed.

Lemma buddy_buddy p o : buddy_of (buddy_of p o) o = p.
Proof. unfold buddy_of. rewrite Z.lxor_assoc, Z.lxor_nilpotent. apply Z.lxor_0_r. Qed.

(** The parent is the union of the block and its buddy. *)
Lemma in_parent p o x : 0 <= o → aligned p o → in_block (parent_of p o) (o + 1) x ↔ in_block p o x ∨ in_block (buddy_of p o) o x.
Proof.
  intros Ho H. unfold in_block. rewrite pow2_S by done.
  destruct (buddy_cases p o Ho H) as [(_ & -> & ->)|(_ & -> & ->)]; lia.
Qed.

Lemma buddy_disjoint p o x : 0 <= o → aligned p o → in_block p o x → in_block (buddy_of p o) o x → False.
Proof.
  intros Ho H. unfold in_block. destruct (buddy_cases p o Ho H) as [(_ & -> & _)|(_ & -> & _)]; lia.
Qed.

(** Aligned blocks are nested or disjoint. *)
Lemma block_nested p o q k x : 0 <= o <= k → aligned p o → aligned q k → in_block p o x → in_block q k x →
  ∀ y, in_block p o y → in_block q k y.
Proof.
  unfold in_block. intros Ho [a ->] [b ->] Hx Hx' y Hy. pose proof (pow2_pos o ltac:(lia)). pose proof (pow2_pos (k - o) ltac:(lia)).
  replace (2 ^ k) with (2 ^ (k - o) * 2 ^ o) in * by (rewrite <- Z.pow_add_r by lia; f_equal; lia).
  set (c := 2 ^ o) in *. set (d := 2 ^ (k - o)) in *. assert (b * d <= a) by nia. assert (a < b * d + d) by nia. nia.
Qed.

Lemma block_same_order p q o x : 0 <= o → aligned p o → aligned q o → in_block p o x → in_block q o x → p = q.
Proof.
  unfold in_block. intros Ho [a ->] [b ->] Hx Hx'. pose proof (pow2_pos o Ho). set (c := 2 ^ o) in *. assert (a = b) by nia. congruence.
Qed.

Lemma block_head p o : 0 <= o → in_block p o p.
Proof. intros Ho. unfold in_block. pose proof (pow2_pos o Ho). lia. Qed.

(** ** Sets of free blocks *)

Definition blocks := gset (Z * Z).

Definition covers (B : blocks) (x : Z) : Prop := ∃ p o, (p, o) ∈ B ∧ in_block p o x.

(** Disjoint aligned blocks. *)
Record disjoint_blocks (B : blocks) : Prop := DisjointBlocks {
  bk_order p o : (p, o) ∈ B → 0 <= o < MAX_ORDER;
  bk_aligned p o : (p, o) ∈ B → aligned p o;
  bk_disj p o q k x : (p, o) ∈ B → (q, k) ∈ B → in_block p o x → in_block q k x → p = q ∧ o = k;
}.

(** No block and its buddy are both there, unless they are of the largest order. *)
Definition merged (B : blocks) : Prop := ∀ p o, (p, o) ∈ B → o < MAX_ORDER - 1 → (buddy_of p o, o) ∉ B.

Lemma disjoint_blocks_subseteq B B' : B' ⊆ B → disjoint_blocks B → disjoint_blocks B'.
Proof. intros Hsub [H1 H2 H3]. split; intros; eauto. Qed.

Lemma merged_subseteq B B' : B' ⊆ B → merged B → merged B'.
Proof. intros Hsub H p o Hp Ho Hb. by apply (H p o (Hsub _ Hp) Ho), Hsub. Qed.

(** A block whose pages are not covered. *)
Definition outside (B : blocks) (p o : Z) : Prop := ∀ x, in_block p o x → ¬ covers B x.

Lemma outside_notin B p o : 0 <= o → outside B p o → (p, o) ∉ B.
Proof. intros Ho H Hin. apply (H p); [by apply block_head|]. exists p, o. split; [done|by apply block_head]. Qed.

Lemma disjoint_blocks_insert B p o : disjoint_blocks B → 0 <= o < MAX_ORDER → aligned p o → outside B p o → disjoint_blocks ({[ (p, o) ]} ∪ B).
Proof.
  intros [H1 H2 H3] Ho Ha Hout. assert (∀ q k x, (q, k) ∈ B → in_block q k x → in_block p o x → False) as Hno.
  { intros q k x Hq Hx Hx'. apply (Hout x Hx'). by exists q, k. }
  split.
  - intros q k [[= -> ->]%elem_of_singleton|?]%elem_of_union; eauto.
  - intros q k [[= -> ->]%elem_of_singleton|?]%elem_of_union; eauto.
  - intros q1 k1 q2 k2 x [[= -> ->]%elem_of_singleton|?]%elem_of_union [[= -> ->]%elem_of_singleton|?]%elem_of_union ? ?; eauto; naive_solver.
Qed.

Lemma merged_insert B p o : merged B → (o < MAX_ORDER - 1 → (buddy_of p o, o) ∉ B) → 0 <= o → aligned p o → merged ({[ (p, o) ]} ∪ B).
Proof.
  intros Hm Hb Ho Ha q k Hq Hk. rewrite elem_of_union, elem_of_singleton in Hq. rewrite elem_of_union, elem_of_singleton.
  intros [E|Hin].
  - injection E as E ->. assert (q = buddy_of p o) as -> by (by rewrite <- E, buddy_buddy). destruct Hq as [[= Hq]|Hq].
    + apply (buddy_disjoint p o p Ho Ha); [by apply block_head|]. rewrite Hq. by apply block_head.
    + by apply Hb.
  - destruct Hq as [[= -> ->]|Hq]; [by apply Hb|exact (Hm q k Hq Hk Hin)].
Qed.

Lemma covers_insert B p o x : covers ({[ (p, o) ]} ∪ B) x ↔ in_block p o x ∨ covers B x.
Proof.
  split.
  - intros (q & k & [[= -> ->]%elem_of_singleton|Hq]%elem_of_union & Hx); [by left|right; by exists q, k].
  - intros [Hx|(q & k & Hq & Hx)]; [exists p, o|exists q, k]; (split; [set_solver|done]).
Qed.

Lemma covers_delete B p o x : disjoint_blocks B → (p, o) ∈ B → covers (B ∖ {[ (p, o) ]}) x ↔ covers B x ∧ ¬ in_block p o x.
Proof.
  intros D Hp. split.
  - intros (q & k & [Hq Hne]%elem_of_difference & Hx). split; [by exists q, k|]. intros Hx'.
    destruct (bk_disj _ D _ _ _ _ _ Hq Hp Hx Hx') as [-> ->]. set_solver.
  - intros [(q & k & Hq & Hx) Hno]. exists q, k. split; [|done]. apply elem_of_difference. split; [done|].
    intros [= -> ->]%elem_of_singleton. done.
Qed.

Lemma outside_delete B p o : disjoint_blocks B → (p, o) ∈ B → outside (B ∖ {[ (p, o) ]}) p o.
Proof. intros D Hp x Hx Hc. by apply covers_delete in Hc as [_ ?]. Qed.

(** ** Uniqueness *)

(** A block whose pages are all covered lies in one of the blocks. *)
Lemma covered_in_block B : disjoint_blocks B → merged B → ∀ n p, aligned p (Z.of_nat n) → Z.of_nat n < MAX_ORDER →
  (∀ x, in_block p (Z.of_nat n) x → covers B x) →
  ∃ q k, (q, k) ∈ B ∧ Z.of_nat n <= k ∧ in_block q k p.
Proof.
  intros D Hm. induction n as [|n IH]; intros p Ha Hn Hc.
  { destruct (Hc p ltac:(by apply block_head)) as (q & k & Hq & Hx). exists q, k. split; [done|]. split; [|done]. apply (bk_order _ D _ _ Hq). }
  replace (Z.of_nat (S n)) with (Z.of_nat n + 1) in * by lia. assert (0 <= Z.of_nat n) as Hn0 by lia.
  destruct (aligned_half p (Z.of_nat n) Hn0 Ha) as [A1 A2].
  destruct (IH p A1) as (q1 & k1 & Hq1 & Hk1 & Hx1); [lia|intros x Hx; apply Hc; unfold in_block in *; rewrite pow2_S by lia; lia|].
  destruct (IH (p + 2 ^ Z.of_nat n) A2) as (q2 & k2 & Hq2 & Hk2 & Hx2); [lia|intros x Hx; apply Hc; unfold in_block in *; rewrite pow2_S by lia; lia|].
  destruct (decide (Z.of_nat n + 1 <= k1)); [by exists q1, k1|]. assert (k1 = Z.of_nat n) as -> by lia.
  assert (q1 = p) as -> by (eapply (block_same_order _ _ (Z.of_nat n)); [lia|by eapply bk_aligned|exact A1|exact Hx1|by apply block_head]).
  destruct (decide (k2 = Z.of_nat n)) as [->|].
  - exfalso. assert (q2 = p + 2 ^ Z.of_nat n) as -> by (eapply (block_same_order _ _ (Z.of_nat n)); [lia|by eapply bk_aligned|exact A2|exact Hx2|by apply block_head]).
    apply (Hm p (Z.of_nat n) Hq1 ltac:(lia)). destruct (buddy_cases p (Z.of_nat n) Hn0 A1) as [(_ & -> & _)|(A & _)]; [done|].
    exfalso. destruct A as [a Ea], Ha as [b Eb]. rewrite pow2_S in Ea, Eb by lia. pose proof (pow2_pos (Z.of_nat n) Hn0).
    assert (2 ^ Z.of_nat n * (2 * (b - a)) = 2 ^ Z.of_nat n * 1) as E by lia. apply Z.mul_reg_l in E; lia.
  - exists q2, k2. split; [done|]. split; [lia|].
    assert (∀ y, in_block p (Z.of_nat n + 1) y → in_block q2 k2 y) as Hsub.
    { eapply (block_nested p (Z.of_nat n + 1) q2 k2 (p + 2 ^ Z.of_nat n)); [lia|done|by eapply bk_aligned| |done].
      unfold in_block. rewrite pow2_S by lia. pose proof (pow2_pos (Z.of_nat n) Hn0). lia. }
    apply Hsub. apply block_head. lia.
Qed.

(** A set of merged blocks is determined by the pages it covers. *)
Lemma blocks_unique B B' : disjoint_blocks B → merged B → disjoint_blocks B' → merged B' → (∀ x, covers B x ↔ covers B' x) → B = B'.
Proof.
  assert (∀ B B', disjoint_blocks B → merged B → disjoint_blocks B' → merged B' → (∀ x, covers B x ↔ covers B' x) → B ⊆ B') as Hsub;
    [|intros; apply (anti_symm (⊆)); apply Hsub; auto; by intros x; symmetry; auto].
  clear. intros B B' D M D' M' E [p o] Hp. pose proof (bk_order _ D _ _ Hp) as Ho. pose proof (bk_aligned _ D _ _ Hp) as Ha.
  assert (o = Z.of_nat (Z.to_nat o)) as Eo by lia.
  destruct (covered_in_block B' D' M' (Z.to_nat o) p) as (q & k & Hq & Hk & Hx); rewrite <- ?Eo; [done|lia|intros x Hx; apply E; by exists p, o|].
  rewrite <- Eo in Hk. pose proof (bk_order _ D' _ _ Hq) as Hk'. pose proof (bk_aligned _ D' _ _ Hq) as Ha'.
  assert (k = Z.of_nat (Z.to_nat k)) as Ek by lia.
  destruct (covered_in_block B D M (Z.to_nat k) q) as (r & j & Hr & Hj & Hx'); rewrite <- ?Ek; [done|lia|intros x Hx'; apply E; by exists q, k|].
  rewrite <- Ek in Hj.
  assert (in_block r j p) as Hrp by (eapply (block_nested q k r j q); [lia|done|exact (bk_aligned _ D _ _ Hr)|apply block_head; lia|done|done]).
  destruct (bk_disj _ D _ _ _ _ p Hp Hr ltac:(apply block_head; lia) Hrp) as [<- <-].
  assert (k = o) as -> by lia.
  assert (q = p) as -> by (eapply (block_same_order _ _ o); [lia|done|done|done|apply block_head; lia]). done.
Qed.
