(* ===== verification/BuddyInv.v ===== *)
(** * The invariant of the page allocator

    Relates the state of [Buddy] to a set of free blocks: the free lists, the [PageBuddy]
    marks and the counters agree with the set, and the pages on the lists of the CPU are
    outside of it. Then the two steps that everything is made of: a block leaves the set,
    and a block enters it. *)

From S2P Require Import Prelude Hoare Lru LruInv Vmscan VmscanZone Watermark Buddy BuddyBlocks.

(** A frame that is not in use, but for its mark as a free block. *)
Definition spare `{Allocator} (f : frame) : Prop :=
  page_zone_id f = zone_id ∧ f_count f = 0 ∧ f_mapping f = NoMap ∧ has (f_flags f) PAGE_FLAGS_CHECK_AT_PREP = false.

Definition idle `{Allocator} (f : frame) : Prop := spare f ∧ f_mapcount f = -1.

(** The number of blocks of an order on the lists. *)
Definition listed (s : zst) (o : Z) : Z :=
  foldr (λ t n, Z.of_nat (length (chain s (free_list o t))) + n) 0 (seqZ 0 MIGRATE_TYPES).

Definition listed_pages (s : zst) : Z := foldr (λ o n, 2 ^ o * listed s o + n) 0 (seqZ 0 MAX_ORDER).

Definition free_head_ok (h : head) : Prop := 0 <= h.1 < MAX_ORDER ∧ 0 <= h.2 < MIGRATE_TYPES.
Definition pcp_head_ok (h : head) : Prop := h.1 = -1 ∧ 0 <= h.2 < MIGRATE_PCPTYPES.

Section inv.
Context `{A : Allocator}.

(** [B] is the set of free blocks, [d] how far the counters of blocks are from the lengths
    of the lists, [off] how far the counter of free pages is from the pages of the blocks,
    and [lk] whether the lock is held. *)
Record buddy_inv (B : blocks) (d : Z → Z) (off : Z) (lk : bool) (s : zst) : Prop := BuddyInv {
  bi_disjoint : disjoint_blocks B;
  bi_merged : merged B;
  bi_block p o : (p, o) ∈ B → ∃ f, frames s !! p = Some f ∧ PageBuddy f = true ∧ private f = o;
  bi_buddy p f : frames s !! p = Some f → page_zone_id f = zone_id → PageBuddy f = true → (p, private f) ∈ B;
  bi_cover x : covers B x → ∃ f, frames s !! x = Some f ∧ spare f ∧ (f_mapcount f = -1 ∨ PageBuddy f = true);
  bi_chain h p : p ∈ chain s h → free_head_ok h ∧ (p, h.1) ∈ B ∨ pcp_head_ok h ∧ ¬ covers B p ∧
    ∃ f, frames s !! p = Some f ∧ idle f ∧ 0 <= private f < MIGRATE_TYPES;
  bi_listed p o : (p, o) ∈ B → ∃ t, 0 <= t < MIGRATE_TYPES ∧ p ∈ chain s (free_list o t);
  bi_nodup h : NoDup (chain s h);
  bi_unique h h' p : p ∈ chain s h → p ∈ chain s h' → h = h';
  bi_nr o : 0 <= o < MAX_ORDER → stat (nr_free (zdata s)) o = listed s o + d o;
  bi_free : stat (vm_stat (zdata s)) NR_FREE_PAGES = listed_pages s + off;
  bi_lock : zlock s = lk;
  bi_map q x y : aligned q (MAX_ORDER - 1) → in_block q (MAX_ORDER - 1) x → in_block q (MAX_ORDER - 1) y →
    is_Some (frames s !! x) → is_Some (frames s !! y);
  bi_span x : zone_start_pfn <= x < zone_start_pfn + spanned_pages → ∃ f, frames s !! x = Some f ∧ page_zone_id f = zone_id;
  bi_inside x f : frames s !! x = Some f → page_zone_id f = zone_id → zone_start_pfn <= x < zone_start_pfn + spanned_pages;
  bi_types i : 0 <= stat (pageblock_flags s) i < MIGRATE_TYPES;
}.

(** A block that is neither free nor on a list of the CPU and not in use: it is about to
    be freed, or has just been taken. *)
Record holds (B : blocks) (p o : Z) (s : zst) : Prop := Holds {
  ho_order : 0 <= o < MAX_ORDER;
  ho_aligned : aligned p o;
  ho_outside : outside B p o;
  ho_frame x : in_block p o x → ∃ f, frames s !! x = Some f ∧ idle f;
  ho_chain x h : in_block p o x → x ∉ chain s h;
}.

(** ** Counting the lists *)

Definition d_add (o x : Z) (d : Z → Z) : Z → Z := λ k, if bool_decide (o = k) then d k + x else d k.

Lemma inv_ext_d B d d' off lk s : (∀ o, 0 <= o < MAX_ORDER → d o = d' o) → buddy_inv B d off lk s → buddy_inv B d' off lk s.
Proof. intros E []. split; try done. intros o Ho. rewrite <- E; auto. Qed.

(** The length of one list of order [o] changes by [x]. *)
Lemma listed_change s s' o t x : 0 <= t < MIGRATE_TYPES →
  Z.of_nat (length (chain s' (free_list o t))) = Z.of_nat (length (chain s (free_list o t))) + x →
  (∀ t', t' ≠ t → chain s' (free_list o t') = chain s (free_list o t')) → listed s' o = listed s o + x.
Proof.
  unfold MIGRATE_TYPES. intros Ht E Eo. unfold listed. change (seqZ 0 MIGRATE_TYPES) with [0; 1; 2; 3; 4]. cbn [foldr].
  assert (t = 0 ∨ t = 1 ∨ t = 2 ∨ t = 3 ∨ t = 4) as Hc by lia.
  destruct Hc as [->|[->|[->|[->| ->]]]]; rewrite E; repeat rewrite (Eo _) by lia; lia.
Qed.

Lemma listed_same s s' o : (∀ t, length (chain s' (free_list o t)) = length (chain s (free_list o t))) → listed s' o = listed s o.
Proof. intros E. unfold listed. induction (seqZ 0 MIGRATE_TYPES) as [|t l IH]; cbn [foldr]; [done|]. by rewrite E, IH. Qed.

Lemma listed_pages_change s s' o x : 0 <= o < MAX_ORDER → listed s' o = listed s o + x →
  (∀ o', o' ≠ o → listed s' o' = listed s o') → listed_pages s' = listed_pages s + 2 ^ o * x.
Proof.
  intros Ho E Eo. unfold listed_pages. assert (NoDup (seqZ 0 MAX_ORDER)) as Hnd by apply NoDup_seqZ.
  assert (o ∈ seqZ 0 MAX_ORDER) as Hin by (apply elem_of_seqZ; lia). revert Hin Hnd. generalize (seqZ 0 MAX_ORDER).
  induction l as [|k l IH]; [by intros ?%elem_of_nil|]. intros Hin [Hk Hnd]%NoDup_cons. cbn [foldr].
  assert (∀ l, o ∉ l → foldr (λ o n, 2 ^ o * listed s' o + n) 0 l = foldr (λ o n, 2 ^ o * listed s o + n) 0 l) as Hno.
  { clear -Eo. induction l as [|j l IH]; [done|]. intros [Hj Hl]%not_elem_of_cons. cbn [foldr]. rewrite Eo, IH by done. done. }
  apply elem_of_cons in Hin as [<-|Hin].
  - rewrite E, Hno by done. lia.
  - rewrite Eo, IH by (try done; intros ->; done). lia.
Qed.

Lemma listed_pages_same s s' : (∀ o, listed s' o = listed s o) → listed_pages s' = listed_pages s.
Proof. intros E. unfold listed_pages. induction (seqZ 0 MAX_ORDER) as [|o l IH]; cbn [foldr]; [done|]. by rewrite E, IH. Qed.

(** ** Running the primitives *)

Lemma frame_at_run p f s : frames s !! p = Some f → frame_at p s = Ok (f, s).
Proof. intros H. unfold frame_at. erewrite bind_Ok by done. by rewrite H. Qed.

Definition fset (p : Z) (f : frame) (s : zst) : zst := set_frames (<[p := f]> (frames s)) s.

Lemma upd_frame_run p f g s : frames s !! p = Some f → upd_frame p g s = Ok ((), fset p (g f) s).
Proof. intros H. unfold upd_frame. by erewrite bind_Ok by (by apply frame_at_run). Qed.

Lemma in_chain_spec p s : in_chain p s = true ↔ ∃ h, p ∈ chain s h.
Proof.
  unfold in_chain. rewrite bool_decide_eq_true. split.
  - intros (h & l & Hl & Hp). exists h. unfold chain. by rewrite Hl.
  - intros [h Hp]. unfold chain in Hp. destruct (chains s !! h) as [l|] eqn:E; [by exists h, l|]. by apply elem_of_nil in Hp.
Qed.

Definition unchain (p : Z) (s : zst) : zst := set_chains (without p <$> chains s) s.

Lemma chain_unchain p s h : chain (unchain p s) h = without p (chain s h).
Proof. unfold chain, unchain. cbn. rewrite lookup_fmap. by destruct (chains s !! h). Qed.

Lemma chain_del_run p s h : p ∈ chain s h → chain_del p s = Ok ((), unchain p s).
Proof.
  intros Hp. unfold chain_del. erewrite bind_Ok by done. by rewrite (proj2 (in_chain_spec p s)) by eauto.
Qed.

Definition rechain (h : head) (g : list Z → list Z) (s : zst) : zst := set_chains (<[h := g (chain s h)]> (chains s)) s.

Lemma chain_rechain h g s h' : chain (rechain h g s) h' = if decide (h = h') then g (chain s h) else chain s h'.
Proof.
  unfold chain, rechain. cbn. case_decide; [subst; by rewrite lookup_insert_eq|by rewrite lookup_insert_ne].
Qed.

Lemma chain_put_run p h g s : (∀ h', p ∉ chain s h') → chain_put p h g s = Ok ((), rechain h g s).
Proof.
  intros Hp. unfold chain_put. erewrite bind_Ok by done. destruct (in_chain p s) eqn:E; [|done].
  apply in_chain_spec in E as [h' Hin]. by destruct (Hp h').
Qed.

(** ** A block leaves the set *)

Lemma block_at B d off lk s p o k : buddy_inv B d off lk s → (p, o) ∈ B → (p, k) ∈ B → k = o.
Proof.
  intros I Hp Hk. pose proof (bi_disjoint _ _ _ _ _ I) as D.
  destruct (bk_disj _ D p k p o p Hk Hp) as [_ ?]; [apply block_head, (bk_order _ D _ _ Hk)|apply block_head, (bk_order _ D _ _ Hp)|done].
Qed.

(** A page of a free block that is marked as one is its first page. *)
Lemma inner_page B d off lk s p o x f : buddy_inv B d off lk s → (p, o) ∈ B → in_block p o x → frames s !! x = Some f →
  page_zone_id f = zone_id → PageBuddy f = true → x = p.
Proof.
  intros I Hp Hx Hf Hz Hb. pose proof (bi_disjoint _ _ _ _ _ I) as D. pose proof (bi_buddy _ _ _ _ _ I x f Hf Hz Hb) as Hin.
  by destruct (bk_disj _ D x (private f) p o x Hin Hp ltac:(apply block_head, (bk_order _ D _ _ Hin)) Hx).
Qed.

(** A page of a free block is on a list only if it is the first. *)
Lemma inner_chain B d off lk s p o x h : buddy_inv B d off lk s → (p, o) ∈ B → in_block p o x → x ∈ chain s h → x = p ∧ h.1 = o.
Proof.
  intros I Hp Hx Hin. pose proof (bi_disjoint _ _ _ _ _ I) as D. destruct (bi_chain _ _ _ _ _ I h x Hin) as [[Hh Hb]|(_ & Hno & _)].
  - by destruct (bk_disj _ D x h.1 p o x Hb Hp ltac:(apply block_head, (bk_order _ D _ _ Hb)) Hx).
  - destruct Hno. by exists p, o.
Qed.

Lemma fset_map p f f' s x : frames s !! p = Some f → is_Some (frames (fset p f' s) !! x) ↔ is_Some (frames s !! x).
Proof.
  intros Hp. cbn. destruct (decide (p = x)) as [<-|]; [|by rewrite lookup_insert_ne]. rewrite lookup_insert_eq, Hp. split; by eexists.
Qed.

Lemma take_listed B d off lk s p o f : buddy_inv B d off lk s → (p, o) ∈ B →
  let s' := fset p f (unchain p s) in listed s' o = listed s o + -1 ∧ ∀ k, k ≠ o → listed s' k = listed s k.
Proof.
  intros I Hp s'. destruct (bi_listed _ _ _ _ _ I p o Hp) as (t & Ht & Hin).
  assert (∀ h, chain s' h = without p (chain s h)) as Hc by (intros h; apply (chain_unchain p s h)).
  assert (∀ h, h ≠ free_list o t → chain s' h = chain s h) as Hsame.
  { intros h Hne. rewrite Hc. apply without_id. intros Hh. apply Hne. by eapply bi_unique. }
  split.
  - apply (listed_change s s' o t); [done| |by intros t' Hne; apply Hsame; unfold free_list; congruence]. rewrite Hc.
    pose proof (length_without p _ (bi_nodup _ _ _ _ _ I _) Hin). lia.
  - intros k Hk. apply listed_same. intros t'. rewrite Hsame; [done|unfold free_list; congruence].
Qed.

Lemma rmv_idle f : spare f → idle (rmv_page_order f).
Proof. intros (? & ? & ? & ?). by split. Qed.

Lemma take_block B d off lk s p o f : buddy_inv B d off lk s → (p, o) ∈ B → frames s !! p = Some f →
  buddy_inv (B ∖ {[ (p, o) ]}) (d_add o 1 d) (off + 2 ^ o) lk (fset p (rmv_page_order f) (unchain p s)).
Proof.
  intros I Hp Hf. destruct (take_listed _ _ _ _ _ _ _ (rmv_page_order f) I Hp) as [L1 L2]. set (s' := fset _ _ _) in *.
  pose proof (bi_disjoint _ _ _ _ _ I) as D. assert (B ∖ {[ (p, o) ]} ⊆ B) as Hsub by set_solver.
  assert (∀ h q, q ∈ chain s' h ↔ q ∈ chain s h ∧ q ≠ p) as Hc by (intros h q; change (chain s' h) with (chain (unchain p s) h); rewrite chain_unchain; apply elem_without).
  assert (∀ x, x ≠ p → frames s' !! x = frames s !! x) as Hfr by (intros x Hx; by apply lookup_insert_ne).
  assert (frames s' !! p = Some (rmv_page_order f)) as Hfp by apply lookup_insert_eq.
  assert (∀ x, is_Some (frames s' !! x) ↔ is_Some (frames s !! x)) as Hdom by (intros x; exact (fset_map p f _ (unchain p s) x Hf)).
  assert (∀ q k, (q, k) ∈ B ∖ {[ (p, o) ]} ↔ (q, k) ∈ B ∧ q ≠ p) as HB.
  { intros q k. rewrite elem_of_difference, elem_of_singleton. split; intros [Hq Hne]; (split; [done|]).
    - intros ->. apply Hne. f_equal. by eapply block_at.
    - intros [= -> ->]. done. }
  split.
  - by eapply disjoint_blocks_subseteq.
  - eapply merged_subseteq; [done|apply I].
  - intros q k [Hq Hne]%HB. rewrite Hfr by done. by apply I.
  - intros q f' Hq Hz Hb. destruct (decide (q = p)) as [->|Hne].
    + rewrite Hfp in Hq. injection Hq as <-. done.
    + rewrite Hfr in Hq by done. apply HB. split; [by apply I|done].
  - intros x [Hx Hno]%covers_delete; [|done|done]. rewrite Hfr; [by apply I|]. intros ->. apply Hno, block_head, (bk_order _ D _ _ Hp).
  - intros h q [Hq Hne]%Hc. rewrite Hfr by done. destruct (bi_chain _ _ _ _ _ I h q Hq) as [[Hh Hb]|(Hh & Hno & Hq')].
    + left. split; [done|]. by apply HB.
    + right. split; [done|]. split; [|done]. intros (r & k & Hr & Hx). apply Hno. exists r, k. split; [by apply Hsub|done].
  - intros q k [Hq Hne]%HB. destruct (bi_listed _ _ _ _ _ I q k Hq) as (t & Ht & Hin). exists t. split; [done|]. by apply Hc.
  - intros h. change (NoDup (chain (unchain p s) h)). rewrite chain_unchain. apply NoDup_filter, I.
  - intros h h' q [Hq _]%Hc [Hq' _]%Hc. by eapply bi_unique.
  - intros k Hk. change (stat (nr_free (zdata s)) k = listed s' k + d_add o 1 d k). rewrite (bi_nr _ _ _ _ _ I k Hk). unfold d_add.
    case_bool_decide; [subst; rewrite L1; lia|rewrite L2 by congruence; lia].
  - change (stat (vm_stat (zdata s)) NR_FREE_PAGES = listed_pages s' + (off + 2 ^ o)). rewrite (bi_free _ _ _ _ _ I).
    rewrite (listed_pages_change s s' o (-1)) by (try done; by apply (bk_order _ D _ _ Hp)). lia.
  - apply I.
  - intros q x y Hq Hx Hy. rewrite !Hdom. by apply (bi_map _ _ _ _ _ I q).
  - intros x Hx. destruct (bi_span _ _ _ _ _ I x Hx) as (g & Hg & Hz). destruct (decide (x = p)) as [->|Hne].
    + exists (rmv_page_order f). split; [done|]. rewrite Hf in Hg. by injection Hg as <-.
    + exists g. by rewrite Hfr.
  - intros x g Hg Hz. destruct (decide (x = p)) as [->|Hne]; [|rewrite Hfr in Hg by done; by eapply bi_inside].
    rewrite Hfp in Hg. injection Hg as <-. by eapply bi_inside.
  - apply I.
Qed.

Lemma take_holds B d off lk s p o f : buddy_inv B d off lk s → (p, o) ∈ B → frames s !! p = Some f →
  holds (B ∖ {[ (p, o) ]}) p o (fset p (rmv_page_order f) (unchain p s)).
Proof.
  intros I Hp Hf. pose proof (bi_disjoint _ _ _ _ _ I) as D. pose proof (bk_order _ D _ _ Hp) as Ho. split.
  - done.
  - by eapply bk_aligned.
  - by apply outside_delete.
  - intros x Hx. destruct (bi_cover _ _ _ _ _ I x ltac:(by exists p, o)) as (g & Hg & Hs & Hm). destruct (decide (x = p)) as [->|Hne].
    + exists (rmv_page_order f). split; [apply lookup_insert_eq|]. rewrite Hf in Hg. injection Hg as <-. by apply rmv_idle.
    + exists g. split; [by rewrite <- Hg; apply lookup_insert_ne|]. split; [done|]. destruct Hm as [?|Hb]; [done|].
      destruct Hne. eapply inner_page; [exact I|exact Hp|exact Hx|exact Hg|apply Hs|done].
  - intros x h Hx Hin. change (x ∈ chain (unchain p s) h) in Hin. rewrite chain_unchain in Hin. apply elem_without in Hin as [Hin Hne].
    apply Hne. by eapply inner_chain.
Qed.

(** ** A block enters the set *)

(** [g] adds the page somewhere to a list. *)
Definition adds (p : Z) (g : list Z → list Z) : Prop := ∀ l, g l ≡ₚ p :: l.

Lemma adds_elem p g l q : adds p g → q ∈ g l ↔ q = p ∨ q ∈ l.
Proof. intros H. rewrite (H l). apply elem_of_cons. Qed.

Lemma rechain_elem p g h s q h' : adds p g → q ∈ chain (rechain h g s) h' ↔ q ∈ chain s h' ∨ q = p ∧ h' = h.
Proof.
  intros Hg. rewrite chain_rechain. case_decide as Hh; [subst; rewrite (adds_elem p g) by done|]; naive_solver.
Qed.

Lemma put_listed p g s o t : adds p g → 0 <= t < MIGRATE_TYPES → let s' := rechain (free_list o t) g s in
  listed s' o = listed s o + 1 ∧ ∀ k, k ≠ o → listed s' k = listed s k.
Proof.
  intros Hg Ht s'. split.
  - apply (listed_change s s' o t); [done| |].
    + subst s'. rewrite chain_rechain, decide_True by done. rewrite (Permutation_length (Hg _)). cbn [length]. lia.
    + intros t' Hne. subst s'. rewrite chain_rechain, decide_False; [done|]. unfold free_list. congruence.
  - intros k Hk. apply listed_same. intros t'. subst s'. rewrite chain_rechain, decide_False; [done|]. unfold free_list. congruence.
Qed.

Lemma put_nodup p g h s : adds p g → (∀ h', p ∉ chain s h') → (∀ h', NoDup (chain s h')) → ∀ h', NoDup (chain (rechain h g s) h').
Proof.
  intros Hg Hp Hnd h'. rewrite chain_rechain. case_decide; [|done]. rewrite (Hg _). by constructor.
Qed.

Lemma put_unique p g h s : adds p g → (∀ h', p ∉ chain s h') → (∀ h1 h2 q, q ∈ chain s h1 → q ∈ chain s h2 → h1 = h2) →
  ∀ h1 h2 q, q ∈ chain (rechain h g s) h1 → q ∈ chain (rechain h g s) h2 → h1 = h2.
Proof.
  intros Hg Hp Hu h1 h2 q. rewrite !(rechain_elem p) by done. intros [H1|[-> ->]] [H2|[? ->]]; [by eapply Hu| |by destruct (Hp h2)|done].
  subst. by destruct (Hp h1).
Qed.

Lemma put_block B d off lk s p o t f g : buddy_inv B d off lk s → holds B p o s → (o < MAX_ORDER - 1 → (buddy_of p o, o) ∉ B) →
  0 <= t < MIGRATE_TYPES → frames s !! p = Some f → adds p g →
  buddy_inv ({[ (p, o) ]} ∪ B) (d_add o (-1) d) (off - 2 ^ o) lk (fset p (set_page_order o f) (rechain (free_list o t) g s)).
Proof.
  intros I [Ho Ha Hout Hfr0 Hch] Hb Ht Hf Hg. destruct (put_listed p g s o t Hg Ht) as [L1 L2].
  pose proof (block_head p o ltac:(lia)) as Hhd. assert (∀ h, p ∉ chain s h) as Hpc by (intros h; by apply Hch).
  assert (idle f) as Hidle by (destruct (Hfr0 p Hhd) as (f' & Hf' & Hi); rewrite Hf in Hf'; by injection Hf' as <-).
  set (s' := fset _ _ _). assert (∀ h, chain s' h = chain (rechain (free_list o t) g s) h) as Hcs by done.
  assert (∀ x, x ≠ p → frames s' !! x = frames s !! x) as Hfr by (intros x Hx; by apply lookup_insert_ne).
  assert (frames s' !! p = Some (set_page_order o f)) as Hfp by apply lookup_insert_eq.
  assert (∀ x, is_Some (frames s' !! x) ↔ is_Some (frames s !! x)) as Hdom by (intros x; exact (fset_map p f _ (rechain (free_list o t) g s) x Hf)).
  assert (∀ q k, (q, k) ∈ {[ (p, o) ]} ∪ B ↔ (q, k) = (p, o) ∨ (q, k) ∈ B) as HB by set_solver.
  assert (∀ k, (p, k) ∉ B) as HpB.
  { intros k Hk. apply (Hout p Hhd). exists p, k. split; [done|]. apply block_head, (bk_order _ (bi_disjoint _ _ _ _ _ I) _ _ Hk). }
  split.
  - apply disjoint_blocks_insert; try done. apply I.
  - apply merged_insert; try done; [apply I|lia].
  - intros q k [[= -> ->]|Hq]%HB; [by eexists|]. assert (q ≠ p) by (intros ->; by destruct (HpB k)). rewrite Hfr by done. by apply I.
  - intros q f' Hq Hz Hbu. destruct (decide (q = p)) as [->|Hne].
    + rewrite Hfp in Hq. injection Hq as <-. apply HB. by left.
    + rewrite Hfr in Hq by done. apply HB. right. by apply I.
  - intros x [Hx|Hx]%covers_insert.
    + destruct (decide (x = p)) as [->|Hne]; [exists (set_page_order o f); split; [done|]; split; [apply Hidle|by right]|].
      destruct (Hfr0 x Hx) as (f' & Hf' & Hs & Hm). exists f'. rewrite Hfr by done. split; [done|]. split; [done|by left].
    + assert (x ≠ p) by (intros ->; by destruct (Hout p Hhd)). rewrite Hfr by done. by apply I.
  - intros h q. rewrite Hcs, (rechain_elem p) by done. intros [Hq|[-> ->]].
    + assert (q ≠ p) by (intros ->; by destruct (Hpc h)). rewrite Hfr by done.
      destruct (bi_chain _ _ _ _ _ I h q Hq) as [[Hh Hbq]|(Hh & Hno & Hq')]; [left; split; [done|]; apply HB; by right|].
      right. split; [done|]. split; [|done]. intros [Hx|Hx]%covers_insert; [by destruct (Hch q h Hx)|done].
    + left. split; [by split|]. apply HB. by left.
  - intros q k [[= -> ->]|Hq]%HB.
    + exists t. split; [done|]. rewrite Hcs, (rechain_elem p) by done. by right.
    + destruct (bi_listed _ _ _ _ _ I q k Hq) as (t' & Ht' & Hin). exists t'. split; [done|]. rewrite Hcs, (rechain_elem p) by done. by left.
  - intros h. rewrite Hcs. apply (put_nodup p); [done|done|apply I].
  - intros h h' q. rewrite !Hcs. apply (put_unique p); [done|done|]. intros h1 h2 r. by apply I.
  - intros k Hk. change (stat (nr_free (zdata s)) k = listed (rechain (free_list o t) g s) k + d_add o (-1) d k). rewrite (bi_nr _ _ _ _ _ I k Hk).
    unfold d_add. case_bool_decide; [subst; rewrite L1; lia|rewrite L2 by congruence; lia].
  - change (stat (vm_stat (zdata s)) NR_FREE_PAGES = listed_pages (rechain (free_list o t) g s) + (off - 2 ^ o)). rewrite (bi_free _ _ _ _ _ I).
    rewrite (listed_pages_change s (rechain (free_list o t) g s) o 1) by done. lia.
  - apply I.
  - intros q x y Hq Hx Hy. rewrite !Hdom. by apply (bi_map _ _ _ _ _ I q).
  - intros x Hx. destruct (bi_span _ _ _ _ _ I x Hx) as (f' & Hf' & Hz). destruct (decide (x = p)) as [->|Hne].
    + exists (set_page_order o f). split; [done|]. rewrite Hf in Hf'. by injection Hf' as <-.
    + exists f'. by rewrite Hfr.
  - intros x f' Hf' Hz. destruct (decide (x = p)) as [->|Hne]; [|rewrite Hfr in Hf' by done; by eapply bi_inside].
    eapply bi_inside; [exact I|exact Hf|apply Hidle].
  - apply I.
Qed.

(** ** The counters and the lock *)

Definition upd_z (f : zone → zone) (s : zst) : zst := set_zdata (f (zdata s)) s.

Lemma stat_add m i x j : stat (add_stat i x m) j = if decide (i = j) then stat m j + x else stat m j.
Proof. unfold add_stat, stat. case_decide; [subst; by rewrite lookup_insert_eq|by rewrite lookup_insert_ne]. Qed.

Lemma inv_nr_free B d off lk s o x : buddy_inv B d off lk s →
  buddy_inv B (d_add o x d) off lk (upd_z (λ zd, set_nr_free (add_stat o x (nr_free zd)) zd) s).
Proof.
  intros []. split; try done. intros k Hk. change (listed (upd_z _ s) k) with (listed s k). cbn [upd_z zdata nr_free set_zdata set_nr_free].
  rewrite stat_add. unfold d_add. rewrite bi_nr0 by done.
  case_decide; [rewrite bool_decide_eq_true_2 by done|rewrite bool_decide_eq_false_2 by done]; lia.
Qed.

Lemma inv_free_pages B d off lk s x : buddy_inv B d off lk s →
  buddy_inv B d (off + x) lk (upd_z (λ zd, set_vm_stat (add_stat NR_FREE_PAGES x (vm_stat zd)) zd) s).
Proof.
  intros []. split; try done. change (listed_pages (upd_z _ s)) with (listed_pages s). cbn [upd_z zdata vm_stat set_zdata set_vm_stat].
  rewrite stat_add, decide_True by done. lia.
Qed.

(** The zone changes, but not its counters of free pages. *)
Lemma inv_upd_z B d off lk s f : buddy_inv B d off lk s → (nr_free (f (zdata s)) = nr_free (zdata s)) →
  stat (vm_stat (f (zdata s))) NR_FREE_PAGES = stat (vm_stat (zdata s)) NR_FREE_PAGES → buddy_inv B d off lk (upd_z f s).
Proof. intros [] E1 E2. split; try done; cbn [upd_z zdata set_zdata]; [by rewrite E1|by rewrite E2]. Qed.

Lemma inv_lock B d off lk lk' s : buddy_inv B d off lk s → buddy_inv B d off lk' (set_zlock lk' s).
Proof. by intros []. Qed.

Lemma inv_events B d off lk s e : buddy_inv B d off lk s → buddy_inv B d off lk (set_zevents e s).
Proof. by intros []. Qed.

Lemma inv_pcp_count B d off lk s n : buddy_inv B d off lk s → buddy_inv B d off lk (set_pcp_count n s).
Proof. by intros []. Qed.

Lemma inv_blocktype B d off lk s i t : buddy_inv B d off lk s → 0 <= t < MIGRATE_TYPES →
  buddy_inv B d off lk (set_pageblock_flags (<[i := t]> (pageblock_flags s)) s).
Proof.
  intros [] Ht. split; try done. intros j. cbn. unfold stat. destruct (decide (i = j)) as [<-|]; [by rewrite lookup_insert_eq|].
  rewrite lookup_insert_ne by done. apply bi_types0.
Qed.
End inv.
