(* ===== verification/BuddyFree.v ===== *)
(** * Freeing blocks

    [__free_one_page] adds the pages of a block to the free pages, merges as far as it can,
    and keeps the invariant of [BuddyInv]; and so do the functions that call it. *)

From S2P Require Import Prelude Hoare Lru LruInv Vmscan VmscanZone Watermark Buddy BuddyBlocks BuddyInv.

(** ** Indices of pages *)

Definition index_of (p : Z) : Z := p mod 2 ^ MAX_ORDER.

Lemma page_index p : Z.land p (Z.shiftl 1 MAX_ORDER - 1) = index_of p.
Proof. change (Z.shiftl 1 MAX_ORDER - 1) with (Z.ones MAX_ORDER). by rewrite Z.land_ones. Qed.

Lemma aligned_index p o : 0 <= o <= MAX_ORDER → aligned (index_of p) o ↔ aligned p o.
Proof.
  intros Ho. unfold aligned, index_of. assert (2 ^ o | 2 ^ MAX_ORDER) as Hd.
  { exists (2 ^ (MAX_ORDER - o)). rewrite <- Z.pow_add_r by lia. f_equal. lia. }
  rewrite Z.mod_eq by done. assert (2 ^ o | 2 ^ MAX_ORDER * (p / 2 ^ MAX_ORDER)) as Hd' by (by apply Z.divide_mul_l).
  split; intros H; [|by apply Z.divide_sub_r].
  replace p with (p - 2 ^ MAX_ORDER * (p / 2 ^ MAX_ORDER) + 2 ^ MAX_ORDER * (p / 2 ^ MAX_ORDER)) by lia. by apply Z.divide_add_r.
Qed.

(** The two cases of [buddy_cases] exclude each other. *)
Lemma upper_half_unaligned p o : 0 <= o → aligned (p - 2 ^ o) (o + 1) → ¬ aligned p (o + 1).
Proof.
  intros Ho [a Ea] [b Eb]. rewrite pow2_S in Ea, Eb by done. pose proof (pow2_pos o Ho).
  assert (2 ^ o * (2 * (b - a)) = 2 ^ o * 1) as E by lia. apply Z.mul_reg_l in E; lia.
Qed.

Lemma aligned_index_pos p o : 0 <= o → aligned p o → ¬ aligned p (o + 1) → 0 <= p → 2 ^ o <= p.
Proof.
  intros Ho [a ->] Hno Hp. pose proof (pow2_pos o Ho). destruct (decide (a <= 0)); [|nia].
  assert (a * 2 ^ o = 0) as E by nia. destruct Hno. rewrite E. apply Z.divide_0_r.
Qed.

(** The arithmetic on indices finds the buddy and the parent of the page. *)
Lemma buddy_index p o : 0 <= o < MAX_ORDER → aligned p o →
  let i := index_of p in let b := __find_buddy_index i o in
  p + (b - i) = buddy_of p o ∧ p + (Z.land b i - i) = parent_of p o ∧ Z.land b i = index_of (parent_of p o).
Proof.
  intros Ho Ha i b. assert (aligned i o) as Hi by (apply aligned_index; [lia|done]).
  assert (b = buddy_of i o) as Eb by (subst b; unfold __find_buddy_index; by rewrite Z.shiftl_1_l). rewrite Eb. fold (parent_of i o).
  pose proof (aligned_index p (o + 1) ltac:(unfold MAX_ORDER in *; lia)) as Hiff. fold i in Hiff.
  pose proof (Z.mod_pos_bound p (2 ^ MAX_ORDER) ltac:(done)) as Hr. fold (index_of p) in Hr. fold i in Hr.
  destruct (buddy_cases p o ltac:(lia) Ha) as [(A1 & -> & ->)|(A1 & -> & ->)], (buddy_cases i o ltac:(lia) Hi) as [(A2 & -> & ->)|(A2 & -> & ->)].
  - split_and!; [lia|lia|done].
  - exfalso. apply (upper_half_unaligned i o); [lia|done|by apply Hiff].
  - exfalso. apply (upper_half_unaligned p o); [lia|done|by apply Hiff].
  - assert (2 ^ o <= i) by (apply aligned_index_pos; [lia|done|by apply upper_half_unaligned; [lia|]|lia]).
    pose proof (pow2_pos o ltac:(lia)). split_and!; [lia|lia|]. unfold index_of. apply (Z.mod_unique_pos _ _ (p / 2 ^ MAX_ORDER)); [lia|].
    pose proof (Z.div_mod p (2 ^ MAX_ORDER) ltac:(done)) as E. fold (index_of p) in E. fold i in E. lia.
Qed.

(** What is outside of [F] stays as it is: frames, the lists of the CPU, types. *)
Record local (F : Z → Prop) (s s' : zst) : Prop := Local {
  lo_frame x : ¬ F x → frames s' !! x = frames s !! x;
  lo_pcp t : chain s' (pcp_list t) = chain s (pcp_list t);
  lo_count : pcp_count s' = pcp_count s;
}.

Lemma local_refl F s : local F s s.
Proof. by split. Qed.
#[export] Hint Resolve local_refl : core.

Lemma local_trans (F G : Z → Prop) s1 s2 s3 : local F s1 s2 → local G s2 s3 → (∀ x, G x → F x) → local F s1 s3.
Proof.
  intros [A1 B1 C1] [A2 B2 C2] H. split; [|intros t; by rewrite B2|congruence]. intros x Hx. rewrite A2; [by apply A1|]. intros Hg. by apply Hx, H.
Qed.

Section free.
Context `{A : Allocator}.

(** ** Frames near a page *)

Lemma aligned_down p k : 0 <= k → aligned (p - p mod 2 ^ k) k ∧ in_block (p - p mod 2 ^ k) k p.
Proof.
  intros Hk. pose proof (pow2_pos k Hk). split; [|unfold in_block; pose proof (Z.mod_pos_bound p (2 ^ k) ltac:(lia)); lia].
  exists (p / 2 ^ k). pose proof (Z.div_mod p (2 ^ k) ltac:(lia)). lia.
Qed.

Lemma frame_near B d off lk s r k x y : buddy_inv B d off lk s → aligned r k → 0 <= k < MAX_ORDER → in_block r k x → in_block r k y →
  is_Some (frames s !! x) → ∃ f, frames s !! y = Some f.
Proof.
  intros I Ha Hk Hx Hy Hs. destruct (aligned_down x (MAX_ORDER - 1) ltac:(done)) as [A1 A2]. set (q := x - _) in *.
  assert (∀ z, in_block r k z → in_block q (MAX_ORDER - 1) z) as Hsub by (apply (block_nested r k q (MAX_ORDER - 1) x); [lia|done|done|done|done]).
  destruct (bi_map _ _ _ _ _ I q x y A1 A2 (Hsub y Hy) Hs) as [f ?]. by exists f.
Qed.

Lemma holds_head B p o s : holds B p o s → ∃ f, frames s !! p = Some f ∧ idle f.
Proof. intros H. apply (ho_frame _ _ _ _ H), block_head, H. Qed.

(** The test finds exactly the free blocks. *)
Lemma page_is_buddy_run B d off lk s p q o f : buddy_inv B d off lk s → frames s !! p = Some f → page_zone_id f = zone_id →
  is_Some (frames s !! q) → page_is_buddy p q o s = Ok (bool_decide ((q, o) ∈ B), s).
Proof.
  intros I Hp Hz [g Hq]. unfold page_is_buddy. erewrite bind_Ok by (by apply frame_at_run). erewrite bind_Ok by (by apply frame_at_run).
  rewrite Hz. destruct (Z.eqb_spec zone_id (page_zone_id g)) as [E|E]; cbn [negb].
  - rewrite ret_Ok. do 2 f_equal. destruct (PageBuddy g) eqn:Eb; cbn [andb].
    + pose proof (bi_buddy _ _ _ _ _ I q g Hq (eq_sym E) Eb) as Hin. destruct (Z.eqb_spec (page_order g) o) as [Eo|Eo].
      * rewrite bool_decide_eq_true_2; [done|]. unfold page_order in Eo. by rewrite <- Eo.
      * rewrite bool_decide_eq_false_2; [done|]. intros Hq'. apply Eo. unfold page_order. by eapply block_at.
    + rewrite bool_decide_eq_false_2; [done|]. intros Hq'. destruct (bi_block _ _ _ _ _ I q o Hq') as (g' & Hg' & Hb & _). congruence.
  - rewrite ret_Ok. do 2 f_equal. rewrite bool_decide_eq_false_2; [done|]. intros Hq'. apply E.
    destruct (bi_cover _ _ _ _ _ I q) as (g' & Hg' & (Hz' & _) & _); [|congruence].
    exists q, o. split; [done|]. apply block_head, (bk_order _ (bi_disjoint _ _ _ _ _ I) _ _ Hq').
Qed.

(** ** Merging *)

(** What becomes of a held block and its free buddy. *)
Lemma holds_parent B d off lk s p o f : buddy_inv B d off lk s → holds B p o s → o < MAX_ORDER - 1 → (buddy_of p o, o) ∈ B →
  frames s !! buddy_of p o = Some f →
  holds (B ∖ {[ (buddy_of p o, o) ]}) (parent_of p o) (o + 1) (fset (buddy_of p o) (rmv_page_order f) (unchain (buddy_of p o) s)).
Proof.
  intros I Hh Ho Hb Hf. pose proof (take_holds _ _ _ _ _ _ _ _ I Hb Hf) as Hh2. set (s' := fset _ _ _) in *. set (b := buddy_of p o) in *.
  pose proof (ho_order _ _ _ _ Hh) as Ho0. pose proof (ho_aligned _ _ _ _ Hh) as Ha. pose proof (bi_disjoint _ _ _ _ _ I) as D. split.
  - lia.
  - apply parent_aligned; [lia|done].
  - intros x [Hx|Hx]%in_parent Hc; [|by apply (ho_outside _ _ _ _ Hh2 x Hx)|lia|done].
    apply covers_delete in Hc as [Hc _]; [|done|done]. by apply (ho_outside _ _ _ _ Hh x Hx).
  - intros x [Hx|Hx]%in_parent; [|by apply Hh2|lia|done]. destruct (ho_frame _ _ _ _ Hh x Hx) as (g & Hg & Hi). exists g. split; [|done].
    rewrite <- Hg. apply lookup_insert_ne. intros E. apply (buddy_disjoint p o x); [lia|done|done|]. rewrite <- E. apply block_head. lia.
  - intros x h [Hx|Hx]%in_parent; [|by apply Hh2|lia|done]. change (x ∉ chain (unchain b s) h). rewrite chain_unchain.
    intros [Hin _]%elem_without. by apply (ho_chain _ _ _ _ Hh x h Hx).
Qed.

Lemma d_add_cancel o d k : d_add o (-1) (d_add o 1 d) k = d k.
Proof. unfold d_add. case_bool_decide; lia. Qed.

Lemma chain_pcp_unchain B d off lk s p o t : buddy_inv B d off lk s → (p, o) ∈ B → without p (chain s (pcp_list t)) = chain s (pcp_list t).
Proof.
  intros I Hp. apply without_id. intros Hin. destruct (inner_chain _ _ _ _ _ p o p (pcp_list t) I Hp) as [_ E]; [|done|].
  - apply block_head, (bk_order _ (bi_disjoint _ _ _ _ _ I) _ _ Hp).
  - pose proof (bk_order _ (bi_disjoint _ _ _ _ _ I) _ _ Hp). cbn in E. lia.
Qed.

(** Taking a free block is local to its pages. *)
Lemma take_local B d off lk s p o f : buddy_inv B d off lk s → (p, o) ∈ B → local (in_block p o) s (fset p f (unchain p s)).
Proof.
  intros I Hp. split; [| |done].
  - intros x Hx. apply lookup_insert_ne. intros ->. apply Hx, block_head, (bk_order _ (bi_disjoint _ _ _ _ _ I) _ _ Hp).
  - intros t. change (chain (unchain p s) (pcp_list t) = chain s (pcp_list t)). rewrite chain_unchain. by eapply chain_pcp_unchain.
Qed.

Lemma merge_buddies_spec lk d n : ∀ B off s p o, buddy_inv B d off lk s → holds B p o s → MAX_ORDER - 1 - o <= Z.of_nat n →
  runs (merge_buddies n p (index_of p) o) s (λ r s', ∃ B' p' o', r = (p', index_of p', o') ∧
    buddy_inv B' d (off + 2 ^ o' - 2 ^ o) lk s' ∧ holds B' p' o' s' ∧ (o' < MAX_ORDER - 1 → (buddy_of p' o', o') ∉ B') ∧
    (∀ x, covers B' x ∨ in_block p' o' x ↔ covers B x ∨ in_block p o x) ∧ local (λ x, covers B x ∨ in_block p o x) s s').
Proof.
  induction n as [|n IH]; intros B off s p o I Hh Hn; cbn [merge_buddies]; pose proof (ho_order _ _ _ _ Hh) as Ho;
    pose proof (ho_aligned _ _ _ _ Hh) as Ha;
    (destruct (Z.ltb_spec o (MAX_ORDER - 1)) as [Hlt|Hge];
       [|apply runs_ret; exists B, p, o; split_and!; [done|by replace (off + 2 ^ o - 2 ^ o) with off by lia|done|lia|done|done]]); [lia|].
  destruct (buddy_index p o ltac:(lia) Ha) as (-> & -> & ->). destruct (holds_head _ _ _ _ Hh) as (f & Hf & Hi).
  assert (∃ g, frames s !! buddy_of p o = Some g) as [g Hg].
  { eapply (frame_near _ _ _ _ _ (parent_of p o) (o + 1) p); [exact I|by apply parent_aligned; [lia|]|lia| | |by eexists];
      apply in_parent; try lia; try done; [left|right]; apply block_head; lia. }
  apply runs_bind. eapply runs_ok; [eapply page_is_buddy_run; [exact I|exact Hf|apply Hi|by eexists]|].
  case_bool_decide as Hb; [|apply runs_ret; exists B, p, o; split_and!; [done|by replace (off + 2 ^ o - 2 ^ o) with off by lia|done|done|done|done]].
  set (b := buddy_of p o) in *. destruct (bi_listed _ _ _ _ _ I b o Hb) as (t & _ & Hin).
  apply runs_bind. eapply runs_ok; [by eapply chain_del_run|]. apply runs_bind. eapply runs_ok; [done|].
  apply runs_bind. eapply runs_ok; [by apply upd_frame_run|]. set (s1 := fset _ _ _).
  pose proof (take_block _ _ _ _ _ _ _ _ I Hb Hg) as I1. pose proof (inv_nr_free _ _ _ _ _ o (-1) I1) as I2.
  pose proof (inv_ext_d _ _ _ _ _ _ (λ k _, d_add_cancel o d k) I2) as I3. clear I1 I2. change (upd_z _ _) with s1 in I3.
  pose proof (holds_parent _ _ _ _ _ _ _ _ I Hh Hlt Hb Hg) as Hh1. fold b in Hh1.
  assert (holds (B ∖ {[ (b, o) ]}) (parent_of p o) (o + 1) s1) as Hh1' by (destruct Hh1; by split). clear Hh1.
  eapply runs_mono; [apply IH; [exact I3|exact Hh1'|lia]|]. cbn beta. intros r s2 (B' & p' & o' & -> & I' & Hh' & Hb' & Hc & Lo).
  exists B', p', o'. pose proof (pow2_S o ltac:(lia)) as E2.
  assert (∀ x, covers (B ∖ {[ (b, o) ]}) x ∨ in_block (parent_of p o) (o + 1) x ↔ covers B x ∨ in_block p o x) as Hcov.
  { intros x. rewrite in_parent, covers_delete by (try done; try lia; apply I). fold b. destruct (decide (b <= x < b + 2 ^ o)) as [Hx|Hx].
    - assert (covers B x) by (by exists b, o). unfold in_block at 3. tauto.
    - unfold in_block at 1 3. tauto. }
  split_and!; [done|by replace (off + 2 ^ o' - 2 ^ o) with (off + 2 ^ o + 2 ^ o' - 2 ^ (o + 1)) by lia|done|done|intros x; by rewrite Hc|].
  eapply local_trans; [|exact Lo|intros x Hx; by apply Hcov].
  assert (local (in_block b o) s s1) as Lo1 by (destruct (take_local _ _ _ _ _ b o (rmv_page_order g) I Hb); by split).
  eapply local_trans; [apply local_refl|exact Lo1|]. intros x Hx. left. by exists b, o.
Qed.

(** ** A block is freed *)

Lemma idle_flag f b : idle f → 0 <= b < NR_PAGEFLAGS → Z.testbit (f_flags f) b = false.
Proof.
  intros [(_ & _ & _ & Hf) _] Hb. unfold has in Hf. apply negb_false_iff, Z.eqb_eq in Hf.
  assert (Z.testbit (Z.land (f_flags f) PAGE_FLAGS_CHECK_AT_PREP) b = false) as E by (rewrite Hf; apply Z.bits_0).
  rewrite Z.land_spec in E. unfold PAGE_FLAGS_CHECK_AT_PREP in E. rewrite Z.ones_spec_low in E by lia. by rewrite andb_true_r in E.
Qed.

Lemma page_is_buddy_ok p q o s : is_Some (frames s !! p) → is_Some (frames s !! q) → ∃ b, page_is_buddy p q o s = Ok (b, s).
Proof.
  intros [f Hf] [g Hg]. unfold page_is_buddy. erewrite bind_Ok by (by apply frame_at_run). erewrite bind_Ok by (by apply frame_at_run).
  case_match; by eexists.
Qed.

Lemma higher_buddy_free_ok B d off lk s s' p o : buddy_inv B d off lk s → 0 <= o < MAX_ORDER → aligned p o → is_Some (frames s !! p) →
  (∀ x, is_Some (frames s' !! x) ↔ is_Some (frames s !! x)) → ∃ b, higher_buddy_free p (index_of p) o s' = Ok (b, s').
Proof.
  intros I Ho Ha Hs Hdom. unfold higher_buddy_free. destruct (Z.ltb_spec o (MAX_ORDER - 2)) as [Hlt|]; [|by eexists].
  destruct (buddy_index p o Ho Ha) as (_ & E2 & E3). rewrite E2, E3. pose proof (parent_aligned p o ltac:(lia) Ha) as Hpa.
  destruct (buddy_index (parent_of p o) (o + 1) ltac:(lia) Hpa) as (E4 & _). rewrite E4.
  assert (∀ y, in_block (parent_of (parent_of p o) (o + 1)) (o + 2) y → is_Some (frames s' !! y)) as Hnear.
  { intros y Hy. apply Hdom. replace (o + 2) with (o + 1 + 1) in Hy by lia.
    destruct (frame_near _ _ _ _ _ (parent_of (parent_of p o) (o + 1)) (o + 1 + 1) p y I) as [g ?]; [| | |done|done|by eexists].
    - apply parent_aligned; [lia|done].
    - lia.
    - apply in_parent; [lia|done|]. left. apply in_parent; [lia|done|]. left. apply block_head. lia. }
  apply page_is_buddy_ok; apply Hnear; replace (o + 2) with (o + 1 + 1) by lia; apply in_parent; try lia; try done; [left|right]; apply block_head; lia.
Qed.

Lemma adds_cons p : adds p (cons p).
Proof. by intros l. Qed.

Lemma adds_snoc p : adds p (λ l, l ++ [p]).
Proof. intros l. by rewrite Permutation_app_comm. Qed.

Lemma d_add_cancel' o d k : d_add o 1 (d_add o (-1) d) k = d k.
Proof. unfold d_add. case_bool_decide; lia. Qed.

(** Putting a held block on a list is local to its first page. *)
Lemma put_local p o t f g s : 0 <= o → local (in_block p o) s (fset p f (rechain (free_list o t) g s)).
Proof.
  intros Ho. split; [| |done].
  - intros x Hx. apply lookup_insert_ne. intros ->. by apply Hx, block_head.
  - intros t'. change (chain (rechain (free_list o t) g s) (pcp_list t') = chain s (pcp_list t')). rewrite chain_rechain, decide_False; [done|].
    unfold free_list, pcp_list. intros [= -> ->]. lia.
Qed.

(** The free pages of [B'] are those of [B] and the block. *)
Definition adds_block (B : blocks) (p o : Z) (B' : blocks) : Prop := ∀ x, covers B' x ↔ covers B x ∨ in_block p o x.

Lemma __free_one_page_spec B d off lk s p o t : buddy_inv B d off lk s → holds B p o s → 0 <= t < MIGRATE_TYPES →
  runs (__free_one_page p o t) s (λ _ s', ∃ B', buddy_inv B' d (off - 2 ^ o) lk s' ∧ adds_block B p o B' ∧
    local (λ x, covers B x ∨ in_block p o x) s s').
Proof.
  intros I Hh Ht. unfold __free_one_page. destruct (holds_head _ _ _ _ Hh) as (f & Hf & Hi).
  apply runs_bind. eapply runs_ok; [by apply frame_at_run|]. unfold frame_head, frame_tail. rewrite !idle_flag by done. cbn [orb].
  apply runs_bind, runs_ret. cbn [negb Z.eqb]. rewrite page_index. apply runs_bind.
  eapply runs_mono; [apply (merge_buddies_spec lk d); [exact I|exact Hh|pose proof (ho_order _ _ _ _ Hh); lia]|]. cbn beta.
  intros r s1 (B1 & p1 & o1 & -> & I1 & Hh1 & Hb1 & Hc1 & Lo1). destruct (holds_head _ _ _ _ Hh1) as (f1 & Hf1 & Hi1).
  pose proof (ho_order _ _ _ _ Hh1) as Ho1. apply runs_bind. eapply runs_ok; [by apply upd_frame_run|].
  destruct (higher_buddy_free_ok _ _ _ _ s1 (fset p1 (set_page_order o1 f1) s1) p1 o1 I1 Ho1 (ho_aligned _ _ _ _ Hh1)) as [tail Et];
    [by eexists|by intros x; eapply fset_map|].
  apply runs_bind. eapply runs_ok; [exact Et|]. apply runs_bind.
  assert (∀ h, p1 ∉ chain s1 h) as Hpc by (intros h; apply Hh1, block_head; lia).
  assert (∃ g, adds p1 g ∧ (if tail then chain_add_tail p1 (free_list o1 t) else chain_add p1 (free_list o1 t)) (fset p1 (set_page_order o1 f1) s1) =
    Ok ((), fset p1 (set_page_order o1 f1) (rechain (free_list o1 t) g s1))) as (g & Hg & Erun).
  { destruct tail.
    - exists (λ l, l ++ [p1]). split; [apply adds_snoc|]. exact (chain_put_run p1 _ _ (fset p1 (set_page_order o1 f1) s1) Hpc).
    - exists (cons p1). split; [apply adds_cons|]. exact (chain_put_run p1 _ _ (fset p1 (set_page_order o1 f1) s1) Hpc). }
  eapply runs_ok; [exact Erun|]. apply runs_modify. exists ({[ (p1, o1) ]} ∪ B1).
  pose proof (put_block _ _ _ _ _ _ _ t _ g I1 Hh1 Hb1 Ht Hf1 Hg) as I2. pose proof (inv_nr_free _ _ _ _ _ o1 1 I2) as I3.
  split; [|split].
  - replace (off - 2 ^ o) with (off + 2 ^ o1 - 2 ^ o - 2 ^ o1) by lia. exact (inv_ext_d _ _ _ _ _ _ (λ k _, d_add_cancel' o1 d k) I3).
  - intros x. rewrite covers_insert. rewrite <- Hc1. tauto.
  - eapply local_trans; [exact Lo1| |intros x Hx; apply Hc1; right; exact Hx].
    destruct (put_local p1 o1 t (set_page_order o1 f1) g s1 ltac:(lia)). by split.
Qed.

Lemma free_one_page_spec B d off s p o t : buddy_inv B d off false s → holds B p o s → 0 <= t < MIGRATE_TYPES →
  runs (free_one_page p o t) s (λ _ s', ∃ B', buddy_inv B' d off false s' ∧ adds_block B p o B' ∧ local (λ x, covers B x ∨ in_block p o x) s s').
Proof.
  intros I Hh Ht. unfold free_one_page, spin_lock. apply runs_bind, runs_bind, runs_gets. rewrite (bi_lock _ _ _ _ _ I).
  apply runs_modify, runs_bind, runs_modify, runs_bind, runs_modify. set (s1 := set_zdata _ _).
  assert (buddy_inv B d off true s1) as I1.
  { exact (inv_upd_z _ _ _ _ _ (set_pages_scanned 0) (inv_upd_z _ _ _ _ _ (set_all_unreclaimable false) (inv_lock _ _ _ _ true _ I) eq_refl eq_refl) eq_refl eq_refl). }
  assert (holds B p o s1) as Hh1 by (destruct Hh; by split).
  apply runs_bind. eapply runs_mono; [by apply __free_one_page_spec|]. cbn beta. intros _ s2 (B' & I2 & Hc & Lo).
  apply runs_bind, runs_modify, runs_modify. exists B'. split; [|split; [done|]].
  - pose proof (inv_lock _ _ _ _ false _ (inv_free_pages _ _ _ _ _ (2 ^ o) I2)) as I3. by replace (off - 2 ^ o + 2 ^ o) with off in I3 by lia.
  - destruct Lo as [L1 L2 L3]. split; [exact L1|exact L2|exact L3].
Qed.
End free.
