(* ===== verification/BuddyAlloc.v ===== *)
(** * Allocating blocks

    [__rmqueue] takes an aligned block of the requested order out of the free pages, and
    gives up only if there is none; the block is taken from another mobility type if need
    be. *)

From S2P Require Import Prelude Hoare Lru LruInv Vmscan VmscanZone Watermark Buddy BuddyBlocks BuddyInv BuddyFree.

Section alloc.
Context `{A : Allocator}.

(** ** Splitting *)

Lemma holds_sub B p o q k s : holds B p o s → 0 <= k < MAX_ORDER → aligned q k → (∀ x, in_block q k x → in_block p o x) → holds B q k s.
Proof.
  intros [H1 H2 H3 H4 H5] Hk Ha Hsub. split; [done|done|intros x Hx; by apply H3, Hsub|intros x Hx; by apply H4, Hsub|].
  intros x h Hx. by apply H5, Hsub.
Qed.

(** The upper half of a held block goes to a list; the lower half is still held. *)
Lemma holds_lower B d off lk p o t f g s : buddy_inv B d off lk s → holds B p (o + 1) s → 0 <= o → adds (p + 2 ^ o) g →
  holds ({[ (p + 2 ^ o, o) ]} ∪ B) p o (fset (p + 2 ^ o) f (rechain (free_list o t) g s)).
Proof.
  intros I Hh Ho Hg. pose proof (ho_order _ _ _ _ Hh). pose proof (pow2_S o Ho) as E. pose proof (pow2_pos o Ho).
  assert (∀ x, in_block p o x → in_block p (o + 1) x) as Hsub by (unfold in_block; lia). split.
  - lia.
  - eapply aligned_le; [|apply Hh]. lia.
  - intros x Hx [Hx'|Hc]%covers_insert; [unfold in_block in *; lia|]. by apply (ho_outside _ _ _ _ Hh x (Hsub x Hx)).
  - intros x Hx. destruct (ho_frame _ _ _ _ Hh x (Hsub x Hx)) as (f' & Hf' & Hi). exists f'. split; [|done].
    rewrite <- Hf'. apply lookup_insert_ne. unfold in_block in Hx. lia.
  - intros x h Hx. change (x ∉ chain (rechain (free_list o t) g s) h). rewrite (rechain_elem (p + 2 ^ o)) by done.
    intros [Hin|[-> _]]; [by apply (ho_chain _ _ _ _ Hh x h (Hsub x Hx))|]. unfold in_block in Hx. lia.
Qed.

Lemma expand_spec lk d p low t n : 0 <= low → 0 <= t < MIGRATE_TYPES → ∀ B off s, buddy_inv B d off lk s → holds B p (low + Z.of_nat n) s →
  runs (expand n p low t) s (λ _ s', ∃ B', buddy_inv B' d (off - 2 ^ (low + Z.of_nat n) + 2 ^ low) lk s' ∧ holds B' p low s' ∧
    (∀ x, covers B' x ∨ in_block p low x ↔ covers B x ∨ in_block p (low + Z.of_nat n) x) ∧ local (in_block p (low + Z.of_nat n)) s s').
Proof.
  intros Hlow Ht. induction n as [|n IH]; intros B off s I Hh; cbn [expand].
  { apply runs_ret. exists B. replace (low + Z.of_nat 0) with low in * by lia.
    split_and!; [by replace (off - 2 ^ low + 2 ^ low) with off by lia|done|done|done]. }
  set (o := low + Z.of_nat n) in *. replace (low + Z.of_nat (S n)) with (o + 1) in * by lia. assert (0 <= o) as Ho by lia.
  pose proof (ho_order _ _ _ _ Hh) as Ho1. destruct (aligned_half p o Ho (ho_aligned _ _ _ _ Hh)) as [A1 A2].
  pose proof (pow2_S o Ho) as E2. pose proof (pow2_pos o Ho) as Hpos. set (q := p + 2 ^ o) in *.
  assert (holds B q o s) as Hq by (eapply holds_sub; [exact Hh|lia|done|unfold in_block; lia]).
  destruct (holds_head _ _ _ _ Hq) as (f & Hf & Hi).
  assert ((buddy_of q o, o) ∉ B) as Hb.
  { assert (buddy_of q o = p) as ->.
    { destruct (buddy_cases q o Ho A2) as [(A3 & _)|(_ & -> & _)]; [|lia]. exfalso. apply (upper_half_unaligned q o Ho); [|done].
      replace (q - 2 ^ o) with p by lia. apply Hh. }
    intros Hin. apply (ho_outside _ _ _ _ Hh p); [apply block_head; lia|]. exists p, o. split; [done|by apply block_head]. }
  apply runs_bind. eapply runs_ok; [apply chain_put_run; intros h; apply Hq; by apply block_head|]. apply runs_bind. eapply runs_ok; [done|].
  apply runs_bind. eapply runs_ok; [by apply upd_frame_run|]. set (s1 := fset _ _ _).
  pose proof (put_block _ _ _ _ _ _ _ t _ (cons q) I Hq (λ _, Hb) Ht Hf (adds_cons q)) as I1. pose proof (inv_nr_free _ _ _ _ _ o 1 I1) as I2.
  pose proof (inv_ext_d _ _ _ _ _ _ (λ k _, d_add_cancel' o d k) I2) as I3. clear I1 I2. change (upd_z _ _) with s1 in I3.
  pose proof (holds_lower _ _ _ _ _ _ t (set_page_order o f) (cons q) _ I Hh Ho (adds_cons q)) as Hh1. fold q in Hh1.
  assert (holds ({[ (q, o) ]} ∪ B) p o s1) as Hh2 by (destruct Hh1; by split).
  eapply runs_mono; [by apply IH|]. cbn beta. intros _ s2 (B' & I' & Hh' & Hc & Lo). exists B'. split_and!.
  - by replace (off - 2 ^ (o + 1) + 2 ^ low) with (off - 2 ^ o - 2 ^ o + 2 ^ low) by lia.
  - done.
  - intros x. rewrite Hc, covers_insert.
    assert (in_block p (o + 1) x ↔ in_block p o x ∨ in_block q o x) as -> by (unfold in_block; rewrite E2; subst q; lia). tauto.
  - eapply local_trans; [|exact Lo|unfold in_block; lia]. pose proof (put_local q o t (set_page_order o f) (cons q) s Ho) as [L1 L2 L3].
    split; [|exact L2|exact L3]. intros x Hx. apply L1. intros Hx'. apply Hx. unfold in_block in *. lia.
Qed.

(** ** Taking a block *)

(** The block [p] of order [o] has been taken from the free pages. *)
Definition taken (B : blocks) (d : Z → Z) (off : Z) (lk : bool) (o p : Z) (s s' : zst) : Prop :=
  ∃ B', buddy_inv B' d (off + 2 ^ o) lk s' ∧ holds B' p o s' ∧ adds_block B' p o B ∧ local (covers B) s s'.

Lemma adds_block_disjoint B p o B' : disjoint_blocks B → (p, o) ∈ B → B' = B ∖ {[ (p, o) ]} → adds_block B' p o B.
Proof.
  intros D Hp -> x. rewrite covers_delete by done. destruct (decide (p <= x < p + 2 ^ o)) as [Hx|Hx]; unfold in_block; [|tauto].
  split; [by right|]. intros _. by exists p, o.
Qed.

(** The block that leaves its list is split down to the order that is wanted. *)
Lemma split_taken B d off lk s s1 p o low t f : buddy_inv B d off lk s → (p, o) ∈ B → frames s !! p = Some f → 0 <= low <= o → 0 <= t < MIGRATE_TYPES →
  buddy_inv (B ∖ {[ (p, o) ]}) d (off + 2 ^ o) lk s1 → holds (B ∖ {[ (p, o) ]}) p o s1 → local (in_block p o) s s1 →
  runs (expand (Z.to_nat (o - low)) p low t) s1 (λ _ s', taken B d off lk low p s s').
Proof.
  intros I Hp Hf Hlow Ht I1 Hh1 Lo1. assert (low + Z.of_nat (Z.to_nat (o - low)) = o) as Eo by lia.
  pose proof (adds_block_disjoint _ p o _ (bi_disjoint _ _ _ _ _ I) Hp eq_refl) as Hadd.
  eapply runs_mono; [eapply (expand_spec lk d); [lia|done|exact I1|by rewrite Eo]|]. rewrite Eo. cbn beta. intros _ s2 (B' & I' & Hh' & Hc & Lo). exists B'.
  split_and!; [by replace (off + 2 ^ low) with (off + 2 ^ o - 2 ^ o + 2 ^ low) by lia|done|intros x; rewrite Hc; exact (Hadd x)|].
  assert (local (in_block p o) s s2) as Lo2 by (eapply local_trans; [exact Lo1|exact Lo|done]).
  eapply local_trans; [apply local_refl|exact Lo2|]. intros x Hx. by exists p, o.
Qed.

Lemma rmqueue_orders_spec B d off lk s order t orders : buddy_inv B d off lk s → 0 <= order → 0 <= t < MIGRATE_TYPES →
  (∀ o, o ∈ orders → order <= o < MAX_ORDER) →
  runs (rmqueue_orders orders order t) s (λ r s', match r with
    | Some p => taken B d off lk order p s s'
    | None => s' = s ∧ ∀ o, o ∈ orders → chain s (free_list o t) = []
    end).
Proof.
  intros I Hord Ht. induction orders as [|o orders IH]; intros Hin; cbn [rmqueue_orders].
  { apply runs_ret. split; [done|]. by intros o ?%elem_of_nil. }
  specialize (IH ltac:(intros k ?; apply Hin; by right)). pose proof (Hin o ltac:(left)) as Ho. apply runs_bind, runs_gets.
  destruct (chain s (free_list o t)) as [|p l] eqn:El.
  { eapply runs_mono; [exact IH|]. cbn beta. intros [p|] s' H; [done|]. destruct H as [-> H]. split; [done|].
    intros k [->|Hk]%elem_of_cons; [done|by apply H]. }
  assert (p ∈ chain s (free_list o t)) as Hp by (rewrite El; left).
  assert ((p, o) ∈ B) as HpB by (destruct (bi_chain _ _ _ _ _ I _ _ Hp) as [[_ ?]|[[? _] _]]; [done|cbn in *; lia]).
  destruct (bi_block _ _ _ _ _ I p o HpB) as (f & Hf & _).
  apply runs_bind. eapply runs_ok; [by eapply chain_del_run|]. apply runs_bind. eapply runs_ok; [by apply upd_frame_run|].
  apply runs_bind. eapply runs_ok; [done|]. apply runs_bind.
  pose proof (take_block _ _ _ _ _ _ _ _ I HpB Hf) as I1. pose proof (inv_nr_free _ _ _ _ _ o (-1) I1) as I2.
  pose proof (inv_ext_d _ _ _ _ _ _ (λ k _, d_add_cancel o d k) I2) as I3. clear I1 I2.
  eapply runs_mono; [eapply (split_taken B d off lk s); [exact I|exact HpB|exact Hf|lia|exact Ht|exact I3| |]|].
  - destruct (take_holds _ _ _ _ _ _ _ _ I HpB Hf). by split.
  - destruct (take_local _ _ _ _ _ _ _ (rmv_page_order f) I HpB). by split.
  - cbn beta. intros _ s' H. by apply runs_ret.
Qed.

Lemma __rmqueue_smallest_spec B d off lk s order t : buddy_inv B d off lk s → 0 <= order → 0 <= t < MIGRATE_TYPES →
  runs (__rmqueue_smallest order t) s (λ r s', match r with
    | Some p => taken B d off lk order p s s'
    | None => s' = s ∧ ∀ o, order <= o < MAX_ORDER → chain s (free_list o t) = []
    end).
Proof.
  intros I Hord Ht. eapply runs_mono; [apply rmqueue_orders_spec; [done|done|done|]|].
  - intros o Ho%elem_of_seqZ. lia.
  - cbn beta. intros [p|] s' H; [done|]. destruct H as [-> H]. split; [done|]. intros o Ho. apply H, elem_of_seqZ. lia.
Qed.

(** ** Changing the type of free blocks *)

Lemma frame_restored f o : PageBuddy f = true → private f = o → set_page_order o (rmv_page_order f) = f.
Proof.
  destruct f. unfold PageBuddy, set_page_order, rmv_page_order. cbn. intros ->%Z.eqb_eq <-. done.
Qed.

(** Frames, counts and types are as before; the lists of the CPU too. *)
Record relisted (s s' : zst) : Prop := Relisted {
  re_frames : frames s' = frames s;
  re_pcp t : chain s' (pcp_list t) = chain s (pcp_list t);
  re_count : pcp_count s' = pcp_count s;
}.

#[local] Instance relisted_preorder : PreOrder relisted.
Proof. split; [by split|]. intros s1 s2 s3 [A1 A2 A3] [B1 B2 B3]. split; [congruence|intros t; by rewrite B2|congruence]. Qed.

Lemma relisted_local F s s' : relisted s s' → local F s s'.
Proof. intros [H1 H2 H3]. split; [intros x _; by rewrite H1|done|done]. Qed.

Definition moved (p : Z) (h : head) (s : zst) : zst := rechain h (cons p) (unchain p s).

Lemma move_block B d off lk s p o t : buddy_inv B d off lk s → (p, o) ∈ B → 0 <= t < MIGRATE_TYPES →
  chain_move p (free_list o t) s = Ok ((), moved p (free_list o t) s) ∧ buddy_inv B d off lk (moved p (free_list o t) s) ∧
  relisted s (moved p (free_list o t) s).
Proof.
  intros I Hp Ht. destruct (bi_listed _ _ _ _ _ I p o Hp) as (t0 & _ & Hin). destruct (bi_block _ _ _ _ _ I p o Hp) as (f & Hf & Hb & Ho).
  pose proof (bi_disjoint _ _ _ _ _ I) as D. pose proof (bk_order _ D _ _ Hp) as Hor.
  assert (∀ h, p ∉ chain (unchain p s) h) as Hno by (intros h; rewrite chain_unchain; by intros [_ ?]%elem_without).
  split; [|split].
  - unfold chain_move. erewrite bind_Ok by (by eapply chain_del_run). by apply chain_put_run.
  - pose proof (take_block _ _ _ _ _ _ _ _ I Hp Hf) as I1. pose proof (take_holds _ _ _ _ _ _ _ _ I Hp Hf) as H1.
    assert (o < MAX_ORDER - 1 → (buddy_of p o, o) ∉ B ∖ {[ (p, o) ]}) as Hm.
    { intros Hlt [Hin' _]%elem_of_difference. exact (bi_merged _ _ _ _ _ I p o Hp Hlt Hin'). }
    pose proof (put_block _ _ _ _ _ _ _ t (rmv_page_order f) (cons p) I1 H1 Hm Ht (lookup_insert_eq _ _ _) (adds_cons p)) as I2.
    replace ({[(p, o)]} ∪ B ∖ {[(p, o)]}) with B in I2 by (apply union_difference_L; set_solver).
    replace (off + 2 ^ o - 2 ^ o) with off in I2 by lia. apply (inv_ext_d _ _ _ _ _ _ (λ k _, d_add_cancel o d k)) in I2.
    assert (fset p (set_page_order o (rmv_page_order f)) (rechain (free_list o t) (cons p) (fset p (rmv_page_order f) (unchain p s))) =
      moved p (free_list o t) s) as <-; [|exact I2].
    change (set_frames (<[p := set_page_order o (rmv_page_order f)]> (<[p := rmv_page_order f]> (frames s))) (moved p (free_list o t) s) =
      moved p (free_list o t) s). rewrite frame_restored, insert_insert_eq, insert_id by done. by destruct s.
  - split; [done| |done]. intros t'. unfold moved. rewrite chain_rechain, decide_False, chain_unchain; [by eapply chain_pcp_unchain|].
    unfold free_list, pcp_list. intros [= -> ->]. lia.
Qed.

Lemma move_loop_spec B d off lk t end_page n : 0 <= t < MIGRATE_TYPES → ∀ page moved_pages s, buddy_inv B d off lk s →
  (∀ x, page <= x <= end_page → ∃ f, frames s !! x = Some f ∧ page_zone_id f = zone_id) → end_page - page + 1 <= Z.of_nat n →
  runs (move_loop n page end_page t moved_pages) s (λ _ s', buddy_inv B d off lk s' ∧ relisted s s').
Proof.
  intros Ht. induction n as [|n IH]; intros page moved_pages s I Hfr Hn; cbn [move_loop];
    (destruct (Z.ltb_spec end_page page); [by apply runs_ret|]); [lia|].
  destruct (Hfr page ltac:(lia)) as (f & Hf & Hz). apply runs_bind. eapply runs_ok; [by apply frame_at_run|].
  destruct (PageBuddy f) eqn:Eb; cbn [negb]; [|apply IH; [done|intros x Hx; apply Hfr; lia|lia]].
  pose proof (bi_buddy _ _ _ _ _ I page f Hf Hz Eb) as Hp. destruct (move_block _ _ _ _ _ _ _ t I Hp Ht) as (E & I1 & R1).
  pose proof (pow2_pos (page_order f) ltac:(apply (bk_order _ (bi_disjoint _ _ _ _ _ I) _ _ Hp))).
  apply runs_bind. eapply runs_ok; [exact E|]. eapply runs_mono; [apply IH; [exact I1| |lia]|].
  - intros x Hx. rewrite (re_frames _ _ R1). apply Hfr. lia.
  - cbn beta. intros r s' [I' R']. split; [done|by etrans].
Qed.

Lemma land_block p k : 0 <= k → Z.land p (Z.lnot (2 ^ k - 1)) = p - p mod 2 ^ k.
Proof.
  intros Hk. replace (2 ^ k - 1) with (Z.ones k) by (rewrite Z.ones_equiv; lia).
  rewrite <- Z.ldiff_land, Z.ldiff_ones_r, Z.shiftl_mul_pow2, Z.shiftr_div_pow2 by done.
  pose proof (pow2_pos k Hk). pose proof (Z.div_mod p (2 ^ k) ltac:(lia)). lia.
Qed.

Lemma move_freepages_block_spec B d off lk t s p f : buddy_inv B d off lk s → 0 <= t < MIGRATE_TYPES → frames s !! p = Some f → page_zone_id f = zone_id →
  runs (move_freepages_block p t) s (λ _ s', buddy_inv B d off lk s' ∧ relisted s s').
Proof.
  intros I Ht Hf Hz. unfold move_freepages_block, pageblock_nr_pages. rewrite land_block by done.
  destruct (aligned_down p pageblock_order ltac:(done)) as [A1 A2]. set (q := p - p mod 2 ^ pageblock_order) in *.
  destruct (Z.leb_spec (zone_start_pfn + spanned_pages) (q + 2 ^ pageblock_order - 1)) as [|Hend]; [by apply runs_ret|].
  pose proof (bi_inside _ _ _ _ _ I p f Hf Hz) as Hp. set (start := if q <? zone_start_pfn then p else q).
  assert (zone_start_pfn <= start ∧ start <= p) as Hst by (subst start; unfold in_block in A2; destruct (Z.ltb_spec q zone_start_pfn); lia).
  assert (∀ x, start <= x <= q + 2 ^ pageblock_order - 1 → ∃ f, frames s !! x = Some f ∧ page_zone_id f = zone_id) as Hall.
  { intros x Hx. apply I. lia. }
  unfold in_block in A2. unfold move_freepages. destruct (Hall start) as (f1 & Hf1 & Hz1); [lia|].
  destruct (Hall (q + 2 ^ pageblock_order - 1)) as (f2 & Hf2 & Hz2); [lia|].
  apply runs_bind. eapply runs_ok; [by apply frame_at_run|]. apply runs_bind. eapply runs_ok; [by apply frame_at_run|].
  rewrite Hz1, Hz2, Z.eqb_refl. cbn [negb]. apply move_loop_spec; [done|done|done|lia].
Qed.

Lemma set_pageblock_migratetype_spec B d off lk p t s : buddy_inv B d off lk s → 0 <= t < MIGRATE_TYPES →
  runs (set_pageblock_migratetype p t) s (λ _ s', buddy_inv B d off lk s' ∧ relisted s s' ∧ chains s' = chains s).
Proof.
  intros I Ht. unfold set_pageblock_migratetype. apply runs_modify. split; [|by split; [split|]]. apply inv_blocktype; [done|].
  assert (∀ u, 0 <= u < MIGRATE_TYPES → 0 <= Z.land u 7 < MIGRATE_TYPES) as H.
  { unfold MIGRATE_TYPES. intros u Hu. assert (u = 0 ∨ u = 1 ∨ u = 2 ∨ u = 3 ∨ u = 4) as Hc by lia.
    destruct Hc as [->|[->|[->|[->| ->]]]]; done. }
  apply H. by destruct page_group_by_mobility_disabled.
Qed.

Lemma change_blocks_spec B d off lk t n : 0 <= t < MIGRATE_TYPES → ∀ p s, buddy_inv B d off lk s →
  runs (change_blocks n p t) s (λ _ s', buddy_inv B d off lk s' ∧ relisted s s' ∧ chains s' = chains s).
Proof.
  intros Ht. induction n as [|n IH]; intros p s I; cbn [change_blocks]; [by apply runs_ret|].
  apply runs_bind. eapply runs_mono; [by apply set_pageblock_migratetype_spec|]. cbn beta. intros _ s1 (I1 & R1 & E1).
  eapply runs_mono; [by apply IH|]. cbn beta. intros _ s2 (I2 & R2 & E2). split; [done|]. split; [by etrans|congruence].
Qed.

Lemma holds_relisted B p o s s' : holds B p o s → relisted s s' → chains s' = chains s → holds B p o s'.
Proof. intros [H1 H2 H3 H4 H5] [R _ _] E. split; [done|done|done|by rewrite R|]. intros x h Hx. unfold chain. rewrite E. by apply H5. Qed.

(** ** Falling back to other types *)

Lemma take_fallback_spec B d off lk s p o order st t : buddy_inv B d off lk s → (p, o) ∈ B → 0 <= order <= o →
  0 <= st < MIGRATE_TYPES → 0 <= t < MIGRATE_TYPES →
  runs (take_fallback p o order st t) s (λ _ s', taken B d off lk order p s s').
Proof.
  intros I Hp Ho Hst Ht. destruct (bi_block _ _ _ _ _ I p o Hp) as (f & Hf & _). pose proof (bi_disjoint _ _ _ _ _ I) as D.
  assert (page_zone_id f = zone_id) as Hz.
  { destruct (bi_cover _ _ _ _ _ I p) as (f' & Hf' & (Hz & _) & _); [|congruence]. exists p, o. split; [done|]. apply block_head, (bk_order _ D _ _ Hp). }
  unfold take_fallback. apply runs_bind, runs_modify. pose proof (inv_nr_free _ _ _ _ _ o (-1) I) as I1. set (s1 := set_zdata _ s).
  change (upd_z _ s) with s1 in I1. assert (relisted s s1) as R1 by (by split). assert (frames s1 !! p = Some f) as Hf1 by done. clearbody s1.
  apply runs_bind. apply (runs_mono _ _ (λ t' s', 0 <= t' < MIGRATE_TYPES ∧ buddy_inv B (d_add o (-1) d) off lk s' ∧ relisted s s')).
  { destruct (_ || _); [|by apply runs_ret]. apply runs_bind. eapply runs_mono; [by eapply move_freepages_block_spec|]. cbn beta.
    intros pages s2 [I2 R2]. apply runs_bind. apply (runs_mono _ _ (λ _ s', buddy_inv B (d_add o (-1) d) off lk s' ∧ relisted s s')).
    - apply runs_when; [|intros _; split; [done|by etrans]]. intros _. eapply runs_mono; [by apply set_pageblock_migratetype_spec|]. cbn beta.
      intros _ s3 (I3 & R3 & _). split; [done|]. etrans; [exact R1|]. by etrans.
    - intros _ s3 [I3 R3]. by apply runs_ret. }
  intros t' s2 (Ht' & I2 & R2). assert (frames s2 !! p = Some f) as Hf2 by (by rewrite (re_frames _ _ R2)).
  destruct (bi_listed _ _ _ _ _ I2 p o Hp) as (t0 & _ & Hin). apply runs_bind. eapply runs_ok; [by eapply chain_del_run|].
  apply runs_bind. eapply runs_ok; [by apply upd_frame_run|]. pose proof (take_block _ _ _ _ _ _ _ _ I2 Hp Hf2) as I3.
  apply (inv_ext_d _ _ _ _ _ _ (λ k _, d_add_cancel' o d k)) in I3. pose proof (take_holds _ _ _ _ _ _ _ _ I2 Hp Hf2) as H3.
  pose proof (take_local _ _ _ _ _ _ _ (rmv_page_order f) I2 Hp) as L3. set (s3 := fset _ _ _) in *. clearbody s3.
  assert (local (in_block p o) s s3) as L3' by (eapply local_trans; [by apply relisted_local|exact L3|done]).
  apply runs_bind. apply (runs_mono _ _ (λ _ s', buddy_inv (B ∖ {[ (p, o) ]}) d (off + 2 ^ o) lk s' ∧ relisted s3 s' ∧ chains s' = chains s3)).
  { apply runs_when; [|done]. intros _. by apply change_blocks_spec. }
  intros _ s4 (I4 & R4 & E4). eapply split_taken; [exact I|exact Hp|exact Hf|lia|exact Ht'|exact I4| |].
  - by eapply holds_relisted.
  - eapply local_trans; [exact L3'|apply (relisted_local (in_block p o)); exact R4|done].
Qed.

Lemma fallback_types_spec B d off lk s o order st types : buddy_inv B d off lk s → 0 <= order <= o → o < MAX_ORDER → 0 <= st < MIGRATE_TYPES →
  (∀ t, t ∈ types → 0 <= t < MIGRATE_TYPES) →
  runs (fallback_types types o order st) s (λ r s', match r with
    | Some p => taken B d off lk order p s s'
    | None => s' = s ∧ ∀ t, t ∈ types → t ≠ MIGRATE_RESERVE → chain s (free_list o t) = []
    end).
Proof.
  intros I Ho Hlt Hst. induction types as [|t types IH]; intros Hty; cbn [fallback_types].
  { apply runs_ret. split; [done|]. by intros t ?%elem_of_nil. }
  specialize (IH ltac:(intros t' ?; apply Hty; by right)). destruct (Z.eqb_spec t MIGRATE_RESERVE) as [Hr|Hr].
  { eapply runs_mono; [exact IH|]. cbn beta. intros [p|] s' H; [done|]. destruct H as [-> H]. split; [done|].
    intros t' [->|Ht']%elem_of_cons Hne; [done|by apply H]. }
  apply runs_bind, runs_gets. destruct (chain s (free_list o t)) as [|p l] eqn:El.
  { eapply runs_mono; [exact IH|]. cbn beta. intros [p|] s' H; [done|]. destruct H as [-> H]. split; [done|].
    intros t' [->|Ht']%elem_of_cons Hne; [done|by apply H]. }
  assert (p ∈ chain s (free_list o t)) as Hp by (rewrite El; left).
  assert ((p, o) ∈ B) as HpB by (destruct (bi_chain _ _ _ _ _ I _ _ Hp) as [[_ ?]|[[? _] _]]; [done|cbn in *; lia]).
  apply runs_bind. eapply runs_mono; [apply take_fallback_spec; [exact I|exact HpB|done|done|apply Hty; left]|]. cbn beta. intros _ s' H. by apply runs_ret.
Qed.

Lemma fallbacks_ok st t : t ∈ fallbacks st → 0 <= t < MIGRATE_TYPES.
Proof. unfold fallbacks. repeat case_match; intros Ht; repeat (apply elem_of_cons in Ht as [->|Ht]; [done|]); by apply elem_of_nil in Ht. Qed.

Lemma fallback_orders_spec B d off lk s order st n : buddy_inv B d off lk s → 0 <= order → order + Z.of_nat n <= MAX_ORDER → 0 <= st < MIGRATE_TYPES →
  runs (fallback_orders n order st) s (λ r s', match r with
    | Some p => taken B d off lk order p s s'
    | None => s' = s ∧ ∀ o t, order <= o < order + Z.of_nat n → t ∈ fallbacks st → t ≠ MIGRATE_RESERVE → chain s (free_list o t) = []
    end).
Proof.
  intros I Hord. induction n as [|n IH]; intros Hn Hst; cbn [fallback_orders]; [apply runs_ret; split; [done|]; intros o t Ho; lia|].
  apply runs_bind. eapply runs_mono; [apply fallback_types_spec; [exact I|lia|lia|done|apply fallbacks_ok]|]. cbn beta.
  intros [p|] s1 H1; [by apply runs_ret|]. destruct H1 as [-> H1]. eapply runs_mono; [apply IH; [lia|done]|]. cbn beta.
  intros [p|] s2 H2; [done|]. destruct H2 as [-> H2]. split; [done|]. intros o t Ho Ht Hne.
  destruct (decide (o = order + Z.of_nat n)) as [->|]; [by apply H1|]. apply H2; [lia|done|done].
Qed.

(** The types that an allocation may use. *)
Lemma fallbacks_all st t : 0 <= st < MIGRATE_PCPTYPES → 0 <= t < MIGRATE_PCPTYPES → t ≠ st → t ∈ fallbacks st.
Proof.
  unfold MIGRATE_PCPTYPES. intros Hst Ht Hne. assert (st = 0 ∨ st = 1 ∨ st = 2) as [->|[->| ->]] by lia;
    assert (t = 0 ∨ t = 1 ∨ t = 2) as [->|[->| ->]] by lia; first [done | apply (bool_decide_unpack _); vm_compute; exact I].
Qed.

Lemma __rmqueue_spec B d off lk s order t : buddy_inv B d off lk s → 0 <= order < MAX_ORDER → 0 <= t < MIGRATE_PCPTYPES →
  runs (__rmqueue order t) s (λ r s', match r with
    | Some p => taken B d off lk order p s s'
    | None => s' = s ∧ ∀ o u, order <= o < MAX_ORDER → 0 <= u < MIGRATE_ISOLATE → chain s (free_list o u) = []
    end).
Proof.
  intros I Ho Ht. unfold MIGRATE_PCPTYPES in Ht. unfold __rmqueue. apply runs_bind.
  eapply runs_mono; [apply __rmqueue_smallest_spec; [exact I|lia|unfold MIGRATE_TYPES; lia]|]. cbn beta.
  intros [p|] s1 H1; [by apply runs_ret|]. destruct H1 as [-> H1]. destruct (Z.eqb_spec t MIGRATE_RESERVE); [unfold MIGRATE_RESERVE in *; lia|].
  apply runs_bind. eapply runs_mono; [apply fallback_orders_spec; [exact I|lia|lia|unfold MIGRATE_TYPES; lia]|]. cbn beta.
  intros [p|] s2 H2; [by apply runs_ret|]. destruct H2 as [-> H2]. replace (order + Z.of_nat (Z.to_nat (MAX_ORDER - order))) with MAX_ORDER in H2 by lia.
  eapply runs_mono; [apply __rmqueue_smallest_spec; [exact I|lia|done]|]. cbn beta.
  intros [p|] s3 H3; [done|]. destruct H3 as [-> H3]. split; [done|]. intros o u Ho' Hu. unfold MIGRATE_ISOLATE in Hu.
  destruct (decide (u = t)) as [->|]; [by apply H1|]. destruct (decide (u = MIGRATE_RESERVE)) as [->|Hr]; [by apply H3|].
  unfold MIGRATE_RESERVE in Hr. apply H2; [done|apply fallbacks_all; unfold MIGRATE_PCPTYPES; lia|done].
Qed.
End alloc.
