(* ===== verification/BuddyCpu.v ===== *)
(** * The lists of the CPU

    Single pages travel between the free blocks of the zone and the lists of the CPU
    ([free_pcppages_bulk], [rmqueue_bulk]). The pages that are available, which are those of
    the blocks and those of the lists, stay the same. *)

From S2P Require Import Prelude Hoare Lru LruInv Vmscan VmscanZone Watermark Buddy BuddyBlocks BuddyInv BuddyFree BuddyAlloc.

Definition on_cpu (s : zst) (x : Z) : Prop := ∃ t, x ∈ chain s (pcp_list t).

(** The pages that an allocation can take. *)
Definition avail (B : blocks) (s : zst) (x : Z) : Prop := covers B x ∨ on_cpu s x.

Definition cpu_length (s : zst) : Z :=
  foldr (λ t n, Z.of_nat (length (chain s (pcp_list t))) + n) 0 (seqZ 0 MIGRATE_PCPTYPES).

(** Pages are moved, and nothing else is touched. *)
Record trade (B : blocks) (s : zst) (B' : blocks) (s' : zst) : Prop := Trade {
  tr_avail x : avail B' s' x ↔ avail B s x;
  tr_frame x : ¬ avail B s x → frames s' !! x = frames s !! x;
  tr_count : pcp_count s' = pcp_count s;
}.

Lemma trade_refl B s : trade B s B s.
Proof. by split. Qed.
#[export] Hint Resolve trade_refl : core.

Lemma trade_trans B1 s1 B2 s2 B3 s3 : trade B1 s1 B2 s2 → trade B2 s2 B3 s3 → trade B1 s1 B3 s3.
Proof.
  intros [A1 F1 C1] [A2 F2 C2]. split; [intros x; by rewrite A2|intros x Hx; rewrite F2; [by apply F1|by rewrite A1]|congruence].
Qed.

Lemma cpu_length_change s s' t x : 0 <= t < MIGRATE_PCPTYPES →
  Z.of_nat (length (chain s' (pcp_list t))) = Z.of_nat (length (chain s (pcp_list t))) + x →
  (∀ u, u ≠ t → chain s' (pcp_list u) = chain s (pcp_list u)) → cpu_length s' = cpu_length s + x.
Proof.
  unfold MIGRATE_PCPTYPES. intros Ht E Eo. unfold cpu_length. change (seqZ 0 MIGRATE_PCPTYPES) with [0; 1; 2]. cbn [foldr].
  assert (t = 0 ∨ t = 1 ∨ t = 2) as Hc by lia. destruct Hc as [->|[->| ->]]; rewrite E; repeat rewrite (Eo _) by lia; lia.
Qed.

Lemma cpu_length_same s s' : (∀ t, chain s' (pcp_list t) = chain s (pcp_list t)) → cpu_length s' = cpu_length s.
Proof. intros E. unfold cpu_length. induction (seqZ 0 MIGRATE_PCPTYPES) as [|t l IH]; cbn [foldr]; [done|]. by rewrite E, IH. Qed.

Section cpu.
Context `{A : Allocator}.

Lemma on_cpu_spec B d off lk s x : buddy_inv B d off lk s → on_cpu s x →
  ∃ t, 0 <= t < MIGRATE_PCPTYPES ∧ x ∈ chain s (pcp_list t) ∧ ¬ covers B x ∧ ∃ f, frames s !! x = Some f ∧ idle f ∧ 0 <= private f < MIGRATE_TYPES.
Proof.
  intros I [t Hx]. exists t. destruct (bi_chain _ _ _ _ _ I _ _ Hx) as [[[? _] _]|([_ ?] & ? & ?)]; [cbn in *; lia|done].
Qed.

(** ** A page leaves a list, a page enters a list *)

Lemma cpu_take B d off lk s p t : buddy_inv B d off lk s → p ∈ chain s (pcp_list t) →
  buddy_inv B d off lk (unchain p s) ∧ holds B p 0 (unchain p s) ∧ cpu_length (unchain p s) = cpu_length s - 1.
Proof.
  intros I Hp. destruct (on_cpu_spec _ _ _ _ _ p I (ex_intro _ t Hp)) as (t' & Ht & Hp' & Hno & Hf).
  assert (pcp_list t' = pcp_list t) as [= ->] by (by eapply bi_unique). clear Hp'.
  assert (∀ h, h ≠ pcp_list t → chain (unchain p s) h = chain s h) as Hsame.
  { intros h Hne. rewrite chain_unchain. apply without_id. intros Hh. apply Hne. by eapply bi_unique. }
  assert (∀ o u, 0 <= o → chain (unchain p s) (free_list o u) = chain s (free_list o u)) as Hfree.
  { intros o u Ho. apply Hsame. unfold free_list, pcp_list. intros [= -> ->]. lia. }
  assert (∀ o, 0 <= o → listed (unchain p s) o = listed s o) as Hl by (intros o Ho; apply listed_same; intros u; by rewrite Hfree).
  assert (listed_pages (unchain p s) = listed_pages s) as Hlp.
  { unfold listed_pages. change (seqZ 0 MAX_ORDER) with [0; 1; 2; 3; 4; 5; 6; 7; 8; 9; 10]. cbn [foldr]. by rewrite !Hl by lia. }
  assert (∀ h q, q ∈ chain (unchain p s) h ↔ q ∈ chain s h ∧ q ≠ p) as Hc by (intros h q; rewrite chain_unchain; apply elem_without).
  split_and!.
  - split; try apply I.
    + intros h q [Hq _]%Hc. by apply (bi_chain _ _ _ _ _ I).
    + intros q o Hq. destruct (bi_listed _ _ _ _ _ I q o Hq) as (u & Hu & Hin). exists u. split; [done|]. apply Hc. split; [done|]. intros ->.
      apply Hno. exists p, o. split; [done|]. apply block_head, (bk_order _ (bi_disjoint _ _ _ _ _ I) _ _ Hq).
    + intros h. rewrite chain_unchain. apply NoDup_filter, I.
    + intros h h' q [Hq _]%Hc [Hq' _]%Hc. by eapply bi_unique.
    + intros o Ho. rewrite Hl by lia. by apply I.
    + rewrite Hlp. apply I.
  - assert (∀ x, in_block p 0 x → x = p) as Hx by (unfold in_block; intros x; lia). split.
    + done.
    + unfold aligned. rewrite Z.pow_0_r. apply Z.divide_1_l.
    + by intros x ->%Hx.
    + intros x ->%Hx. destruct Hf as (f & ? & ? & _). by exists f.
    + intros x h ->%Hx [_ ?]%Hc. done.
  - replace (cpu_length s - 1) with (cpu_length s + -1) by lia. apply (cpu_length_change s _ t); [done| |by intros u Hu; apply Hsame; intros [= ?]].
    rewrite chain_unchain. pose proof (length_without p _ (bi_nodup _ _ _ _ _ I _) Hp). lia.
Qed.

Lemma cpu_put B d off lk s p t f f' g : buddy_inv B d off lk s → holds B p 0 s → 0 <= t < MIGRATE_PCPTYPES →
  g (chain s (pcp_list t)) ≡ₚ p :: chain s (pcp_list t) → frames s !! p = Some f → idle f' → 0 <= private f' < MIGRATE_TYPES →
  let s' := fset p f' (rechain (pcp_list t) g s) in
  buddy_inv B d off lk s' ∧ cpu_length s' = cpu_length s + 1 ∧ ∀ x, on_cpu s' x ↔ on_cpu s x ∨ x = p.
Proof.
  intros I Hh Ht Hg Hf Hi Hpr s'. assert (in_block p 0 p) as Hp by (by apply block_head).
  assert (∀ h, chain s' h = if decide (pcp_list t = h) then g (chain s (pcp_list t)) else chain s h) as Ec by (intros h; apply chain_rechain).
  assert (∀ h q, q ∈ chain s' h ↔ q ∈ chain s h ∨ q = p ∧ h = pcp_list t) as Hc.
  { intros h q. rewrite Ec. case_decide as E; [subst h; rewrite Hg, elem_of_cons; naive_solver|naive_solver]. }
  assert (∀ o u, 0 <= o → chain s' (free_list o u) = chain s (free_list o u)) as Hfree.
  { intros o u Ho. rewrite Ec. rewrite decide_False; [done|]. unfold free_list, pcp_list. intros [= ? ?]. lia. }
  assert (∀ o, 0 <= o → listed s' o = listed s o) as Hl by (intros o Ho; apply listed_same; intros u; by rewrite Hfree).
  assert (listed_pages s' = listed_pages s) as Hlp.
  { unfold listed_pages. change (seqZ 0 MAX_ORDER) with [0; 1; 2; 3; 4; 5; 6; 7; 8; 9; 10]. cbn [foldr]. by rewrite !Hl by lia. }
  assert (∀ x, x ≠ p → frames s' !! x = frames s !! x) as Hfr by (intros x Hx; by apply lookup_insert_ne).
  assert (frames s' !! p = Some f') as Hfp by apply lookup_insert_eq.
  assert (∀ x, is_Some (frames s' !! x) ↔ is_Some (frames s !! x)) as Hdom by (intros x; exact (fset_map p f _ (rechain _ _ s) x Hf)).
  assert (page_zone_id f = zone_id) as Hz by (destruct (ho_frame _ _ _ _ Hh p Hp) as (f0 & ? & [[? _] _]); congruence).
  pose proof (ho_outside _ _ _ _ Hh p Hp) as Hno. pose proof (λ h, ho_chain _ _ _ _ Hh p h Hp) as Hnc.
  split_and!.
  - split; try apply I.
    + intros q o Hq. rewrite Hfr; [by apply I|]. intros ->. apply Hno. exists p, o. split; [done|]. apply block_head, (bk_order _ (bi_disjoint _ _ _ _ _ I) _ _ Hq).
    + intros q fq Hq Hzq Hb. destruct (decide (q = p)) as [->|Hne]; [|rewrite Hfr in Hq by done; by apply I].
      rewrite Hfp in Hq. injection Hq as <-. destruct Hi as [_ Hm]. unfold PageBuddy in Hb. by rewrite Hm in Hb.
    + intros x Hx. rewrite Hfr; [by apply I|]. by intros ->.
    + intros h q [Hq|[-> ->]]%Hc.
      * rewrite Hfr; [by apply (bi_chain _ _ _ _ _ I)|]. intros ->. by apply (Hnc h).
      * right. split; [done|]. split; [done|]. by exists f'.
    + intros q o Hq. destruct (bi_listed _ _ _ _ _ I q o Hq) as (u & Hu & Hin). exists u. split; [done|]. apply Hc. by left.
    + intros h. rewrite Ec. case_decide; [|apply I]. rewrite Hg. apply NoDup_cons. split; [apply Hnc|apply I].
    + intros h h' q [Hq|[-> ->]]%Hc [Hq'|[E ->]]%Hc; [by eapply bi_unique|subst; by destruct (Hnc h)|by destruct (Hnc h')|done].
    + intros o Ho. rewrite Hl by lia. by apply (bi_nr _ _ _ _ _ I).
    + rewrite Hlp. apply (bi_free _ _ _ _ _ I).
    + intros q x y Hq Hx Hy. rewrite !Hdom. by apply (bi_map _ _ _ _ _ I q).
    + intros x Hx. destruct (bi_span _ _ _ _ _ I x Hx) as (k & Hk & Hzk). destruct (decide (x = p)) as [->|Hne]; [|exists k; by rewrite Hfr].
      exists f'. split; [done|]. apply Hi.
    + intros x k Hk Hzk. destruct (decide (x = p)) as [->|Hne]; [|rewrite Hfr in Hk by done; by eapply bi_inside]. by eapply bi_inside.
  - apply (cpu_length_change s _ t); [done| |].
    + rewrite Ec, decide_True by done. rewrite Hg. cbn [length]. lia.
    + intros u Hu. rewrite Ec, decide_False; [done|]. by intros [= ?].
  - intros x. unfold on_cpu. setoid_rewrite Hc. split; [intros [u [?|[-> _]]]; eauto|intros [[u ?]| ->]; [by exists u; left|exists t; by right]].
Qed.

(** ** Giving pages back to the zone *)

Lemma take_trade B s p B' s' : adds_block B p 0 B' → local (λ x, covers B x ∨ in_block p 0 x) (unchain p s) s' →
  on_cpu s p → trade B s B' s'.
Proof.
  intros Hadd [L1 L2 L3] Hp. pose proof (in_block_0 p) as Hx.
  assert (∀ x, on_cpu s' x ↔ on_cpu s x ∧ x ≠ p) as Ho.
  { intros x. unfold on_cpu. setoid_rewrite L2. setoid_rewrite chain_unchain. setoid_rewrite elem_without. naive_solver. }
  split.
  - intros x. unfold avail. rewrite (Hadd x), Hx, Ho. destruct (decide (x = p)) as [->|]; tauto.
  - intros x Hno. rewrite L1; [done|]. rewrite Hx. intros [?| ->]; apply Hno; [by left|by right].
  - done.
Qed.

Lemma cpu_free_one B d off lk s p t : buddy_inv B d off lk s → p ∈ chain s (pcp_list t) → ∃ f, frames s !! p = Some f ∧
  runs (__free_one_page p 0 (private f)) (unchain p s) (λ _ s', ∃ B', buddy_inv B' d (off - 1) lk s' ∧ trade B s B' s' ∧ cpu_length s' = cpu_length s - 1).
Proof.
  intros I Hp. destruct (on_cpu_spec _ _ _ _ _ p I (ex_intro _ t Hp)) as (_ & _ & _ & _ & f & Hf & _ & Hpr).
  destruct (cpu_take _ _ _ _ _ _ _ I Hp) as (I1 & Hh & Hl). exists f. split; [done|].
  eapply runs_mono; [by apply __free_one_page_spec|]. cbn beta. intros _ s' (B' & I' & Hadd & Lo). exists B'. split; [done|].
  split; [by eapply take_trade; [..|by exists t]|]. rewrite <- Hl. apply cpu_length_same, Lo.
Qed.

Local Ltac norm_list := repeat match goal with |- context [if ?x =? MIGRATE_PCPTYPES then 0 else ?y] =>
  let v := eval vm_compute in (if x =? MIGRATE_PCPTYPES then 0 else y) in change (if x =? MIGRATE_PCPTYPES then 0 else y) with v end.

Lemma next_list_spec s t b : 0 <= t < MIGRATE_PCPTYPES → 0 < cpu_length s →
  ∃ t' b', next_list (Z.to_nat MIGRATE_PCPTYPES) t b s = Ok ((t', b'), s) ∧ 0 <= t' < MIGRATE_PCPTYPES ∧ chain s (pcp_list t') ≠ [].
Proof.
  unfold MIGRATE_PCPTYPES at 1. intros Ht Hl. unfold cpu_length in Hl. change (seqZ 0 MIGRATE_PCPTYPES) with [0; 1; 2] in Hl. cbn [foldr] in Hl.
  change (Z.to_nat MIGRATE_PCPTYPES) with 3%nat.
  assert (t = 0 ∨ t = 1 ∨ t = 2) as Hc by lia. destruct Hc as [->|[->| ->]]; cbn [next_list];
    repeat (erewrite bind_Ok by done; cbv beta zeta; norm_list; case_bool_decide; [|eexists _, _; split_and!; [done|done|done|done]]);
    repeat match goal with H : chain _ _ = [] |- _ => rewrite H in Hl end; cbn in Hl; lia.
Qed.

Lemma free_batch_spec d lk t n : ∀ B off s to_free batch, buddy_inv B d off lk s → chain s (pcp_list t) ≠ [] → 0 < to_free → to_free = Z.of_nat n →
  runs (free_batch n t to_free batch) s (λ r s', ∃ B', buddy_inv B' d (off - (to_free - r.1)) lk s' ∧ trade B s B' s' ∧
    cpu_length s' = cpu_length s - (to_free - r.1) ∧ 0 <= r.1 < to_free).
Proof.
  induction n as [|n IH]; intros B off s to_free batch I Hne Hpos Hn; [lia|]. cbn [free_batch]. apply runs_bind, runs_gets.
  destruct (last (chain s (pcp_list t))) as [p|] eqn:El; [|by apply last_None in El]. cbn [of_option]. apply runs_bind, runs_ret.
  assert (p ∈ chain s (pcp_list t)) as Hp by (apply last_Some_elem_of; exact El).
  apply runs_bind. eapply runs_ok; [by eapply chain_del_run|]. destruct (cpu_free_one _ _ _ _ _ _ _ I Hp) as (f & Hf & Hrun).
  apply runs_bind. eapply runs_ok; [by apply frame_at_run|]. apply runs_bind. eapply runs_mono; [exact Hrun|]. cbn beta.
  intros _ s1 (B1 & I1 & T1 & L1). destruct (Z.eqb_spec (to_free - 1) 0).
  { apply runs_ret. exists B1. cbn [fst]. split_and!; [by replace (off - (to_free - (to_free - 1))) with (off - 1) by lia|done|lia|lia|lia]. }
  destruct (batch - 1 =? 0).
  { apply runs_ret. exists B1. cbn [fst]. split_and!; [by replace (off - (to_free - (to_free - 1))) with (off - 1) by lia|done|lia|lia|lia]. }
  apply runs_bind, runs_gets. case_bool_decide as Hl.
  { apply runs_ret. exists B1. cbn [fst]. split_and!; [by replace (off - (to_free - (to_free - 1))) with (off - 1) by lia|done|lia|lia|lia]. }
  eapply runs_mono; [apply (IH B1 (off - 1)); [done|done|lia|lia]|]. cbn beta. intros r s2 (B2 & I2 & T2 & L2 & Hr). exists B2. split_and!; [|by eapply trade_trans|lia|lia|lia].
  by replace (off - (to_free - r.1)) with (off - 1 - (to_free - 1 - r.1)) by lia.
Qed.

Lemma bulk_loop_spec d lk n : ∀ B off s t to_free batch, buddy_inv B d off lk s → 0 <= t < MIGRATE_PCPTYPES → 0 <= to_free <= cpu_length s → to_free <= Z.of_nat n →
  runs (bulk_loop n t to_free batch) s (λ _ s', ∃ B', buddy_inv B' d (off - to_free) lk s' ∧ trade B s B' s' ∧ cpu_length s' = cpu_length s - to_free).
Proof.
  induction n as [|n IH]; intros B off s t to_free batch I Ht Htf Hn; cbn [bulk_loop]; (destruct (Z.eqb_spec to_free 0) as [->|];
    [apply runs_ret; exists B; split_and!; [by replace (off - 0) with off by lia|done|lia]|]); [lia|].
  destruct (next_list_spec s t batch Ht ltac:(lia)) as (t' & b' & Enext & Ht' & Hne). apply runs_bind. eapply runs_ok; [exact Enext|]. cbv beta iota zeta.
  apply runs_bind. eapply runs_mono; [apply (free_batch_spec d lk); [exact I|exact Hne|lia|lia]|]. cbn beta. intros [tf b] s1 (B1 & I1 & T1 & L1 & Hr). cbn [fst] in *.
  eapply runs_mono; [apply (IH B1 (off - (to_free - tf))); [done|done|lia|lia]|]. cbn beta. intros _ s2 (B2 & I2 & T2 & L2). exists B2.
  split_and!; [by replace (off - to_free) with (off - (to_free - tf) - tf) by lia|by eapply trade_trans|lia].
Qed.

Lemma free_pcppages_bulk_spec B d off s count : buddy_inv B d off false s → 0 <= count <= cpu_length s →
  runs (free_pcppages_bulk count) s (λ _ s', ∃ B', buddy_inv B' d off false s' ∧ trade B s B' s' ∧ cpu_length s' = cpu_length s - count).
Proof.
  intros I Hc. unfold free_pcppages_bulk, spin_lock. apply runs_bind, runs_bind, runs_gets. rewrite (bi_lock _ _ _ _ _ I).
  apply runs_modify, runs_bind, runs_modify, runs_bind, runs_modify. set (s1 := set_zdata _ _).
  assert (buddy_inv B d off true s1) as I1.
  { exact (inv_upd_z _ _ _ _ _ (set_pages_scanned 0) (inv_upd_z _ _ _ _ _ (set_all_unreclaimable false) (inv_lock _ _ _ _ true _ I) eq_refl eq_refl) eq_refl eq_refl). }
  apply runs_bind. eapply runs_mono; [apply (bulk_loop_spec d true); [exact I1|done|exact Hc|lia]|]. cbn beta. intros _ s2 (B' & I2 & T2 & L2).
  apply runs_bind, runs_modify, runs_modify. exists B'. split_and!; [|by destruct T2|exact L2].
  pose proof (inv_lock _ _ _ _ false _ (inv_free_pages _ _ _ _ _ count I2)) as I3. by replace (off - count + count) with off in I3 by lia.
Qed.

(** ** Taking pages from the zone *)

Lemma insert_after_perm q p l : q ∈ l → insert_after q p l ≡ₚ p :: l.
Proof.
  induction l as [|k l IH]; [by intros ?%elem_of_nil|]. cbn [insert_after]. destruct (Z.eqb_spec k q) as [->|Hne]; [intros _; apply Permutation_swap|].
  intros [->|Hq]%elem_of_cons; [done|]. rewrite (IH Hq). apply Permutation_swap.
Qed.

Lemma insert_before_perm q p l : q ∈ l → insert_before q p l ≡ₚ p :: l.
Proof.
  induction l as [|k l IH]; [by intros ?%elem_of_nil|]. cbn [insert_before]. destruct (Z.eqb_spec k q) as [->|Hne]; [done|].
  intros [->|Hq]%elem_of_cons; [done|]. rewrite (IH Hq). apply Permutation_swap.
Qed.

(** A page that has been taken is put on a list of the CPU. *)
Lemma refill_trade B B1 d off lk s s1 s2 p : taken B d off lk 0 p s s1 → adds_block B1 p 0 B → (∀ x, on_cpu s2 x ↔ on_cpu s1 x ∨ x = p) →
  (∀ x, x ≠ p → frames s2 !! x = frames s1 !! x) → pcp_count s2 = pcp_count s1 → trade B s B1 s2.
Proof.
  intros (B' & _ & _ & _ & [L1 L2 L3]) Hadd Ho Hf Hc. pose proof (in_block_0 p) as Hx.
  assert (∀ x, on_cpu s1 x ↔ on_cpu s x) as Ho1 by (intros x; unfold on_cpu; by setoid_rewrite L2). split.
  - intros x. unfold avail. rewrite (Hadd x), Hx, Ho, Ho1. tauto.
  - intros x Hno. rewrite Hf; [apply L1; intros ?; apply Hno; by left|]. intros ->. apply Hno. left. apply Hadd. right. by apply Hx.
  - congruence.
Qed.

(** No block of at least the order is free, but for isolated ones. *)
Definition exhausted (order : Z) (s : zst) : Prop :=
  ∀ o u, order <= o < MAX_ORDER → 0 <= u < MIGRATE_ISOLATE → chain s (free_list o u) = [].

Lemma rmqueue_loop_spec d lk t cold n : 0 <= t < MIGRATE_PCPTYPES → ∀ B off s pos i, buddy_inv B d off lk s →
  (∀ q, pos = Some q → q ∈ chain s (pcp_list t)) →
  runs (rmqueue_loop n 0 t (pcp_list t) cold pos i) s (λ r s', ∃ B', buddy_inv B' d (off + (r - i)) lk s' ∧ trade B s B' s' ∧
    cpu_length s' = cpu_length s + (r - i) ∧ i <= r ∧ (chain s (pcp_list t) ≠ [] ∨ i < r → chain s' (pcp_list t) ≠ []) ∧
    (r = i → n ≠ O → s' = s ∧ B' = B ∧ exhausted 0 s)).
Proof.
  intros Ht. induction n as [|n IH]; intros B off s pos i I Hpos; cbn [rmqueue_loop].
  { apply runs_ret. exists B. split_and!; [by replace (off + (i - i)) with off by lia|done|lia|lia|intros [?|?]; [done|lia]|done]. }
  apply runs_bind. eapply runs_mono; [apply __rmqueue_spec; [exact I|done|done]|]. cbn beta. intros [p|] s1 H1; cycle 1.
  { destruct H1 as [-> H1]. apply runs_ret. exists B. split_and!; [by replace (off + (i - i)) with off by lia|done|lia|lia|intros [?|?]; [done|lia]|done]. }
  pose proof H1 as (B1 & I1 & Hh1 & Hadd & Lo1). change (2 ^ 0) with 1 in I1. destruct (holds_head _ _ _ _ Hh1) as (f & Hf & Hi).
  apply runs_bind. eapply runs_ok; [apply chain_put_run; intros h; by apply Hh1, block_head|].
  set (g := match pos, cold with None, false => _ | None, true => _ | Some q, false => _ | Some q, true => _ end).
  assert (g (chain s1 (pcp_list t)) ≡ₚ p :: chain s1 (pcp_list t)) as Hg.
  { subst g. rewrite (lo_pcp _ _ _ Lo1 t). destruct pos as [q|], cold; [by apply insert_before_perm, Hpos|by apply insert_after_perm, Hpos|apply adds_snoc|done]. }
  clearbody g. apply runs_bind. eapply runs_ok; [by apply upd_frame_run|].
  destruct (cpu_put _ _ _ _ _ _ t f (set_page_private t f) g I1 Hh1 Ht Hg Hf) as (I2 & Hl2 & Ho2); [done|cbn; unfold MIGRATE_TYPES; unfold MIGRATE_PCPTYPES in Ht; lia|].
  assert (trade B s B1 (fset p (set_page_private t f) (rechain (pcp_list t) g s1))) as T2.
  { eapply refill_trade; [exact H1|done|exact Ho2|intros x Hx; by apply lookup_insert_ne|done]. }
  assert (p ∈ chain (fset p (set_page_private t f) (rechain (pcp_list t) g s1)) (pcp_list t)) as Hin.
  { change (p ∈ chain (rechain (pcp_list t) g s1) (pcp_list t)). rewrite chain_rechain, decide_True by done. rewrite Hg. left. }
  rewrite (cpu_length_same _ _ (lo_pcp _ _ _ Lo1)) in Hl2. set (s2 := fset _ _ _) in *. clearbody s2.
  eapply runs_mono; [apply (IH B1 (off + 1)); [exact I2|by intros q [= <-]]|]. cbn beta.
  intros r s3 (B3 & I3 & T3 & L3 & Hr & Hne & _). exists B3.
  split_and!; [by replace (off + (r - i)) with (off + 1 + (r - (i + 1))) by lia|by eapply trade_trans|lia|lia| |lia].
  intros _. apply Hne. left. intros E. rewrite E in Hin. by apply elem_of_nil in Hin.
Qed.

Lemma trade_upd B s B' s' s'' : trade B s B' s' → frames s'' = frames s' → chains s'' = chains s' → pcp_count s'' = pcp_count s' → trade B s B' s''.
Proof.
  intros [T1 T2 T3] Ef Ec En. split; [|intros x Hx; rewrite Ef; by apply T2|congruence].
  intros x. rewrite <- T1. unfold avail, on_cpu, chain. by rewrite Ec.
Qed.

Lemma rmqueue_bulk_spec B d off s count t cold : buddy_inv B d off false s → 0 <= t < MIGRATE_PCPTYPES → 0 < count →
  runs (rmqueue_bulk 0 count (pcp_list t) t cold) s (λ r s', ∃ B', buddy_inv B' d off false s' ∧ trade B s B' s' ∧
    cpu_length s' = cpu_length s + r ∧ (0 < r → chain s' (pcp_list t) ≠ []) ∧ (r = 0 → B' = B ∧ chains s' = chains s ∧ exhausted 0 s) ∧ 0 <= r).
Proof.
  intros I Ht Hc. unfold rmqueue_bulk, spin_lock. apply runs_bind, runs_bind, runs_gets. rewrite (bi_lock _ _ _ _ _ I). apply runs_modify.
  apply runs_bind. eapply runs_mono; [apply (rmqueue_loop_spec d true); [done|exact (inv_lock _ _ _ _ true _ I)|done]|]. cbn beta.
  intros r s1 (B1 & I1 & T1 & L1 & Hr & Hne & Hex). rewrite Z.sub_0_r in *. apply runs_bind, runs_modify, runs_bind, runs_modify, runs_ret.
  exists B1. split_and!.
  - pose proof (inv_lock _ _ _ _ false _ (inv_free_pages _ _ _ _ _ (- (r * 2 ^ 0)) I1)) as I3. by replace (off + r + - (r * 2 ^ 0)) with off in I3 by lia.
  - eapply trade_upd; [|done|done|done]. by destruct T1.
  - exact L1.
  - intros Hr'. apply Hne. by right.
  - intros ->. destruct Hex as (-> & -> & He); [done|lia|]. done.
  - done.
Qed.
End cpu.
