(* ===== verification/BuddyApi.v ===== *)
(** * Allocating and freeing pages

    What the users of the allocator see: [buffered_rmqueue] gives out a block of pages that
    were available, with frames that are in order, and [__free_pages] makes the pages of a
    block available. *)

From S2P Require Import Prelude Hoare Lru LruInv Vmscan VmscanZone Watermark Buddy BuddyBlocks BuddyInv BuddyFree BuddyAlloc BuddyCpu.

(** Only frames of [F] are changed; the lists and what the invariant says of counters stay. *)
Record reframed (F : Z → Prop) (s s' : zst) : Prop := Reframed {
  rf_frame x : ¬ F x → frames s' !! x = frames s !! x;
  rf_zone x : page_zone_id <$> frames s' !! x = page_zone_id <$> frames s !! x;
  rf_chains : chains s' = chains s;
  rf_count : pcp_count s' = pcp_count s;
  rf_types : pageblock_flags s' = pageblock_flags s;
  rf_lock : zlock s' = zlock s;
  rf_nr : nr_free (zdata s') = nr_free (zdata s);
  rf_free : stat (vm_stat (zdata s')) NR_FREE_PAGES = stat (vm_stat (zdata s)) NR_FREE_PAGES;
}.

Lemma reframed_refl F s : reframed F s s.
Proof. by split. Qed.
#[export] Hint Resolve reframed_refl : core.

Lemma reframed_trans (F G : Z → Prop) s1 s2 s3 : reframed F s1 s2 → reframed G s2 s3 → (∀ x, G x → F x) → reframed F s1 s3.
Proof.
  intros R1 R2 H. split; [|intros x; by rewrite (rf_zone _ _ _ R2), (rf_zone _ _ _ R1)|..]; try (destruct R1, R2; congruence).
  intros x Hx. rewrite (rf_frame _ _ _ R2) by (intros Hg; by apply Hx, H). by apply R1.
Qed.

Lemma reframed_fset p f g s : frames s !! p = Some f → page_zone_id g = page_zone_id f → reframed (eq p) s (fset p g s).
Proof.
  intros Hf Hz. split; try done; intros x; cbn.
  - intros Hx. by apply lookup_insert_ne.
  - destruct (decide (p = x)) as [<-|]; [by rewrite lookup_insert_eq, Hf; cbn; rewrite Hz|by rewrite lookup_insert_ne].
Qed.

Lemma reframed_dom F s s' x : reframed F s s' → is_Some (frames s' !! x) ↔ is_Some (frames s !! x).
Proof. intros R. pose proof (rf_zone _ _ _ R x). destruct (frames s' !! x), (frames s !! x); try done; split; by eexists. Qed.

Lemma reframed_chain F s s' h : reframed F s s' → chain s' h = chain s h.
Proof. intros R. unfold chain. by rewrite (rf_chains _ _ _ R). Qed.

Lemma reframed_avail F B s s' x : reframed F s s' → avail B s' x ↔ avail B s x.
Proof. intros R. unfold avail, on_cpu. by setoid_rewrite (reframed_chain _ _ _ _ R). Qed.

(** ** Flags *)

Lemma has_false a m : has a m = false ↔ ∀ i, 0 <= i → Z.testbit a i && Z.testbit m i = false.
Proof.
  unfold has. rewrite negb_false_iff, Z.eqb_eq. split.
  - intros E i Hi. by rewrite <- Z.land_spec, E, Z.bits_0.
  - intros H. apply Z.bits_inj'. intros i Hi. by rewrite Z.land_spec, Z.bits_0, H.
Qed.

Lemma has_sub a m n : has a n = false → (∀ i, Z.testbit m i = true → Z.testbit n i = true) → has a m = false.
Proof.
  rewrite !has_false. intros H Hs i Hi. specialize (H i Hi). destruct (Z.testbit m i) eqn:E; [|by rewrite andb_false_r]. by rewrite (Hs i E) in H.
Qed.

Lemma has_setbit a b m : 0 <= b → has a m = false → Z.testbit m b = false → has (Z.setbit a b) m = false.
Proof.
  rewrite !has_false. intros Hb H Hm i Hi. rewrite Z.setbit_eqb by done. destruct (Z.eqb_spec b i) as [->|]; [by rewrite Hm, andb_false_r|].
  cbn. by apply H.
Qed.

Lemma has_clearbit a b m : has a m = false → has (Z.clearbit a b) m = false.
Proof. rewrite !has_false. intros H i Hi. rewrite Z.clearbit_eqb. specialize (H i Hi). by destruct (Z.testbit a i), (Z.testbit m i), (b =? i). Qed.

Lemma has_ldiff a m : has (Z.ldiff a m) m = false.
Proof. apply has_false. intros i Hi. rewrite Z.ldiff_spec. by destruct (Z.testbit a i), (Z.testbit m i). Qed.

Lemma check_masks i : Z.testbit PAGE_FLAGS_CHECK_AT_FREE i = true → Z.testbit PAGE_FLAGS_CHECK_AT_PREP i = true.
Proof.
  intros H. assert (0 <= i < NR_PAGEFLAGS) as Hi; [|by apply Z.ones_spec_low].
  destruct (decide (i < 0)); [by rewrite Z.testbit_neg_r in H|]. destruct (decide (i < NR_PAGEFLAGS)); [lia|].
  rewrite Z.bits_above_log2 in H; [done|done|]. change (Z.log2 PAGE_FLAGS_CHECK_AT_FREE) with 21. unfold NR_PAGEFLAGS in *. lia.
Qed.

(** What [setup_pageset] and its callers make of the sizes of the lists of the CPU. *)
Class CpuLists `{Allocator} : Prop := {
  batch_pos : 0 < pcp_batch;
  batch_high : pcp_batch <= Z.max 1 pcp_high;
}.

Section api.
Context `{A : Allocator} `{L : !CpuLists}.

(** The state between operations: nothing is under way, and the number of pages on the
    lists of the CPU is known. *)
Definition zone_inv (B : blocks) (s : zst) : Prop := buddy_inv B (λ _, 0) 0 false s ∧ pcp_count s = cpu_length s.

(** A frame of a block at [p] that may be freed; [c] is the number of references to the
    block. *)
Definition freeable (c p x : Z) (f : frame) : Prop :=
  page_zone_id f = zone_id ∧ f_mapcount f = -1 ∧ f_count f = (if decide (x = p) then c else 0) ∧
  (f_mapping f = NoMap ∨ x = p ∧ ∃ a, f_mapping f = AnonMap a) ∧
  has (if decide (x = p) then Z.clearbit (f_flags f) PG_mlocked else f_flags f) PAGE_FLAGS_CHECK_AT_FREE = false.

(** Pages that are not available are on no list. *)
Lemma unavail_chain B d off lk s x h : buddy_inv B d off lk s → ¬ avail B s x → x ∉ chain s h.
Proof.
  intros I Hno Hx. apply Hno. destruct (bi_chain _ _ _ _ _ I h x Hx) as [[_ Hb]|[[Eh _] _]].
  - left. exists x, h.1. split; [done|]. apply block_head, (bk_order _ (bi_disjoint _ _ _ _ _ I) _ _ Hb).
  - right. exists h.2. destruct h as [h1 h2]. cbn in *. by subst.
Qed.

(** Owners may do with the frames of their pages what they like, but for marking them as
    free blocks. *)
Lemma inv_reframed F `{!∀ x, Decision (F x)} B d off lk s s' : buddy_inv B d off lk s → reframed F s s' → (∀ x, F x → ¬ avail B s x) →
  (∀ x f, F x → frames s' !! x = Some f → PageBuddy f = false) → buddy_inv B d off lk s'.
Proof.
  intros I R Hno Hb. assert (∀ x, avail B s x → frames s' !! x = frames s !! x) as Hfr by (intros x Hx; apply R; intros HF; by apply (Hno x)).
  assert (∀ p o, (p, o) ∈ B → covers B p) as Hc.
  { intros p o Hp. exists p, o. split; [done|]. apply block_head, (bk_order _ (bi_disjoint _ _ _ _ _ I) _ _ Hp). }
  assert (∀ h, chain s' h = chain s h) as Ec by (intros h; by apply (reframed_chain F)).
  assert (∀ o, listed s' o = listed s o) as El by (intros o; apply listed_same; intros t; by rewrite Ec).
  assert (∀ x f, frames s' !! x = Some f → ∃ g, frames s !! x = Some g ∧ page_zone_id g = page_zone_id f) as Hback.
  { intros x f Hf. pose proof (rf_zone _ _ _ R x) as E. rewrite Hf in E. destruct (frames s !! x) as [g|]; [|done]. exists g. cbn in E. by simplify_eq. }
  split; try apply I.
  - intros p o Hp. rewrite Hfr by (left; by eapply Hc). by apply I.
  - intros p f Hf Hz Hbf. destruct (decide (F p)) as [HF|HF]; [by rewrite (Hb p f HF Hf) in Hbf|].
    rewrite (rf_frame _ _ _ R p HF) in Hf. by apply I.
  - intros x Hx. rewrite Hfr by (by left). by apply I.
  - intros h p. rewrite Ec. intros Hp. destruct (bi_chain _ _ _ _ _ I h p Hp) as [Hl|(Hh & Hnc & Hi)]; [by left|right].
    split; [done|]. split; [done|]. rewrite Hfr; [done|]. right. exists h.2. destruct h as [h1 h2], Hh as [E _]. cbn in *. by subst.
  - intros p o Hp. setoid_rewrite Ec. by apply I.
  - intros h. rewrite Ec. apply I.
  - intros h h' p. rewrite !Ec. apply I.
  - intros o Ho. rewrite (rf_nr _ _ _ R), El. by apply (bi_nr _ _ _ _ _ I).
  - rewrite (rf_free _ _ _ R), (listed_pages_same _ _ El). apply (bi_free _ _ _ _ _ I).
  - rewrite (rf_lock _ _ _ R). apply I.
  - intros q x y Hq Hx Hy. rewrite !(reframed_dom _ _ _ _ R). by apply (bi_map _ _ _ _ _ I q).
  - intros x Hx. destruct (bi_span _ _ _ _ _ I x Hx) as (g & Hg & Hz). pose proof (rf_zone _ _ _ R x) as E. rewrite Hg in E.
    destruct (frames s' !! x) as [f|]; [|done]. exists f. cbn in E. split; [done|]. congruence.
  - intros x f Hf Hz. destruct (Hback x f Hf) as (g & Hg & E). eapply bi_inside; [exact I|exact Hg|congruence].
  - intros i. rewrite (rf_types _ _ _ R). apply I.
Qed.

(** ** Checks before a block is freed *)

(** A frame that passes the check. *)
Definition loose (f : frame) : Prop :=
  page_zone_id f = zone_id ∧ f_count f = 0 ∧ f_mapping f = NoMap ∧ f_mapcount f = -1 ∧ has (f_flags f) PAGE_FLAGS_CHECK_AT_FREE = false.

Lemma loose_unused f : loose f → in_use PAGE_FLAGS_CHECK_AT_FREE f = false.
Proof. intros (_ & E1 & E2 & E3 & E4). unfold in_use, has_mapping. by rewrite E1, E2, E3, E4. Qed.

Lemma free_pages_check_run p f s : frames s !! p = Some f → loose f → ∃ g, free_pages_check p s = Ok (false, fset p g s) ∧ idle g.
Proof.
  intros Hf Hl. unfold free_pages_check. erewrite bind_Ok by (by apply frame_at_run). rewrite loose_unused by done.
  destruct Hl as (Ez & E1 & E2 & E3 & E4). destruct (has (f_flags f) PAGE_FLAGS_CHECK_AT_PREP) eqn:Eh; cbn [when].
  - eexists. erewrite bind_Ok by (by apply upd_frame_run). split; [done|]. split; [|done]. split_and!; [done|done|done|apply has_ldiff].
  - exists f. split; [|by split]. erewrite bind_Ok by done. unfold fset. rewrite insert_id by done. by destruct s.
Qed.

Lemma check_all_spec ps : NoDup ps → ∀ bad s, (∀ x, x ∈ ps → ∃ f, frames s !! x = Some f ∧ loose f) →
  runs (check_all ps bad) s (λ r s', r = bad ∧ reframed (.∈ ps) s s' ∧ ∀ x, x ∈ ps → ∃ f, frames s' !! x = Some f ∧ idle f).
Proof.
  induction 1 as [|p ps Hp Hnd IH]; intros bad s Hl; cbn [check_all].
  { apply runs_ret. split; [done|]. split; [done|]. by intros x ?%elem_of_nil. }
  destruct (Hl p ltac:(left)) as (f & Hf & Hlf). destruct (free_pages_check_run p f s Hf Hlf) as (g & E & Hg).
  assert (reframed (eq p) s (fset p g s)) as R1 by (eapply reframed_fset; [done|]; destruct Hlf as [-> _]; apply Hg).
  apply runs_bind. eapply runs_ok; [exact E|]. eapply runs_mono; [apply IH|].
  - intros x Hx. destruct (Hl x ltac:(by right)) as (fx & Hfx & Hlx). exists fx. rewrite (rf_frame _ _ _ R1); [done|]. by intros ->.
  - cbn beta. intros r s' (-> & R2 & Hi). split; [done|]. split.
    + eapply (reframed_trans _ (.∈ ps)); [eapply (reframed_trans _ (eq p)); [apply reframed_refl|exact R1|intros x <-; left]|exact R2|intros x Hx; by right].
    + intros x [->|Hx]%elem_of_cons; [|by apply Hi]. exists g. rewrite (rf_frame _ _ _ R2) by done. split; [|done]. apply lookup_insert_eq.
Qed.

Lemma block_frames_spec p o x : 0 <= o → x ∈ block_frames p o ↔ in_block p o x.
Proof. intros Ho. unfold block_frames, in_block. pose proof (pow2_pos o Ho). rewrite elem_of_seqZ. lia. Qed.

Lemma free_pages_prepare_spec p o s : 0 <= o →
  (∀ x, in_block p o x → ∃ f, frames s !! x = Some f ∧ freeable 0 p x f ∧ has (f_flags f) PAGE_FLAGS_CHECK_AT_FREE = false) →
  runs (free_pages_prepare p o) s (λ r s', r = true ∧ reframed (in_block p o) s s' ∧ ∀ x, in_block p o x → ∃ f, frames s' !! x = Some f ∧ idle f).
Proof.
  intros Ho Hl. destruct (Hl p (block_head p o Ho)) as (f & Hf & (Hz & Hm & Hc & Hmap & _) & Hfl). rewrite decide_True in Hc by done.
  unfold free_pages_prepare. apply runs_bind. eapply runs_ok; [by apply frame_at_run|]. apply runs_bind.
  apply (runs_mono _ _ (λ _ s1, reframed (eq p) s s1 ∧ ∃ g, frames s1 !! p = Some g ∧ loose g)).
  { destruct (f_mapping f) eqn:Em; cbn [when]; [apply runs_ret; split; [done|]; by exists f| |by destruct Hmap as [?|[_ [? ?]]]].
    eapply runs_ok; [by apply upd_frame_run|]. split; [by eapply reframed_fset|]. eexists. split; [apply lookup_insert_eq|]. by split_and!. }
  intros _ s1 [R1 (g & Hg & Hlg)]. apply runs_bind. eapply runs_mono; [apply check_all_spec; [apply NoDup_seqZ|]|].
  - intros x Hx%block_frames_spec; [|done]. destruct (decide (p = x)) as [<-|Hne]; [by exists g|]. rewrite (rf_frame _ _ _ R1 x Hne).
    destruct (Hl x Hx) as (fx & Hfx & (Hzx & Hmx & Hcx & Hmapx & _) & Hflx). exists fx. split; [done|]. rewrite decide_False in Hcx by done.
    split_and!; [done|done|by destruct Hmapx as [?|[-> _]]|done|done].
  - cbn beta. intros r s2 (-> & R2 & Hi). apply runs_ret. split; [done|]. split; [|intros x Hx; apply Hi; by apply block_frames_spec].
    eapply (reframed_trans _ (.∈ block_frames p o)); [eapply (reframed_trans _ (eq p)); [apply reframed_refl|exact R1|intros x <-; by apply block_head]|exact R2|].
    intros x Hx. by apply block_frames_spec in Hx.
Qed.

(** ** Freeing *)

(** A block that its owner, who has [c] references, may free. *)
Record owns (c : Z) (B : blocks) (p o : Z) (s : zst) : Prop := Owns {
  ow_order : 0 <= o < MAX_ORDER;
  ow_aligned : aligned p o;
  ow_unavail x : in_block p o x → ¬ avail B s x;
  ow_frame x : in_block p o x → ∃ f, frames s !! x = Some f ∧ freeable c p x f;
}.

(** The pages of the block become available. *)
Definition freed (B : blocks) (s : zst) (p o : Z) (B' : blocks) (s' : zst) : Prop :=
  (∀ x, avail B' s' x ↔ avail B s x ∨ in_block p o x) ∧ ∀ x, ¬ avail B s x → ¬ in_block p o x → frames s' !! x = frames s !! x.

Lemma idle_unmarked f : idle f → PageBuddy f = false.
Proof. intros [_ E]. unfold PageBuddy. by rewrite E. Qed.

Lemma reframed_holds B d off lk s s' p o : buddy_inv B d off lk s → 0 <= o < MAX_ORDER → aligned p o → (∀ x, in_block p o x → ¬ avail B s x) →
  reframed (in_block p o) s s' → (∀ x, in_block p o x → ∃ f, frames s' !! x = Some f ∧ idle f) → buddy_inv B d off lk s' ∧ holds B p o s'.
Proof.
  intros I Ho Ha Hno R Hi. split.
  - eapply (inv_reframed (in_block p o)); [done|done|done|]. intros x f Hx Hf. destruct (Hi x Hx) as (g & Hg & Hgi). apply idle_unmarked. congruence.
  - split; [done|done|intros x Hx Hc; by apply (Hno x Hx); left|done|]. intros x h Hx. rewrite (reframed_chain _ _ _ _ R). by eapply unavail_chain; [|apply Hno].
Qed.

(** The page is about to be put back, without references, flags or mapping. *)
Lemma release_runs {C} B d off lk s p o (k : bool → bool → M zst C) (Q : C → zst → Prop) : buddy_inv B d off lk s → owns 0 B p o s →
  (∀ w s', buddy_inv B d off lk s' → holds B p o s' → reframed (in_block p o) s s' → runs (k w true) s' Q) →
  runs (w ← test_clear_mlocked p; ok ← free_pages_prepare p o; k w ok) s Q.
Proof.
  intros I [Ho Ha Hno Hfr] Hk. destruct (Hfr p (block_head p o (proj1 Ho))) as (f & Hf & Hff). unfold test_clear_mlocked.
  apply runs_bind, runs_bind. eapply runs_ok; [by apply frame_at_run|]. apply runs_bind. eapply runs_ok; [by apply upd_frame_run|]. apply runs_ret.
  assert (reframed (eq p) s (fset p (clear_flag PG_mlocked f) s)) as R1 by (by eapply reframed_fset). apply runs_bind.
  eapply runs_mono; [apply free_pages_prepare_spec; [lia|]|].
  - intros x Hx. destruct (decide (p = x)) as [<-|Hne].
    + eexists. split; [apply lookup_insert_eq|]. destruct Hff as (Hz & Hm & Hc & Hmap & Hfl). rewrite decide_True in Hc, Hfl by done.
      split; [|exact Hfl]. split_and!; [done|done|by rewrite decide_True|by destruct Hmap as [?|[_ ?]]; [left|right]|]. rewrite decide_True by done.
      cbn. by apply has_clearbit.
    + destruct (Hfr x Hx) as (g & Hg & Hgf). exists g. rewrite (rf_frame _ _ _ R1 x Hne). split; [done|]. split; [done|].
      destruct Hgf as (_ & _ & _ & _ & Hfl). by rewrite decide_False in Hfl.
  - cbn beta. intros r s2 (-> & R2 & Hi). assert (reframed (in_block p o) s s2) as R.
    { eapply reframed_trans; [eapply (reframed_trans _ (eq p)); [apply reframed_refl|exact R1|intros x <-; apply block_head; lia]|exact R2|done]. }
    destruct (reframed_holds _ _ _ _ _ _ _ _ I Ho Ha Hno R Hi) as [I2 H2]. by apply Hk.
Qed.

(** Statistics are counted. *)
Lemma count_freed_spec (w : bool) n s : runs (when w free_page_mlock;; count_zevents "PGFREE" n) s (λ _ s', reframed (λ _, False) s s').
Proof.
  unfold free_page_mlock. destruct w; apply runs_bind; cbn [when]; [apply runs_bind, runs_modify, runs_modify|apply runs_ret]; apply runs_modify; split; try done.
  by etrans; [apply (stat_add (vm_stat (zdata s)) NR_MLOCK (-1) NR_FREE_PAGES)|].
Qed.

Lemma reframed_none F s s' : reframed (λ _, False) s s' → reframed F s s'.
Proof. intros R. eapply reframed_trans; [apply reframed_refl|exact R|done]. Qed.

Lemma reframed_kept B d off lk p o s s' : buddy_inv B d off lk s → holds B p o s → reframed (λ _, False) s s' → buddy_inv B d off lk s' ∧ holds B p o s'.
Proof.
  intros I Hh R. split; [by eapply (inv_reframed (λ _, False))|]. destruct Hh as [H1 H2 H3 H4 H5].
  split; [done|done|done|intros x Hx; rewrite (rf_frame _ _ _ R x) by tauto; by apply H4|].
  intros x h Hx. rewrite (reframed_chain _ _ _ _ R). by apply H5.
Qed.

Lemma get_type_run p s : get_pageblock_migratetype p s = Ok (stat (pageblock_flags s) (pageblock_index p), s).
Proof. done. Qed.

Lemma freed_block B s s1 p o B' s' : reframed (in_block p o) s s1 → adds_block B p o B' → local (λ x, covers B x ∨ in_block p o x) s1 s' → freed B s p o B' s'.
Proof.
  intros R Hadd [L1 L2 L3]. split.
  - intros x. unfold avail, on_cpu. setoid_rewrite L2. setoid_rewrite (reframed_chain _ _ _ _ R). rewrite (Hadd x). tauto.
  - intros x Hno Hb. rewrite L1; [by apply R|]. intros [?|?]; [apply Hno; by left|done].
Qed.

Lemma __free_pages_ok_spec B s p o : zone_inv B s → owns 0 B p o s →
  runs (__free_pages_ok p o) s (λ _ s', ∃ B', zone_inv B' s' ∧ freed B s p o B' s').
Proof.
  intros [I Hc] Ho. unfold __free_pages_ok. eapply release_runs; [done|done|]. intros w s1 I1 H1 R1. cbn [negb].
  apply runs_seq. eapply runs_mono; [apply count_freed_spec|]. cbn beta. intros _ s2 R2. destruct (reframed_kept _ _ _ _ _ _ _ _ I1 H1 R2) as [I2 H2].
  apply runs_bind. eapply runs_ok; [apply get_type_run|]. eapply runs_mono; [apply free_one_page_spec; [exact I2|exact H2|apply I2]|]. cbn beta.
  intros _ s3 (B' & I3 & Hadd & Lo). exists B'.
  assert (reframed (in_block p o) s s2) as R by (eapply reframed_trans; [exact R1|exact R2|done]). split; [split; [done|]|by eapply freed_block].
  rewrite (lo_count _ _ _ Lo), (rf_count _ _ _ R), Hc. symmetry. apply cpu_length_same. intros t. rewrite (lo_pcp _ _ _ Lo). apply (reframed_chain _ _ _ _ R).
Qed.

(** A page goes to a list of the CPU, and a batch of them to the zone if there are many. *)
Definition cpu_keep (p t : Z) (cold : bool) : M zst () :=
  (if cold then chain_add_tail p (pcp_list t) else chain_add p (pcp_list t));;
  n ← gets pcp_count;
  modify (set_pcp_count (n + 1));;
  when (pcp_high <=? n + 1)
    (free_pcppages_bulk pcp_batch;;
     n ← gets pcp_count;
     modify (set_pcp_count (n - pcp_batch))).

Lemma fset_id p f s : frames s !! p = Some f → fset p f s = s.
Proof. intros Hf. unfold fset. rewrite insert_id by done. by destruct s. Qed.

Lemma cpu_put_run (cold : bool) B d off lk p t f s : buddy_inv B d off lk s → holds B p 0 s → 0 <= t < MIGRATE_PCPTYPES →
  frames s !! p = Some f → 0 <= private f < MIGRATE_TYPES →
  runs (if cold then chain_add_tail p (pcp_list t) else chain_add p (pcp_list t)) s (λ _ s',
    buddy_inv B d off lk s' ∧ cpu_length s' = cpu_length s + 1 ∧ (∀ x, on_cpu s' x ↔ on_cpu s x ∨ x = p) ∧ frames s' = frames s ∧ pcp_count s' = pcp_count s).
Proof.
  intros I Hh Ht Hf Hpr. assert (idle f) as Hi by (destruct (holds_head _ _ _ _ Hh) as (g & ? & ?); congruence).
  assert (∀ h, p ∉ chain s h) as Hnc by (intros h; by apply Hh, block_head).
  assert (∀ g, adds p g → runs (chain_put p (pcp_list t) g) s (λ _ s',
    buddy_inv B d off lk s' ∧ cpu_length s' = cpu_length s + 1 ∧ (∀ x, on_cpu s' x ↔ on_cpu s x ∨ x = p) ∧ frames s' = frames s ∧ pcp_count s' = pcp_count s)) as Hrun.
  { intros g Hg. eapply runs_ok; [by apply chain_put_run|]. destruct (cpu_put _ _ _ _ _ _ t f f g I Hh Ht (Hg _) Hf Hi Hpr) as (I' & Hl & Hon).
    rewrite fset_id in I', Hl, Hon by done. done. }
  destruct cold; apply Hrun; [apply adds_snoc|apply adds_cons].
Qed.

Lemma cpu_keep_spec B s p t f cold : zone_inv B s → holds B p 0 s → 0 <= t < MIGRATE_PCPTYPES → frames s !! p = Some f → 0 <= private f < MIGRATE_TYPES →
  runs (cpu_keep p t cold) s (λ _ s', ∃ B', zone_inv B' s' ∧ freed B s p 0 B' s').
Proof.
  intros [I Hc] Hh Ht Hf Hpr. unfold cpu_keep. apply runs_bind. eapply runs_mono; [by eapply cpu_put_run|]. cbn beta. intros _ s1 (I1 & L1 & On1 & F1 & C1).
  apply runs_bind, runs_gets, runs_bind, runs_modify. set (s2 := set_pcp_count _ s1). pose proof (inv_pcp_count _ _ _ _ _ (pcp_count s1 + 1) I1) as I2.
  assert (cpu_length s2 = pcp_count s2) as L2 by (change (cpu_length s1 = pcp_count s1 + 1); lia).
  assert (freed B s p 0 B s2) as Fr.
  { split; [|intros x _ _; exact (f_equal (.!! x) F1)]. intros x. unfold avail. change (on_cpu s2 x) with (on_cpu s1 x). rewrite On1, in_block_0. tauto. }
  apply runs_when; [|intros _; by exists B].
  intros Hhigh%Z.leb_le. pose proof batch_pos. pose proof batch_high. assert (0 <= cpu_length s) by (unfold cpu_length; induction (seqZ 0 MIGRATE_PCPTYPES); cbn [foldr]; lia).
  apply runs_bind. eapply runs_mono; [apply free_pcppages_bulk_spec; [exact I2|change (cpu_length s2) with (cpu_length s1); lia]|]. cbn beta.
  intros _ s3 (B3 & I3 & T3 & L3). apply runs_bind, runs_gets, runs_modify. exists B3. split; [split; [by apply inv_pcp_count|]|].
  - change (pcp_count s3 - pcp_batch = cpu_length s3). rewrite (tr_count _ _ _ _ T3). lia.
  - destruct Fr as [Fa Ff]. split.
    + intros x. rewrite <- Fa, <- (tr_avail _ _ _ _ T3). done.
    + intros x Hno Hb. etrans; [apply (tr_frame _ _ _ _ T3); rewrite Fa; tauto|by apply Ff].
Qed.

Lemma free_hot_cold_page_spec B s p cold : zone_inv B s → owns 0 B p 0 s →
  runs (free_hot_cold_page p cold) s (λ _ s', ∃ B', zone_inv B' s' ∧ freed B s p 0 B' s').
Proof.
  intros [I Hc] Ho. unfold free_hot_cold_page. eapply release_runs; [done|done|]. intros w s1 I1 H1 R1. cbn [negb].
  apply runs_bind. eapply runs_ok; [apply get_type_run|]. set (t := stat _ _). assert (0 <= t < MIGRATE_TYPES) as Ht by apply I1. clearbody t.
  destruct (holds_head _ _ _ _ H1) as (f & Hf & Hi). apply runs_bind. eapply runs_ok; [by apply upd_frame_run|]. set (s2 := fset _ _ s1).
  assert (reframed (in_block p 0) s1 s2) as R2.
  { eapply (reframed_trans _ (eq p)); [apply reframed_refl|by eapply reframed_fset|intros x <-; by apply block_head]. }
  assert (frames s2 !! p = Some (set_page_private t f)) as Hf2 by apply lookup_insert_eq.
  apply runs_seq. eapply runs_mono; [apply count_freed_spec|]. cbn beta. intros _ s3 R3.
  assert (reframed (in_block p 0) s s3) as R by (eapply reframed_trans; [by eapply reframed_trans|exact R3|done]).
  assert (frames s3 !! p = Some (set_page_private t f)) as Hf3 by (by rewrite (rf_frame _ _ _ R3 p) by tauto).
  destruct (reframed_holds _ _ _ _ _ s3 p 0 I) as [I3 H3]; [by apply Ho|by apply Ho|apply Ho|done|intros x Hx; assert (x = p) as -> by (unfold in_block in Hx; lia); by eexists|].
  assert (zone_inv B s3) as Z3.
  { split; [done|]. rewrite (rf_count _ _ _ R), Hc. symmetry. apply cpu_length_same. intros u. apply (reframed_chain _ _ _ _ R). }
  assert (∀ B' s', freed B s3 p 0 B' s' → freed B s p 0 B' s') as Hfreed.
  { intros B' s' [Fa Ff]. split; [intros x; rewrite Fa; by rewrite (reframed_avail _ _ _ _ _ R)|].
    intros x Hno Hb. rewrite Ff; [by apply R|by rewrite (reframed_avail _ _ _ _ _ R)|done]. }
  destruct (_ && _) eqn:Eiso.
  - eapply runs_mono; [by apply free_one_page_spec|]. cbn beta. intros _ s4 (B' & I4 & Hadd & Lo). exists B'.
    split; [split; [done|]|by eapply freed_block]. rewrite (lo_count _ _ _ Lo), (proj2 Z3). symmetry. apply cpu_length_same, Lo.
  - set (u := if MIGRATE_PCPTYPES <=? t then MIGRATE_MOVABLE else t).
    assert (0 <= u < MIGRATE_PCPTYPES) as Hu by (subst u; destruct (Z.leb_spec MIGRATE_PCPTYPES t); [done|lia]).
    eapply runs_mono; [by eapply (cpu_keep_spec B s3 p u)|]. cbn beta. intros _ s4 (B' & Z4 & Fr). exists B'. auto.
Qed.

Lemma __free_pages_spec B s p o : zone_inv B s → owns 1 B p o s → runs (__free_pages p o) s (λ _ s', ∃ B', zone_inv B' s' ∧ freed B s p o B' s').
Proof.
  intros [I Hc] [Ho Ha Hno Hfr]. destruct (Hfr p (block_head p o (proj1 Ho))) as (f & Hf & Hff). unfold __free_pages.
  apply runs_bind. eapply runs_ok; [by apply frame_at_run|]. apply runs_bind. eapply runs_ok; [by apply upd_frame_run|].
  assert (f_count f = 1) as E1 by (destruct Hff as (_ & _ & E & _); by rewrite decide_True in E). rewrite E1. cbn [Z.sub Z.add Z.opp Z.pos_sub Z.eqb when].
  set (s1 := fset _ _ s). assert (reframed (eq p) s s1) as R by (by eapply reframed_fset).
  assert (∀ x, avail B s1 x ↔ avail B s x) as Hav by (intros x; by apply (reframed_avail _ _ _ _ _ R)).
  assert (frames s1 !! p = Some (set_page_count 0 f)) as Hf1 by apply lookup_insert_eq.
  assert (owns 0 B p o s1) as Hown.
  { split; [done|done|intros x Hx; rewrite Hav; by apply Hno|]. intros x Hx. destruct (decide (p = x)) as [<-|Hne].
    - eexists. split; [exact Hf1|]. destruct Hff as (Hz & Hm & _ & Hmap & Hfl). split_and!; [done|done|by rewrite decide_True|done|done].
    - rewrite (rf_frame _ _ _ R x Hne). destruct (Hfr x Hx) as (g & Hg & Hz & Hm & Hcg & Hmap & Hfl). rewrite decide_False in Hcg by done.
      exists g. split; [done|]. split_and!; [done|done|by rewrite decide_False|done|done]. }
  assert (zone_inv B s1) as Z1.
  { split; [|rewrite (rf_count _ _ _ R), Hc; symmetry; apply cpu_length_same; intros u; apply (reframed_chain _ _ _ _ R)].
    eapply (inv_reframed (eq p)); [done|done|intros x <-; apply Hno, block_head; lia|]. intros x g <- Hg. rewrite Hf1 in Hg. injection Hg as <-.
    destruct Hff as (_ & Hm & _). unfold PageBuddy. cbn. by rewrite Hm. }
  apply (runs_mono _ _ (λ _ s', ∃ B', zone_inv B' s' ∧ freed B s1 p o B' s')).
  - destruct (Z.eqb_spec o 0) as [->|]; [by apply free_hot_cold_page_spec|by apply __free_pages_ok_spec].
  - intros _ s' (B' & Z' & Fa & Ff). exists B'. split; [done|]. split; [intros x; by rewrite Fa, Hav|].
    intros x Hx Hb. rewrite Ff; [|by rewrite Hav|done]. apply R. intros <-. apply Hb, block_head. lia.
Qed.

Lemma free_compound_page_spec B s p o f f1 : zone_inv B s → owns 0 B p o s → 0 < o → frames s !! p = Some f → frame_head f = true →
  frames s !! (p + 1) = Some f1 → c_order f1 = o → runs (free_compound_page p) s (λ _ s', ∃ B', zone_inv B' s' ∧ freed B s p o B' s').
Proof.
  intros Z Ho Hpos Hf Hh Hf1 Ec. unfold free_compound_page, compound_order. apply runs_bind, runs_bind. eapply runs_ok; [by apply frame_at_run|].
  rewrite Hh. apply runs_bind. eapply runs_ok; [by apply frame_at_run|]. apply runs_ret. rewrite Ec. by apply __free_pages_ok_spec.
Qed.

(** ** Boot *)

(** A frame that has not been handed over: it is reserved and otherwise unused. *)
Definition reserved (f : frame) : Prop :=
  page_zone_id f = zone_id ∧ f_mapcount f = -1 ∧ f_mapping f = NoMap ∧ has (Z.clearbit (f_flags f) PG_reserved) PAGE_FLAGS_CHECK_AT_FREE = false.

Lemma unreserve_spec p o ps : (∀ x, x ∈ ps → in_block p o x) → ∀ s, (∀ x, in_block p o x → ∃ f, frames s !! x = Some f ∧ reserved f) →
  runs (unreserve ps) s (λ _ s', reframed (in_block p o) s s' ∧ (∀ x, in_block p o x → ∃ f, frames s' !! x = Some f ∧ reserved f ∧
    (x ∈ ps → f_count f = 0 ∧ has (f_flags f) PAGE_FLAGS_CHECK_AT_FREE = false) ∧ (x ∉ ps → frames s !! x = Some f))).
Proof.
  induction ps as [|q ps IH]; intros Hps s Hr; cbn [unreserve].
  { apply runs_ret. split; [done|]. intros x Hx. destruct (Hr x Hx) as (f & ? & ?). exists f. split_and!; [done|done|by intros ?%elem_of_nil|done]. }
  pose proof (Hps q ltac:(left)) as Hq. destruct (Hr q Hq) as (f & Hf & Hrf). apply runs_bind. eapply runs_ok; [by apply upd_frame_run|].
  cbv beta. set (g := set_page_count 0 _). set (s1 := fset q g s). destruct Hrf as (Hz & Hm & Hmap & Hfl).
  assert (reserved g) as Hrg by (split_and!; [done|done|done|by apply has_clearbit]).
  assert (frames s1 !! q = Some g) as Hg by apply lookup_insert_eq.
  assert (∀ x, x ≠ q → frames s1 !! x = frames s !! x) as Hne by (intros x Hx; by apply lookup_insert_ne).
  eapply runs_mono; [apply IH|]; [intros x Hx; apply Hps; by right| |].
  { intros x Hx. destruct (decide (x = q)) as [->|Hx']; [by exists g|]. rewrite (Hne x Hx'). by apply Hr. }
  cbn beta. intros _ s2 [R2 H2]. split; [eapply reframed_trans; [eapply (reframed_trans _ (eq q)); [apply reframed_refl|by eapply (reframed_fset q f g)|by intros x <-]|exact R2|done]|].
  intros x Hx. destruct (H2 x Hx) as (f2 & Hf2 & Hr2 & Hin & Hout). exists f2. split; [done|]. split; [done|]. split.
  - intros [->|Hin']%elem_of_cons; [|by apply Hin]. destruct (decide (q ∈ ps)) as [?|Hno]; [by apply Hin|]. specialize (Hout Hno). rewrite Hg in Hout. by simplify_eq.
  - intros [Hxq Hno]%not_elem_of_cons. rewrite <- (Hne x Hxq). by apply Hout.
Qed.

Lemma __free_pages_bootmem_spec B s p o : zone_inv B s → 0 <= o < MAX_ORDER → aligned p o →
  (∀ x, in_block p o x → ¬ avail B s x ∧ ∃ f, frames s !! x = Some f ∧ reserved f) →
  runs (__free_pages_bootmem p o) s (λ _ s', ∃ B', zone_inv B' s' ∧ freed B s p o B' s').
Proof.
  intros [I Hc] Ho Ha Hr. unfold __free_pages_bootmem. apply runs_bind.
  eapply runs_mono; [apply (unreserve_spec p o); [intros x Hx; apply block_frames_spec in Hx; [done|lia]|intros x Hx; by apply Hr]|]. cbn beta. intros _ s1 [R1 H1].
  assert (∀ x, in_block p o x → ∃ f, frames s1 !! x = Some f ∧ freeable 0 p x f) as H1'.
  { intros x Hx. destruct (H1 x Hx) as (f & Hf & (Hz & Hm & Hmap & _) & Hin & _). exists f. split; [done|].
    destruct Hin as [Hcnt Hfl]; [apply block_frames_spec; [lia|done]|]. split_and!; [done|done|case_decide; done|by left|case_decide; [by apply has_clearbit|done]]. }
  destruct (H1' p (block_head p o (proj1 Ho))) as (f & Hf & Hff). apply runs_bind. eapply runs_ok; [by apply upd_frame_run|]. set (s2 := fset _ _ s1).
  assert (reframed (in_block p o) s s2) as R.
  { eapply (reframed_trans _ (eq p)); [exact R1|by eapply (reframed_fset p f (set_page_count 1 f))|intros x <-; apply block_head; lia]. }
  assert (∀ x, in_block p o x → ∃ f, frames s2 !! x = Some f ∧ freeable 1 p x f) as H2.
  { intros x Hx. destruct (decide (x = p)) as [->|Hne].
    - eexists. split; [apply lookup_insert_eq|]. destruct Hff as (Hz & Hm & _ & Hmap & Hfl). split_and!; [done|done|by rewrite decide_True|done|done].
    - destruct (H1' x Hx) as (g & Hg & Hz & Hm & Hcg & Hmap & Hfl). exists g. rewrite decide_False in Hcg by done.
      split; [rewrite <- Hg; by apply lookup_insert_ne|]. split_and!; [done|done|by rewrite decide_False|done|done]. }
  assert (zone_inv B s2) as Z2.
  { split; [|rewrite (rf_count _ _ _ R), Hc; symmetry; apply cpu_length_same; intros u; apply (reframed_chain _ _ _ _ R)].
    eapply (inv_reframed (in_block p o)); [done|done|intros x Hx; by apply Hr|]. intros x g Hx Hg. destruct (H2 x Hx) as (g' & Hg' & _ & Hm & _).
    unfold PageBuddy. simplify_eq. by rewrite Hm. }
  eapply runs_mono; [apply (__free_pages_spec B); [done|]|].
  - split; [done|done|intros x Hx; rewrite (reframed_avail _ _ _ _ _ R); by apply Hr|done].
  - cbn beta. intros _ s3 (B3 & Z3 & Fa & Ff). exists B3. split; [done|]. split; [intros x; rewrite Fa; by rewrite (reframed_avail _ _ _ _ _ R)|].
    intros x Hx Hb. rewrite Ff; [by apply R|by rewrite (reframed_avail _ _ _ _ _ R)|done].
Qed.

Lemma drain_pages_spec B s : zone_inv B s → runs drain_pages s (λ _ s', ∃ B', zone_inv B' s' ∧ trade B (set_pcp_count 0 s) B' s' ∧ cpu_length s' = 0).
Proof.
  intros [I Hc]. unfold drain_pages. apply runs_bind, runs_gets. apply runs_when.
  - intros _. apply runs_bind. eapply runs_mono; [apply free_pcppages_bulk_spec; [exact I|]|].
    + rewrite Hc. split; [|lia]. unfold cpu_length. induction (seqZ 0 MIGRATE_PCPTYPES); cbn [foldr]; lia.
    + cbn beta. intros _ s1 (B1 & I1 & T1 & L1). apply runs_modify. exists B1. split; [split; [by apply inv_pcp_count|]|split].
      * change (0 = cpu_length s1). lia.
      * by destruct T1.
      * change (cpu_length s1 = 0). lia.
  - intros E%negb_false_iff%Z.eqb_eq. exists B. split; [done|]. split; [by split|lia].
Qed.

(** ** Allocation *)

(** The block leaves the available pages. *)
Record given (B : blocks) (s : zst) (p o : Z) (B' : blocks) (s' : zst) : Prop := Given {
  gi_avail x : avail B s x ↔ avail B' s' x ∨ in_block p o x;
  gi_frame x : ¬ avail B s x → frames s' !! x = frames s !! x;
}.

Lemma trade_given B s B1 s1 p o B' s' : trade B s B1 s1 → given B1 s1 p o B' s' → given B s p o B' s'.
Proof.
  intros [T1 T2 _] [G1 G2]. split; [intros x; by rewrite <- T1|]. intros x Hx. rewrite G2; [by apply T2|by rewrite T1].
Qed.

Lemma cpu_given B d off lk s p t : buddy_inv B d off lk s → p ∈ chain s (pcp_list t) → given B s p 0 B (unchain p s).
Proof.
  intros I Hp. assert (on_cpu s p) as Hon by (by exists t). split; [|done]. intros x. rewrite in_block_0. unfold avail, on_cpu. setoid_rewrite chain_unchain.
  setoid_rewrite elem_without. destruct (decide (x = p)) as [->|Hne]; [naive_solver|]. naive_solver.
Qed.

Definition no_page (order t : Z) (s : zst) : Prop := exhausted order s ∧ (order = 0 → chain s (pcp_list t) = []).

Lemma pcp_pop_run (cold : bool) (l : list Z) : match (if cold then last l else hd_error l) with None => l = [] | Some p => p ∈ l end.
Proof.
  destruct cold; [|destruct l; [done|left]]. destruct (last l) eqn:E; [by apply last_Some_elem_of|by apply last_None].
Qed.

Lemma pcp_rmqueue_spec B s t cold : zone_inv B s → 0 <= t < MIGRATE_PCPTYPES → runs (pcp_rmqueue t cold) s (λ r s', match r with
    | Some p => ∃ B', zone_inv B' s' ∧ holds B' p 0 s' ∧ given B s p 0 B' s'
    | None => zone_inv B s' ∧ trade B s B s' ∧ no_page 0 t s
    end).
Proof.
  intros [I Hc] Ht. unfold pcp_rmqueue. apply runs_bind, runs_gets, runs_bind.
  apply (runs_mono _ _ (λ _ s', ∃ B', zone_inv B' s' ∧ trade B (set_pcp_count (pcp_count s') s) B' s' ∧
    (chain s' (pcp_list t) = [] → B' = B ∧ trade B s B s' ∧ no_page 0 t s))).
  { apply runs_when; [intros E%bool_decide_eq_true|intros E%bool_decide_eq_false; exists B; split; [done|]; split; [by split|done]].
    apply runs_bind. eapply runs_mono; [apply rmqueue_bulk_spec; [exact I|done|apply batch_pos]|]. cbn beta. intros r s1 (B1 & I1 & T1 & L1 & Hne & Hex & Hr).
    apply runs_bind, runs_gets, runs_modify. exists B1. split; [split; [by apply inv_pcp_count|]|split; [by destruct T1|]].
    - change (pcp_count s1 + r = cpu_length s1). rewrite (tr_count _ _ _ _ T1). lia.
    - intros Em. change (chain s1 (pcp_list t) = []) in Em. destruct (decide (0 < r)); [by destruct Hne|]. assert (r = 0) as -> by lia.
      destruct Hex as (-> & Ec & He); [done|]. split; [done|]. rewrite Z.add_0_r. split; [by destruct T1|done]. }
  intros _ s1 (B1 & [I1 Hc1] & T1 & Hem). apply runs_bind, runs_gets. pose proof (pcp_pop_run cold (chain s1 (pcp_list t))) as Hpop.
  destruct (if cold then _ else _) as [p|]; cycle 1.
  { apply runs_ret. destruct (Hem Hpop) as (-> & T & Hno). done. }
  destruct (cpu_take _ _ _ _ _ _ _ I1 Hpop) as (I2 & H2 & L2). apply runs_bind. eapply runs_ok; [by eapply chain_del_run|].
  apply runs_bind, runs_gets, runs_bind, runs_modify, runs_ret. exists B1. split; [split; [by apply inv_pcp_count|]|split].
  - change (pcp_count s1 - 1 = cpu_length (unchain p s1)). lia.
  - by destruct H2.
  - destruct (trade_given _ _ _ _ _ _ _ _ T1 (cpu_given _ _ _ _ _ _ _ I1 Hpop)). by split.
Qed.

Lemma zone_rmqueue_spec B s o t : zone_inv B s → 0 <= o < MAX_ORDER → 0 <= t < MIGRATE_PCPTYPES → runs (zone_rmqueue o t) s (λ r s', match r with
    | Some p => ∃ B', zone_inv B' s' ∧ holds B' p o s' ∧ given B s p o B' s'
    | None => zone_inv B s' ∧ trade B s B s' ∧ exhausted o s
    end).
Proof.
  intros [I Hc] Ho Ht. unfold zone_rmqueue, spin_lock. apply runs_bind, runs_bind, runs_gets. rewrite (bi_lock _ _ _ _ _ I). apply runs_modify.
  apply runs_bind. eapply runs_mono; [apply __rmqueue_spec; [exact (inv_lock _ _ _ _ true _ I)|done|done]|]. cbn beta.
  intros [p|] s1 H1; apply runs_bind, runs_modify.
  - destruct H1 as (B1 & I1 & H1 & Hadd & [L1 L2 L3]). apply runs_bind, runs_modify, runs_ret. exists B1. split; [split|split].
    + pose proof (inv_free_pages _ _ _ _ _ (- 2 ^ o) (inv_lock _ _ _ _ false _ I1)) as I2. by replace (0 + 2 ^ o + - 2 ^ o) with 0 in I2 by lia.
    + change (pcp_count s1 = cpu_length s1). rewrite L3. etrans; [exact Hc|]. symmetry. apply cpu_length_same. intros u. by rewrite L2.
    + by destruct H1.
    + split.
      * intros x. change (avail B s x ↔ avail B1 s1 x ∨ in_block p o x). unfold avail, on_cpu. setoid_rewrite L2. rewrite (Hadd x).
        change (chain (set_zlock true s)) with (chain s). tauto.
      * intros x Hx. apply L1. intros Hcov. apply Hx. by left.
  - destruct H1 as [-> Hex]. apply runs_ret. split; [split; [|done]|split; [by split|done]]. exact (inv_lock _ _ _ _ false _ (inv_lock _ _ _ _ true _ I)).
Qed.

(** The frames of a block are in order, for its owner. *)
Definition block_ready (p o : Z) (s s' : zst) : Prop :=
  reframed (in_block p o) s s' ∧ ∀ x, in_block p o x → ∃ f, frames s' !! x = Some f ∧ freeable 1 p x f.

Lemma ready_upd p o s0 s x g : block_ready p o s0 s → in_block p o x → (∀ f, freeable 1 p x f → freeable 1 p x (g f)) →
  runs (upd_frame x g) s (λ _ s', block_ready p o s0 s').
Proof.
  intros [R Hr] Hx Hg. destruct (Hr x Hx) as (f & Hf & Hff). eapply runs_ok; [by apply upd_frame_run|].
  assert (page_zone_id (g f) = page_zone_id f) as Hz by (destruct Hff as [-> _]; apply Hg; by destruct (Hr x Hx) as (f' & ? & ?); simplify_eq).
  split; [eapply reframed_trans; [exact R|by eapply (reframed_fset x f)|by intros y <-]|]. intros y Hy. destruct (decide (x = y)) as [<-|Hne].
  - exists (g f). split; [apply lookup_insert_eq|by apply Hg].
  - destruct (Hr y Hy) as (fy & Hfy & ?). exists fy. split; [|done]. rewrite <- Hfy. by apply lookup_insert_ne.
Qed.

(** The marks of compound pages are no hindrance to freeing. *)
Lemma freeable_flag p x b f : b = PG_head ∨ b = PG_tail → freeable 1 p x f → freeable 1 p x (set_flag b f).
Proof.
  intros Hb (Hz & Hm & Hc & Hmap & Hfl). split_and!; [done|done|done|done|]. cbn. case_decide.
  - replace (Z.clearbit (Z.setbit (f_flags f) b) PG_mlocked) with (Z.setbit (Z.clearbit (f_flags f) PG_mlocked) b);
      [apply has_setbit; [by destruct Hb as [->| ->]|done|by destruct Hb as [->| ->]]|].
    apply Z.bits_inj'. intros i Hi. rewrite Z.setbit_eqb, !Z.clearbit_eqb, Z.setbit_eqb by (by destruct Hb as [->| ->]).
    destruct (Z.eqb_spec b i) as [->|]; [|by rewrite !orb_false_l]. destruct (Z.eqb_spec PG_mlocked i) as [E|]; [|by rewrite !orb_true_l].
    by destruct Hb as [->| ->].
  - apply has_setbit; [by destruct Hb as [->| ->]|done|by destruct Hb as [->| ->]].
Qed.

Lemma prep_tails_spec p o s0 ps : (∀ x, x ∈ ps → in_block p o x ∧ x ≠ p) → ∀ s, block_ready p o s0 s → runs (prep_tails ps p) s (λ _ s', block_ready p o s0 s').
Proof.
  induction ps as [|x ps IH]; intros Hps s Hr; cbn [prep_tails]; [by apply runs_ret|]. destruct (Hps x ltac:(left)) as [Hx Hne].
  apply runs_bind. eapply runs_mono; [apply (ready_upd p o s0 s x _ Hr Hx)|].
  - intros f Hf. apply (freeable_flag p x PG_tail) in Hf; [|by right]. destruct Hf as (Hz & Hm & Hc & Hmap & Hfl).
    split_and!; [done|done|by rewrite decide_False|done|done].
  - cbn beta. intros _ s1 H1. apply IH; [|done]. intros y Hy. apply Hps. by right.
Qed.

Lemma prep_compound_page_spec p o s0 s : 0 < o → block_ready p o s0 s → runs (prep_compound_page p o) s (λ _ s', block_ready p o s0 s').
Proof.
  intros Ho Hr. pose proof (Z.pow_gt_1 2 o ltac:(lia)) as [Hgt _]. specialize (Hgt Ho). unfold prep_compound_page. apply runs_bind.
  eapply runs_mono; [apply (ready_upd p o s0 s (p + 1) _ Hr); [unfold in_block; lia|by intros f]|]. cbn beta. intros _ s1 H1. apply runs_bind.
  eapply runs_mono; [apply (ready_upd p o s0 s1 p _ H1); [apply block_head; lia|intros f; apply freeable_flag; by left]|]. cbn beta. intros _ s2 H2.
  apply prep_tails_spec; [|done]. intros x Hx%elem_of_seqZ. unfold in_block. lia.
Qed.

Lemma check_new_pages_run ps s : (∀ x, x ∈ ps → ∃ f, frames s !! x = Some f ∧ idle f) → check_new_pages ps s = Ok (false, s).
Proof.
  induction ps as [|p ps IH]; intros Hi; cbn [check_new_pages]; [done|]. destruct (Hi p ltac:(left)) as (f & Hf & (Hz & E1 & E2 & E3) & E4).
  assert (check_new_page p s = Ok (false, s)) as E.
  { unfold check_new_page. erewrite bind_Ok by (by apply frame_at_run). unfold in_use, has_mapping. by rewrite E1, E2, E3, E4. }
  erewrite bind_Ok by exact E. apply IH. intros x Hx. apply Hi. by right.
Qed.

Lemma prep_new_page_spec B p o gfp s : holds B p o s → runs (prep_new_page p o gfp) s (λ r s', r = false ∧ block_ready p o s s').
Proof.
  intros Hh. pose proof (ho_order _ _ _ _ Hh) as Ho. unfold prep_new_page. apply runs_bind. eapply runs_ok.
  { apply check_new_pages_run. intros x Hx%block_frames_spec; [by apply Hh|lia]. }
  destruct (holds_head _ _ _ _ Hh) as (f & Hf & Hi). apply runs_bind. eapply runs_ok; [by apply upd_frame_run|].
  apply runs_bind. eapply runs_ok; [apply upd_frame_run, lookup_insert_eq|]. set (s2 := fset _ _ (fset _ _ s)).
  assert (block_ready p o s s2) as H2.
  { assert (∀ x f, idle f → freeable (f_count f) p x f) as Hfree.
    { intros x g [(Hz & Hc & Hmap & Hfl) Hm]. split_and!; [done|done|case_decide; congruence|by left|].
      assert (has (f_flags g) PAGE_FLAGS_CHECK_AT_FREE = false) as E by (eapply has_sub; [exact Hfl|apply check_masks]). case_decide; [by apply has_clearbit|done]. }
    split.
    - eapply (reframed_trans _ (eq p)); [eapply (reframed_trans _ (eq p)); [apply reframed_refl|by apply (reframed_fset p f (set_page_private 0 f))|]|eapply reframed_fset; [apply lookup_insert_eq|done]|];
        intros x <-; apply block_head; lia.
    - intros x Hx. destruct (decide (x = p)) as [->|Hne].
      + eexists. split; [apply lookup_insert_eq|]. destruct (Hfree p f Hi) as (Hz & Hm & _ & Hmap & Hfl). split_and!; [done|done|by rewrite decide_True|done|done].
      + destruct (ho_frame _ _ _ _ Hh x Hx) as (g & Hg & Hgi). exists g. split; [cbn; by rewrite !lookup_insert_ne by done|].
        destruct (Hfree x g Hgi) as (Hz & Hm & Hc & Hmap & Hfl). split_and!; [done|done|rewrite decide_False by done; apply Hgi|done|done]. }
  clearbody s2. apply runs_bind. eapply runs_mono; [apply runs_when|].
  - intros [Hne _]%andb_true_iff. apply negb_true_iff, Z.eqb_neq in Hne. by apply prep_compound_page_spec; [lia|].
  - by intros _.
  - cbn beta. intros _ s3 H3. by apply runs_ret.
Qed.

Lemma buffered_rmqueue_spec n B s o gfp t : zone_inv B s → 0 <= o < MAX_ORDER → 0 <= t < MIGRATE_PCPTYPES → runs (buffered_rmqueue n o gfp t) s (λ r s', match r with
    | Some p => ∃ B', zone_inv B' s' ∧ owns 1 B' p o s' ∧ given B s p o B' s'
    | None => zone_inv B s' ∧ trade B s B s' ∧ no_page o t s
    end).
Proof.
  intros Z Ho Ht. assert (buffered_rmqueue n o gfp t = (r ← (if o =? 0 then pcp_rmqueue t (has gfp __GFP_COLD) else zone_rmqueue o t);
    match r with None => mret None | Some page => count_zevents "PGALLOC" (2 ^ o);; bad ← prep_new_page page o gfp;
      if (bad : bool) then match n with O => fail NoFuel | S n => buffered_rmqueue n o gfp t end else mret (Some page) end)) as -> by (by destruct n).
  apply runs_bind. apply (runs_mono _ _ (λ r s', match r with
    | Some p => ∃ B', zone_inv B' s' ∧ holds B' p o s' ∧ given B s p o B' s'
    | None => zone_inv B s' ∧ trade B s B s' ∧ no_page o t s end)).
  { destruct (Z.eqb_spec o 0) as [->|Hne]; [by apply pcp_rmqueue_spec|]. eapply runs_mono; [by apply zone_rmqueue_spec|]. cbn beta.
    intros [p|] s' H'; [done|]. destruct H' as (? & ? & ?). split_and!; [done|done|]. by split. }
  intros [p|] s1 H1; [|by apply runs_ret]. destruct H1 as (B1 & [I1 Hc1] & H1 & G1). apply runs_bind, runs_modify. set (s2 := set_zevents _ s1).
  assert (holds B1 p o s2) as H2 by (by destruct H1). pose proof (inv_events _ _ _ _ _ (zevents s2) I1) as I2. change (set_zevents (zevents s2) s1) with s2 in I2.
  apply runs_bind. eapply runs_mono; [by eapply prep_new_page_spec|]. cbn beta. intros r s3 (-> & R3 & Hr3). apply runs_ret. exists B1.
  assert (∀ x, avail B1 s3 x ↔ avail B1 s1 x) as Hav by (intros x; by rewrite (reframed_avail _ _ _ _ _ R3)).
  assert (∀ x, in_block p o x → ¬ avail B1 s2 x) as Hno.
  { intros x Hx [Hcov|[u Hu]]; [by apply (ho_outside _ _ _ _ H2 x Hx)|by apply (ho_chain _ _ _ _ H2 x (pcp_list u) Hx)]. }
  split; [split|split].
  - eapply (inv_reframed (in_block p o)); [exact I2|exact R3|exact Hno|]. intros x f Hx Hf. destruct (Hr3 x Hx) as (g & Hg & (_ & Hm & _)).
    unfold PageBuddy. simplify_eq. by rewrite Hm.
  - rewrite (rf_count _ _ _ R3). etrans; [exact Hc1|]. symmetry. apply cpu_length_same. intros u. apply (reframed_chain _ _ _ _ R3).
  - split; [done|by apply H1|intros x Hx; rewrite Hav; by apply Hno|done].
  - destruct G1 as [G1 G2]. split; [intros x; by rewrite Hav|]. intros x Hx. rewrite (rf_frame _ _ _ R3); [by apply G2|].
    intros Hb. apply Hx, G1. by right.
Qed.
End api.
