(* ===== verification/BuddyProps.v ===== *)
(** * What the page allocator promises

    The users of the allocator as a step relation: they allocate blocks, use the frames of
    the blocks that they own, free them, and drain the lists of the CPU. Then the promises:
    a page has one owner, no page is lost, no request faults, blocks that are given back
    merge to what they were split from, and a zone above its watermark serves the request. *)

From S2P Require Import Prelude Hoare Lru LruInv Vmscan VmscanZone Watermark Buddy BuddyBlocks BuddyInv BuddyFree BuddyAlloc BuddyCpu BuddyApi.

Section props.
Context `{A : Allocator}.

(** The free blocks that the frames mark. *)
Definition blocks_of (s : zst) : blocks :=
  list_to_set (omap (λ '(p, f), if PageBuddy f && (page_zone_id f =? zone_id) then Some (p, private f) else None) (map_to_list (frames s))).

Definition available (s : zst) : Z → Prop := avail (blocks_of s) s.

Lemma blocks_of_spec s p o : (p, o) ∈ blocks_of s ↔ ∃ f, frames s !! p = Some f ∧ PageBuddy f = true ∧ page_zone_id f = zone_id ∧ private f = o.
Proof.
  unfold blocks_of. rewrite elem_of_list_to_set, list_elem_of_omap. split.
  - intros ([q f] & Hq%elem_of_map_to_list & E). destruct (PageBuddy f) eqn:Eb; [|done]. destruct (Z.eqb_spec (page_zone_id f) zone_id); [|done].
    cbn in E. simplify_eq. by exists f.
  - intros (f & Hf & Hb & Hz & <-). exists (p, f). split; [by apply elem_of_map_to_list|]. rewrite Hb, Hz, Z.eqb_refl. done.
Qed.

Lemma blocks_of_eq B d off lk s : buddy_inv B d off lk s → B = blocks_of s.
Proof.
  intros I. apply set_eq. intros [p o]. rewrite blocks_of_spec. split.
  - intros Hp. destruct (bi_block _ _ _ _ _ I p o Hp) as (f & Hf & Hb & Hpr). exists f. split_and!; [done|done| |done].
    destruct (bi_cover _ _ _ _ _ I p) as (g & Hg & [Hz _] & _); [|congruence]. exists p, o. split; [done|].
    apply block_head, (bk_order _ (bi_disjoint _ _ _ _ _ I) _ _ Hp).
  - intros (f & Hf & Hb & Hz & <-). by apply I.
Qed.

(** The lists of an order hold the blocks of that order, each once. *)
Definition listed_blocks (s : zst) (o : Z) : list Z := flat_map (λ t, chain s (free_list o t)) (seqZ 0 MIGRATE_TYPES).

Lemma listed_length s o : listed s o = Z.of_nat (length (listed_blocks s o)).
Proof. unfold listed, listed_blocks. induction (seqZ 0 MIGRATE_TYPES) as [|t l IH]; cbn [foldr flat_map]; [done|]. rewrite length_app. lia. Qed.

Lemma listed_blocks_elem B d off lk s o p : buddy_inv B d off lk s → 0 <= o → p ∈ listed_blocks s o ↔ (p, o) ∈ B.
Proof.
  intros I Ho. unfold listed_blocks. rewrite list_elem_of_In, in_flat_map. split.
  - intros (t & _ & Hp). apply list_elem_of_In in Hp. destruct (bi_chain _ _ _ _ _ I _ _ Hp) as [[_ ?]|[[? _] _]]; [done|cbn in *; lia].
  - intros Hp. destruct (bi_listed _ _ _ _ _ I p o Hp) as (t & Ht & Hin). exists t. split; apply list_elem_of_In; [|done]. apply elem_of_seqZ. lia.
Qed.

Lemma listed_blocks_nodup B d off lk s o : buddy_inv B d off lk s → NoDup (listed_blocks s o).
Proof.
  intros I. unfold listed_blocks. pose proof (NoDup_seqZ 0 MIGRATE_TYPES) as Hnd. induction Hnd as [|t l Ht _ IH]; cbn [flat_map]; [constructor|].
  apply NoDup_app. split; [apply I|]. split; [|done]. intros p Hp Hin. apply list_elem_of_In, in_flat_map in Hin as (u & Hu & Hin).
  apply list_elem_of_In in Hin, Hu. assert (free_list o t = free_list o u) as [= ->] by (by eapply bi_unique). done.
Qed.

(** The counter of free pages depends only on the free blocks. *)
Lemma free_pages_blocks B d lk d' lk' s s' : buddy_inv B d 0 lk s → buddy_inv B d' 0 lk' s' →
  stat (vm_stat (zdata s')) NR_FREE_PAGES = stat (vm_stat (zdata s)) NR_FREE_PAGES.
Proof.
  intros I I'. rewrite (bi_free _ _ _ _ _ I), (bi_free _ _ _ _ _ I'). f_equal. unfold listed_pages.
  change (seqZ 0 MAX_ORDER) with [0; 1; 2; 3; 4; 5; 6; 7; 8; 9; 10]. cbn [foldr].
  assert (∀ o, 0 <= o → listed s' o = listed s o) as E; [|by rewrite !E by lia]. intros o Ho. rewrite !listed_length. f_equal. apply Permutation_length, NoDup_Permutation.
  - by eapply listed_blocks_nodup.
  - by eapply listed_blocks_nodup.
  - intros p. by rewrite (listed_blocks_elem _ _ _ _ _ _ _ I Ho), (listed_blocks_elem _ _ _ _ _ _ _ I' Ho).
Qed.

(** The zone is in order. *)
Definition zone_sound (s : zst) : Prop := zone_inv (blocks_of s) s.

Lemma zone_inv_sound B s : zone_inv B s → zone_sound s ∧ B = blocks_of s.
Proof. intros [I Hc]. pose proof (blocks_of_eq _ _ _ _ _ I) as ->. done. Qed.

(** ** The users of the allocator *)

Definition request_ok_for (o t : Z) : Prop := 0 <= o < MAX_ORDER ∧ 0 <= t < MIGRATE_PCPTYPES.

Definition may_free (p o : Z) (s : zst) : Prop := ∀ x, in_block p o x → ∃ f, frames s !! x = Some f ∧ freeable 1 p x f.

(** The zone, and the blocks that are in use. *)
Inductive user_step : zst * blocks → zst * blocks → Prop :=
| U_alloc n o gfp t p s s' O : request_ok_for o t → buffered_rmqueue n o gfp t s = Ok (Some p, s') → user_step (s, O) (s', {[ (p, o) ]} ∪ O)
| U_none n o gfp t s s' O : request_ok_for o t → buffered_rmqueue n o gfp t s = Ok (None, s') → user_step (s, O) (s', O)
| U_use p o s s' O : (p, o) ∈ O → reframed (in_block p o) s s' →
    (∀ x f, in_block p o x → frames s' !! x = Some f → PageBuddy f = false) → user_step (s, O) (s', O)
| U_free p o s s' O : (p, o) ∈ O → may_free p o s → __free_pages p o s = Ok ((), s') → user_step (s, O) (s', O ∖ {[ (p, o) ]})
| U_drain s s' O : drain_pages s = Ok ((), s') → user_step (s, O) (s', O).

Record owners_ok (F : Z → Prop) (s : zst) (O : blocks) : Prop := OwnersOk {
  oo_sound : zone_sound s;
  oo_disjoint : disjoint_blocks O;
  oo_owned x : covers O x → ¬ available s x;
  oo_all x : available s x ∨ covers O x ↔ F x;
}.

Lemma owners_start s : zone_sound s → owners_ok (available s) s ∅.
Proof.
  intros Hs. assert (∀ x, ¬ covers ∅ x) as Hno by (intros x (p & o & ? & _); set_solver).
  split; [done|by split; set_solver|intros x ?; by destruct (Hno x)|]. intros x. split; [by intros [?|?%Hno]|by left].
Qed.

Context `{L : !CpuLists}.

Lemma alloc_owners F n o gfp t s O : owners_ok F s O → request_ok_for o t → runs (buffered_rmqueue n o gfp t) s (λ r s', match r with
    | Some p => owners_ok F s' ({[ (p, o) ]} ∪ O)
    | None => owners_ok F s' O ∧ no_page o t s
    end).
Proof.
  intros [Hs Hd Hown Hall] [Ho Ht]. eapply runs_mono; [by apply buffered_rmqueue_spec|]. cbn beta. intros [p|] s' H1.
  - destruct H1 as (B' & Z' & [Ho' Ha' Hun _] & [Gav _]). destruct (zone_inv_sound _ _ Z') as [Hs' ->].
    assert (∀ x, in_block p o x → ¬ covers O x) as Hnew by (intros x Hx Hc; apply (Hown x Hc), Gav; by right).
    split; [done| | |].
    + split.
      * intros q k [[= -> ->]%elem_of_singleton|Hq]%elem_of_union; [done|by eapply bk_order].
      * intros q k [[= -> ->]%elem_of_singleton|Hq]%elem_of_union; [done|by eapply bk_aligned].
      * intros q k r j x [[= -> ->]%elem_of_singleton|Hq]%elem_of_union [[= -> ->]%elem_of_singleton|Hr]%elem_of_union Hx Hy;
          [done|by destruct (Hnew x Hx); exists r, j|by destruct (Hnew x Hy); exists q, k|by eapply bk_disj].
    + intros x [Hx|Hx]%covers_insert; [by apply Hun|]. intros Hav. apply (Hown x Hx), Gav. by left.
    + intros x. rewrite covers_insert, <- Hall. fold (available s x). rewrite (Gav x). unfold available. tauto.
  - destruct H1 as (Z' & T' & Hno). destruct (zone_inv_sound _ _ Z') as [Hs' E]. split; [|done].
    assert (∀ x, available s' x ↔ available s x) as Hav by (intros x; unfold available; rewrite <- E; apply T').
    split; [done|done|intros x; rewrite Hav; apply Hown|intros x; rewrite Hav; apply Hall].
Qed.

Lemma free_owners F p o s O : owners_ok F s O → (p, o) ∈ O → may_free p o s → runs (__free_pages p o) s (λ _ s', owners_ok F s' (O ∖ {[ (p, o) ]})).
Proof.
  intros [Hs Hd Hown Hall] Hp Hmay. eapply runs_mono; [apply (__free_pages_spec (blocks_of s)); [done|]|].
  { split; [by eapply bk_order|by eapply bk_aligned|intros x Hx; apply Hown; by exists p, o|done]. }
  cbn beta. intros _ s' (B' & Z' & Fav & _). destruct (zone_inv_sound _ _ Z') as [Hs' ->]. split; [done|eapply disjoint_blocks_subseteq; [|done]; set_solver| |].
  - intros x [Hx Hb]%covers_delete; [|done|done]. unfold available. rewrite Fav. intros [?|?]; [by apply (Hown x)|done].
  - intros x. unfold available. rewrite Fav, covers_delete, <- Hall by done. unfold available. destruct (decide (in_block p o x)); [|tauto].
    split; [|tauto]. intros _. right. by exists p, o.
Qed.

Lemma drain_owners F s O : owners_ok F s O → runs drain_pages s (λ _ s', owners_ok F s' O).
Proof.
  intros [Hs Hd Hown Hall]. eapply runs_mono; [by apply drain_pages_spec|]. cbn beta. intros _ s' (B' & Z' & T' & _).
  destruct (zone_inv_sound _ _ Z') as [Hs' ->]. assert (∀ x, available s' x ↔ available s x) as Hav by (intros x; apply T').
  split; [done|done|intros x; rewrite Hav; apply Hown|intros x; rewrite Hav; apply Hall].
Qed.

Lemma use_owners F p o s s' O : owners_ok F s O → (p, o) ∈ O → reframed (in_block p o) s s' →
  (∀ x f, in_block p o x → frames s' !! x = Some f → PageBuddy f = false) → owners_ok F s' O.
Proof.
  intros [[I Hc] Hd Hown Hall] Hp R Hb. assert (zone_inv (blocks_of s) s') as Z'.
  { split; [|rewrite (rf_count _ _ _ R), Hc; symmetry; apply cpu_length_same; intros u; apply (reframed_chain _ _ _ _ R)].
    eapply (inv_reframed (in_block p o)); [done|done| |done]. intros x Hx. apply Hown. by exists p, o. }
  destruct (zone_inv_sound _ _ Z') as [Hs' E].
  assert (∀ x, available s' x ↔ available s x) as Hav by (intros x; unfold available; rewrite <- E; by apply (reframed_avail _ _ _ _ _ R)).
  split; [done|done|intros x; rewrite Hav; apply Hown|intros x; rewrite Hav; apply Hall].
Qed.

Lemma runs_Ok {S X} (m : M S X) s a s' Q : runs m s Q → m s = Ok (a, s') → Q a s'.
Proof. intros (b & s'' & E & HQ) E'. rewrite E in E'. by simplify_eq. Qed.

Lemma user_step_owners F c c' : user_step c c' → owners_ok F c.1 c.2 → owners_ok F c'.1 c'.2.
Proof.
  destruct 1 as [n o gfp t p s s' O Hr E|n o gfp t s s' O Hr E|p o s s' O Hp R Hb|p o s s' O Hp Hm E|s s' O E]; cbn [fst snd]; intros Hok.
  - exact (runs_Ok _ _ _ _ _ (alloc_owners F n o gfp t s O Hok Hr) E).
  - exact (proj1 (runs_Ok _ _ _ _ _ (alloc_owners F n o gfp t s O Hok Hr) E)).
  - by eapply use_owners.
  - exact (runs_Ok _ _ _ _ _ (free_owners F p o s O Hok Hp Hm) E).
  - exact (runs_Ok _ _ _ _ _ (drain_owners F s O Hok) E).
Qed.

Lemma users_owners s0 c : zone_sound s0 → rtc user_step (s0, ∅) c → owners_ok (available s0) c.1 c.2.
Proof.
  intros Hs%owners_start Hrtc. change (owners_ok (available s0) (s0, ∅ : blocks).1 (s0, ∅ : blocks).2) in Hs.
  revert Hs. generalize (available s0) as F. intros F Hs. induction Hrtc as [|c1 c2 c3 Hstep _ IH]; [done|]. apply IH. by eapply user_step_owners.
Qed.

(** With empty lists of the CPU the available pages are those of the blocks. *)
Lemma drained_avail B d off lk s x : cpu_length s = 0 → buddy_inv B d off lk s → avail B s x ↔ covers B x.
Proof.
  intros Hl I. split; [|by left]. intros [?|Hon]; [done|]. exfalso. destruct (on_cpu_spec _ _ _ _ _ x I Hon) as (t & Ht & Hx & _).
  unfold cpu_length in Hl. change (seqZ 0 MIGRATE_PCPTYPES) with [0; 1; 2] in Hl. cbn [foldr] in Hl. unfold MIGRATE_PCPTYPES in Ht.
  assert (0 < length (chain s (pcp_list t)))%nat by (destruct (chain s (pcp_list t)); [by apply elem_of_nil in Hx|cbn; lia]).
  assert (t = 0 ∨ t = 1 ∨ t = 2) as Hc by lia. destruct Hc as [->|[->| ->]]; lia.
Qed.

(** C3. Whatever the users of the page allocator do - allocate blocks of any order and
    type, write the frames of their blocks, free the blocks, drain the lists of the CPU -
    the free lists, the marks of free blocks and the counters of [page_alloc.c] agree, no
    page is in two blocks that are in use, no page in use is available, and each page that
    was available at the start still is or is in use: none is lost. *)
Theorem pages_have_one_owner s0 s O : zone_sound s0 → rtc user_step (s0, ∅) (s, O) →
  zone_sound s ∧ disjoint_blocks O ∧ (∀ x, covers O x → ¬ available s x) ∧ ∀ x, available s x ∨ covers O x ↔ available s0 x.
Proof. intros Hs Hrtc. by destruct (users_owners _ _ Hs Hrtc). Qed.

(** C14. In every state that the users can reach, an allocation, the freeing of a block that
    is in use and in order, and the draining of the lists of the CPU return, with the
    loops over blocks and lists bounded; and an allocation fails only if there is neither
    a block that is large enough, but for isolated ones, nor, for a single page, a page
    on the CPU's list. *)
Theorem allocator_never_faults s0 s O : zone_sound s0 → rtc user_step (s0, ∅) (s, O) →
  (∀ n o gfp t, request_ok_for o t → ∃ r s', buffered_rmqueue n o gfp t s = Ok (r, s') ∧ (r = None → no_page o t s)) ∧
  (∀ p o, (p, o) ∈ O → may_free p o s → ∃ s', __free_pages p o s = Ok ((), s')) ∧
  ∃ s', drain_pages s = Ok ((), s').
Proof.
  intros Hs Hrtc. pose proof (users_owners _ _ Hs Hrtc) as Hok. cbn [fst snd] in Hok. split_and!.
  - intros n o gfp t Hr. destruct (alloc_owners _ n o gfp t s O Hok Hr) as (r & s' & E & H'). exists r, s'. split; [done|]. intros ->. apply H'.
  - intros p o Hp Hm. destruct (free_owners _ p o s O Hok Hp Hm) as ([] & s' & E & _). by exists s'.
  - destruct (drain_owners _ s O Hok) as ([] & s' & E & _). by exists s'.
Qed.

(** C5. A block that is allocated and given back merges with the rest of the block that it
    was split from: when the lists of the CPU are drained before and after, the free blocks
    are the same as if nothing had been allocated, and so is the count of free pages. *)
Theorem alloc_free_restores n o gfp t p s s1 s2 s3 : zone_sound s → pcp_count s = 0 → request_ok_for o t →
  buffered_rmqueue n o gfp t s = Ok (Some p, s1) → __free_pages p o s1 = Ok ((), s2) → drain_pages s2 = Ok ((), s3) →
  blocks_of s3 = blocks_of s ∧ (∀ x, available s3 x ↔ available s x) ∧
  zone_page_state (zdata s3) NR_FREE_PAGES = zone_page_state (zdata s) NR_FREE_PAGES.
Proof.
  intros Hs Hc [Ho Ht] E1 E2 E3.
  destruct (runs_Ok _ _ _ _ _ (buffered_rmqueue_spec n _ s o gfp t Hs Ho Ht) E1) as (B1 & Z1 & Own & [G1 _]).
  destruct (runs_Ok _ _ _ _ _ (__free_pages_spec _ _ _ _ Z1 Own) E2) as (B2 & Z2 & F2 & _).
  destruct (runs_Ok _ _ _ _ _ (drain_pages_spec _ _ Z2) E3) as (B3 & Z3 & T3 & L3). destruct (zone_inv_sound _ _ Z3) as [Hs3 ->].
  assert (∀ x, available s3 x ↔ available s x) as Hav.
  { intros x. unfold available. rewrite (tr_avail _ _ _ _ T3 x). change (avail B2 (set_pcp_count 0 s2) x) with (avail B2 s2 x). by rewrite F2, G1. }
  destruct Hs as [I Hcs], Hs3 as [I3 _]. assert (cpu_length s = 0) as L0 by congruence.
  assert (blocks_of s3 = blocks_of s) as E.
  { apply blocks_unique; [apply I3|apply I3|apply I|apply I|]. intros x. rewrite <- (drained_avail _ _ _ _ _ x L3 I3), <- (drained_avail _ _ _ _ _ x L0 I). apply Hav. }
  split_and!; [done|done|]. rewrite E in I3. unfold zone_page_state. f_equal. by eapply free_pages_blocks.
Qed.

(** ** Watermarks *)

Lemma listed_nonneg s o : 0 <= listed s o.
Proof. rewrite listed_length. lia. Qed.

Lemma sound_counted s : zone_sound s → listed_pages s < 2 ^ 31 → blocks_counted (zdata s).
Proof.
  intros [I _] Hs. assert (∀ o, 0 <= o < MAX_ORDER → stat (nr_free (zdata s)) o = listed s o) as E.
  { intros o Ho. rewrite (bi_nr _ _ _ _ _ I o Ho). lia. }
  assert (pages_from (zdata s) 0 = listed_pages s) as Ep.
  { unfold pages_from, listed_pages, block_pages. change (seqZ 0 (MAX_ORDER - 0)) with [0; 1; 2; 3; 4; 5; 6; 7; 8; 9; 10].
    change (seqZ 0 MAX_ORDER) with [0; 1; 2; 3; 4; 5; 6; 7; 8; 9; 10]. cbn [foldr]. rewrite !E by (unfold MAX_ORDER; lia). lia. }
  split; [intros o Ho; rewrite E by done; apply listed_nonneg|rewrite Ep, (bi_free _ _ _ _ _ I); lia|by rewrite Ep].
Qed.

Lemma watermark_block o t mark classzone_idx s : zone_sound s → listed_pages s < 2 ^ 31 → request_ok_for o t →
  0 <= mark → 0 <= stat (lowmem_reserve (zdata s)) classzone_idx → mark + stat (lowmem_reserve (zdata s)) classzone_idx < 2 ^ 31 →
  (∀ k, 0 <= k < MAX_ORDER → chain s (free_list k MIGRATE_ISOLATE) = []) →
  zone_watermark_ok (zdata s) o mark classzone_idx 0 = true → ¬ no_page o t s.
Proof.
  intros Hs Hl [Ho Ht] Hm Hr Hsum Hiso Hok [Hex _]. pose proof (sound_counted s Hs Hl) as C. apply zone_watermark_ok_spec in Hok; [|done..].
  destruct (above_mark_block _ _ _ _ C Ho Hm Hr Hok) as (k & Hk & Hpos).
  destruct Hs as [I _]. rewrite (bi_nr _ _ _ _ _ I k) in Hpos by lia. unfold listed in Hpos.
  change (seqZ 0 MIGRATE_TYPES) with [0; 1; 2; 3; MIGRATE_ISOLATE] in Hpos. cbn [foldr] in Hpos.
  rewrite !Hex, Hiso in Hpos by (unfold MIGRATE_ISOLATE in *; lia). cbn in Hpos. lia.
Qed.

(** C13. If the watermark check passes for a request, with a mark of zero or more, then the
    allocation of the block succeeds, provided that no free block is isolated: the counters
    that [zone_watermark_ok] reads are those of the free lists that [__rmqueue] searches. *)
Theorem watermark_allocates n o gfp t mark classzone_idx s : zone_sound s → listed_pages s < 2 ^ 31 → request_ok_for o t →
  0 <= mark → 0 <= stat (lowmem_reserve (zdata s)) classzone_idx → mark + stat (lowmem_reserve (zdata s)) classzone_idx < 2 ^ 31 →
  (∀ k, 0 <= k < MAX_ORDER → chain s (free_list k MIGRATE_ISOLATE) = []) →
  zone_watermark_ok (zdata s) o mark classzone_idx 0 = true →
  ∃ p s', buffered_rmqueue n o gfp t s = Ok (Some p, s').
Proof.
  intros Hs Hl Hr Hm Hre Hsum Hiso Hok. pose proof (watermark_block _ _ _ _ _ Hs Hl Hr Hm Hre Hsum Hiso Hok) as Hno. destruct Hr as [Ho Ht].
  destruct (buffered_rmqueue_spec n _ s o gfp t Hs Ho Ht) as ([p|] & s' & E & H'); [by exists p, s'|]. by destruct H' as (_ & _ & ?).
Qed.
End props.

(** ** A zone of one block *)

Definition demo_allocator : Allocator := {|
  zone_id := 0; zone_start_pfn := 0; spanned_pages := 1024; pcp_high := 6; pcp_batch := 1; page_group_by_mobility_disabled := false |}.

Section demo.
#[local] Existing Instance demo_allocator.

#[local] Instance demo_cpu_lists : CpuLists.
Proof. split; vm_compute; congruence. Qed.

Definition demo_frame (x : Z) : frame := if x =? 0 then Frame 0 0 (-128) NoMap 10 0 0 0 else Frame 0 0 (-1) NoMap 0 0 0 0.
Definition demo_frames : gmap Z frame := list_to_map ((λ x, (x, demo_frame x)) <$> seqZ 0 1024).
Definition demo_zdata : zone := Zone false {[ 0 := 1024 ]} ∅ ∅ 0 false false 1 1024 (16, 32, 48) ∅ {[ 10 := 1 ]}.
Definition demo_zone : zst := ZSt demo_frames {[ free_list 10 MIGRATE_MOVABLE := [0] ]} demo_zdata false 0 {[ 0 := MIGRATE_MOVABLE ]} ∅.

Lemma demo_lookup x f : demo_frames !! x = Some f ↔ 0 <= x < 1024 ∧ f = demo_frame x.
Proof.
  unfold demo_frames. rewrite <- elem_of_list_to_map.
  - rewrite list_elem_of_fmap. split.
    + intros (y & [= -> ->] & Hy%elem_of_seqZ). split; [lia|done].
    + intros [Hx ->]. exists x. split; [done|]. apply elem_of_seqZ. lia.
  - rewrite <- list_fmap_compose. replace (fst ∘ _) with (id : Z → Z) by done. rewrite list_fmap_id. apply NoDup_seqZ.
Qed.

Lemma demo_chain h p : p ∈ chain demo_zone h → h = free_list 10 MIGRATE_MOVABLE ∧ p = 0.
Proof.
  unfold chain. cbn [chains demo_zone]. destruct (decide (h = free_list 10 MIGRATE_MOVABLE)) as [->|Hne].
  - rewrite lookup_singleton_eq. by intros ->%list_elem_of_singleton.
  - rewrite lookup_singleton_ne by done. by intros ?%elem_of_nil.
Qed.

Lemma demo_chain_eq : chain demo_zone (free_list 10 MIGRATE_MOVABLE) = [0].
Proof. unfold chain. cbn [chains demo_zone]. by rewrite lookup_singleton_eq. Qed.

Lemma demo_blocks_ok : disjoint_blocks {[ (0, 10) ]} ∧ merged {[ (0, 10) ]}.
Proof.
  split; [split|].
  - by intros p o [= -> ->]%elem_of_singleton.
  - intros p o [= -> ->]%elem_of_singleton. apply Z.divide_0_r.
  - by intros p o q k x [= -> ->]%elem_of_singleton [= -> ->]%elem_of_singleton.
  - intros p o [= -> ->]%elem_of_singleton Ho. done.
Qed.

Lemma demo_zone_inv : zone_inv {[ (0, 10) ]} demo_zone.
Proof.
  split; [|vm_compute; reflexivity]. destruct demo_blocks_ok as [Hd Hm].
  assert (∀ x, covers {[ (0, 10) ]} x ↔ 0 <= x < 1024) as Hcov.
  { intros x. split; [by intros (p & o & [= -> ->]%elem_of_singleton & Hx)|]. intros Hx. exists 0, 10. split; [set_solver|exact Hx]. }
  split; [done|done|..].
  - intros p o [= -> ->]%elem_of_singleton. exists (demo_frame 0). split; [by apply demo_lookup|done].
  - intros p f [Hp ->]%demo_lookup _. unfold demo_frame. destruct (Z.eqb_spec p 0) as [->|]; [set_solver|done].
  - intros x Hx%Hcov. exists (demo_frame x). split; [by apply demo_lookup|]. unfold demo_frame. destruct (x =? 0); (split; [done|]); [by right|by left].
  - intros h p [-> ->]%demo_chain. left. split; [done|set_solver].
  - intros p o [= -> ->]%elem_of_singleton. exists MIGRATE_MOVABLE. split; [done|]. rewrite demo_chain_eq. left.
  - intros h. destruct (decide (h = free_list 10 MIGRATE_MOVABLE)) as [->|Hne]; [rewrite demo_chain_eq; apply NoDup_singleton|].
    unfold chain. cbn [chains demo_zone]. rewrite lookup_singleton_ne by done. constructor.
  - by intros h h' p [-> _]%demo_chain [-> _]%demo_chain.
  - intros o Ho. assert (o ∈ seqZ 0 MAX_ORDER) as Hin by (apply elem_of_seqZ; lia). change (seqZ 0 MAX_ORDER) with [0; 1; 2; 3; 4; 5; 6; 7; 8; 9; 10] in Hin.
    repeat (apply elem_of_cons in Hin as [->|Hin]; [vm_compute; reflexivity|]). by apply elem_of_nil in Hin.
  - vm_compute. reflexivity.
  - done.
  - intros q x y [k ->] Hx Hy [f [Hf _]%demo_lookup]. exists (demo_frame y). apply demo_lookup. split; [|done].
    unfold in_block in *. change (2 ^ (MAX_ORDER - 1)) with 1024 in *. lia.
  - intros x Hx. exists (demo_frame x). split; [apply demo_lookup; split; [exact Hx|done]|]. unfold demo_frame. by destruct (x =? 0).
  - intros x f [Hx _]%demo_lookup _. exact Hx.
  - intros i. unfold stat. cbn [pageblock_flags demo_zone]. destruct (decide (i = 0)) as [->|]; [by rewrite lookup_singleton_eq|by rewrite lookup_singleton_ne].
Qed.

Lemma demo_sound : zone_sound demo_zone.
Proof. by apply (zone_inv_sound {[ (0, 10) ]}), demo_zone_inv. Qed.

(** The states after a block of eight pages has been allocated, and freed again. *)
Definition state_of {X} (r : res (X * zst)) : zst := match r with Ok (_, s) => s | _ => demo_zone end.
Definition demo_taken : zst := state_of (buffered_rmqueue 0 3 0 MIGRATE_MOVABLE demo_zone).
Definition demo_freed : zst := state_of (__free_pages 0 3 demo_taken).
Definition demo_drained : zst := state_of (drain_pages demo_freed).

Definition value_of {X} (r : res (X * zst)) : option X := match r with Ok (a, _) => Some a | _ => None end.

Lemma run_of {X} (r : res (X * zst)) a : value_of r = Some a → r = Ok (a, state_of r).
Proof. destruct r as [[b s]|e]; cbn; congruence. Qed.

Lemma demo_alloc_run : buffered_rmqueue 0 3 0 MIGRATE_MOVABLE demo_zone = Ok (Some 0, demo_taken).
Proof. unfold demo_taken. apply run_of. vm_compute. reflexivity. Qed.
Lemma demo_free_run : __free_pages 0 3 demo_taken = Ok ((), demo_freed).
Proof. unfold demo_freed. apply run_of. vm_compute. reflexivity. Qed.
Lemma demo_drain_run : drain_pages demo_freed = Ok ((), demo_drained).
Proof. unfold demo_drained. apply run_of. vm_compute. reflexivity. Qed.

Lemma demo_request : request_ok_for 3 MIGRATE_MOVABLE.
Proof. split; unfold MAX_ORDER, MIGRATE_MOVABLE, MIGRATE_PCPTYPES; lia. Qed.

Lemma demo_steps : rtc user_step (demo_zone, ∅) (demo_taken, {[ (0, 3) ]} ∪ ∅).
Proof. eapply rtc_once, (U_alloc 0 3 0 MIGRATE_MOVABLE 0); [apply demo_request|apply demo_alloc_run]. Qed.

Lemma pages_have_one_owner_witness : zone_sound demo_taken ∧ ∀ x, covers ({[ (0, 3) ]} ∪ ∅) x → ¬ available demo_taken x.
Proof.
  destruct (pages_have_one_owner demo_zone demo_taken ({[ (0, 3) ]} ∪ ∅) demo_sound demo_steps) as (H1 & _ & H3 & _). split; [exact H1|exact H3].
Defined.

Lemma allocator_never_faults_witness : ∃ r s', buffered_rmqueue 0 0 0 MIGRATE_UNMOVABLE demo_taken = Ok (r, s').
Proof.
  destruct (allocator_never_faults demo_zone demo_taken ({[ (0, 3) ]} ∪ ∅) demo_sound demo_steps) as [H1 _].
  destruct (H1 0%nat 0 0 MIGRATE_UNMOVABLE) as (r & s' & E & _); [split; unfold MAX_ORDER, MIGRATE_UNMOVABLE, MIGRATE_PCPTYPES; lia|].
  exists r, s'. exact E.
Defined.

Lemma alloc_free_restores_witness : blocks_of demo_drained = blocks_of demo_zone.
Proof.
  exact (proj1 (alloc_free_restores 0 3 0 MIGRATE_MOVABLE 0 demo_zone demo_taken demo_freed demo_drained demo_sound eq_refl demo_request
    demo_alloc_run demo_free_run demo_drain_run)).
Defined.

Lemma demo_isolate k : chain demo_zone (free_list k MIGRATE_ISOLATE) = [].
Proof. unfold chain. cbn [chains demo_zone]. by rewrite lookup_singleton_ne by (unfold free_list, MIGRATE_ISOLATE, MIGRATE_MOVABLE; congruence). Qed.

Lemma watermark_allocates_witness : ∃ p s', buffered_rmqueue 0 3 0 MIGRATE_UNMOVABLE demo_zone = Ok (Some p, s').
Proof.
  apply (watermark_allocates 0 3 0 MIGRATE_UNMOVABLE 48 0 demo_zone).
  - exact demo_sound.
  - vm_compute. reflexivity.
  - split; unfold MAX_ORDER, MIGRATE_UNMOVABLE, MIGRATE_PCPTYPES; lia.
  - lia.
  - vm_compute. congruence.
  - vm_compute. reflexivity.
  - intros k _. apply demo_isolate.
  - vm_compute. reflexivity.
Defined.
End demo.
