(* ===== verification/Bootmem.v ===== *)
(** * The boot memory allocator

    Models [goldfish/mm/bootmem.c] for one node: the bitmap of reserved pages with
    [init_bootmem_core], [free_bootmem] and [reserve_bootmem], the search of
    [alloc_bootmem_core] with [goldfish/arch/arm/lib/findbit.S], and [arm_bootmem_init] of
    [goldfish/arch/arm/mm/init.c], which registers the memory of the machine.  The contents
    of the memory that is given out, which is cleared, is not modelled. *)

From S2P Require Import Prelude ArmPgtable Remap Lru.

Definition BITS_PER_LONG : Z := 32.

Definition PFN_UP (x : Z) : Z := Z.shiftr (u32 (x + PAGE_SIZE - 1)) PAGE_SHIFT.
Definition PFN_DOWN (x : Z) : Z := Z.shiftr x PAGE_SHIFT.
Definition PFN_PHYS (x : Z) : Z := u32 (Z.shiftl x PAGE_SHIFT).

(** [ALIGN(x, a)] *)
Definition ALIGN (x a : Z) : Z := Z.land (u32 (x + (a - 1))) (u32 (Z.lnot (a - 1))).

(** [bootmem_data_t]: the first page, the end, the words of the bitmap of reserved pages, the
    page that the bitmap starts on, where the last allocation ended, and where a search may
    start. *)
Record bootmem_data := BootmemData {
  node_min_pfn : Z;
  node_low_pfn : Z;
  node_bootmem_map : option (Z → Z);
  bootmem_map_pfn : Z;
  last_end_off : Z;
  hint_idx : Z;
}.

Definition set_map (m : Z → Z) (d : bootmem_data) : bootmem_data :=
  BootmemData (node_min_pfn d) (node_low_pfn d) (Some m) (bootmem_map_pfn d) (last_end_off d) (hint_idx d).
Definition set_last_end_off (x : Z) (d : bootmem_data) : bootmem_data :=
  BootmemData (node_min_pfn d) (node_low_pfn d) (node_bootmem_map d) (bootmem_map_pfn d) x (hint_idx d).
Definition set_hint_idx (x : Z) (d : bootmem_data) : bootmem_data :=
  BootmemData (node_min_pfn d) (node_low_pfn d) (node_bootmem_map d) (bootmem_map_pfn d) (last_end_off d) x.

(** [bootmap_bytes] and [bootmem_bootmap_pages]. *)
Definition bootmap_bytes (pages : Z) : Z :=
  let bytes := (u32 (pages + 7)) / 8 in Z.land (u32 (bytes + 3)) (u32 (Z.lnot 3)).
Definition bootmem_bootmap_pages (pages : Z) : Z := Z.shiftr (PAGE_ALIGN (bootmap_bytes pages)) PAGE_SHIFT.

(** ** Bits of the map *)

(** An action on the map at bit [nr], which has to be one of the map. *)
Definition at_bit {A} (nr : Z) (f : (Z → Z) → A * (Z → Z)) : M bootmem_data A := λ d,
  match node_bootmem_map d with
  | None => Err NullDeref
  | Some m =>
      if (0 <=? nr) && (nr <? 8 * bootmap_bytes (node_low_pfn d - node_min_pfn d))
      then let '(a, m') := f m in Ok (a, set_map m' d)
      else Err (OutOfBounds nr)
  end.

Definition bit_of (m : Z → Z) (nr : Z) : bool := Z.testbit (m (nr / BITS_PER_LONG)) (nr mod BITS_PER_LONG).

(** The map with bit [nr] set to [b]. *)
Definition put_bit (b : bool) (nr : Z) (m : Z → Z) : Z → Z := λ k,
  if k =? nr / BITS_PER_LONG then (if b then Z.setbit else Z.clearbit) (m k) (nr mod BITS_PER_LONG) else m k.

Definition test_bit (nr : Z) : M bootmem_data bool := at_bit nr (λ m, (bit_of m nr, m)).
Definition test_and_set_bit (nr : Z) : M bootmem_data bool := at_bit nr (λ m, (bit_of m nr, put_bit true nr m)).
Definition test_and_clear_bit (nr : Z) : M bootmem_data bool := at_bit nr (λ m, (bit_of m nr, put_bit false nr m)).

(** *** [arch/arm/lib/findbit.S]

    The routines read a byte before they compare with [maxbit], so that it may lie behind the
    map. *)

Definition map_byte (k : Z) : M bootmem_data Z := λ d,
  match node_bootmem_map d with
  | None => Err NullDeref
  | Some m => Ok (Z.land (Z.shiftr (m (k / 4)) (8 * (k mod 4))) 0xff, d)
  end.

(** [.L_found]: the lowest bit of [r3], counted from [r2], but not above [r1]. *)
Definition found_bit (r1 r2 r3 : Z) : Z :=
  let r0 := r2 + Z.log2 (Z.land r3 (u32 (- r3))) in
  if r1 <? r0 then r1 else r0.

(** From the label 1 of [_find_first_zero_bit_le]. *)
Fixpoint zero_bytes (fuel : nat) (r1 r2 : Z) : M bootmem_data Z :=
  match fuel with
  | O => fail NoFuel
  | S fuel =>
      b ← map_byte (Z.shiftr r2 3);
      let r3 := Z.lxor b 0xff in
      if negb (r3 =? 0) then mret (found_bit r1 r2 r3)
      else if r2 + 8 <? r1 then zero_bytes fuel r1 (r2 + 8)
      else mret r1
  end.

(** [_find_next_zero_bit_le] *)
Definition find_next_zero_bit (maxbit offset : Z) : M bootmem_data Z :=
  let fuel := S (Z.to_nat maxbit) in
  if maxbit =? 0 then mret maxbit
  else if Z.land offset 7 =? 0 then zero_bytes fuel maxbit offset
  else
    b ← map_byte (Z.shiftr offset 3);
    let r3 := Z.shiftr (Z.lxor b 0xff) (Z.land offset 7) in
    if negb (r3 =? 0) then mret (found_bit maxbit offset r3)
    else
      let r2 := Z.lor offset 7 + 1 in
      if r2 <? maxbit then zero_bytes fuel maxbit r2 else mret maxbit.

(** ** Reserving and freeing *)

Fixpoint clear_loop (n : nat) (idx : Z) : M bootmem_data () :=
  match n with
  | O => mret ()
  | S n => b ← test_and_clear_bit idx; if (b : bool) then clear_loop n (idx + 1) else fail (BugOn 273)
  end.

Definition __free (sidx eidx : Z) : M bootmem_data () :=
  d ← gets id;
  when (sidx <? hint_idx d) (modify (set_hint_idx sidx));;
  clear_loop (Z.to_nat (eidx - sidx)) sidx.

Fixpoint set_loop (n : nat) (sidx idx : Z) (exclusive : bool) : M bootmem_data Z :=
  match n with
  | O => mret 0
  | S n =>
      b ← test_and_set_bit idx;
      if b && exclusive then __free sidx idx;; mret (- EBUSY)
      else set_loop n sidx (idx + 1) exclusive
  end.

Definition __reserve (sidx eidx : Z) (exclusive : bool) : M bootmem_data Z :=
  set_loop (Z.to_nat (eidx - sidx)) sidx sidx exclusive.

Definition mark_bootmem_node (start end_ : Z) (reserve exclusive : bool) : M bootmem_data Z :=
  d ← gets id;
  bug_on 309 (start <? node_min_pfn d);;
  bug_on 310 (node_low_pfn d <? end_);;
  let sidx := u32 (start - node_min_pfn d) in
  let eidx := u32 (end_ - node_min_pfn d) in
  if reserve then __reserve sidx eidx exclusive
  else __free sidx eidx;; mret 0.

(** The list of nodes has one entry. *)
Definition mark_bootmem (start end_ : Z) (reserve exclusive : bool) : M bootmem_data Z :=
  d ← gets id;
  if (start <? node_min_pfn d) || (node_low_pfn d <=? start) then fail (BugOn 351) else
  let max := Z.min (node_low_pfn d) end_ in
  err ← mark_bootmem_node start max reserve exclusive;
  if reserve && negb (err =? 0) then mark_bootmem_node start start false false;; mret err
  else if max =? end_ then mret 0
  else fail (BugOn 351).

Definition free_bootmem (addr size : Z) : M bootmem_data () :=
  mark_bootmem (PFN_UP addr) (PFN_DOWN (u32 (addr + size))) false false;;
  mret ().

Definition reserve_bootmem (addr size : Z) (exclusive : bool) : M bootmem_data Z :=
  mark_bootmem (PFN_DOWN addr) (PFN_UP (u32 (addr + size))) true exclusive.

(** ** Allocation *)

Definition align_idx (base idx step : Z) : Z := u32 (ALIGN (u32 (base + idx)) step - base).
Definition align_off (base off align : Z) : Z := u32 (ALIGN (u32 (PFN_PHYS base + off)) align - PFN_PHYS base).

(** The first bit from [i] on that is set; [n] are left. *)
Fixpoint first_set (n : nat) (i : Z) : M bootmem_data (option Z) :=
  match n with
  | O => mret None
  | S n => b ← test_bit i; if (b : bool) then mret (Some i) else first_set n (i + 1)
  end.

(** From the label [find_block]: the index of a block of [n] pages that are not reserved. *)
Fixpoint find_block (fuel : nat) (base n step midx sidx : Z) : M bootmem_data (option Z) :=
  match fuel with
  | O => fail NoFuel
  | S fuel =>
      sidx ← find_next_zero_bit midx sidx;
      let sidx := align_idx base sidx step in
      let eidx := sidx + n in
      if (midx <=? sidx) || (midx <? eidx) then mret None else
      r ← first_set (Z.to_nat (eidx - sidx)) sidx;
      match r with
      | None => mret (Some sidx)
      | Some i =>
          let sidx := align_idx base i step in
          find_block fuel base n step midx (if sidx =? i then sidx + step else sidx)
      end
  end.

(** The block is taken, together with the rest of the page before it if the last allocation
    ended there; the address. *)
Definition take_found_block (size align sidx : Z) : M bootmem_data Z :=
  d ← gets id;
  let start_off :=
    if negb (Z.land (last_end_off d) (PAGE_SIZE - 1) =? 0) && (PFN_DOWN (last_end_off d) + 1 =? sidx)
    then align_off (node_min_pfn d) (last_end_off d) align else PFN_PHYS sidx in
  let merge := if PFN_DOWN start_off <? sidx then 1 else 0 in
  let end_off := u32 (start_off + size) in
  modify (set_last_end_off end_off);;
  modify (set_hint_idx (PFN_UP end_off));;
  r ← __reserve (PFN_DOWN start_off + merge) (PFN_UP end_off) true;
  if negb (r =? 0) then fail (BugOn 555) else
  mret (u32 (PFN_PHYS (node_min_pfn d) + start_off)).

Definition alloc_bootmem_core (fuel : nat) (size align goal limit : Z) : M bootmem_data (option Z) :=
  bug_on 481 (size =? 0);;
  bug_on 482 (negb (Z.land align (u32 (align - 1)) =? 0));;
  bug_on 483 (negb (limit =? 0) && (limit <? u32 (goal + size)));;
  d ← gets id;
  match node_bootmem_map d with
  | None => mret None
  | Some _ =>
      let min := node_min_pfn d in
      let goal := Z.shiftr goal PAGE_SHIFT in
      let limit := Z.shiftr limit PAGE_SHIFT in
      let max := if negb (limit =? 0) && (limit <? node_low_pfn d) then limit else node_low_pfn d in
      if max <=? min then mret None else
      let step := Z.max (Z.shiftr align PAGE_SHIFT) 1 in
      let start := if negb (goal =? 0) && (min <? goal) && (goal <? max) then ALIGN goal step else ALIGN min step in
      let sidx := u32 (start - min) in
      let midx := max - min in
      let '(fallback, from) := if sidx <? hint_idx d then (sidx + 1, align_idx min (hint_idx d) step) else (0, sidx) in
      r ← find_block fuel min (PFN_UP size) step midx from;
      match r with
      | Some sidx => a ← take_found_block size align sidx; mret (Some a)
      | None =>
          if fallback =? 0 then mret None else
          r ← find_block fuel min (PFN_UP size) step midx (align_idx min (fallback - 1) step);
          match r with
          | Some sidx => a ← take_found_block size align sidx; mret (Some a)
          | None => mret None
          end
      end
  end.

(** [___alloc_bootmem_nopanic], before the slab allocator is available. *)
Definition ___alloc_bootmem_nopanic (fuel : nat) (size align goal limit : Z) : M bootmem_data (option Z) :=
  let attempt goal :=
    d ← gets id;
    if negb (goal =? 0) && (node_low_pfn d <=? PFN_DOWN goal) then mret None
    else if negb (limit =? 0) && (PFN_DOWN limit <=? node_min_pfn d) then mret None
    else alloc_bootmem_core fuel size align goal limit in
  r ← attempt goal;
  match r with
  | Some a => mret (Some a)
  | None => if goal =? 0 then mret None else attempt 0
  end.

(** ** Registering the memory *)

Definition init_bootmem_core (mapstart start end_ : Z) (d : bootmem_data) : bootmem_data :=
  let mapsize := bootmap_bytes (end_ - start) in
  BootmemData start end_ (Some (λ k, if (0 <=? k) && (k <? mapsize / 4) then 2 ^ 32 - 1 else 0)) mapstart (last_end_off d) (hint_idx d).

(** The loops of [arm_bootmem_init] over the regions of memory, as first page and end. *)
Fixpoint free_banks (banks : list (Z * Z)) (end_pfn : Z) : M bootmem_data () :=
  match banks with
  | [] => mret ()
  | (start, end_) :: banks =>
      let end_ := if end_pfn <=? end_ then end_pfn else end_ in
      if end_ <=? start then mret () else
      free_bootmem (PFN_PHYS start) (u32 (Z.shiftl (end_ - start) PAGE_SHIFT));;
      free_banks banks end_pfn
  end.

Fixpoint reserve_regions (regions : list (Z * Z)) (end_pfn : Z) : M bootmem_data () :=
  match regions with
  | [] => mret ()
  | (start, end_) :: regions =>
      let end_ := if end_pfn <=? end_ then end_pfn else end_ in
      if end_ <=? start then mret () else
      reserve_bootmem (PFN_PHYS start) (u32 (Z.shiftl (end_ - start) PAGE_SHIFT)) false;;
      reserve_regions regions end_pfn
  end.

(** [bitmap] is the first page of what [memblock_alloc_base] returned, and [reserved] the
    regions of [memblock] after that. *)
Definition arm_bootmem_init (start_pfn end_pfn bitmap : Z) (memory reserved : list (Z * Z)) : M bootmem_data () :=
  modify (init_bootmem_core bitmap start_pfn end_pfn);;
  free_banks memory end_pfn;;
  reserve_regions reserved end_pfn.
