(* ===== verification/BootmemProps.v ===== *)
(** * What the boot memory allocator promises

    Allocations and frees of boot memory as a step relation from the state that
    [arm_bootmem_init] leaves: what is allocated lies in memory that was registered and is not
    reserved, is aligned as asked for and never overlaps; a request fails only if no block is
    large enough. *)

From S2P Require Import Prelude Hoare ArmPgtable Remap Lru Buddy BuddyBlocks BuddyInv BuddyFree BuddyAlloc Bootmem.

(** ** Arithmetic *)

(** Linear arithmetic with division by constants. *)
Ltac dlia := Z.to_euclidean_division_equations; lia.

Lemma u32_mask y k : is_u32 y → 0 <= k <= 32 → Z.land y (u32 (Z.lnot (2 ^ k - 1))) = y - y mod 2 ^ k.
Proof.
  intros [Hy0 Hy] Hk. rewrite <- land_block by lia. apply Z.bits_inj'. intros n Hn. rewrite !Z.land_spec. unfold u32.
  destruct (decide (n < 32)) as [Hlt|Hge]; [by rewrite Z.mod_pow2_bits_low by lia|].
  rewrite Z.mod_pow2_bits_high by lia. assert (Z.testbit y n = false) as ->; [|done]. apply Z.bits_above_log2; [done|].
  destruct (decide (y = 0)) as [->|]; [cbn; lia|]. apply Z.log2_lt_pow2; [lia|]. eapply Z.lt_le_trans; [exact Hy|]. apply Z.pow_le_mono_r; lia.
Qed.

(** The least multiple that is not below. *)
Lemma ALIGN_spec x k : 0 <= x → 0 <= k <= 32 → x + 2 ^ k <= 2 ^ 32 → (2 ^ k | ALIGN x (2 ^ k)) ∧ x <= ALIGN x (2 ^ k) < x + 2 ^ k.
Proof.
  intros Hx Hk Hb. pose proof (pow2_pos k ltac:(lia)) as Hp. unfold ALIGN. rewrite u32_id by (unfold is_u32; lia). rewrite u32_mask by (unfold is_u32; lia).
  set (y := x + (2 ^ k - 1)). pose proof (Z.div_mod y (2 ^ k) ltac:(lia)). pose proof (Z.mod_pos_bound y (2 ^ k) Hp). split; [exists (y / 2 ^ k); lia|lia].
Qed.

Lemma ALIGN_least x k y : 0 <= x → 0 <= k <= 32 → x + 2 ^ k <= 2 ^ 32 → x <= y → (2 ^ k | y) → ALIGN x (2 ^ k) <= y.
Proof.
  intros Hx Hk Hb Hy [c ->]. destruct (ALIGN_spec x k Hx Hk Hb) as [[b ->] Hr]. pose proof (pow2_pos k ltac:(lia)) as Hp.
  assert (b < c + 1) by (apply (Z.mul_lt_mono_pos_r (2 ^ k)); lia). apply Z.mul_le_mono_nonneg_r; lia.
Qed.

Lemma page_size : PAGE_SIZE = 4096.
Proof. done. Qed.

Lemma PFN_DOWN_div x : PFN_DOWN x = x / 4096.
Proof. unfold PFN_DOWN. by rewrite Z.shiftr_div_pow2 by done. Qed.

Lemma PFN_UP_div x : 0 <= x → x + 4095 < 2 ^ 32 → PFN_UP x = (x + 4095) / 4096.
Proof. intros Hx Hb. unfold PFN_UP. rewrite page_size, u32_id by (unfold is_u32; lia). rewrite Z.shiftr_div_pow2 by done. f_equal. lia. Qed.

Lemma PFN_PHYS_mul x : 0 <= x < 2 ^ 20 → PFN_PHYS x = x * 4096.
Proof. intros Hx. unfold PFN_PHYS. rewrite Z.shiftl_mul_pow2 by done. change (2 ^ PAGE_SHIFT) with 4096. apply u32_id. unfold is_u32. lia. Qed.

(** ** Bits of the map *)

Lemma bit_put b nr m k : bit_of (put_bit b nr m) k = if decide (k = nr) then b else bit_of m k.
Proof.
  unfold bit_of, put_bit. pose proof (Z.mod_pos_bound nr BITS_PER_LONG ltac:(done)) as H1. pose proof (Z.mod_pos_bound k BITS_PER_LONG ltac:(done)) as H2.
  destruct (decide (k = nr)) as [->|Hne].
  - rewrite Z.eqb_refl. destruct b; [apply Z.setbit_eq; lia|apply Z.clearbit_eq].
  - destruct (Z.eqb_spec (k / BITS_PER_LONG) (nr / BITS_PER_LONG)) as [E|]; [|done].
    assert (nr mod BITS_PER_LONG ≠ k mod BITS_PER_LONG) as Hm.
    { intros Em. apply Hne. rewrite (Z.div_mod k BITS_PER_LONG), (Z.div_mod nr BITS_PER_LONG) by done. by rewrite E, Em. }
    destruct b; [apply Z.setbit_neq; [lia|done]|by apply Z.clearbit_neq].
Qed.

Lemma bootmap_bits pages : 0 <= pages < 2 ^ 31 → pages <= 8 * bootmap_bytes pages.
Proof.
  intros Hp. unfold bootmap_bytes. rewrite (u32_id (pages + 7)) by (unfold is_u32; lia). pose proof (Z.div_mod (pages + 7) 8 ltac:(done)) as H1.
  pose proof (Z.mod_pos_bound (pages + 7) 8 ltac:(done)). set (q := (pages + 7) / 8) in *. rewrite (u32_id (q + 3)) by (unfold is_u32; lia).
  change (Z.lnot 3) with (Z.lnot (2 ^ 2 - 1)). rewrite u32_mask by (unfold is_u32; lia). pose proof (Z.mod_pos_bound (q + 3) (2 ^ 2) ltac:(done)). lia.
Qed.

(** The bits of the map of a node, and what stays the same of it. *)
Definition bits_are (f : Z → bool) (d : bootmem_data) : Prop := ∃ m, node_bootmem_map d = Some m ∧ ∀ k, bit_of m k = f k.

Definition node_size (d : bootmem_data) : Z := node_low_pfn d - node_min_pfn d.

(** The node is not empty and ends below 4 GB. *)
Definition node_sized (d : bootmem_data) : Prop := 0 <= node_min_pfn d < node_low_pfn d ∧ node_low_pfn d < 2 ^ 20.

Definition same_node (d d' : bootmem_data) : Prop :=
  node_min_pfn d' = node_min_pfn d ∧ node_low_pfn d' = node_low_pfn d ∧ bootmem_map_pfn d' = bootmem_map_pfn d.

Lemma set_map_id m d : node_bootmem_map d = Some m → set_map m d = d.
Proof. destruct d. cbn. by intros ->. Qed.

Lemma in_bits d nr : node_sized d → 0 <= nr < node_size d → ((0 <=? nr) && (nr <? 8 * bootmap_bytes (node_low_pfn d - node_min_pfn d))) = true.
Proof.
  unfold node_sized, node_size. intros [H1 H2] Hn. pose proof (bootmap_bits (node_low_pfn d - node_min_pfn d) ltac:(lia)).
  rewrite (proj2 (Z.leb_le 0 nr)), (proj2 (Z.ltb_lt nr _)) by lia. done.
Qed.

Lemma test_bit_run f d nr : node_sized d → bits_are f d → 0 <= nr < node_size d → test_bit nr d = Ok (f nr, d).
Proof. intros Hs (m & Hm & Hf) Hn. unfold test_bit, at_bit. rewrite Hm, in_bits by done. by rewrite set_map_id, Hf. Qed.

(** One bit is changed. *)
Definition put_at (b : bool) (nr : Z) (f : Z → bool) : Z → bool := λ k, if decide (k = nr) then b else f k.

Lemma change_bit_run b f d nr : node_sized d → bits_are f d → 0 <= nr < node_size d →
  ∃ d', at_bit nr (λ m, (bit_of m nr, put_bit b nr m)) d = Ok (f nr, d') ∧ bits_are (put_at b nr f) d' ∧ same_node d d' ∧
    last_end_off d' = last_end_off d ∧ hint_idx d' = hint_idx d.
Proof.
  intros Hs (m & Hm & Hf) Hn. exists (set_map (put_bit b nr m) d). split; [unfold at_bit; rewrite Hm, in_bits by done; by rewrite Hf|].
  split; [|done]. eexists. split; [done|]. intros k. rewrite bit_put. unfold put_at. by case_decide; subst.
Qed.

(** Bits from [a] up to [b] are given the value [v]. *)
Definition fill (v : bool) (a b : Z) (f : Z → bool) : Z → bool := λ k, if decide (a <= k < b) then v else f k.

Lemma bits_ext f g d : (∀ k, f k = g k) → bits_are f d → bits_are g d.
Proof. intros E (m & Hm & Hf). exists m. split; [done|]. intros k. by rewrite Hf. Qed.

Lemma same_node_refl d : same_node d d.
Proof. done. Qed.

Lemma same_node_trans d1 d2 d3 : same_node d1 d2 → same_node d2 d3 → same_node d1 d3.
Proof. unfold same_node. intros (A1 & A2 & A3) (B1 & B2 & B3). split_and!; congruence. Qed.

Lemma same_node_sized d d' : same_node d d' → node_sized d → node_sized d' ∧ node_size d' = node_size d.
Proof. unfold same_node, node_sized, node_size. intros (-> & -> & _) H. done. Qed.

Lemma clear_loop_runs n : ∀ idx f d, node_sized d → bits_are f d → 0 <= idx → idx + Z.of_nat n <= node_size d →
  (∀ k, idx <= k < idx + Z.of_nat n → f k = true) →
  runs (clear_loop n idx) d (λ _ d', bits_are (fill false idx (idx + Z.of_nat n) f) d' ∧ same_node d d' ∧ last_end_off d' = last_end_off d ∧ hint_idx d' = hint_idx d).
Proof.
  induction n as [|n IH]; intros idx f d Hs Hf Hi Hb Hset; cbn [clear_loop].
  { apply runs_ret. split; [|done]. eapply bits_ext; [|exact Hf]. intros k. unfold fill. rewrite decide_False; [done|lia]. }
  destruct (change_bit_run false f d idx Hs Hf ltac:(lia)) as (d1 & E1 & Hf1 & S1 & L1 & H1). apply runs_bind. eapply runs_ok; [exact E1|]. rewrite Hset by lia.
  destruct (same_node_sized _ _ S1 Hs) as [Hs1 Es1]. eapply runs_mono; [apply (IH (idx + 1) _ d1 Hs1 Hf1); [lia|rewrite Es1; lia|]|].
  - intros k Hk. unfold put_at. rewrite decide_False by lia. apply Hset. lia.
  - cbn beta. intros _ d2 (Hf2 & S2 & L2 & H2). split; [|split; [by eapply same_node_trans|split; congruence]]. eapply bits_ext; [|exact Hf2].
    intros k. unfold fill, put_at. destruct (decide (k = idx)) as [->|]; [rewrite decide_False, decide_True by lia; done|].
    destruct (decide (idx + 1 <= k < idx + 1 + Z.of_nat n)); [rewrite decide_True by lia; done|rewrite decide_False by lia; done].
Qed.

(** Bits that are not set may be reserved exclusively, others only if it is not exclusive. *)
Lemma set_loop_runs exclusive sidx n : ∀ idx f d, node_sized d → bits_are f d → 0 <= idx → idx + Z.of_nat n <= node_size d →
  (exclusive = true → ∀ k, idx <= k < idx + Z.of_nat n → f k = false) →
  runs (set_loop n sidx idx exclusive) d (λ r d', r = 0 ∧ bits_are (fill true idx (idx + Z.of_nat n) f) d' ∧ same_node d d' ∧
    last_end_off d' = last_end_off d ∧ hint_idx d' = hint_idx d).
Proof.
  induction n as [|n IH]; intros idx f d Hs Hf Hi Hb Hclear; cbn [set_loop].
  { apply runs_ret. split; [done|]. split; [|done]. eapply bits_ext; [|exact Hf]. intros k. unfold fill. rewrite decide_False; [done|lia]. }
  destruct (change_bit_run true f d idx Hs Hf ltac:(lia)) as (d1 & E1 & Hf1 & S1 & L1 & H1). apply runs_bind. eapply runs_ok; [exact E1|].
  assert (f idx && exclusive = false) as -> by (destruct exclusive; [rewrite Hclear by (done || lia); done|apply andb_false_r]).
  destruct (same_node_sized _ _ S1 Hs) as [Hs1 Es1]. eapply runs_mono; [apply (IH (idx + 1) _ d1 Hs1 Hf1); [lia|rewrite Es1; lia|]|].
  - intros He k Hk. unfold put_at. rewrite decide_False by lia. apply Hclear; [done|lia].
  - cbn beta. intros r d2 (Er & Hf2 & S2 & L2 & H2). split; [done|]. split; [|split; [by eapply same_node_trans|split; congruence]]. eapply bits_ext; [|exact Hf2].
    intros k. unfold fill, put_at. destruct (decide (k = idx)) as [->|]; [rewrite decide_False, decide_True by lia; done|].
    destruct (decide (idx + 1 <= k < idx + 1 + Z.of_nat n)); [rewrite decide_True by lia; done|rewrite decide_False by lia; done].
Qed.

Lemma __free_runs f d sidx eidx : node_sized d → bits_are f d → 0 <= sidx → eidx <= node_size d → (∀ k, sidx <= k < eidx → f k = true) →
  runs (__free sidx eidx) d (λ _ d', bits_are (fill false sidx eidx f) d' ∧ same_node d d' ∧ last_end_off d' = last_end_off d ∧
    (hint_idx d' = hint_idx d ∨ hint_idx d' = sidx)).
Proof.
  intros Hs Hf Hi Hb Hset. unfold __free. apply runs_bind. eapply runs_ok; [done|]. apply runs_bind.
  apply (runs_mono _ _ (λ _ d1, bits_are f d1 ∧ same_node d d1 ∧ last_end_off d1 = last_end_off d ∧ (hint_idx d1 = hint_idx d ∨ hint_idx d1 = sidx))).
  { apply runs_when; intros _; [eapply runs_ok; [done|]; split_and!; [exact Hf|done|done|by right]|split_and!; [done|done|done|by left]]. }
  intros _ d1 (Hf1 & S1 & L1 & H1). destruct (same_node_sized _ _ S1 Hs) as [Hs1 Es1]. destruct (decide (sidx <= eidx)) as [Hle|Hgt].
  - eapply runs_mono; [apply (clear_loop_runs _ sidx f d1 Hs1 Hf1); [done|rewrite Es1; lia|intros k Hk; apply Hset; lia]|]. cbn beta.
    intros _ d2 (Hf2 & S2 & L2 & H2). replace (sidx + Z.of_nat (Z.to_nat (eidx - sidx))) with eidx in Hf2 by lia.
    split_and!; [done|by eapply same_node_trans|congruence|by rewrite H2].
  - replace (Z.to_nat (eidx - sidx)) with 0%nat by lia. cbn [clear_loop]. apply runs_ret. split_and!; [|done|done|done].
    eapply bits_ext; [|exact Hf1]. intros k. unfold fill. rewrite decide_False; [done|lia].
Qed.

Lemma __reserve_runs f d sidx eidx exclusive : node_sized d → bits_are f d → 0 <= sidx → eidx <= node_size d → (exclusive = true → ∀ k, sidx <= k < eidx → f k = false) →
  runs (__reserve sidx eidx exclusive) d (λ r d', r = 0 ∧ bits_are (fill true sidx eidx f) d' ∧ same_node d d' ∧ last_end_off d' = last_end_off d ∧ hint_idx d' = hint_idx d).
Proof.
  intros Hs Hf Hi Hb Hclear. unfold __reserve. destruct (decide (sidx <= eidx)) as [Hle|Hgt].
  - eapply runs_mono; [apply (set_loop_runs exclusive sidx _ sidx f d Hs Hf); [done|lia|intros He k Hk; apply Hclear; [done|lia]]|]. cbn beta.
    intros r d2 (Er & Hf2 & H2). by replace (sidx + Z.of_nat (Z.to_nat (eidx - sidx))) with eidx in Hf2 by lia.
  - replace (Z.to_nat (eidx - sidx)) with 0%nat by lia. cbn [set_loop]. apply runs_ret. split_and!; [done| |done|done|done].
    eapply bits_ext; [|exact Hf]. intros k. unfold fill. rewrite decide_False; [done|lia].
Qed.

(** ** The search *)

(** The lowest bit of a byte. *)
Lemma lowest_bit r3 : 0 < r3 < 256 → let i := Z.log2 (Z.land r3 (u32 (- r3))) in 0 <= i < 8 ∧ Z.testbit r3 i = true ∧ ∀ j, 0 <= j < i → Z.testbit r3 j = false.
Proof.
  intros Hr. assert (forallb (λ r3, let i := Z.log2 (Z.land r3 (u32 (- r3))) in (0 <=? i) && (i <? 8) && Z.testbit r3 i && forallb (λ j, negb (Z.testbit r3 j)) (seqZ 0 i)) (seqZ 1 255) = true) as H by (vm_compute; reflexivity).
  rewrite forallb_forall in H. specialize (H r3 ltac:(apply list_elem_of_In, elem_of_seqZ; lia)). cbv zeta in H. apply andb_true_iff in H as [[[?%Z.leb_le ?%Z.ltb_lt]%andb_true_iff Ht]%andb_true_iff Hl].
  split_and!; [done|done|done|]. intros j Hj. rewrite forallb_forall in Hl. apply negb_true_iff, Hl, list_elem_of_In, elem_of_seqZ. lia.
Qed.

Section search.
Context (f : Z → bool) (d : bootmem_data) (sized : node_sized d) (bits : bits_are f d).

Lemma map_byte_run k : 0 <= k → ∃ b, map_byte k d = Ok (b, d) ∧ 0 <= b < 256 ∧ ∀ j, 0 <= j < 8 → Z.testbit b j = f (8 * k + j).
Proof.
  intros Hk. destruct bits as (m & Hm & Hf). unfold map_byte. rewrite Hm. eexists. split; [done|]. change 0xff with (Z.ones 8). rewrite Z.land_ones by done. split; [apply Z.mod_pos_bound; done|].
  intros j Hj. rewrite Z.mod_pow2_bits_low, Z.shiftr_spec by lia. rewrite <- Hf. unfold bit_of. change BITS_PER_LONG with 32. f_equal; [f_equal|]; dlia.
Qed.

(** The bits of an inverted byte from [o] on are searched. *)
Lemma found_bit_spec r1 r2 o b : 0 <= o < 8 → 0 <= b < 256 → (∀ j, 0 <= j < 8 - o → Z.testbit b (o + j) = f (r2 + j)) → let r3 := Z.shiftr (Z.lxor b 0xff) o in
  if r3 =? 0 then ∀ j, 0 <= j < 8 - o → f (r2 + j) = true
  else found_bit r1 r2 r3 <= r1 ∧ (r2 <= r1 → r2 <= found_bit r1 r2 r3) ∧ (∀ k, r2 <= k < found_bit r1 r2 r3 → f k = true) ∧
    (found_bit r1 r2 r3 < r1 → f (found_bit r1 r2 r3) = false) ∧ (r1 <= r2 → found_bit r1 r2 r3 = r1).
Proof.
  intros Ho Hb Hf r3. assert (∀ j, 0 <= j → Z.testbit r3 j = if decide (j < 8 - o) then negb (f (r2 + j)) else false) as Hr3.
  { intros j Hj. unfold r3. change 0xff with (Z.ones 8). rewrite Z.shiftr_spec, Z.lxor_spec by done. rewrite (Z.add_comm j o). case_decide.
    - rewrite Hf, Z.ones_spec_low by lia. apply xorb_true_r.
    - rewrite Z.ones_spec_high by lia. rewrite xorb_false_r. destruct (decide (b = 0)) as [->|]; [apply Z.bits_0|]. apply Z.bits_above_log2; [lia|]. apply Z.log2_lt_pow2; [lia|].
      eapply Z.lt_le_trans; [apply Hb|]. change 256 with (2 ^ 8). apply Z.pow_le_mono_r; lia. }
  destruct (Z.eqb_spec r3 0) as [E|E].
  { intros j Hj. pose proof (Hr3 j ltac:(lia)) as H. rewrite E, Z.bits_0, decide_True in H by lia. by apply negb_false_iff. }
  assert (0 <= r3 < 256) as Hr.
  { unfold r3. change 256 with (2 ^ 8). assert (0 <= Z.lxor b 0xff < 2 ^ 8) as Hx.
    { split; [apply Z.lxor_nonneg; lia|]. destruct (decide (Z.lxor b 255 = 0)) as [->|]; [done|]. apply Z.log2_lt_pow2; [pose proof (proj2 (Z.lxor_nonneg b 255)); lia|].
      eapply Z.le_lt_trans; [apply Z.log2_lxor; lia|]. apply Z.max_lub_lt; [|done]. destruct (decide (b = 0)) as [->|]; [done|]. apply Z.log2_lt_pow2; [lia|exact (proj2 Hb)]. }
    rewrite Z.shiftr_div_pow2 by lia. pose proof (pow2_pos o ltac:(lia)). split; [apply Z.div_pos; lia|]. eapply Z.le_lt_trans; [apply Z.div_le_upper_bound; [lia|]|apply Hx]. nia. }
  destruct (lowest_bit r3 ltac:(lia)) as (Hi & Ht & Hlow). unfold found_bit. set (i := Z.log2 _) in *. clearbody i.
  rewrite Hr3 in Ht by lia. case_decide as Hio; [|done]. apply negb_true_iff in Ht.
  assert (∀ j, 0 <= j < i → f (r2 + j) = true) as Hj by (intros j Hj; pose proof (Hlow j Hj) as H; rewrite Hr3, decide_True in H by lia; by apply negb_false_iff).
  assert (∀ k, r2 <= k < r2 + i → f k = true) as Hk by (intros k Hk; replace k with (r2 + (k - r2)) by lia; apply Hj; lia).
  destruct (Z.ltb_spec r1 (r2 + i)); split_and!; intros; (done || lia || (apply Hk; lia)).
Qed.

Lemma zero_bytes_run fuel : ∀ r1 r2, 0 <= r2 → r2 mod 8 = 0 → (Z.to_nat (r1 - r2) < fuel)%nat →
  ∃ r, zero_bytes fuel r1 r2 d = Ok (r, d) ∧ r <= r1 ∧ (r2 <= r1 → r2 <= r) ∧ (∀ k, r2 <= k < r → f k = true) ∧ (r < r1 → f r = false) ∧ (r1 <= r2 → r = r1).
Proof.
  induction fuel as [|fuel IH]; intros r1 r2 H0 Hm Hf; [lia|]. cbn [zero_bytes]. rewrite Z.shiftr_div_pow2 by done. change (2 ^ 3) with 8.
  destruct (map_byte_run (r2 / 8) ltac:(dlia)) as (b & E & Hb & Hbits). erewrite bind_Ok by exact E. cbv beta zeta.
  pose proof (found_bit_spec r1 r2 0 b ltac:(lia) Hb) as H. cbv zeta in H. rewrite Z.shiftr_0_r in H.
  specialize (H ltac:(intros j Hj; rewrite Z.add_0_l, Hbits by lia; f_equal; dlia)). destruct (Z.eqb_spec (Z.lxor b 0xff) 0) as [_|_]; cbn [negb]; [|eexists; split; [done|exact H]].
  assert (∀ k, r2 <= k < r2 + 8 → f k = true) as Hk by (intros k Hk; replace k with (r2 + (k - r2)) by lia; apply H; lia).
  destruct (Z.ltb_spec (r2 + 8) r1) as [Hlt|Hge].
  - destruct (IH r1 (r2 + 8) ltac:(lia) ltac:(dlia) ltac:(lia)) as (r & Er & A1 & A2 & A3 & A4 & A5). exists r. split_and!; [done|lia|lia| |done|lia].
    intros k Hk'. destruct (decide (k < r2 + 8)); [apply Hk; lia|apply A3; lia].
  - exists r1. split_and!; [done|lia|lia| |lia|done]. intros k Hk'. apply Hk. lia.
Qed.

Lemma find_zero_run maxbit offset : 0 <= offset → 0 <= maxbit →
  ∃ r, find_next_zero_bit maxbit offset d = Ok (r, d) ∧ r <= maxbit ∧ (offset <= maxbit → offset <= r) ∧ (∀ k, offset <= k < r → f k = true) ∧
    (r < maxbit → f r = false) ∧ (maxbit <= offset → r = maxbit).
Proof.
  intros Ho Hb. unfold find_next_zero_bit. destruct (Z.eqb_spec maxbit 0) as [->|Hne]; [exists 0; split_and!; (done || lia)|]. assert (Z.land offset 7 = offset mod 8) as -> by (change 7 with (Z.ones 3); by rewrite Z.land_ones by done).
  destruct (Z.eqb_spec (offset mod 8) 0) as [E0|E0]; [by apply zero_bytes_run; [..|lia]|]. rewrite Z.shiftr_div_pow2 by done. change (2 ^ 3) with 8.
  destruct (map_byte_run (offset / 8) ltac:(dlia)) as (b & E & Hbr & Hbits). erewrite bind_Ok by exact E. cbv beta zeta.
  pose proof (found_bit_spec maxbit offset (offset mod 8) b ltac:(dlia) Hbr ltac:(intros j Hj; rewrite Hbits by dlia; f_equal; dlia)) as H. cbv zeta in H.
  destruct (Z.shiftr (Z.lxor b 255) (offset mod 8) =? 0); cbn [negb]; [|eexists; split; [done|exact H]].
  assert (Z.lor offset 7 + 1 = offset + (8 - offset mod 8)) as ->.
  { assert (Z.lor offset 7 = Z.lor (offset - offset mod 8) 7) as ->.
    { apply Z.bits_inj'. intros n Hn. rewrite !Z.lor_spec. change 7 with (Z.ones 3). destruct (decide (n < 3)); [by rewrite Z.ones_spec_low, !orb_true_r by lia|].
      f_equal. replace (offset - offset mod 8) with (offset / 8 * 2 ^ 3) by (change (2 ^ 3) with 8; dlia). rewrite <- Z.shiftl_mul_pow2, Z.shiftl_spec by done.
      change 8 with (2 ^ 3). rewrite <- Z.shiftr_div_pow2, Z.shiftr_spec by lia. f_equal. lia. }
    assert (Z.land (offset - offset mod 8) 7 = 0) as Hl by (change 7 with (Z.ones 3); rewrite Z.land_ones by done; change (2 ^ 3) with 8; dlia).
    pose proof (Z.add_lor_land (offset - offset mod 8) 7) as Hs. rewrite Hl in Hs. set (y := Z.lor (offset - offset mod 8) 7) in *. clearbody y. lia. }
  assert (∀ k, offset <= k < offset + (8 - offset mod 8) → f k = true) as Hk by (intros k Hk; replace k with (offset + (k - offset)) by lia; apply H; lia).
  assert (0 < 8 - offset mod 8) by dlia. destruct (Z.ltb_spec (offset + (8 - offset mod 8)) maxbit) as [Hlt|Hge].
  - destruct (zero_bytes_run (S (Z.to_nat maxbit)) maxbit (offset + (8 - offset mod 8)) ltac:(dlia) ltac:(dlia) ltac:(lia)) as (r & Er & A1 & A2 & A3 & A4 & A5).
    exists r. split_and!; [done|lia|lia| |done|lia]. intros k Hk'. destruct (decide (k < offset + (8 - offset mod 8))); [apply Hk; lia|apply A3; lia].
  - exists maxbit. split_and!; [done|lia|lia| |lia|done]. intros k Hk'. apply Hk. lia.
Qed.

Lemma first_set_run n : ∀ i, 0 <= i → i + Z.of_nat n <= node_size d →
  ∃ r, first_set n i d = Ok (r, d) ∧ match r with
    | None => ∀ k, i <= k < i + Z.of_nat n → f k = false
    | Some j => i <= j < i + Z.of_nat n ∧ f j = true
    end.
Proof.
  induction n as [|n IH]; intros i Hi Hb; cbn [first_set]; [exists None; split; [done|]; intros k Hk; lia|].
  erewrite bind_Ok by (apply (test_bit_run f); [done|done|lia]). destruct (f i) eqn:E; [exists (Some i); split; [done|]; split; [lia|done]|].
  destruct (IH (i + 1)) as (r & Er & H1); [lia|lia|]. exists r. split; [done|]. destruct r as [j|]; [destruct H1; split; [lia|done]|].
  intros k Hk. destruct (decide (k = i)) as [->|]; [done|]. apply H1. lia.
Qed.

Context (base sk : Z) (base_range : 0 <= base) (sk_range : 0 <= sk <= 20) (fits : base + node_size d < 2 ^ 20).
Notation step := (2 ^ sk).

Lemma step_bound : 0 < step <= 2 ^ 20.
Proof. split; [apply Z.pow_pos_nonneg; lia|apply Z.pow_le_mono_r; lia]. Qed.

Lemma align_idx_spec idx : 0 <= idx <= node_size d →
  (step | base + align_idx base idx step) ∧ idx <= align_idx base idx step ∧ ∀ y, idx <= y → (step | base + y) → align_idx base idx step <= y.
Proof.
  intros Hi. pose proof step_bound as Hs. unfold align_idx. rewrite (u32_id (base + idx)) by (unfold is_u32; lia).
  destruct (ALIGN_spec (base + idx) sk) as [H1 H2]; [lia|lia|lia|]. rewrite u32_id by (unfold is_u32; lia).
  replace (base + (ALIGN (base + idx) step - base)) with (ALIGN (base + idx) step) by lia. split; [done|]. split; [lia|].
  intros y Hy Hd. pose proof (ALIGN_least (base + idx) sk (base + y) ltac:(lia) ltac:(lia) ltac:(lia) ltac:(lia) Hd). lia.
Qed.

(** A place for [n] pages. *)
Definition block_at (n midx s : Z) : Prop := (step | base + s) ∧ s + n <= midx ∧ ∀ k, s <= k < s + n → f k = false.

Lemma find_block_runs n midx fuel : 0 < n → 0 <= midx <= node_size d → ∀ sidx, 0 <= sidx → (Z.to_nat (midx - sidx) < fuel)%nat →
  ∃ r, find_block fuel base n step midx sidx d = Ok (r, d) ∧ match r with
    | Some s => sidx <= s ∧ block_at n midx s
    | None => ∀ s, sidx <= s → ¬ block_at n midx s
    end.
Proof.
  intros Hn Hm. induction fuel as [|fuel IH]; intros sidx Hs Hf; [lia|]. cbn [find_block]. pose proof step_bound as Hst.
  destruct (find_zero_run midx sidx Hs ltac:(lia)) as (z & E & Hz1 & Hz2 & Hz3 & Hz4 & Hz5). erewrite bind_Ok by exact E. cbv beta zeta.
  destruct (decide (sidx <= midx)) as [Hle|Hgt].
  2:{ rewrite (Hz5 ltac:(lia)). destruct (align_idx_spec midx ltac:(lia)) as (_ & Ha & _). rewrite (proj2 (Z.leb_le midx _)) by lia. cbn [orb].
      exists None. split; [done|]. intros s Hss (_ & ? & _). lia. }
  specialize (Hz2 Hle). destruct (align_idx_spec z ltac:(lia)) as (Hd & Ha & Hleast). set (s1 := align_idx base z step) in *.
  assert (∀ s, sidx <= s → block_at n midx s → s1 <= s) as Hge.
  { intros s Hss (Hds & Hsn & Hcl). apply Hleast; [|done]. destruct (decide (s < z)); [|lia]. pose proof (Hz3 s ltac:(lia)). pose proof (Hcl s ltac:(lia)). congruence. }
  destruct ((midx <=? s1) || (midx <? s1 + n)) eqn:Eout.
  { exists None. split; [done|]. intros s Hss Hb. pose proof (Hge s Hss Hb). destruct Hb as (_ & Hsn & _).
    apply orb_true_iff in Eout as [?%Z.leb_le|?%Z.ltb_lt]; lia. }
  apply orb_false_iff in Eout as [?%Z.leb_gt ?%Z.ltb_ge]. destruct (first_set_run (Z.to_nat (s1 + n - s1)) s1) as (r & Er & Hr); [lia|lia|].
  erewrite bind_Ok by exact Er. destruct r as [i|]; cbv beta iota.
  2:{ exists (Some s1). split; [done|]. split; [lia|]. split; [done|]. split; [done|]. intros k Hk. apply Hr. lia. }
  destruct Hr as [Hi Hfi]. destruct (align_idx_spec i ltac:(lia)) as (Hd2 & Ha2 & Hleast2). set (s2 := align_idx base i step) in *.
  set (s3 := if s2 =? i then s2 + step else s2). assert (i < s3 ∧ ∀ s, i < s → (step | base + s) → s3 <= s) as [Hs3 Hl3].
  { unfold s3. destruct (Z.eqb_spec s2 i) as [Ei|]; (split; [lia|]); intros s His Hds; [|apply Hleast2; [lia|done]].
    destruct Hds as [a Ea], Hd2 as [b Eb]. assert (b < a) by (apply (Z.mul_lt_mono_pos_r step); lia). nia. }
  destruct (IH s3 ltac:(lia) ltac:(lia)) as (r & E3 & H3). exists r. split; [exact E3|]. destruct r as [s|]; [destruct H3; split; [lia|done]|].
  intros s Hss Hb. apply (H3 s); [|done]. pose proof (Hge s Hss Hb). destruct Hb as (Hds & Hsn & Hcl). apply Hl3; [|done].
  destruct (decide (s <= i)); [|lia]. pose proof (Hcl i ltac:(lia)). congruence.
Qed.
End search.

(** ** The memory that was given out *)

(** A region of bytes, by its offset in the node and its size. *)
Definition in_region (r : Z * Z) (x : Z) : Prop := r.1 <= x < r.1 + r.2.

(** The bits that are behind the last page, in its word, are set. *)
Definition padded_bits (f : Z → bool) (d : bootmem_data) : Prop := ∀ k, node_size d <= k → k / BITS_PER_LONG <= (node_size d - 1) / BITS_PER_LONG → f k = true.

(** [F] are the pages that are available at the beginning, [f] the bits of the map, and [L]
    the regions in use.  The last two laws are about the rest of the page in which the last
    allocation ended. *)
Record boot_inv (F f : Z → bool) (d : bootmem_data) (L : gset (Z * Z)) : Prop := BootInv {
  bm_sized : node_sized d;
  bm_bits : bits_are f d;
  bm_padded : padded_bits f d;
  bm_ram k : F k = true → 0 <= k < node_size d;
  bm_free k : f k = false → 0 <= k < node_size d → F k = true;
  bm_region r : r ∈ L → 0 <= r.1 ∧ 0 < r.2 ∧ r.1 + r.2 <= node_size d * 4096;
  bm_set r x : r ∈ L → in_region r x → f (x / 4096) = true ∧ F (x / 4096) = true;
  bm_disj r r' x : r ∈ L → r' ∈ L → in_region r x → in_region r' x → r = r';
  bm_hint : 0 <= hint_idx d <= node_size d;
  bm_last : 0 <= last_end_off d <= node_size d * 4096;
  bm_last_page : last_end_off d mod 4096 ≠ 0 → f (last_end_off d / 4096) = true ∧ F (last_end_off d / 4096) = true;
  bm_last_rest r x : last_end_off d mod 4096 ≠ 0 → r ∈ L → in_region r x → last_end_off d <= x → x / 4096 ≠ last_end_off d / 4096;
}.

(** The pages per step for an alignment. *)
Definition step_log (ak : Z) : Z := Z.max (ak - 12) 0.

Lemma step_of ak : 0 <= ak <= 31 → Z.max (Z.shiftr (2 ^ ak) PAGE_SHIFT) 1 = 2 ^ step_log ak.
Proof.
  intros Hk. unfold step_log. rewrite Z.shiftr_div_pow2 by done. change PAGE_SHIFT with 12. destruct (decide (12 <= ak)) as [Hge|Hlt].
  - rewrite (Z.max_l (ak - 12) 0) by lia. rewrite <- Z.pow_sub_r by lia. rewrite (Z.max_l (2 ^ (ak - 12))); [done|]. pose proof (pow2_pos (ak - 12) ltac:(lia)). lia.
  - rewrite (Z.max_r (ak - 12)) by lia. rewrite Z.div_small; [done|]. split; [apply Z.pow_nonneg; lia|apply Z.pow_lt_mono_r; lia].
Qed.

(** A page whose number is a multiple of the step has an address that is aligned. *)
Lemma step_aligned ak p : 0 <= ak → (2 ^ step_log ak | p) → (2 ^ ak | p * 4096).
Proof.
  intros Hk [c ->]. unfold step_log. destruct (decide (12 <= ak)).
  - rewrite Z.max_l by lia. exists c. rewrite <- Z.mul_assoc. f_equal. change 4096 with (2 ^ 12). rewrite <- Z.pow_add_r by lia. f_equal. lia.
  - rewrite Z.max_r by lia. exists (c * 2 ^ (12 - ak)).
    rewrite <- (Z.mul_assoc c (2 ^ (12 - ak))), <- Z.pow_add_r by lia. replace (12 - ak + ak) with 12 by lia. change (2 ^ 12) with 4096. change (2 ^ 0) with 1. lia.
Qed.

Section alloc.
Context (F f : Z → bool) (d : bootmem_data) (L : gset (Z * Z)) (I : boot_inv F f d L).
Notation min := (node_min_pfn d).

(** Where the new region starts. *)
Lemma start_off_spec ak sidx : 0 <= ak <= 31 → 0 <= sidx < node_size d → (2 ^ step_log ak | min + sidx) →
  let so := if negb (Z.land (last_end_off d) (PAGE_SIZE - 1) =? 0) && (PFN_DOWN (last_end_off d) + 1 =? sidx)
    then align_off min (last_end_off d) (2 ^ ak) else PFN_PHYS sidx in
  (2 ^ ak | min * 4096 + so) ∧ (so = sidx * 4096 ∨
    last_end_off d mod 4096 ≠ 0 ∧ last_end_off d / 4096 + 1 = sidx ∧ last_end_off d <= so < sidx * 4096).
Proof.
  intros Hk Hs Hd. destruct (bm_sized _ _ _ _ I) as [Hn1 Hn2]. pose proof (bm_last _ _ _ _ I) as He. unfold node_size in *. set (e := last_end_off d) in *.
  assert (2 ^ ak | (min + sidx) * 4096) as Hal by (apply step_aligned; [lia|done]). rewrite PFN_DOWN_div, PFN_PHYS_mul by lia.
  change (PAGE_SIZE - 1) with (Z.ones 12). rewrite Z.land_ones by done. change (2 ^ 12) with 4096.
  destruct (Z.eqb_spec (e mod 4096) 0) as [E0|E0]; cbn [negb andb]; [split; [by replace (min * 4096 + sidx * 4096) with ((min + sidx) * 4096) by lia|by left]|].
  destruct (Z.eqb_spec (e / 4096 + 1) sidx) as [E1|E1]; [|split; [by replace (min * 4096 + sidx * 4096) with ((min + sidx) * 4096) by lia|by left]].
  assert (e < sidx * 4096) as Hes by dlia. unfold align_off. rewrite PFN_PHYS_mul by lia. rewrite (u32_id (min * 4096 + e)) by (unfold is_u32; lia).
  assert (min * 4096 + e + 2 ^ ak <= 2 ^ 32) as Hroom.
  { destruct Hal as [c Ec]. assert (c < 2 ^ (32 - ak)) as Hc.
    { apply (Z.mul_lt_mono_pos_r (2 ^ ak)); [apply pow2_pos; lia|]. rewrite <- Z.pow_add_r by lia. replace (32 - ak + ak) with 32 by lia. lia. }
    assert ((c + 1) * 2 ^ ak <= 2 ^ (32 - ak) * 2 ^ ak) as Hm by (apply Z.mul_le_mono_nonneg_r; [apply Z.pow_nonneg; lia|lia]).
    rewrite <- Z.pow_add_r in Hm by lia. replace (32 - ak + ak) with 32 in Hm by lia. lia. }
  destruct (ALIGN_spec (min * 4096 + e) ak) as [H1 H2]; [lia|lia|done|].
  pose proof (ALIGN_least (min * 4096 + e) ak ((min + sidx) * 4096) ltac:(lia) ltac:(lia) Hroom ltac:(lia) Hal) as H3. set (y := ALIGN _ _) in *. clearbody y.
  rewrite u32_id by (unfold is_u32; lia). replace (min * 4096 + (y - min * 4096)) with y by lia. split; [done|].
  destruct (decide (y - min * 4096 = sidx * 4096)) as [->|]; [by left|]. right. split_and!; [done|done|lia|lia].
Qed.

(** The pages of the bytes from [so] to [so + size] that lie in the block at [sidx]. *)
Lemma end_page_bound so size sidx : 0 < size → size + 4095 < 2 ^ 32 → (sidx - 1) * 4096 <= so <= sidx * 4096 → so + size + 4095 < 2 ^ 32 → 0 <= so →
  PFN_UP (so + size) <= sidx + PFN_UP size ∧ (so + size) / 4096 <= PFN_UP (so + size) ∧ sidx - 1 <= (so + size) / 4096 ∧ sidx <= PFN_UP (so + size) ∧
  ∀ x, x < so + size → x / 4096 < PFN_UP (so + size).
Proof. intros Hs Hb Hso He H0. rewrite !PFN_UP_div by lia. split_and!; [dlia..|]. intros x Hx. dlia. Qed.

(** The state after the block at [sidx] was taken from [so] on. *)
Lemma taken_inv so size sidx d' : let q := PFN_UP (so + size) in
  0 <= so → 0 < size → size + 4095 < 2 ^ 32 → 0 <= sidx → sidx + PFN_UP size <= node_size d → (∀ k, sidx <= k < sidx + PFN_UP size → f k = false) →
  so = sidx * 4096 ∨ last_end_off d mod 4096 ≠ 0 ∧ last_end_off d / 4096 + 1 = sidx ∧ last_end_off d <= so < sidx * 4096 →
  same_node d d' → bits_are (fill true sidx q f) d' → last_end_off d' = so + size → hint_idx d' = q →
  boot_inv F (fill true sidx q f) d' ({[ (so, size) ]} ∪ L) ∧ (so, size) ∉ L.
Proof.
  intros q H0 Hsz Hb Hsi Hfit Hclear Hso S' Hf' Hl' Hh'. destruct (same_node_sized _ _ S' (bm_sized _ _ _ _ I)) as [Hs' En].
  destruct (bm_sized _ _ _ _ I) as [Hn1 Hn2]. assert (node_size d < 2 ^ 20) as Hns by (unfold node_size; lia).
  assert (size <= PFN_UP size * 4096) as Hup by (rewrite PFN_UP_div by lia; dlia).
  assert ((sidx - 1) * 4096 <= so <= sidx * 4096) as Hr by (destruct Hso as [->|(_ & E1 & Hr)]; [lia|dlia]).
  destruct (end_page_bound so size sidx Hsz Hb Hr ltac:(lia) H0) as (B1 & B2 & B3 & B4 & B5). fold q in B1, B2, B4, B5.
  (* pages of bytes from [so] on: the page before the block, or pages of the block *)
  assert (∀ x, so <= x → x / 4096 < q → sidx <= x / 4096 ∧ f (x / 4096) = false ∨
    x / 4096 = sidx - 1 ∧ last_end_off d mod 4096 ≠ 0 ∧ x / 4096 = last_end_off d / 4096 ∧ last_end_off d <= x) as Hpage.
  { intros x Hx Hq. destruct (decide (sidx <= x / 4096)); [left; split; [done|apply Hclear; lia]|]. right. destruct Hso as [->|(E1 & E2 & Hr2)]; [dlia|].
    split_and!; [dlia|done|dlia|lia]. }
  assert (∀ x, so <= x → x / 4096 < q → ∀ r, r ∈ L → ¬ in_region r x) as Hnew.
  { intros x Hx Hq r HrL Hin. destruct (Hpage x Hx Hq) as [[_ Hf]|(_ & E1 & E2 & E3)]; [destruct (bm_set _ _ _ _ I r x HrL Hin); congruence|].
    by eapply (bm_last_rest _ _ _ _ I r x). }
  assert (∀ x, so <= x → x / 4096 < q → fill true sidx q f (x / 4096) = true ∧ F (x / 4096) = true) as Hmark.
  { intros x Hx Hq. unfold fill. destruct (Hpage x Hx Hq) as [[Hle Hf]|(E0 & E1 & E2 & E3)].
    - rewrite decide_True by lia. split; [done|]. apply (bm_free _ _ _ _ I); [done|lia].
    - rewrite decide_False by lia. rewrite E2. by apply (bm_last_page _ _ _ _ I). }
  assert (so + size <= node_size d * 4096) as Hend by lia. assert (∀ r, r ∈ {[(so, size)]} ∪ L → r = (so, size) ∨ r ∈ L) as Hor by set_solver.
  assert ((so + size) mod 4096 ≠ 0 → (so + size) / 4096 < q) as Hpart by (intros Hp; unfold q; rewrite PFN_UP_div by lia; dlia).
  assert (∀ x, in_region (so, size) x → so <= x ∧ x / 4096 < q) as Hin by (intros x [Hx1 Hx2]; cbn in Hx1, Hx2; split; [lia|by apply B5]).
  split; [|intros Hc; apply (Hnew so ltac:(lia) (B5 so ltac:(lia)) _ Hc); split; cbn; lia].
  constructor; rewrite ?En, ?Hl', ?Hh'; try (done || lia).
  - intros k Hk Hk'. rewrite En in *. unfold fill. case_decide; [done|by apply (bm_padded _ _ _ _ I)].
  - apply (bm_ram _ _ _ _ I).
  - intros k Hk. apply (bm_free _ _ _ _ I). unfold fill in Hk. by case_decide.
  - intros r [->|Hr']%Hor; [cbn; lia|by apply (bm_region _ _ _ _ I)].
  - intros r x [->|Hr']%Hor Hx; [destruct (Hin x Hx); by apply Hmark|]. destruct (bm_set _ _ _ _ I r x Hr' Hx) as [Hf HF]. split; [|done]. unfold fill. by case_decide.
  - intros r r' x [->|Hr']%Hor [->|Hr'']%Hor Hx Hx'; [done|exfalso; destruct (Hin x Hx); by eapply (Hnew x)|exfalso; destruct (Hin x Hx'); by eapply (Hnew x)|by eapply (bm_disj _ _ _ _ I)].
  - intros Hp. apply Hmark; [lia|by apply Hpart].
  - intros r x Hp [->|Hr']%Hor Hx Hle Ex; [destruct Hx as [_ Hx]; cbn in Hx; lia|]. apply (Hnew x ltac:(lia) ltac:(rewrite Ex; by apply Hpart) r Hr' Hx).
Qed.

(** The block that was found is taken. *)
Lemma take_found_block_runs size ak sidx : 0 <= ak <= 31 → 0 < size → size + 4095 < 2 ^ 32 → 0 <= sidx →
  block_at f min (step_log ak) (PFN_UP size) (node_size d) sidx →
  runs (take_found_block size (2 ^ ak) sidx) d (λ a d', ∃ so f', a = min * 4096 + so ∧ (2 ^ ak | a) ∧ (sidx - 1) * 4096 <= so <= sidx * 4096 ∧ same_node d d' ∧
    boot_inv F f' d' ({[ (so, size) ]} ∪ L) ∧ (so, size) ∉ L).
Proof.
  intros Hk Hsz Hb Hsi (Hd & Hfit & Hclear). destruct (bm_sized _ _ _ _ I) as [Hn1 Hn2]. assert (node_size d < 2 ^ 20) as Hns by (unfold node_size; lia).
  assert (0 < PFN_UP size) as Hn0 by (rewrite PFN_UP_div by lia; dlia). assert (size <= PFN_UP size * 4096) as Hup by (rewrite PFN_UP_div by lia; dlia).
  destruct (start_off_spec ak sidx Hk ltac:(lia) Hd) as [Hal Hso]. unfold take_found_block. apply runs_bind. eapply runs_ok; [done|]. cbn beta. change (id d) with d.
  set (so := if negb _ && _ then _ else _) in *. clearbody so.
  pose proof (bm_last _ _ _ _ I) as Hlast.
  assert ((sidx - 1) * 4096 <= so <= sidx * 4096 ∧ 0 <= so) as [Hr H0] by (destruct Hso as [->|(_ & E1 & Hr)]; [lia|dlia]).
  assert ((min + node_size d) * 4096 + 4095 < 2 ^ 32) as Htop by (unfold node_size; lia).
  destruct (end_page_bound so size sidx Hsz Hb Hr ltac:(lia) H0) as (B1 & B2 & B3 & B4 & B5).
  rewrite (u32_id (so + size)) by (unfold is_u32; lia). rewrite PFN_DOWN_div, PFN_PHYS_mul by lia.
  assert (so / 4096 + (if so / 4096 <? sidx then 1 else 0) = sidx) as -> by (destruct (Z.ltb_spec (so / 4096) sidx); dlia).
  apply runs_bind. eapply runs_ok; [done|]. apply runs_bind. eapply runs_ok; [done|]. apply runs_bind.
  eapply runs_mono; [apply (__reserve_runs f (set_hint_idx (PFN_UP (so + size)) (set_last_end_off (so + size) d)) sidx (PFN_UP (so + size)) true (bm_sized _ _ _ _ I) (bm_bits _ _ _ _ I) Hsi)|].
  { unfold node_size in *. cbn. lia. }
  { intros _ k Hk'. apply Hclear. lia. }
  cbn beta. intros r d' (-> & Hf' & S' & L' & H'). cbn in L', H'. cbn [negb Z.eqb]. apply runs_ret. exists so, (fill true sidx (PFN_UP (so + size)) f).
  assert (same_node d d') as S by (eapply same_node_trans; [|exact S']; done).
  rewrite u32_id by (unfold is_u32; lia). split_and!; [done|done|lia|lia|done|..]; apply (taken_inv so size sidx d'); done.
Qed.

(** The end of the pages that a limit leaves, and where a search with a goal starts. *)
Definition alloc_max (limit : Z) : Z := let l := Z.shiftr limit PAGE_SHIFT in if negb (l =? 0) && (l <? node_low_pfn d) then l else node_low_pfn d.
Definition alloc_first (goal limit : Z) : Z :=
  let g := Z.shiftr goal PAGE_SHIFT in if negb (g =? 0) && (min <? g) && (g <? alloc_max limit) then g - min else 0.

(** What is asked for: a size that is not zero and does not wrap, an alignment, and a limit, if
    any, that leaves room after the goal. *)
Record request_ok (size ak goal limit : Z) : Prop := RequestOk {
  rq_align : 0 <= ak <= 31;
  rq_size : 0 < size ∧ size + 4095 < 2 ^ 32;
  rq_goal : 0 <= goal ∧ goal + size < 2 ^ 32;
  rq_limit : 0 <= limit < 2 ^ 32 ∧ (limit ≠ 0 → goal + size <= limit);
}.

(** A region that was given out, below the limit. *)
Definition gives (size ak limit a : Z) (d' : bootmem_data) : Prop := ∃ so f', a = min * 4096 + so ∧ (2 ^ ak | a) ∧ min * 4096 <= a ∧ a + size <= alloc_max limit * 4096 ∧ same_node d d' ∧
  boot_inv F f' d' ({[ (so, size) ]} ∪ L) ∧ (so, size) ∉ L.

Definition no_place (size ak limit first : Z) : Prop := ∀ s, first <= s → ¬ block_at f min (step_log ak) (PFN_UP size) (alloc_max limit - min) s.

Lemma alloc_max_low limit : 0 <= limit → alloc_max limit <= node_low_pfn d.
Proof. unfold alloc_max. intros _. destruct (negb _ && _) eqn:E; [|lia]. apply andb_true_iff in E as [_ ?%Z.ltb_lt]. lia. Qed.

Lemma take_found_runs size ak goal limit s : request_ok size ak goal limit → 0 <= s → block_at f min (step_log ak) (PFN_UP size) (alloc_max limit - min) s →
  runs (a ← take_found_block size (2 ^ ak) s; mret (Some a)) d (λ r d', ∃ a, r = Some a ∧ gives size ak limit a d').
Proof.
  intros [Hk [Hs1 Hs2] Hg Hl] Hs (Hd & Hfit & Hclear). pose proof (alloc_max_low limit ltac:(lia)) as Hm. apply runs_bind.
  eapply runs_mono; [apply (take_found_block_runs size ak s Hk Hs1 Hs2 Hs); split_and!; [done|unfold node_size; lia|done]|]. cbn beta.
  intros a d' (so & f' & -> & Hal & Hso & S & Hinv & Hnew). apply runs_ret. eexists. split; [done|]. exists so, f'.
  assert (size <= PFN_UP size * 4096) as Hup by (rewrite PFN_UP_div by lia; dlia).
  destruct (bm_region _ _ _ _ Hinv (so, size)) as (H0 & _); [set_solver|]. cbn in H0. split_and!; (done || lia).
Qed.

Lemma pow2_check ak : 0 <= ak <= 31 → Z.land (2 ^ ak) (u32 (2 ^ ak - 1)) = 0.
Proof.
  intros Hk. assert (2 ^ ak <= 2 ^ 31) by (apply Z.pow_le_mono_r; lia). pose proof (pow2_pos ak ltac:(lia)). rewrite u32_id by (unfold is_u32; lia).
  replace (2 ^ ak - 1) with (Z.ones ak) by (rewrite Z.ones_equiv; lia). rewrite Z.land_ones by lia. apply Z.mod_same. lia.
Qed.

Lemma alloc_first_spec goal limit : 0 <= goal → 0 <= limit → 0 <= alloc_first goal limit <= node_size d ∧
  (if negb (Z.shiftr goal PAGE_SHIFT =? 0) && (min <? Z.shiftr goal PAGE_SHIFT) && (Z.shiftr goal PAGE_SHIFT <? alloc_max limit) then Z.shiftr goal PAGE_SHIFT else min) =
    min + alloc_first goal limit.
Proof.
  intros Hg Hl. pose proof (alloc_max_low limit Hl). destruct (bm_sized _ _ _ _ I) as [Hn1 Hn2]. unfold alloc_first, node_size.
  destruct (negb _ && _ && _) eqn:E; [|lia]. apply andb_true_iff in E as [[_ ?%Z.ltb_lt]%andb_true_iff ?%Z.ltb_lt]. lia.
Qed.

(** A search from [from], and the answer for all places from [first] on. *)
Lemma search_runs fuel size ak goal limit first from (again : M bootmem_data (option Z)) : request_ok size ak goal limit → (Z.to_nat (node_size d) < fuel)%nat → 0 <= from →
  ((∀ s, from <= s → ¬ block_at f min (step_log ak) (PFN_UP size) (alloc_max limit - min) s) →
    runs again d (λ r d', match r with Some a => gives size ak limit a d' | None => d' = d ∧ no_place size ak limit first end)) →
  min < alloc_max limit →
  runs (r ← find_block fuel min (PFN_UP size) (2 ^ step_log ak) (alloc_max limit - min) from;
    match r with Some sidx => a ← take_found_block size (2 ^ ak) sidx; mret (Some a) | None => again end) d
    (λ r d', match r with Some a => gives size ak limit a d' | None => d' = d ∧ no_place size ak limit first end).
Proof.
  intros Hq Hfuel Hfrom Hagain Hmax. pose proof Hq as [Hk [Hs1 Hs2] Hg [Hl1 Hl2]]. destruct (bm_sized _ _ _ _ I) as [Hn1 Hn2]. pose proof (alloc_max_low limit ltac:(lia)) as Hm.
  destruct (find_block_runs f d (bm_sized _ _ _ _ I) (bm_bits _ _ _ _ I) min (step_log ak) ltac:(lia) ltac:(unfold step_log; lia) ltac:(unfold node_size; lia)
    (PFN_UP size) (alloc_max limit - min) fuel ltac:(rewrite PFN_UP_div by lia; dlia) ltac:(unfold node_size; lia) from Hfrom ltac:(unfold node_size in *; lia)) as (r & E & Hr).
  apply runs_bind. eapply runs_ok; [exact E|]. destruct r as [s|]; [|by apply Hagain]. destruct Hr as [Hs Hb].
  eapply runs_mono; [apply (take_found_runs size ak goal limit s Hq ltac:(lia) Hb)|]. cbn beta. by intros r d' (a & -> & Ha).
Qed.

Lemma alloc_bootmem_core_runs fuel size ak goal limit : request_ok size ak goal limit → (Z.to_nat (node_size d) < fuel)%nat →
  runs (alloc_bootmem_core fuel size (2 ^ ak) goal limit) d (λ r d', match r with
    | Some a => gives size ak limit a d'
    | None => d' = d ∧ no_place size ak limit (alloc_first goal limit)
    end).
Proof.
  intros Hq Hfuel. pose proof Hq as [Hk [Hs1 Hs2] Hg [Hl1 Hl2]]. destruct (bm_sized _ _ _ _ I) as [Hn1 Hn2]. unfold alloc_bootmem_core.
  rewrite (proj2 (Z.eqb_neq size 0)), pow2_check by lia. apply runs_bind; eapply runs_ok; [done|]. apply runs_bind; eapply runs_ok; [done|].
  assert (negb (limit =? 0) && (limit <? u32 (goal + size)) = false) as ->.
  { rewrite u32_id by (unfold is_u32; lia). destruct (Z.eqb_spec limit 0); [done|]. cbn. apply Z.ltb_ge. lia. }
  apply runs_bind; eapply runs_ok; [done|]. apply runs_bind; eapply runs_ok; [done|]. change (id d) with d. cbv beta zeta. destruct (bm_bits _ _ _ _ I) as (m & -> & _).
  fold (alloc_max limit). destruct (alloc_first_spec goal limit ltac:(lia) ltac:(lia)) as [Hfirst Ef].
  assert (0 < PFN_UP size) as Hn0 by (rewrite PFN_UP_div by lia; dlia).
  destruct (Z.leb_spec (alloc_max limit) min) as [Hle|Hlt].
  { apply runs_ret. split; [done|]. intros s Hs (_ & Hc & _). lia. }
  rewrite step_of by done. set (first := alloc_first goal limit) in *.
  destruct (align_idx_spec d min (step_log ak) ltac:(lia) ltac:(unfold step_log; lia) ltac:(unfold node_size; lia) first Hfirst) as (A1 & A2 & A3).
  assert (∀ (b : bool) x y, (if b then ALIGN x (2 ^ step_log ak) else ALIGN y (2 ^ step_log ak)) = ALIGN (if b then x else y) (2 ^ step_log ak)) as -> by by intros [].
  rewrite Ef. replace (u32 (ALIGN (min + first) (2 ^ step_log ak) - min)) with (align_idx min first (2 ^ step_log ak)).
  2:{ unfold align_idx. f_equal. f_equal. f_equal. apply u32_id. unfold is_u32, node_size in *. lia. }
  set (sidx := align_idx min first _) in *. destruct (Z.ltb_spec sidx (hint_idx d)) as [Hh|Hh].
  - pose proof (bm_hint _ _ _ _ I) as Hhint.
    destruct (align_idx_spec d min (step_log ak) ltac:(lia) ltac:(unfold step_log; lia) ltac:(unfold node_size; lia) (hint_idx d) Hhint) as (_ & B2 & _).
    apply search_runs with goal; [done|done|lia| |done]. intros _. rewrite (proj2 (Z.eqb_neq (sidx + 1) 0)) by lia.
    replace (sidx + 1 - 1) with sidx by lia.
    destruct (align_idx_spec d min (step_log ak) ltac:(lia) ltac:(unfold step_log; lia) ltac:(unfold node_size; lia) sidx ltac:(lia)) as (_ & C2 & C3).
    apply search_runs with goal; [done|done|lia| |done]. intros Hno. apply runs_ret. split; [done|]. intros s Hs Hb. apply (Hno s); [|done]. apply C3; [|apply Hb]. apply A3; [done|apply Hb].
  - apply search_runs with goal; [done|done|lia| |done]. intros Hno. cbn [Z.eqb]. apply runs_ret. split; [done|]. intros s Hs Hb. apply (Hno s); [|done]. apply A3; [done|apply Hb].
Qed.

(** A request at any place: if there is no memory for it after the goal it is tried without. *)
Lemma alloc_nopanic_runs fuel size ak goal limit : request_ok size ak goal limit → (Z.to_nat (node_size d) < fuel)%nat →
  runs (___alloc_bootmem_nopanic fuel size (2 ^ ak) goal limit) d (λ r d', match r with
    | Some a => gives size ak limit a d'
    | None => d' = d ∧ (limit ≠ 0 ∧ limit / 4096 <= min ∨ no_place size ak limit 0)
    end).
Proof.
  intros Hq Hfuel. pose proof Hq as [Hk Hs Hg [Hl1 Hl2]]. destruct (bm_sized _ _ _ _ I) as [Hn1 Hn2].
  assert (∀ goal', 0 <= goal' <= goal → runs (d ← gets id;
      if negb (goal' =? 0) && (node_low_pfn d <=? PFN_DOWN goal') then mret None
      else if negb (limit =? 0) && (PFN_DOWN limit <=? node_min_pfn d) then mret None else alloc_bootmem_core fuel size (2 ^ ak) goal' limit) d
    (λ r d', match r with Some a => gives size ak limit a d' | None => d' = d ∧ (goal' = 0 → limit ≠ 0 ∧ limit / 4096 <= min ∨ no_place size ak limit 0) end)) as Htry.
  { intros goal' Hg'. apply runs_bind. eapply runs_ok; [done|]. change (id d) with d. destruct (negb (goal' =? 0) && _) eqn:E1.
    { apply runs_ret. split; [done|]. intros ->. done. }
    rewrite PFN_DOWN_div. destruct (Z.eqb_spec limit 0) as [El|El]; cbn [negb andb].
    2:{ destruct (Z.leb_spec (limit / 4096) min); [apply runs_ret; split; [done|]; intros _; by left|].
        eapply runs_mono; [apply (alloc_bootmem_core_runs fuel size ak goal' limit); [constructor; (done || lia)|done]|]. cbn beta.
        intros [a|] d' H'; [done|]. destruct H' as [-> H']. split; [done|]. intros ->. by right. }
    eapply runs_mono; [apply (alloc_bootmem_core_runs fuel size ak goal' limit); [constructor; (done || lia)|done]|]. cbn beta.
    intros [a|] d' H'; [done|]. destruct H' as [-> H']. split; [done|]. intros ->. by right. }
  unfold ___alloc_bootmem_nopanic. apply runs_bind. eapply runs_mono; [apply (Htry goal); lia|]. cbn beta. intros [a|] d' H'; [by apply runs_ret|]. destruct H' as [-> H'].
  destruct (Z.eqb_spec goal 0) as [E|E]; [apply runs_ret; split; [done|by apply H']|]. eapply runs_mono; [apply (Htry 0); lia|]. cbn beta.
  intros [a|] d' H''; [done|]. destruct H'' as [-> H'']. split; [done|by apply H''].
Qed.
End alloc.

(** ** Freeing and reserving *)

Lemma free_bootmem_runs f d addr size start end_ : node_sized d → bits_are f d → PFN_UP addr = start → PFN_DOWN (u32 (addr + size)) = end_ →
  node_min_pfn d <= start < node_low_pfn d → node_min_pfn d <= end_ <= node_low_pfn d → (∀ k, start - node_min_pfn d <= k < end_ - node_min_pfn d → f k = true) →
  runs (free_bootmem addr size) d (λ _ d', bits_are (fill false (start - node_min_pfn d) (end_ - node_min_pfn d) f) d' ∧ same_node d d' ∧ last_end_off d' = last_end_off d ∧
    (hint_idx d' = hint_idx d ∨ hint_idx d' = start - node_min_pfn d)).
Proof.
  intros Hs Hf Es Ee Hst He Hset. pose proof Hs as [Hn1 Hn2]. unfold free_bootmem, mark_bootmem. rewrite Es, Ee. apply runs_bind, runs_bind. eapply runs_ok; [done|]. change (id d) with d.
  rewrite (proj2 (Z.ltb_ge start _)), (proj2 (Z.leb_gt _ start)) by lia. cbn [orb]. rewrite Z.min_r by lia. apply runs_bind. unfold mark_bootmem_node.
  apply runs_bind. eapply runs_ok; [done|]. change (id d) with d. rewrite (proj2 (Z.ltb_ge start _)), (proj2 (Z.ltb_ge (node_low_pfn d) end_)) by lia.
  apply runs_bind. eapply runs_ok; [done|]. apply runs_bind. eapply runs_ok; [done|]. rewrite !u32_id by (unfold is_u32; lia).
  apply runs_bind. eapply runs_mono; [apply (__free_runs f d); [done|done|lia|unfold node_size; lia|done]|]. cbn beta. intros _ d' Hd'.
  apply runs_ret. cbn [andb]. rewrite Z.eqb_refl. apply runs_ret. by apply runs_ret.
Qed.

(** A reservation that does not have to be exclusive. *)
Lemma reserve_bootmem_runs f d addr size start end_ : node_sized d → bits_are f d → PFN_DOWN addr = start → PFN_UP (u32 (addr + size)) = end_ →
  node_min_pfn d <= start < node_low_pfn d → node_min_pfn d <= end_ <= node_low_pfn d →
  runs (reserve_bootmem addr size false) d (λ r d', r = 0 ∧ bits_are (fill true (start - node_min_pfn d) (end_ - node_min_pfn d) f) d' ∧ same_node d d' ∧
    last_end_off d' = last_end_off d ∧ hint_idx d' = hint_idx d).
Proof.
  intros Hs Hf Es Ee Hst He. pose proof Hs as [Hn1 Hn2]. unfold reserve_bootmem, mark_bootmem. rewrite Es, Ee. apply runs_bind. eapply runs_ok; [done|]. change (id d) with d.
  rewrite (proj2 (Z.ltb_ge start _)), (proj2 (Z.leb_gt _ start)) by lia. cbn [orb]. rewrite Z.min_r by lia. apply runs_bind. unfold mark_bootmem_node.
  apply runs_bind. eapply runs_ok; [done|]. change (id d) with d. rewrite (proj2 (Z.ltb_ge start _)), (proj2 (Z.ltb_ge (node_low_pfn d) end_)) by lia.
  apply runs_bind. eapply runs_ok; [done|]. apply runs_bind. eapply runs_ok; [done|]. rewrite !u32_id by (unfold is_u32; lia).
  eapply runs_mono; [apply (__reserve_runs f d); [done|done|lia|unfold node_size; lia|done]|]. cbn beta. intros r d' [-> Hd'].
  cbn [andb negb Z.eqb]. rewrite Z.eqb_refl. by apply runs_ret.
Qed.

(** A region in use is given back; it must not start within the last page. *)
Lemma free_region_runs F f d L so size : boot_inv F f d L → (so, size) ∈ L → (so + 4095) / 4096 < node_size d →
  runs (free_bootmem (node_min_pfn d * 4096 + so) size) d (λ _ d', same_node d d' ∧ ∃ f', boot_inv F f' d' (L ∖ {[ (so, size) ]})).
Proof.
  intros I Hr Hlast. destruct (bm_sized _ _ _ _ I) as [Hn1 Hn2]. destruct (bm_region _ _ _ _ I _ Hr) as (H0 & Hsz & Hend). cbn in H0, Hsz, Hend. unfold node_size in *.
  set (a := (so + 4095) / 4096) in *. set (b := (so + size) / 4096).
  assert (∀ x, a <= x / 4096 < b → in_region (so, size) x) as Hin by (intros x; unfold a, b, in_region; cbn; dlia).
  assert (∀ k, a <= k < b → f k = true ∧ F k = true) as Hset.
  { intros k Hk. pose proof (bm_set _ _ _ _ I _ (k * 4096) Hr) as H. rewrite Z.div_mul in H by done. apply H, Hin. by rewrite Z.div_mul. }
  eapply runs_mono; [apply (free_bootmem_runs f d _ _ (node_min_pfn d + a) (node_min_pfn d + b)); [apply I|apply I|..]|].
  - rewrite PFN_UP_div by lia. unfold a. dlia.
  - rewrite u32_id by (unfold is_u32; lia). rewrite PFN_DOWN_div. unfold b. dlia.
  - unfold a in *. dlia.
  - unfold b in *. dlia.
  - intros k Hk. apply Hset. lia.
  - cbn beta. intros _ d' (Hf' & S & L' & H'). split; [done|]. replace (node_min_pfn d + a - node_min_pfn d) with a in * by lia.
    replace (node_min_pfn d + b - node_min_pfn d) with b in * by lia. exists (fill false a b f). destruct (same_node_sized _ _ S (bm_sized _ _ _ _ I)) as [Hs' En]. unfold node_size in En.
    constructor; unfold node_size; rewrite ?En, ?L'; try done.
    + intros k Hk Hk'. unfold node_size in *. rewrite En in *. unfold fill. rewrite decide_False by (unfold b in *; dlia). by apply (bm_padded _ _ _ _ I).
    + apply (bm_ram _ _ _ _ I).
    + intros k Hk Hk'. unfold fill in Hk. case_decide; [by apply Hset|]. by apply (bm_free _ _ _ _ I).
    + intros r [Hr' _]%elem_of_difference. by apply (bm_region _ _ _ _ I).
    + intros r x [Hr' Hne]%elem_of_difference Hx. destruct (bm_set _ _ _ _ I r x Hr' Hx). split; [|done]. unfold fill. case_decide; [|done].
      destruct Hne. rewrite (bm_disj _ _ _ _ I r (so, size) x); [set_solver|done|done|done|by apply Hin].
    + intros r r' x [Hr1 _]%elem_of_difference [Hr2 _]%elem_of_difference. by apply (bm_disj _ _ _ _ I).
    + pose proof (bm_hint _ _ _ _ I). unfold node_size in *. assert (0 <= a) by (unfold a; dlia). lia.
    + apply (bm_last _ _ _ _ I).
    + intros Hp. destruct (bm_last_page _ _ _ _ I Hp). split; [|done]. unfold fill. case_decide; [|done].
      exfalso. by eapply (bm_last_rest _ _ _ _ I (so, size) (last_end_off d)); [done|done|apply Hin|..].
    + intros r x Hp [Hr' _]%elem_of_difference. by apply (bm_last_rest _ _ _ _ I).
Qed.


(** ** The memory that is registered *)

(** Regions as first page and end, in the order of their first pages, from [lo] on; if
    [apart], they do not overlap. *)
Fixpoint regions_from (apart : bool) (lo : Z) (l : list (Z * Z)) : Prop :=
  match l with
  | [] => True
  | (s, e) :: l => lo <= s < e ∧ regions_from apart (if apart then e else s) l
  end.

Definition in_regions (l : list (Z * Z)) (p : Z) : bool := existsb (λ r, (r.1 <=? p) && (p <? r.2)) l.

Lemma in_regions_from apart l : ∀ lo p, regions_from apart lo l → in_regions l p = true → lo <= p.
Proof.
  induction l as [|[s e] l IH]; intros lo p Hl Hp; [done|]. destruct Hl as [Hs Hl]. cbn in Hp. apply orb_true_iff in Hp as [[?%Z.leb_le _]%andb_true_iff|Hp]; [lia|].
  pose proof (IH _ _ Hl Hp). destruct apart; lia.
Qed.

Lemma in_regions_cons s e l p : in_regions ((s, e) :: l) p = ((s <=? p) && (p <? e)) || in_regions l p.
Proof. done. Qed.

(** Bits of pages of the node that lie in one of the regions are given the value [v]. *)
Definition marked (v : bool) (l : list (Z * Z)) (min low : Z) (f : Z → bool) : Z → bool := λ k,
  if decide (0 <= k < low - min) then if in_regions l (min + k) then v else f k else f k.

Lemma marked_cons v s e l min low f k : min <= s → let e' := if low <=? e then low else e in
  marked v l min low (fill v (s - min) (e' - min) f) k = marked v ((s, e) :: l) min low f k.
Proof.
  intros Hs e'. unfold marked, fill. rewrite in_regions_cons. destruct (decide (0 <= k < low - min)) as [Hk|Hk].
  - destruct (in_regions l (min + k)); [by rewrite orb_true_r|]. rewrite orb_false_r. unfold e'.
    destruct (Z.leb_spec low e), (Z.leb_spec s (min + k)), (Z.ltb_spec (min + k) e), (decide _); cbn; (done || lia).
  - rewrite decide_False; [done|]. unfold e'. destruct (Z.leb_spec low e); lia.
Qed.

Lemma marked_beyond apart v l min low f k : regions_from apart low l → marked v l min low f k = f k.
Proof. intros Hl. unfold marked. case_decide; [|done]. destruct (in_regions l (min + k)) eqn:E; [|done]. pose proof (in_regions_from _ _ _ _ Hl E). lia. Qed.

(** What stays the same, and the hint. *)
Definition registered (f : Z → bool) (d d' : bootmem_data) : Prop :=
  bits_are f d' ∧ same_node d d' ∧ last_end_off d' = last_end_off d ∧ 0 <= hint_idx d' <= node_size d.

Lemma page_bounds d start end_ : node_sized d → node_min_pfn d <= start < end_ → end_ <= node_low_pfn d →
  let addr := PFN_PHYS start in let size := u32 (Z.shiftl (end_ - start) PAGE_SHIFT) in
  PFN_UP addr = start ∧ PFN_DOWN addr = start ∧ PFN_UP (u32 (addr + size)) = end_ ∧ PFN_DOWN (u32 (addr + size)) = end_.
Proof.
  intros [Hn1 Hn2] Hs He. cbv zeta. rewrite PFN_PHYS_mul by lia. rewrite Z.shiftl_mul_pow2 by done. change (2 ^ PAGE_SHIFT) with 4096.
  rewrite (u32_id ((end_ - start) * 4096)) by (unfold is_u32; lia). rewrite u32_id by (unfold is_u32; lia). rewrite !PFN_UP_div, !PFN_DOWN_div by lia. split_and!; dlia.
Qed.

Lemma free_banks_runs banks : ∀ lo f d, node_sized d → bits_are f d → 0 <= hint_idx d <= node_size d → node_min_pfn d <= lo → regions_from true lo banks →
  (∀ k, lo - node_min_pfn d <= k < node_size d → f k = true) →
  runs (free_banks banks (node_low_pfn d)) d (λ _ d', registered (marked false banks (node_min_pfn d) (node_low_pfn d) f) d d').
Proof.
  induction banks as [|[s e] banks IH]; intros lo f d Hs Hf Hh Hlo Hl Hset; cbn [free_banks].
  { apply runs_ret. split_and!; [|done|done|lia|lia]. eapply bits_ext; [|exact Hf]. intros k. symmetry. by apply (marked_beyond true). }
  destruct Hl as [Hse Hl]. set (e' := if node_low_pfn d <=? e then node_low_pfn d else e). assert (e' <= node_low_pfn d ∧ (s < node_low_pfn d → s < e' <= e)) as [He' He].
  { unfold e'. destruct (Z.leb_spec (node_low_pfn d) e); lia. }
  destruct (Z.leb_spec e' s) as [Hout|Hin].
  { apply runs_ret. split_and!; [|done|done|lia|lia]. eapply bits_ext; [|exact Hf]. intros k. symmetry. apply (marked_beyond true). cbn. split; [lia|done]. }
  destruct (page_bounds d s e' Hs ltac:(lia) He') as (P1 & _ & _ & P2). apply runs_bind.
  eapply runs_mono; [apply (free_bootmem_runs f d _ _ s e' Hs Hf P1 P2); [lia|lia|intros k Hk; apply Hset; unfold node_size; lia]|]. cbn beta.
  intros _ d1 (Hf1 & S1 & L1 & H1). destruct (same_node_sized _ _ S1 Hs) as [Hs1 En]. destruct S1 as (E1 & E2 & E3). rewrite <- E2.
  assert (e' <= e) as Hee by (apply He; lia). eapply runs_mono; [apply (IH e _ d1 Hs1 Hf1)|].
  - rewrite En. destruct H1 as [->| ->]; [done|]. unfold node_size. lia.
  - lia.
  - done.
  - intros k Hk. rewrite En in Hk. unfold fill. rewrite decide_False by lia. apply Hset. lia.
  - cbn beta. intros _ d2 (Hf2 & S2 & L2 & H2). rewrite En in H2. split; [|split; [by apply (same_node_trans _ d1)|split; [congruence|done]]].
    rewrite E1, E2 in Hf2. eapply bits_ext; [|exact Hf2]. intros k. rewrite E2. apply marked_cons. lia.
Qed.

Lemma reserve_regions_runs regions : ∀ lo f d, node_sized d → bits_are f d → 0 <= hint_idx d <= node_size d → node_min_pfn d <= lo → regions_from false lo regions →
  runs (reserve_regions regions (node_low_pfn d)) d (λ _ d', registered (marked true regions (node_min_pfn d) (node_low_pfn d) f) d d').
Proof.
  induction regions as [|[s e] regions IH]; intros lo f d Hs Hf Hh Hlo Hl; cbn [reserve_regions].
  { apply runs_ret. split_and!; [|done|done|lia|lia]. eapply bits_ext; [|exact Hf]. intros k. symmetry. by apply (marked_beyond false). }
  destruct Hl as [Hse Hl]. set (e' := if node_low_pfn d <=? e then node_low_pfn d else e). assert (e' <= node_low_pfn d) as He' by (unfold e'; destruct (Z.leb_spec (node_low_pfn d) e); lia).
  destruct (Z.leb_spec e' s) as [Hout|Hin].
  { apply runs_ret. split_and!; [|done|done|lia|lia]. eapply bits_ext; [|exact Hf]. intros k. symmetry. apply (marked_beyond false). cbn. split; [|done].
    unfold e' in Hout. destruct (Z.leb_spec (node_low_pfn d) e); lia. }
  destruct (page_bounds d s e' Hs ltac:(lia) He') as (_ & P1 & P2 & _). apply runs_bind.
  eapply runs_mono; [apply (reserve_bootmem_runs f d _ _ s e' Hs Hf P1 P2); lia|]. cbn beta.
  intros _ d1 (_ & Hf1 & S1 & L1 & H1). destruct (same_node_sized _ _ S1 Hs) as [Hs1 En]. destruct S1 as (E1 & E2 & E3). rewrite <- E2.
  eapply runs_mono; [apply (IH s _ d1 Hs1 Hf1); [by rewrite En, H1|lia|done]|].
  cbn beta. intros _ d2 (Hf2 & S2 & L2 & H2). rewrite En in H2. split; [|split; [by apply (same_node_trans _ d1)|split; [congruence|done]]].
  rewrite E1, E2 in Hf2. eapply bits_ext; [|exact Hf2]. intros k. rewrite E2. apply marked_cons. lia.
Qed.

(** The pages of the node, counted from its start, that are memory and not reserved. *)
Definition boot_pages (min low : Z) (memory reserved : list (Z * Z)) (k : Z) : bool :=
  bool_decide (0 <= k < low - min) && in_regions memory (min + k) && negb (in_regions reserved (min + k)).

Lemma bootmap_words pages : 0 < pages < 2 ^ 31 → (pages - 1) / 32 < bootmap_bytes pages / 4.
Proof.
  intros Hp. pose proof (bootmap_bits pages ltac:(lia)). assert (bootmap_bytes pages mod 4 = 0) as Hm; [|dlia]. unfold bootmap_bytes.
  rewrite (u32_id (pages + 7)) by (unfold is_u32; lia). set (q := (pages + 7) / 8) in *. assert (0 <= q < 2 ^ 29) by (unfold q; dlia). rewrite (u32_id (q + 3)) by (unfold is_u32; lia).
  change (Z.lnot 3) with (Z.lnot (2 ^ 2 - 1)). rewrite u32_mask by (unfold is_u32; lia). change (2 ^ 2) with 4. dlia.
Qed.

(** Static data is zero. *)
Definition unused (d : bootmem_data) : Prop := last_end_off d = 0 ∧ hint_idx d = 0.

Lemma arm_bootmem_init_runs min low bitmap memory reserved d : unused d → 0 <= min < low → low < 2 ^ 20 → regions_from true min memory → regions_from false min reserved →
  runs (arm_bootmem_init min low bitmap memory reserved) d (λ _ d', node_min_pfn d' = min ∧ node_low_pfn d' = low ∧ bootmem_map_pfn d' = bitmap ∧
    ∃ f, boot_inv (boot_pages min low memory reserved) f d' ∅).
Proof.
  intros [Hl0 Hh0] Hm Hl Hmem Hres. unfold arm_bootmem_init. apply runs_bind. eapply runs_ok; [done|]. set (d0 := init_bootmem_core bitmap min low d).
  set (f0 := λ k, (0 <=? k / 32) && (k / 32 <? bootmap_bytes (low - min) / 4)).
  assert (bits_are f0 d0) as Hf0.
  { eexists. split; [done|]. intros k. unfold bit_of, f0. change BITS_PER_LONG with 32. pose proof (Z.mod_pos_bound k 32 ltac:(done)). destruct (_ && _); [|apply Z.bits_0].
    change (2 ^ 32 - 1) with (Z.ones 32). by apply Z.ones_spec_low. }
  assert (node_sized d0) as Hs0 by done. pose proof (bootmap_words (low - min) ltac:(lia)) as Hw.
  assert (∀ k, 0 <= k → k / 32 <= (low - min - 1) / 32 → f0 k = true) as Hf0t by (intros k Hk Hk'; unfold f0; apply andb_true_iff; split; [apply Z.leb_le; dlia|apply Z.ltb_lt; lia]).
  apply runs_bind. eapply runs_mono; [apply (free_banks_runs memory min f0 d0 Hs0 Hf0); [unfold node_size; cbn; rewrite Hh0; lia|done|done|]|].
  { intros k Hk. cbn in Hk. unfold node_size in Hk. cbn in Hk. apply Hf0t; [lia|]. apply Z.div_le_mono; lia. }
  cbn beta. intros _ d1 (Hf1 & S1 & L1 & H1). destruct (same_node_sized _ _ S1 Hs0) as [Hs1 En]. destruct S1 as (E1 & E2 & E3). change low with (node_low_pfn d0) at 1. rewrite <- E2.
  eapply runs_mono; [apply (reserve_regions_runs reserved min _ d1 Hs1 Hf1); [by rewrite En|by rewrite E1|done]|]. cbn beta.
  intros _ d2 (Hf2 & S2 & L2 & H2). destruct (same_node_sized _ _ S2 Hs1) as [Hs2 En2]. destruct S2 as (G1 & G2 & G3). rewrite E1, E2 in *. cbn in G1, G2, E3, L1.
  split_and!; [congruence|congruence|congruence|]. eexists. rewrite En in *. unfold node_size in En, En2, H2. cbn in En, En2, H2.
  constructor; unfold node_size; rewrite ?G1, ?G2, ?En2, ?L2, ?L1, ?Hl0; try (done || lia).
  - intros k Hk Hk'. unfold node_size in *. rewrite G1, G2 in *. unfold marked. cbn. rewrite !decide_False by lia. apply Hf0t; [lia|done].
  - intros k. unfold boot_pages. intros [[?%bool_decide_eq_true _]%andb_true_iff _]%andb_true_iff. lia.
  - intros k Hk Hk'. unfold boot_pages. rewrite bool_decide_eq_true_2 by lia. unfold marked in Hk. cbn in Hk. rewrite !decide_True in Hk by lia.
    destruct (in_regions reserved (min + k)); [done|]. destruct (in_regions memory (min + k)); [done|]. rewrite Hf0t in Hk; [done|lia|]. apply Z.div_le_mono; lia.
Qed.

(** ** Allocations and frees *)

(** One call: a request, which may be refused, or the free of a region in use that does not
    start within the last page.  Regions are counted from the start of the node. *)
Inductive boot_step : bootmem_data * gset (Z * Z) → bootmem_data * gset (Z * Z) → Prop :=
  | boot_alloc fuel size ak goal limit d L d' so :
      request_ok size ak goal limit → (Z.to_nat (node_size d) < fuel)%nat →
      ___alloc_bootmem_nopanic fuel size (2 ^ ak) goal limit d = Ok (Some (node_min_pfn d * 4096 + so), d') →
      boot_step (d, L) (d', {[ (so, size) ]} ∪ L)
  | boot_refuse fuel size ak goal limit d L d' :
      request_ok size ak goal limit → (Z.to_nat (node_size d) < fuel)%nat →
      ___alloc_bootmem_nopanic fuel size (2 ^ ak) goal limit d = Ok (None, d') →
      boot_step (d, L) (d', L)
  | boot_free d L d' so size :
      (so, size) ∈ L → (so + 4095) / 4096 < node_size d →
      free_bootmem (node_min_pfn d * 4096 + so) size d = Ok ((), d') →
      boot_step (d, L) (d', L ∖ {[ (so, size) ]}).

Lemma boot_step_inv F f d L c : boot_inv F f d L → boot_step (d, L) c → same_node d c.1 ∧ ∃ f', boot_inv F f' c.1 c.2.
Proof.
  intros I Hc. inversion Hc as [fuel size ak goal limit ? ? d' so Hq Hf E|fuel size ak goal limit ? ? d' Hq Hf E|? ? d' so size Hr Hl E]; subst; cbn.
  - destruct (alloc_nopanic_runs F f d L I fuel size ak goal limit Hq Hf) as (r & d2 & E2 & H2). rewrite E in E2. simplify_eq. destruct H2 as (so' & f' & Ea & _ & _ & _ & S & I' & _).
    replace so' with so in I' by lia. split; [done|by exists f'].
  - destruct (alloc_nopanic_runs F f d L I fuel size ak goal limit Hq Hf) as (r & d2 & E2 & H2). rewrite E in E2. simplify_eq. destruct H2 as [-> _]. split; [done|by exists f].
  - destruct (free_region_runs F f d L so size I Hr Hl) as (r & d2 & E2 & H2). rewrite E in E2. by simplify_eq.
Qed.

Lemma boot_steps_inv F c c' : rtc boot_step c c' → ∀ f, boot_inv F f c.1 c.2 → same_node c.1 c'.1 ∧ ∃ f', boot_inv F f' c'.1 c'.2.
Proof.
  induction 1 as [[d L]|[d L] [d1 L1] [d2 L2] H1 _ IH]; intros f I; [split; [done|by exists f]|].
  destruct (boot_step_inv _ _ _ _ _ I H1) as [S1 (f1 & I1)]. destruct (IH _ I1) as [S2 H2]. split; [by eapply same_node_trans|done].
Qed.

(** The memory of the machine is registered, and used from then on. *)
Lemma booted_inv min low bitmap memory reserved d0 d1 d L : unused d0 → 0 <= min < low → low < 2 ^ 20 → regions_from true min memory → regions_from false min reserved →
  arm_bootmem_init min low bitmap memory reserved d0 = Ok ((), d1) → rtc boot_step (d1, ∅) (d, L) →
  node_min_pfn d = min ∧ node_low_pfn d = low ∧ bootmem_map_pfn d = bitmap ∧ ∃ f, boot_inv (boot_pages min low memory reserved) f d L.
Proof.
  intros H0 Hm Hl Hmem Hres E Hs. destruct (arm_bootmem_init_runs min low bitmap memory reserved d0 H0 Hm Hl Hmem Hres) as (u & d1' & E' & E1 & E2 & E3 & f & I). rewrite E in E'. simplify_eq.
  destruct (boot_steps_inv _ _ _ Hs f I) as [(S1 & S2 & S3) H]. cbn in *. split_and!; congruence || done.
Qed.

(** A run of [n] pages that starts at an index where an address is aligned and whose bits are
    not set. *)
Definition free_run (d : bootmem_data) (ak n midx s : Z) : Prop :=
  0 <= s ∧ (2 ^ step_log ak | node_min_pfn d + s) ∧ s + n <= midx ∧ ∀ k, s <= k < s + n → test_bit k d = Ok (false, d).

Lemma no_place_run F f d L size ak limit s : boot_inv F f d L → 0 <= limit → 0 < PFN_UP size → no_place f d size ak limit 0 → ¬ free_run d ak (PFN_UP size) (alloc_max d limit - node_min_pfn d) s.
Proof.
  intros I Hl Hn Hno (H0 & Hd & Hfit & Hrun). apply (Hno s H0). split; [done|]. split; [done|]. intros k Hk. pose proof (alloc_max_low d limit Hl).
  pose proof (Hrun k Hk) as E. rewrite (test_bit_run f d k) in E; [by simplify_eq|apply I|apply I|unfold node_size; lia].
Qed.


(** Memory that starts within the last page of the node cannot be freed: the page after its
    start is not one of the node, so no node is found. *)
Theorem free_in_last_page_faults d so size : node_sized d → (node_size d - 1) * 4096 < so < node_size d * 4096 →
  free_bootmem (node_min_pfn d * 4096 + so) size d = Err (BugOn 351).
Proof.
  intros [Hn1 Hn2] Hso. unfold node_size in Hso. unfold free_bootmem. apply bind_Err. unfold mark_bootmem. erewrite bind_Ok by done. change (id d) with d.
  rewrite PFN_UP_div by lia. rewrite (proj2 (Z.leb_le (node_low_pfn d) _)) by dlia. by rewrite orb_true_r.
Qed.

(** ** A node of 64 pages *)

Section demo.

(** The value and the state that a call leaves. *)
Definition value_left {S A} (r : res (A * S)) : option A := match r with Ok (a, _) => Some a | Err _ => None end.
Definition state_left {S A} (s : S) (r : res (A * S)) : S := match r with Ok (_, s') => s' | Err _ => s end.

Lemma result_left {S A} (s : S) (r : res (A * S)) a : value_left r = Some a → r = Ok (a, state_left s r).
Proof. destruct r as [[a' s']|e]; [|done]. cbn. by intros [= ->]. Qed.

(** Its first two pages are reserved, the second for the bitmap; 5000 bytes are allocated, then
    100, which continue in the last page of the first region, and the first region is freed. *)
Definition demo_fresh : bootmem_data := BootmemData 0 0 None 0 0 0.
Definition demo_init : res (() * bootmem_data) := arm_bootmem_init 0 64 1 [(0, 64)] [(0, 2)] demo_fresh.
Definition demo_boot0 : bootmem_data := state_left demo_fresh demo_init.
Definition demo_alloc1 : res (option Z * bootmem_data) := ___alloc_bootmem_nopanic 65 5000 (2 ^ 3) 0 0 demo_boot0.
Definition demo_boot1 : bootmem_data := state_left demo_fresh demo_alloc1.
Definition demo_alloc2 : res (option Z * bootmem_data) := ___alloc_bootmem_nopanic 65 100 (2 ^ 3) 0 0 demo_boot1.
Definition demo_boot2 : bootmem_data := state_left demo_fresh demo_alloc2.
Definition demo_freed : res (() * bootmem_data) := free_bootmem 8192 5000 demo_boot2.
Definition demo_boot : bootmem_data := state_left demo_fresh demo_freed.
Definition demo_live : gset (Z * Z) := ({[ (13192, 100) ]} ∪ ({[ (8192, 5000) ]} ∪ ∅)) ∖ {[ (8192, 5000) ]}.

Lemma demo_inited : arm_bootmem_init 0 64 1 [(0, 64)] [(0, 2)] demo_fresh = Ok ((), demo_boot0).
Proof. unfold demo_boot0, demo_init. apply result_left. vm_compute. reflexivity. Qed.

Lemma demo_boot_steps : rtc boot_step (demo_boot0, ∅) (demo_boot, demo_live).
Proof.
  eapply rtc_l; [|eapply rtc_l; [|eapply rtc_l; [|reflexivity]]].
  - apply (boot_alloc 65 5000 3 0 0 demo_boot0 ∅ demo_boot1 8192); [constructor; lia|vm_compute; lia|]. unfold demo_boot1, demo_alloc1. apply result_left. vm_compute. reflexivity.
  - apply (boot_alloc 65 100 3 0 0 demo_boot1 _ demo_boot2 13192); [constructor; lia|vm_compute; lia|]. unfold demo_boot2, demo_alloc2. apply result_left. vm_compute. reflexivity.
  - apply (boot_free demo_boot2 _ demo_boot 8192 5000); [set_solver|vm_compute; reflexivity|]. unfold demo_boot, demo_freed. apply result_left. vm_compute. reflexivity.
Qed.


(** Bytes of the page in which the last allocation ended are not kept for a reservation that is
    not exclusive: 100 bytes at 14000 are reserved, and the next region contains them. *)
Theorem reserved_bytes_given_out : ∃ d d', reserve_bootmem 14000 100 false demo_boot1 = Ok (0, d) ∧ ___alloc_bootmem_nopanic 65 5000 (2 ^ 3) 0 0 d = Ok (Some 13192, d').
Proof. do 2 eexists. split; apply (result_left demo_fresh); vm_compute; reflexivity. Qed.
End demo.
