(* ===== verification/BuddyBoot.v ===== *)
(** * The page allocator at boot

    Models the setting up of a zone in [goldfish/mm/page_alloc.c] (the part of
    [free_area_init_core] for one zone with [memmap_init_zone] and [zone_init_free_lists],
    and the sizes of the lists of the CPU: [zone_batchsize], [setup_pageset],
    [setup_zone_pageset]), and the handing over of the memory that the boot allocator did not
    use, [free_all_bootmem_core] of [goldfish/mm/bootmem.c].  The theorems show that this
    establishes the invariant of the allocator. *)

From S2P Require Import Prelude Hoare ArmPgtable Remap Lru Vmscan VmscanZone Watermark Buddy BuddyBlocks BuddyInv BuddyFree BuddyAlloc BuddyCpu BuddyApi BuddyProps Bootmem.

(** ** A zone *)

Definition set_page_links (zone : Z) (f : frame) : frame :=
  Frame (f_flags f) (f_count f) (f_mapcount f) (f_mapping f) (private f) (f_first_page f) (c_order f) zone.

Section boot.
Context `{Allocator} (early_pfn_valid : Z → bool).

Definition init_frame (f : frame) : frame :=
  set_flag PG_reserved (reset_page_mapcount (set_page_count 1 (set_page_links zone_id f))).

(** [memmap_init_zone] on the pages from [pfn] on, [n] of them left. *)
Fixpoint memmap_loop (n : nat) (pfn : Z) : M zst () :=
  match n with
  | O => mret ()
  | S n =>
      when (early_pfn_valid pfn)
        (upd_frame pfn init_frame;;
         when ((zone_start_pfn <=? pfn) && (pfn <? zone_start_pfn + spanned_pages) && (Z.land pfn (pageblock_nr_pages - 1) =? 0))
           (set_pageblock_migratetype pfn MIGRATE_MOVABLE));;
      memmap_loop n (pfn + 1)
  end.

Definition memmap_init_zone (size start_pfn : Z) : M zst () := memmap_loop (Z.to_nat size) start_pfn.

Definition init_free_list (ot : Z * Z) : M zst () :=
  modify (λ s, set_chains (<[free_list ot.1 ot.2 := []]> (chains s)) s);;
  upd_zdata (λ zd, set_nr_free (<[ot.1 := 0]> (nr_free zd)) zd).

Fixpoint init_free_lists (l : list (Z * Z)) : M zst () :=
  match l with
  | [] => mret ()
  | ot :: l => init_free_list ot;; init_free_lists l
  end.

Definition zone_init_free_lists : M zst () := init_free_lists (list_prod (seqZ 0 MAX_ORDER) (seqZ 0 MIGRATE_TYPES)).

(** The pages of the zone that are not used for its part of [mem_map], whose entries have
    [sizeof_page] bytes. *)
Definition zone_realsize (sizeof_page size absent dma_reserve : Z) (first : bool) : Z :=
  let realsize := u32 (size - absent) in
  let memmap_pages := Z.shiftr (PAGE_ALIGN (u32 (size * sizeof_page))) PAGE_SHIFT in
  let realsize := if memmap_pages <=? realsize then realsize - memmap_pages else realsize in
  if first && (dma_reserve <? realsize) then realsize - dma_reserve else realsize.

(** The fields of [struct zone] that are set. *)
Definition init_zone_data (realsize : Z) (zd : zone) : zone :=
  Zone false ∅ ∅ ∅ (pages_scanned zd) (all_unreclaimable zd) false (inactive_ratio zd) realsize (watermark zd) (lowmem_reserve zd) (nr_free zd).

(** The body of the loop of [free_area_init_core], for a zone of [spanned_pages] pages. *)
Definition free_area_init_zone (sizeof_page absent dma_reserve : Z) (first : bool) : M zst () :=
  upd_zdata (init_zone_data (zone_realsize sizeof_page spanned_pages absent dma_reserve first));;
  modify (set_zlock false);;
  if spanned_pages =? 0 then mret () else
  modify (set_pageblock_flags ∅);;
  zone_init_free_lists;;
  memmap_init_zone spanned_pages zone_start_pfn.

(** What [setup_pageset] does to the lists of the CPU. *)
Fixpoint init_pcp_lists (l : list Z) : M zst () :=
  match l with
  | [] => mret ()
  | t :: l => modify (λ s, set_chains (<[pcp_list t := []]> (chains s)) s);; init_pcp_lists l
  end.

Definition setup_pageset_lists : M zst () :=
  modify (set_pcp_count 0);;
  init_pcp_lists (seqZ 0 MIGRATE_PCPTYPES).

(** ** Handing over the memory *)

(** The inner loop: the pages of the bits of [vec], [n] of them left. *)
Fixpoint free_bits (n : nat) (start vec off count : Z) : M zst Z :=
  match n with
  | O => mret count
  | S n =>
      if vec =? 0 then mret count else
      when (Z.testbit vec 0) (__free_pages_bootmem (start + off) 0);;
      free_bits n start (Z.shiftr vec 1) (off + 1) (count + if Z.testbit vec 0 then 1 else 0)
  end.

Fixpoint free_words (n : nat) (bdata : bootmem_data) (map : Z → Z) (start count : Z) : M zst Z :=
  match n with
  | O => fail NoFuel
  | S n =>
      if node_low_pfn bdata <=? start then mret count else
      let idx := start - node_min_pfn bdata in
      let vec := u32 (Z.lnot (map (idx / BITS_PER_LONG))) in
      if (Z.land start (BITS_PER_LONG - 1) =? 0) && (vec =? u32 (Z.lnot 0)) then
        __free_pages_bootmem start (Z.log2 BITS_PER_LONG);;
        free_words n bdata map (start + BITS_PER_LONG) (count + BITS_PER_LONG)
      else
        count ← free_bits (Z.to_nat BITS_PER_LONG) start vec 0 count;
        free_words n bdata map (Z.land (start + 1 + (BITS_PER_LONG - 1)) (Z.lnot (BITS_PER_LONG - 1))) count
  end.

Fixpoint free_map_pages (n : nat) (page : Z) : M zst () :=
  match n with
  | O => mret ()
  | S n => __free_pages_bootmem page 0;; free_map_pages n (page + 1)
  end.

Definition free_all_bootmem_core (fuel : nat) (bdata : bootmem_data) : M zst Z :=
  match node_bootmem_map bdata with
  | None => mret 0
  | Some map =>
      count ← free_words fuel bdata map (node_min_pfn bdata) 0;
      let pages := bootmem_bootmap_pages (node_low_pfn bdata - node_min_pfn bdata) in
      free_map_pages (Z.to_nat pages) (bootmem_map_pfn bdata);;
      mret (count + pages)
  end.
End boot.

(** ** The lists of the CPU *)

Definition rounddown_pow_of_two (n : Z) : Z := 2 ^ Z.log2 n.

Definition zone_batchsize (zd : zone) : Z :=
  let batch := s32 (present_pages zd / 1024) in
  let batch := if 512 * 1024 <? u32 (batch * PAGE_SIZE) then 512 * 1024 / PAGE_SIZE else batch in
  let batch := Z.quot batch 4 in
  let batch := if batch <? 1 then 1 else batch in
  rounddown_pow_of_two (batch + Z.quot batch 2) - 1.

(** [pcp->high] and [pcp->batch] *)
Definition setup_pageset (batch : Z) : Z * Z := (6 * batch, Z.max 1 batch).

Definition setup_pagelist_highmark (high : Z) : Z * Z :=
  (high, if PAGE_SHIFT * 8 <? high / 4 then PAGE_SHIFT * 8 else Z.max 1 (high / 4)).

Definition setup_zone_pageset (percpu_pagelist_fraction : Z) (zd : zone) : Z * Z :=
  if percpu_pagelist_fraction =? 0 then setup_pageset (zone_batchsize zd)
  else setup_pagelist_highmark (present_pages zd / percpu_pagelist_fraction).

(** ** The sizes of the lists of the CPU *)

Lemma zone_batchsize_nonneg zd : 0 <= zone_batchsize zd.
Proof.
  unfold zone_batchsize, rounddown_pow_of_two. cbv zeta. set (b := if _ <? 1 then 1 else _).
  assert (1 <= b) as Hb by (unfold b; destruct (Z.ltb_spec (Z.quot (if 512 * 1024 <? u32 (s32 (present_pages zd / 1024) * PAGE_SIZE)
    then 512 * 1024 / PAGE_SIZE else s32 (present_pages zd / 1024)) 4) 1); lia).
  assert (0 < 2 ^ Z.log2 (b + Z.quot b 2)) by (apply Z.pow_pos_nonneg; [done|apply Z.log2_nonneg]). lia.
Qed.

(** What the setting up of the lists of the CPU promises to the allocator. *)
Lemma pageset_ok fraction zd :
  0 <= fraction → 0 <= present_pages zd → let '(high, batch) := setup_zone_pageset fraction zd in 0 < batch ∧ batch <= Z.max 1 high.
Proof.
  intros Hf Hp. unfold setup_zone_pageset, setup_pageset, setup_pagelist_highmark. pose proof (zone_batchsize_nonneg zd) as Hb.
  destruct (Z.eqb_spec fraction 0) as [_|Hne]; [split; lia|].
  assert (0 <= present_pages zd / fraction) by (apply Z.div_pos; lia). set (h := present_pages zd / fraction) in *.
  assert (0 <= h / 4 <= h) by (split; [by apply Z.div_pos|apply Z.div_le_upper_bound; lia]).
  change (PAGE_SHIFT * 8) with 96. destruct (Z.ltb_spec 96 (h / 4)); split; lia.
Qed.

Lemma zone_pageset_lists `{Allocator} fraction zd : 0 <= fraction → 0 <= present_pages zd →
  (pcp_high, pcp_batch) = setup_zone_pageset fraction zd → CpuLists.
Proof. intros Hf Hp E. pose proof (pageset_ok fraction zd Hf Hp) as Hok. rewrite <- E in Hok. by destruct Hok. Qed.

(** ** Counting the pages that are available *)

Section counting.
Context `{A : Allocator} `{L : !CpuLists}.

Definition order_pages (s : zst) (o : Z) : list Z := concat ((λ p, seqZ p (2 ^ o)) <$> listed_blocks s o).
Definition free_pages_list (s : zst) : list Z := concat (order_pages s <$> seqZ 0 MAX_ORDER).
Definition cpu_pages_list (s : zst) : list Z := concat ((λ t, chain s (pcp_list t)) <$> seqZ 0 MIGRATE_PCPTYPES).

Lemma order_pages_elem B s o x : zone_inv B s → 0 <= o → x ∈ order_pages s o ↔ ∃ p, (p, o) ∈ B ∧ in_block p o x.
Proof.
  intros [I _] Ho. unfold order_pages. rewrite elem_of_concat_fmap. unfold in_block. setoid_rewrite elem_of_seqZ.
  split; intros (p & Hp & Hx); exists p; (split; [|done]); [|apply (listed_blocks_elem _ _ _ _ _ _ _ I Ho), Hp]. by apply (listed_blocks_elem _ _ _ _ _ _ _ I Ho).
Qed.

Lemma free_pages_elem B s x : zone_inv B s → x ∈ free_pages_list s ↔ covers B x.
Proof.
  intros HZ. unfold free_pages_list. rewrite elem_of_concat_fmap. split.
  - intros (o & Ho%elem_of_seqZ & Hx). apply (order_pages_elem B) in Hx as (p & Hp & Hb); [|done|lia]. by exists p, o.
  - intros (p & o & Hp & Hb). pose proof (bk_order _ (bi_disjoint _ _ _ _ _ (proj1 HZ)) _ _ Hp). exists o. rewrite elem_of_seqZ.
    split; [lia|]. apply (order_pages_elem B); [done|lia|by exists p].
Qed.

Lemma free_pages_nodup B s : zone_inv B s → NoDup (free_pages_list s).
Proof.
  intros HZ. pose proof (proj1 HZ) as I. pose proof (bi_disjoint _ _ _ _ _ I) as D. apply NoDup_concat_fmap; [apply NoDup_seqZ| |].
  - intros o Ho%elem_of_seqZ. apply NoDup_concat_fmap; [by eapply listed_blocks_nodup|intros p _; apply NoDup_seqZ|].
    intros p q x Hp Hq [Hx1 Hx2]%elem_of_seqZ [Hy1 Hy2]%elem_of_seqZ. apply (listed_blocks_elem _ _ _ _ _ _ _ I) in Hp, Hq; [|lia|lia].
    by destruct (bk_disj _ D _ _ _ _ x Hp Hq).
  - intros o k x Ho%elem_of_seqZ Hk%elem_of_seqZ Hx Hy. apply (order_pages_elem B) in Hx as (p & Hp & Hx), Hy as (q & Hq & Hy); [|done|lia|done|lia].
    by destruct (bk_disj _ D _ _ _ _ x Hp Hq).
Qed.

Lemma length_concat_fmap {X} (f : Z → list X) l : Z.of_nat (length (concat (f <$> l))) = foldr (λ x n, Z.of_nat (length (f x)) + n) 0 l.
Proof. induction l as [|x l IH]; cbn; [done|]. rewrite length_app. lia. Qed.

Lemma order_pages_length s o : 0 <= o → Z.of_nat (length (order_pages s o)) = 2 ^ o * listed s o.
Proof.
  intros Ho. unfold order_pages. rewrite length_concat_fmap, listed_length. assert (0 < 2 ^ o) by (by apply Z.pow_pos_nonneg).
  induction (listed_blocks s o) as [|p l IH]; cbn [foldr length]; [lia|]. rewrite IH, length_seqZ. lia.
Qed.

Lemma free_pages_length s : Z.of_nat (length (free_pages_list s)) = listed_pages s.
Proof.
  unfold free_pages_list, listed_pages. rewrite length_concat_fmap. change (seqZ 0 MAX_ORDER) with [0; 1; 2; 3; 4; 5; 6; 7; 8; 9; 10].
  cbn [foldr]. by rewrite !order_pages_length by done.
Qed.

(** The counter of free pages and the one of the lists of the CPU count what is available. *)
Lemma available_counted s l : zone_sound s → NoDup l → (∀ x, x ∈ l ↔ available s x) →
  stat (vm_stat (zdata s)) NR_FREE_PAGES + pcp_count s = Z.of_nat (length l).
Proof.
  intros HZ Hl Hx. pose proof (proj1 HZ) as I. rewrite (bi_free _ _ _ _ _ I), (proj2 HZ), <- free_pages_length.
  assert (cpu_length s = Z.of_nat (length (cpu_pages_list s))) as -> by (unfold cpu_pages_list; by rewrite length_concat_fmap).
  assert (∀ x, x ∈ cpu_pages_list s ↔ on_cpu s x) as Hcpu.
  { intros x. unfold cpu_pages_list, on_cpu. rewrite elem_of_concat_fmap. split; [intros (t & _ & ?); by exists t|]. intros (t & Ht). exists t. split; [|done].
    destruct (bi_chain _ _ _ _ _ I _ _ Ht) as [[[[H0 _] _] _]|[[_ H0] _]]; [cbn in H0; lia|]. apply elem_of_seqZ. cbn in H0. lia. }
  rewrite Z.add_0_r, <- Nat2Z.inj_add, <- length_app. f_equal. apply Permutation_length, NoDup_Permutation; [|done|].
  - apply NoDup_app. split; [by eapply free_pages_nodup|]. split.
    + intros x Hf Hc. apply (free_pages_elem _ _ _ HZ) in Hf. apply Hcpu in Hc as (t & Ht).
      destruct (bi_chain _ _ _ _ _ I _ _ Ht) as [[[[H0 _] _] _]|[_ [H0 _]]]; [cbn in H0; lia|done].
    + apply NoDup_concat_fmap; [apply NoDup_seqZ|intros t _; apply I|]. intros t u x _ _ Ht Hu.
      assert (pcp_list t = pcp_list u) as [= ->] by (by eapply bi_unique). done.
  - intros x. rewrite elem_of_app, (free_pages_elem _ _ _ HZ), Hcpu, Hx. done.
Qed.
End counting.

(** ** Handing over *)

Section handover.
Context `{A : Allocator} `{L : !CpuLists}.

Definition in_zone (x : Z) : Prop := zone_start_pfn <= x < zone_start_pfn + spanned_pages.

(** The pages [F] were handed over; the others of the zone are still reserved. *)
Definition booting (F : Z → Prop) (s : zst) : Prop :=
  ∃ B, zone_inv B s ∧ (∀ x, avail B s x ↔ F x) ∧ ∀ x, in_zone x → ¬ F x → ∃ f, frames s !! x = Some f ∧ reserved f.

Lemma booting_ext F G s : (∀ x, F x ↔ G x) → booting F s → booting G s.
Proof.
  intros E (B & Z & Ha & Hr). exists B. split; [done|]. split; [intros x; by rewrite Ha|]. intros x Hx HG. apply Hr; [done|by rewrite E].
Qed.

Lemma handover_runs F s p o :
  booting F s → 0 <= o < MAX_ORDER → aligned p o → (∀ x, in_block p o x → in_zone x ∧ ¬ F x) →
  runs (__free_pages_bootmem p o) s (λ _ s', booting (λ x, F x ∨ in_block p o x) s').
Proof.
  intros (B & HZ & Ha & Hr) Ho Hal Hb. eapply runs_mono.
  { eapply __free_pages_bootmem_spec; [exact HZ|done|done|]. intros x Hx. destruct (Hb x Hx) as [Hz Hn]. rewrite Ha. split; [done|by apply Hr]. }
  cbn beta. intros _ s' (B' & HZ' & Hf & Hfr). exists B'. split; [done|]. split; [intros x; by rewrite Hf, Ha|].
  intros x Hx Hn. rewrite Hfr; [|rewrite Ha; tauto|tauto]. apply Hr; [done|tauto].
Qed.

(** ** Setting up the zone *)

(** The zone before: [mem_map] is zeroed and the lists may hold anything. *)
Record blank (s : zst) : Prop := Blank {
  bl_heads h p : p ∈ chain s h → free_head_ok h ∨ pcp_head_ok h;
  bl_map q x y : aligned q (MAX_ORDER - 1) → in_block q (MAX_ORDER - 1) x → in_block q (MAX_ORDER - 1) y →
    is_Some (frames s !! x) → is_Some (frames s !! y);
  bl_span x : in_zone x → ∃ f, frames s !! x = Some f ∧ f_flags f = 0 ∧ f_mapping f = NoMap;
  bl_outside x f : frames s !! x = Some f → page_zone_id f = zone_id → in_zone x;
}.

Lemma chain_insert h l s h' : chain (set_chains (<[h := l]> (chains s)) s) h' = if decide (h = h') then l else chain s h'.
Proof. unfold chain. cbn. case_decide; [subst; by rewrite lookup_insert_eq|by rewrite lookup_insert_ne]. Qed.

(** What the setting up of lists leaves alone. *)
Definition relinked (s s' : zst) : Prop :=
  frames s' = frames s ∧ vm_stat (zdata s') = vm_stat (zdata s) ∧ zlock s' = zlock s ∧ pcp_count s' = pcp_count s ∧ pageblock_flags s' = pageblock_flags s.

Lemma init_free_lists_runs l : ∀ s, runs (init_free_lists l) s (λ _ s', relinked s s' ∧
  (∀ h, chain s' h = if decide (h ∈ l) then [] else chain s h) ∧
  ∀ o, (∃ t, (o, t) ∈ l) ∨ stat (nr_free (zdata s)) o = 0 → stat (nr_free (zdata s')) o = 0).
Proof.
  induction l as [|[o t] l IH]; intros s; cbn [init_free_lists].
  { apply runs_ret. split; [done|]. split; [intros h; by rewrite decide_False by apply not_elem_of_nil|]. intros o [[t []%elem_of_nil]|?]; done. }
  apply runs_bind. eapply runs_ok; [done|]. set (s1 := set_zdata _ _).
  assert (∀ h, chain s1 h = if decide ((o, t) = h) then [] else chain s h) as E by (intros h; apply (chain_insert (o, t))).
  eapply runs_mono; [apply IH|]. cbn beta. intros _ s' (R & Hc & Hn). split; [exact R|]. split.
  - intros h. rewrite Hc, E.
    destruct (decide ((o, t) = h)) as [<-|Hne]; [rewrite (decide_True (P := _ ∈ _ :: _)) by apply list_elem_of_here; by case_decide|].
    destruct (decide (h ∈ l)); [rewrite decide_True; [done|by right]|]. rewrite decide_False; [done|]. intros [?|?]%elem_of_cons; [by apply Hne|done].
  - intros k Hk. apply Hn. cbn. destruct (decide (o = k)) as [<-|Hne]; [right; unfold stat; by rewrite lookup_insert_eq|].
    destruct Hk as [[u [[= -> _]|Hu]%elem_of_cons]|Hk]; [done|left; by exists u|right; unfold stat in *; by rewrite lookup_insert_ne].
Qed.

Lemma all_heads h : h ∈ list_prod (seqZ 0 MAX_ORDER) (seqZ 0 MIGRATE_TYPES) ↔ free_head_ok h.
Proof. destruct h as [o t]. unfold head. rewrite list_elem_of_In, in_prod_iff, <- !list_elem_of_In, !elem_of_seqZ. unfold free_head_ok. cbn [fst snd]. lia. Qed.

Lemma init_pcp_lists_runs l : ∀ s, runs (init_pcp_lists l) s (λ _ s', relinked s s' ∧ zdata s' = zdata s ∧
  ∀ h, chain s' h = if decide (h ∈ pcp_list <$> l) then [] else chain s h).
Proof.
  induction l as [|t l IH]; intros s; cbn [init_pcp_lists].
  { apply runs_ret. split; [done|]. split; [done|]. intros h. by rewrite decide_False by apply not_elem_of_nil. }
  apply runs_bind. eapply runs_ok; [done|]. eapply runs_mono; [apply IH|]. cbn beta. intros _ s' (R & Hz & Hc). split; [exact R|]. split; [exact Hz|].
  intros h. rewrite Hc, chain_insert. cbn [fmap list_fmap].
  destruct (decide (pcp_list t = h)) as [<-|Hne]; [rewrite (decide_True (P := _ ∈ _ :: _)) by apply list_elem_of_here; by case_decide|].
  destruct (decide (h ∈ pcp_list <$> l)); [rewrite decide_True; [done|by right]|]. rewrite decide_False; [done|]. intros [?|?]%elem_of_cons; [by apply Hne|done].
Qed.

Definition types_ok (s : zst) : Prop := ∀ i, 0 <= stat (pageblock_flags s) i < MIGRATE_TYPES.

Lemma set_type_ok s p t : 0 <= t < MIGRATE_TYPES → types_ok s →
  runs (set_pageblock_migratetype p t) s (λ _ s', types_ok s' ∧ frames s' = frames s ∧ chains s' = chains s ∧ zdata s' = zdata s ∧
    zlock s' = zlock s ∧ pcp_count s' = pcp_count s).
Proof.
  intros Ht Hs. unfold set_pageblock_migratetype. set (m := if page_group_by_mobility_disabled then MIGRATE_UNMOVABLE else t). assert (0 <= m < MIGRATE_TYPES) as Hm by (unfold m; by destruct page_group_by_mobility_disabled). clearbody m.
  eapply runs_ok; [done|]. split; [|done]. intros i. unfold stat. cbn. destruct (decide (pageblock_index p = i)) as [<-|Hne].
  - rewrite lookup_insert_eq. cbn. change 7 with (Z.ones 3). rewrite Z.land_ones by done. unfold id, MIGRATE_TYPES in *. rewrite Z.mod_small; lia.
  - rewrite lookup_insert_ne by done. apply Hs.
Qed.

Lemma memmap_loop_runs early_pfn_valid n : ∀ s pfn,
  (∀ x, pfn <= x < pfn + Z.of_nat n → early_pfn_valid x = true ∧ is_Some (frames s !! x)) → types_ok s →
  runs (memmap_loop early_pfn_valid n pfn) s (λ _ s', types_ok s' ∧
    (∀ x, frames s' !! x = if decide (pfn <= x < pfn + Z.of_nat n) then init_frame <$> frames s !! x else frames s !! x) ∧
    chains s' = chains s ∧ zdata s' = zdata s ∧ zlock s' = zlock s ∧ pcp_count s' = pcp_count s).
Proof.
  induction n as [|n IH]; intros s pfn Hx Ht; cbn [memmap_loop].
  { apply runs_ret. split; [done|]. split; [|done]. intros x. rewrite decide_False; [done|lia]. }
  destruct (Hx pfn) as [Hv [f Hf]]; [lia|]. rewrite Hv. cbn [when]. apply runs_bind, runs_bind. eapply runs_ok; [by apply upd_frame_run|].
  set (s1 := fset _ _ s). assert (types_ok s1) as H1 by exact Ht.
  eapply (runs_mono _ _ (λ _ s2, types_ok s2 ∧ frames s2 = frames s1 ∧ chains s2 = chains s1 ∧ zdata s2 = zdata s1 ∧ zlock s2 = zlock s1 ∧ pcp_count s2 = pcp_count s1)).
  { apply runs_when; intros _; [by apply set_type_ok|done]. }
  cbn beta. intros _ s2 (H2 & Ef & Ec & Ez & El & Ep). eapply runs_mono; [apply IH; [|done]|].
  { intros x Hr. destruct (Hx x) as [? Hfx]; [lia|]. split; [done|]. rewrite Ef. unfold s1, fset. cbn. rewrite lookup_insert_ne by lia. done. }
  cbn beta. intros _ s3 (H3 & Ef3 & Ec3 & Ez3 & El3 & Ep3). split; [done|]. split; [|by rewrite Ec3, Ez3, El3, Ep3, Ec, Ez, El, Ep].
  intros x. rewrite Ef3, Ef. unfold s1, fset. cbn [frames set_frames]. destruct (decide (x = pfn)) as [->|Hne].
  - rewrite decide_False, decide_True, lookup_insert_eq, Hf by lia. done.
  - rewrite lookup_insert_ne by done. repeat case_decide; lia || done.
Qed.

Lemma foldr_zero (f : Z → Z) l : (∀ x, f x = 0) → foldr (λ x n, f x + n) 0 l = 0.
Proof. intros E. induction l as [|x l IH]; cbn [foldr]; [done|]. by rewrite E, IH. Qed.

(** The frames are reserved, the lists empty and the counters zero. *)
Lemma fresh_booting s :
  (∀ h, chain s h = []) → (∀ o, 0 <= o < MAX_ORDER → stat (nr_free (zdata s)) o = 0) → stat (vm_stat (zdata s)) NR_FREE_PAGES = 0 →
  zlock s = false → pcp_count s = 0 → types_ok s →
  (∀ q x y, aligned q (MAX_ORDER - 1) → in_block q (MAX_ORDER - 1) x → in_block q (MAX_ORDER - 1) y →
    is_Some (frames s !! x) → is_Some (frames s !! y)) →
  (∀ x, in_zone x → ∃ f, frames s !! x = Some f ∧ reserved f) → (∀ x f, frames s !! x = Some f → page_zone_id f = zone_id → in_zone x) →
  booting (λ _, False) s.
Proof.
  intros Hc Hn Hv Hl Hp Ht Hm Hz Ho. assert (∀ o, listed s o = 0) as Hl0 by (intros o; apply (foldr_zero (λ t, _)); intros t; by rewrite Hc).
  assert (∀ x, ¬ covers ∅ x) as Hno by (intros x (p & o & ? & _); set_solver).
  exists ∅. split; [split; [split|]|].
  - split; set_solver.
  - intros p o Hp'. set_solver.
  - intros p o Hp'. set_solver.
  - intros p f Hf Hzf Hb. destruct (Hz p) as (g & Hg & _ & Hmc & _); [by eapply Ho|]. simplify_eq. unfold PageBuddy in Hb. by rewrite Hmc in Hb.
  - intros x []%Hno.
  - intros h p. rewrite Hc. by intros ?%elem_of_nil.
  - intros p o Hp'. set_solver.
  - intros h. rewrite Hc. constructor.
  - intros h h' p. rewrite Hc. by intros ?%elem_of_nil.
  - intros o Ho'. by rewrite Hn, Hl0.
  - rewrite Hv. unfold listed_pages. rewrite (foldr_zero (λ o, 2 ^ o * listed s o)); [done|]. intros o. rewrite Hl0. lia.
  - done.
  - done.
  - intros x Hx. destruct (Hz x Hx) as (f & Hf & Hr). exists f. split; [done|apply Hr].
  - done.
  - done.
  - rewrite Hp. symmetry. apply (foldr_zero (λ t, _)). intros t. by rewrite Hc.
  - split; [|by intros x Hx _; apply Hz]. intros x. split; [|done]. intros [?%Hno|[u Hu]]; [done|]. rewrite Hc in Hu. by apply elem_of_nil in Hu.
Qed.

Lemma init_frame_reserved f : f_flags f = 0 → f_mapping f = NoMap → reserved (init_frame f).
Proof. intros Hf Hm. split_and!; [done|done|done|]. cbn. by rewrite Hf. Qed.

Lemma zone_init_runs early_pfn_valid sizeof_page absent dma_reserve first s :
  0 < spanned_pages → blank s → (∀ x, in_zone x → early_pfn_valid x = true) →
  runs (free_area_init_zone early_pfn_valid sizeof_page absent dma_reserve first;; setup_pageset_lists) s (λ _ s', booting (λ _, False) s').
Proof.
  intros Hsp [Hh Hm Hz Ho] Hv. apply runs_bind. unfold free_area_init_zone. apply runs_bind. eapply runs_ok; [done|].
  apply runs_bind. eapply runs_ok; [done|]. rewrite (proj2 (Z.eqb_neq spanned_pages 0)) by lia.
  apply runs_bind. eapply runs_ok; [done|]. set (s1 := set_pageblock_flags _ _).
  apply runs_bind. eapply runs_mono; [apply (init_free_lists_runs _ s1)|]. cbn beta. intros _ s2 ((Ef & Ev & El & Ep & Et) & Hc & Hn).
  unfold memmap_init_zone. eapply runs_mono; [apply memmap_loop_runs|].
  { intros x Hx. rewrite Z2Nat.id in Hx by lia. split; [by apply Hv|]. rewrite Ef. destruct (Hz x Hx) as (f & Hf & _). by exists f. }
  { intros i. rewrite Et. unfold stat, s1. cbn. by rewrite lookup_empty. }
  cbn beta. intros _ s3 (Ht3 & Hf3 & Ec3 & Ez3 & El3 & Ep3). apply runs_bind. eapply runs_ok; [done|].
  eapply runs_mono; [apply init_pcp_lists_runs|]. cbn beta. intros _ s4 ((Ef4 & _ & El4 & Ep4 & Et4) & Ez4 & Hc4).
  assert (∀ x, frames s4 !! x = if decide (in_zone x) then init_frame <$> frames s !! x else frames s !! x) as Hf4.
  { intros x. rewrite Ef4. cbn [frames set_pcp_count]. rewrite Hf3, Z2Nat.id, Ef by lia. done. }
  apply fresh_booting.
  - intros h. rewrite Hc4. case_decide as E1; [done|]. change (chain _ h) with (default [] (chains s3 !! h)). rewrite Ec3. fold (chain s2 h). rewrite Hc.
    case_decide as E2; [done|]. rewrite all_heads in E2. destruct (chain s1 h) as [|p l] eqn:E; [done|]. destruct (Hh h p) as [?|[E3 E4]]; [|done|].
    { change (p ∈ chain s1 h). rewrite E. by left. }
    destruct E1. destruct h as [o t]. cbn in E3, E4. subst o. apply (list_elem_of_fmap_2 pcp_list), elem_of_seqZ. lia.
  - intros o Ho'. rewrite Ez4. cbn [zdata set_pcp_count]. rewrite Ez3. apply Hn. left. exists 0. apply all_heads. split; [done|split; done].
  - rewrite Ez4. cbn [zdata set_pcp_count]. rewrite Ez3, Ev. done.
  - rewrite El4. cbn. by rewrite El3, El.
  - by rewrite Ep4.
  - intros i. rewrite Et4. apply Ht3.
  - assert (∀ x, is_Some (frames s4 !! x) ↔ is_Some (frames s !! x)) as E by (intros x; rewrite Hf4; case_decide; [apply fmap_is_Some|done]).
    intros q x y. rewrite !E. apply Hm.
  - intros x Hx. rewrite Hf4, decide_True by done. destruct (Hz x Hx) as (f & Hf & Hfl & Hmp). rewrite Hf. eexists. split; [done|by apply init_frame_reserved].
  - intros x f. rewrite Hf4. case_decide; [done|]. apply Ho.
Qed.

(** The number of the lowest [n] bits of [vec] that are set. *)
Fixpoint bits_set (n : nat) (vec : Z) : Z :=
  match n with O => 0 | S n => (if Z.testbit vec 0 then 1 else 0) + bits_set n (Z.shiftr vec 1) end.

Lemma bits_set_0 n : bits_set n 0 = 0.
Proof. induction n as [|n IH]; cbn [bits_set]; [done|]. by rewrite Z.shiftr_0_l, IH. Qed.

Lemma free_bits_runs n : ∀ F s start vec off count,
  booting F s → (∀ i, 0 <= i < Z.of_nat n → Z.testbit vec i = true → in_zone (start + off + i) ∧ ¬ F (start + off + i)) →
  runs (free_bits n start vec off count) s (λ c s', c = count + bits_set n vec ∧
    booting (λ x, F x ∨ ∃ i, 0 <= i < Z.of_nat n ∧ Z.testbit vec i = true ∧ x = start + off + i) s').
Proof.
  induction n as [|n IH]; intros F s start vec off count HB Hv; cbn [free_bits].
  { apply runs_ret. split; [cbn; lia|]. eapply booting_ext; [|exact HB]. intros x. split; [by left|]. intros [?|(i & ? & _)]; [done|lia]. }
  destruct (Z.eqb_spec vec 0) as [->|Hne].
  { apply runs_ret. split; [by rewrite bits_set_0, Z.add_0_r|]. eapply booting_ext; [|exact HB]. intros x. split; [by left|].
    intros [?|(i & _ & E & _)]; [done|]. by rewrite Z.bits_0 in E. }
  apply runs_bind. eapply (runs_mono _ _ (λ _ s', booting (λ x, F x ∨ (Z.testbit vec 0 = true ∧ x = start + off)) s')).
  { apply runs_when; intros E.
    - eapply runs_mono; [eapply handover_runs; [exact HB|done|apply Z.divide_1_l|]|].
      + intros x ->%in_block_0. destruct (Hv 0) as [? ?]; [lia|done|]. by rewrite Z.add_0_r in *.
      + cbn beta. intros _ s'. apply booting_ext. intros x. rewrite in_block_0. tauto.
    - eapply booting_ext; [|exact HB]. intros x. rewrite E. naive_solver. }
  cbn beta. intros _ s1 HB1. eapply runs_mono; [eapply (IH _ _ _ _ _ _ HB1)|].
  - intros i Hi. rewrite Z.shiftr_spec by lia. intros E. destruct (Hv (i + 1)) as [H1 H2]; [lia|done|].
    replace (start + (off + 1) + i) with (start + off + (i + 1)) by lia. split; [done|]. intros [?|[_ ?]]; [done|lia].
  - cbn beta. intros c s' [-> HB']. split; [cbn [bits_set]; lia|]. eapply booting_ext; [|exact HB']. intros x. split.
    + intros [[?|[E ->]]|(i & Hi & E & ->)]; [by left|right; exists 0; split_and!; [lia|lia|done|lia]|].
      rewrite Z.shiftr_spec in E by lia. right. exists (i + 1). split_and!; [lia|lia|done|lia].
    + intros [?|(i & Hi & E & ->)]; [by left; left|]. destruct (decide (i = 0)) as [->|]; [left; right; split; [done|lia]|].
      right. exists (i - 1). rewrite Z.shiftr_spec by lia. replace (i - 1 + 1) with i by lia. split_and!; [lia|lia|done|lia].
Qed.

Lemma free_map_pages_runs n : ∀ F s page,
  booting F s → (∀ x, page <= x < page + Z.of_nat n → in_zone x ∧ ¬ F x) →
  runs (free_map_pages n page) s (λ _ s', booting (λ x, F x ∨ page <= x < page + Z.of_nat n) s').
Proof.
  induction n as [|n IH]; intros F s page HB Hx; cbn [free_map_pages].
  { apply runs_ret. eapply booting_ext; [|exact HB]. intros x. split; [by left|]. intros [?|?]; [done|lia]. }
  apply runs_bind. eapply runs_mono; [eapply handover_runs; [exact HB|done|apply Z.divide_1_l|]|].
  { intros x ->%in_block_0. apply Hx. lia. }
  cbn beta. intros _ s1 HB1. eapply runs_mono; [eapply (IH _ _ _ HB1)|].
  { intros x Hin. destruct (Hx x) as [? ?]; [lia|]. split; [done|]. rewrite in_block_0. intros [?|?]; [done|lia]. }
  cbn beta. intros _ s'. apply booting_ext. intros x. rewrite in_block_0. split; [intros [[?| ->]|?]; [by left|right; lia|right; lia]|].
  intros [?|?]; [by left; left|]. destruct (decide (x = page)); [by left; right|right; lia].
Qed.

(** ** The bitmap *)

Context (bdata : bootmem_data) (map : Z → Z).
Notation min := (node_min_pfn bdata).
Notation low := (node_low_pfn bdata).

(** The page is one of the node and its bit says that it is not reserved. *)
Definition unreserved (x : Z) : bool :=
  (min <=? x) && (x <? low) && negb (Z.testbit (map ((x - min) / BITS_PER_LONG)) ((x - min) mod BITS_PER_LONG)).

Definition count_unreserved (a n : Z) : Z := Z.of_nat (length (filter (λ x, unreserved x = true) (seqZ a n))).

Lemma count_unreserved_add a m n : 0 <= m → 0 <= n → count_unreserved a (m + n) = count_unreserved a m + count_unreserved (a + m) n.
Proof. intros. unfold count_unreserved. rewrite seqZ_app by done. rewrite filter_app, length_app. lia. Qed.

(** The pages of the bitmap, which are handed over last. *)
Definition map_pages : Z := bootmem_bootmap_pages (low - min).

Definition in_map (x : Z) : Prop := bootmem_map_pfn bdata <= x < bootmem_map_pfn bdata + map_pages.

(** What the boot allocator has to leave: a bitmap that starts with a page of a number
    divisible by the size of a word, for pages of the zone, with the bits of the last
    word behind the last page and those of its own pages set. *)
Record node_ok : Prop := NodeOk {
  no_map : node_bootmem_map bdata = Some map;
  min_aligned : (BITS_PER_LONG | min);
  min_low : min <= low;
  in_node x : min <= x < low → in_zone x;
  padded k : low - min <= k → k / BITS_PER_LONG <= (low - min - 1) / BITS_PER_LONG → Z.testbit (map (k / BITS_PER_LONG)) (k mod BITS_PER_LONG) = true;
  map_in_zone x : in_map x → in_zone x;
  map_reserved x : in_map x → unreserved x = false;
}.

Context (N : node_ok).

(** The bits of the word at [start]. *)
Lemma word_bits start i :
  (BITS_PER_LONG | start) → min <= start < low → 0 <= i < 32 →
  Z.testbit (u32 (Z.lnot (map ((start - min) / BITS_PER_LONG)))) i = unreserved (start + i).
Proof.
  intros Hs Hm Hi. unfold u32. rewrite Z.mod_pow2_bits_low, Z.lnot_spec by lia. unfold unreserved.
  assert (BITS_PER_LONG | start - min) as [k Hk] by (apply Z.divide_sub_r; [done|apply N]). change BITS_PER_LONG with 32 in *.
  replace (start + i - min) with (i + k * 32) by lia. rewrite Hk, Z.div_mul by done.
  rewrite Z.div_add, Z.mod_add, Z.div_small, Z.mod_small by lia. rewrite Z.add_0_l, (proj2 (Z.leb_le min _)) by lia. cbn [andb].
  destruct (Z.ltb_spec (start + i) low) as [Hl|Hl]; [done|]. cbn [andb].
  pose proof (padded N (i + k * 32)) as Hp. change BITS_PER_LONG with 32 in Hp. rewrite Z.div_add, Z.mod_add, Z.div_small, Z.mod_small in Hp by lia.
  rewrite Z.add_0_l in Hp. rewrite Hp; [done|lia|]. apply Z.div_le_lower_bound; lia.
Qed.

Lemma bits_count n vec : ∀ a, (∀ i, 0 <= i < Z.of_nat n → Z.testbit vec i = unreserved (a + i)) →
  bits_set n vec = count_unreserved a (Z.of_nat n).
Proof.
  revert vec. induction n as [|n IH]; intros vec a Hv; [done|]. cbn [bits_set].
  rewrite (IH _ (a + 1)) by (intros i Hi; rewrite Z.shiftr_spec by lia; rewrite Hv by lia; f_equal; lia).
  replace (Z.of_nat (S n)) with (1 + Z.of_nat n) by lia. rewrite count_unreserved_add by lia. f_equal.
  rewrite Hv by lia. rewrite Z.add_0_r. unfold count_unreserved. rewrite (seqZ_cons a 1) by lia.
  change (seqZ (Z.succ a) (Z.pred 1)) with (@nil Z). rewrite filter_cons. case_decide as E; [by rewrite E|]. by destruct (unreserved a).
Qed.

Lemma unreserved_node x : unreserved x = true → min <= x < low.
Proof.
  intros Hx. unfold unreserved in Hx. apply andb_true_iff in Hx as [Hx _]. by apply andb_true_iff in Hx as [?%Z.leb_le ?%Z.ltb_lt].
Qed.

(** There is nothing to count beyond the node. *)
Lemma count_beyond n : min <= low → low - min <= n → count_unreserved min n = count_unreserved min (low - min).
Proof.
  intros Hm Hn. replace n with ((low - min) + (n - (low - min))) by lia. rewrite count_unreserved_add by lia.
  enough (count_unreserved (min + (low - min)) (n - (low - min)) = 0) by lia. unfold count_unreserved.
  destruct (filter _ _) as [|x l] eqn:E; [done|]. assert (x ∈ x :: l) as Hx by apply list_elem_of_here. rewrite <- E in Hx.
  apply list_elem_of_filter in Hx as [Hu%unreserved_node Hx%elem_of_seqZ]. lia.
Qed.

Lemma align_next start : (BITS_PER_LONG | start) → Z.land (start + 1 + (BITS_PER_LONG - 1)) (Z.lnot (BITS_PER_LONG - 1)) = start + 32.
Proof.
  intros [k ->]. change (BITS_PER_LONG - 1) with (Z.ones 5). rewrite <- Z.ldiff_land, Z.ldiff_ones_r by done.
  rewrite Z.shiftr_div_pow2, Z.shiftl_mul_pow2 by done. change (2 ^ 5) with 32. change (Z.ones 5) with 31. change BITS_PER_LONG with 32.
  replace (k * 32 + 1 + 31) with ((k + 1) * 32) by lia. rewrite Z.div_mul by done. lia.
Qed.

(** The words from [start] on, where the pages before it are handed over. *)
Lemma free_words_runs fuel : ∀ s start count,
  (BITS_PER_LONG | start) → min <= low → min <= start → (Z.to_nat (low - start) < fuel)%nat →
  booting (λ x, x < start ∧ unreserved x = true) s → count = count_unreserved min (start - min) →
  runs (free_words fuel bdata map start count) s (λ c s', c = count_unreserved min (low - min) ∧ booting (λ x, unreserved x = true) s').
Proof.
  induction fuel as [|fuel IH]; intros s start count Hs Hml Hm Hf HB Hc; [lia|]. cbn [free_words].
  destruct (Z.leb_spec low start) as [Hend|Hlt].
  { apply runs_ret. split; [by rewrite Hc, count_beyond by lia|]. eapply booting_ext; [|exact HB]. intros x. split; [by intros [_ ?]|].
    intros Hx. split; [|done]. apply unreserved_node in Hx. lia. }
  set (vec := u32 _). assert (∀ i, 0 <= i < 32 → Z.testbit vec i = unreserved (start + i)) as Hv by (intros; apply word_bits; (done || lia)).
  pose proof (bits_count 32 vec start Hv) as Hcnt. change (Z.of_nat 32) with 32 in Hcnt.
  assert ((BITS_PER_LONG | start + 32)) as Hs' by (apply Z.divide_add_r; [done|by exists 1]).
  assert (∀ c1 s1, c1 = count + bits_set 32 vec →
    booting (λ x, (x < start ∧ unreserved x = true) ∨ ∃ i, 0 <= i < 32 ∧ Z.testbit vec i = true ∧ x = start + i) s1 →
    runs (free_words fuel bdata map (start + 32) c1) s1 (λ c s', c = count_unreserved min (low - min) ∧ booting (λ x, unreserved x = true) s')) as Hgo.
  { intros c1 s1 Ec HB1. apply (IH s1 (start + 32) c1 Hs'); [done|lia|lia| |].
    - eapply booting_ext; [|exact HB1]. intros x. split.
      + intros [[? ?]|(i & Hi & E & ->)]; [split; [lia|done]|]. rewrite Hv in E by done. split; [lia|done].
      + intros [Hx Hu]. destruct (decide (x < start)); [by left|]. right. exists (x - start). rewrite Hv by lia.
        replace (start + (x - start)) with x by lia. split_and!; [lia|lia|done|done].
    - rewrite Ec, Hc, Hcnt. replace (start + 32 - min) with ((start - min) + 32) by lia. rewrite count_unreserved_add by lia.
      do 2 f_equal. lia. }
  assert (∀ i, 0 <= i < 32 → Z.testbit vec i = true → in_zone (start + i) ∧ ¬ (start + i < start ∧ unreserved (start + i) = true)) as Hfree.
  { intros i Hi E. rewrite Hv in E by done. split; [apply N; by apply unreserved_node|lia]. }
  destruct (Z.eqb_spec vec (u32 (Z.lnot 0))) as [Evec|_].
  - assert (∀ i, 0 <= i < 32 → Z.testbit vec i = true) as Hall by (intros i Hi; rewrite Evec; change (u32 (Z.lnot 0)) with (Z.ones 32); by apply Z.ones_spec_low).
    change (BITS_PER_LONG - 1) with (Z.ones 5). rewrite Z.land_ones by done. change (2 ^ 5) with BITS_PER_LONG.
    rewrite (proj2 (Z.mod_divide start BITS_PER_LONG ltac:(done)) Hs). cbn [Z.eqb andb]. change (Z.log2 BITS_PER_LONG) with 5.
    apply runs_bind. eapply runs_mono; [eapply handover_runs; [exact HB|done|exact Hs|]|].
    + intros x Hx. change (in_block start 5 x) with (start <= x < start + 32) in Hx. replace x with (start + (x - start)) by lia. apply Hfree; [lia|apply Hall; lia].
    + cbn beta. intros _ s1 HB1. apply Hgo; [f_equal; by rewrite Evec|]. eapply booting_ext; [|exact HB1]. intros x.
      cbn beta. change (in_block start 5 x) with (start <= x < start + 32). split; [intros [?|?]; [by left|right; exists (x - start); rewrite Hall by lia; split_and!; [lia|lia|done|lia]]|].
      intros [?|(i & Hi & _ & ->)]; [by left|right; lia].
  - rewrite andb_false_r. change (Z.to_nat BITS_PER_LONG) with 32%nat. apply runs_bind.
    eapply runs_mono; [eapply (free_bits_runs 32 _ _ _ _ _ _ HB)|].
    { intros i Hi E. rewrite Z.add_0_r. by apply Hfree. }
    cbn beta. intros c1 s1 [Ec HB1]. replace (Z.land (start + 1 + (BITS_PER_LONG - 1)) (Z.lnot (BITS_PER_LONG - 1))) with (start + 32).
    + apply Hgo; [done|]. eapply booting_ext; [|exact HB1]. intros x. cbn beta. by rewrite Z.add_0_r.
    + by rewrite align_next.
Qed.

Definition handed_over (x : Z) : Prop := unreserved x = true ∨ in_map x.

Lemma free_all_bootmem_core_runs fuel s :
  (Z.to_nat (low - min) < fuel)%nat → booting (λ _, False) s →
  runs (free_all_bootmem_core fuel bdata) s (λ c s', c = count_unreserved min (low - min) + map_pages ∧ booting handed_over s').
Proof.
  intros Hf HB. unfold free_all_bootmem_core. rewrite (no_map N). apply runs_bind.
  eapply runs_mono; [apply (free_words_runs fuel s min 0); [apply N|apply N|lia|lia| |by rewrite Z.sub_diag]|].
  { eapply booting_ext; [|exact HB]. intros x. split; [done|]. intros [? ?%unreserved_node]. lia. }
  cbn beta. intros c s1 [-> HB1]. fold map_pages. assert (0 <= map_pages) as Hmp by (apply Z.shiftr_nonneg, Z.land_nonneg; by right).
  apply runs_bind. eapply runs_mono; [eapply (free_map_pages_runs _ _ _ _ HB1)|].
  - intros x Hx. rewrite Z2Nat.id in Hx by done. split; [by apply (map_in_zone N)|]. by rewrite (map_reserved N x Hx).
  - cbn beta. intros _ s2 HB2. apply runs_ret. split; [done|]. eapply booting_ext; [|exact HB2]. intros x. unfold handed_over. by rewrite Z2Nat.id by done.
Qed.

(** The pages that are handed over, each once. *)
Definition handed_pages : list Z := filter (λ x, unreserved x = true) (seqZ min (low - min)) ++ seqZ (bootmem_map_pfn bdata) map_pages.

Lemma handed_pages_elem x : x ∈ handed_pages ↔ handed_over x.
Proof.
  unfold handed_pages, handed_over, in_map. rewrite elem_of_app, list_elem_of_filter, !elem_of_seqZ. split; [tauto|].
  intros [Hu|?]; [left|by right]. pose proof (unreserved_node _ Hu). split; [done|lia].
Qed.

Lemma handed_pages_nodup : NoDup handed_pages.
Proof.
  apply NoDup_app. split; [apply NoDup_filter, NoDup_seqZ|]. split; [|apply NoDup_seqZ].
  intros x [Hu _]%list_elem_of_filter Hx%elem_of_seqZ. by rewrite (map_reserved N x Hx) in Hu.
Qed.

Lemma handed_pages_length : Z.of_nat (length handed_pages) = count_unreserved min (low - min) + map_pages.
Proof.
  unfold handed_pages. rewrite length_app, length_seqZ. assert (0 <= map_pages) by (apply Z.shiftr_nonneg, Z.land_nonneg; by right).
  unfold count_unreserved. lia.
Qed.
End handover.

(** The zone is set up, the lists of the CPU too, and the memory is handed over. *)
Definition boot_zone `{Allocator} (early_pfn_valid : Z → bool) (sizeof_page absent dma_reserve : Z) (first : bool) (fuel : nat) (bdata : bootmem_data) : M zst Z :=
  (free_area_init_zone early_pfn_valid sizeof_page absent dma_reserve first;; setup_pageset_lists);;
  free_all_bootmem_core fuel bdata.

(** The allocator after boot.  From a zone with zeroed frames and any contents of its
    lists, setting it up and handing over what the boot allocator left returns, without a
    fault; the zone is then in order, the pages that can be allocated are those whose bit
    says that they are not reserved and those of the bitmap itself, and no others, and the
    number that is returned (and added to [totalram_pages]) is the number of pages that the
    counters of the zone and of the lists of the CPU say. *)
Theorem boot_hands_over `{Allocator} `{!CpuLists} early_pfn_valid sizeof_page absent dma_reserve first fuel bdata map s :
  0 < spanned_pages → blank s → (∀ x, in_zone x → early_pfn_valid x = true) →
  node_ok bdata map → (Z.to_nat (node_low_pfn bdata - node_min_pfn bdata) < fuel)%nat →
  runs (boot_zone early_pfn_valid sizeof_page absent dma_reserve first fuel bdata) s (λ count s',
    zone_sound s' ∧ (∀ x, available s' x ↔ handed_over bdata map x) ∧
    count = stat (vm_stat (zdata s')) NR_FREE_PAGES + pcp_count s').
Proof.
  intros Hsp Hb Hv N Hf. apply runs_bind. eapply runs_mono; [by apply zone_init_runs|]. cbn beta. intros _ s1 HB.
  eapply runs_mono; [by apply (free_all_bootmem_core_runs bdata map N)|]. cbn beta. intros c s2 (-> & B & HZ & Ha & _).
  destruct (zone_inv_sound _ _ HZ) as [Hs ->]. split; [done|]. split; [done|]. rewrite <- handed_pages_length. symmetry.
  apply available_counted; [done|by apply handed_pages_nodup|]. intros x. rewrite handed_pages_elem. symmetry. apply Ha.
Qed.


(** ** A zone of 1024 pages *)

Section demo.
#[local] Existing Instance demo_allocator.

#[local] Instance boot_cpu_lists : CpuLists.
Proof. split; vm_compute; congruence. Qed.

(** Its lists are not empty before. *)
Lemma demo_blank : blank demo_zone.
Proof.
  split.
  - intros h p [-> _]%demo_chain. by left.
  - apply (bi_map _ _ _ _ _ (proj1 demo_zone_inv)).
  - intros x Hx. exists (demo_frame x). split; [by apply demo_lookup|]. unfold demo_frame. by destruct (x =? 0).
  - by intros x f [Hx _]%demo_lookup _.
Qed.

(** A bitmap on page 1 whose words from [a] on, [n] of them, say that nothing is reserved. *)
Definition demo_map (a n k : Z) : Z := if (a <=? k) && (k <? a + n) then 0 else 2 ^ 32 - 1.
Definition demo_node (min low a n : Z) : bootmem_data := BootmemData min low (Some (demo_map a n)) 1 0 0.

Lemma demo_map_bits a n k : Z.testbit (demo_map a n (k / BITS_PER_LONG)) (k mod BITS_PER_LONG) = negb ((a <=? k / 32) && (k / 32 <? a + n)).
Proof.
  unfold demo_map. change BITS_PER_LONG with 32. destruct (_ && _); [apply Z.bits_0|]. change (2 ^ 32 - 1) with (Z.ones 32).
  apply Z.ones_spec_low, Z.mod_pos_bound. lia.
Qed.

Lemma demo_padded a n k : 0 <= a → 0 <= n → (a + n) * 32 <= k → Z.testbit (demo_map a n (k / BITS_PER_LONG)) (k mod BITS_PER_LONG) = true.
Proof.
  intros Ha Hn Hk. rewrite demo_map_bits. assert (a + n <= k / 32) by (apply Z.div_le_lower_bound; lia).
  rewrite (proj2 (Z.ltb_ge _ _)) by done. by rewrite andb_false_r.
Qed.

Lemma demo_in_map min low a n x : in_map (demo_node min low a n) x ↔ 1 <= x < 1 + bootmem_bootmap_pages (low - min).
Proof. done. Qed.

Lemma demo_node_ok : node_ok (demo_node 0 1024 1 31) (demo_map 1 31).
Proof.
  assert (∀ x, in_map (demo_node 0 1024 1 31) x → x = 1) as H1.
  { intros x Hx%demo_in_map. change (bootmem_bootmap_pages (1024 - 0)) with 1 in Hx. lia. }
  split; [done|by exists 0|done|done| | |].
  - intros k Hk _. apply demo_padded; [done|done|]. cbn in Hk. lia.
  - intros x ->%H1. done.
  - intros x ->%H1. vm_compute. reflexivity.
Qed.

Lemma boot_hands_over_witness : ∃ count s, boot_zone (λ _, true) 32 0 0 true 1025 (demo_node 0 1024 1 31) demo_zone = Ok (count, s) ∧
  zone_sound s ∧ ∀ x, available s x ↔ handed_over (demo_node 0 1024 1 31) (demo_map 1 31) x.
Proof.
  destruct (boot_hands_over (λ _, true) 32 0 0 true 1025 (demo_node 0 1024 1 31) (demo_map 1 31) demo_zone) as (c & s & E & H1 & H2 & _).
  - reflexivity.
  - exact demo_blank.
  - reflexivity.
  - exact demo_node_ok.
  - vm_compute. lia.
  - exists c, s. split; [exact E|]. split; [exact H1|exact H2].
Defined.

End demo.
