(* ===== verification/BootChain.v ===== *)
(** * From the registration of memory to the page allocator

    Puts the boot allocator of [Bootmem] and the set-up of the page allocator of [BuddyBoot]
    together: [arm_bootmem_init], any allocations and frees of boot memory, and the handing
    over of what is left.  The page allocator never gives out memory that is in use from
    before. *)

From S2P Require Import Prelude Hoare ArmPgtable Remap Lru Vmscan VmscanZone Watermark Buddy BuddyBlocks BuddyInv BuddyFree BuddyAlloc BuddyCpu BuddyApi BuddyProps Bootmem BootmemProps BuddyBoot.

(** The pages that the bitmap at page [bitmap] is on. *)
Definition on_bitmap (min low bitmap x : Z) : Prop := bitmap <= x < bitmap + bootmem_bootmap_pages (low - min).

Section chain.
Context `{A : Allocator} `{C : !CpuLists} (min low bitmap : Z) (memory reserved : list (Z * Z)).

(** The machine: a node that starts with a page of a number divisible by the size of a word
    and lies in the zone, regions in order, and a bitmap on reserved pages of the zone. *)
Record machine_ok : Prop := MachineOk {
  mc_node : 0 <= min < low ∧ low < 2 ^ 20;
  mc_aligned : (BITS_PER_LONG | min);
  mc_zone x : min <= x < low → in_zone x;
  mc_memory : regions_from true min memory;
  mc_reserved : regions_from false min reserved;
  mc_bitmap x : on_bitmap min low bitmap x → in_zone x ∧ in_regions reserved x = true;
}.

Context (K : machine_ok).

(** A page that is reserved is not given out. *)
Lemma reserved_not_boot x : in_regions reserved x = true → boot_pages min low memory reserved (x - min) = false.
Proof. intros Hx. unfold boot_pages. replace (min + (x - min)) with x by lia. rewrite Hx. apply andb_false_r. Qed.

(** What the boot allocator leaves is what the handing over needs. *)
Lemma booted_node_ok f m d L : node_min_pfn d = min → node_low_pfn d = low → bootmem_map_pfn d = bitmap → node_bootmem_map d = Some m → (∀ k, bit_of m k = f k) →
  boot_inv (boot_pages min low memory reserved) f d L → node_ok d m.
Proof.
  intros E1 E2 E3 Em Hf I. destruct K as [[Hn1 Hn2] Hal Hz _ _ Hbm].
  split; rewrite ?E1, ?E2; [done|done|lia|done|..].
  - intros k Hk Hk'. change (bit_of m k = true). rewrite Hf. apply (bm_padded _ _ _ _ I); unfold node_size; by rewrite E1, E2.
  - intros x Hx. apply Hbm. unfold in_map, map_pages in Hx. by rewrite E1, E2, E3 in Hx.
  - intros x Hx. unfold in_map, map_pages in Hx. rewrite E1, E2, E3 in Hx. destruct (Hbm x Hx) as [_ Hr%reserved_not_boot]. unfold unreserved. rewrite E1, E2.
    destruct (Z.leb_spec min x), (Z.ltb_spec x low); [|done..]. cbn [andb]. apply negb_false_iff. change (bit_of m (x - min) = true). rewrite Hf.
    destruct (f (x - min)) eqn:E; [done|]. rewrite (bm_free _ _ _ _ I) in Hr; [done|done|unfold node_size; lia].
Qed.

(** The pages that are handed over. *)
Lemma handed_over_pages f m d L x : node_min_pfn d = min → node_low_pfn d = low → bootmem_map_pfn d = bitmap → node_bootmem_map d = Some m → (∀ k, bit_of m k = f k) →
  boot_inv (boot_pages min low memory reserved) f d L →
  handed_over d m x ↔ (min <= x < low ∧ test_bit (x - min) d = Ok (false, d)) ∨ on_bitmap min low bitmap x.
Proof.
  intros E1 E2 E3 Em Hf I. unfold handed_over, in_map, map_pages. rewrite E1, E2, E3. apply or_iff_compat_r. unfold unreserved. rewrite E1, E2.
  change (Z.testbit _ _) with (bit_of m (x - min)). rewrite Hf. split.
  - intros [[?%Z.leb_le ?%Z.ltb_lt]%andb_true_iff Hb%negb_true_iff]%andb_true_iff. split; [lia|]. rewrite (test_bit_run f d); [by rewrite Hb|apply I|apply I|unfold node_size; lia].
  - intros [Hx Hb]. rewrite (test_bit_run f d) in Hb; [|apply I|apply I|unfold node_size; lia]. simplify_eq.
    rewrite (proj2 (Z.leb_le min x)), (proj2 (Z.ltb_lt x low)) by lia. cbn. by apply negb_true_iff.
Qed.

(** No byte that is in use lies on such a page. *)
Lemma handed_over_unused f d L x r y : node_min_pfn d = min → node_low_pfn d = low → boot_inv (boot_pages min low memory reserved) f d L →
  (min <= x < low ∧ test_bit (x - min) d = Ok (false, d)) ∨ on_bitmap min low bitmap x → r ∈ L → in_region r y → y / 4096 ≠ x - min.
Proof.
  intros E1 E2 I Hx Hr Hy E. destruct (bm_set _ _ _ _ I r y Hr Hy) as [Hf HF]. rewrite E in *. destruct Hx as [[Hx Hb]|Hx].
  - rewrite (test_bit_run f d) in Hb; [congruence|apply I|apply I|unfold node_size; lia].
  - destruct (mc_bitmap K x Hx) as [_ Hb%reserved_not_boot]. congruence.
Qed.
End chain.

(** C7. Memory in use at boot is never given out again.  After [arm_bootmem_init] and any
    allocations and frees of boot memory, setting up the zone and handing over the rest
    returns without a fault and leaves a zone that is in order; the pages that can be
    allocated are those of the node whose bit is clear and those of the bitmap itself, the
    number that is returned is what the counters of the zone and of the lists of the CPU
    say, and no page that can be allocated holds a byte of a region that is in use. *)
Theorem boot_memory_kept `{Allocator} `{!CpuLists} early_pfn_valid sizeof_page absent dma_reserve first fuel min low bitmap memory reserved d0 d1 d L s :
  machine_ok min low bitmap memory reserved → unused d0 → 0 < spanned_pages → blank s → (∀ x, in_zone x → early_pfn_valid x = true) →
  arm_bootmem_init min low bitmap memory reserved d0 = Ok ((), d1) → rtc boot_step (d1, ∅) (d, L) → (Z.to_nat (low - min) < fuel)%nat →
  runs (boot_zone early_pfn_valid sizeof_page absent dma_reserve first fuel d) s (λ count s',
    zone_sound s' ∧ (∀ x, available s' x ↔ (min <= x < low ∧ test_bit (x - min) d = Ok (false, d)) ∨ on_bitmap min low bitmap x) ∧
    count = stat (vm_stat (zdata s')) NR_FREE_PAGES + pcp_count s' ∧
    (∀ x r y, available s' x → r ∈ L → in_region r y → y / 4096 ≠ x - min)).
Proof.
  intros K HU Hsp Hb Hv E Hs Hfuel. pose proof K as [[Hn1 Hn2] _ _ Hmem Hres _]. destruct (booted_inv _ _ _ _ _ _ _ _ _ HU Hn1 Hn2 Hmem Hres E Hs) as (E1 & E2 & E3 & f & I).
  destruct (bm_bits _ _ _ _ I) as (m & Em & Hf). pose proof (booted_node_ok _ _ _ _ _ K _ _ _ _ E1 E2 E3 Em Hf I) as N.
  eapply runs_mono; [apply (boot_hands_over early_pfn_valid sizeof_page absent dma_reserve first fuel d m s Hsp Hb Hv N); by rewrite E1, E2|].
  cbn beta. intros count s' (Hz & Ha & Hc).
  assert (∀ x, available s' x ↔ (min <= x < low ∧ test_bit (x - min) d = Ok (false, d)) ∨ on_bitmap min low bitmap x) as Ha'.
  { intros x. rewrite Ha. by eapply handed_over_pages. }
  split_and!; [done|done|done|]. intros x r y Hx%Ha'. by eapply handed_over_unused.
Qed.

(** ** A zone of 1024 pages, of which 64 are boot memory *)

Section demo.
#[local] Existing Instance demo_allocator.
#[local] Existing Instance boot_cpu_lists.

Lemma demo_machine : machine_ok 0 64 1 [(0, 64)] [(0, 2)].
Proof.
  split; [lia|by exists 0|..].
  - intros x Hx. unfold in_zone. cbn. lia.
  - cbn. lia.
  - cbn. lia.
  - intros x Hx. unfold on_bitmap in Hx. change (bootmem_bootmap_pages (64 - 0)) with 1 in Hx. assert (x = 1) as -> by lia. split; [unfold in_zone; cbn; lia|done].
Qed.

Lemma test_bit_value nr b d : value_left (test_bit nr d) = Some b → test_bit nr d = Ok (b, d).
Proof.
  unfold test_bit, at_bit. destruct (node_bootmem_map d) as [m|] eqn:E; [|done]. destruct (_ && _); [|done]. cbn. intros [= ->]. by rewrite set_map_id.
Qed.

(** The page of the region that is still in use cannot be allocated, the first one that was
    freed can. *)
Lemma boot_memory_kept_witness : ∃ count s, boot_zone (λ _, true) 32 0 0 true 1025 demo_boot demo_zone = Ok (count, s) ∧ zone_sound s ∧
  ¬ available s 3 ∧ available s 2.
Proof.
  destruct (boot_memory_kept (λ _, true) 32 0 0 true 1025 0 64 1 [(0, 64)] [(0, 2)] demo_fresh demo_boot0 demo_boot demo_live demo_zone) as (c & s & E & H1 & H2 & _ & H3).
  - exact demo_machine.
  - split; reflexivity.
  - reflexivity.
  - exact demo_blank.
  - reflexivity.
  - exact demo_inited.
  - exact demo_boot_steps.
  - vm_compute. lia.
  - exists c, s. split; [exact E|]. split; [exact H1|]. split.
    + intros Ha. apply (H3 3 (13192, 100) 13192 Ha); [unfold demo_live; set_solver|split; cbn; lia|reflexivity].
    + apply H2. left. split; [lia|]. apply test_bit_value. vm_compute. reflexivity.
Defined.
End demo.
