(* ===== verification/PageAlloc.v ===== *)
(** * Allocation from the zones of a node

    Models [__alloc_pages_nodemask] of [mm/page_alloc.c] with the choice of a zone by
    watermarks ([get_page_from_freelist]) and the slow path: waking the daemon, reserves for
    urgent requests, direct reclaim, the OOM killer and retries; for one node without cpusets
    and compaction. The dirty limits of zones of [mm/page-writeback.c] and the lock of the
    OOM killer of [mm/oom_kill.c] are part of it.

    The state has the allocator of each zone. The task that allocates and the settings of
    the system are fields of the class [AllocEnv]; what gives pages back, waits or kills is
    an operation of it. *)

From S2P Require Import Prelude Lru Vmscan VmscanZone Watermark Buddy.

Definition __GFP_WAIT : Z := 0x10.
Definition __GFP_HIGH : Z := 0x20.
Definition __GFP_NOFAIL : Z := 0x800.
Definition __GFP_NORETRY : Z := 0x1000.
Definition __GFP_NOMEMALLOC : Z := 0x10000.
Definition __GFP_HARDWALL : Z := 0x20000.
Definition __GFP_THISNODE : Z := 0x40000.
Definition __GFP_RECLAIMABLE : Z := 0x80000.
Definition __GFP_NO_KSWAPD : Z := 0x400000.
Definition __GFP_WRITE : Z := 0x1000000.

Definition WMARK_MIN : Z := 0.
Definition WMARK_LOW : Z := 1.
Definition WMARK_HIGH : Z := 2.
Definition ALLOC_WMARK_MIN : Z := WMARK_MIN.
Definition ALLOC_WMARK_LOW : Z := WMARK_LOW.
Definition ALLOC_WMARK_HIGH : Z := WMARK_HIGH.
Definition ALLOC_NO_WATERMARKS : Z := 0x04.
Definition ALLOC_WMARK_MASK : Z := ALLOC_NO_WATERMARKS - 1.
Definition ALLOC_CPUSET : Z := 0x40.

Definition PF_DUMPCORE : Z := 0x200.
Definition PF_MEMALLOC : Z := 0x800.
Definition PF_LESS_THROTTLE : Z := 0x100000.
Definition NR_FILE_DIRTY : Z := 10.
Definition NR_WRITEBACK : Z := 11.
Definition NR_UNSTABLE_NFS : Z := 16.
Definition page_bytes : Z := 4096.

Record node := Node {
  nzones : gmap Z zst;
  oom_locked : gset Z;
}.

Definition set_nzones (x : gmap Z zst) (s : node) : node := Node x (oom_locked s).
Definition set_oom_locked (x : gset Z) (s : node) : node := Node (nzones s) x.

Class AllocEnv := {
  zone_conf : Z → Allocator;
  node_zonelist : list Z;
  mobility_disabled : bool;
  (* the task *)
  task_flags : Z;
  tif_memdie : bool;
  rt_task : bool;
  in_interrupt : bool;
  (* the system *)
  oom_disabled : bool;
  pm_suspended_storage : bool;
  gfp_allowed_mask : Z;
  free_swap : Z;
  vm_dirty_bytes : Z;
  vm_dirty_ratio : Z;
  vm_highmem_is_dirtyable : bool;
  dirty_balance_reserve : Z;
  zone_dirty_reserve : Z → Z;
  (* what others do *)
  reclaim_pages : Z → Z → M node Z;
  wake_daemon : Z → Z → Z → M node ();
  wait_congested : Z → M node ();
  out_of_memory : Z → Z → M node ();
  sleep_uninterruptible : Z → M node ();
}.

(** An action on the allocator of one zone. *)
Definition on_zone {A} (z : Z) (m : M zst A) : M node A := λ s,
  match nzones s !! z with
  | None => Err (BadAddr z)
  | Some t =>
      match m t with
      | Ok (a, t') => Ok (a, set_nzones (<[z := t']> (nzones s)) s)
      | Err e => Err e
      end
  end.

Definition zone_data (z : Z) : M node zone := on_zone z (gets zdata).

Section alloc.
Context `{AllocEnv}.

(** ** Dirty limits *)

Fixpoint sum_zones (zs : list Z) (f : zone → Z) (n : Z) : M node Z :=
  match zs with
  | [] => mret n
  | z :: zs =>
      zd ← zone_data z;
      sum_zones zs f (u32 (n + f zd))
  end.

Definition global_page_state (item : Z) : M node Z := sum_zones node_zonelist (λ zd, zone_page_state zd item) 0.

Definition global_reclaimable_pages : M node Z :=
  af ← global_page_state NR_ACTIVE_FILE;
  nf ← global_page_state NR_INACTIVE_FILE;
  if 0 <? free_swap then
    aa ← global_page_state NR_ACTIVE_ANON;
    na ← global_page_state NR_INACTIVE_ANON;
    mret (u32 (af + nf + (aa + na)))
  else mret (u32 (af + nf)).

Definition highmem_dirtyable_memory (total : Z) : M node Z :=
  zd ← zone_data ZONE_HIGHMEM;
  let x := u32 (zone_page_state zd NR_FREE_PAGES + zone_reclaimable_pages zd free_swap - zone_dirty_reserve ZONE_HIGHMEM) in
  let x := if s32 x <? 0 then 0 else x in
  mret (Z.min x total).

Definition global_dirtyable_memory : M node Z :=
  free ← global_page_state NR_FREE_PAGES;
  reclaimable ← global_reclaimable_pages;
  let x := u32 (free + reclaimable) in
  let x := x - Z.min x dirty_balance_reserve in
  if negb vm_highmem_is_dirtyable then
    h ← highmem_dirtyable_memory x;
    mret (u32 (x - h + 1))
  else mret (u32 (x + 1)).

Definition zone_dirtyable_memory (z : Z) (zd : zone) : Z :=
  let nr_pages := u32 (zone_page_state zd NR_FREE_PAGES + zone_reclaimable_pages zd free_swap) in
  nr_pages - Z.min nr_pages (zone_dirty_reserve z).

Definition zone_dirty_limit (z : Z) (zd : zone) : M node Z :=
  let zone_memory := zone_dirtyable_memory z zd in
  dirty ← (if negb (vm_dirty_bytes =? 0) then
             g ← global_dirtyable_memory;
             if g =? 0 then fail DivByZero
             else mret (u32 (u32 (vm_dirty_bytes + page_bytes - 1) / page_bytes * zone_memory) / g)
           else mret (u32 (vm_dirty_ratio * zone_memory) / 100));
  mret (if has task_flags PF_LESS_THROTTLE || rt_task then u32 (dirty + dirty / 4) else dirty).

Definition zone_dirty_ok (z : Z) : M node bool :=
  zd ← zone_data z;
  limit ← zone_dirty_limit z zd;
  mret (u32 (zone_page_state zd NR_FILE_DIRTY + zone_page_state zd NR_UNSTABLE_NFS + zone_page_state zd NR_WRITEBACK) <=? limit).

(** ** The choice of a zone *)

Definition zone_watermark (zd : zone) (i : Z) : option Z :=
  if i =? WMARK_MIN then Some (min_wmark_pages zd)
  else if i =? WMARK_LOW then Some (low_wmark_pages zd)
  else if i =? WMARK_HIGH then Some (high_wmark_pages zd)
  else None.

(** Whether the zone may serve the request. *)
Definition zone_suits (z gfp_mask order alloc_flags classzone_idx : Z) : M node bool :=
  dirty ← (if has alloc_flags ALLOC_WMARK_LOW && has gfp_mask __GFP_WRITE then
             ok ← zone_dirty_ok z;
             mret (negb ok)
           else mret false);
  if (dirty : bool) then mret false
  else if has alloc_flags ALLOC_NO_WATERMARKS then mret true
  else
    zd ← zone_data z;
    mark ← of_option (BadAddr alloc_flags) (zone_watermark zd (Z.land alloc_flags ALLOC_WMARK_MASK));
    mret (zone_watermark_ok zd order mark classzone_idx alloc_flags).

(** The zone and the page. *)
Fixpoint freelist_loop (zs : list Z) (gfp_mask order alloc_flags classzone_idx migratetype : Z) : M node (option (Z * Z)) :=
  match zs with
  | [] => mret None
  | z :: zs =>
      ok ← zone_suits z gfp_mask order alloc_flags classzone_idx;
      if negb (ok : bool) then freelist_loop zs gfp_mask order alloc_flags classzone_idx migratetype
      else
        r ← on_zone z (@buffered_rmqueue (zone_conf z) 0 order gfp_mask migratetype);
        match r with
        | Some page => mret (Some (z, page))
        | None => freelist_loop zs gfp_mask order alloc_flags classzone_idx migratetype
        end
  end.

Definition get_page_from_freelist (gfp_mask order high_zoneidx alloc_flags preferred_zone migratetype : Z) : M node (option (Z * Z)) :=
  freelist_loop (zones_upto node_zonelist high_zoneidx) gfp_mask order alloc_flags preferred_zone migratetype.

(** ** The slow path *)

Definition should_alloc_retry (gfp_mask order did_some_progress pages_reclaimed : Z) : bool :=
  if has gfp_mask __GFP_NORETRY then false
  else if has gfp_mask __GFP_NOFAIL then true
  else if (did_some_progress =? 0) && pm_suspended_storage then false
  else if order <=? PAGE_ALLOC_COSTLY_ORDER then true
  else has gfp_mask __GFP_REPEAT && (pages_reclaimed <? Z.shiftl 1 order).

(** The lock of the OOM killer. *)
Definition try_set_zonelist_oom (gfp_mask : Z) : M node bool :=
  let zs := zones_upto node_zonelist (gfp_zone gfp_mask) in
  locked ← gets oom_locked;
  if existsb (λ z, bool_decide (z ∈ locked)) zs then mret false
  else
    modify (set_oom_locked (list_to_set zs ∪ locked));;
    mret true.

Definition clear_zonelist_oom (gfp_mask : Z) : M node () :=
  let zs := zones_upto node_zonelist (gfp_zone gfp_mask) in
  modify (λ s, set_oom_locked (oom_locked s ∖ list_to_set zs) s).

Definition __alloc_pages_may_oom (gfp_mask order high_zoneidx preferred_zone migratetype : Z) : M node (option (Z * Z)) :=
  locked ← try_set_zonelist_oom gfp_mask;
  if negb (locked : bool) then
    sleep_uninterruptible 1;;
    mret None
  else
    page ← get_page_from_freelist (Z.lor gfp_mask __GFP_HARDWALL) order high_zoneidx (Z.lor ALLOC_WMARK_HIGH ALLOC_CPUSET) preferred_zone migratetype;
    when (match page with Some _ => false | None => true end &&
          (has gfp_mask __GFP_NOFAIL ||
           negb ((PAGE_ALLOC_COSTLY_ORDER <? order) || (high_zoneidx <? ZONE_NORMAL) || has gfp_mask __GFP_THISNODE)))
      (out_of_memory gfp_mask order);;
    clear_zonelist_oom gfp_mask;;
    mret page.

(** The lists of the CPU are drained in every zone. *)
Fixpoint drain_zones (zs : list Z) : M node () :=
  match zs with
  | [] => mret ()
  | z :: zs =>
      zd ← zone_data z;
      when (populated_zone zd) (on_zone z drain_pages);;
      drain_zones zs
  end.

Definition drain_all_pages : M node () := drain_zones node_zonelist.

(** The page, and the progress that reclaim made. *)
Definition __alloc_pages_direct_reclaim (gfp_mask order high_zoneidx alloc_flags preferred_zone migratetype : Z) : M node (option (Z * Z) * Z) :=
  did_some_progress ← reclaim_pages order gfp_mask;
  if did_some_progress =? 0 then mret (None, 0)
  else
    page ← get_page_from_freelist gfp_mask order high_zoneidx alloc_flags preferred_zone migratetype;
    match page with
    | Some _ => mret (page, did_some_progress)
    | None =>
        drain_all_pages;;
        page ← get_page_from_freelist gfp_mask order high_zoneidx alloc_flags preferred_zone migratetype;
        mret (page, did_some_progress)
    end.

(** What an allocation ends in; [Retrying] if it is still trying after the given number of
    attempts. *)
Inductive outcome :=
  | Got (z page : Z)
  | NoPage
  | Retrying.

Fixpoint __alloc_pages_high_priority (retries : nat) (gfp_mask order high_zoneidx preferred_zone migratetype : Z) : M node outcome :=
  page ← get_page_from_freelist gfp_mask order high_zoneidx ALLOC_NO_WATERMARKS preferred_zone migratetype;
  match page with
  | Some (z, p) => mret (Got z p)
  | None =>
      if has gfp_mask __GFP_NOFAIL then
        wait_congested preferred_zone;;
        match retries with
        | O => mret Retrying
        | S retries => __alloc_pages_high_priority retries gfp_mask order high_zoneidx preferred_zone migratetype
        end
      else mret NoPage
  end.

Fixpoint wake_zones (zs : list Z) (order classzone_idx : Z) : M node () :=
  match zs with
  | [] => mret ()
  | z :: zs =>
      wake_daemon z order classzone_idx;;
      wake_zones zs order classzone_idx
  end.

Definition wake_all_kswapd (order high_zoneidx classzone_idx : Z) : M node () :=
  wake_zones (zones_upto node_zonelist high_zoneidx) order classzone_idx.

Definition gfp_to_alloc_flags (gfp_mask : Z) : Z :=
  let alloc_flags := Z.lor ALLOC_WMARK_MIN ALLOC_CPUSET in
  let alloc_flags := Z.lor alloc_flags (Z.land gfp_mask __GFP_HIGH) in
  let alloc_flags :=
    if negb (has gfp_mask __GFP_WAIT) then
      Z.ldiff (if negb (has gfp_mask __GFP_NOMEMALLOC) then Z.lor alloc_flags ALLOC_HARDER else alloc_flags) ALLOC_CPUSET
    else if rt_task && negb in_interrupt then Z.lor alloc_flags ALLOC_HARDER
    else alloc_flags in
  if negb (has gfp_mask __GFP_NOMEMALLOC) && negb in_interrupt && (has task_flags PF_MEMALLOC || tif_memdie)
  then Z.lor alloc_flags ALLOC_NO_WATERMARKS else alloc_flags.

(** What the code does next after direct reclaim has found no page. *)
Inductive next_step :=
  | Finish (r : outcome)
  | Restart
  | Rebalance (pages_reclaimed : Z).

Definition after_reclaim (gfp_mask order high_zoneidx preferred_zone migratetype did_some_progress pages_reclaimed : Z) : M node next_step :=
  if (did_some_progress =? 0) && has gfp_mask __GFP_FS && negb (has gfp_mask __GFP_NORETRY) then
    if oom_disabled then mret (Finish NoPage)
    else if has task_flags PF_DUMPCORE && negb (has gfp_mask __GFP_NOFAIL) then mret (Finish NoPage)
    else
      page ← __alloc_pages_may_oom gfp_mask order high_zoneidx preferred_zone migratetype;
      match page with
      | Some (z, p) => mret (Finish (Got z p))
      | None =>
          if negb (has gfp_mask __GFP_NOFAIL) && ((PAGE_ALLOC_COSTLY_ORDER <? order) || (high_zoneidx <? ZONE_NORMAL)) then mret (Finish NoPage)
          else mret Restart
      end
  else
    let pages_reclaimed := u32 (pages_reclaimed + did_some_progress) in
    if should_alloc_retry gfp_mask order did_some_progress pages_reclaimed then
      wait_congested preferred_zone;;
      mret (Rebalance pages_reclaimed)
    else mret (Finish NoPage).

(** One attempt, from the label [rebalance]; there is no compaction. *)
Definition rebalance (retries : nat) (gfp_mask order high_zoneidx alloc_flags preferred_zone migratetype pages_reclaimed : Z) : M node next_step :=
  page ← get_page_from_freelist gfp_mask order high_zoneidx (Z.ldiff alloc_flags ALLOC_NO_WATERMARKS) preferred_zone migratetype;
  match page with
  | Some (z, p) => mret (Finish (Got z p))
  | None =>
      urgent ← (if has alloc_flags ALLOC_NO_WATERMARKS then
                  __alloc_pages_high_priority retries gfp_mask order high_zoneidx preferred_zone migratetype
                else mret NoPage);
      match urgent with
      | NoPage =>
          if negb (has gfp_mask __GFP_WAIT) then mret (Finish NoPage)
          else if has task_flags PF_MEMALLOC then mret (Finish NoPage)
          else if tif_memdie && negb (has gfp_mask __GFP_NOFAIL) then mret (Finish NoPage)
          else
            r ← __alloc_pages_direct_reclaim gfp_mask order high_zoneidx alloc_flags preferred_zone migratetype;
            match r.1 with
            | Some (z, p) => mret (Finish (Got z p))
            | None => after_reclaim gfp_mask order high_zoneidx preferred_zone migratetype r.2 pages_reclaimed
            end
      | _ => mret (Finish urgent)
      end
  end.

(** The attempts; [restart] if the next one begins by waking the daemon. *)
Fixpoint slowpath_loop (retries : nat) (restart : bool) (gfp_mask order high_zoneidx preferred_zone migratetype pages_reclaimed : Z) : M node outcome :=
  when (restart && negb (has gfp_mask __GFP_NO_KSWAPD)) (wake_all_kswapd order high_zoneidx preferred_zone);;
  next ← rebalance retries gfp_mask order high_zoneidx (gfp_to_alloc_flags gfp_mask) preferred_zone migratetype pages_reclaimed;
  match next, retries with
  | Finish r, _ => mret r
  | _, O => mret Retrying
  | Restart, S retries => slowpath_loop retries true gfp_mask order high_zoneidx preferred_zone migratetype pages_reclaimed
  | Rebalance n, S retries => slowpath_loop retries false gfp_mask order high_zoneidx preferred_zone migratetype n
  end.

Definition __alloc_pages_slowpath (retries : nat) (gfp_mask order high_zoneidx preferred_zone migratetype : Z) : M node outcome :=
  if MAX_ORDER <=? order then mret NoPage
  else slowpath_loop retries true gfp_mask order high_zoneidx preferred_zone migratetype 0.

Definition allocflags_to_migratetype (gfp_flags : Z) : Z :=
  if mobility_disabled then MIGRATE_UNMOVABLE
  else Z.lor (Z.shiftl (b2z (has gfp_flags __GFP_MOVABLE)) 1) (b2z (has gfp_flags __GFP_RECLAIMABLE)).

Definition __alloc_pages_nodemask (retries : nat) (gfp_mask order : Z) : M node outcome :=
  let high_zoneidx := gfp_zone gfp_mask in
  let migratetype := allocflags_to_migratetype gfp_mask in
  let gfp_mask := Z.land gfp_mask gfp_allowed_mask in
  match zones_upto node_zonelist high_zoneidx with
  | [] => mret NoPage
  | preferred_zone :: _ =>
      page ← get_page_from_freelist (Z.lor gfp_mask __GFP_HARDWALL) order high_zoneidx (Z.lor ALLOC_WMARK_LOW ALLOC_CPUSET) preferred_zone migratetype;
      match page with
      | Some (z, p) => mret (Got z p)
      | None => __alloc_pages_slowpath retries gfp_mask order high_zoneidx preferred_zone migratetype
      end
  end.
End alloc.
