(* ===== verification/PageAllocInv.v ===== *)
(** * Allocation from the zones of a node against the invariant

    Each zone of the node keeps the promises of [BuddyProps]. The choice of a zone and the
    slow path return, and what they return is a block that nobody owns. *)

From S2P Require Import Prelude Hoare Lru LruInv Vmscan VmscanZone Watermark Buddy BuddyBlocks BuddyInv BuddyFree BuddyAlloc BuddyCpu BuddyApi BuddyProps PageAlloc.

Section inv.
Context `{E : AllocEnv}.

(** The owners of the pages of each zone; [F] has the pages that the zones were given. *)
Record node_owners (F : Z → Z → Prop) (s : node) (O : Z → blocks) : Prop := NodeOwners {
  no_zone z : z ∈ node_zonelist → is_Some (nzones s !! z);
  no_highmem : is_Some (nzones s !! ZONE_HIGHMEM);
  no_owners z t : nzones s !! z = Some t → @owners_ok (zone_conf z) (F z) t (O z);
}.

Definition keeps (M O : Z → blocks) : Prop := ∀ z, M z ⊆ O z.

(** What others do while a task waits: they may allocate and free, but leave the blocks
    [M] of the task to it. *)
Definition others_keep {X} (m : M node X) : Prop := ∀ F s O M, node_owners F s O → keeps M O →
  runs m s (λ _ s', ∃ O', node_owners F s' O' ∧ keeps M O').
End inv.

Class AllocEnvLaws (E : AllocEnv) : Prop := {
  conf_lists z : @CpuLists (zone_conf z);
  dirty_reserve : 0 < dirty_balance_reserve;
  reclaim_law order gfp : others_keep (reclaim_pages order gfp);
  wake_law z order classzone : others_keep (wake_daemon z order classzone);
  wait_law z : others_keep (wait_congested z);
  oom_law gfp order : others_keep (out_of_memory gfp order);
  sleep_law n : others_keep (sleep_uninterruptible n);
}.

Section alloc.
Context `{E : AllocEnv} {L : AllocEnvLaws E}.
#[local] Existing Instance conf_lists.

(** ** Actions on one zone *)

Lemma runs_on_zone {X} z t (m : Prelude.M zst X) s Q : nzones s !! z = Some t → runs m t (λ a t', Q a (set_nzones (<[z := t']> (nzones s)) s)) →
  runs (on_zone z m) s Q.
Proof. intros Hz (a & t' & Em & HQ). eexists _, _. split; [|exact HQ]. unfold on_zone. by rewrite Hz, Em. Qed.

Lemma on_zone_id z t (s : node) : nzones s !! z = Some t → set_nzones (<[z := t]> (nzones s)) s = s.
Proof. intros Hz. unfold set_nzones. rewrite insert_id by done. by destruct s. Qed.

Lemma zone_data_run z t s : nzones s !! z = Some t → zone_data z s = Ok (zdata t, s).
Proof. intros Hz. unfold zone_data, on_zone. rewrite Hz. cbn. by rewrite on_zone_id. Qed.

Lemma set_zone_owners F s O z t B : node_owners F s O → is_Some (nzones s !! z) → @owners_ok (zone_conf z) (F z) t B →
  node_owners F (set_nzones (<[z := t]> (nzones s)) s) (λ y, if decide (z = y) then B else O y).
Proof.
  intros [Z1 Z2 Z3] Hz Ht. split; cbn.
  - intros y Hy. destruct (decide (z = y)) as [<-|]; [rewrite lookup_insert_eq; by eexists|rewrite lookup_insert_ne by done; by apply Z1].
  - destruct (decide (z = ZONE_HIGHMEM)) as [->|]; [rewrite lookup_insert_eq; by eexists|by rewrite lookup_insert_ne].
  - intros y u. destruct (decide (z = y)) as [<-|]; [rewrite lookup_insert_eq; by intros [= <-]|rewrite lookup_insert_ne by done; apply Z3].
Qed.

(** ** Reading the zones *)

Lemma sum_zones_run F s O zs f n : node_owners F s O → (∀ z, z ∈ zs → z ∈ node_zonelist) → ∃ m, sum_zones zs f n s = Ok (m, s).
Proof.
  intros N. revert n. induction zs as [|z zs IH]; intros n Hzs; cbn [sum_zones]; [by exists n|].
  destruct (no_zone _ _ _ N z (Hzs z ltac:(left))) as [t Ht]. erewrite bind_Ok by (by apply zone_data_run). apply IH. intros y Hy. apply Hzs. by right.
Qed.

Lemma global_state_run F s O item : node_owners F s O → ∃ m, global_page_state item s = Ok (m, s).
Proof. intros N. by eapply sum_zones_run. Qed.

Lemma global_reclaimable_run F s O : node_owners F s O → ∃ m, global_reclaimable_pages s = Ok (m, s).
Proof.
  intros N. unfold global_reclaimable_pages. destruct (global_state_run F s O NR_ACTIVE_FILE N) as [a Ea]. erewrite bind_Ok by exact Ea.
  destruct (global_state_run F s O NR_INACTIVE_FILE N) as [b Eb]. erewrite bind_Ok by exact Eb. destruct (0 <? free_swap); [|by eexists].
  destruct (global_state_run F s O NR_ACTIVE_ANON N) as [c Ec]. erewrite bind_Ok by exact Ec.
  destruct (global_state_run F s O NR_INACTIVE_ANON N) as [d Ed]. erewrite bind_Ok by exact Ed. by eexists.
Qed.

Lemma highmem_run F s O x : node_owners F s O → ∃ m, highmem_dirtyable_memory x s = Ok (m, s) ∧ (0 <= x → 0 <= m <= x).
Proof.
  intros N. unfold highmem_dirtyable_memory. destruct (no_highmem _ _ _ N) as [t Ht]. erewrite bind_Ok by (by apply zone_data_run).
  eexists. split; [done|]. set (y := u32 _). assert (0 <= y) by apply u32_range. destruct (s32 y <? 0); lia.
Qed.

Lemma global_dirtyable_run F s O : node_owners F s O → ∃ m, global_dirtyable_memory s = Ok (m, s) ∧ 0 < m.
Proof.
  intros N. pose proof dirty_reserve as Hr. unfold global_dirtyable_memory. destruct (global_state_run F s O NR_FREE_PAGES N) as [a Ea]. erewrite bind_Ok by exact Ea.
  destruct (global_reclaimable_run F s O N) as [b Eb]. erewrite bind_Ok by exact Eb. pose proof (u32_range (a + b)) as Hx. unfold is_u32 in Hx. cbv zeta.
  set (x := u32 (a + b) - Z.min (u32 (a + b)) dirty_balance_reserve). assert (0 <= x < 2 ^ 32 - 1) as Hx' by lia. destruct (negb vm_highmem_is_dirtyable).
  - destruct (highmem_run F s O x N) as (h & Eh & Hh). erewrite bind_Ok by exact Eh. specialize (Hh ltac:(lia)). eexists. split; [done|].
    rewrite u32_id by (unfold is_u32; lia). lia.
  - eexists. split; [done|]. rewrite u32_id by (unfold is_u32; lia). lia.
Qed.

Lemma zone_dirty_ok_run F s O z : node_owners F s O → is_Some (nzones s !! z) → ∃ b, zone_dirty_ok z s = Ok (b, s).
Proof.
  intros N [t Ht]. unfold zone_dirty_ok. erewrite bind_Ok by (by apply zone_data_run).
  assert (∃ l, zone_dirty_limit z (zdata t) s = Ok (l, s)) as [l El]; [|erewrite bind_Ok by exact El; by eexists].
  unfold zone_dirty_limit. destruct (negb (vm_dirty_bytes =? 0)); [|erewrite bind_Ok by done; by eexists].
  destruct (global_dirtyable_run F s O N) as (g & Eg & Hg). eexists. erewrite bind_Ok; [done|]. erewrite bind_Ok by exact Eg.
  by destruct (Z.eqb_spec g 0); [lia|].
Qed.

(** The marks of a zone that the flags of an allocation may select. *)
Definition wmark_ok (alloc_flags : Z) : Prop := Z.land alloc_flags ALLOC_WMARK_MASK < 3.

Lemma zone_suits_run F s O z gfp order fl cl : node_owners F s O → is_Some (nzones s !! z) → wmark_ok fl ∨ has fl ALLOC_NO_WATERMARKS = true →
  ∃ b, zone_suits z gfp order fl cl s = Ok (b, s).
Proof.
  intros N Hz Hfl. unfold zone_suits. assert (∃ d, (if has fl ALLOC_WMARK_LOW && has gfp __GFP_WRITE then ok ← zone_dirty_ok z; mret (negb ok) else mret false) s = Ok (d, s)) as [d Ed].
  { destruct (_ && _); [|by eexists]. destruct (zone_dirty_ok_run F s O z N Hz) as [b Eb]. eexists. by erewrite bind_Ok by exact Eb. }
  erewrite bind_Ok by exact Ed. destruct d; [by eexists|]. destruct (has fl ALLOC_NO_WATERMARKS); [by eexists|].
  destruct Hz as [t Ht]. erewrite bind_Ok by (by apply zone_data_run). destruct Hfl as [Hfl|]; [|done]. unfold wmark_ok in Hfl.
  assert (0 <= Z.land fl ALLOC_WMARK_MASK) by (apply Z.land_nonneg; right; done).
  assert (∃ m, zone_watermark (zdata t) (Z.land fl ALLOC_WMARK_MASK) = Some m) as [m ->].
  { unfold zone_watermark. assert (Z.land fl ALLOC_WMARK_MASK = 0 ∨ Z.land fl ALLOC_WMARK_MASK = 1 ∨ Z.land fl ALLOC_WMARK_MASK = 2) as [->|[->| ->]] by lia; by eexists. }
  cbn [of_option]. erewrite bind_Ok by done. by eexists.
Qed.

(** ** The choice of a zone *)

(** A request that the allocator serves. *)
Definition zones_valid (zs : list Z) : Prop := ∀ z, z ∈ zs → z ∈ node_zonelist.

Lemma zones_upto_valid h : zones_valid (zones_upto node_zonelist h).
Proof. intros z [_ Hz]%list_elem_of_filter. done. Qed.

(** A block that the task [M] has been given. *)
Definition granted (zs : list Z) (M O : Z → blocks) (order z p : Z) (s : node) : Prop :=
  z ∈ zs ∧ (p, order) ∈ O z ∧ (∀ x, in_block p order x → ¬ covers (M z) x) ∧ ∃ t, nzones s !! z = Some t ∧ @may_free (zone_conf z) p order t.

Definition served (F : Z → Z → Prop) (M : Z → blocks) (zs : list Z) (order : Z) (r : option (Z * Z)) (s : node) : Prop :=
  ∃ O, node_owners F s O ∧ keeps M O ∧ ∀ z p, r = Some (z, p) → granted zs M O order z p s.

Lemma zone_alloc_spec F s O M z order gfp t zt : node_owners F s O → keeps M O → nzones s !! z = Some zt → @request_ok_for order t →
  runs (@buffered_rmqueue (zone_conf z) 0 order gfp t) zt (λ r t', ∃ B, @owners_ok (zone_conf z) (F z) t' B ∧ M z ⊆ B ∧
    match r with Some p => (p, order) ∈ B ∧ (∀ x, in_block p order x → ¬ covers (M z) x) ∧ @may_free (zone_conf z) p order t' | None => no_page order t zt end).
Proof.
  intros N K Hz Hr. pose proof (no_owners _ _ _ N z zt Hz) as Hok. pose proof Hr as [Ho Ht].
  pose proof (alloc_owners _ 0 order gfp t zt _ Hok Hr) as R1. pose proof (buffered_rmqueue_spec 0 _ zt order gfp t (oo_sound _ _ _ Hok) Ho Ht) as R2.
  eapply runs_mono; [exact (runs_and _ _ _ _ R1 R2)|]. cbn beta. intros [p|] t' [H1 H2].
  - destruct H2 as (B' & Z' & Own & [Gav _]). eexists. split; [exact H1|]. split; [pose proof (K z); set_solver|]. split; [set_solver|]. split.
    + intros x Hx (q & k & Hq & Hxq). apply (oo_owned _ _ _ Hok x); [exists q, k; split; [by apply K|done]|]. apply Gav. by right.
    + intros x Hx. by apply Own.
  - destruct H1 as [H1 Hno]. eexists. split; [exact H1|]. split; [apply K|exact Hno].
Qed.

Lemma served_none F s O M zs order : node_owners F s O → keeps M O → served F M zs order None s.
Proof. intros N K. by exists O. Qed.

Lemma freelist_loop_spec F M zs order gfp fl cl t zs0 : zones_valid zs → (∀ z, z ∈ zs → z ∈ zs0) → request_ok_for order t → wmark_ok fl ∨ has fl ALLOC_NO_WATERMARKS = true →
  ∀ s O, node_owners F s O → keeps M O → runs (freelist_loop zs gfp order fl cl t) s (λ r s', served F M zs0 order r s').
Proof.
  intros Hv Hs0 Hr Hfl. induction zs as [|z zs IH]; intros s O N K; cbn [freelist_loop]; [apply runs_ret; by eapply served_none|].
  specialize (IH ltac:(intros y ?; apply Hv; by right) ltac:(intros y ?; apply Hs0; by right)).
  destruct (no_zone _ _ _ N z (Hv z ltac:(left))) as [zt Hz]. destruct (zone_suits_run F s O z gfp order fl cl N ltac:(by eexists) Hfl) as [b Eb].
  apply runs_bind. eapply runs_ok; [exact Eb|]. destruct b; [|by eapply IH]. cbn [negb]. apply runs_bind. eapply runs_on_zone; [exact Hz|].
  eapply runs_mono; [by eapply (zone_alloc_spec F s O M z order gfp t zt)|]. cbn beta. intros r t' (B & Hok & HM & Hp).
  pose proof (set_zone_owners F s O z t' B N ltac:(by eexists) Hok) as N'. set (s' := set_nzones _ s) in *.
  assert (keeps M (λ y, if decide (z = y) then B else O y)) as K' by (intros y; case_decide; [by subst|apply K]).
  destruct r as [p|]; [|by eapply IH]. destruct Hp as (Hin & Hfresh & Hmay). apply runs_ret. eexists. split; [exact N'|]. split; [done|].
  intros z' p' [= <- <-]. split; [apply Hs0; left|]. rewrite decide_True by done. split; [done|]. split; [done|]. exists t'. split; [apply lookup_insert_eq|done].
Qed.

Lemma get_page_spec F M order gfp h fl cl t s O : request_ok_for order t → wmark_ok fl ∨ has fl ALLOC_NO_WATERMARKS = true →
  node_owners F s O → keeps M O → runs (get_page_from_freelist gfp order h fl cl t) s (λ r s', served F M (zones_upto node_zonelist h) order r s').
Proof. intros Hr Hfl. apply freelist_loop_spec; [apply zones_upto_valid|done|done|done]. Qed.

(** ** Flags *)

Lemma wmark_ok_bit fl : Z.testbit fl 1 = false → wmark_ok fl.
Proof.
  intros Hb. unfold wmark_ok. assert (Z.land fl ALLOC_WMARK_MASK = Z.land fl (Z.ones 1)) as ->.
  { apply Z.bits_inj'. intros i Hi. rewrite !Z.land_spec. destruct (decide (i = 0)) as [->|]; [done|]. destruct (decide (i = 1)) as [->|]; [by rewrite Hb|].
    rewrite (Z.bits_above_log2 ALLOC_WMARK_MASK i), (Z.bits_above_log2 (Z.ones 1) i) by first [done | change (Z.log2 ALLOC_WMARK_MASK) with 1; lia | change (Z.log2 (Z.ones 1)) with 0; lia]. done. }
  rewrite Z.land_ones by done. pose proof (Z.mod_pos_bound fl (2 ^ 1) ltac:(done)). lia.
Qed.

Lemma alloc_flags_bit gfp : Z.testbit (gfp_to_alloc_flags gfp) 1 = false.
Proof.
  unfold gfp_to_alloc_flags. destruct (negb (has gfp __GFP_WAIT)), (negb (has gfp __GFP_NOMEMALLOC)), (rt_task && negb in_interrupt), (negb in_interrupt),
    (has task_flags PF_MEMALLOC || tif_memdie); cbn [andb];
    rewrite ?Z.lor_spec, ?Z.ldiff_spec, ?Z.lor_spec, ?Z.land_spec; change (Z.testbit __GFP_HIGH 1) with false; rewrite ?andb_false_r; done.
Qed.

(** ** The slow path *)

Definition ended (F : Z → Z → Prop) (M : Z → blocks) (zs : list Z) (order : Z) (r : outcome) (s : node) : Prop :=
  ∃ O, node_owners F s O ∧ keeps M O ∧ ∀ z p, r = Got z p → granted zs M O order z p s.

(** A request that is given up on rather than repeated. *)
Definition gives_up (gfp order : Z) : Prop :=
  has gfp __GFP_NOFAIL = false ∧ (has gfp __GFP_NORETRY = true ∨ has gfp __GFP_WAIT = false ∨ PAGE_ALLOC_COSTLY_ORDER < order ∧ has gfp __GFP_REPEAT = false).

Lemma served_got F M zs order z p s : served F M zs order (Some (z, p)) s → ended F M zs order (Got z p) s.
Proof. intros (O & N & K & H). exists O. split; [done|]. split; [done|]. intros ? ? [= <- <-]. by apply H. Qed.

Lemma ended_none F M zs order s O r : node_owners F s O → keeps M O → r = NoPage ∨ r = Retrying → ended F M zs order r s.
Proof. intros N K Hr. exists O. split; [done|]. split; [done|]. by destruct Hr as [-> | ->]. Qed.

Lemma node_owners_oom F s O x : node_owners F s O → node_owners F (set_oom_locked x s) O.
Proof. by intros []. Qed.

Lemma served_oom F M zs order r x s : served F M zs order r s → served F M zs order r (set_oom_locked x s).
Proof. intros (O & N & K & H). exists O. split; [by apply node_owners_oom|]. split; [done|]. intros z p Hr. exact (H z p Hr). Qed.

Lemma high_priority_spec F M gfp order h cl t n : request_ok_for order t → ∀ s O, node_owners F s O → keeps M O →
  runs (__alloc_pages_high_priority n gfp order h cl t) s (λ r s', ended F M (zones_upto node_zonelist h) order r s' ∧ (has gfp __GFP_NOFAIL = false → r ≠ Retrying)).
Proof.
  intros Hr. induction n as [|n IH]; intros s O N K; cbn [__alloc_pages_high_priority];
    (apply runs_bind; eapply runs_mono; [eapply (get_page_spec F M); [done|by right|exact N|exact K]|]); cbn beta; intros [[z p]|] s1 H1.
  - apply runs_ret. split; [by apply served_got|done].
  - destruct H1 as (O1 & N1 & K1 & _). destruct (has gfp __GFP_NOFAIL); [|apply runs_ret; split; [eapply ended_none; eauto|done]].
    apply runs_bind. eapply runs_mono; [by apply (wait_law cl F s1 O1 M)|]. cbn beta. intros _ s2 (O2 & N2 & K2). apply runs_ret. split; [eapply ended_none; eauto|done].
  - apply runs_ret. split; [by apply served_got|done].
  - destruct H1 as (O1 & N1 & K1 & _). destruct (has gfp __GFP_NOFAIL) eqn:En; [|apply runs_ret; split; [eapply ended_none; eauto|done]].
    apply runs_bind. eapply runs_mono; [by apply (wait_law cl F s1 O1 M)|]. cbn beta. intros _ s2 (O2 & N2 & K2). by eapply IH.
Qed.

Lemma may_oom_spec F M gfp order h cl t s O : request_ok_for order t → node_owners F s O → keeps M O →
  runs (__alloc_pages_may_oom gfp order h cl t) s (λ r s', served F M (zones_upto node_zonelist h) order r s').
Proof.
  intros Hr N K. unfold __alloc_pages_may_oom, try_set_zonelist_oom. apply runs_bind, runs_bind, runs_gets. destruct (existsb _ _).
  { apply runs_ret. cbn [negb]. apply runs_bind. eapply runs_mono; [by apply (sleep_law 1 F s O M)|]. cbn beta. intros _ s1 (O1 & N1 & K1). apply runs_ret. by eapply served_none. }
  apply runs_bind, runs_modify, runs_ret. cbn [negb]. apply runs_bind.
  eapply runs_mono; [eapply (get_page_spec F M); [done|by left|by apply node_owners_oom|exact K]|]. cbn beta. intros r s1 H1.
  apply runs_bind. apply (runs_mono _ _ (λ _ s', served F M (zones_upto node_zonelist h) order r s')).
  - apply runs_when; [|done]. intros [Hnone _]%andb_true_iff. destruct r as [[z p]|]; [done|]. destruct H1 as (O1 & N1 & K1 & _).
    eapply runs_mono; [by apply (oom_law gfp order F s1 O1 M)|]. cbn beta. intros _ s2 (O2 & N2 & K2). by eapply served_none.
  - intros _ s2 H2. apply runs_bind, runs_modify, runs_ret. by apply served_oom.
Qed.

Lemma drain_zones_spec F M zs : zones_valid zs → ∀ s O, node_owners F s O → keeps M O →
  runs (drain_zones zs) s (λ _ s', ∃ O', node_owners F s' O' ∧ keeps M O').
Proof.
  induction zs as [|z zs IH]; intros Hv s O N K; cbn [drain_zones]; [apply runs_ret; by exists O|].
  destruct (no_zone _ _ _ N z (Hv z ltac:(left))) as [t Ht]. apply runs_bind. eapply runs_ok; [by apply zone_data_run|]. apply runs_bind.
  apply (runs_mono _ _ (λ _ s', ∃ O', node_owners F s' O' ∧ keeps M O')).
  - apply runs_when; [|intros _; by exists O]. intros _. eapply runs_on_zone; [exact Ht|]. eapply runs_mono; [apply (drain_owners (A := zone_conf z)), (no_owners _ _ _ N z t Ht)|].
    cbn beta. intros _ t' Hok. eexists. split; [apply set_zone_owners; [exact N|by eexists|exact Hok]|]. intros y. case_decide; [subst|]; apply K.
  - intros _ s1 (O1 & N1 & K1). eapply IH; [|done|done]. intros y Hy. apply Hv. by right.
Qed.

Lemma direct_reclaim_spec F M gfp order h fl cl t s O : request_ok_for order t → wmark_ok fl → node_owners F s O → keeps M O →
  runs (__alloc_pages_direct_reclaim gfp order h fl cl t) s (λ r s', served F M (zones_upto node_zonelist h) order r.1 s').
Proof.
  intros Hr Hfl N K. unfold __alloc_pages_direct_reclaim. apply runs_bind. eapply runs_mono; [by apply (reclaim_law order gfp F s O M)|]. cbn beta.
  intros n s1 (O1 & N1 & K1). destruct (n =? 0); [apply runs_ret; by eapply served_none|].
  apply runs_bind. eapply runs_mono; [eapply (get_page_spec F M); [done|by left|exact N1|exact K1]|]. cbn beta. intros [zp|] s2 H2; [by apply runs_ret|].
  destruct H2 as (O2 & N2 & K2 & _). apply runs_bind. eapply runs_mono; [eapply (drain_zones_spec F M node_zonelist); [by intros z|exact N2|exact K2]|]. cbn beta. intros _ s3 (O3 & N3 & K3).
  apply runs_bind. eapply runs_mono; [eapply (get_page_spec F M); [done|by left|exact N3|exact K3]|]. cbn beta. intros r s4 H4. by apply runs_ret.
Qed.

(** What an attempt leaves: an end, or a state in which the next one can begin. *)
Definition stepped (F : Z → Z → Prop) (M : Z → blocks) (zs : list Z) (gfp order : Z) (r : next_step) (s : node) : Prop :=
  ended F M zs order (match r with Finish r => r | _ => NoPage end) s ∧ (gives_up gfp order → ∃ o, r = Finish o ∧ o ≠ Retrying).

Lemma gives_up_retry gfp order n m : has gfp __GFP_WAIT = true → gives_up gfp order → should_alloc_retry gfp order n m = false.
Proof.
  intros Hw [Hn Hg]. unfold should_alloc_retry. rewrite Hn. destruct (has gfp __GFP_NORETRY); [done|]. destruct Hg as [?|[?|[Ho Hrep]]]; [done|congruence|].
  destruct ((n =? 0) && pm_suspended_storage); [done|]. destruct (Z.leb_spec order PAGE_ALLOC_COSTLY_ORDER); [lia|]. by rewrite Hrep.
Qed.

Lemma after_reclaim_spec F M gfp order h cl t n m s O : request_ok_for order t → has gfp __GFP_WAIT = true → node_owners F s O → keeps M O →
  runs (after_reclaim gfp order h cl t n m) s (λ r s', stepped F M (zones_upto node_zonelist h) gfp order r s').
Proof.
  intros Hr Hw N K. unfold after_reclaim.
  assert (∀ s' O', node_owners F s' O' → keeps M O' → stepped F M (zones_upto node_zonelist h) gfp order (Finish NoPage) s') as Hfin.
  { intros s' O' N' K'. split; [eapply ended_none; eauto|]. intros _. by exists NoPage. }
  destruct ((n =? 0) && has gfp __GFP_FS && negb (has gfp __GFP_NORETRY)) eqn:Eoom.
  - apply andb_true_iff in Eoom as [_ Enr%negb_true_iff]. destruct oom_disabled; [apply runs_ret; by eapply Hfin|].
    destruct (_ && _); [apply runs_ret; by eapply Hfin|]. apply runs_bind. eapply runs_mono; [by eapply (may_oom_spec F M)|]. cbn beta. intros [[z p]|] s1 H1.
    + apply runs_ret. split; [by apply served_got|]. intros _. by exists (Got z p).
    + destruct H1 as (O1 & N1 & K1 & _). destruct (negb (has gfp __GFP_NOFAIL) && _) eqn:Ecost; [apply runs_ret; by eapply Hfin|].
      apply runs_ret. split; [eapply ended_none; eauto|]. intros [Hn Hg]. rewrite Hn in Ecost. cbn [negb andb] in Ecost.
      apply orb_false_iff in Ecost as [Ho%Z.ltb_ge _]. destruct Hg as [?|[?|[? _]]]; [congruence|congruence|lia].
  - destruct (should_alloc_retry _ _ _ _) eqn:Eretry; [|apply runs_ret; by eapply Hfin]. apply runs_bind.
    eapply runs_mono; [by apply (wait_law cl F s O M)|]. cbn beta. intros _ s1 (O1 & N1 & K1). apply runs_ret. split; [eapply ended_none; eauto|].
    intros Hg. by rewrite gives_up_retry in Eretry.
Qed.

Lemma rebalance_spec F M gfp order h cl t n m s O : request_ok_for order t → node_owners F s O → keeps M O →
  runs (rebalance n gfp order h (gfp_to_alloc_flags gfp) cl t m) s (λ r s', stepped F M (zones_upto node_zonelist h) gfp order r s').
Proof.
  intros Hr N K. unfold rebalance. pose proof (alloc_flags_bit gfp) as Hbit. set (fl := gfp_to_alloc_flags gfp) in *. clearbody fl. apply runs_bind.
  eapply runs_mono; [eapply (get_page_spec F M); [done|left; apply wmark_ok_bit; rewrite Z.ldiff_spec, Hbit; done|exact N|exact K]|].
  cbn beta. intros [[z p]|] s1 H1; [apply runs_ret; split; [by apply served_got|]; intros _; by exists (Got z p)|]. destruct H1 as (O1 & N1 & K1 & _).
  assert (∀ s' O', node_owners F s' O' → keeps M O' → stepped F M (zones_upto node_zonelist h) gfp order (Finish NoPage) s') as Hfin.
  { intros s' O' N' K'. split; [eapply ended_none; eauto|]. intros _. by exists NoPage. }
  apply runs_bind. apply (runs_mono _ _ (λ r s', ended F M (zones_upto node_zonelist h) order r s' ∧ (has gfp __GFP_NOFAIL = false → r ≠ Retrying))).
  { destruct (has fl ALLOC_NO_WATERMARKS); [by eapply (high_priority_spec F M)|]. apply runs_ret. split; [eapply ended_none; eauto|done]. }
  intros r s2 [H2 Hnr]. destruct r as [z p| |]; [apply runs_ret; split; [done|]; intros _; by exists (Got z p)| |apply runs_ret; split; [done|]; intros [Hn _]; by destruct (Hnr Hn)].
  destruct H2 as (O2 & N2 & K2 & _). destruct (has gfp __GFP_WAIT) eqn:Hw; [|apply runs_ret; by eapply Hfin]. cbn [negb].
  destruct (has task_flags PF_MEMALLOC); [apply runs_ret; by eapply Hfin|]. destruct (tif_memdie && _); [apply runs_ret; by eapply Hfin|].
  apply runs_bind. eapply runs_mono; [eapply (direct_reclaim_spec F M); [done|by apply wmark_ok_bit|exact N2|exact K2]|]. cbn beta. intros [[[z p]|] pr] s3 H3.
  - apply runs_ret. split; [by apply served_got|]. intros _. by exists (Got z p).
  - destruct H3 as (O3 & N3 & K3 & _). by eapply (after_reclaim_spec F M).
Qed.

Lemma wake_zones_spec F M zs order cl : ∀ s O, node_owners F s O → keeps M O → runs (wake_zones zs order cl) s (λ _ s', ∃ O', node_owners F s' O' ∧ keeps M O').
Proof.
  induction zs as [|z zs IH]; intros s O N K; cbn [wake_zones]; [apply runs_ret; by exists O|]. apply runs_bind.
  eapply runs_mono; [by apply (wake_law z order cl F s O M)|]. cbn beta. intros _ s1 (O1 & N1 & K1). by eapply IH.
Qed.

Lemma slowpath_loop_spec F M gfp order h cl t n : request_ok_for order t → ∀ b m s O, node_owners F s O → keeps M O →
  runs (slowpath_loop n b gfp order h cl t m) s (λ r s', ended F M (zones_upto node_zonelist h) order r s' ∧ (gives_up gfp order → r ≠ Retrying)).
Proof.
  intros Hr. induction n as [|n IH]; intros b m s O N K; cbn [slowpath_loop]; apply runs_bind;
    (apply (runs_mono _ _ (λ _ s', ∃ O', node_owners F s' O' ∧ keeps M O')); [apply runs_when; [intros _; by eapply wake_zones_spec|intros _; by exists O]|]);
    intros _ s1 (O1 & N1 & K1); apply runs_bind; (eapply runs_mono; [by eapply (rebalance_spec F M)|]); cbn beta; intros [r| |k] s2 [H2 Hg].
  1, 4: apply runs_ret; split; [done|]; intros Hg'; by destruct (Hg Hg') as (o & [= ->] & ?).
  1, 2: apply runs_ret; split; [destruct H2 as (O2 & N2 & K2 & _); eapply ended_none; eauto|]; intros Hg'; by destruct (Hg Hg') as (o & ? & ?).
  all: destruct H2 as (O2 & N2 & K2 & _); by eapply IH.
Qed.

Lemma alloc_pages_spec F M n gfp order s O : request_ok_for order (allocflags_to_migratetype gfp) → node_owners F s O → keeps M O →
  runs (__alloc_pages_nodemask n gfp order) s (λ r s', ended F M (zones_upto node_zonelist (gfp_zone gfp)) order r s' ∧
    (gives_up (Z.land gfp gfp_allowed_mask) order → r ≠ Retrying)).
Proof.
  intros Hr N K. unfold __alloc_pages_nodemask. cbv zeta. destruct (zones_upto node_zonelist (gfp_zone gfp)) as [|cl zs] eqn:Ez.
  { apply runs_ret. split; [eapply ended_none; eauto|done]. }
  apply runs_bind. eapply runs_mono; [eapply (get_page_spec F M); [done|by left|exact N|exact K]|]. cbn beta. rewrite Ez. intros [[z p]|] s1 H1.
  - apply runs_ret. split; [by apply served_got|done].
  - destruct H1 as (O1 & N1 & K1 & _). unfold __alloc_pages_slowpath. destruct (Z.leb_spec MAX_ORDER order); [destruct Hr as [? _]; lia|].
    rewrite <- Ez. by eapply (slowpath_loop_spec F M).
Qed.
End alloc.
