(* ===== verification/PageAllocProps.v ===== *)
(** * What an allocation of pages promises

    The theorems about [__alloc_pages_nodemask]: what it returns, when it ends, and when it
    succeeds at once; with a concrete node. *)

From S2P Require Import Prelude Hoare Lru LruInv Vmscan VmscanZone Watermark Buddy BuddyBlocks BuddyInv BuddyFree BuddyAlloc BuddyCpu BuddyApi BuddyProps PageAlloc PageAllocInv.

Section props.
Context `{E : AllocEnv} {L : AllocEnvLaws E}.
#[local] Existing Instance conf_lists.

(** C11. An allocation of pages, by way of the slow path with reclaim, reserves and the OOM
    killer if need be, and with other tasks allocating and freeing whenever it waits,
    returns or goes on trying; all zones stay in order and the task keeps its blocks [M]. A
    block that it gets lies in a zone that the mask allows, overlaps none of the blocks the
    task has, belongs to the task alone, and is ready to be freed. *)
Theorem alloc_pages_grants F M retries gfp order s O : request_ok_for order (allocflags_to_migratetype gfp) → node_owners F s O → keeps M O →
  runs (__alloc_pages_nodemask retries gfp order) s (λ r s', ∃ O', node_owners F s' O' ∧ keeps M O' ∧
    ∀ z p, r = Got z p → granted (zones_upto node_zonelist (gfp_zone gfp)) M O' order z p s').
Proof. intros Hr N K. eapply runs_mono; [by eapply (alloc_pages_spec F M)|]. cbn beta. by intros r s' [H _]. Qed.

(** C16. The allocator does not try forever: a request without [__GFP_NOFAIL] that has
    [__GFP_NORETRY], or may not wait, or is of more than the costly order and without
    [__GFP_REPEAT], is decided in the first attempt of the slow path. *)
Theorem alloc_pages_gives_up F retries gfp order s O : request_ok_for order (allocflags_to_migratetype gfp) → node_owners F s O →
  gives_up (Z.land gfp gfp_allowed_mask) order → ∃ r s', __alloc_pages_nodemask retries gfp order s = Ok (r, s') ∧ r ≠ Retrying.
Proof.
  intros Hr N Hg. destruct (alloc_pages_spec F (λ _, ∅) retries gfp order s O Hr N ltac:(intros z; set_solver)) as (r & s' & E' & _ & Hnr). exists r, s'. auto.
Qed.

(** ** Success at once *)

(** The zone has enough pages above its low watermark for the request. *)
Record roomy (order classzone : Z) (t : zst) : Prop := Roomy {
  ro_small : listed_pages t < 2 ^ 31;
  ro_mark : 0 <= low_wmark_pages (zdata t);
  ro_reserve : 0 <= stat (lowmem_reserve (zdata t)) classzone;
  ro_sum : low_wmark_pages (zdata t) + stat (lowmem_reserve (zdata t)) classzone < 2 ^ 31;
  ro_isolated k : 0 <= k < MAX_ORDER → chain t (free_list k MIGRATE_ISOLATE) = [];
  ro_ok : zone_watermark_ok (zdata t) order (low_wmark_pages (zdata t)) classzone 0 = true;
}.

Lemma low_suits z gfp order cl s t : nzones s !! z = Some t → has gfp __GFP_WRITE = false →
  zone_suits z gfp order (Z.lor ALLOC_WMARK_LOW ALLOC_CPUSET) cl s = Ok (zone_watermark_ok (zdata t) order (low_wmark_pages (zdata t)) cl 0, s).
Proof.
  intros Hz Hw. unfold zone_suits. rewrite Hw, andb_false_r. erewrite bind_Ok by done. cbv beta iota.
  change (has (Z.lor ALLOC_WMARK_LOW ALLOC_CPUSET) ALLOC_NO_WATERMARKS) with false. cbv iota. by erewrite bind_Ok by (by apply zone_data_run).
Qed.

Lemma freelist_loop_roomy F gfp order cl t z zt zs : has gfp __GFP_WRITE = false → request_ok_for order t → roomy order cl zt → z ∈ zs → zones_valid zs →
  ∀ s O, node_owners F s O → nzones s !! z = Some zt →
  ∃ z' p s', freelist_loop zs gfp order (Z.lor ALLOC_WMARK_LOW ALLOC_CPUSET) cl t s = Ok (Some (z', p), s').
Proof.
  intros Hw Hr Hro. induction zs as [|y zs IH]; [by intros ?%elem_of_nil|]. intros Hin Hv s O N Hz. cbn [freelist_loop].
  specialize (λ H, IH H ltac:(intros x ?; apply Hv; by right)). destruct (no_zone _ _ _ N y (Hv y ltac:(left))) as [yt Hy].
  erewrite bind_Ok by (by apply low_suits). cbv beta. destruct (zone_watermark_ok (zdata yt) order _ cl 0) eqn:Eok; cbn [negb].
  - destruct (zone_alloc_spec F s O (λ _, ∅) y order gfp t yt N ltac:(intros x; set_solver) Hy Hr) as (r & t' & Ea & B & Hok & _ & Hp).
    pose proof (set_zone_owners F s O y t' B N ltac:(by eexists) Hok) as N'. erewrite bind_Ok; [|unfold on_zone; by rewrite Hy, Ea].
    destruct r as [p|]; [by eexists _, _, _|]. assert (y ≠ z) as Hne.
    { intros ->. rewrite Hz in Hy. injection Hy as ->. destruct (no_owners _ _ _ N z yt Hz) as [Hsound _ _ _]. destruct Hro as [R1 R2 R3 R4 R5 R6].
      exact (watermark_block order t _ cl yt Hsound R1 Hr R2 R3 R4 R5 R6 Hp). }
    apply elem_of_cons in Hin as [->|Hin]; [done|]. eapply IH; [done|exact N'|]. cbn. by rewrite lookup_insert_ne.
  - apply elem_of_cons in Hin as [->|Hin]; [|by eapply IH]. rewrite Hz in Hy. injection Hy as ->. by rewrite (ro_ok _ _ _ Hro) in Eok.
Qed.

End props.

(** ** A node with one populated zone *)

Definition empty_allocator : Allocator := {|
  zone_id := 1; zone_start_pfn := 0; spanned_pages := 0; pcp_high := 0; pcp_batch := 1; page_group_by_mobility_disabled := false |}.

Definition empty_zone : zst := ZSt ∅ ∅ (Zone false ∅ ∅ ∅ 0 false false 1 0 (0, 0, 0) ∅ ∅) false 0 ∅ ∅.

Lemma empty_zone_sound : @zone_sound empty_allocator empty_zone.
Proof.
  apply (@zone_inv_sound empty_allocator ∅). split; [|reflexivity].
  assert (∀ h p, p ∉ chain empty_zone h) as Hc by (intros h p; unfold chain; cbn; rewrite lookup_empty; apply not_elem_of_nil).
  assert (∀ x, frames empty_zone !! x = None) as Hf by (intros x; apply lookup_empty).
  split.
  - by split; set_solver.
  - intros p o ?. set_solver.
  - intros p o ?. set_solver.
  - intros p f. by rewrite Hf.
  - intros x (p & o & ? & _). set_solver.
  - intros h p Hp. by destruct (Hc h p).
  - intros p o ?. set_solver.
  - intros h. unfold chain. cbn. rewrite lookup_empty. constructor.
  - intros h h' p Hp. by destruct (Hc h p).
  - intros o Ho. assert (listed empty_zone o = 0) as -> by reflexivity. reflexivity.
  - vm_compute. reflexivity.
  - reflexivity.
  - intros q x y _ _ _ [f E']. by rewrite Hf in E'.
  - intros x. cbn. lia.
  - intros x f. by rewrite Hf.
  - intros i. change (0 <= 0 < MIGRATE_TYPES). done.
Qed.

#[local] Instance demo_env : AllocEnv := {|
  zone_conf z := if z =? 0 then demo_allocator else empty_allocator;
  node_zonelist := [0];
  mobility_disabled := false;
  task_flags := 0; tif_memdie := false; rt_task := false; in_interrupt := false;
  oom_disabled := false; pm_suspended_storage := false; gfp_allowed_mask := Z.ones 25; free_swap := 0;
  vm_dirty_bytes := 0; vm_dirty_ratio := 20; vm_highmem_is_dirtyable := false; dirty_balance_reserve := 48; zone_dirty_reserve _ := 48;
  reclaim_pages _ _ := mret 0;
  wake_daemon _ _ _ := mret ();
  wait_congested _ := mret ();
  out_of_memory _ _ := mret ();
  sleep_uninterruptible _ := mret ();
|}.

#[local] Instance demo_env_laws : AllocEnvLaws demo_env.
Proof.
  assert (∀ X (a : X), others_keep (mret a)) as Hret by (intros X a F s O M N K; apply runs_ret; by exists O).
  split; [|reflexivity|intros; apply Hret..]. intros z. cbn. destruct (z =? 0); split; vm_compute; congruence.
Qed.

Definition demo_node : node := Node {[ 0 := demo_zone; 1 := empty_zone ]} ∅.

(** The pages of each zone. *)
Definition demo_pages (z : Z) : Z → Prop := @available (zone_conf z) (default empty_zone (nzones demo_node !! z)).

Lemma demo_node_zone z t : nzones demo_node !! z = Some t → z = 0 ∧ t = demo_zone ∨ z = 1 ∧ t = empty_zone.
Proof.
  cbn [nzones demo_node]. intros Hz. apply lookup_insert_Some in Hz as [[<- <-]|[Hne [<- <-]%lookup_singleton_Some]]; [by left|by right].
Qed.

Lemma demo_node_owners : node_owners demo_pages demo_node (λ _, ∅).
Proof.
  split.
  - intros z ->%list_elem_of_singleton. by eexists.
  - by eexists.
  - intros z t Hz. unfold demo_pages. rewrite Hz. cbn [default]. apply owners_start.
    destruct (demo_node_zone z t Hz) as [[-> ->]|[-> ->]]; [exact demo_sound|exact empty_zone_sound].
Qed.

Lemma demo_room : roomy 3 0 demo_zone.
Proof. split; [vm_compute; reflexivity|vm_compute; congruence|vm_compute; congruence|vm_compute; reflexivity|intros k _; apply demo_isolate|vm_compute; reflexivity]. Qed.

(** [GFP_KERNEL] requests of eight and of sixteen pages. *)
Definition kernel_mask : Z := 0xd0.

Lemma demo_node_request order : 0 <= order < MAX_ORDER → request_ok_for order (allocflags_to_migratetype kernel_mask).
Proof. intros Ho. split; [exact Ho|]. vm_compute. split; congruence. Qed.

Lemma alloc_pages_grants_witness : runs (__alloc_pages_nodemask 2 kernel_mask 3) demo_node (λ r s', ∃ O', node_owners demo_pages s' O' ∧ keeps (λ _, ∅) O' ∧
    ∀ z p, r = Got z p → granted (zones_upto node_zonelist (gfp_zone kernel_mask)) (λ _, ∅) O' 3 z p s').
Proof.
  apply (alloc_pages_grants demo_pages (λ _, ∅) 2 kernel_mask 3 demo_node (λ _, ∅)).
  - apply demo_node_request. unfold MAX_ORDER. lia.
  - exact demo_node_owners.
  - intros z. reflexivity.
Defined.

Lemma alloc_pages_gives_up_witness : ∃ r s', __alloc_pages_nodemask 0 kernel_mask 4 demo_node = Ok (r, s') ∧ r ≠ Retrying.
Proof.
  apply (alloc_pages_gives_up demo_pages 0 kernel_mask 4 demo_node (λ _, ∅)).
  - apply demo_node_request. unfold MAX_ORDER. lia.
  - exact demo_node_owners.
  - split; [vm_compute; reflexivity|]. right. right. split; [unfold PAGE_ALLOC_COSTLY_ORDER; lia|vm_compute; reflexivity].
Defined.

