(* ===== verification/Wmarks.v ===== *)
(** * Watermarks and reserves

    Models how [goldfish/mm/page_alloc.c] sets the limits that the allocation of pages
    respects: [init_per_zone_wmark_min] with [setup_per_zone_wmarks],
    [setup_zone_migrate_reserve], [setup_per_zone_lowmem_reserve],
    [calculate_totalreserve_pages] and [calculate_zone_inactive_ratio], and [int_sqrt] of
    [goldfish/lib/int_sqrt.c].  The globals [sysctl_lowmem_reserve_ratio],
    [vm_total_pages] and [extra_free_kbytes] are arguments; [totalreserve_pages] and the
    ratios are returned. *)

From S2P Require Import Prelude Hoare Lru Vmscan VmscanZone Watermark Buddy PageAlloc.

Definition GFP_USER : Z := Z.lor (Z.lor (Z.lor __GFP_WAIT __GFP_IO) __GFP_FS) __GFP_HARDWALL.
Definition MAX_NR_ZONES : Z := 3.
Definition all_zones : list Z := seqZ 0 MAX_NR_ZONES.
Definition is_highmem (z : Z) : bool := z =? ZONE_HIGHMEM.

(** ** The square root *)

Fixpoint sqrt_start (n : nat) (op one : Z) : option Z :=
  if op <? one then match n with O => None | S n => sqrt_start n op (Z.shiftr one 2) end
  else Some one.

Fixpoint sqrt_loop (n : nat) (op res one : Z) : option Z :=
  if one =? 0 then Some res
  else match n with
    | O => None
    | S n =>
        let '(op, res) := if u32 (res + one) <=? op then (op - u32 (res + one), u32 (res + u32 (2 * one))) else (op, res) in
        sqrt_loop n op (res / 2) (one / 4)
    end.

Definition int_sqrt (x : Z) : option Z :=
  one ← sqrt_start 16 x (Z.shiftl 1 (32 - 2));
  sqrt_loop 16 x 0 one.

(** ** The blocks that are kept for the reserve *)

Definition PageReserved (f : frame) : bool := Z.testbit (f_flags f) PG_reserved.

Definition roundup (x y : Z) : Z := u32 (x + (y - 1)) / y * y.

Section zone.
Context `{Allocator} (pfn_valid : Z → bool).

(** From [pfn] on, [n] pages are left. *)
Fixpoint pageblock_is_reserved (n : nat) (pfn : Z) : M zst bool :=
  match n with
  | O => mret false
  | S n =>
      f ← frame_at pfn;
      if PageReserved f then mret true else pageblock_is_reserved n (pfn + 1)
  end.

(** If the block was reserved, it is taken back. *)
Definition take_back (pfn block_migratetype : Z) : M zst () :=
  when (block_migratetype =? MIGRATE_RESERVE)
    (set_pageblock_migratetype pfn MIGRATE_MOVABLE;;
     move_freepages_block pfn MIGRATE_MOVABLE;;
     mret ()).

(** The body of the loop; the number of blocks that are still to be reserved. *)
Definition reserve_block (pfn end_pfn reserve : Z) : M zst Z :=
  if negb (pfn_valid pfn) then mret reserve else
  block_migratetype ← get_pageblock_migratetype pfn;
  if 0 <? reserve then
    let block_end_pfn := Z.min (pfn + pageblock_nr_pages) end_pfn in
    r ← pageblock_is_reserved (Z.to_nat (block_end_pfn - pfn)) pfn;
    if (r : bool) then mret reserve
    else if block_migratetype =? MIGRATE_RESERVE then mret (reserve - 1)
    else if block_migratetype =? MIGRATE_MOVABLE then
      set_pageblock_migratetype pfn MIGRATE_RESERVE;;
      move_freepages_block pfn MIGRATE_RESERVE;;
      mret (reserve - 1)
    else take_back pfn block_migratetype;; mret reserve
  else take_back pfn block_migratetype;; mret reserve.

Fixpoint reserve_loop (n : nat) (pfn end_pfn reserve : Z) : M zst () :=
  if end_pfn <=? pfn then mret ()
  else match n with
    | O => fail NoFuel
    | S n =>
        reserve ← reserve_block pfn end_pfn reserve;
        reserve_loop n (pfn + pageblock_nr_pages) end_pfn reserve
    end.

Definition reserve_wanted (zd : zone) : Z :=
  Z.min 2 (s32 (Z.shiftr (roundup (min_wmark_pages zd) pageblock_nr_pages) pageblock_order)).

Definition setup_zone_migrate_reserve : M zst () :=
  let end_pfn := zone_start_pfn + spanned_pages in
  let start_pfn := roundup zone_start_pfn pageblock_nr_pages in
  zd ← gets zdata;
  reserve_loop (Z.to_nat spanned_pages) start_pfn end_pfn (reserve_wanted zd).

(** ** The watermarks of a zone *)

Definition set_watermark (w : Z * Z * Z) (zd : zone) : zone :=
  Zone (lru_lock zd) (vm_stat zd) (recent_rotated zd) (recent_scanned zd) (pages_scanned zd) (all_unreclaimable zd) (congested zd)
    (inactive_ratio zd) (present_pages zd) w (lowmem_reserve zd) (nr_free zd).
Definition set_lowmem_reserve (m : gmap Z Z) (zd : zone) : zone :=
  Zone (lru_lock zd) (vm_stat zd) (recent_rotated zd) (recent_scanned zd) (pages_scanned zd) (all_unreclaimable zd) (congested zd)
    (inactive_ratio zd) (present_pages zd) (watermark zd) m (nr_free zd).
Definition set_inactive_ratio (x : Z) (zd : zone) : zone :=
  Zone (lru_lock zd) (vm_stat zd) (recent_rotated zd) (recent_scanned zd) (pages_scanned zd) (all_unreclaimable zd) (congested zd)
    x (present_pages zd) (watermark zd) (lowmem_reserve zd) (nr_free zd).

Definition highmem_min (zd : zone) : Z :=
  let min_pages := present_pages zd / 1024 in
  let min_pages := if min_pages <? SWAP_CLUSTER_MAX then SWAP_CLUSTER_MAX else min_pages in
  if 128 <? min_pages then 128 else min_pages.

(** [min] and [low] are the shares of the zone, with 64 bits. *)
Definition zone_marks (highmem : bool) (min low : Z) (zd : zone) : Z * Z * Z :=
  let wmin := if highmem then highmem_min zd else u32 min in
  (wmin, u32 (wmin + low + Z.shiftr min 2), u32 (wmin + low + Z.shiftr min 1)).

Definition setup_zone_wmarks (highmem : bool) (pages_min pages_low lowmem_pages vm_total_pages : Z) : M zst () :=
  spin_lock;;
  zd ← gets zdata;
  if (lowmem_pages =? 0) || (vm_total_pages =? 0) then fail DivByZero else
  let min := pages_min * present_pages zd / lowmem_pages in
  let low := pages_low * present_pages zd / vm_total_pages in
  upd_zdata (set_watermark (zone_marks highmem min low zd));;
  setup_zone_migrate_reserve;;
  spin_unlock.
End zone.

(** ** The node *)

Section node.
Context `{AllocEnv} (pfn_valid : Z → bool).

(** The largest of the reserves for the zones from [z] on. *)
Definition largest_reserve (z : Z) (zd : zone) : Z :=
  foldl (λ max j, if max <? stat (lowmem_reserve zd) j then stat (lowmem_reserve zd) j else max) 0 (seqZ z (MAX_NR_ZONES - z)).

(** [zone->dirty_balance_reserve] *)
Definition zone_reserved (z : Z) (zd : zone) : Z :=
  let max := u32 (largest_reserve z zd + high_wmark_pages zd) in
  if present_pages zd <? max then present_pages zd else max.

Fixpoint sum_reserves (zs : list Z) (reserve_pages : Z) : M node Z :=
  match zs with
  | [] => mret reserve_pages
  | z :: zs =>
      zd ← zone_data z;
      sum_reserves zs (u32 (reserve_pages + zone_reserved z zd))
  end.

(** What [totalreserve_pages] and [dirty_balance_reserve] are set to. *)
Definition calculate_totalreserve_pages : M node Z := sum_reserves all_zones 0.

(** The zones below [idx], for requests that prefer zone [j]. *)
Fixpoint reserve_lower (idx : nat) (j present : Z) (ratio : gmap Z Z) : M node (gmap Z Z) :=
  match idx with
  | O => mret ratio
  | S i =>
      let idx := Z.of_nat i in
      let ratio := if stat ratio idx <? 1 then <[idx := 1]> ratio else ratio in
      on_zone idx (upd_zdata (λ zd, set_lowmem_reserve (<[j := present / stat ratio idx]> (lowmem_reserve zd)) zd));;
      lower_zone ← zone_data idx;
      reserve_lower i j (u32 (present + present_pages lower_zone)) ratio
  end.

Fixpoint reserve_zones (js : list Z) (ratio : gmap Z Z) : M node (gmap Z Z) :=
  match js with
  | [] => mret ratio
  | j :: js =>
      zd ← zone_data j;
      on_zone j (upd_zdata (λ zd, set_lowmem_reserve (<[j := 0]> (lowmem_reserve zd)) zd));;
      ratio ← reserve_lower (Z.to_nat j) j (present_pages zd) ratio;
      reserve_zones js ratio
  end.

Definition setup_per_zone_lowmem_reserve (ratio : gmap Z Z) : M node (Z * gmap Z Z) :=
  ratio ← reserve_zones all_zones ratio;
  total ← calculate_totalreserve_pages;
  mret (total, ratio).

Fixpoint sum_lowmem (zs : list Z) (lowmem_pages : Z) : M node Z :=
  match zs with
  | [] => mret lowmem_pages
  | z :: zs =>
      zd ← zone_data z;
      sum_lowmem zs (if is_highmem z then lowmem_pages else u32 (lowmem_pages + present_pages zd))
  end.

Fixpoint wmarks_loop (zs : list Z) (pages_min pages_low lowmem_pages vm_total_pages : Z) : M node () :=
  match zs with
  | [] => mret ()
  | z :: zs =>
      on_zone z (@setup_zone_wmarks (zone_conf z) pfn_valid (is_highmem z) pages_min pages_low lowmem_pages vm_total_pages);;
      wmarks_loop zs pages_min pages_low lowmem_pages vm_total_pages
  end.

Definition setup_per_zone_wmarks (min_free_kbytes extra_free_kbytes vm_total_pages : Z) : M node Z :=
  let pages_min := u32 (Z.shiftr min_free_kbytes 2) in
  let pages_low := u32 (Z.shiftr extra_free_kbytes 2) in
  lowmem_pages ← sum_lowmem all_zones 0;
  wmarks_loop all_zones pages_min pages_low lowmem_pages vm_total_pages;;
  calculate_totalreserve_pages.

Definition zone_inactive_ratio (zd : zone) : option Z :=
  let gb := Z.shiftr (present_pages zd) (30 - 12) in
  if gb =? 0 then Some 1 else int_sqrt (u32 (10 * gb)).

Definition calculate_zone_inactive_ratio (z : Z) : M node () :=
  zd ← zone_data z;
  ratio ← of_option NoFuel (zone_inactive_ratio zd);
  on_zone z (upd_zdata (set_inactive_ratio ratio)).

Fixpoint ratio_loop (zs : list Z) : M node () :=
  match zs with
  | [] => mret ()
  | z :: zs => calculate_zone_inactive_ratio z;; ratio_loop zs
  end.

Definition setup_per_zone_inactive_ratio : M node () := ratio_loop all_zones.

Fixpoint sum_free (zs : list Z) (sum : Z) : M node Z :=
  match zs with
  | [] => mret sum
  | z :: zs =>
      zd ← zone_data z;
      sum_free zs (if high_wmark_pages zd <? present_pages zd then u32 (sum + (present_pages zd - high_wmark_pages zd)) else sum)
  end.

Definition nr_free_zone_pages (offset : Z) : M node Z := sum_free (zones_upto node_zonelist offset) 0.

Definition nr_free_buffer_pages : M node Z := nr_free_zone_pages (gfp_zone GFP_USER).

Definition clamp_min_free (x : Z) : Z := let x := if x <? 128 then 128 else x in if 65536 <? x then 65536 else x.

(** [min_free_kbytes], [totalreserve_pages] and the ratios. *)
Definition init_per_zone_wmark_min (extra_free_kbytes vm_total_pages : Z) (ratio : gmap Z Z) : M node (Z * Z * gmap Z Z) :=
  free ← nr_free_buffer_pages;
  root ← of_option NoFuel (int_sqrt (u32 (u32 (free * 4) * 16)));
  let min_free_kbytes := clamp_min_free (s32 root) in
  setup_per_zone_wmarks min_free_kbytes extra_free_kbytes vm_total_pages;;
  r ← setup_per_zone_lowmem_reserve ratio;
  setup_per_zone_inactive_ratio;;
  mret (min_free_kbytes, r.1, r.2).
End node.
