(* ===== verification/WmarksProps.v ===== *)
(** * What the watermarks promise

    [int_sqrt] is the square root.  Setting up the watermarks and reserves keeps every page
    where it is, and gives marks that are in order and reserves that cover the zones above. *)

From S2P Require Import Prelude Hoare Lru LruInv Vmscan VmscanZone Watermark Buddy BuddyBlocks BuddyInv BuddyFree BuddyAlloc BuddyCpu BuddyApi BuddyProps PageAlloc PageAllocInv PageAllocProps Wmarks.

(** ** The square root *)

Lemma shiftr_4pow k : Z.shiftr (4 ^ Z.of_nat (S k)) 2 = 4 ^ Z.of_nat k.
Proof. rewrite Z.shiftr_div_pow2 by done. change (2 ^ 2) with 4. rewrite Nat2Z.inj_succ, Z.pow_succ_r by lia. rewrite Z.mul_comm. by apply Z.div_mul. Qed.

(** The largest power of four that is not above [x]. *)
Lemma sqrt_start_spec x k : ∀ n, 0 < x < 4 ^ Z.of_nat (S k) → (k <= n)%nat →
  ∃ i, (i <= k)%nat ∧ sqrt_start n x (4 ^ Z.of_nat k) = Some (4 ^ Z.of_nat i) ∧ 4 ^ Z.of_nat i <= x < 4 ^ Z.of_nat (S i).
Proof.
  induction k as [|k IH]; intros n Hx Hn.
  - exists 0%nat. change (4 ^ Z.of_nat 0) with 1 in *. change (4 ^ Z.of_nat 1) with 4 in *.
    split; [lia|]. split; [|lia]. destruct n; cbn [sqrt_start]; by rewrite (proj2 (Z.ltb_ge x 1)) by lia.
  - destruct (Z.ltb_spec x (4 ^ Z.of_nat (S k))) as [Hlt|Hge].
    + destruct n as [|n]; [lia|]. cbn [sqrt_start]. rewrite (proj2 (Z.ltb_lt _ _) Hlt), shiftr_4pow.
      destruct (IH n) as (i & Hi & E & Hb); [lia|lia|]. exists i. split; [lia|]. split; [exact E|exact Hb].
    + exists (S k). split; [lia|]. split; [|lia]. destruct n; cbn [sqrt_start]; by rewrite (proj2 (Z.ltb_ge _ _) Hge).
Qed.

(** The root so far is [r], a multiple of twice the bit that is tried next. *)
Lemma sqrt_loop_spec x k : ∀ n r, (k < n)%nat → 0 <= r → r * r <= x < (r + 2 ^ Z.of_nat (S k)) * (r + 2 ^ Z.of_nat (S k)) →
  r + 2 ^ Z.of_nat (S k) <= 2 ^ 16 → sqrt_loop n (x - r * r) (r * 2 ^ Z.of_nat (S k)) (4 ^ Z.of_nat k) = Some (Z.sqrt x).
Proof.
  induction k as [|k IH]; intros n r Hn Hr Hx Hm; (destruct n as [|n]; [lia|]); cbn [sqrt_loop].
  - change (4 ^ Z.of_nat 0) with 1. change (2 ^ Z.of_nat 1) with 2 in *. change (1 =? 0) with false. cbv iota.
    rewrite (u32_id (r * 2 + 1)) by (unfold is_u32; lia). change (u32 (2 * 1)) with 2. rewrite (u32_id (r * 2 + 2)) by (unfold is_u32; lia).
    change (1 / 4) with 0. destruct (Z.leb_spec (r * 2 + 1) (x - r * r)).
    + replace ((r * 2 + 2) / 2) with (r + 1) by (replace (r * 2 + 2) with ((r + 1) * 2) by lia; by rewrite Z.div_mul).
      destruct n; cbn [sqrt_loop Z.eqb]; f_equal; symmetry; apply Z.sqrt_unique; lia.
    + rewrite Z.div_mul by done. destruct n; cbn [sqrt_loop Z.eqb]; f_equal; symmetry; apply Z.sqrt_unique; lia.
  - assert (4 ^ Z.of_nat (S k) = 2 ^ Z.of_nat (S k) * 2 ^ Z.of_nat (S k)) as E4 by (rewrite <- Z.pow_mul_l; done).
    assert (2 ^ Z.of_nat (S (S k)) = 2 * 2 ^ Z.of_nat (S k)) as E2 by (rewrite (Nat2Z.inj_succ (S k)), Z.pow_succ_r by lia; done).
    rewrite E2 in *. set (b := 2 ^ Z.of_nat (S k)) in *. assert (0 < b) as Hb by (by apply Z.pow_pos_nonneg).
    rewrite (proj2 (Z.eqb_neq _ _)) by nia. assert (4 ^ Z.of_nat (S k) / 4 = 4 ^ Z.of_nat k) as Ed.
    { rewrite Nat2Z.inj_succ, Z.pow_succ_r, Z.mul_comm by lia. by apply Z.div_mul. }
    rewrite Ed. rewrite E4. rewrite (u32_id (r * (2 * b) + b * b)), (u32_id (2 * (b * b))), (u32_id (r * (2 * b) + 2 * (b * b))) by (unfold is_u32; nia).
    destruct (Z.leb_spec (r * (2 * b) + b * b) (x - r * r)).
    + replace ((r * (2 * b) + 2 * (b * b)) / 2) with ((r + b) * b) by (replace (r * (2 * b) + 2 * (b * b)) with ((r + b) * b * 2) by lia; by rewrite Z.div_mul).
      replace (x - r * r - (r * (2 * b) + b * b)) with (x - (r + b) * (r + b)) by lia. apply IH; [lia|lia| |fold b; lia]. fold b. nia.
    + replace (r * (2 * b) / 2) with (r * b) by (replace (r * (2 * b)) with (r * b * 2) by lia; by rewrite Z.div_mul). apply IH; [lia|lia| |fold b; lia]. fold b. nia.
Qed.

Lemma int_sqrt_root x : is_u32 x → int_sqrt x = Some (Z.sqrt x).
Proof.
  intros [Hx0 Hx]. unfold int_sqrt. change (Z.shiftl 1 (32 - 2)) with (4 ^ Z.of_nat 15). destruct (decide (x = 0)) as [->|Hne]; [done|].
  destruct (sqrt_start_spec x 15 16) as (i & Hi & E & Hb); [split; [lia|exact Hx]|lia|]. rewrite E. cbn [mbind option_bind].
  pose proof (sqrt_loop_spec x i 16 0 ltac:(lia) ltac:(lia)) as HL. rewrite Z.mul_0_l, Z.sub_0_r, Z.mul_0_l in HL. apply HL.
  - rewrite Z.add_0_l, <- Z.pow_mul_l. change (2 * 2) with 4. lia.
  - apply Z.pow_le_mono_r; lia.
Qed.

(** ** The blocks that are kept for the reserve *)

Lemma move_loop_keeps n : ∀ page end_page t m s r s', move_loop n page end_page t m s = Ok (r, s') →
  zdata s' = zdata s ∧ pageblock_flags s' = pageblock_flags s.
Proof.
  induction n as [|n IH]; intros page end_page t m s r s'; cbn [move_loop]; (destruct (end_page <? page); [by intros [= _ <-]|]); [done|].
  intros (f & s1 & E1 & H)%bind_Ok_inv. apply bind_Ok_inv in E1 as (m1 & s2 & [= <- <-] & E1). destruct (_ !! page); [|done]. injection E1 as <- <-.
  destruct (negb _); [by apply IH in H|]. apply bind_Ok_inv in H as ([] & s2 & E2 & [H1 H2]%IH).
  apply bind_Ok_inv in E2 as ([] & s3 & E3 & E2). apply bind_Ok_inv in E3 as (b & s4 & [= <- <-] & E3). destruct (in_chain page s); [|done].
  injection E3 as <-. apply bind_Ok_inv in E2 as (b & s4 & [= <- <-] & E2). destruct (in_chain page _); [done|]. injection E2 as <-. by rewrite H1, H2.
Qed.

Section reserve.
Context `{A : Allocator} (pfn_valid : Z → bool).

Lemma move_block_keeps p t s r s' : move_freepages_block p t s = Ok (r, s') → zdata s' = zdata s ∧ pageblock_flags s' = pageblock_flags s.
Proof.
  unfold move_freepages_block. destruct (_ <=? _); [by intros [= _ <-]|]. unfold move_freepages. intros (f & s1 & E1 & H)%bind_Ok_inv.
  apply bind_Ok_inv in E1 as (m1 & s2 & [= <- <-] & E1). destruct (_ !! _); [|done]. injection E1 as <- <-.
  apply bind_Ok_inv in H as (f2 & s1 & E1 & H). apply bind_Ok_inv in E1 as (m1 & s2 & [= <- <-] & E1). destruct (_ !! _); [|done]. injection E1 as <- <-.
  destruct (negb _); [done|]. by apply move_loop_keeps in H.
Qed.

#[local] Instance relisted_transitive : Transitive relisted.
Proof. intros s1 s2 s3 [A1 B1 C1] [A2 B2 C2]. split; [congruence|intros t; by rewrite B2|congruence]. Qed.

Definition block_type (s : zst) (x : Z) : Z := stat (pageblock_flags s) (pageblock_index x).

(** A page of the block is reserved, so that the block never becomes free. *)
Definition block_reserved (s : zst) (pfn end_pfn : Z) : bool :=
  existsb (λ x, match frames s !! x with Some f => PageReserved f | None => false end) (seqZ pfn (Z.min (pfn + pageblock_nr_pages) end_pfn - pfn)).

(** The block is kept for the reserve. *)
Definition kept_block (end_pfn : Z) (s : zst) (pfn : Z) : bool :=
  pfn_valid pfn && negb (block_reserved s pfn end_pfn) && (block_type s pfn =? MIGRATE_RESERVE).

(** Such blocks from [pfn] on. *)
Fixpoint kept_blocks (n : nat) (pfn end_pfn : Z) (s : zst) : Z :=
  match n with
  | O => 0
  | S n => if end_pfn <=? pfn then 0 else (if kept_block end_pfn s pfn then 1 else 0) + kept_blocks n (pfn + pageblock_nr_pages) end_pfn s
  end.

Lemma is_reserved_runs n : ∀ pfn s, (∀ x, pfn <= x < pfn + Z.of_nat n → is_Some (frames s !! x)) →
  pageblock_is_reserved n pfn s = Ok (existsb (λ x, match frames s !! x with Some f => PageReserved f | None => false end) (seqZ pfn (Z.of_nat n)), s).
Proof.
  induction n as [|n IH]; intros pfn s Hx; cbn [pageblock_is_reserved]; [done|]. destruct (Hx pfn) as [f Hf]; [lia|].
  erewrite bind_Ok by (by apply frame_at_run). rewrite seqZ_cons by lia. cbn [existsb]. rewrite Hf. destruct (PageReserved f); [done|].
  replace (Z.pred (Z.of_nat (S n))) with (Z.of_nat n) by lia. apply IH. intros x Hr. apply Hx. lia.
Qed.

Lemma pageblock_index_inj x y : (pageblock_nr_pages | x) → (pageblock_nr_pages | y) → pageblock_index x = pageblock_index y → x = y.
Proof.
  intros [a ->] [b ->]. unfold pageblock_index, pageblock_nr_pages. rewrite land_block by done. rewrite !Z.shiftr_div_pow2 by done.
  set (q := zone_start_pfn - _). assert ((2 ^ pageblock_order | q)) as [k ->].
  { unfold q. pose proof (Z.div_mod zone_start_pfn (2 ^ pageblock_order) ltac:(done)). exists (zone_start_pfn / 2 ^ pageblock_order). lia. }
  rewrite <- !Z.mul_sub_distr_r, !Z.div_mul by done. intros E. f_equal. lia.
Qed.

(** What the marking of one block leaves alone. *)
Record remarked (pfn : Z) (s s' : zst) : Prop := Remarked {
  rm_relisted : relisted s s';
  rm_zdata : zdata s' = zdata s;
  rm_types x : (pageblock_nr_pages | x) → x ≠ pfn → block_type s' x = block_type s x;
}.

Lemma remarked_refl pfn s : remarked pfn s s.
Proof. by split. Qed.

Lemma mark_runs {X} B d off lk s pfn t (k : M zst X) Q :
  buddy_inv B d off lk s → (pageblock_nr_pages | pfn) → zone_start_pfn <= pfn < zone_start_pfn + spanned_pages →
  t = MIGRATE_MOVABLE ∨ t = MIGRATE_RESERVE →
  (∀ s', buddy_inv B d off lk s' → remarked pfn s s' → block_type s' pfn = (if page_group_by_mobility_disabled then MIGRATE_UNMOVABLE else t) → runs k s' Q) →
  runs (set_pageblock_migratetype pfn t;; move_freepages_block pfn t;; k) s Q.
Proof.
  intros I Ha Hp Ht Hk. assert (0 <= t < MIGRATE_TYPES) as Ht' by (by destruct Ht as [->| ->]). apply runs_bind.
  destruct (set_pageblock_migratetype_spec B d off lk pfn t s I Ht') as ([] & s1 & E1 & I1 & R1 & _). eapply runs_ok; [exact E1|].
  destruct (bi_span _ _ _ _ _ I1 pfn Hp) as (f & Hf & Hz). destruct (move_freepages_block_spec _ _ _ _ t _ _ _ I1 Ht' Hf Hz) as (r & s2 & E2 & I2 & R2).
  apply runs_bind. eapply runs_ok; [exact E2|]. pose proof (move_block_keeps _ _ _ _ _ E2) as [Ez Ep]. injection E1 as <-. apply Hk; [done|split|].
  - by etrans.
  - by rewrite Ez.
  - intros x Hx Hne. unfold block_type. rewrite Ep. cbn. unfold stat. rewrite lookup_insert_ne; [done|]. intros E%pageblock_index_inj; [by apply Hne|done|done].
  - unfold block_type. rewrite Ep. cbn. unfold stat. rewrite lookup_insert_eq. cbn. by destruct page_group_by_mobility_disabled, Ht as [->| ->].
Qed.

Lemma reserve_block_runs B d off lk s pfn reserve : let end_pfn := zone_start_pfn + spanned_pages in
  buddy_inv B d off lk s → (pageblock_nr_pages | pfn) → zone_start_pfn <= pfn < end_pfn →
  runs (reserve_block pfn_valid pfn end_pfn reserve) s (λ r s', buddy_inv B d off lk s' ∧ remarked pfn s s' ∧
    (if kept_block end_pfn s' pfn then 1 else 0) + Z.max 0 r <= Z.max 0 reserve).
Proof.
  intros end_pfn I Ha Hp. unfold reserve_block, kept_block. destruct (pfn_valid pfn); cbn [negb andb]; [|apply runs_ret; by split_and!; [|apply remarked_refl|lia]].
  apply runs_bind. eapply runs_ok; [done|]. fold (block_type s pfn). set (bt := block_type s pfn).
  assert (runs (take_back pfn bt) s (λ _ s', buddy_inv B d off lk s' ∧ remarked pfn s s' ∧ (block_type s' pfn =? MIGRATE_RESERVE) = false)) as Hback.
  { unfold take_back. apply runs_when; intros E; [|split_and!; [done|apply remarked_refl|done]].
    eapply mark_runs; [done|done|done|by left|]. intros s' I' R' E'. apply runs_ret. split_and!; [done|done|]. rewrite E'. by destruct page_group_by_mobility_disabled. }
  assert (∀ k, runs (take_back pfn bt;; mret k) s (λ r s', buddy_inv B d off lk s' ∧ remarked pfn s s' ∧
    (if negb (block_reserved s' pfn end_pfn) && (block_type s' pfn =? MIGRATE_RESERVE) then 1 else 0) + Z.max 0 r <= Z.max 0 k)) as Hend.
  { intros k. apply runs_bind. eapply runs_mono; [exact Hback|]. cbn beta. intros _ s' (I' & R' & E'). apply runs_ret. rewrite E', andb_false_r. by split_and!. }
  destruct (Z.ltb_spec 0 reserve) as [Hr|Hr]; [|apply Hend]. apply runs_bind.
  assert (pageblock_nr_pages = 1024) as E by done. eapply runs_ok; [apply is_reserved_runs|].
  { intros x Hx. destruct (bi_span _ _ _ _ _ I x) as (f & Hf & _); [fold end_pfn; lia|]. by eexists. }
  rewrite Z2Nat.id by lia. fold (block_reserved s pfn end_pfn). destruct (block_reserved s pfn end_pfn) eqn:Er.
  { apply runs_ret. rewrite Er. by split_and!; [|apply remarked_refl|]. }
  destruct (Z.eqb_spec bt MIGRATE_RESERVE) as [Eb|Eb]; [apply runs_ret; split_and!; [done|apply remarked_refl|destruct (_ && _); lia]|].
  destruct (Z.eqb_spec bt MIGRATE_MOVABLE) as [Em|Em]; [|apply Hend].
  eapply mark_runs; [done|done|done|by right|]. intros s' I' R' _. apply runs_ret. split_and!; [done|done|destruct (_ && _); lia].
Qed.

Lemma kept_block_same end_pfn s s' x : frames s' = frames s → block_type s' x = block_type s x → kept_block end_pfn s' x = kept_block end_pfn s x.
Proof. intros Ef Et. unfold kept_block, block_reserved. by rewrite Ef, Et. Qed.

Lemma kept_blocks_same s s' end_pfn n : frames s' = frames s → pageblock_flags s' = pageblock_flags s → ∀ pfn, kept_blocks n pfn end_pfn s' = kept_blocks n pfn end_pfn s.
Proof.
  intros Ef Et. induction n as [|n IH]; intros pfn; cbn [kept_blocks]; [done|]. rewrite (kept_block_same _ s s') by (done || (unfold block_type; by rewrite Et)). by rewrite IH.
Qed.

Lemma reserve_loop_runs B d off lk n : let end_pfn := zone_start_pfn + spanned_pages in ∀ s pfn reserve,
  buddy_inv B d off lk s → (pageblock_nr_pages | pfn) → zone_start_pfn <= pfn → end_pfn - pfn <= Z.of_nat n →
  runs (reserve_loop pfn_valid n pfn end_pfn reserve) s (λ _ s', buddy_inv B d off lk s' ∧ relisted s s' ∧ zdata s' = zdata s ∧
    (∀ x, (pageblock_nr_pages | x) → x < pfn → block_type s' x = block_type s x) ∧ kept_blocks n pfn end_pfn s' <= Z.max 0 reserve).
Proof.
  intros end_pfn. induction n as [|n IH]; intros s pfn reserve I Ha Hp Hn; cbn [reserve_loop kept_blocks];
    (destruct (Z.leb_spec end_pfn pfn); [apply runs_ret; split_and!; [done|by split|done|done|lia]|]); [lia|].
  assert (pageblock_nr_pages = 1024) as E by done. apply runs_bind. eapply runs_mono; [by apply reserve_block_runs|]. cbn beta. fold end_pfn.
  intros r s1 (I1 & [R1 Z1 T1] & C1). eapply runs_mono; [apply IH; [done|apply Z.divide_add_r; [done|by exists 1]|lia|lia]|]. cbn beta.
  intros _ s2 (I2 & R2 & Z2 & T2 & C2). split_and!; [done|by etrans|congruence|intros x Hx Hlt; rewrite T2 by (done || lia); apply T1; [done|lia]|].
  rewrite (kept_block_same _ s1 s2) by (apply R2 || (apply T2; [done|lia])). lia.
Qed.

(** The zone lies in the first 4 GB pages, so that its end does not wrap around. *)
Definition zone_small : Prop := 0 <= zone_start_pfn ∧ 0 <= spanned_pages ∧ zone_start_pfn + spanned_pages + pageblock_nr_pages < 2 ^ 32.

Lemma roundup_spec x : 0 <= x → x + pageblock_nr_pages < 2 ^ 32 → (pageblock_nr_pages | roundup x pageblock_nr_pages) ∧ x <= roundup x pageblock_nr_pages.
Proof.
  intros Hx Hb. assert (pageblock_nr_pages = 1024) as E by done. unfold roundup. rewrite E in *. rewrite u32_id by (unfold is_u32; lia).
  split; [by eexists|]. pose proof (Z.div_mod (x + (1024 - 1)) 1024 ltac:(done)). pose proof (Z.mod_pos_bound (x + (1024 - 1)) 1024 ltac:(done)). lia.
Qed.

(** The blocks of the zone that are kept for the reserve. *)
Definition zone_kept (s : zst) : Z :=
  kept_blocks (Z.to_nat spanned_pages) (roundup zone_start_pfn pageblock_nr_pages) (zone_start_pfn + spanned_pages) s.

Lemma migrate_reserve_runs B d off lk s : zone_small → buddy_inv B d off lk s →
  runs (setup_zone_migrate_reserve pfn_valid) s (λ _ s', buddy_inv B d off lk s' ∧ relisted s s' ∧ zdata s' = zdata s ∧ zone_kept s' <= 2).
Proof.
  intros (H1 & H2 & H3) I. unfold setup_zone_migrate_reserve. apply runs_bind. eapply runs_ok; [done|].
  destruct (roundup_spec zone_start_pfn) as [Hd Hle]; [done|lia|]. eapply runs_mono; [apply reserve_loop_runs; [done|done|done|lia]|].
  cbn beta. intros _ s' (I' & R' & Z' & _ & C'). split_and!; [done|done|done|]. unfold zone_kept, reserve_wanted in *. lia.
Qed.
End reserve.

(** ** The watermarks of a zone *)

Lemma owners_relisted `{Allocator} F s s' O : owners_ok F s O → buddy_inv (blocks_of s) (λ _, 0) 0 false s' → relisted s s' → owners_ok F s' O.
Proof.
  intros [[I Hc] Hd Hown Hall] I' R. assert (zone_inv (blocks_of s) s') as Z'.
  { split; [done|]. rewrite (re_count _ _ R), Hc. symmetry. apply cpu_length_same. intros t. apply R. }
  destruct (zone_inv_sound _ _ Z') as [Hs' E]. assert (∀ x, available s' x ↔ available s x) as Hav.
  { intros x. unfold available. rewrite <- E. unfold avail, on_cpu. by setoid_rewrite (re_pcp _ _ R). }
  split; [done|done|intros x; rewrite Hav; apply Hown|intros x; rewrite Hav; apply Hall].
Qed.

(** The shares of a zone. *)
Definition share (pages : Z) (zd : zone) (total : Z) : Z := pages * present_pages zd / total.

Lemma zone_wmarks_runs `{Allocator} pfn_valid F O s highmem pages_min pages_low lowmem_pages vm_total_pages :
  owners_ok F s O → zone_small → 0 < lowmem_pages → 0 < vm_total_pages →
  runs (setup_zone_wmarks pfn_valid highmem pages_min pages_low lowmem_pages vm_total_pages) s (λ _ s', owners_ok F s' O ∧ zone_kept pfn_valid s' <= 2 ∧
    zdata s' = set_watermark (zone_marks highmem (share pages_min (zdata s) lowmem_pages) (share pages_low (zdata s) vm_total_pages) (zdata s)) (zdata s)).
Proof.
  intros Ho Hz Hl Hv. pose proof (proj1 (oo_sound _ _ _ Ho)) as I. unfold setup_zone_wmarks.
  apply runs_bind. eapply runs_ok; [unfold spin_lock; erewrite bind_Ok by done; by rewrite (bi_lock _ _ _ _ _ I)|].
  pose proof (inv_lock _ _ _ _ true _ I) as I1. set (s1 := set_zlock true s) in *. apply runs_bind. eapply runs_ok; [done|].
  rewrite (proj2 (Z.eqb_neq lowmem_pages 0)), (proj2 (Z.eqb_neq vm_total_pages 0)) by lia. cbn [orb]. apply runs_bind. eapply runs_ok; [done|].
  set (w := zone_marks _ _ _ _). pose proof (inv_upd_z _ _ _ _ _ (set_watermark w) I1 eq_refl eq_refl) as I2. change (set_zdata _ s1) with (upd_z (set_watermark w) s1).
  apply runs_bind. eapply runs_mono; [by apply migrate_reserve_runs|]. cbn beta. intros _ s3 (I3 & [R1 R2 R3] & Z3 & C3). eapply runs_ok; [done|].
  split; [|split; [unfold zone_kept in *; by rewrite (kept_blocks_same _ s3)|exact Z3]]. apply (owners_relisted F s); [done|by eapply inv_lock|]. split; [exact R1|exact R2|exact R3].
Qed.

(** The marks are in order. *)
Lemma zone_marks_order highmem min low zd : 0 <= present_pages zd → 0 <= min → 0 <= low → min + low + Z.shiftr min 1 + 128 < 2 ^ 32 →
  let '(wmin, wlow, whigh) := zone_marks highmem min low zd in 0 <= wmin ∧ wmin <= wlow <= whigh ∧ whigh <= Z.max min 128 + low + min / 2.
Proof.
  intros Hp Hm Hl Hb. unfold zone_marks. rewrite !Z.shiftr_div_pow2 in * by done. change (2 ^ 1) with 2 in *. change (2 ^ 2) with 4.
  assert (0 <= highmem_min zd <= 128) as Hh.
  { unfold highmem_min. assert (0 <= present_pages zd / 1024) by (by apply Z.div_pos). unfold SWAP_CLUSTER_MAX.
    destruct (Z.ltb_spec (present_pages zd / 1024) 32); [done|]. destruct (Z.ltb_spec 128 (present_pages zd / 1024)); lia. }
  assert (0 <= min / 4 <= min / 2) by (split; [by apply Z.div_pos|apply Z.div_le_compat_l; lia]).
  assert (0 <= (if highmem then highmem_min zd else u32 min) <= Z.max min 128) as Hw by (destruct highmem; [lia|rewrite u32_id by (unfold is_u32; lia); lia]).
  set (wmin := if highmem then _ else _) in *. clearbody wmin. rewrite !u32_id by (unfold is_u32; lia). lia.
Qed.

(** ** The zones of the node *)

Section node.
Context `{E : AllocEnv} {L : AllocEnvLaws E} (pfn_valid : Z → bool).

Lemma owners_ext F s O O' : (∀ z, O z = O' z) → node_owners F s O → node_owners F s O'.
Proof. intros Eo [H1 H2 H3]. split; [done|done|]. intros z t Ht. rewrite <- Eo. by apply H3. Qed.

Lemma keep_zone_owners F s O z t : node_owners F s O → is_Some (nzones s !! z) → @owners_ok (zone_conf z) (F z) t (O z) →
  node_owners F (set_nzones (<[z := t]> (nzones s)) s) O.
Proof. intros N Hz Ht. eapply owners_ext; [|by eapply set_zone_owners]. intros y. cbn. by case_decide; subst. Qed.

(** The data of a zone changes, but for the counters of free pages. *)
Lemma owners_upd_z `{Allocator} F s O f : nr_free (f (zdata s)) = nr_free (zdata s) → vm_stat (f (zdata s)) = vm_stat (zdata s) →
  owners_ok F s O → owners_ok F (upd_z f s) O.
Proof.
  intros E1 E2 Ho. apply (owners_relisted F s); [done| |by split]. apply inv_upd_z; [apply Ho|done|by rewrite E2].
Qed.

Lemma upd_zone_runs F s O z t f Q : node_owners F s O → nzones s !! z = Some t → nr_free (f (zdata t)) = nr_free (zdata t) →
  vm_stat (f (zdata t)) = vm_stat (zdata t) →
  (∀ s', node_owners F s' O → nzones s' = <[z := upd_z f t]> (nzones s) → Q () s') → runs (on_zone z (upd_zdata f)) s Q.
Proof.
  intros N Hz E1 E2 HQ. eapply runs_on_zone; [done|]. eapply runs_ok; [done|]. apply HQ; [|done].
  apply keep_zone_owners; [done|by eexists|]. apply (@owners_upd_z (zone_conf z)); [done|done|]. by apply N.
Qed.

(** The pages of each zone. *)
Definition present_are (P : Z → Z) (s : node) : Prop := ∀ z t, nzones s !! z = Some t → present_pages (zdata t) = P z.

Definition zones_there (s : node) : Prop := ∀ z, z ∈ all_zones → is_Some (nzones s !! z).

(** ** Reserves for the zones above *)

(** The pages of the zones from [a] up to [b], without [b]. *)
Definition pages_between (P : Z → Z) (a b : Z) : Z := foldr (λ y n, P y + n) 0 (seqZ a (b - a)).

Lemma pages_between_nil P a b : b <= a → pages_between P a b = 0.
Proof. intros Hb. unfold pages_between. by rewrite seqZ_nil by lia. Qed.

Lemma pages_between_snoc P a b : a <= b → pages_between P a (b + 1) = pages_between P a b + P b.
Proof.
  intros Hb. unfold pages_between. replace (b + 1 - a) with ((b - a) + 1) by lia. rewrite seqZ_app by lia. rewrite foldr_app.
  replace (a + (b - a)) with b by lia. change (seqZ b 1) with [b]. cbn [foldr]. rewrite Z.add_0_r.
  generalize (P b). intros x. induction (seqZ a (b - a)) as [|y l IH]; cbn [foldr]; [lia|]. rewrite IH. lia.
Qed.

Lemma pages_between_mono P a b c : (∀ z, 0 <= P z) → a <= b → b <= c → pages_between P a b <= pages_between P a c.
Proof.
  intros Hp Hab Hbc. replace c with (b + Z.of_nat (Z.to_nat (c - b))) by lia. induction (Z.to_nat (c - b)) as [|n IH]; [by rewrite Z.add_0_r|].
  rewrite Nat2Z.inj_succ. replace (b + Z.succ (Z.of_nat n)) with (b + Z.of_nat n + 1) by lia. rewrite pages_between_snoc by lia. specialize (Hp (b + Z.of_nat n)). lia.
Qed.

Lemma pages_between_pos P a b : (∀ z, 0 <= P z) → 0 <= pages_between P a b.
Proof. intros Hp. unfold pages_between. induction (seqZ _ _) as [|y l IH]; cbn [foldr]; [done|]. specialize (Hp y). lia. Qed.

(** The reserves of each zone; nothing else of the zones has changed. *)
Definition reserves_are (R : Z → Z → Z → Z) (s s' : node) : Prop := ∀ z t, nzones s !! z = Some t →
  ∃ m, nzones s' !! z = Some (upd_z (set_lowmem_reserve m) t) ∧ ∀ k, stat m k = R z k (stat (lowmem_reserve (zdata t)) k).

Lemma reserves_are_refl s : reserves_are (λ _ _ old, old) s s.
Proof. intros z t Ht. exists (lowmem_reserve (zdata t)). split; [rewrite Ht; f_equal; by destruct t as [? ? [] ? ? ? ?]|done]. Qed.

Lemma reserves_are_trans R1 R2 s1 s2 s3 : reserves_are R1 s1 s2 → reserves_are R2 s2 s3 → reserves_are (λ z k old, R2 z k (R1 z k old)) s1 s3.
Proof.
  intros H1 H2 z t Ht. destruct (H1 z t Ht) as (m1 & E1 & Hm1). destruct (H2 z _ E1) as (m2 & E2 & Hm2). exists m2. split; [exact E2|].
  intros k. rewrite Hm2. cbn. by rewrite Hm1.
Qed.

Lemma reserves_are_ext R1 R2 s s' : (∀ z k old, R1 z k old = R2 z k old) → reserves_are R1 s s' → reserves_are R2 s s'.
Proof. intros He H1 z t Ht. destruct (H1 z t Ht) as (m & Em & Hm). exists m. split; [done|]. intros k. by rewrite Hm, He. Qed.

Lemma reserves_present R P s s' : reserves_are R s s' → present_are P s → (∀ z, is_Some (nzones s' !! z) → is_Some (nzones s !! z)) → present_are P s'.
Proof.
  intros HR HP Hd z t' Ht'. destruct (Hd z) as [t Ht]; [by eexists|]. destruct (HR z t Ht) as (m & Em & _). rewrite Em in Ht'. injection Ht' as <-. exact (HP z t Ht).
Qed.

(** One reserve of one zone is set. *)
Lemma set_reserve_runs F s O z t j v : node_owners F s O → nzones s !! z = Some t →
  runs (on_zone z (upd_zdata (λ zd, set_lowmem_reserve (<[j := v]> (lowmem_reserve zd)) zd))) s (λ _ s', node_owners F s' O ∧
    (∀ y, is_Some (nzones s' !! y) ↔ is_Some (nzones s !! y)) ∧ reserves_are (λ y k old, if decide (y = z ∧ k = j) then v else old) s s').
Proof.
  intros N Hz. eapply upd_zone_runs; [done|done|done|done|]. intros s' N' En. split; [done|]. split.
  - intros y. rewrite En. destruct (decide (y = z)) as [->|]; [rewrite lookup_insert_eq, Hz; split; by eexists|by rewrite lookup_insert_ne].
  - intros y u Hu. rewrite En. destruct (decide (y = z)) as [->|Hne].
    + rewrite lookup_insert_eq. rewrite Hz in Hu. injection Hu as <-. eexists. split; [done|]. intros k. unfold stat.
      destruct (decide (k = j)) as [->|]; [rewrite lookup_insert_eq, decide_True by done; done|rewrite lookup_insert_ne, decide_False by (congruence || (intros [? ?]; congruence)); done].
    + rewrite lookup_insert_ne by done. destruct (reserves_are_refl s y u Hu) as (m & Em & Hm). exists m. split; [done|]. intros k. rewrite Hm, decide_False by (congruence || (intros [? ?]; congruence)). done.
Qed.

Lemma reserve_lower_runs F O P j i : ∀ present ratio s, node_owners F s O → present_are P s → (∀ z, 0 <= z < Z.of_nat i → is_Some (nzones s !! z)) →
  (∀ z, 0 <= P z) → 0 <= present → present + pages_between P 0 (Z.of_nat i) < 2 ^ 32 →
  runs (reserve_lower i j present ratio) s (λ ratio' s', node_owners F s' O ∧ (∀ y, is_Some (nzones s' !! y) ↔ is_Some (nzones s !! y)) ∧
    reserves_are (λ z k old, if decide (k = j ∧ 0 <= z < Z.of_nat i) then (present + pages_between P (z + 1) (Z.of_nat i)) / Z.max 1 (stat ratio z) else old) s s' ∧
    ∀ z, Z.max 1 (stat ratio' z) = Z.max 1 (stat ratio z)).
Proof.
  induction i as [|i IH]; intros present ratio s N HP Hz Hpos Hp Hb; cbn [reserve_lower].
  { apply runs_ret. split_and!; [done|done| |done]. eapply reserves_are_ext; [|apply reserves_are_refl]. intros z k old. cbn. rewrite decide_False; [done|lia]. }
  set (r1 := if _ <? 1 then _ else ratio). destruct (Hz (Z.of_nat i)) as [t Ht]; [lia|].
  assert (∀ z, stat r1 z = if decide (z = Z.of_nat i) then Z.max 1 (stat ratio z) else stat ratio z) as Hr1.
  { intros z. unfold r1. destruct (Z.ltb_spec (stat ratio (Z.of_nat i)) 1); case_decide; subst; [|by unfold stat; rewrite lookup_insert_ne|lia|done].
    unfold stat at 1. rewrite lookup_insert_eq. cbn. lia. }
  rewrite Nat2Z.inj_succ in *. unfold Z.succ in *. rewrite pages_between_snoc in Hb by lia.
  apply runs_bind. eapply runs_mono; [by eapply set_reserve_runs|]. cbn beta. intros _ s1 (N1 & D1 & R1).
  pose proof (reserves_present _ _ _ _ R1 HP ltac:(intros z; apply D1)) as HP1. destruct (R1 _ _ Ht) as (m & Em & _).
  apply runs_bind. eapply runs_ok; [by apply zone_data_run|]. rewrite (HP1 _ _ Em). pose proof (pages_between_pos P 0 (Z.of_nat i) Hpos) as Hpb.
  specialize (Hpos (Z.of_nat i)) as Hpi. rewrite (u32_id (present + P (Z.of_nat i))) by (unfold is_u32; lia).
  eapply runs_mono; [apply IH; [done|done|intros z Hzz; apply D1, Hz; lia|done|lia|lia]|]. cbn beta. intros ratio' s2 (N2 & D2 & R2 & Hr2).
  split; [done|]. split; [intros y; by rewrite D2, D1|]. split; [|intros z; rewrite Hr2, Hr1; case_decide; lia].
  eapply reserves_are_ext; [|exact (reserves_are_trans _ _ _ _ _ R1 R2)]. intros z k old. cbn beta. rewrite !Hr1.
  destruct (decide (z = Z.of_nat i)) as [->|Hne].
  - rewrite (decide_False (P := k = j ∧ 0 <= Z.of_nat i < Z.of_nat i)) by lia. rewrite pages_between_nil, Z.add_0_r by lia.
    destruct (decide (k = j)); [by rewrite !decide_True by lia|]. by rewrite !decide_False by (congruence || (intros [? ?]; congruence)).
  - rewrite (decide_False (P := z = Z.of_nat i ∧ k = j)) by (congruence || (intros [? ?]; congruence)). destruct (decide (k = j ∧ 0 <= z < Z.of_nat i)) as [[-> Hzi]|Hno].
    + rewrite decide_True by lia. rewrite pages_between_snoc by lia. f_equal. lia.
    + rewrite decide_False; [done|]. intros [? ?]. apply Hno. split; [done|lia].
Qed.

(** The reserve that zone [z] keeps from requests that prefer zone [k]. *)
Definition reserve_for (P : Z → Z) (ratio : gmap Z Z) (z k : Z) : Z := if z =? k then 0 else pages_between P (z + 1) (k + 1) / Z.max 1 (stat ratio z).

Lemma reserve_zones_runs F O P js : ∀ ratio s, node_owners F s O → present_are P s → zones_there s → (∀ z, 0 <= P z) → pages_between P 0 MAX_NR_ZONES < 2 ^ 32 →
  (∀ j, j ∈ js → 0 <= j < MAX_NR_ZONES) →
  runs (reserve_zones js ratio) s (λ ratio' s', node_owners F s' O ∧ (∀ y, is_Some (nzones s' !! y) ↔ is_Some (nzones s !! y)) ∧
    reserves_are (λ z k old, if decide (k ∈ js ∧ 0 <= z <= k) then reserve_for P ratio z k else old) s s' ∧
    ∀ z, Z.max 1 (stat ratio' z) = Z.max 1 (stat ratio z)).
Proof.
  induction js as [|j js IH]; intros ratio s N HP Hz Hpos Hb Hj; cbn [reserve_zones].
  { apply runs_ret. split_and!; [done|done| |done]. eapply reserves_are_ext; [|apply reserves_are_refl]. intros z k old. cbn.
    rewrite decide_False; [done|]. by intros [?%elem_of_nil _]. }
  assert (0 <= j < MAX_NR_ZONES) as Hj1 by (apply Hj; left). destruct (Hz j) as [t Ht]; [apply elem_of_seqZ; lia|].
  apply runs_bind. eapply runs_ok; [by apply zone_data_run|]. rewrite (HP _ _ Ht). apply runs_bind. eapply runs_mono; [by eapply set_reserve_runs|].
  cbn beta. intros _ s1 (N1 & D1 & R1). pose proof (reserves_present _ _ _ _ R1 HP ltac:(intros z; apply D1)) as HP1.
  apply runs_bind. eapply runs_mono; [apply (reserve_lower_runs F O P); [done|done| |done|apply Hpos|]|].
  { intros z Hzz. apply D1, Hz, elem_of_seqZ. lia. }
  { rewrite Z2Nat.id by lia. rewrite Z.add_comm, <- pages_between_snoc by lia. eapply Z.le_lt_trans; [|exact Hb]. apply pages_between_mono; [done|lia|lia]. }
  cbn beta. intros r2 s2 (N2 & D2 & R2 & Hr2). pose proof (reserves_present _ _ _ _ R2 HP1 ltac:(intros z; apply D2)) as HP2.
  eapply runs_mono; [apply IH; [done|done|intros z Hzz; by apply D2, D1, Hz|done|done|intros k Hk; apply Hj; by right]|]. cbn beta. intros r3 s3 (N3 & D3 & R3 & Hr3).
  split; [done|]. split; [intros y; by rewrite D3, D2, D1|]. split; [|intros z; by rewrite Hr3, Hr2].
  eapply reserves_are_ext; [|exact (reserves_are_trans _ _ _ _ _ (reserves_are_trans _ _ _ _ _ R1 R2) R3)]. intros z k old. cbn beta.
  rewrite Z2Nat.id by lia. unfold reserve_for. rewrite Hr2.
  destruct (decide (k ∈ js ∧ 0 <= z <= k)) as [[Hk Hzk]|H1]; [by rewrite decide_True by (split; [by right|done])|].
  destruct (decide (k = j ∧ 0 <= z < j)) as [[-> Hzj]|H2].
  { rewrite decide_True by (split; [left|lia]). rewrite (proj2 (Z.eqb_neq z j)) by lia. rewrite pages_between_snoc by lia. f_equal. lia. }
  destruct (decide (z = j ∧ k = j)) as [[-> ->]|H3]; [rewrite decide_True by (split; [left|lia]); by rewrite Z.eqb_refl|].
  rewrite decide_False; [done|]. intros [[->|Hk]%elem_of_cons Hzk]; [|by apply H1]. destruct (decide (z = j)); [by apply H3|]. apply H2. split; [done|lia].
Qed.

(** ** The loops over the zones *)

(** Each zone is what [Q] says of what it was. *)
Definition zones_follow (Q : Z → zst → zst → Prop) (s s' : node) : Prop :=
  (∀ z t, nzones s !! z = Some t → ∃ t', nzones s' !! z = Some t' ∧ Q z t t') ∧ ∀ z, is_Some (nzones s' !! z) → is_Some (nzones s !! z).

Lemma zones_follow_refl (Q : Z → zst → zst → Prop) s : (∀ z t, Q z t t) → zones_follow Q s s.
Proof. intros HQ. split; [|done]. intros z t Ht. by exists t. Qed.

(** An operation on one zone after the other. *)
Lemma each_zone_runs F O (op : Z → M node ()) (loop : list Z → M node ()) (G : zst → Prop) (Q : Z → zst → zst → Prop) :
  loop [] = mret () → (∀ z zs, loop (z :: zs) = (op z;; loop zs)) →
  (∀ z t s, node_owners F s O → z ∈ all_zones → nzones s !! z = Some t → G t →
    runs (op z) s (λ _ s', node_owners F s' O ∧ ∃ t', nzones s' = <[z := t']> (nzones s) ∧ Q z t t')) →
  ∀ zs s, NoDup zs → (∀ z, z ∈ zs → z ∈ all_zones ∧ ∃ t, nzones s !! z = Some t ∧ G t) → node_owners F s O →
  runs (loop zs) s (λ _ s', node_owners F s' O ∧ zones_follow (λ z t t', if decide (z ∈ zs) then Q z t t' else t' = t) s s').
Proof.
  intros Hnil Hcons Hop zs. induction zs as [|z zs IH]; intros s Hnd Hz N; [rewrite Hnil; apply runs_ret; split; [done|]|].
  { apply zones_follow_refl. intros z t. rewrite decide_False; [done|]. apply not_elem_of_nil. }
  apply NoDup_cons in Hnd as [Hnz Hnd]. rewrite Hcons. destruct (Hz z) as [Hzz (t & Ht & HG)]; [left|]. apply runs_bind.
  eapply runs_mono; [by apply (Hop z t)|]. cbn beta. intros _ s1 (N1 & t1 & En & HQ). eapply runs_mono; [apply IH; [done| |done]|].
  { intros y Hy. destruct (Hz y) as [? ?]; [by right|]. split; [done|]. rewrite En, lookup_insert_ne; [done|]. by intros ->. }
  cbn beta. intros _ s2 (N2 & F2 & D2). split; [done|]. split.
  2:{ intros y Hy%D2. rewrite En in Hy. destruct (decide (y = z)) as [->|]; [by eexists|by rewrite lookup_insert_ne in Hy]. }
  intros y u Hu. destruct (decide (y = z)) as [->|Hne].
  - rewrite Ht in Hu. injection Hu as <-. destruct (F2 z t1) as (t2 & E2 & H2); [by rewrite En, lookup_insert_eq|]. rewrite decide_False in H2 by done.
    subst t2. exists t1. split; [done|]. by rewrite decide_True by left.
  - destruct (F2 y u) as (t2 & E2 & H2); [by rewrite En, lookup_insert_ne|]. exists t2. split; [done|].
    destruct (decide (y ∈ zs)); [by rewrite decide_True by (by right)|]. rewrite decide_False; [done|]. by intros [?|?]%elem_of_cons.
Qed.

Context (conf_small : ∀ z, z ∈ all_zones → @zone_small (zone_conf z)).

Lemma wmarks_loop_runs F O pages_min pages_low lowmem_pages vm_total_pages s : node_owners F s O → zones_there s → 0 < lowmem_pages → 0 < vm_total_pages →
  runs (wmarks_loop pfn_valid all_zones pages_min pages_low lowmem_pages vm_total_pages) s (λ _ s', node_owners F s' O ∧
    zones_follow (λ z t t', if decide (z ∈ all_zones) then zdata t' = set_watermark (zone_marks (is_highmem z) (share pages_min (zdata t) lowmem_pages)
      (share pages_low (zdata t) vm_total_pages) (zdata t)) (zdata t) ∧ @zone_kept (zone_conf z) pfn_valid t' <= 2 else t' = t) s s').
Proof.
  intros N Hz Hl Hv. apply (each_zone_runs F O
    (λ z, on_zone z (@setup_zone_wmarks (zone_conf z) pfn_valid (is_highmem z) pages_min pages_low lowmem_pages vm_total_pages))
    (λ zs, wmarks_loop pfn_valid zs pages_min pages_low lowmem_pages vm_total_pages) (λ _, True) _ eq_refl (λ _ _, eq_refl)); [|apply NoDup_seqZ| |done].
  2:{ intros z Hzz. split; [done|]. destruct (Hz z Hzz) as [t Ht]. by exists t. }
  intros z t s1 N1 Hz1 Ht _. eapply runs_on_zone; [done|].
  eapply runs_mono; [eapply (@zone_wmarks_runs (zone_conf z)); [by apply N1|by apply conf_small|done|done]|].
  cbn beta. intros _ t' (Ho & Hk & Hd). split; [apply keep_zone_owners; [done|by eexists|done]|]. exists t'. by split_and!.
Qed.

Lemma zone_inactive_ratio_spec zd : 0 <= present_pages zd < 2 ^ 32 → ∃ r, zone_inactive_ratio zd = Some r ∧ 1 <= r.
Proof.
  intros Hp. unfold zone_inactive_ratio. rewrite Z.shiftr_div_pow2 by done. change (2 ^ (30 - 12)) with 262144.
  assert (0 <= present_pages zd / 262144 < 16384) as Hg by (split; [apply Z.div_pos; lia|apply Z.div_lt_upper_bound; lia]).
  destruct (Z.eqb_spec (present_pages zd / 262144) 0); [by exists 1|]. rewrite u32_id by (unfold is_u32; lia).
  rewrite int_sqrt_root by (unfold is_u32; lia). eexists. split; [done|]. apply Z.sqrt_le_square; lia.
Qed.

Lemma ratio_loop_runs F O s : node_owners F s O → zones_there s → (∀ z t, z ∈ all_zones → nzones s !! z = Some t → 0 <= present_pages (zdata t) < 2 ^ 32) →
  runs setup_per_zone_inactive_ratio s (λ _ s', node_owners F s' O ∧
    zones_follow (λ z t t', ∃ r, t' = upd_z (set_inactive_ratio r) t ∧ (z ∈ all_zones → 1 <= r)) s s').
Proof.
  intros N Hz Hp. eapply runs_mono; [apply (each_zone_runs F O calculate_zone_inactive_ratio ratio_loop (λ t, 0 <= present_pages (zdata t) < 2 ^ 32)
    (λ z t t', ∃ r, t' = upd_z (set_inactive_ratio r) t ∧ 1 <= r) eq_refl (λ _ _, eq_refl)); [|apply NoDup_seqZ| |done]|].
  - intros z t s1 N1 Hz1 Ht Hpt. unfold calculate_zone_inactive_ratio. apply runs_bind. eapply runs_ok; [by apply zone_data_run|].
    destruct (zone_inactive_ratio_spec (zdata t) Hpt) as (r & -> & Hr). apply runs_bind. eapply runs_ok; [done|].
    eapply upd_zone_runs; [done|done|done|done|]. intros s' N' En. split; [done|]. eexists. split; [exact En|]. by exists r.
  - intros z Hzz. split; [done|]. destruct (Hz z Hzz) as [t Ht]. exists t. split; [done|by apply (Hp z)].
  - cbn beta. intros _ s' (N' & F' & D'). split; [done|]. split; [|done]. intros z t Ht. destruct (F' z t Ht) as (t' & Ht' & H'). exists t'. split; [done|].
    case_decide as Hd; [destruct H' as (r & -> & Hr); by exists r|]. subst t'. exists (inactive_ratio (zdata t)). split; [by destruct t as [? ? [] ? ? ? ?]|done].
Qed.

(** ** The total *)

Lemma zone_reserved_bound z zd : 0 <= present_pages zd → 0 <= zone_reserved z zd <= present_pages zd.
Proof. intros Hp. unfold zone_reserved. pose proof (u32_range (largest_reserve z zd + high_wmark_pages zd)) as Hu. unfold is_u32 in Hu. destruct (Z.ltb_spec (present_pages zd) (u32 (largest_reserve z zd + high_wmark_pages zd))); lia. Qed.

Lemma sum_reserves_run P s : present_are P s → zones_there s → (∀ z, 0 <= P z) → pages_between P 0 MAX_NR_ZONES < 2 ^ 32 →
  ∃ total, calculate_totalreserve_pages s = Ok (total, s) ∧ 0 <= total <= pages_between P 0 MAX_NR_ZONES.
Proof.
  intros HP Hz Hpos Hb. assert (∀ z, z ∈ all_zones → ∃ t, nzones s !! z = Some t ∧ 0 <= zone_reserved z (zdata t) <= P z) as Hzr.
  { intros z [t Ht]%Hz. exists t. split; [done|]. rewrite <- (HP z t Ht). apply zone_reserved_bound. rewrite (HP z t Ht). apply Hpos. }
  unfold calculate_totalreserve_pages, pages_between in *. change (seqZ 0 (MAX_NR_ZONES - 0)) with all_zones in *.
  enough (∀ zs n, (∀ z, z ∈ zs → z ∈ all_zones) → 0 <= n → n + foldr (λ y n, P y + n) 0 zs < 2 ^ 32 →
    ∃ total, sum_reserves zs n s = Ok (total, s) ∧ n <= total <= n + foldr (λ y n, P y + n) 0 zs) as H by (apply (H all_zones 0); [done|done|exact Hb]).
  induction zs as [|z zs IH]; intros n Hin Hn Hs; cbn [sum_reserves foldr] in *; [exists n; split; [done|lia]|].
  destruct (Hzr z) as (t & Ht & Hr); [apply Hin; left|]. erewrite bind_Ok by (by apply zone_data_run).
  assert (0 <= foldr (λ y n, P y + n) 0 zs) by (clear -Hpos; induction zs as [|y l IHl]; cbn [foldr]; [done|]; specialize (Hpos y); lia).
  rewrite u32_id by (unfold is_u32; lia). destruct (IH (n + zone_reserved z (zdata t))) as (total & Et & Hb2); [intros y Hy; apply Hin; by right|lia|lia|].
  exists total. split; [done|lia].
Qed.

(** ** All of it *)

Lemma sum_lowmem_run P s : present_are P s → zones_there s → (∀ z, 0 <= P z) → pages_between P 0 MAX_NR_ZONES < 2 ^ 32 →
  sum_lowmem all_zones 0 s = Ok (P ZONE_NORMAL + P ZONE_MOVABLE, s).
Proof.
  intros HP Hz Hpos Hb. change (pages_between P 0 MAX_NR_ZONES) with (P 0 + (P 1 + (P 2 + 0))) in Hb.
  assert (∀ z, z ∈ all_zones → ∃ t, nzones s !! z = Some t ∧ present_pages (zdata t) = P z) as Ht.
  { intros z [t E1]%Hz. exists t. split; [done|by apply HP]. }
  destruct (Ht 0) as (t0 & E0 & P0); [by apply elem_of_seqZ|]. destruct (Ht 1) as (t1 & E1 & P1); [by apply elem_of_seqZ|].
  destruct (Ht 2) as (t2 & E2 & P2); [by apply elem_of_seqZ|]. pose proof (Hpos 0). pose proof (Hpos 1). pose proof (Hpos 2).
  change all_zones with [0; 1; 2]. cbn [sum_lowmem]. erewrite bind_Ok by (by apply zone_data_run). erewrite bind_Ok by (by apply zone_data_run).
  erewrite bind_Ok by (by apply zone_data_run). change (is_highmem 0) with false. change (is_highmem 1) with true. change (is_highmem 2) with false.
  cbv iota. rewrite P0, P2, (u32_id (0 + P 0)), u32_id by (unfold is_u32; lia). done.
Qed.

Lemma sum_free_run F s O zs n : node_owners F s O → (∀ z, z ∈ zs → z ∈ node_zonelist) → ∃ m, sum_free zs n s = Ok (m, s).
Proof.
  intros N. revert n. induction zs as [|z zs IH]; intros n Hzs; cbn [sum_free]; [by exists n|].
  destruct (no_zone _ _ _ N z (Hzs z ltac:(left))) as [t Ht]. erewrite bind_Ok by (by apply zone_data_run). apply IH. intros y Hy. apply Hzs. by right.
Qed.

(** The memory of the machine: less than 4 GB, some of it low, and not a thousand times
    more high than low. *)
Record memory_ok (P : Z → Z) (extra_free_kbytes vm_total_pages : Z) : Prop := MemoryOk {
  mo_pos z : 0 <= P z;
  mo_sum : pages_between P 0 MAX_NR_ZONES < 2 ^ 20;
  mo_low : 0 < P ZONE_NORMAL + P ZONE_MOVABLE;
  mo_high z : z ∈ all_zones → P z <= 1024 * (P ZONE_NORMAL + P ZONE_MOVABLE);
  mo_total z : z ∈ all_zones → P z <= vm_total_pages;
  mo_extra : 0 <= extra_free_kbytes < 2 ^ 31;
}.

(** The limits of a zone. *)
Record limits_ok (P : Z → Z) (ratio : gmap Z Z) (z : Z) (t : zst) : Prop := LimitsOk {
  lo_min : 0 <= min_wmark_pages (zdata t);
  lo_low : min_wmark_pages (zdata t) <= low_wmark_pages (zdata t);
  lo_high : low_wmark_pages (zdata t) <= high_wmark_pages (zdata t);
  lo_reserve k : z <= k < MAX_NR_ZONES → stat (lowmem_reserve (zdata t)) k = reserve_for P ratio z k;
  lo_sum k : z <= k < MAX_NR_ZONES → 0 <= reserve_for P ratio z k ∧ high_wmark_pages (zdata t) + reserve_for P ratio z k < 2 ^ 31;
  lo_ratio : 1 <= inactive_ratio (zdata t);
  lo_kept : @zone_kept (zone_conf z) pfn_valid t <= 2;
}.

Lemma share_bound pages zd total k : 0 <= pages → 0 < total → 0 <= present_pages zd <= k * total → 0 <= share pages zd total <= k * pages.
Proof.
  intros Hp Ht Hz. unfold share. split; [apply Z.div_pos; nia|]. apply Z.div_le_upper_bound; [done|]. nia.
Qed.

Lemma reserve_for_bound P ratio z k : (∀ y, 0 <= P y) → 0 <= z <= k → k < MAX_NR_ZONES → 0 <= reserve_for P ratio z k <= pages_between P 0 MAX_NR_ZONES.
Proof.
  intros Hpos Hz Hk. unfold reserve_for. pose proof (pages_between_pos P 0 MAX_NR_ZONES Hpos). destruct (Z.eqb_spec z k); [lia|].
  pose proof (pages_between_pos P (z + 1) (k + 1) Hpos). split; [apply Z.div_pos; lia|].
  apply Z.div_le_upper_bound; [lia|]. assert (pages_between P (z + 1) (k + 1) <= pages_between P 0 MAX_NR_ZONES); [|nia].
  pose proof (Hpos 0). pose proof (Hpos 1). pose proof (Hpos 2). change (pages_between P 0 MAX_NR_ZONES) with (P 0 + (P 1 + (P 2 + 0))).
  unfold MAX_NR_ZONES in Hk. assert (z = 0 ∧ k = 1 ∨ z = 0 ∧ k = 2 ∨ z = 1 ∧ k = 2) as [[-> ->]|[[-> ->]|[-> ->]]] by lia; unfold pages_between.
  - change (seqZ (0 + 1) (1 + 1 - (0 + 1))) with [1]. cbn [foldr]. lia.
  - change (seqZ (0 + 1) (2 + 1 - (0 + 1))) with [1; 2]. cbn [foldr]. lia.
  - change (seqZ (1 + 1) (2 + 1 - (1 + 1))) with [2]. cbn [foldr]. lia.
Qed.

(** The data of a zone in the end. *)
Definition final_data (P : Z → Z) (ratio : gmap Z Z) (min_free_kbytes extra_free_kbytes vm_total_pages z : Z) (zd zd' : zone) : Prop :=
  ∃ m r, (∀ k, 0 <= z <= k → k < MAX_NR_ZONES → stat m k = reserve_for P ratio z k) ∧ 1 <= r ∧
    zd' = set_inactive_ratio r (set_lowmem_reserve m (set_watermark (zone_marks (is_highmem z) (share (u32 (Z.shiftr min_free_kbytes 2)) zd (P ZONE_NORMAL + P ZONE_MOVABLE))
      (share (u32 (Z.shiftr extra_free_kbytes 2)) zd vm_total_pages) zd) zd)).

Lemma clamp_bound x : 128 <= clamp_min_free x <= 65536.
Proof. unfold clamp_min_free. destruct (Z.ltb_spec x 128); [done|]. destruct (Z.ltb_spec 65536 x); lia. Qed.

Lemma vm_pos P extra vm : memory_ok P extra vm → 0 < vm.
Proof.
  intros [_ _ Hlow _ Htot _]. change ZONE_NORMAL with 0 in Hlow. change ZONE_MOVABLE with 2 in Hlow.
  pose proof (Htot 0 ltac:(by apply elem_of_seqZ)). pose proof (Htot 2 ltac:(by apply elem_of_seqZ)). lia.
Qed.

Lemma zone_part P z : (∀ y, 0 <= P y) → z ∈ all_zones → P z <= pages_between P 0 MAX_NR_ZONES.
Proof.
  intros Hpos Hz. change (pages_between P 0 MAX_NR_ZONES) with (P 0 + (P 1 + (P 2 + 0))). pose proof (Hpos 0). pose proof (Hpos 1). pose proof (Hpos 2).
  change all_zones with [0; 1; 2] in Hz. repeat (apply elem_of_cons in Hz as [->|Hz]; [lia|]). by apply elem_of_nil in Hz.
Qed.

Lemma init_wmarks_runs F O P s extra vm ratio : node_owners F s O → zones_there s → present_are P s → memory_ok P extra vm →
  runs (init_per_zone_wmark_min pfn_valid extra vm ratio) s (λ r s', let '(min_free, total, ratio') := r in
    node_owners F s' O ∧ 128 <= min_free <= 65536 ∧ 0 <= total <= pages_between P 0 MAX_NR_ZONES ∧
    (∀ z, Z.max 1 (stat ratio' z) = Z.max 1 (stat ratio z)) ∧
    zones_follow (λ z t t', z ∈ all_zones → final_data P ratio min_free extra vm z (zdata t) (zdata t') ∧ @zone_kept (zone_conf z) pfn_valid t' <= 2) s s').
Proof.
  intros N Hz HP Hmem. pose proof (vm_pos _ _ _ Hmem) as Hvm. destruct Hmem as [Hpos Hsum Hlow _ _ _].
  assert (pages_between P 0 MAX_NR_ZONES < 2 ^ 32) as Hsum' by lia.
  unfold init_per_zone_wmark_min. apply runs_bind. destruct (sum_free_run F s O (zones_upto node_zonelist (gfp_zone GFP_USER)) 0 N) as [free Ef].
  { intros z [_ ?]%list_elem_of_filter. done. }
  eapply runs_ok; [exact Ef|]. apply runs_bind. rewrite int_sqrt_root by apply u32_range. eapply runs_ok; [done|]. set (mf := clamp_min_free _).
  pose proof (clamp_bound (s32 (Z.sqrt (u32 (u32 (free * 4) * 16))))) as Hmf. fold mf in Hmf. clearbody mf.
  apply runs_bind. unfold setup_per_zone_wmarks. apply runs_bind. eapply runs_ok; [by apply sum_lowmem_run|]. apply runs_bind.
  eapply runs_mono; [by apply wmarks_loop_runs|]. cbn beta. intros _ s1 (N1 & F1 & D1).
  assert (present_are P s1) as HP1.
  { intros z t1 Ht1. destruct (D1 z) as [t Ht]; [by eexists|]. destruct (F1 z t Ht) as (t' & Ht' & H'). rewrite Ht1 in Ht'. injection Ht' as <-.
    rewrite <- (HP z t Ht). case_decide; [destruct H' as [-> _]|subst]; done. }
  assert (zones_there s1) as Hz1 by (intros z [t Ht]%Hz; destruct (F1 z t Ht) as (t' & Ht' & _); by exists t').
  destruct (sum_reserves_run P s1) as (tot1 & Et1 & _); [done..|]. eapply runs_ok; [exact Et1|].
  apply runs_bind. unfold setup_per_zone_lowmem_reserve. apply runs_bind.
  eapply runs_mono; [by apply (reserve_zones_runs F O P); [| | | | |intros j Hj%elem_of_seqZ]|]. cbn beta. intros ratio' s2 (N2 & D2 & R2 & Hr2).
  pose proof (reserves_present _ _ _ _ R2 HP1 ltac:(intros z; apply D2)) as HP2. assert (zones_there s2) as Hz2 by (intros z Hzz; apply D2; by apply Hz1).
  destruct (sum_reserves_run P s2) as (tot2 & Et2 & Hb2); [done..|]. apply runs_bind. eapply runs_ok; [exact Et2|]. apply runs_ret.
  apply runs_bind. eapply runs_mono; [apply (ratio_loop_runs F O); [done|done|]|].
  { intros z t Hzz Ht. rewrite (HP2 z t Ht). split; [done|]. pose proof (zone_part P z Hpos Hzz). lia. }
  cbn beta. intros _ s3 (N3 & F3 & D3). apply runs_ret. cbn [fst snd]. split_and!; [done|lia|lia|lia|lia|done|].
  split; [|intros z Hzz; apply D1, D2, D3, Hzz]. intros z t Ht. destruct (F1 z t Ht) as (t1 & Ht1 & H1). destruct (R2 z t1 Ht1) as (m & Ht2 & Hm).
  destruct (F3 z _ Ht2) as (t3 & Ht3 & r & -> & Hr). eexists. split; [exact Ht3|]. intros Hzz. rewrite decide_True in H1 by done. destruct H1 as [Ez Ek].
  split; [|unfold zone_kept in *; by rewrite (kept_blocks_same _ t1)]. exists m, r. split_and!; [|by apply Hr|].
  - intros k Hk1 Hk2. rewrite Hm, decide_True; [done|]. split; [apply elem_of_seqZ; lia|lia].
  - cbn. by rewrite Ez.
Qed.

Lemma final_limits P ratio mf extra vm z t t' : memory_ok P extra vm → 128 <= mf <= 65536 → present_pages (zdata t) = P z → z ∈ all_zones →
  final_data P ratio mf extra vm z (zdata t) (zdata t') → @zone_kept (zone_conf z) pfn_valid t' <= 2 →
  limits_ok P ratio z t' ∧ (is_highmem z = false → min_wmark_pages (zdata t') = mf / 4 * P z / (P ZONE_NORMAL + P ZONE_MOVABLE)).
Proof.
  intros Hmem Hmf HPz Hz (m & r & Hm & Hr & E1) Hk. pose proof (vm_pos _ _ _ Hmem) as Hvm. destruct Hmem as [Hpos Hsum Hlow Hhigh Htot Hex].
  rewrite !Z.shiftr_div_pow2 in E1 by done. change (2 ^ 2) with 4 in E1.
  assert (0 <= mf / 4 <= 16384) as Hq by (split; [apply Z.div_pos; lia|apply Z.div_le_upper_bound; lia]).
  assert (0 <= extra / 4 < 2 ^ 29) as Hx by (split; [apply Z.div_pos; lia|apply Z.div_lt_upper_bound; lia]).
  rewrite (u32_id (mf / 4)), (u32_id (extra / 4)) in E1 by (unfold is_u32; lia). pose proof (Hpos z) as Hpz. specialize (Htot z Hz).
  pose proof (share_bound (mf / 4) (zdata t) _ 1024 ltac:(lia) Hlow ltac:(rewrite HPz; split; [done|by apply Hhigh])) as Hs1.
  pose proof (share_bound (extra / 4) (zdata t) vm 1 ltac:(lia) Hvm ltac:(rewrite HPz; lia)) as Hs2.
  set (lo := share (extra / 4) _ _) in *. assert (share (mf / 4) (zdata t) (P ZONE_NORMAL + P ZONE_MOVABLE) = mf / 4 * P z / (P ZONE_NORMAL + P ZONE_MOVABLE)) as Emi by (unfold share; by rewrite HPz).
  rewrite Emi in *. set (mi := mf / 4 * P z / _) in *. clearbody lo mi.
  assert (Z.shiftr mi 1 = mi / 2) as Eh by (by rewrite Z.shiftr_div_pow2 by done). assert (0 <= mi / 2 <= mi) by (split; [apply Z.div_pos; lia|apply Z.div_le_upper_bound; lia]).
  pose proof (zone_marks_order (is_highmem z) mi lo (zdata t) ltac:(lia) ltac:(lia) ltac:(lia) ltac:(lia)) as Ho.
  assert (is_highmem z = false → (zone_marks (is_highmem z) mi lo (zdata t)).1.1 = mi) as Hmin by (intros ->; cbn; apply u32_id; unfold is_u32; lia).
  assert (watermark (zdata t') = zone_marks (is_highmem z) mi lo (zdata t)) as Ew by (by rewrite E1).
  destruct (zone_marks (is_highmem z) mi lo (zdata t)) as [[wmin wlow] whigh]. cbn in Hmin. unfold min_wmark_pages. rewrite Ew. split; [|exact Hmin].
  assert (0 <= z) as Hz0 by (apply elem_of_seqZ in Hz; lia).
  split; unfold min_wmark_pages, low_wmark_pages, high_wmark_pages; rewrite ?Ew; cbn [fst snd]; [lia|lia|lia| | |by rewrite E1|done].
  - intros k Hk'. rewrite E1. cbn. apply Hm; lia.
  - intros k Hk'. pose proof (reserve_for_bound P ratio z k Hpos ltac:(lia) ltac:(lia)). lia.
Qed.
(** Such limits are what the allocation needs to succeed at once when the check of the marks
    passes. *)
Lemma limits_roomy P ratio z k order t : limits_ok P ratio z t → z <= k < MAX_NR_ZONES → listed_pages t < 2 ^ 31 →
  (∀ o, 0 <= o < MAX_ORDER → chain t (free_list o MIGRATE_ISOLATE) = []) →
  zone_watermark_ok (zdata t) order (low_wmark_pages (zdata t)) k 0 = true → roomy order k t.
Proof.
  intros [H1 H2 H3 H4 H5 _ _] Hk Hl Hi Hok. destruct (H5 k Hk). split; [done|lia|by rewrite H4|rewrite H4 by done; lia|done|done].
Qed.

(** C12. The limits after [init_per_zone_wmark_min].  It returns, without a fault; every page
    keeps its owner and the zones are in order; [min_free_kbytes] is between 128 and 65536;
    of each zone the marks are in order, the zones below the high memory together have no
    more than [min_free_kbytes] as their lowest marks, the reserve against requests for a
    higher zone is the share of the pages of the zones between them, mark and reserve do not
    overflow in the check of the marks, and at most two blocks that can become free are kept
    for the reserve; and [totalreserve_pages] is not more than there is. *)
Theorem limits_are_set F O P s extra_free_kbytes vm_total_pages ratio :
  node_owners F s O → zones_there s → present_are P s → memory_ok P extra_free_kbytes vm_total_pages →
  runs (init_per_zone_wmark_min pfn_valid extra_free_kbytes vm_total_pages ratio) s (λ r s', let '(min_free_kbytes, total, _) := r in
    node_owners F s' O ∧ 128 <= min_free_kbytes <= 65536 ∧ 0 <= total <= pages_between P 0 MAX_NR_ZONES ∧
    (∀ z t, z ∈ all_zones → nzones s' !! z = Some t → limits_ok P ratio z t) ∧
    ∀ t0 t2, nzones s' !! ZONE_NORMAL = Some t0 → nzones s' !! ZONE_MOVABLE = Some t2 →
      min_wmark_pages (zdata t0) + min_wmark_pages (zdata t2) <= min_free_kbytes / 4).
Proof.
  intros N Hz HP Hmem. eapply runs_mono; [by apply (init_wmarks_runs F O P)|]. cbn beta. intros [[mf total] ratio'] s' (N' & Hmf & Ht & _ & F' & _).
  assert (∀ z t', z ∈ all_zones → nzones s' !! z = Some t' → limits_ok P ratio z t' ∧
    (is_highmem z = false → min_wmark_pages (zdata t') = mf / 4 * P z / (P ZONE_NORMAL + P ZONE_MOVABLE))) as Hall.
  { intros z t' Hzz Ht'. destruct (Hz z Hzz) as [t Ht1]. destruct (F' z t Ht1) as (t2 & Ht2 & H2). rewrite Ht' in Ht2. injection Ht2 as <-.
    destruct (H2 Hzz) as [Hd Hk]. by eapply final_limits; [| |apply HP| | |]. }
  split_and!; [done|lia|lia|lia|lia|intros z t Hzz Hzt; by apply Hall|]. intros t0 t2 E0 E2.
  rewrite (proj2 (Hall ZONE_NORMAL t0 ltac:(by apply elem_of_seqZ) E0) eq_refl), (proj2 (Hall ZONE_MOVABLE t2 ltac:(by apply elem_of_seqZ) E2) eq_refl).
  pose proof (mo_low _ _ _ Hmem) as Hlow. set (p0 := P ZONE_NORMAL) in *. set (p2 := P ZONE_MOVABLE) in *. set (q := mf / 4).
  pose proof (Z.mul_div_le (q * p0) (p0 + p2) Hlow). pose proof (Z.mul_div_le (q * p2) (p0 + p2) Hlow). nia.
Qed.
End node.

(** ** A node whose memory is one block *)

Section demo.
#[local] Existing Instance demo_env.
#[local] Existing Instance demo_env_laws.

Definition boot_node : node := Node {[ 0 := demo_zone; 1 := empty_zone; 2 := empty_zone ]} ∅.
Definition boot_pages (z : Z) : Z → Prop := @available (zone_conf z) (default empty_zone (nzones boot_node !! z)).
Definition boot_present (z : Z) : Z := if z =? 0 then 1024 else 0.

Lemma boot_node_zone z t : nzones boot_node !! z = Some t → z = 0 ∧ t = demo_zone ∨ z ≠ 0 ∧ t = empty_zone.
Proof.
  cbn [nzones boot_node]. intros Hz. apply lookup_insert_Some in Hz as [[<- <-]|[Hne Hz]]; [by left|right]. split; [done|].
  by apply lookup_insert_Some in Hz as [[<- <-]|[_ [<- <-]%lookup_singleton_Some]].
Qed.

Lemma boot_node_owners : node_owners boot_pages boot_node (λ _, ∅).
Proof.
  split.
  - intros z ->%list_elem_of_singleton. exists demo_zone. reflexivity.
  - exists empty_zone. reflexivity.
  - intros z t Hz. unfold boot_pages. rewrite Hz. cbn [default]. apply owners_start.
    destruct (boot_node_zone z t Hz) as [[-> ->]|[Hne ->]]; [exact demo_sound|]. cbn. rewrite (proj2 (Z.eqb_neq z 0) Hne). exact empty_zone_sound.
Qed.

Lemma boot_memory : memory_ok boot_present 0 1024.
Proof.
  assert (∀ z, 0 <= boot_present z <= 1024) as Hb by (intros z; unfold boot_present; destruct (z =? 0); lia).
  split; [intros z; apply Hb|vm_compute; reflexivity|vm_compute; reflexivity| |intros z _; apply Hb|lia].
  intros z _. change (boot_present ZONE_NORMAL + boot_present ZONE_MOVABLE) with 1024. specialize (Hb z). lia.
Qed.

Lemma boot_small z : z ∈ all_zones → @zone_small (zone_conf z).
Proof.
  intros _. destruct (Z.eqb_spec z 0) as [->|Hne]; [split_and!; by vm_compute|].
  assert (zone_conf z = empty_allocator) as -> by (cbn; by rewrite (proj2 (Z.eqb_neq z 0) Hne)). split_and!; by vm_compute.
Qed.

Lemma limits_are_set_witness : ∃ r s, init_per_zone_wmark_min (λ _, true) 0 1024 ∅ boot_node = Ok (r, s) ∧ node_owners boot_pages s (λ _, ∅) ∧
  ∀ z t, z ∈ all_zones → nzones s !! z = Some t → limits_ok (λ _, true) boot_present ∅ z t.
Proof.
  assert (∀ z, z ∈ all_zones → ∃ t, nzones boot_node !! z = Some t) as Hz.
  { intros z Hin. change all_zones with [0; 1; 2] in Hin. repeat (apply elem_of_cons in Hin as [->|Hin]; [eexists; reflexivity|]). by apply elem_of_nil in Hin. }
  destruct (limits_are_set (λ _, true) boot_small
    boot_pages (λ _, ∅) boot_present boot_node 0 1024 ∅) as ([[mf total] ratio] & s & E & H1 & _ & _ & H2 & _).
  - exact boot_node_owners.
  - intros z Hin. destruct (Hz z Hin) as [t Ht]. exists t. exact Ht.
  - intros z t Ht. destruct (boot_node_zone z t Ht) as [[-> ->]|[Hne ->]]; [reflexivity|]. unfold boot_present. rewrite (proj2 (Z.eqb_neq z 0) Hne). reflexivity.
  - exact boot_memory.
  - exists (mf, total, ratio), s. split; [exact E|]. split; [exact H1|exact H2].
Defined.
End demo.
