(* ===== verification/VmscanKswapd.v ===== *)
(** * Page reclaim: the daemon [kswapd]

    Models [balance_pgdat], [sleeping_prematurely], [kswapd_try_to_sleep], one turn of the
    loop of [kswapd] and [wakeup_kswapd] of [mm/vmscan.c], without compaction.

    Sleeping, freezing and stopping are operations of the class [Daemon]. *)

From S2P Require Import Prelude Lru Rmap Vmscan VmscanZone Watermark.

Definition GFP_KERNEL : Z := 0xd0.
Definition ULONG_MAX : Z := 2 ^ 32 - 1.
Definition HZ : Z := 100.
Definition KSWAPD_ZONE_BALANCE_GAP_RATIO : Z := 100.

Class Daemon := {
  try_to_freeze : M lst bool;
  freezing : M lst bool;
  kthread_should_stop : M lst bool;
  schedule : M lst ();
  schedule_timeout : Z → M lst Z;
}.

(** [ZONE_MOVABLE] is not part of high memory in this configuration. *)
Definition is_highmem_idx (i : Z) : bool := i =? ZONE_HIGHMEM.

Definition set_order (o : Z) (sc : scan_control) : scan_control :=
  ScanControl (nr_scanned sc) (nr_reclaimed sc) (nr_to_reclaim sc) (hibernation_mode sc) (gfp_mask sc)
    (may_writepage sc) (may_unmap sc) (may_swap sc) o (reclaim_mode sc).

(** The variables of [balance_pgdat]. *)
Record pass := Pass {
  end_zone : Z;
  p_sc : scan_control;
  total_scanned : Z;
  all_zones_ok : bool;
  balanced : Z;
  has_under_min_watermark_zone : bool;
}.

Definition set_p_sc (sc : scan_control) (p : pass) : pass :=
  Pass (end_zone p) sc (total_scanned p) (all_zones_ok p) (balanced p) (has_under_min_watermark_zone p).
Definition set_end_zone (e : Z) (p : pass) : pass :=
  Pass e (p_sc p) (total_scanned p) (all_zones_ok p) (balanced p) (has_under_min_watermark_zone p).

Section kswapd.
Context `{Reclaim, Balance, Daemon}.

(** ** Is the node balanced? *)

Fixpoint sum_present_pages (zs : list Z) (present_pages : Z) : M lst Z :=
  match zs with
  | [] => mret present_pages
  | z :: zs =>
      zd ← zone_at z;
      sum_present_pages zs (u32 (present_pages + Lru.present_pages zd))
  end.

Definition pgdat_balanced (balanced_pages classzone_idx : Z) : M lst bool :=
  present_pages ← sum_present_pages (seqZ 0 (classzone_idx + 1)) 0;
  mret (Z.shiftr present_pages 2 <=? balanced_pages).

Fixpoint check_watermarks (zs : list Z) (order : Z) (all_zones_ok : bool) (balanced : Z) : M lst (bool * Z) :=
  match zs with
  | [] => mret (all_zones_ok, balanced)
  | z :: zs =>
      zd ← zone_at z;
      if negb (populated_zone zd) then check_watermarks zs order all_zones_ok balanced
      else if all_unreclaimable zd then check_watermarks zs order all_zones_ok (u32 (balanced + present_pages zd))
      else if negb (zone_watermark_ok_safe zd order (high_wmark_pages zd) z 0) then check_watermarks zs order false balanced
      else check_watermarks zs order all_zones_ok (u32 (balanced + present_pages zd))
  end.

Definition sleeping_prematurely (order remaining classzone_idx : Z) : M lst bool :=
  if negb (remaining =? 0) then mret true
  else
    r ← check_watermarks (seqZ 0 (classzone_idx + 1)) order true 0;
    if negb (order =? 0) then
      b ← pgdat_balanced r.2 classzone_idx;
      mret (negb b)
    else mret (negb r.1).

(** ** [balance_pgdat] *)

(** The highest of the [n] lowest zones that needs scanning. *)
Fixpoint find_end_zone (n : nat) (order priority : Z) (sc : scan_control) : M lst (option Z * scan_control) :=
  match n with
  | O => mret (None, sc)
  | S n =>
      let i := Z.of_nat n in
      zd ← zone_at i;
      if negb (populated_zone zd) then find_end_zone n order priority sc
      else if all_unreclaimable zd && negb (priority =? DEF_PRIORITY) then find_end_zone n order priority sc
      else
        sc ← age_active_anon i sc;
        if buffer_heads_over_limit && is_highmem_idx i then mret (Some i, sc)
        else
          zd ← zone_at i;
          if negb (zone_watermark_ok_safe zd order (high_wmark_pages zd) 0 0) then mret (Some i, sc)
          else
            upd_zone i (set_congested false);;
            find_end_zone n order priority sc
  end.

(** The zone is shrunk, and the caches with it. *)
Definition shrink_zone_and_slab (waits : nat) (priority i lru_pages : Z) (p : pass) : M lst pass :=
  sc ← shrink_zone waits priority i (p_sc p);
  sl ← gets slab;
  of_option (BadAddr 0) (reclaimed_slab sl);;
  modify (set_slab (SlabState (nr_in_batch sl) (Some 0)));;
  nr_slab ← shrink_slab GFP_KERNEL (nr_scanned sc) lru_pages;
  sl ← gets slab;
  n ← of_option (BadAddr 0) (reclaimed_slab sl);
  let sc := add_reclaimed n sc in
  zd ← zone_at i;
  swap ← gets nr_swap_pages;
  when ((nr_slab =? 0) && negb (zone_reclaimable zd swap)) (upd_zone i (set_all_unreclaimable true));;
  mret (Pass (end_zone p) sc (u32 (total_scanned p + nr_scanned sc)) (all_zones_ok p) (balanced p) (has_under_min_watermark_zone p)).

(** After much scanning that reclaimed little, pages are written. *)
Definition start_writing (p : pass) : pass :=
  let reclaimed := nr_reclaimed (p_sc p) in
  if (SWAP_CLUSTER_MAX * 2 <? total_scanned p) && (u32 (reclaimed + reclaimed / 2) <? total_scanned p)
  then set_p_sc (set_may_writepage (p_sc p)) p else p.

(** One zone of the second loop. *)
Definition balance_zone (waits : nat) (order priority classzone i lru_pages : Z) (p : pass) : M lst pass :=
  zd ← zone_at i;
  if negb (populated_zone zd) then mret p
  else if all_unreclaimable zd && negb (priority =? DEF_PRIORITY) then mret p
  else
    let p := set_p_sc (set_nr_scanned 0 (p_sc p)) p in
    let balance_gap := Z.min (low_wmark_pages zd)
      (u32 (present_pages zd + KSWAPD_ZONE_BALANCE_GAP_RATIO - 1) / KSWAPD_ZONE_BALANCE_GAP_RATIO) in
    p ← (if (buffer_heads_over_limit && is_highmem_idx i) ||
            negb (zone_watermark_ok_safe zd order (u32 (high_wmark_pages zd + balance_gap)) (end_zone p) 0)
         then shrink_zone_and_slab waits priority i lru_pages p
         else mret p);
    let p := start_writing p in
    zd ← zone_at i;
    if all_unreclaimable zd then
      mret (if negb (end_zone p =? 0) && (end_zone p =? i) then set_end_zone (end_zone p - 1) p else p)
    else if negb (zone_watermark_ok_safe zd order (high_wmark_pages zd) (end_zone p) 0) then
      mret (Pass (end_zone p) (p_sc p) (total_scanned p) false (balanced p)
        (has_under_min_watermark_zone p || negb (zone_watermark_ok_safe zd order (min_wmark_pages zd) (end_zone p) 0)))
    else
      upd_zone i (set_congested false);;
      mret (Pass (end_zone p) (p_sc p) (total_scanned p) (all_zones_ok p)
        (if i <=? classzone then u32 (balanced p + present_pages zd) else balanced p) (has_under_min_watermark_zone p)).

(** The second loop, from zone [i] up to [end_zone], which may decrease; [n] bounds the
    iterations. *)
Fixpoint balance_zones (n waits : nat) (order priority classzone i lru_pages : Z) (p : pass) : M lst pass :=
  if end_zone p <? i then mret p
  else
    match n with
    | O => fail NoFuel
    | S n =>
        p ← balance_zone waits order priority classzone i lru_pages p;
        balance_zones n waits order priority classzone (i + 1) lru_pages p
    end.

(** [all_zones_ok || (order && pgdat_balanced(...))]. *)
Definition node_balanced (order classzone : Z) (p : pass) : M lst bool :=
  if all_zones_ok p then mret true
  else if order =? 0 then mret false
  else pgdat_balanced (balanced p) classzone.

(** The loop over priorities from [n - 1] down to 0, with the priority it ends at. *)
Fixpoint balance_prios (n waits : nat) (order classzone : Z) (p : pass) : M lst (Z * pass) :=
  match n with
  | O => mret (-1, p)
  | S n =>
      let priority := Z.of_nat n in
      when (priority =? 0) disable_swap_token;;
      d ← gets pgdat;
      r ← find_end_zone (Z.to_nat (nr_zones d)) order priority (p_sc p);
      let p := Pass (end_zone p) r.2 (total_scanned p) true 0 false in
      match r.1 with
      | None => mret (priority, p)
      | Some e =>
          lru_pages ← count_lru_pages (seqZ 0 (e + 1)) 0;
          p ← balance_zones (Z.to_nat (e + 1)) waits order priority classzone 0 lru_pages (set_end_zone e p);
          done ← node_balanced order classzone p;
          if (done : bool) then mret (priority, p)
          else
            when (negb (total_scanned p =? 0) && (priority <? DEF_PRIORITY - 2))
              (if has_under_min_watermark_zone p then count_vm_event "KSWAPD_SKIP_CONGESTION_WAIT" else congestion_wait);;
            if SWAP_CLUSTER_MAX <=? nr_reclaimed (p_sc p) then mret (priority, p)
            else balance_prios n waits order classzone p
      end
  end.

(** The zones are confirmed to be balanced for single pages; compaction does nothing. *)
Fixpoint confirm_zones (zs : list Z) (priority : Z) : M lst bool :=
  match zs with
  | [] => mret true
  | i :: zs =>
      zd ← zone_at i;
      if negb (populated_zone zd) then confirm_zones zs priority
      else if all_unreclaimable zd && negb (priority =? DEF_PRIORITY) then confirm_zones zs priority
      else if negb (zone_watermark_ok zd 0 (high_wmark_pages zd) 0 0) then mret false
      else
        upd_zone i (set_congested false);;
        confirm_zones zs priority
  end.

(** One pass, from the label [loop_again]: the order and the zone it ends with, or the
    variables with which it jumps to the label. *)
Definition balance_pass (waits : nat) (order classzone e : Z) (sc : scan_control) : M lst (Z * Z + Z * Z * scan_control) :=
  let sc := ScanControl (nr_scanned sc) 0 (nr_to_reclaim sc) (hibernation_mode sc) (gfp_mask sc)
    (negb laptop_mode) (may_unmap sc) (may_swap sc) (Vmscan.order sc) (reclaim_mode sc) in
  count_vm_event "PAGEOUTRUN";;
  r ← balance_prios (Z.to_nat (DEF_PRIORITY + 1)) waits order classzone (Pass e sc 0 true 0 false);
  let '(priority, p) := r in
  done ← node_balanced order classzone p;
  if negb (done : bool) then
    try_to_freeze;;
    if nr_reclaimed (p_sc p) <? SWAP_CLUSTER_MAX then mret (inr (0, end_zone p, set_order 0 (p_sc p)))
    else mret (inr (order, end_zone p, p_sc p))
  else if order =? 0 then mret (inl (order, end_zone p))
  else
    ok ← confirm_zones (seqZ 0 (end_zone p + 1)) priority;
    if negb (ok : bool) then mret (inr (0, end_zone p, set_order 0 (p_sc p)))
    else mret (inl (order, end_zone p)).

(** [None] when the node is still not balanced after [restarts] jumps to the label. *)
Fixpoint balance_again (restarts waits : nat) (order classzone e : Z) (sc : scan_control) : M lst (option (Z * Z)) :=
  r ← balance_pass waits order classzone e sc;
  match r, restarts with
  | inl r, _ => mret (Some r)
  | inr _, O => mret None
  | inr (order, e, sc), S restarts => balance_again restarts waits order classzone e sc
  end.

Definition balance_pgdat (restarts waits : nat) (order classzone : Z) : M lst (option (Z * Z)) :=
  balance_again restarts waits order classzone 0 (ScanControl 0 0 ULONG_MAX false GFP_KERNEL false true true order 0).

(** ** The daemon *)

Definition upd_pgdat (f : pg_data → pg_data) : M lst () := modify (λ s, set_pgdat (f (pgdat s)) s).

Definition set_waits (b : bool) (d : pg_data) : pg_data := PgData (nr_zones d) (kswapd_max_order d) (classzone_idx d) b.
Definition set_request (order classzone : Z) (d : pg_data) : pg_data := PgData (nr_zones d) order classzone (kswapd_waits d).

Definition kswapd_try_to_sleep (order classzone : Z) : M lst () :=
  f ← freezing;
  stop ← (if (f : bool) then mret true else kthread_should_stop);
  if (stop : bool) then mret ()
  else
    upd_pgdat (set_waits true);;
    early ← sleeping_prematurely order 0 classzone;
    remaining ← (if negb (early : bool) then
                   remaining ← schedule_timeout (HZ / 10);
                   upd_pgdat (set_waits false);;
                   upd_pgdat (set_waits true);;
                   mret remaining
                 else mret 0);
    early ← sleeping_prematurely order remaining classzone;
    (if negb (early : bool) then
       stop ← kthread_should_stop;
       when (negb stop) schedule
     else if negb (remaining =? 0) then count_vm_event "KSWAPD_LOW_WMARK_HIT_QUICKLY"
     else count_vm_event "KSWAPD_HIGH_WMARK_HIT_QUICKLY");;
    upd_pgdat (set_waits false).

(** The variables of [kswapd]. *)
Record daemon := DaemonVars {
  k_order : Z;
  new_order : Z;
  balanced_order : Z;
  k_classzone_idx : Z;
  new_classzone_idx : Z;
  balanced_classzone_idx : Z;
}.

(** What a turn of the loop ends in: the daemon stops, is still balancing, or goes on. *)
Inductive turn :=
  | Stopped
  | Balancing
  | Turned (k : daemon).

(** One turn of the loop. *)
Definition kswapd_turn (restarts waits : nat) (k : daemon) : M lst turn :=
  d ← gets pgdat;
  k ← (if (new_classzone_idx k <=? balanced_classzone_idx k) && (balanced_order k =? new_order k) then
         upd_pgdat (set_request 0 (nr_zones d - 1));;
         mret (DaemonVars (k_order k) (kswapd_max_order d) (balanced_order k) (k_classzone_idx k) (classzone_idx d) (balanced_classzone_idx k))
       else mret k);
  k ← (if (k_order k <? new_order k) || (new_classzone_idx k <? k_classzone_idx k) then
         mret (DaemonVars (new_order k) (new_order k) (balanced_order k) (new_classzone_idx k) (new_classzone_idx k) (balanced_classzone_idx k))
       else
         kswapd_try_to_sleep (balanced_order k) (balanced_classzone_idx k);;
         d ← gets pgdat;
         upd_pgdat (set_request 0 (nr_zones d - 1));;
         mret (DaemonVars (kswapd_max_order d) (kswapd_max_order d) (balanced_order k) (classzone_idx d) (classzone_idx d) (balanced_classzone_idx k)));
  ret ← try_to_freeze;
  stop ← kthread_should_stop;
  if (stop : bool) then mret Stopped
  else if (ret : bool) then mret (Turned k)
  else
    r ← balance_pgdat restarts waits (k_order k) (k_classzone_idx k);
    match r with
    | None => mret Balancing
    | Some (o, z) => mret (Turned (DaemonVars (k_order k) (new_order k) o (k_classzone_idx k) (new_classzone_idx k) z))
    end.

(** The variables at the start of [kswapd]. *)
Definition kswapd_start (d : pg_data) : daemon := DaemonVars 0 0 0 (nr_zones d - 1) (nr_zones d - 1) (nr_zones d - 1).

(** A wake-up removes the daemon from its wait queue. *)
Definition wakeup_kswapd (z order classzone : Z) : M lst () :=
  zd ← zone_at z;
  if negb (populated_zone zd) then mret ()
  else
    d ← gets pgdat;
    when (kswapd_max_order d <? order) (upd_pgdat (set_request order (Z.min (classzone_idx d) classzone)));;
    d ← gets pgdat;
    if negb (kswapd_waits d) then mret ()
    else if zone_watermark_ok_safe zd order (low_wmark_pages zd) 0 0 then mret ()
    else upd_pgdat (set_waits false).
End kswapd.
