(* ===== verification/VmscanInv.v ===== *)
(** * Steps of a scan

    While a zone is scanned pages are on local lists, the counters of the zone lag behind
    and one page may be in hand.  This file gives the primitive operations and the
    functions of [swap.c] as steps of that state, and the state of a page that was taken
    off its list. *)

From S2P Require Import Prelude Hoare Lru LruInv LruOps LruApi Rmap Vmscan.

(** A page of the swap cache is not a page of a file too. *)
Definition swap_ok (pg : page) : Prop := PageSwapCache pg = true → ∀ m, mapping pg ≠ FileMap m.

(** Every file that a page belongs to exists. *)
Definition cached_in (s : lst) (pg : page) : Prop :=
  swap_ok pg ∧ ∀ m, page_mapping pg = Some m → is_Some (spaces s !! m).

Definition spaces_ok (s : lst) : Prop :=
  is_Some (spaces s !! swapper_space) ∧ ∀ p pg, pages s !! p = Some pg → cached_in s pg.

Lemma shape_cached s s' pg pg' : spaces s' = spaces s → shape pg' = shape pg → cached_in s pg → cached_in s' pg'.
Proof.
  intros Es Hs [A B]. split.
  - unfold swap_ok in *. unfold shape in Hs. by injection Hs as _ _ _ -> -> _.
  - intros m. rewrite (shape_mapping _ _ Hs), Es. apply B.
Qed.

(** The cache that a page is in, and each entry that maps it, hold a reference. *)
Definition cref (pg : page) : Z :=
  match page_mapping pg with Some _ => 1 | None => 0 end + Z.max 0 (page_mapcount pg).

Lemma cref_nonneg pg : 0 <= cref pg.
Proof. unfold cref. case_match; lia. Qed.

Definition cache_ref (s : lst) (p : Z) : Z := match pages s !! p with Some pg => cref pg | None => 0 end.

(** The references of caches and mappings, and [x p] others. *)
Definition xrefs (x : Z → Z) (s : lst) (p : Z) : Z := cache_ref s p + x p.

Notation vrefs x s := (refs (xrefs x s) s).

(** The zone has pages, and so it is there. *)
Definition populated (zn : Z) (s : lst) : Prop := ∃ p pg, pages s !! p = Some pg ∧ page_zone pg = zn.

(** The lists the flags of a page select while it is on a local list of
    [shrink_active_list], for file pages ([f] is 1) or anonymous pages ([f] is 0). *)
Definition list_wants (f : Z) (h : head) (l : Z) : Prop :=
  (h = l_hold ∨ h = l_active → l = LRU_ACTIVE + f * LRU_FILE) ∧ (h = l_inactive → l = LRU_BASE + f * LRU_FILE).

(** The state while zone [zn] is scanned. *)
Record vm (zn f : Z) (hd : option hand) (off : Z → Z → Z) (x : Z → Z) (lv : head → list Z) (lk : option Z)
    (s : lst) : Prop := Vm {
  vm_gen : lru_gen hd off (xrefs x s) lv lk s;
  vm_spaces : spaces_ok s;
  vm_populated : populated zn s;
  vm_held h p pg : h.1 = -1 → p ∈ lv h → (∀ y, hd = Some y → h_page y ≠ p) → pages s !! p = Some pg →
    page_zone pg = zn ∧ list_wants f h (page_lru pg);
}.

Notation vm_inv V := (li_inv _ _ _ _ _ _ (vm_gen _ _ _ _ _ _ _ _ V)).
Notation vm_local V := (li_local _ _ _ _ _ _ (vm_gen _ _ _ _ _ _ _ _ V)).

Definition lv_set (h : head) (l : list Z) (lv : head → list Z) : head → list Z :=
  λ h', if decide (h = h') then l else lv h'.

Lemma lv_set_eq h l lv : lv_set h l lv h = l.
Proof. unfold lv_set. by destruct (decide (h = h)). Qed.

Lemma lv_set_ne h h' l lv : h ≠ h' → lv_set h l lv h' = lv h'.
Proof. intros. unfold lv_set. by destruct (decide (h = h')). Qed.

Lemma shape_cref pg pg' : shape pg' = shape pg → cref pg' = cref pg.
Proof.
  intros Hs. unfold cref, page_mapcount. rewrite (shape_mapping _ _ Hs). unfold shape in Hs. by injection Hs as _ _ _ _ _ ->.
Qed.

Lemma lru_gen_step hd hd' off off' ex ex' lv lv' lk lk' s s' :
  lru_gen hd off ex lv lk s → inv hd' off' (refs ex' s) (pend_of s) lk' s' → pvecs s' = pvecs s →
  (∀ q pg, pages s !! q = Some pg → ∃ pg', pages s' !! q = Some pg' ∧ PageCompound pg' = PageCompound pg) →
  (∀ h, h.1 < 0 → list_at s' h = lv' h) → lru_gen hd' off' ex' lv' lk' s'.
Proof.
  intros [A B C D] H E K Hl.
  assert (∀ i, pvec_at s' i = pvec_at s i) as Hpv by (intros; unfold pvec_at; by rewrite E). split.
  - assert (pend_of s' = pend_of s) as -> by (unfold pend_of; cbn [map]; by rewrite !Hpv).
    apply (inv_ext _ off' off' (refs ex' s)); [done|intros q; unfold refs; cbn [map]; by rewrite !Hpv|done].
  - intros i. rewrite Hpv. apply B.
  - intros i q Hi. rewrite Hpv. intros Hq. destruct (C i q Hi Hq) as (pg & Hp & Hc).
    destruct (K q pg Hp) as (pg' & ? & ?). exists pg'. split; congruence.
  - done.
Qed.

Lemma lru_gen_ext hd off ex ex' lv lk s : lru_gen hd off ex lv lk s → (∀ p, ex p = ex' p) → lru_gen hd off ex' lv lk s.
Proof.
  intros L He. eapply lru_gen_step; [exact L| |done|by eauto|by apply L]. eapply inv_ext; [done| |apply L].
  intros p. unfold refs. by rewrite He.
Qed.

Lemma xrefs_same x s s' : pages s' = pages s → xrefs x s' = xrefs x s.
Proof. intros E. unfold xrefs, cache_ref. by rewrite E. Qed.

Lemma vrefs_at x s p pg : pages s !! p = Some pg → vrefs x s p = refs x s p + cref pg.
Proof. intros Hp. unfold refs, xrefs, cache_ref. rewrite Hp. lia. Qed.

(** A step that changes no page. *)
Lemma vm_step zn f hd hd' off off' x x' lv lv' lk lk' s s' :
  vm zn f hd off x lv lk s → inv hd' off' (vrefs x' s) (pend_of s) lk' s' →
  pvecs s' = pvecs s → pages s' = pages s → spaces s' = spaces s → (∀ h, h.1 < 0 → list_at s' h = lv' h) →
  (∀ h p pg, h.1 = -1 → p ∈ lv' h → (∀ y, hd' = Some y → h_page y ≠ p) → pages s !! p = Some pg →
     (p ∈ lv h ∧ ∀ y, hd = Some y → h_page y ≠ p) ∨ (page_zone pg = zn ∧ list_wants f h (page_lru pg))) →
  vm zn f hd' off' x' lv' lk' s'.
Proof.
  intros [G S P W] H E Ep Es Hl Hh. split.
  - rewrite (xrefs_same _ _ _ Ep). eapply lru_gen_step; [exact G|done|done| |done]. rewrite Ep. eauto.
  - unfold spaces_ok, cached_in. by rewrite Ep, Es.
  - unfold populated. by rewrite Ep.
  - intros h p pg Hh1 Hp Hx. rewrite Ep. intros Hpg. destruct (Hh h p pg Hh1 Hp Hx Hpg) as [[Hin Hx']|?]; [|done].
    by apply (W h p).
Qed.

Lemma vm_ext zn f hd off off' x x' lv lv' lk s :
  vm zn f hd off x lv lk s → (∀ z l, 0 <= z → counted l → off z l = off' z l) → (∀ p, x p = x' p) →
  (∀ h, h.1 < 0 → lv h = lv' h) → vm zn f hd off' x' lv' lk s.
Proof.
  intros V Ho He Hl. eapply vm_step; [exact V| |done|done|done| |].
  - eapply inv_ext; [exact Ho| |exact (vm_inv V)]. intros p. unfold refs, xrefs. by rewrite He.
  - intros h Hh. rewrite <- Hl by done. by apply (vm_local V).
  - intros h p pg Hh Hp Hx _. left. split; [|done]. rewrite Hl by lia. done.
Qed.

Lemma kept_back s s' q pg' : kept s s' → pages s' !! q = Some pg' → ∃ pg, pages s !! q = Some pg ∧ shape pg' = shape pg.
Proof.
  intros K Hq. pose proof (kept_shape _ _ K q) as E. rewrite Hq in E. destruct (pages s !! q) as [pg|]; [|done].
  exists pg. split; [done|]. simpl in E. injection E as. unfold shape. congruence.
Qed.

Lemma kept_xrefs x s s' p : kept s s' → xrefs x s p = xrefs x s' p.
Proof.
  intros K. unfold xrefs, cache_ref. f_equal. destruct (pages s' !! p) as [pg'|] eqn:Hp'.
  - destruct (kept_back _ _ _ _ K Hp') as (pg & -> & Hs). by apply shape_cref.
  - destruct (pages s !! p) as [pg|] eqn:Hp; [|done]. destruct (kept_page _ _ _ _ K Hp) as (? & ? & _). congruence.
Qed.

(** A function of [swap.c] is a step of the scan. *)
Lemma vm_kept zn f off off' x lv s s' :
  vm zn f None off x lv None s → lru_gen None off' (xrefs x s) lv None s' → kept s s' → vm zn f None off' x lv None s'.
Proof.
  intros V G K. pose proof (vm_local V) as Hloc. destruct V as [G0 [S1 S2] (p0 & pg0 & P1 & P2) W].
  assert (spaces s' = spaces s) as Es by (pose proof (kept_shape _ _ K 0); congruence).
  split.
  - eapply lru_gen_ext; [exact G|]. intros p. by apply kept_xrefs.
  - split; [by rewrite Es|]. intros q pg' Hq. destruct (kept_back _ _ _ _ K Hq) as (pg & Hpg & Hs).
    by eapply shape_cached, S2.
  - destruct (kept_page _ _ _ _ K P1) as (pg' & ? & Hs). exists p0, pg'. unfold shape in Hs. split; congruence.
  - intros h q pg' Hh Hq _ Hpg'. destruct (kept_back _ _ _ _ K Hpg') as (pg & Hpg & Hs).
    assert (flags pg' = flags pg) as Hf.
    { pose proof (kept_flags _ _ K h q ltac:(lia)) as E. rewrite Hloc, Hpg, Hpg' in E by lia. simpl in E.
      specialize (E Hq). congruence. }
    destruct (W h q pg Hh Hq ltac:(done) Hpg) as [Hz Hw].
    assert (page_lru pg' = page_lru pg) as -> by (page_unfold; by rewrite Hf).
    unfold shape in Hs. split; [congruence|done].
Qed.

(** The references to the page in hand are counted anew. *)
Lemma inv_hand_ref p pg k k' loc off ref ref' pend lk s :
  inv (Some (Hand p pg k loc)) off ref pend lk s → (∀ q, q ≠ p → ref' q = ref q) →
  0 <= ref' p <= _count pg → ref' p + k' <= _count pg → inv (Some (Hand p pg k' loc)) off ref' pend lk s.
Proof.
  intros [H1 H2 H3 H4 H5 H6 H7 H8 H9 H10 H11 H12 H13] Hne Hr Hk.
  destruct (H13 _ eq_refl) as (Hp & _ & Hloc). simpl in *. split; try done.
  - intros h q Hq Hx. assert (q ≠ p) by (intros ->; by apply (Hx _ eq_refl)). destruct (H3 h q Hq) as (pgq & ? & Hon).
    { intros y ?; by simplify_eq/=. }
    exists pgq. unfold on_list in *. by rewrite Hne.
  - intros q pgq Hq Hx. apply (H4 q pgq Hq). intros y ?; simplify_eq/=. exact (Hx _ eq_refl).
  - intros q pgq Hq. destruct (decide (q = p)) as [->|]; [by simplify_eq|]. rewrite Hne by done. by apply H8.
  - intros q l Hq. destruct (H9 q l Hq) as (Hx & ?). assert (q ≠ p) by (intros ->; by apply (Hx _ eq_refl)).
    rewrite Hne by done. split; [|done]. intros y ?; by simplify_eq/=.
  - intros q Hq. destruct (H11 q Hq) as (Hx & ?). split; [|done]. intros y ?; simplify_eq/=. exact (Hx _ eq_refl).
  - intros y ?; simplify_eq/=. done.
Qed.

(** The page in hand is changed, and the references to it are counted anew. *)
Lemma inv_pset_ref p pg k k' loc off ref ref' pend lk s pg' :
  inv (Some (Hand p pg k loc)) off ref pend lk s → (∀ q, q ≠ p → ref' q = ref q) → page_zone pg' = page_zone pg →
  0 <= ref' p <= _count pg' → ref' p + k' <= _count pg' →
  inv (Some (Hand p pg' k' loc)) off ref' pend lk (pset p pg' s).
Proof.
  intros [H1 H2 H3 H4 H5 H6 H7 H8 H9 H10 H11 H12 H13] Hne Hz Hr Hk.
  assert (∀ q, q ≠ p → pages (pset p pg' s) !! q = pages s !! q) as Hq by (intros; simpl; by rewrite lookup_insert_ne).
  assert (pages (pset p pg' s) !! p = Some pg') as Heq by (simpl; by rewrite lookup_insert_eq).
  destruct (H13 _ eq_refl) as (Hp & _ & Hloc). simpl in Hp, Hloc.
  apply (inv_hand_ref p pg' 0 k' loc off (λ q, if decide (q = p) then 0 else ref q)); [|intros; rewrite Hne by done; by case_decide|done|done].
  eapply (inv_pset off (λ q, if decide (q = p) then 0 else ref q) pend lk s p pg 0); [|done|case_decide; [lia|done]|case_decide; [lia|done]].
  eapply (inv_hand_ref p pg k); [by split|intros; by case_decide| |]; pose proof (H8 _ _ Hp); case_decide; lia || done.
Qed.

Section steps.
Context (zn f : Z) (off : Z → Z → Z) (x : Z → Z) (lv : head → list Z) (lk : option Z) (s : lst).
Notation hold p pg k loc := (vm zn f (Some (Hand p pg k loc)) off x lv lk s).

Lemma v_page p pg k loc (Q : page → lst → Prop) : hold p pg k loc → Q pg s → runs (page_at p) s Q.
Proof. intros V. eapply r_page, (vm_inv V). Qed.

Lemma vm_at p pg k loc : hold p pg k loc → pages s !! p = Some pg.
Proof. intros V. by eapply hand_at, (vm_inv V). Qed.

Lemma vm_zone hd : vm zn f hd off x lv lk s → is_Some (zones s !! zn) ∧ 0 <= zn.
Proof. intros V. destruct (vm_populated _ _ _ _ _ _ _ _ V) as (p & pg & Hp & <-). by eapply (inv_zone _ _ _ _ _ _ (vm_inv V)). Qed.

(** A change of the page in hand. *)
Lemma v_set p pg k loc pg' k' :
  hold p pg k loc → page_zone pg' = page_zone pg → PageCompound pg' = PageCompound pg → cached_in s pg' →
  0 <= refs x s p + cref pg' <= _count pg' → refs x s p + cref pg' + k' <= _count pg' →
  vm zn f (Some (Hand p pg' k' loc)) off x lv lk (pset p pg' s).
Proof.
  intros V Hz Hc Hm Hr Hk. pose proof (vm_at _ _ _ _ V) as Hp.
  assert (∀ q, q ≠ p → pages (pset p pg' s) !! q = pages s !! q) as Hne by (intros; simpl; by rewrite lookup_insert_ne).
  assert (pages (pset p pg' s) !! p = Some pg') as Heq by (simpl; by rewrite lookup_insert_eq).
  assert (refs (xrefs x (pset p pg' s)) s p = refs x s p + cref pg') as Hrp
    by (unfold refs, xrefs, cache_ref; rewrite Heq; lia).
  split.
  - eapply lru_gen_step; [apply V| |done| |by apply (vm_local V)].
    + eapply inv_pset_ref; [exact (vm_inv V)| |done|lia|lia].
      intros q Hq. unfold refs, xrefs, cache_ref. by rewrite Hne.
    + intros q pgq Hq. destruct (decide (q = p)) as [->|]; [|rewrite Hne by done; by eauto]. simplify_eq. eauto.
  - destruct (vm_spaces _ _ _ _ _ _ _ _ V) as [S1 S2]. split; [done|]. intros q pgq.
    destruct (decide (q = p)) as [->|]; [rewrite Heq; intros; simplify_eq; by apply Hm|]. rewrite Hne by done. apply S2.
  - destruct (vm_populated _ _ _ _ _ _ _ _ V) as (q & pgq & Hq & Hzq). destruct (decide (q = p)) as [->|].
    + exists p, pg'. split; congruence.
    + exists q, pgq. by rewrite Hne.
  - intros h q pgq Hh Hq Hx. assert (q ≠ p) by (intros ->; by apply (Hx _ eq_refl)). rewrite Hne by done.
    apply (vm_held _ _ _ _ _ _ _ _ V); [done|done|]. intros y ?; by simplify_eq/=.
Qed.

Lemma v_upd p pg k loc g k' (Q : () → lst → Prop) :
  hold p pg k loc → page_zone (g pg) = page_zone pg → PageCompound (g pg) = PageCompound pg → cached_in s (g pg) →
  0 <= refs x s p + cref (g pg) <= _count (g pg) → refs x s p + cref (g pg) + k' <= _count (g pg) →
  (∀ s', s' = pset p (g pg) s → vm zn f (Some (Hand p (g pg) k' loc)) off x lv lk s' → Q () s') →
  runs (upd_page p g) s Q.
Proof.
  intros V Hz Hc Hm Hr Hk HQ. eapply runs_ok; [apply upd_page_run; exact (vm_at _ _ _ _ V)|]. apply HQ; [done|].
  by eapply v_set.
Qed.

Lemma v_flag p pg k loc g (Q : () → lst → Prop) :
  hold p pg k loc → shape (g pg) = shape pg → _count (g pg) = _count pg →
  (∀ s', s' = pset p (g pg) s → vm zn f (Some (Hand p (g pg) k loc)) off x lv lk s' → Q () s') →
  runs (upd_page p g) s Q.
Proof.
  intros V Hs Hc HQ. pose proof (vm_at _ _ _ _ V) as Hp.
  destruct (inv_hand _ _ _ _ _ _ (vm_inv V) _ eq_refl) as (_ & Hr & _). simpl in Hr.
  pose proof (inv_ref _ _ _ _ _ _ (vm_inv V) _ _ Hp) as Hr0. rewrite (vrefs_at _ _ _ _ Hp) in Hr, Hr0.
  pose proof (shape_cref _ _ Hs) as Hcr. pose proof Hs as Hs0. unfold shape in Hs.
  eapply (v_upd p pg k loc g k); [exact V|congruence|congruence| |lia|lia|done].
  eapply shape_cached; [done|exact Hs0|]. by eapply (vm_spaces _ _ _ _ _ _ _ _ V).
Qed.

Lemma v_del p pg k h (Q : () → lst → Prop) :
  hold p pg k (Some h) →
  (∀ s', s' = del p s →
     vm zn f (Some (Hand p pg k None)) (off_add h.1 h.2 1 off) x (lv_set h (without p (lv h)) lv) lk s' → Q () s') →
  runs (list_del p) s Q.
Proof.
  intros V HQ. pose proof (vm_local V) as Hl. eapply r_del; [exact (vm_inv V)|]. intros s' E U H'. apply HQ; [done|].
  subst s'. eapply vm_step; [exact V|exact H'|done|done|done| |].
  - intros h' Hh'. rewrite list_at_del. unfold lv_set.
    destruct (decide (h = h')) as [<-|]; [by rewrite Hl|]. rewrite without_id by (apply U; congruence). by apply Hl.
  - intros h' q pgq Hh' Hq Hx _. left. split; [|intros y ?; simplify_eq/=; exact (Hx _ eq_refl)].
    unfold lv_set in Hq. destruct (decide (h = h')) as [<-|]; [|done]. by apply elem_without in Hq as [? _].
Qed.

Lemma v_add p pg k h (Q : () → lst → Prop) :
  hold p pg k None →
  (∀ s', s' = put_list h (p :: list_at s h) s →
     vm zn f (Some (Hand p pg k (Some h))) (off_add h.1 h.2 (-1) off) x (lv_set h (p :: lv h) lv) lk s' → Q () s') →
  runs (list_add p h) s Q.
Proof.
  intros V HQ. pose proof (vm_local V) as Hl. eapply r_add; [exact (vm_inv V)|]. intros s' E H'. apply HQ; [done|].
  subst s'. eapply vm_step; [exact V|exact H'|done|done|done| |].
  - intros h' Hh'. unfold lv_set.
    destruct (decide (h = h')) as [<-|]; [by rewrite list_at_put, Hl|]. rewrite list_at_put_ne by done. by apply Hl.
  - intros h' q pgq Hh' Hq Hx _. left. split; [|intros y ?; simplify_eq/=; exact (Hx _ eq_refl)].
    unfold lv_set in Hq. destruct (decide (h = h')) as [<-|]; [|done].
    apply elem_of_cons in Hq as [->|Hq]; [|done]. by destruct (Hx _ eq_refl).
Qed.

(** Dropping the page in hand, and taking a page. *)
Lemma v_drop p pg k loc : hold p pg k loc → 0 <= k →
  match loc with
  | Some h => on_list (vrefs x s) h p pg ∧ (h.1 = -1 → page_zone pg = zn ∧ list_wants f h (page_lru pg))
  | None => PageLRU pg = false
  end → vm zn f None off x lv lk s.
Proof.
  intros V Hk Hl. pose proof (vm_at _ _ _ _ V) as Hat. eapply vm_step; [exact V| |done|done|done|by apply (vm_local V)|].
  - eapply drop; [exact (vm_inv V)|done|]. destruct loc; [apply Hl|done].
  - intros h q pgq Hh Hq _ Hpg. destruct (decide (q = p)) as [->|]; [|left; split; [done|intros y ?; by simplify_eq/=]].
    right. simplify_eq. destruct (inv_hand _ _ _ _ _ _ (vm_inv V) _ eq_refl) as (_ & _ & Hloc). simpl in Hloc.
    rewrite <- (vm_local V) in Hq by lia. destruct loc as [h'|]; [|by destruct (Hloc h)].
    rewrite (inv_disj _ _ _ _ _ _ (vm_inv V) _ _ _ Hq Hloc) in *. by apply Hl.
Qed.

Lemma v_take p pg k loc : vm zn f None off x lv lk s →
  inv (Some (Hand p pg k loc)) off (vrefs x s) (pend_of s) lk s → hold p pg k loc.
Proof.
  intros V H. eapply vm_step; [exact V|exact H|done|done|done|by apply (vm_local V)|].
  intros h q pgq Hh Hq _ _. by left.
Qed.

Lemma v_take_held p n : vm zn f None off x lv lk s → p ∈ lv (held n) →
  ∃ pg, pages s !! p = Some pg ∧ PageCompound pg = false ∧ PageLRU pg = false ∧ page_zone pg = zn ∧
    list_wants f (held n) (page_lru pg) ∧ hold p pg 1 (Some (held n)).
Proof.
  intros V Hp. pose proof Hp as Hp'. rewrite <- (vm_local V) in Hp by done.
  destruct (take_held _ _ _ _ _ _ _ (vm_inv V) Hp) as (pg & Hpg & ? & ? & H'). exists pg.
  destruct (vm_held _ _ _ _ _ _ _ _ V (held n) p pg) as [? ?]; [done..|]. split_and!; try done. by apply v_take.
Qed.

Lemma v_take_lru p pg : vm zn f None off x lv lk s → pages s !! p = Some pg → PageLRU pg = true →
  PageCompound pg = false ∧ hold p pg 0 (Some (page_zone pg, page_lru pg)).
Proof.
  intros V Hp HL. destruct (take_lru _ _ _ _ _ _ _ (vm_inv V) Hp HL) as [? H']. split; [done|]. by apply v_take.
Qed.

Context (hd : option hand).
Notation now := (vm zn f hd off x lv lk s).

Lemma v_same off' lk' s' : now → inv hd off' (vrefs x s) (pend_of s) lk' s' → pvecs s' = pvecs s → pages s' = pages s →
  spaces s' = spaces s → lists s' = lists s → vm zn f hd off' x lv lk' s'.
Proof.
  intros V H ? ? ? El. eapply vm_step; [exact V|exact H|done|done|done| |].
  - intros h Hh. unfold list_at. rewrite El. by apply (vm_local V).
  - intros h q pgq Hh Hq Hx _. by left.
Qed.

Lemma v_stat l d (Q : () → lst → Prop) :
  now → counted l →
  (∀ s', pages s' = pages s → vm zn f hd (off_add zn l d off) x lv lk s' → Q () s') →
  runs (__mod_zone_page_state zn (NR_LRU_BASE + l) d) s Q.
Proof.
  intros V Hl HQ. destruct (vm_zone _ V) as [[zd Hz] _]. eapply r_stat; [exact (vm_inv V)|exact Hz|done|]. intros s' E H'.
  subst s'. apply HQ; [done|]. by apply v_same.
Qed.

Lemma v_stat_other z item d (Q : () → lst → Prop) :
  now → is_Some (zones s !! z) → uncounted item →
  (∀ s', pages s' = pages s → vm zn f hd off x lv lk s' → Q () s') →
  runs (__mod_zone_page_state z item d) s Q.
Proof.
  intros V [zd Hz] Hl HQ. eapply r_stat_other; [exact (vm_inv V)|exact Hz|done|]. intros s' E H'. subst s'.
  apply HQ; [done|]. by apply v_same.
Qed.

Lemma v_upd_zone g (Q : () → lst → Prop) :
  now → (∀ zd, vm_stat (g zd) = vm_stat zd) → (∀ zd, lru_lock (g zd) = lru_lock zd) →
  (∀ s', pages s' = pages s → vm zn f hd off x lv lk s' → Q () s') → runs (upd_zone zn g) s Q.
Proof.
  intros V Hs Hl HQ. destruct (vm_zone _ V) as [[zd Hz] _].
  eapply r_zone; [exact (vm_inv V)|exact Hz|apply Hs|apply Hl|]. intros s' E H'. subst s'. apply HQ; [done|]. by apply v_same.
Qed.

Lemma v_events e n (Q : () → lst → Prop) :
  now → (∀ s', pages s' = pages s → vm zn f hd off x lv lk s' → Q () s') → runs (count_vm_events e n) s Q.
Proof. intros V HQ. eapply r_events; [exact (vm_inv V)|]. intros s' E H'. subst s'. apply HQ; [done|]. by apply v_same. Qed.
End steps.

Lemma v_lock zn f hd off x lv s z (Q : () → lst → Prop) :
  vm zn f hd off x lv None s → is_Some (zones s !! z) →
  (∀ s', pages s' = pages s → is_Some (zones s' !! z) → vm zn f hd off x lv (Some z) s' → Q () s') →
  runs (spin_lock_irq z) s Q.
Proof.
  intros V [zd Hz] HQ. eapply r_lock; [exact (vm_inv V)|exact Hz|]. intros s' E H'. subst s'. apply HQ; [done| |].
  - simpl. rewrite lookup_insert_eq. by eexists.
  - by eapply v_same.
Qed.

Lemma v_unlock zn f hd off x lv s z (Q : () → lst → Prop) :
  vm zn f hd off x lv (Some z) s → is_Some (zones s !! z) →
  (∀ s', pages s' = pages s → vm zn f hd off x lv None s' → Q () s') → runs (spin_unlock_irq z) s Q.
Proof.
  intros V Hz HQ. eapply r_unlock; [exact (vm_inv V)|exact Hz|]. intros s' zd Hzd E H'. subst s'. apply HQ; [done|].
  by eapply v_same.
Qed.

(** ** A page that was taken off its list *)

(** The page is on no list, and the scan holds [k] references to it. *)
Definition iso (zn f : Z) (off : Z → Z → Z) (x : Z → Z) (lv : head → list Z) (lk : option Z) (k p : Z) (pg : page)
    (s : lst) : Prop :=
  vm zn f None off (ref_add p k x) lv lk s ∧ loose s p pg ∧ page_zone pg = zn.

Lemma refs_add p k x s q : vrefs (ref_add p k x) s q = ref_add p k (vrefs x s) q.
Proof. unfold refs, xrefs, ref_add. case_bool_decide; lia. Qed.

Lemma cache_ref_nonneg s p : 0 <= cache_ref s p.
Proof. unfold cache_ref. case_match; [apply cref_nonneg|lia]. Qed.

Lemma inv_less off ref ref' pend lk s :
  inv None off ref pend lk s → (∀ q, 0 <= ref' q <= ref q) → (∀ q l, (q, l) ∈ pend → 1 <= ref' q) →
  inv None off ref' pend lk s.
Proof.
  intros [H1 H2 H3 H4 H5 H6 H7 H8 H9 H10 H11 H12 H13] Hle Hpend. split; try done.
  - intros h q Hq Hx. destruct (H3 h q Hq Hx) as (pg & Hpg & Hc & Hon). exists pg. split; [done|]. split; [done|].
    specialize (Hle q). destruct Hon as [?|[(? & ? & ?)|?]]; [by left|right; left; split_and!; [done|done|lia]|by right; right].
  - intros q pg Hq. pose proof (H8 _ _ Hq). specialize (Hle q). lia.
  - intros q l Hq. destruct (H9 q l Hq) as (? & _ & ?). split; [done|]. split; [by eapply Hpend|done].
Qed.

Lemma inv_more off ref pend lk s p pg k :
  inv None off ref pend lk s → pages s !! p = Some pg → 0 <= k → ref p + k <= _count pg → unlinked s p →
  inv None off (ref_add p k ref) pend lk s.
Proof.
  intros [H1 H2 H3 H4 H5 H6 H7 H8 H9 H10 H11 H12 H13] Hp Hk Hr Hu. split; try done.
  - intros h q Hq Hx. destruct (H3 h q Hq Hx) as (pgq & E & Hc & Hon). exists pgq. split; [done|]. split; [done|].
    rewrite ref_add_ne; [done|]. intros ->. by apply (Hu h).
  - intros q pgq Hq. pose proof (H8 _ _ Hq). destruct (decide (q = p)) as [->|]; [|by rewrite ref_add_ne].
    simplify_eq. rewrite ref_add_eq. lia.
  - intros q l Hq. destruct (H9 q l Hq) as (? & ? & ?). split; [done|]. split; [|done].
    unfold ref_add. case_bool_decide; lia.
Qed.

Lemma inv_spare p pg k k' loc off ref pend lk s :
  inv (Some (Hand p pg k loc)) off ref pend lk s → k' <= k → inv (Some (Hand p pg k' loc)) off ref pend lk s.
Proof.
  intros [H1 H2 H3 H4 H5 H6 H7 H8 H9 H10 H11 H12 H13] Hk. split; try done.
  - intros h q Hq Hx. apply (H3 h q Hq). intros y ?; simplify_eq/=. exact (Hx _ eq_refl).
  - intros q pgq Hq Hx. apply (H4 q pgq Hq). intros y ?; simplify_eq/=. exact (Hx _ eq_refl).
  - intros q l Hq. destruct (H9 q l Hq) as (Hx & ?). split; [|done]. intros y ?; simplify_eq/=. exact (Hx _ eq_refl).
  - intros q Hq. destruct (H11 q Hq) as (Hx & ?). split; [|done]. intros y ?; simplify_eq/=. exact (Hx _ eq_refl).
  - intros y ?; simplify_eq/=. destruct (H13 _ eq_refl) as (? & ? & ?). simpl in *. split_and!; [done|lia|done].
Qed.

Section iso.
Context (zn f : Z) (off : Z → Z → Z) (x : Z → Z) (lv : head → list Z) (lk : option Z) (Hx0 : ∀ p, 0 <= x p).
Notation iso := (iso zn f off x lv lk).
Notation scan := (vm zn f None off x lv lk).
Notation hold p pg k := (vm zn f (Some (Hand p pg k None)) off x lv lk).

Lemma refs_nonneg s p : 0 <= refs x s p ∧ 0 <= vrefs x s p.
Proof.
  unfold refs, xrefs. pose proof (occ_nonneg p (concat (map (pvec_at s) [0; 1; 2; 3; 4; 5; 6]))).
  pose proof (cache_ref_nonneg s p). specialize (Hx0 p). lia.
Qed.

Lemma iso_hand k p pg s : iso k p pg s → 0 <= k → hold p pg k s.
Proof.
  intros (V & Lo & Hz) Hk. assert (inv None off (vrefs x s) (pend_of s) lk s) as H.
  { eapply inv_less; [exact (vm_inv V)| |].
    - intros q. rewrite refs_add. pose proof (refs_nonneg s q). unfold ref_add. case_bool_decide; lia.
    - intros q l Hq. destruct (inv_pend _ _ _ _ _ _ (vm_inv V) _ _ Hq) as (_ & Hr & _). rewrite refs_add, ref_add_ne in Hr; [done|].
      intros <-. apply (lo_pend _ _ _ Lo). apply list_elem_of_fmap. by exists (p, l). }
  pose proof (inv_ref _ _ _ _ _ _ (vm_inv V) _ _ (lo_page _ _ _ Lo)) as Hr. rewrite refs_add, ref_add_eq in Hr.
  eapply vm_step; [exact V| |done|done|done|by apply (vm_local V)|by left].
  destruct Lo. apply take; [done|done|done|done|lia|done].
Qed.

Lemma hand_iso k p pg s : hold p pg k s → 0 <= k → PageLRU pg = false → PageCompound pg = false → page_zone pg = zn →
  iso k p pg s.
Proof.
  intros V Hk HL Hc Hz. destruct (inv_hand _ _ _ _ _ _ (vm_inv V) _ eq_refl) as (Hp & Hr & Hu). simpl in *.
  split; [|split; [|done]].
  - eapply vm_step; [exact V| |done|done|done|by apply (vm_local V)|].
    + eapply inv_ext; [done|intros q; symmetry; apply refs_add|]. eapply inv_more; [|done|done|done|done].
      by eapply drop; [exact (vm_inv V)|..].
    + intros h q pgq Hh Hq _ Hpgq. left. split; [done|]. intros y ?; simplify_eq/=. intros <-.
      apply (Hu h). rewrite (vm_local V) by lia. done.
  - split; try done.
    + intros ([q l] & -> & Hq)%list_elem_of_fmap. destruct (inv_pend _ _ _ _ _ _ (vm_inv V) _ _ Hq) as (Hx & _).
      by apply (Hx _ eq_refl).
    + intros Hf. destruct (inv_freed _ _ _ _ _ _ (vm_inv V) _ Hf) as (Hx & _). by apply (Hx _ eq_refl).
Qed.

Lemma iso_at k p pg s : iso k p pg s → pages s !! p = Some pg.
Proof. intros (_ & Lo & _). apply Lo. Qed.

Lemma iso_ref k p pg s : iso k p pg s → refs x s p + cref pg + k <= _count pg.
Proof.
  intros (V & Lo & _). pose proof (inv_ref _ _ _ _ _ _ (vm_inv V) _ _ (lo_page _ _ _ Lo)) as Hr.
  rewrite refs_add, ref_add_eq, (vrefs_at _ _ _ _ (lo_page _ _ _ Lo)) in Hr. lia.
Qed.

Lemma iso_page k p pg s (Q : page → lst → Prop) : iso k p pg s → Q pg s → runs (page_at p) s Q.
Proof. intros I HQ. eapply runs_ok; [apply page_at_run; by eapply iso_at|done]. Qed.

(** A change of the page. *)
Lemma iso_pset k k' p pg pg' s :
  iso k p pg s → 0 <= k → 0 <= k' → page_zone pg' = page_zone pg → PageCompound pg' = PageCompound pg →
  PageLRU pg' = false → cached_in s pg' →
  refs x s p + cref pg' + k' <= _count pg' → iso k' p pg' (pset p pg' s).
Proof.
  intros I Hk Hk' Hz Hc HL Hm Hr. pose proof (refs_nonneg s p) as [? _]. pose proof (cref_nonneg pg').
  destruct I as (V & Lo & Hzn). apply hand_iso; [|done|done|rewrite Hc; apply Lo|congruence].
  by eapply v_set; [by apply (iso_hand k)|..|lia|exact Hr].
Qed.

Lemma iso_flag k p pg g s (Q : () → lst → Prop) :
  iso k p pg s → 0 <= k → shape (g pg) = shape pg → PageLRU (g pg) = PageLRU pg → _count (g pg) = _count pg →
  (∀ s', s' = pset p (g pg) s → iso k p (g pg) s' → Q () s') → runs (upd_page p g) s Q.
Proof.
  intros I Hk Hs HL Hc HQ. eapply v_flag; [by apply (iso_hand k)|done|done|].
  intros s' E V. apply HQ; [done|]. destruct I as (_ & Lo & Hzn). unfold shape in Hs.
  apply hand_iso; [done|done|rewrite HL; apply Lo| |congruence].
  pose proof (lo_compound _ _ _ Lo). congruence.
Qed.

(** The page goes to a local list of held pages, or of pages to be freed. *)
Lemma iso_add p pg n s (Q : () → lst → Prop) :
  iso 1 p pg s → list_wants f (held n) (page_lru pg) →
  (∀ s', vm zn f None off x (lv_set (held n) (p :: lv (held n)) lv) lk s' → pages s' = pages s → Q () s') →
  runs (list_add p (held n)) s Q.
Proof.
  intros I Hw HQ. pose proof (iso_ref _ _ _ _ I) as Hr. eapply v_add; [by apply (iso_hand 1)|]. intros s' E V.
  destruct I as (_ & Lo & Hzn). apply HQ; [|by subst].
  eapply vm_ext; [eapply v_drop; [exact V|done|]| | |done]; [|off_solve|done].
  split; [|done]. split; [apply Lo|]. right; left. split; [done|]. split; [apply Lo|]. subst s'.
  rewrite (vrefs_at x _ p pg) by apply Lo. exact Hr.
Qed.

Lemma iso_doom p pg n s (Q : () → lst → Prop) :
  iso 0 p pg s → _count pg = 0 →
  (∀ s', vm zn f None off x (lv_set (doomed n) (p :: lv (doomed n)) lv) lk s' → pages s' = pages s → Q () s') →
  runs (list_add p (doomed n)) s Q.
Proof.
  intros I H0 HQ. eapply v_add; [by apply (iso_hand 0)|]. intros s' E V.
  destruct I as (_ & Lo & Hzn). apply HQ; [|by subst].
  eapply vm_ext; [eapply v_drop; [exact V|done|]| | |done]; [|off_solve|done].
  split; [|done]. split; [apply Lo|]. right; right. split; [done|]. split; [apply Lo|done].
Qed.

(** A reference of the scan is given up. *)
Lemma iso_forget k p pg s : iso k p pg s → 0 <= k → scan s.
Proof. intros I Hk. eapply v_drop; [by apply iso_hand|done|]. apply I. Qed.

Lemma iso_less k k' p pg s : iso k p pg s → 0 <= k' <= k → iso k' p pg s.
Proof.
  intros I Hk. destruct I as (V & Lo & Hz). assert (hold p pg k s) as V' by (apply iso_hand; [done|lia]).
  apply hand_iso; [|lia|apply Lo|apply Lo|done]. eapply vm_step; [exact V'| |done|done|done|by apply (vm_local V')|].
  - eapply inv_spare; [exact (vm_inv V')|lia].
  - intros h q pgq Hh Hq Hx _. left. split; [done|]. intros y ?; simplify_eq/=. exact (Hx _ eq_refl).
Qed.
End iso.

Ltac shape_solve := first [by apply shape_set|by apply shape_clear|reflexivity].

(** [iflag I] sets or clears a flag of the page of [I : iso k p pg s]. *)
Tactic Notation "iflag" constr(I) := eapply iso_flag; [|exact I|lia|shape_solve|page_solve|done|]; [done|].

Lemma without_last p (l : list Z) : NoDup l → last l = Some p → without p l = removelast l.
Proof.
  intros Hnd [l' ->]%last_Some. apply NoDup_app in Hnd as (_ & Hn & _).
  unfold without. rewrite filter_app, removelast_last, filter_cons_False by (by intros []). rewrite filter_nil, app_nil_r.
  apply without_id. intros Hin. apply (Hn p Hin). left.
Qed.

(** The last page of a local list is taken off it. *)
Lemma take_last zn f off x lv lk s p n (Q : () → lst → Prop) :
  (∀ p, 0 <= x p) → vm zn f None off x lv lk s → last (lv (held n)) = Some p →
  (∀ s' pg, iso zn f off x (lv_set (held n) (removelast (lv (held n))) lv) lk 1 p pg s' → pages s' = pages s →
     list_wants f (held n) (page_lru pg) → Q () s') →
  runs (list_del p) s Q.
Proof.
  intros Hx0 V Hl HQ. assert (p ∈ lv (held n)) as Hp by (by apply last_Some_elem_of).
  destruct (v_take_held _ _ _ _ _ _ _ _ _ V Hp) as (pg & Hpg & Hc & HL & Hz & Hw & V').
  eapply v_del; [exact V'|]. intros s' E V1. apply (HQ s' pg); [|by subst|done].
  pose proof (inv_nodup _ _ _ _ _ _ (vm_inv V) (held n)) as Hnd. rewrite (vm_local V) in Hnd by done.
  rewrite (without_last _ _ Hnd Hl) in V1. apply hand_iso; [|done|done|done|done].
  eapply vm_ext; [exact V1|off_solve|done|done].
Qed.

(** ** Whole lists *)

Lemma inv_same_lists hd off ref pend lk s s' :
  inv hd off ref pend lk s → (∀ h, list_at s' h = list_at s h) → pages s' = pages s → zones s' = zones s →
  freed s' = freed s → inv hd off ref pend lk s'.
Proof.
  intros [H1 H2 H3 H4 H5 H6 H7 H8 H9 H10 H11 H12 H13] El Ep Ez Ef.
  assert (∀ q, unlinked s q → unlinked s' q) as Hu by (intros q Hu h; rewrite El; apply (Hu h)).
  split; rewrite ?Ep, ?Ez, ?Ef; try done.
  - intros h. rewrite El. apply H1.
  - intros h h' q. rewrite !El. apply H2.
  - intros h q. rewrite El. apply H3.
  - intros q pg ? ? ?. rewrite El. by apply H4.
  - intros z zd l ? ? ?. rewrite El. by apply H5.
  - intros q l Hq. destruct (H9 q l Hq) as (? & ? & ? & ?). auto.
  - intros q Hq. destruct (H11 q Hq) as (? & ? & ?). auto.
  - intros y Hy. destruct (H13 y Hy) as (? & ? & Hl). split_and!; [done|done|].
    destruct (h_loc y); [by rewrite El|by apply Hu].
Qed.

(** A local list that is empty is initialised. *)
Lemma v_init zn f hd off x lv lk s h (Q : () → lst → Prop) :
  vm zn f hd off x lv lk s → h.1 < 0 → lv h = [] →
  (∀ s', pages s' = pages s → vm zn f hd off x lv lk s' → Q () s') → runs (set_list h []) s Q.
Proof.
  intros V Hh He HQ. apply runs_modify. apply HQ; [done|]. change (set_lists _ s) with (put_list h [] s).
  assert (∀ h', list_at (put_list h [] s) h' = list_at s h') as El.
  { intros h'. destruct (decide (h = h')) as [<-|]; [rewrite list_at_put, (vm_local V) by done; done|by rewrite list_at_put_ne]. }
  eapply vm_step; [exact V|by eapply inv_same_lists; [exact (vm_inv V)|..]|done|done|done| |].
  - intros h' Hh'. rewrite El. by apply (vm_local V).
  - intros h' q pgq ? ? ? _. by left.
Qed.

(** The pages of a local list are freed. *)
Lemma v_free_list zn f off x lv lk s n (Q : () → lst → Prop) :
  vm zn f None off x lv lk s →
  (∀ s', pages s' = pages s → freed s' = reverse (lv (doomed n)) ++ freed s →
     vm zn f None off x (lv_set (doomed n) [] lv) lk s' → Q () s') →
  runs (free_hot_cold_page_list (doomed n)) s Q.
Proof.
  intros V HQ. eapply runs_mono; [eapply free_list_inv; exact (vm_inv V)|]. cbn beta.
  intros [] s' (H' & F & He & Ef & Ez & Ep). rewrite (vm_local V) in Ef by done. apply HQ; [done|done|].
  pose proof (frame_but_pvecs _ _ _ F) as E. injection E as E1 E2.
  eapply vm_step; [exact V|exact H'|done|done|done| |].
  - intros h Hh. unfold lv_set. destruct (decide (doomed n = h)) as [<-|]; [done|].
    rewrite (frame_but_local _ _ _ F) by congruence. by apply (vm_local V).
  - intros h q pgq Hh Hq _ _. left. split; [|done]. rewrite lv_set_ne in Hq; [done|]. intros <-. simpl in Hh. lia.
Qed.

(** All pages of a local list move to another one. *)
Lemma inv_splice off ref pend lk s a b :
  inv None off ref pend lk s → a ≠ b → list_at s (held b) = [] →
  inv None off ref pend lk (put_list (held b) (list_at s (held a) ++ []) (put_list (held a) [] s)).
Proof.
  intros [H1 H2 H3 H4 H5 H6 H7 H8 H9 H10 H11 H12 H13] Hab Hb. rewrite app_nil_r. set (s' := put_list (held b) _ _).
  assert (held a ≠ held b) as Hne by (unfold held; congruence).
  assert (list_at s' (held b) = list_at s (held a)) as Eb by apply list_at_put.
  assert (list_at s' (held a) = []) as Ea by (unfold s'; rewrite list_at_put_ne by congruence; apply list_at_put).
  assert (∀ h, h ≠ held a → h ≠ held b → list_at s' h = list_at s h) as Ene
    by (intros; unfold s'; by rewrite !list_at_put_ne by congruence).
  assert (∀ z l, 0 <= z → list_at s' (z, l) = list_at s (z, l)) as Ez.
  { intros z l Hz. apply Ene; intros E; apply (f_equal fst) in E; simpl in E; lia. }
  set (src := λ h : head, if decide (h = held b) then held a else h).
  assert (∀ h q, q ∈ list_at s' h → q ∈ list_at s (src h) ∧ h ≠ held a) as Hin.
  { intros h q. unfold src. destruct (decide (h = held b)) as [->|].
    - rewrite Eb. intros. split; [done|congruence].
    - destruct (decide (h = held a)) as [->|]; [rewrite Ea; by intros ?%elem_of_nil|]. rewrite Ene by done. auto. }
  assert (∀ q, unlinked s q → unlinked s' q) as Hu by (intros q Hu h [Hq _]%Hin; by apply (Hu (src h))).
  assert (∀ h q pg, h ≠ held a → on_list ref (src h) q pg → on_list ref h q pg) as Hon.
  { intros h q pg Hh. unfold src. destruct (decide (h = held b)) as [->|]; [|done].
    intros [Hc [(Hbad & _)|[?|(Hbad & _)]]]; [simpl in Hbad; lia|split; [done|by right; left]|simpl in Hbad; lia]. }
  split; try done.
  - intros h. destruct (decide (h = held b)) as [->|]; [by rewrite Eb|].
    destruct (decide (h = held a)) as [->|]; [rewrite Ea; constructor|by rewrite Ene].
  - intros h h' q [Hq Hh]%Hin [Hq' Hh']%Hin. pose proof (H2 _ _ _ Hq Hq') as E. unfold src in E.
    repeat case_decide; congruence.
  - intros h q [Hq Hh]%Hin Hx. destruct (H3 _ _ Hq Hx) as (pg & ? & ?). exists pg. split; [done|by apply Hon].
  - intros q pg Hq Hx HL. destruct (H7 _ _ Hq) as [_ Hz]. rewrite Ez by done. by apply H4.
  - intros z zd l Hz ? ?. rewrite Ez by done. by apply H5.
  - intros q l Hq. destruct (H9 q l Hq) as (? & ? & ? & ?). auto.
  - intros q Hq. destruct (H11 q Hq) as (? & ? & ?). auto.
Qed.

Lemma v_splice zn f off x lv lk s a b (Q : () → lst → Prop) :
  vm zn f None off x lv lk s → a ≠ b → lv (held b) = [] → (∀ l, list_wants f (held b) l) →
  (∀ s', pages s' = pages s → vm zn f None off x (lv_set (held b) (lv (held a)) (lv_set (held a) [] lv)) lk s' → Q () s') →
  runs (list_splice (held a) (held b)) s Q.
Proof.
  intros V Hab Hb Hw HQ. pose proof (vm_local V) as Hl. unfold list_splice.
  apply runs_bind, runs_gets. apply runs_bind, runs_gets. apply runs_bind, runs_modify, runs_modify. apply HQ; [done|].
  rewrite (Hl (held b)), Hb by done.
  change (set_lists _ (set_lists _ s)) with (put_list (held b) (list_at s (held a) ++ []) (put_list (held a) [] s)).
  eapply vm_step; [exact V|apply inv_splice; [exact (vm_inv V)|done|by rewrite Hl]|done|done|done| |].
  - intros h Hh. unfold lv_set. destruct (decide (held b = h)) as [<-|]; [by rewrite list_at_put, app_nil_r, Hl|].
    rewrite list_at_put_ne by done. destruct (decide (held a = h)) as [<-|]; [apply list_at_put|].
    rewrite list_at_put_ne by done. by apply Hl.
  - intros h q pgq Hh Hq _ Hpg. unfold lv_set in Hq. destruct (decide (held b = h)) as [<-|].
    + right. destruct (vm_held _ _ _ _ _ _ _ _ V (held a) q pgq) as [? _]; [done..|]. by split.
    + left. split; [|done]. destruct (decide (held a = h)); [by apply elem_of_nil in Hq|done].
Qed.
