(* ===== verification/VmscanPage.v ===== *)
(** * One page of a scan

    The functions of [vmscan.c] that handle one page, as steps of the state of
    [VmscanInv]: taking a page off its list, putting it back, and what writing, unmapping
    and swapping it may change. *)

From S2P Require Import Prelude Hoare Lru LruInv LruOps LruApi Rmap Vmscan VmscanInv.

(** The result of [page_evictable]. *)
Definition evictable (s : lst) (pg : page) : bool :=
  match page_mapping pg with
  | None => negb (PageMlocked pg)
  | Some m =>
      match spaces s !! m with
      | Some a => negb (as_unevictable a) && negb (PageMlocked pg)
      | None => false
      end
  end.

Lemma page_evictable_run `{Reclaim} s p pg : spaces_ok s → pages s !! p = Some pg →
  page_evictable pg s = Ok (evictable s pg, s).
Proof.
  intros [_ S] Hp. unfold page_evictable, evictable. destruct (page_mapping pg) as [m|] eqn:Hm; [|done].
  destruct (proj2 (S p pg Hp) m Hm) as [a Ha]. unfold space_at.
  erewrite bind_Ok; [|erewrite bind_Ok by done; by rewrite Ha]. by rewrite Ha.
Qed.

(** Fewer references are accounted for. *)
Lemma pend_refs ex s q l : (∀ p, 0 <= ex p) → (q, l) ∈ pend_of s → 1 <= refs ex s q.
Proof.
  intros Hex Hin. pose proof (waits_pend ex s 5 q ltac:(lia) (Hex q)) as Hw. unfold waits in Hw.
  rewrite bool_decide_eq_true_2 in Hw by (apply list_elem_of_fmap; by exists (q, l)).
  pose proof (occ_nonneg q (pvec_at s 5)). lia.
Qed.

Lemma lru_gen_less off ex ex' lv lk s : lru_gen None off ex lv lk s → (∀ q, 0 <= ex' q <= ex q) →
  lru_gen None off ex' lv lk s.
Proof.
  intros L Hle. eapply lru_gen_step; [exact L| |done|by eauto|by apply L].
  eapply inv_less; [apply L| |].
  - intros q. specialize (Hle q). unfold refs. pose proof (occ_nonneg q (concat (map (pvec_at s) [0; 1; 2; 3; 4; 5; 6]))). lia.
  - intros q l. apply pend_refs. intros q'. apply (Hle q').
Qed.

Lemma xrefs_nonneg x s q : (∀ p, 0 <= x p) → 0 <= xrefs x s q.
Proof. intros Hx. unfold xrefs. pose proof (cache_ref_nonneg s q). specialize (Hx q). lia. Qed.

Lemma vm_less zn f off x x' lv lk s : vm zn f None off x lv lk s → (∀ q, 0 <= x' q <= x q) →
  vm zn f None off x' lv lk s.
Proof.
  intros [A B C D] Hle. split; [|done|done|done]. eapply lru_gen_less; [exact A|]. intros q. specialize (Hle q).
  unfold xrefs. pose proof (cache_ref_nonneg s q). lia.
Qed.

Section page.
Context `{Reclaim} (zn f : Z) (off : Z → Z → Z) (x : Z → Z) (lv : head → list Z).
Context (Hx0 : ∀ p, 0 <= x p) (Hrel : lv release_free_list = []).
Notation iso := (iso zn f off x lv None).
Notation scan := (vm zn f None off x lv None).

Lemma ex_add_nonneg p k q : 0 <= k → 0 <= ref_add p k x q.
Proof. intros. specialize (Hx0 q). unfold ref_add. case_bool_decide; lia. Qed.

(** The page goes back to a list, and the reference of the scan to it stays. *)
Lemma putback_redo_inv s p pg active : iso 1 p pg s → PageActive pg = false →
  runs (putback_redo 1 p active) s (λ _ s', vm zn f None off (ref_add p 1 x) lv None s' ∧ kept s s').
Proof.
  intros I Ha. cbn [putback_redo]. apply runs_bind. iflag I.
  intros s1 E1 I1. set (pg1 := ClearPage PG_unevictable pg) in *.
  assert (kept s s1) as K1.
  { subst s1. apply frame_kept. destruct I as (_ & Lo & _). eapply frame_pset; [apply Lo|shape_solve|right; intros h _; apply Lo]. }
  pose proof I1 as (V1 & Lo1 & Z1). pose proof (lo_page _ _ _ Lo1) as Hp1. pose proof (vm_gen _ _ _ _ _ _ _ _ V1) as G1.
  assert (∀ q, 0 <= xrefs (ref_add p 1 x) s1 q) as Hex1 by (intros q; apply xrefs_nonneg; intros; by apply ex_add_nonneg).
  apply runs_bind. eapply iso_page; [exact I1|].
  apply runs_bind. eapply runs_ok; [apply (page_evictable_run _ p); [apply V1|done]|].
  destruct (evictable s1 pg1) eqn:Hev.
  - apply runs_bind, runs_bind. eapply runs_mono.
    { eapply (lru_cache_add_lru_inv off (xrefs (ref_add p 1 x) s1) lv Hex1 Hrel s1 p pg1); [exact G1|exact Lo1|subst pg1; page_solve| |].
      - pose proof (base_type_range pg1). unfold page_lru_base_type, LRU_INACTIVE_FILE, LRU_INACTIVE_ANON, LRU_BASE, LRU_FILE in *.
        destruct active, (page_is_file_cache pg1); simpl; lia.
      - unfold page_lru_base_type. by destruct active, (page_is_file_cache pg1). }
    cbn beta. intros [] s2 [L2 K2]. apply runs_ret.
    assert (vm zn f None off (ref_add p 1 x) lv None s2) as V2 by (by eapply vm_kept).
    destruct (kept_page _ _ _ _ K2 Hp1) as (pg2 & Hp2 & _).
    apply runs_bind. eapply runs_ok; [by apply page_at_run|].
    apply runs_bind. eapply runs_ok; [apply (page_evictable_run _ p); [apply V2|done]|].
    assert (b2z active + page_lru_base_type pg1 =? LRU_UNEVICTABLE = false) as ->
      by (unfold page_lru_base_type; by destruct active, (page_is_file_cache pg1)).
    apply runs_ret. split; [done|by etrans].
  - apply runs_bind, runs_bind. eapply runs_mono.
    { by apply (add_page_to_unevictable_list_inv off (xrefs (ref_add p 1 x) s1) lv s1 p pg1). }
    cbn beta. intros [] s2 (L2 & K2 & Hp2). apply runs_ret.
    assert (vm zn f None off (ref_add p 1 x) lv None s2) as V2 by (by eapply vm_kept).
    apply runs_bind. eapply runs_ok; [by apply page_at_run|].
    apply runs_bind. eapply runs_ok; [apply (page_evictable_run _ p); [apply V2|done]|].
    set (pg2 := SetPage PG_lru (SetPage PG_unevictable pg1)) in *.
    assert (spaces s2 = spaces s1) as Es by (pose proof (kept_shape _ _ K2 0); congruence).
    assert (page_mapping pg2 = page_mapping pg1) as Em by (subst pg2; page_solve; unfold page_mapping; page_solve).
    assert (PageMlocked pg2 = PageMlocked pg1) as El by (subst pg2; page_solve).
    assert (evictable s2 pg2 = false) as -> by (rewrite <- Hev; unfold evictable; by rewrite Em, El, Es).
    apply runs_ret. split; [done|by etrans].
Qed.

Lemma putback_lru_page_inv s p pg : iso 1 p pg s → runs (putback_lru_page p) s (λ _ s', scan s').
Proof.
  intros I. unfold putback_lru_page. apply runs_bind. eapply iso_page; [exact I|].
  apply runs_bind. iflag I. intros s1 E1 I1.
  apply runs_bind. eapply runs_mono; [by eapply putback_redo_inv; [exact I1|page_solve]|]. cbn beta. intros lru s2 [V2 K2].
  assert (∀ s3, vm zn f None off (ref_add p 1 x) lv None s3 → kept s1 s3 → runs (put_page p) s3 (λ _ s', scan s')) as Hput.
  { intros s3 V3 K3. pose proof I1 as (V1 & Lo1 & Z1). destruct (kept_page _ _ _ _ K3 (lo_page _ _ _ Lo1)) as (pg3 & Hp3 & Hs3).
    assert (scan s3) as W3.
    { eapply vm_less; [exact V3|]. intros q. specialize (Hx0 q). unfold ref_add. case_bool_decide; lia. }
    eapply runs_mono; [eapply (put_page_inv off (xrefs x s3) lv s3 p pg3); [apply W3|]|].
    - split; [done| | |].
      + pose proof (lo_compound _ _ _ Lo1). unfold shape in Hs3. congruence.
      + pose proof (inv_ref _ _ _ _ _ _ (vm_inv V3) _ _ Hp3) as Hr. rewrite refs_add, ref_add_eq in Hr. lia.
      + intros n. rewrite (kept_local _ _ K3) by done. apply Lo1.
    - cbn beta. intros [] s4 [L4 K4]. by eapply vm_kept. }
  apply runs_bind. apply (runs_mono _ _ (λ _ s3, vm zn f None off (ref_add p 1 x) lv None s3 ∧ kept s1 s3)).
  - destruct (PageUnevictable pg && negb (lru =? LRU_UNEVICTABLE)); [|apply runs_when; [intros _|done]].
    + eapply r_events; [exact (vm_inv V2)|]. intros s3 E3 H3. subst s3. split; [by eapply v_same|by destruct K2].
    + eapply r_events; [exact (vm_inv V2)|]. intros s3 E3 H3. subst s3. split; [by eapply v_same|by destruct K2].
  - intros [] s3 [V3 K3]. by apply Hput.
Qed.
End page.

(** ** What the operations of [Reclaim] may change *)

(** An operation on page [p] leaves the lists, the pagevecs, other pages and what the
    lists need of zones alone. *)
Definition zone_lru (zd : zone) : bool * list Z := (lru_lock zd, map (stat (vm_stat zd)) [1; 2; 3; 4; 5; 21; 22]).

Record touches (p : Z) (s s' : lst) : Prop := Touches {
  to_lists : lists s' = lists s;
  to_pvecs : pvecs s' = pvecs s;
  to_freed : freed s' = freed s;
  to_others q : q ≠ p → pages s' !! q = pages s !! q;
  to_spaces m : is_Some (spaces s !! m) → is_Some (spaces s' !! m);
  to_zones z : zone_lru <$> zones s' !! z = zone_lru <$> zones s !! z;
}.

(** The flags and the zone that select the list of a page stay. *)
Definition lru_flags (pg : page) : Z * bool * bool * bool * bool * bool :=
  (page_zone pg, PageLRU pg, PageActive pg, PageUnevictable pg, PageSwapBacked pg, PageCompound pg).

Definition pagevec_refs (s : lst) (p : Z) : Z := refs (λ _, 0) s p.

(** The operation drops no reference of a pagevec, of the caller, of the cache that the
    page is in or of an entry that maps it. *)
Definition keeps_refs (s : lst) (p : Z) (pg pg' : page) : Prop :=
  pagevec_refs s p + cref pg + 1 <= _count pg → pagevec_refs s p + cref pg' + 1 <= _count pg'.

(** The page stays in its cache, or leaves it, or is added to the swap cache. *)
Definition moves_cache (pg pg' : page) : Prop :=
  (swap_ok pg → swap_ok pg') ∧
  (page_mapping pg' = page_mapping pg ∨ page_mapping pg' = None ∨ page_mapping pg' = Some swapper_space).

Definition same_cache (pg pg' : page) : Prop := PageSwapCache pg' = PageSwapCache pg ∧ mapping pg' = mapping pg.

Lemma same_cache_mapping pg pg' : same_cache pg pg' → page_mapping pg' = page_mapping pg.
Proof. unfold page_mapping. by intros [-> ->]. Qed.

Lemma same_cache_moves pg pg' : same_cache pg pg' → moves_cache pg pg'.
Proof. intros E. split; [|left; by apply same_cache_mapping]. destruct E as [E1 E2]. unfold swap_ok. by rewrite E1, E2. Qed.

(** From a page that is on no list of a zone the operation returns, and changes only that page. *)
Definition works_on {A} (op : Z → M lst A) (R : lst → Z → page → A → page → Prop) : Prop :=
  ∀ s p pg, pages s !! p = Some pg → PageLRU pg = false →
    runs (op p) s (λ a s', touches p s s' ∧
      ∃ pg', pages s' !! p = Some pg' ∧ lru_flags pg' = lru_flags pg ∧ R s p pg a pg').

Definition stays {A} (s : lst) (p : Z) (pg : page) (_ : A) (pg' : page) : Prop :=
  keeps_refs s p pg pg' ∧ PageLocked pg' = PageLocked pg ∧ same_cache pg pg'.

Definition idle (pg pg' : page) : Prop :=
  _count pg' = _count pg ∧ _mapcount pg' = _mapcount pg ∧ same_cache pg pg'.

(** What the scan relies on of the code that writes, unmaps and swaps a page. *)
Class ReclaimLaws (R : Reclaim) : Prop := {
  writepage_law : works_on writepage (λ s p pg _ pg', keeps_refs s p pg pg' ∧ moves_cache pg pg');
  add_to_swap_law : works_on add_to_swap (λ s p pg _ pg',
    keeps_refs s p pg pg' ∧ moves_cache pg pg' ∧ PageLocked pg' = PageLocked pg);
  try_to_free_swap_law : works_on try_to_free_swap (λ s p pg _ pg', keeps_refs s p pg pg' ∧ moves_cache pg pg');
  try_to_unmap_law : works_on try_to_unmap stays;
  wait_on_page_writeback_law : works_on wait_on_page_writeback stays;
  try_to_release_page_law gfp : works_on (λ p, try_to_release_page p gfp) stays;
  try_to_free_buffers_law : works_on try_to_free_buffers stays;
  swapcache_free_law : works_on swapcache_free (λ _ _ pg _ pg', idle pg pg');
  freepage_law : works_on freepage (λ _ _ pg _ pg', idle pg pg');
}.

Lemma zone_lru_stat zd zd' l : zone_lru zd' = zone_lru zd → counted l →
  stat (vm_stat zd') (NR_LRU_BASE + l) = stat (vm_stat zd) (NR_LRU_BASE + l).
Proof.
  intros E Hl. unfold zone_lru in E. cbn [map] in E. injection E as _ E1 E2 E3 E4 E5 E6 E7.
  assert (l = 0 ∨ l = 1 ∨ l = 2 ∨ l = 3 ∨ l = 4 ∨ l = 20 ∨ l = 21) as Hc by lia.
  destruct Hc as [->|[->|[->|[->|[->|[->| ->]]]]]]; unfold NR_LRU_BASE; cbn [Z.add Pos.add Pos.succ]; assumption.
Qed.

Lemma touches_zone p s s' z zd' : touches p s s' → zones s' !! z = Some zd' →
  ∃ zd, zones s !! z = Some zd ∧ zone_lru zd' = zone_lru zd.
Proof.
  intros T Hz. pose proof (to_zones _ _ _ T z) as E. rewrite Hz in E. destruct (zones s !! z) as [zd|]; [|done].
  exists zd. split; [done|]. simpl in E. congruence.
Qed.

Lemma touches_zone_some p s s' z : touches p s s' → is_Some (zones s !! z) → is_Some (zones s' !! z).
Proof.
  intros T [zd Hz]. pose proof (to_zones _ _ _ T z) as E. rewrite Hz in E. destruct (zones s' !! z); [by eexists|done].
Qed.

Lemma inv_touches p pg pg' k k' off ref ref' pend lk s s' :
  inv (Some (Hand p pg k None)) off ref pend lk s → touches p s s' → pages s' !! p = Some pg' →
  (∀ q, q ≠ p → ref' q = ref q) → page_zone pg' = page_zone pg → 0 <= ref' p <= _count pg' →
  ref' p + k' <= _count pg' → inv (Some (Hand p pg' k' None)) off ref' pend lk s'.
Proof.
  intros H T Hp' Hne Hz Hr Hk.
  assert (∀ h, list_at s' h = list_at s h) as Hl by (intros; unfold list_at; by rewrite (to_lists _ _ _ T)).
  assert (inv (Some (Hand p pg' k' None)) off ref' pend lk (pset p pg' s)) as H' by (by eapply inv_pset_ref).
  assert (∀ q, pages s' !! q = pages (pset p pg' s) !! q) as Hpg.
  { intros q. simpl. destruct (decide (p = q)) as [<-|]; [by rewrite lookup_insert_eq|].
    rewrite lookup_insert_ne by done. apply (to_others _ _ _ T). congruence. }
  destruct H' as [H1 H2 H3 H4 H5 H6 H7 H8 H9 H10 H11 H12 H13].
  assert (∀ q, unlinked (pset p pg' s) q → unlinked s' q) as Hu by (intros q Hu h; rewrite Hl; apply (Hu h)).
  split.
  - intros h. rewrite Hl. apply H1.
  - intros h h' q. rewrite !Hl. apply H2.
  - intros h q. rewrite Hl, Hpg. apply H3.
  - intros q pgq. rewrite Hpg, Hl. apply H4.
  - intros z zd l Hzd ? ?. destruct (touches_zone _ _ _ _ _ T Hzd) as (zd0 & Hzd0 & E). rewrite Hl, (zone_lru_stat zd0) by done.
    by apply (H5 z zd0).
  - intros z zd Hzd. destruct (touches_zone _ _ _ _ _ T Hzd) as (zd0 & Hzd0 & E). apply (f_equal fst) in E. simpl in E. rewrite E. by apply H6.
  - intros q pgq. rewrite Hpg. intros Hq. destruct (H7 q pgq Hq) as [? ?]. split; [|done]. by eapply touches_zone_some.
  - intros q pgq. rewrite Hpg. apply H8.
  - intros q l Hq. destruct (H9 q l Hq) as (? & ? & ? & ?). rewrite Hpg. auto.
  - done.
  - intros q. rewrite (to_freed _ _ _ T). intros Hq. destruct (H11 q Hq) as (? & ? & ?). rewrite Hpg. auto.
  - by rewrite (to_freed _ _ _ T).
  - intros y Hy. destruct (H13 y Hy) as (? & ? & ?). rewrite Hpg. split_and!; [done|done|]. simplify_eq/=. by apply Hu.
Qed.

Section env.
Context (zn f : Z) (off : Z → Z → Z) (lv : head → list Z) (lk : option Z).
Notation none := (λ _ : Z, 0).
Notation iso := (iso zn f off none lv lk).

Lemma iso_touches k k' p pg pg' s s' :
  iso k p pg s → 0 <= k → 0 <= k' → touches p s s' → pages s' !! p = Some pg' → lru_flags pg' = lru_flags pg →
  moves_cache pg pg' → pagevec_refs s p + cref pg' + k' <= _count pg' → iso k' p pg' s'.
Proof.
  intros I Hk Hk' T Hp' Hf Hm Hr. pose proof (iso_hand zn f off none lv lk ltac:(done) _ _ _ _ I Hk) as V.
  destruct I as (_ & Lo & Hz). pose proof (lo_page _ _ _ Lo) as Hp. pose proof (lo_lru _ _ _ Lo) as HL.
  pose proof (lo_compound _ _ _ Lo) as HC. injection Hf as Fz FL _ _ _ FC.
  apply hand_iso; [|done|congruence|congruence|congruence].
  assert (∀ h, list_at s' h = list_at s h) as Hl by (intros; unfold list_at; by rewrite (to_lists _ _ _ T)).
  pose proof (refs_nonneg none ltac:(done) s p) as [Hn _]. pose proof (cref_nonneg pg').
  split.
  - eapply lru_gen_step; [apply V| |apply T| |intros h Hh; rewrite Hl; by apply (vm_local V)].
    + eapply inv_touches; [exact (vm_inv V)|exact T|done| |congruence| |].
      * intros q Hq. unfold refs, xrefs, cache_ref. by rewrite (to_others _ _ _ T).
      * unfold refs, xrefs, cache_ref. rewrite Hp'. unfold pagevec_refs, refs in *. lia.
      * unfold refs, xrefs, cache_ref. rewrite Hp'. unfold pagevec_refs, refs in *. lia.
    + intros q pgq Hq. destruct (decide (q = p)) as [->|]; [|rewrite (to_others _ _ _ T) by done; by eauto].
      simplify_eq. eauto.
  - destruct (vm_spaces _ _ _ _ _ _ _ _ V) as [S1 S2]. split; [by apply T|]. intros q pgq Hq.
    destruct (decide (q = p)) as [->|].
    + simplify_eq. destruct Hm as [Hw Hm]. destruct (S2 p pg Hp) as [Hsw Hin]. split; [by apply Hw|]. intros m Hm'. apply T.
      destruct Hm as [Hm|[Hm|Hm]]; [apply Hin; congruence|congruence|by simplify_eq].
    + rewrite (to_others _ _ _ T) in Hq by done. destruct (S2 q pgq Hq) as [? Hin]. split; [done|].
      intros m Hm'. by apply T, Hin.
  - destruct (vm_populated _ _ _ _ _ _ _ _ V) as (q & pgq & Hq & Hzq). destruct (decide (q = p)) as [->|].
    + exists p, pg'. split; congruence.
    + exists q, pgq. by rewrite (to_others _ _ _ T).
  - intros h q pgq Hh Hq Hx. assert (q ≠ p) by (intros ->; by apply (Hx _ eq_refl)). rewrite (to_others _ _ _ T) by done.
    apply (vm_held _ _ _ _ _ _ _ _ V); [done|done|]. intros y ?; by simplify_eq/=.
Qed.

Lemma iso_works {A} (op : Z → M lst A) R p pg s :
  works_on op R → (∀ a pg', R s p pg a pg' → keeps_refs s p pg pg' ∧ moves_cache pg pg') → iso 1 p pg s →
  runs (op p) s (λ a s', ∃ pg', iso 1 p pg' s' ∧ lru_flags pg' = lru_flags pg ∧ R s p pg a pg').
Proof.
  intros Hop HR I. pose proof I as (_ & Lo & _). eapply runs_mono; [apply (Hop s p pg); apply Lo|]. cbn beta.
  intros a s' (T & pg' & Hp' & Hf & Hr). destruct (HR a pg' Hr) as [Hk Hm]. exists pg'. split; [|done].
  eapply iso_touches; [exact I|done|done|exact T|done|done|done|]. apply Hk.
  pose proof (iso_ref zn f off none lv lk _ _ _ _ I). done.
Qed.
End env.
