(* ===== verification/VmscanShrink.v ===== *)
(** * Reclaiming the pages of a list

    [shrink_page_list] against the invariant: each page of the list is freed, put back or
    kept, no [BUG_ON] on the way fires, and a page that is freed has no reference left. *)

From S2P Require Import Prelude Hoare Lru LruInv LruOps LruApi Rmap Vmscan VmscanInv VmscanPage.

(** The flags that no list depends on. *)
Definition other_flag (b : Z) : Prop :=
  0 <= b ∧ b ≠ PG_lru ∧ b ≠ PG_active ∧ b ≠ PG_unevictable ∧ b ≠ PG_swapbacked ∧ b ≠ PG_head ∧ b ≠ PG_tail.

Lemma lru_flags_flag b pg : other_flag b →
  lru_flags (SetPage b pg) = lru_flags pg ∧ lru_flags (ClearPage b pg) = lru_flags pg.
Proof.
  intros (? & ? & ? & ? & ? & ? & ?).
  unfold lru_flags, PageLRU, PageActive, PageUnevictable, PageSwapBacked, PageCompound, PageHead, PageTail, SetPage, ClearPage.
  cbn [flags set_flags page_zone]. rewrite !Z.setbit_eqb, !Z.clearbit_eqb by done.
  by rewrite (proj2 (Z.eqb_neq b PG_lru)), (proj2 (Z.eqb_neq b PG_active)), (proj2 (Z.eqb_neq b PG_unevictable)),
    (proj2 (Z.eqb_neq b PG_swapbacked)), (proj2 (Z.eqb_neq b PG_head)), (proj2 (Z.eqb_neq b PG_tail)), !andb_true_r by done.
Qed.

Lemma lru_flags_set b pg : other_flag b → lru_flags (SetPage b pg) = lru_flags pg.
Proof. intros. by apply lru_flags_flag. Qed.

Lemma lru_flags_clear b pg : other_flag b → lru_flags (ClearPage b pg) = lru_flags pg.
Proof. intros. by apply lru_flags_flag. Qed.

Ltac flags_solve := rewrite ?lru_flags_set, ?lru_flags_clear, ?lru_flags_set, ?lru_flags_clear by done; done.

Section shrink.
Context `{R : Reclaim} {L : ReclaimLaws R} (zn f : Z) (off : Z → Z → Z) (lv : head → list Z).
Notation none := (λ _ : Z, 0).
Notation iso := (iso zn f off none lv None).

Lemma iso_quiet k p pg s s' : iso k p pg s → 0 <= k → touches p s s' → pages s' !! p = Some pg → iso k p pg s'.
Proof.
  intros I Hk T Hp. eapply iso_touches; [exact I|done|done|exact T|done|done|by apply same_cache_moves|].
  exact (iso_ref zn f off none lv None _ _ _ _ I).
Qed.

Lemma iso_zone k p pg s : iso k p pg s → is_Some (zones s !! page_zone pg).
Proof. intros (V & Lo & _). destruct (inv_zone _ _ _ _ _ _ (vm_inv V) _ _ (lo_page _ _ _ Lo)) as [? _]. done. Qed.

Lemma iso_spaces_ok k p pg s : iso k p pg s → spaces_ok s.
Proof. intros (V & _ & _). apply V. Qed.

Lemma stat_other_touches p s z zd item d : zones s !! z = Some zd → uncounted item →
  touches p s (zset z (set_vm_stat (add_stat item d (vm_stat zd)) zd) s).
Proof.
  intros Hz Hi. split; try done. intros z'. simpl. destruct (decide (z = z')) as [<-|]; [|by rewrite lookup_insert_ne].
  rewrite lookup_insert_eq, Hz. simpl. unfold zone_lru. cbn [map lru_lock vm_stat set_vm_stat].
  rewrite !stat_add_ne by lia. done.
Qed.

Lemma iso_stat k p pg s item d (Q : () → lst → Prop) : iso k p pg s → 0 <= k → uncounted item →
  (∀ s', iso k p pg s' → Q () s') → runs (__mod_zone_page_state (page_zone pg) item d) s Q.
Proof.
  intros I Hk Hi HQ. destruct (iso_zone _ _ _ _ I) as [zd Hz]. eapply runs_ok; [by apply upd_zone_run|].
  apply HQ. eapply iso_quiet; [exact I|done|by apply stat_other_touches|exact (iso_at _ _ _ _ _ _ _ _ _ _ I)].
Qed.

(** ** Writing a page *)

Lemma set_error_touches p m s : touches p s (set_spaces (alter set_error m (spaces s)) s).
Proof.
  split; try done. intros m' Hm'. simpl. destruct (decide (m = m')) as [<-|].
  - rewrite lookup_alter_eq. by apply fmap_is_Some.
  - by rewrite lookup_alter_ne.
Qed.

Lemma handle_write_error_inv m p pg s : iso 1 p pg s →
  runs (handle_write_error m p) s (λ _ s', ∃ pg', iso 1 p pg' s' ∧ lru_flags pg' = lru_flags pg).
Proof.
  intros I. unfold handle_write_error. apply runs_bind. iflag I. intros s1 _ I1.
  apply runs_bind. eapply iso_page; [exact I1|]. apply runs_bind.
  apply (runs_mono _ _ (λ _ s2, iso 1 p (SetPage PG_locked pg) s2)).
  - apply runs_when; [|done]. intros _. apply runs_modify. eapply iso_quiet; [exact I1|done|apply set_error_touches|].
    exact (iso_at _ _ _ _ _ _ _ _ _ _ I1).
  - intros [] s2 I2. unfold unlock_page. iflag I2. intros s3 _ I3. eexists. split; [exact I3|]. flags_solve.
Qed.

Lemma space_at_run s m a : spaces s !! m = Some a → space_at m s = Ok (a, s).
Proof. intros E. unfold space_at. erewrite bind_Ok by done. by rewrite E. Qed.

(** A page that [pageout] finds clean is as it was. *)
Definition cleaned (pg : page) (r : pageout_t) (pg' : page) : Prop :=
  r = PAGE_CLEAN → PageLocked pg' = PageLocked pg ∧ same_cache pg pg'.

Lemma pageout_inv p pg m sc s : iso 1 p pg s → m = page_mapping pg →
  runs (pageout p m sc) s (λ r s', ∃ pg', iso 1 p pg' s' ∧ lru_flags pg' = lru_flags pg ∧ cleaned pg r pg').
Proof.
  intros I ->. unfold pageout. apply runs_bind. eapply iso_page; [exact I|].
  destruct (is_page_cache_freeable pg); cbn [negb]; [|apply runs_ret; by exists pg].
  destruct (page_mapping pg) as [m|] eqn:Hm.
  - destruct (iso_spaces_ok _ _ _ _ I) as [_ S]. destruct (S p pg ltac:(by eapply iso_at)) as [_ Hin]. destruct (Hin m Hm) as [a Ha].
    apply runs_bind. eapply runs_ok; [by apply space_at_run|].
    destruct (as_writepage a); cbn [negb]; [|apply runs_ret; by exists pg].
    destruct (may_write_to_queue m a sc); cbn [negb]; [|apply runs_ret; by exists pg].
    unfold clear_page_dirty_for_io. apply runs_bind, runs_bind. eapply iso_page; [exact I|].
    apply runs_bind. iflag I. intros s1 _ I1. apply runs_ret. set (pg1 := ClearPage PG_dirty pg) in *.
    assert (lru_flags pg1 = lru_flags pg) as F1 by (subst pg1; flags_solve).
    destruct (PageDirty pg).
    + apply runs_bind. iflag I1. intros s2 _ I2.
      apply runs_bind. eapply runs_mono; [eapply iso_works; [apply writepage_law|done|exact I2]|]. cbn beta.
      intros res s3 (pg3 & I3 & F3 & _).
      assert (lru_flags pg3 = lru_flags pg) as F3' by (rewrite F3, <- F1; flags_solve).
      apply runs_bind. apply (runs_mono _ _ (λ _ s4, ∃ pg4, iso 1 p pg4 s4 ∧ lru_flags pg4 = lru_flags pg)).
      { apply runs_when; [|intros; by exists pg3]. intros _. eapply runs_mono; [by eapply handle_write_error_inv|].
        cbn beta. intros [] s4 (pg4 & I4 & F4). exists pg4. split; [done|congruence]. }
      intros [] s4 (pg4 & I4 & F4). destruct (res =? AOP_WRITEPAGE_ACTIVATE).
      * apply runs_bind. iflag I4. intros s5 _ I5. apply runs_ret. eexists. split_and!; [exact I5| |done].
        rewrite <- F4. flags_solve.
      * apply runs_bind. eapply iso_page; [exact I4|]. apply runs_bind.
        apply (runs_mono _ _ (λ _ s5, ∃ pg5, iso 1 p pg5 s5 ∧ lru_flags pg5 = lru_flags pg)).
        { apply runs_when; [|intros; by exists pg4]. intros _. iflag I4. intros s5 _ I5. eexists. split; [exact I5|].
          rewrite <- F4. flags_solve. }
        intros [] s5 (pg5 & I5 & F5). apply runs_bind. replace (page_zone pg4) with (page_zone pg5) by (unfold lru_flags in *; congruence).
        eapply iso_stat; [exact I5|done|unfold NR_VMSCAN_WRITE; lia|]. intros s6 I6. apply runs_ret.
        by exists pg5.
    + apply runs_ret. exists pg1. split_and!; [done|done|]. intros _. subst pg1. split; [page_solve|]. split; page_solve.
  - destruct (page_has_private pg); [|apply runs_ret; by exists pg].
    apply runs_bind. eapply runs_mono; [eapply iso_works; [apply try_to_free_buffers_law| |exact I]|].
    { intros a pg' (? & _ & ?). split; [done|by apply same_cache_moves]. }
    cbn beta. intros ok s1 (pg1 & I1 & F1 & _ & El & Em). destruct ok.
    + apply runs_bind. iflag I1. intros s2 _ I2. apply runs_ret. eexists. split_and!; [exact I2|rewrite <- F1; flags_solve|].
      intros _. destruct Em as [Em1 Em2]. split; [rewrite <- El; page_solve|]. split; [rewrite <- Em1; page_solve|done].
    + apply runs_ret. by exists pg1.
Qed.

(** ** Removing a page from its cache *)

Lemma pset_pset p a b s : pset p a (pset p b s) = pset p a s.
Proof. unfold pset, set_pages. simpl. by rewrite insert_insert_eq. Qed.

Lemma pset_id p pg s : pages s !! p = Some pg → pset p pg s = s.
Proof. intros Hp. unfold pset, set_pages. rewrite insert_id by done. by destruct s. Qed.

Lemma pset_at p pg s : pages (pset p pg s) !! p = Some pg.
Proof. simpl. by rewrite lookup_insert_eq. Qed.

(** A page whose only references are the scan's and the cache's. *)
Lemma frozen_refs p pg s m : iso 1 p pg s → _count pg = 2 → page_mapping pg = Some m →
  refs none s p = 0 ∧ page_mapped pg = false.
Proof.
  intros I Hc Hm. pose proof (iso_ref zn f off none lv None _ _ _ _ I) as Hr.
  pose proof (refs_nonneg none ltac:(done) s p) as [Hn _]. unfold cref in Hr. rewrite Hm in Hr.
  split; [lia|]. apply Z.leb_gt. unfold page_mapcount in Hr. lia.
Qed.

(** The page, without its cache and without references, has no entry that maps it. *)
Lemma iso_uncached p pg pg' s m : iso 1 p pg s → _count pg = 2 → page_mapping pg = Some m →
  lru_flags pg' = lru_flags pg → page_mapping pg' = None → _mapcount pg' = _mapcount pg → _count pg' = 0 →
  iso 0 p pg' (pset p pg' s).
Proof.
  intros I Hc Hm Hf Hm' Hmc Hc'. destruct (frozen_refs _ _ _ _ I Hc Hm) as [Hr Hmap].
  pose proof (proj1 (proj2 I)) as Lo. pose proof (lo_lru _ _ _ Lo). injection Hf as ? ? _ _ _ ?.
  eapply iso_pset; [|exact I|done|done|done|done|congruence|split; [|by rewrite Hm']|]; [done| |].
  { unfold swap_ok, page_mapping in *. destruct (PageSwapCache pg'); [done|by intros]. }
  rewrite Hr, Hc'. unfold cref, page_mapcount. rewrite Hm', Hmc. apply Z.leb_gt in Hmap. lia.
Qed.

Lemma iso_idle p pg s (op : Z → M lst ()) : works_on op (λ _ _ pg _ pg', idle pg pg') → iso 0 p pg s → _count pg = 0 →
  runs (op p) s (λ _ s', ∃ pg', iso 0 p pg' s' ∧ _count pg' = 0).
Proof.
  intros Hop I H0. pose proof I as (_ & Lo & _). eapply runs_mono; [apply (Hop s p pg); apply Lo|]. cbn beta.
  intros [] s' (T & pg' & Hp' & Hf & (Hc & Hmc & Hm)). exists pg'. split; [|congruence].
  eapply iso_touches; [exact I|done|done|exact T|done|done|by apply same_cache_moves|].
  pose proof (iso_ref zn f off none lv None _ _ _ _ I) as Hr. unfold cref, page_mapcount in *. rewrite (same_cache_mapping _ _ Hm), Hmc, Hc. exact Hr.
Qed.

Lemma __remove_mapping_inv m p pg s : iso 1 p pg s → PageLocked pg = true → page_mapping pg = Some m →
  runs (__remove_mapping m p) s (λ r s',
    if r then ∃ pg', iso 0 p pg' s' ∧ _count pg' = 0 else iso 1 p pg s').
Proof.
  intros I Hl Hm. unfold __remove_mapping. pose proof (iso_at _ _ _ _ _ _ _ _ _ _ I) as Hp.
  apply runs_bind. eapply iso_page; [exact I|]. rewrite Hl, bool_decide_eq_true_2 by done. cbn [negb].
  apply runs_bind, runs_ret. apply runs_bind, runs_ret. unfold page_freeze_refs.
  apply runs_bind, runs_bind. eapply iso_page; [exact I|].
  destruct (Z.eqb_spec (_count pg) 2) as [Hc|]; [|apply runs_ret, runs_ret; done].
  apply runs_bind. eapply runs_ok; [by apply upd_page_run|]. apply runs_ret. cbn [negb].
  set (pg0 := set_count 0 pg). destruct (PageDirty pg).
  { unfold page_unfreeze_refs. apply runs_bind. eapply runs_ok; [apply upd_page_run, pset_at|]. apply runs_ret.
    rewrite pset_pset. replace (set_count 2 pg0) with pg by (subst pg0; destruct pg; simpl in *; by subst). by rewrite pset_id. }
  apply runs_bind. apply (runs_mono _ _ (λ _ s', ∃ pg', iso 0 p pg' s' ∧ _count pg' = 0)); [|intros [] s' ?; by apply runs_ret].
  destruct (PageSwapCache pg) eqn:Hsc.
  - apply runs_bind. unfold __delete_from_swap_cache. apply runs_bind. eapply runs_ok; [apply page_at_run, pset_at|].
    apply runs_bind. eapply runs_ok; [apply upd_page_run, pset_at|]. rewrite pset_pset. set (pg1 := ClearPage PG_swapcache pg0).
    destruct (iso_spaces_ok _ _ _ _ I) as [_ S]. destruct (S p pg Hp) as [Hsw _]. specialize (Hsw Hsc).
    assert (iso 0 p pg1 (pset p pg1 s)) as I1.
    { eapply iso_uncached; [exact I|done|exact Hm|subst pg1; flags_solve| |done|done].
      unfold page_mapping. subst pg1 pg0. page_solve. destruct (mapping pg) eqn:E; [done|done|by destruct (Hsw space)]. }
    change (page_zone pg0) with (page_zone pg1). eapply iso_stat; [exact I1|done|unfold NR_FILE_PAGES; lia|].
    intros s2 I2. by eapply iso_idle; [apply swapcache_free_law|..].
  - destruct (iso_spaces_ok _ _ _ _ I) as [_ S]. destruct (S p pg Hp) as [_ Hin]. destruct (Hin m Hm) as [a Ha].
    apply runs_bind. eapply runs_ok; [by apply space_at_run|].
    apply runs_bind. unfold __delete_from_page_cache. apply runs_bind. eapply runs_ok; [apply page_at_run, pset_at|].
    apply runs_bind. eapply runs_ok; [apply upd_page_run, pset_at|]. rewrite pset_pset. set (pg1 := set_mapping NoMap pg0).
    assert (PageSwapCache pg1 = false) as Hsc1 by done.
    assert (iso 0 p pg1 (pset p pg1 s)) as I1.
    { eapply iso_uncached; [exact I|done|exact Hm|done| |done|done]. unfold page_mapping. by rewrite Hsc1. }
    destruct (frozen_refs _ _ _ _ I Hc Hm) as [_ Hmap].
    change (page_zone pg0) with (page_zone pg1). apply runs_bind. eapply iso_stat; [exact I1|done|unfold NR_FILE_PAGES; lia|].
    intros s2 I2. apply runs_bind. apply (runs_mono _ _ (λ _ s3, iso 0 p pg1 s3)).
    { apply runs_when; [|done]. intros _. eapply iso_stat; [exact I2|done|unfold NR_SHMEM; lia|done]. }
    intros [] s3 I3. change (page_mapped pg0) with (page_mapped pg). rewrite Hmap. apply runs_ret.
    apply runs_when; [|intros _; by exists pg1]. intros _. by eapply iso_idle; [apply freepage_law|..].
Qed.

(** ** From a page to its label *)

(** What the code at a label finds. *)
Definition at_lab (l : label) (p : Z) (s : lst) : Prop :=
  match l with
  | L_free_it => ∃ pg, iso 0 p pg s ∧ _count pg = 0
  | L_done => False
  | _ => ∃ pg, iso 1 p pg s
  end.

Lemma free_or_keep_inv p pg m c s : iso 1 p pg s → PageLocked pg = true → m = page_mapping pg →
  runs (free_or_keep p m c) s (λ r s', at_lab r.1 p s').
Proof.
  intros I Hl ->. unfold free_or_keep.
  set (remove := match page_mapping pg with None => _ | Some m => _ end).
  assert (∀ s1 pg1, iso 1 p pg1 s1 → PageLocked pg1 = true → page_mapping pg1 = page_mapping pg →
    runs remove s1 (λ r s', at_lab r.1 p s')) as Hrem.
  { intros s1 pg1 I1 Hl1 Hm1. subst remove. destruct (page_mapping pg) as [m|]; [|apply runs_ret; by exists pg1].
    apply runs_bind. eapply runs_mono; [by eapply __remove_mapping_inv|]. cbn beta. intros [] s2 I2; cbn [negb].
    - destruct I2 as (pg2 & I2 & Hc2). apply runs_bind. iflag I2. intros s3 _ I3. apply runs_ret. eexists. by split.
    - apply runs_ret. by exists pg1. }
  apply runs_bind. eapply iso_page; [exact I|]. destruct (page_has_private pg); [|by eapply Hrem].
  apply runs_bind. eapply runs_mono; [eapply (iso_works zn f off lv None (λ p, try_to_release_page p _));
    [apply try_to_release_page_law| |exact I]|].
  { intros a pg' (? & _ & ?). split; [done|by apply same_cache_moves]. }
  cbn beta. intros ok s1 (pg1 & I1 & F1 & _ & El & Em%same_cache_mapping). destruct ok; cbn [negb]; [|apply runs_ret; by exists pg1].
  apply runs_bind. eapply iso_page; [exact I1|].
  assert (runs remove s1 (λ r s', at_lab r.1 p s')) as Hrem1 by (eapply Hrem; [exact I1|congruence|done]).
  destruct (page_mapping pg) as [m|]; [done|]. destruct (Z.eqb_spec (_count pg1) 1) as [Hc|]; [|done].
  unfold unlock_page. apply runs_bind. iflag I1. intros s2 _ I2. set (pg2 := ClearPage PG_locked pg1) in *.
  unfold put_page_testzero. apply runs_bind, runs_bind. eapply iso_page; [exact I2|].
  apply runs_bind. eapply runs_ok; [apply upd_page_run; by eapply iso_at|]. apply runs_ret.
  assert (iso 0 p (set_count (_count pg2 - 1) pg2) (pset p (set_count (_count pg2 - 1) pg2) s2)) as I3.
  { pose proof (iso_ref zn f off none lv None _ _ _ _ I2) as Hr. destruct (iso_spaces_ok _ _ _ _ I2) as [_ S].
    eapply iso_pset; [|exact I2|done|done|done|done| | |]; [done|apply I2|eapply shape_cached; [done| |apply (S p pg2); by eapply iso_at]|].
    - done.
    - change (cref (set_count _ pg2)) with (cref pg2). cbn [_count set_count]. lia. }
  assert (_count pg2 = 1) as Hc2 by exact Hc.
  assert (_count pg2 - 1 =? 0 = true) as -> by (apply Z.eqb_eq; lia).
  apply runs_ret. eexists. split; [exact I3|]. cbn [_count set_count]. lia.
Qed.

Lemma trylock_inv p pg s : iso 1 p pg s →
  runs (trylock_page p) s (λ got s', iso 1 p (SetPage PG_locked pg) s' ∧ got = negb (PageLocked pg)).
Proof.
  intros I. unfold trylock_page. apply runs_bind. eapply iso_page; [exact I|]. apply runs_bind. iflag I. intros s1 _ I1.
  by apply runs_ret.
Qed.

Lemma write_dirty_inv p pg m refs fs prio c s : iso 1 p pg s → PageLocked pg = true → m = page_mapping pg →
  runs (write_dirty p m refs fs prio c) s (λ r s', at_lab r.1 p s').
Proof.
  intros I Hl ->. unfold write_dirty. apply runs_bind. eapply iso_page; [exact I|].
  destruct (PageDirty pg); [|by eapply free_or_keep_inv]. cbn zeta.
  destruct (page_is_file_cache pg && _).
  { apply runs_bind. eapply iso_stat; [exact I|done|unfold NR_VMSCAN_IMMEDIATE; lia|]. intros s1 I1.
    apply runs_bind. iflag I1. intros s2 _ I2. apply runs_ret. by eexists. }
  case_bool_decide; [apply runs_ret; by exists pg|].
  destruct fs; cbn [negb]; [|apply runs_ret; by exists pg].
  destruct (may_writepage _); cbn [negb]; [|apply runs_ret; by exists pg].
  apply runs_bind. eapply runs_mono; [by eapply pageout_inv|]. cbn beta. intros out s1 (pg1 & I1 & F1 & C1).
  destruct out; [apply runs_ret; by exists pg1..| |].
  - apply runs_bind. eapply iso_page; [exact I1|]. destruct (PageWriteback pg1); [apply runs_ret; by exists pg1|].
    destruct (PageDirty pg1); [apply runs_ret; by exists pg1|].
    apply runs_bind. eapply runs_mono; [by eapply trylock_inv|]. cbn beta. intros got s2 [I2 _].
    destruct got; cbn [negb]; [|apply runs_ret; by eexists].
    apply runs_bind. eapply iso_page; [exact I2|]. destruct (_ || _); [apply runs_ret; by eexists|].
    eapply free_or_keep_inv; [exact I2|page_solve|done].
  - destruct (C1 eq_refl) as [El Em%same_cache_mapping]. eapply free_or_keep_inv; [exact I1|congruence|done].
Qed.

Lemma page_referenced_rmap_inv p pg mc s : iso 1 p pg s → runs (page_referenced_rmap p mc) s (λ _ s', iso 1 p pg s').
Proof.
  intros I. unfold page_referenced_rmap. apply runs_bind, runs_gets. destruct (page_referenced_loop _ _ _) as [[r fl] l'].
  apply runs_bind, runs_modify, runs_ret. eapply iso_quiet; [exact I|done|done|exact (iso_at _ _ _ _ _ _ _ _ _ _ I)].
Qed.

(** With the page lock held [page_referenced] leaves the page as it is. *)
Lemma page_referenced_inv p pg is_locked s : iso 1 p pg s → (is_locked = true → PageLocked pg = true) →
  runs (page_referenced p is_locked) s (λ _ s', ∃ pg', iso 1 p pg' s' ∧ lru_flags pg' = lru_flags pg ∧
    (is_locked = true → pg' = pg)).
Proof.
  intros I Hl. unfold page_referenced. apply runs_bind. eapply iso_page; [exact I|].
  assert (∀ s1 mc, iso 1 p pg s1 → runs (page_referenced_rmap p mc) s1 (λ _ s', ∃ pg', iso 1 p pg' s' ∧
    lru_flags pg' = lru_flags pg ∧ (is_locked = true → pg' = pg))) as Hrmap.
  { intros s1 mc I1. eapply runs_mono; [by eapply page_referenced_rmap_inv|]. cbn beta. intros _ s2 I2. by exists pg. }
  destruct (page_mapped pg), (mapping pg) as [|av|m]; try (apply runs_ret; by exists pg); [by apply Hrmap|].
  destruct is_locked.
  { rewrite Hl by done. apply runs_bind, runs_ret. by apply Hrmap. }
  apply runs_bind. eapply runs_mono; [by eapply trylock_inv|]. cbn beta. intros got s1 [I1 _].
  destruct got; cbn [negb]; [|apply runs_ret; eexists; split_and!; [exact I1|flags_solve|done]].
  apply runs_bind. eapply runs_mono; [by eapply page_referenced_rmap_inv|]. cbn beta. intros r s2 I2.
  unfold unlock_page. apply runs_bind. iflag I2. intros s3 _ I3. apply runs_ret. eexists. split_and!; [exact I3|flags_solve|done].
Qed.

Lemma page_check_references_inv p pg sc s : iso 1 p pg s → PageLocked pg = true →
  runs (page_check_references p sc) s (λ _ s', ∃ pg', iso 1 p pg' s' ∧ PageLocked pg' = true).
Proof.
  intros I Hl. unfold page_check_references. apply runs_bind. eapply runs_mono; [by eapply page_referenced_inv|]. cbn beta.
  intros [n vf] s1 (pg1 & I1 & _ & Heq). rewrite (Heq eq_refl) in I1. cbn [fst snd].
  apply runs_bind. eapply iso_page; [exact I1|]. apply runs_bind. iflag I1. intros s2 _ I2.
  set (pg2 := set_PG_referenced _ pg) in *. assert (PageLocked pg2 = true) as Hl2 by exact Hl.
  destruct (has (reclaim_mode sc) _); [apply runs_ret; by exists pg2|].
  destruct (has vf VM_LOCKED); [apply runs_ret; by exists pg2|]. destruct (n =? 0); cbn [negb].
  - destruct (_ && _); apply runs_ret; by exists pg2.
  - destruct (PageSwapBacked pg); [apply runs_ret; by exists pg2|]. apply runs_bind. iflag I2. intros s3 _ I3.
    repeat case_match; apply runs_ret; by eexists.
Qed.

Lemma unmap_page_inv p pg refs fs prio c s : iso 1 p pg s → PageLocked pg = true →
  runs (unmap_page p refs fs prio c) s (λ r s', at_lab r.1 p s').
Proof.
  intros I Hl. unfold unmap_page.
  assert (∀ b s1 pg1, iso 1 p pg1 s1 → PageLocked pg1 = true →
    runs (unmap_mapped p refs prio c b) s1 (λ r s', at_lab r.1 p s')) as Hun.
  { intros b s1 pg1 I1 Hl1. unfold unmap_mapped. apply runs_bind. eapply iso_page; [exact I1|].
    destruct (_ && _); [|by eapply write_dirty_inv].
    apply runs_bind. eapply runs_mono; [eapply iso_works; [apply try_to_unmap_law| |exact I1]|].
    { intros a pg' (? & _ & ?). split; [done|by apply same_cache_moves]. }
    cbn beta. intros r s2 (pg2 & I2 & _ & _ & El & Em%same_cache_mapping).
    destruct (r =? SWAP_FAIL); [apply runs_ret; by exists pg2|]. destruct (r =? SWAP_AGAIN); [apply runs_ret; by exists pg2|].
    destruct (r =? SWAP_MLOCK); [apply runs_ret; by exists pg2|]. eapply write_dirty_inv; [exact I2|congruence|done]. }
  apply runs_bind. eapply iso_page; [exact I|]. destruct (_ && _); [|by eapply Hun].
  destruct (has _ _); cbn [negb]; [|apply runs_ret; by exists pg].
  apply runs_bind. eapply runs_mono; [eapply iso_works; [apply add_to_swap_law| |exact I]|].
  { intros a pg' (? & ? & _). done. }
  cbn beta. intros ok s1 (pg1 & I1 & _ & _ & _ & El). destruct ok; cbn [negb]; [|apply runs_ret; by exists pg1].
  eapply Hun; [exact I1|congruence].
Qed.

Lemma reclaim_page_inv p pg fs prio c s : iso 1 p pg s → PageLocked pg = true →
  runs (reclaim_page p fs prio c) s (λ r s', at_lab r.1 p s').
Proof.
  intros I Hl. unfold reclaim_page. apply runs_bind. eapply runs_mono; [by eapply page_check_references_inv|]. cbn beta.
  intros r s1 (pg1 & I1 & Hl1). destruct r; [by eapply unmap_page_inv..|apply runs_ret; by exists pg1|apply runs_ret; by exists pg1].
Qed.

Lemma shrink_page_inv p pg prio c s : iso 1 p pg s → runs (shrink_page p prio c) s (λ r s', at_lab r.1 p s').
Proof.
  intros I. unfold shrink_page. apply runs_bind. eapply runs_mono; [by eapply trylock_inv|]. cbn beta. intros got s1 [I1 _].
  set (pg1 := SetPage PG_locked pg) in *. assert (PageLocked pg1 = true) as Hl1 by (subst pg1; page_solve).
  destruct got; cbn [negb]; [|apply runs_ret; by exists pg1]. cbn zeta.
  apply runs_bind. eapply iso_page; [exact I1|]. apply runs_bind.
  eapply runs_ok; [apply (page_evictable_run _ p); [by eapply iso_spaces_ok|by eapply iso_at]|].
  destruct (evictable s1 pg1); cbn [negb]; [|apply runs_ret; by exists pg1].
  destruct (_ && page_mapped pg1); [apply runs_ret; by exists pg1|].
  destruct (PageWriteback pg1); [|by eapply reclaim_page_inv]. destruct (_ && _).
  - apply runs_bind. eapply runs_mono; [eapply iso_works; [apply wait_on_page_writeback_law| |exact I1]|].
    { intros a pg' (? & _ & ?). split; [done|by apply same_cache_moves]. }
    cbn beta. intros [] s2 (pg2 & I2 & _ & _ & El & _). eapply reclaim_page_inv; [exact I2|congruence].
  - unfold unlock_page. apply runs_bind. iflag I1. intros s2 _ I2. apply runs_ret. by eexists.
Qed.
End shrink.

(** ** The loop over the list *)

Section loop.
Context `{R : Reclaim} {L : ReclaimLaws R} (zn f : Z) (off : Z → Z → Z).
Notation none := (λ _ : Z, 0).
Notation scan lv := (vm zn f None off none lv None).
Notation iso lv := (iso zn f off none lv None).

(** The local lists but for those of [shrink_page_list]. *)
Definition but_spl (lv lv' : head → list Z) : Prop := ∀ h, h ≠ spl_ret_pages → h ≠ spl_free_pages → lv' h = lv h.

#[local] Instance but_spl_preorder : PreOrder but_spl.
Proof. split; [done|]. intros l1 l2 l3 A B h ? ?. by rewrite B, A. Qed.

Lemma but_spl_set h l lv : h = spl_ret_pages ∨ h = spl_free_pages → but_spl lv (lv_set h l lv).
Proof. intros Hh h' ? ?. apply lv_set_ne. intros <-. by destruct Hh. Qed.

Lemma keep_inv lv p pg (c : spl) s : iso lv 1 p pg s →
  runs (list_add p spl_ret_pages;; mret c) s (λ _ s', ∃ lv', scan lv' s' ∧ but_spl lv lv').
Proof.
  intros I. apply runs_bind. eapply iso_add; [|exact I|by split; intros; destruct_or?|]; [done|].
  intros s1 V1 _. apply runs_ret. eexists. split; [exact V1|]. apply but_spl_set. by left.
Qed.

Lemma free_swap_inv lv (b : bool) p pg s : iso lv 1 p pg s →
  runs (when b (try_to_free_swap p)) s (λ _ s', ∃ pg', iso lv 1 p pg' s').
Proof.
  intros I. apply runs_when; [|intros; by exists pg]. intros _.
  eapply runs_mono; [eapply iso_works; [apply try_to_free_swap_law|done|exact I]|]. cbn beta. intros [] s1 (pg1 & ? & _). by exists pg1.
Qed.

Lemma at_label_inv lv p l c s : lv release_free_list = [] → at_lab zn f off lv l p s →
  runs (at_label p l c) s (λ _ s', ∃ lv', scan lv' s' ∧ but_spl lv lv').
Proof.
  intros Hrel Hl. unfold at_label. destruct l; cbn [at_lab] in Hl.
  - destruct Hl as (pg & I & Hc). apply runs_bind. eapply iso_doom; [|exact I|done|]; [done|]. intros s1 V1 _.
    apply runs_ret. eexists. split; [exact V1|]. apply but_spl_set. by right.
  - destruct Hl as (pg & I). apply runs_bind. eapply iso_page; [exact I|].
    apply runs_bind. eapply runs_mono; [by eapply free_swap_inv|]. cbn beta. intros [] s1 (pg1 & I1).
    unfold unlock_page. apply runs_bind. iflag I1. intros s2 _ I2.
    apply runs_bind. eapply runs_mono; [by eapply (putback_lru_page_inv zn f off none lv)|]. cbn beta. intros [] s3 V3.
    apply runs_ret. by exists lv.
  - destruct Hl as (pg & I). apply runs_bind. eapply iso_page; [exact I|]. apply runs_bind, runs_gets.
    apply runs_bind. eapply runs_mono; [by eapply free_swap_inv|]. cbn beta. intros [] s1 (pg1 & I1).
    apply runs_bind. iflag I1. intros s2 _ I2. unfold unlock_page. apply runs_bind. iflag I2. intros s3 _ I3.
    by eapply keep_inv.
  - destruct Hl as (pg & I). unfold unlock_page. apply runs_bind. iflag I. intros s1 _ I1. by eapply keep_inv.
  - destruct Hl as (pg & I). by eapply keep_inv.
  - destruct Hl as (pg & I). by eapply keep_inv.
  - done.
Qed.

Lemma get_list_run h s : get_list h s = Ok (list_at s h, s).
Proof. done. Qed.

Lemma shrink_page_loop_inv n k prio : ∀ lv c s,
  lv release_free_list = [] → held n ≠ spl_ret_pages → length (lv (held n)) = k → scan lv s →
  runs (shrink_page_loop k (held n) prio c) s (λ _ s', ∃ lv', scan lv' s' ∧ but_spl (lv_set (held n) [] lv) lv').
Proof.
  induction k as [|k IH]; intros lv c s Hrel Hn Hk V.
  - apply nil_length_inv in Hk. cbn [shrink_page_loop]. apply runs_bind. eapply runs_ok; [apply get_list_run|].
    rewrite (vm_local V), Hk by done. cbn [last]. apply runs_ret. exists lv. split; [done|]. intros h ? ?. unfold lv_set.
    by destruct (decide (held n = h)) as [<-|].
  - cbn [shrink_page_loop]. apply runs_bind. eapply runs_ok; [apply get_list_run|]. rewrite (vm_local V) by done.
    destruct (last (lv (held n))) as [p|] eqn:Hlast; [|apply last_None in Hlast; by rewrite Hlast in Hk].
    apply runs_bind. eapply take_last; [|exact V|exact Hlast|]; [done|]. intros s1 pg I1 _ _.
    set (lv1 := lv_set (held n) (removelast (lv (held n))) lv) in *.
    apply runs_bind. eapply runs_mono; [by eapply shrink_page_inv|]. cbn beta. intros [lb c1] s2 H2. cbn [fst snd] in *.
    apply runs_bind. eapply runs_mono; [eapply at_label_inv; [|exact H2]|]; [done|]. cbn beta. intros c2 s3 (lv3 & V3 & B3).
    assert (lv3 (held n) = removelast (lv (held n))) as E3 by (rewrite B3 by done; apply lv_set_eq).
    eapply runs_mono; [apply (IH lv3 c2 s3); [by rewrite B3|done| |done]|].
    + rewrite E3. apply last_Some in Hlast as [l' El]. rewrite El in *. rewrite removelast_last. rewrite length_app in Hk. simpl in Hk. lia.
    + cbn beta. intros c4 s4 (lv4 & V4 & B4). exists lv4. split; [done|]. intros h ? ?. rewrite B4 by done. unfold lv_set.
      destruct (decide (held n = h)); [done|]. rewrite B3 by done. by apply lv_set_ne.
Qed.

(** The lists that the functions of a scan declare are empty outside of them. *)
Definition quiet_lists (lv : head → list Z) : Prop :=
  lv release_free_list = [] ∧ lv spl_ret_pages = [] ∧ lv spl_free_pages = [].

Lemma shrink_page_list_inv n prio sc lv s :
  quiet_lists lv → held n ≠ spl_ret_pages → (∀ l, list_wants f (held n) l) → scan lv s →
  runs (shrink_page_list (held n) zn prio sc) s (λ _ s', ∃ l, scan (lv_set (held n) l lv) s').
Proof.
  intros (Hrel & Hret & Hfree) Hn Hw V. unfold shrink_page_list.
  apply runs_bind. eapply v_init; [exact V|done|done|]. intros s1 _ V1.
  apply runs_bind. eapply v_init; [exact V1|done|done|]. intros s2 _ V2.
  apply runs_bind, runs_gets. rewrite (vm_local V2) by done.
  apply runs_bind. eapply runs_mono; [by eapply shrink_page_loop_inv|]. cbn beta. intros c s3 (lv3 & V3 & B3).
  apply runs_bind. apply (runs_mono _ _ (λ _ s4, scan lv3 s4)).
  { apply runs_when; [|done]. intros _. by eapply v_upd_zone. }
  intros [] s4 V4. apply runs_bind. eapply v_free_list; [exact V4|]. intros s5 _ _ V5.
  apply runs_bind. eapply (v_splice _ _ _ _ _ _ _ 10 n); [exact V5|intros <-; by apply Hn| |done|].
  { rewrite lv_set_ne by done. rewrite B3 by done. apply lv_set_eq. }
  intros s6 _ V6. apply runs_bind. eapply v_events; [exact V6|]. intros s7 _ V7. apply runs_ret.
  eexists. eapply vm_ext; [exact V7|done|done|]. intros h _. unfold lv_set.
  destruct (decide (held n = h)) as [<-|]; [reflexivity|].
  destruct (decide (held 10 = h)) as [<-|]; [by rewrite <- Hret|].
  destruct (decide (doomed 10 = h)) as [<-|]; [by rewrite <- Hfree|].
  rewrite B3 by (unfold spl_ret_pages, spl_free_pages; congruence). unfold lv_set. by destruct (decide (held n = h)).
Qed.
End loop.
