(* ===== verification/VmscanIsolate.v ===== *)
(** * Isolating pages

    [isolate_lru_pages] against the invariant: it ends within the number of pages it may
    scan, never meets a page it does not expect, and the pages it took are exactly those
    by which the counters of the zone are behind. *)

From S2P Require Import Prelude Hoare Lru LruInv LruOps LruApi Rmap Vmscan VmscanInv VmscanPage VmscanShrink.

(** The number of pages of [ps] whose flags select list [l]. *)
Definition selects (s : lst) (l p : Z) : bool := bool_decide (page_lru <$> pages s !! p = Some l).

Definition cnt (s : lst) (l : Z) (ps : list Z) : Z := foldr (λ p n, Z.b2z (selects s l p) + n) 0 ps.

Lemma cnt_ext s s' l ps : (∀ p, p ∈ ps → page_lru <$> pages s' !! p = page_lru <$> pages s !! p) → cnt s' l ps = cnt s l ps.
Proof.
  induction ps as [|p ps IH]; [done|]. intros H. simpl. rewrite IH by (intros; apply H; by right).
  unfold selects. by rewrite H by left.
Qed.

(** The counters of zone [zn] are ahead of the lists by the pages of [ps]. *)
Definition off_taken (zn : Z) (s : lst) (ps : list Z) (off : Z → Z → Z) : Z → Z → Z :=
  λ z l, off z l + (if bool_decide (z = zn) then cnt s l ps else 0).

(** The same pages are there. *)
Definition same_pages (s s' : lst) : Prop := ∀ q, is_Some (pages s !! q) ↔ is_Some (pages s' !! q).

#[global] Instance same_pages_preorder : PreOrder same_pages.
Proof. split; [done|]. intros s1 s2 s3 A B q. by rewrite (A q). Qed.

Lemma same_pages_pset p pg pg' s : pages s !! p = Some pg → same_pages s (pset p pg' s).
Proof.
  intros Hp q. simpl. destruct (decide (p = q)) as [<-|]; [|by rewrite lookup_insert_ne].
  rewrite lookup_insert_eq, Hp. split; by eexists.
Qed.

Lemma same_pages_eq s s' : pages s' = pages s → same_pages s s'.
Proof. intros E q. by rewrite E. Qed.

Section isolate.
Context `{R : Reclaim} (zn f : Z) (off : Z → Z → Z) (lv : head → list Z) (n : Z).
Notation none := (λ _ : Z, 0).
Notation dst := (held n).

(** The pages [ps] were taken; none of them is unevictable. *)
Record taken (ps : list Z) (s : lst) : Prop := Taken {
  taken_vm : vm zn f None (off_taken zn s ps off) none (lv_set dst ps lv) (Some zn) s;
  taken_evictable p pg : p ∈ ps → pages s !! p = Some pg → PageUnevictable pg = false;
}.

(** The page was isolated but is on its list still. *)
Definition isolated (ps : list Z) (p : Z) (pg : page) (s : lst) : Prop :=
  vm zn f (Some (Hand p pg 1 (Some (page_zone pg, page_lru pg)))) (off_taken zn s ps off) none (lv_set dst ps lv) (Some zn) s ∧
  PageCompound pg = false ∧ PageLRU pg = false ∧ p ∉ ps ∧
  ∀ q pgq, q ∈ p :: ps → pages s !! q = Some pgq → PageUnevictable pgq = false.

Lemma cnt_pset ps p pg s l : p ∉ ps → cnt (pset p pg s) l ps = cnt s l ps.
Proof.
  intros Hp. apply cnt_ext. intros q Hq. simpl. rewrite lookup_insert_ne; [done|]. by intros ->.
Qed.

Lemma taken_not_lru ps s p pg : taken ps s → p ∈ ps → pages s !! p = Some pg → PageLRU pg = false.
Proof.
  intros [V _] Hp Hpg. destruct (v_take_held _ _ _ _ _ _ _ p n V) as (pg' & ? & _ & HL & _); [by rewrite lv_set_eq|]. congruence.
Qed.

Lemma isolate_blocks_run s p pg mode : spaces_ok s → pages s !! p = Some pg → ∃ b, isolate_blocks pg mode s = Ok (b, s).
Proof.
  intros [_ S] Hp. unfold isolate_blocks. destruct (has mode _); [|by eexists]. destruct (PageWriteback pg); [by eexists|].
  destruct (PageDirty pg); [|by eexists]. destruct (has mode ISOLATE_CLEAN); [by eexists|].
  destruct (page_mapping pg) as [m|] eqn:Hm; [|by eexists]. destruct (proj2 (S p pg Hp) m Hm) as [a Ha].
  eexists. erewrite bind_Ok by (by apply space_at_run). done.
Qed.

(** The modes accept a page of the list that is scanned. *)
Definition accepts (mode : Z) (active : bool) : Prop :=
  (Z.land mode (Z.lor ISOLATE_ACTIVE ISOLATE_INACTIVE) =? Z.lor ISOLATE_ACTIVE ISOLATE_INACTIVE) = true ∨
  has mode ISOLATE_ACTIVE = active.

Lemma __isolate_lru_page_inv ps s p pg mode file : taken ps s → pages s !! p = Some pg →
  runs (__isolate_lru_page p mode file) s (λ r s',
    (r = 0 ∧ PageLRU pg = true ∧ PageUnevictable pg = false ∧ same_pages s s' ∧
       ∃ pg', isolated ps p pg' s' ∧ page_zone pg' = page_zone pg ∧ page_lru pg' = page_lru pg) ∨
    (r ≠ 0 ∧ s' = s ∧ (PageLRU pg = true → accepts mode (PageActive pg) → page_is_file_cache pg = file →
       PageUnevictable pg = false → r = - EBUSY))).
Proof.
  intros T Hp. pose proof (taken_vm _ _ T) as V. unfold __isolate_lru_page. apply runs_bind. eapply runs_ok; [by apply page_at_run|].
  destruct (PageLRU pg) eqn:HL; cbn [negb]; [|apply runs_ret; right; done]. cbn zeta.
  destruct (negb _ && negb (Bool.eqb (PageActive pg) _)) eqn:E1.
  { apply runs_ret. right. split_and!; [done|done|]. intros _ [Ha|Ha] _ _; [by rewrite Ha in E1|].
    rewrite Ha, eqb_reflx, andb_false_r in E1. done. }
  destruct (negb _ && negb (Bool.eqb (page_is_file_cache pg) _)) eqn:E2.
  { apply runs_ret. right. split_and!; [done|done|]. intros _ _ Hf _. rewrite Hf, eqb_reflx, andb_false_r in E2. done. }
  destruct (PageUnevictable pg) eqn:HU; [apply runs_ret; right; done|].
  destruct (isolate_blocks_run s p pg mode (vm_spaces _ _ _ _ _ _ _ _ V) Hp) as [b Hb].
  apply runs_bind. eapply runs_ok; [exact Hb|]. destruct b; [apply runs_ret; by right|].
  destruct (_ && page_mapped pg); [apply runs_ret; by right|].
  pose proof (get_page_unless_zero_run s p pg Hp) as Hget.
  destruct (Z.eqb_spec (_count pg) 0) as [H0|H0]; apply runs_bind; (eapply runs_ok; [exact Hget|]); [apply runs_ret; by right|].
  destruct (v_take_lru _ _ _ _ _ _ _ _ _ V Hp HL) as [Hc V0]. set (pg1 := set_count (_count pg + 1) pg) in *.
  assert (p ∉ ps) as Hn by (intros Hin; by rewrite (taken_not_lru ps s p pg T Hin Hp) in HL).
  assert (vm zn f (Some (Hand p pg1 1 (Some (page_zone pg, page_lru pg)))) (off_taken zn s ps off) none (lv_set dst ps lv)
    (Some zn) (pset p pg1 s)) as V1.
  { pose proof (inv_ref _ _ _ _ _ _ (vm_inv V) _ _ Hp) as Hr. rewrite (vrefs_at _ _ _ _ Hp) in Hr.
    eapply (v_set zn f _ none _ _ s p pg 0 _ pg1 1); [exact V0|done|done| | |].
    - eapply (shape_cached s s pg); [done|done|]. exact (proj2 (vm_spaces _ _ _ _ _ _ _ _ V) p pg Hp).
    - change (cref pg1) with (cref pg). subst pg1. cbn [_count set_count]. lia.
    - change (cref pg1) with (cref pg). subst pg1. cbn [_count set_count]. lia. }
  apply runs_bind. eapply v_flag; [exact V1|shape_solve|done|]. intros s2 E2' V2. apply runs_ret. left.
  assert (page_lru (ClearPage PG_lru pg1) = page_lru pg) as El by (subst pg1; page_solve).
  split_and!; [done|done|done| |].
  - subst s2. etrans; [by eapply same_pages_pset|]. eapply same_pages_pset. apply pset_at.
  - exists (ClearPage PG_lru pg1). split_and!; [|done|done]. unfold isolated. rewrite El.
    split_and!; [|subst pg1; page_solve|subst pg1; page_solve|done|].
    2: { intros q pgq Hq. subst s2. simpl. rewrite insert_insert_eq. destruct (decide (p = q)) as [<-|].
      - rewrite lookup_insert_eq. intros [= <-]. subst pg1. page_solve.
      - rewrite lookup_insert_ne by done. apply (taken_evictable _ _ T). by apply elem_of_cons in Hq as [->|]. }
    eapply vm_ext; [exact V2| |done|done]. intros z l _ _. unfold off_taken. subst s2. by rewrite !cnt_pset.
Qed.

Lemma move_taken ps p pg s (Q : () → lst → Prop) :
  isolated ps p pg s → page_zone pg = zn → list_wants f dst (page_lru pg) →
  (∀ s', taken (p :: ps) s' → pages s' = pages s → Q () s') → runs (list_move p dst) s Q.
Proof.
  intros (V & Hc & HL & Hn & He) Hz Hw HQ. destruct (vm_zone _ _ _ _ _ _ _ _ V) as [_ Hz0].
  destruct (inv_hand _ _ _ _ _ _ (vm_inv V) _ eq_refl) as (Hp & Hr & _). simpl in Hp, Hr. rewrite Hz in V.
  unfold list_move. apply runs_bind. eapply v_del; [exact V|]. intros s1 E1 V1.
  eapply v_add; [exact V1|]. intros s2 E2 V2. apply HQ; [|by subst]. split; [|by subst].
  eapply vm_ext; [eapply v_drop; [exact V2|done|]| |done|].
  - split; [|done]. split; [done|]. right; left. split; [done|]. split; [done|]. subst s2 s1. exact Hr.
  - intros z l Hz' _. unfold off_taken. simpl. assert (cnt s2 l ps = cnt s l ps) as -> by (by subst).
    assert (selects s2 l p = bool_decide (page_lru pg = l)) as ->.
    { unfold selects. subst s2 s1. cbn [pages put_list del set_lists]. rewrite Hp. simpl. apply bool_decide_ext. naive_solver. }
    unfold off_add. cbn [fst snd held]. repeat case_bool_decide; simplify_eq/=; lia.
  - intros h Hh. unfold lv_set at 1. destruct (decide (dst = h)) as [<-|].
    + rewrite !lv_set_eq, lv_set_ne by (intros E; apply (f_equal fst) in E; simpl in E; lia). by rewrite lv_set_eq.
    + rewrite lv_set_ne by (intros <-; simpl in Hh; lia). by rewrite !lv_set_ne.
Qed.

(** A page that cannot be taken goes to the head of its list. *)
Lemma move_busy ps p pg l s (Q : () → lst → Prop) :
  taken ps s → pages s !! p = Some pg → PageLRU pg = true → page_zone pg = zn → page_lru pg = l →
  (∀ s', taken ps s' → pages s' = pages s → Q () s') → runs (list_move p (zn, l)) s Q.
Proof.
  intros [V He] Hp HL Hz Hl HQ. destruct (vm_zone _ _ _ _ _ _ _ _ V) as [_ Hz0].
  destruct (v_take_lru _ _ _ _ _ _ _ _ _ V Hp HL) as [Hc V0]. rewrite Hz, Hl in V0.
  unfold list_move. apply runs_bind. eapply v_del; [exact V0|]. intros s1 E1 V1.
  eapply v_add; [exact V1|]. intros s2 E2 V2. apply HQ; [|by subst]. split; [|by subst].
  eapply vm_ext; [eapply v_drop; [exact V2|done|]| |done|].
  - split; [|intros Hbad; simpl in Hbad; lia]. rewrite <- Hl, <- Hz. apply on_lru_list; [done|done|by rewrite Hz].
  - intros z l' _ _. unfold off_taken. assert (cnt s2 l' ps = cnt s l' ps) as -> by (by subst).
    unfold off_add. cbn [fst snd]. repeat case_bool_decide; simplify_eq/=; lia.
  - intros h Hh. by rewrite !(lv_set_ne (zn, l)) by (intros <-; simpl in Hh; lia).
Qed.

(** A block of pages that starts at a multiple of its size has no holes. *)
Definition memmap (order : Z) (s : lst) : Prop :=
  ∀ p i, is_Some (pages s !! p) →
    Z.land p (Z.lnot (Z.shiftl 1 order - 1)) <= i < Z.land p (Z.lnot (Z.shiftl 1 order - 1)) + Z.shiftl 1 order →
    is_Some (pages s !! i).

Lemma same_memmap o s s' : same_pages s s' → memmap o s → memmap o s'.
Proof. intros E M p i Hp Hi. apply E. apply (M p i); [by apply E|done]. Qed.

(** What a loop that takes pages leaves. *)
Definition more (ps : list Z) (s : lst) (k : Z) (s' : lst) : Prop :=
  ∃ ps', taken (ps' ++ ps) s' ∧ Z.of_nat (length ps') = k ∧ same_pages s s'.

Lemma lumpy_loop_inv mode file page_pfn end_pfn (Hw : ∀ l, list_wants f dst l) fuel : ∀ ps s pfn k0,
  taken ps s → end_pfn - pfn <= Z.of_nat fuel → (∀ i, pfn <= i < end_pfn → is_Some (pages s !! i)) →
  runs (lumpy_loop fuel pfn end_pfn page_pfn zn dst mode file k0) s (λ k s', more ps s (k - k0) s').
Proof.
  assert (∀ ps s k0, taken ps s → more ps s (k0 - k0) s) as Hdone.
  { intros ps s k0 V. exists []. split_and!; [done|simpl; lia|done]. }
  induction fuel as [|fuel IH]; intros ps s pfn k0 V Hfuel Hpages; cbn [lumpy_loop].
  { destruct (Z.leb_spec end_pfn pfn); [|lia]. apply runs_ret. by apply Hdone. }
  destruct (Z.leb_spec end_pfn pfn) as [|Hlt]; [apply runs_ret; by apply Hdone|].
  assert (∀ s1, pages s1 = pages s → ∀ i, pfn + 1 <= i < end_pfn → is_Some (pages s1 !! i)) as Hnext.
  { intros s1 -> i Hi. apply Hpages. lia. }
  destruct (pfn =? page_pfn); [apply IH; [done|lia|by apply Hnext]|].
  destruct (Hpages pfn ltac:(lia)) as [pg Hp]. apply runs_bind. eapply runs_ok; [by apply page_at_run|].
  destruct (Z.eqb_spec (page_zone pg) zn) as [Hz|]; cbn [negb]; [|apply runs_ret; by apply Hdone].
  apply runs_bind, runs_gets. destruct (_ && _ && _); [apply runs_ret; by apply Hdone|].
  apply runs_bind. eapply runs_mono; [by eapply __isolate_lru_page_inv|]. cbn beta. intros r s1 [H1|H1].
  - destruct H1 as (-> & HL & HU & Sp & pg1 & I1 & Hz1 & Hl1). simpl.
    apply runs_bind. eapply move_taken; [exact I1|congruence|apply Hw|]. intros s2 V2 E2.
    eapply runs_mono; [apply (IH (pfn :: ps) s2 (pfn + 1) (k0 + hpage_nr_pages)); [done|lia|]|].
    + intros i Hi. rewrite E2. apply Sp, Hpages. lia.
    + cbn beta. intros k s3 (ps' & V3 & Hk & Sp3). exists (ps' ++ [pfn]). rewrite <- app_assoc. split_and!; [done| |].
      * rewrite length_app. unfold hpage_nr_pages in Hk. simpl. lia.
      * etrans; [exact Sp|]. etrans; [by apply same_pages_eq|done].
  - destruct H1 as (Hr & -> & _). destruct (Z.eqb_spec r 0) as [|]; [done|].
    apply runs_bind. eapply runs_ok; [by apply page_at_run|]. destruct (_ && _); [apply IH; [done|lia|by apply Hnext]|].
    apply runs_ret. by apply Hdone.
Qed.

(** The list a page is on, as [isolate_lru_pages] computes it. *)
Definition lru_index (active file : bool) : Z := LRU_BASE + (if active then LRU_ACTIVE else 0) + (if file then LRU_FILE else 0).

Lemma page_lru_index pg active file : page_lru pg = lru_index active file →
  PageUnevictable pg = false ∧ PageActive pg = active ∧ page_is_file_cache pg = file.
Proof.
  unfold page_lru, lru_index, page_lru_base_type.
  by destruct (PageUnevictable pg), (PageActive pg), (page_is_file_cache pg), active, file.
Qed.

(** The last page of the list that is scanned. *)
Lemma last_lru ps s l p : taken ps s → last (list_at s (zn, l)) = Some p →
  ∃ pg, pages s !! p = Some pg ∧ PageLRU pg = true ∧ page_zone pg = zn ∧ page_lru pg = l.
Proof.
  intros [V _] Hl. destruct (vm_zone _ _ _ _ _ _ _ _ V) as [_ Hz0].
  destruct (inv_page _ _ _ _ _ _ (vm_inv V) (zn, l) p) as (pg & Hp & _ & Hon); [by apply last_Some_elem_of|done|].
  exists pg. split; [done|]. destruct Hon as [(_ & ? & E)|[(E & _)|(E & _)]]; [by simplify_eq|simpl in E; lia..].
Qed.

(** Lumpy reclaim takes pages around the page, whatever list they are on. *)
Definition lumpy (sc : scan_control) : bool := negb ((order sc =? 0) || negb (has (reclaim_mode sc) RECLAIM_MODE_LUMPYRECLAIM)).

Lemma isolate_loop_inv nr_to_scan sc mode active file fuel :
  accepts mode active → list_wants f dst (lru_index active file) →
  (lumpy sc = true → ∀ l, list_wants f dst l) →
  ∀ ps s scan k0, taken ps s → nr_to_scan - scan <= Z.of_nat fuel → (lumpy sc = true → memmap (order sc) s) →
  runs (isolate_loop fuel nr_to_scan (zn, lru_index active file) dst sc mode file scan k0) s
    (λ r s', more ps s (r.2 - k0) s' ∧ r.2 - k0 <= r.1 - scan ∧ (lumpy sc = false → r.1 <= Z.max scan nr_to_scan)).
Proof.
  intros Hacc Hw Hlw.
  assert (∀ ps s scan k0, taken ps s → more ps s ((scan, k0).2 - k0) s ∧ (scan, k0).2 - k0 <= (scan, k0).1 - scan ∧
    (lumpy sc = false → (scan, k0).1 <= Z.max scan nr_to_scan)) as Hdone.
  { intros ps s scan k0 V. cbn [fst snd]. split_and!; [|lia|lia]. exists []. split_and!; [done|simpl; lia|done]. }
  induction fuel as [|fuel IH]; intros ps s scan k0 V Hfuel Hmm; cbn [isolate_loop];
    (apply runs_bind; eapply runs_ok; [apply get_list_run|]);
    (destruct (last (list_at s (zn, _))) as [p|] eqn:Hlast; [|apply runs_ret; by apply Hdone]);
    (destruct (Z.leb_spec nr_to_scan scan) as [|Hlt]; [apply runs_ret; by apply Hdone|]); [lia|].
  destruct (last_lru _ _ _ _ V Hlast) as (pg & Hp & HL & Hz & Hl).
  destruct (page_lru_index _ _ _ Hl) as (HU & HA & HF).
  apply runs_bind. eapply runs_mono; [by eapply __isolate_lru_page_inv|]. cbn beta. intros r s1 [H1|H1].
  - destruct H1 as (-> & _ & _ & Sp & pg1 & I1 & Hz1 & Hl1). cbn [Z.eqb].
    apply runs_bind. eapply move_taken; [exact I1|congruence|by rewrite Hl1, Hl|]. intros s2 V2 E2.
    assert (same_pages s s2) as Sp2 by (etrans; [exact Sp|by apply same_pages_eq]).
    unfold lumpy in *. destruct (_ || _) eqn:Elump; cbn [negb] in *.
    + eapply runs_mono; [apply (IH (p :: ps) s2 (scan + 1) (k0 + hpage_nr_pages)); [done|lia|done]|]. cbn beta.
      intros [r1 r2] s3 [(ps' & V3 & Hk & Sp3) [Hb1 Hb2]]. unfold hpage_nr_pages in *. cbn [fst snd] in *. split_and!; [|lia|intros; specialize (Hb2 eq_refl); lia].
      exists (ps' ++ [p]). rewrite <- app_assoc, length_app. simpl. split_and!; [done|lia|by etrans].
    + destruct (proj1 (Sp2 p)) as [pg2 Hp2]; [by eexists|]. apply runs_bind. eapply runs_ok; [by apply page_at_run|]. cbn zeta.
      assert (page_zone pg2 = zn) as ->.
      { destruct I1 as (V1 & _). pose proof (vm_at _ _ _ _ _ _ _ _ _ _ _ V1) as Hp1. rewrite E2 in Hp2. simplify_eq. congruence. }
      set (b := Z.land p _). apply runs_bind. eapply runs_mono.
      { apply (lumpy_loop_inv mode file p (b + Z.shiftl 1 (order sc)) (Hlw eq_refl)
          (Z.to_nat (Z.shiftl 1 (order sc))) (p :: ps) s2 b 0 V2); [lia|]. intros i Hi. apply Sp2.
        apply (Hmm eq_refl p); [by eexists|done]. }
      cbn beta. intros k s3 (ps3 & V3 & Hk3 & Sp3).
      eapply runs_mono; [apply (IH (ps3 ++ p :: ps) s3 (scan + k + 1) (k0 + hpage_nr_pages + k)); [done|lia|]|].
      { intros _. apply (same_memmap _ s); [by etrans|by apply Hmm]. }
      cbn beta. intros [r1 r2] s4 [(ps' & V4 & Hk & Sp4) [Hb1 Hb2]]. unfold hpage_nr_pages in *. cbn [fst snd] in *.
      split_and!; [|lia|done]. exists (ps' ++ ps3 ++ [p]). rewrite <- !app_assoc, !length_app. simpl.
      split_and!; [done|lia|]. etrans; [exact Sp2|by etrans].
  - destruct H1 as (Hr & -> & Hbusy). rewrite Hbusy by (first [done|by rewrite HA]). cbn [Z.eqb EBUSY Z.opp Pos.eqb].
    apply runs_bind. eapply (move_busy ps p pg); [done|done|done|done|done|]. intros s2 V2 E2.
    eapply runs_mono; [apply (IH ps s2 (scan + 1) k0); [done|lia|]|].
    { intros ?. apply (same_memmap _ s); [by apply same_pages_eq|by apply Hmm]. }
    cbn beta. intros [r1 r2] s3 [(ps' & V3 & Hk & Sp3) [Hb1 Hb2]]. cbn [fst snd] in *.
    split_and!; [|lia|intros; specialize (Hb2 ltac:(done)); lia]. exists ps'. split_and!; [done|done|]. etrans; [by apply same_pages_eq|done].
Qed.

Lemma isolate_lru_pages_inv nr_to_scan sc mode active file s :
  accepts mode active → list_wants f dst (lru_index active file) → (lumpy sc = true → ∀ l, list_wants f dst l) →
  vm zn f None off none lv (Some zn) s → lv dst = [] → (lumpy sc = true → memmap (order sc) s) →
  runs (isolate_lru_pages nr_to_scan zn dst sc mode active file) s
    (λ r s', ∃ ps, taken ps s' ∧ r.2 = Z.of_nat (length ps) ∧ same_pages s s' ∧ r.2 <= r.1 ∧
       (lumpy sc = false → r.1 <= Z.max 0 nr_to_scan)).
Proof.
  intros Hacc Hw Hlw V Hd Hmm. unfold isolate_lru_pages. eapply runs_mono.
  { apply (isolate_loop_inv nr_to_scan sc mode active file (Z.to_nat nr_to_scan) Hacc Hw Hlw [] s 0 0); [|lia|done].
    split; [|by intros p pg ?%elem_of_nil]. eapply vm_ext; [exact V| |done|].
    - intros z l _ _. unfold off_taken. simpl. case_bool_decide; lia.
    - intros h _. unfold lv_set. by destruct (decide (dst = h)) as [<-|]. }
  cbn beta. intros [r1 r2] s' [(ps' & V' & Hk & Sp) [Hb1 Hb2]]. cbn [fst snd] in *. rewrite app_nil_r in V'. exists ps'.
  split_and!; [done|lia|done|lia|done].
Qed.
End isolate.
