(* ===== verification/VmscanActive.v ===== *)
(** * Shrinking the active list

    [shrink_active_list] against the invariant: it returns, every page it took is on the
    active or the inactive list of its zone again, or was freed without references, and
    the counters of the zone agree with its lists. *)

From S2P Require Import Prelude Hoare Lru LruInv LruOps LruApi Rmap Vmscan VmscanInv VmscanPage VmscanShrink VmscanIsolate.

Lemma lru_flags_lru pg pg' : lru_flags pg' = lru_flags pg → page_lru pg' = page_lru pg.
Proof.
  unfold lru_flags, page_lru, page_lru_base_type, page_is_file_cache. by intros [= _ _ -> -> -> _].
Qed.

(** The local lists that are not empty are among [hs]. *)
Definition only (hs : list head) (lv : head → list Z) : Prop := ∀ h, h ∉ hs → lv h = [].

Lemma only_set hs h l lv : only hs lv → h ∈ hs → only hs (lv_set h l lv).
Proof. intros Ho Hh h' Hh'. rewrite lv_set_ne; [by apply Ho|]. by intros <-. Qed.

Lemma only_clear hs h lv : only (h :: hs) lv → only hs (lv_set h [] lv).
Proof.
  intros Ho h' Hh'. unfold lv_set. destruct (decide (h = h')) as [<-|]; [done|]. apply Ho. intros [?|?]%elem_of_cons; congruence.
Qed.

Lemma only_clear_in hs h lv : only hs lv → lv h = [] → only (filter (λ h', h' ≠ h) hs) lv.
Proof.
  intros Ho He h' Hh'. destruct (decide (h' = h)) as [->|]; [done|]. apply Ho. intros Hin. apply Hh'. by apply list_elem_of_filter.
Qed.

(** Decides that a concrete head is not in a list of heads. *)
Ltac notin := apply (bool_decide_unpack _); vm_compute; exact I.

Section active.
Context `{R : Reclaim} {L : ReclaimLaws R} (zn f : Z) (off : Z → Z → Z) (Hf : f = 0 ∨ f = 1).
Notation none := (λ _ : Z, 0).
Notation scan lv := (vm zn f None off none lv None).
Notation iso lv := (iso zn f off none lv None).

Lemma active_wants : list_wants f l_active (LRU_ACTIVE + f * LRU_FILE).
Proof. by split; [|intros E]. Qed.

Lemma inactive_wants pg : page_lru pg = LRU_ACTIVE + f * LRU_FILE → list_wants f l_inactive (page_lru (ClearPage PG_active pg)).
Proof.
  intros Hl. assert (PageUnevictable pg = false) as HU.
  { unfold page_lru in Hl. destruct (PageUnevictable pg); [|done]. unfold LRU_UNEVICTABLE, LRU_ACTIVE, LRU_FILE in Hl. lia. }
  split; [by intros [E|E]|]. intros _. rewrite page_lru_deactivated by done. unfold page_lru in Hl. rewrite HU in Hl.
  unfold page_lru_base_type, LRU_INACTIVE_FILE, LRU_INACTIVE_ANON, LRU_ACTIVE, LRU_BASE, LRU_FILE in *.
  destruct (page_is_file_cache pg), (PageActive pg); lia.
Qed.

(** A page of [l_hold] ends on [l_active] or on [l_inactive]. *)
Definition aged_to (lv : head → list Z) (p : Z) (s : lst) : Prop :=
  scan (lv_set l_active (p :: lv l_active) lv) s ∨ scan (lv_set l_inactive (p :: lv l_inactive) lv) s.

Lemma age_page_inv lv p pg s : iso lv 1 p pg s → page_lru pg = LRU_ACTIVE + f * LRU_FILE →
  runs (age_page p) s (λ _ s', aged_to lv p s').
Proof.
  intros I Hl. unfold age_page. apply runs_bind. eapply iso_page; [exact I|]. apply runs_bind.
  apply (runs_mono _ _ (λ _ s1, ∃ pg1, iso lv 1 p pg1 s1 ∧ lru_flags pg1 = lru_flags pg)).
  { apply runs_when; [|intros; by exists pg]. intros _.
    apply runs_bind. eapply runs_mono; [by eapply trylock_inv|]. cbn beta. intros got s1 [I1 _].
    apply runs_when; [intros _|intros _; eexists; split; [exact I1|flags_solve]].
    apply runs_bind. eapply runs_mono; [eapply (iso_works zn f off lv None (λ p, try_to_release_page p _));
      [apply try_to_release_page_law| |exact I1]|].
    { intros a pg' (? & _ & ?). split; [done|by apply same_cache_moves]. }
    cbn beta. intros _ s2 (pg2 & I2 & F2 & _). unfold unlock_page. iflag I2. intros s3 _ I3.
    eexists. split; [exact I3|]. rewrite lru_flags_clear, F2 by done. flags_solve. }
  intros [] s1 (pg1 & I1 & F1). apply runs_bind. eapply runs_mono; [by eapply page_referenced_inv|]. cbn beta.
  intros r s2 (pg2 & I2 & F2 & _). assert (page_lru pg2 = LRU_ACTIVE + f * LRU_FILE) as Hl2.
  { rewrite <- Hl. apply lru_flags_lru. congruence. }
  apply runs_bind. eapply iso_page; [exact I2|]. destruct (_ && _ && _).
  { apply runs_bind. eapply (iso_add zn f off none lv None ltac:(done) _ _ 3); [exact I2|rewrite Hl2; apply active_wants|].
    intros s3 V3 _. apply runs_ret. by left. }
  apply runs_bind. iflag I2. intros s3 _ I3. destruct (_ <? _).
  - apply runs_bind. eapply (iso_add zn f off none lv None ltac:(done) _ _ 3); [exact I3| |].
    { change (page_lru (set_PG_referenced _ pg2)) with (page_lru pg2). rewrite Hl2. apply active_wants. }
    intros s4 V4 _. apply runs_ret. by left.
  - apply runs_bind. iflag I3. intros s4 _ I4. apply runs_bind.
    eapply (iso_add zn f off none lv None ltac:(done) _ _ 4); [exact I4|by apply inactive_wants|].
    intros s5 V5 _. apply runs_ret. by right.
Qed.

Lemma shrink_active_loop_inv k : ∀ lv s rot, only [l_hold; l_active; l_inactive] lv → length (lv l_hold) = k → scan lv s →
  runs (shrink_active_loop k rot) s (λ _ s', ∃ lv', scan lv' s' ∧ only [l_active; l_inactive] lv').
Proof.
  induction k as [|k IH]; intros lv s rot Ho Hk V.
  - apply nil_length_inv in Hk. cbn [shrink_active_loop]. apply runs_bind. eapply runs_ok; [apply get_list_run|].
    rewrite (vm_local V), Hk by done. apply runs_ret. exists lv. split; [done|]. exact (only_clear_in _ _ _ Ho Hk).
  - cbn [shrink_active_loop]. apply runs_bind. eapply runs_ok; [apply get_list_run|]. rewrite (vm_local V) by done.
    destruct (last (lv l_hold)) as [p|] eqn:Hlast; [|apply last_None in Hlast; by rewrite Hlast in Hk].
    apply runs_bind. eapply (take_last _ _ _ _ _ _ _ p 2); [|exact V|exact Hlast|]; [done|]. intros s1 pg I1 _ Hw.
    set (lv1 := lv_set l_hold (removelast (lv l_hold)) lv) in *.
    assert (length (lv1 l_hold) = k) as Hk1.
    { unfold lv1. rewrite lv_set_eq. apply last_Some in Hlast as [l' El]. rewrite El in *. rewrite removelast_last.
      rewrite length_app in Hk. simpl in Hk. lia. }
    assert (only [l_hold; l_active; l_inactive] lv1) as Ho1 by (apply only_set; [done|left]).
    apply runs_bind. eapply iso_page; [exact I1|]. apply runs_bind.
    eapply runs_ok; [apply (page_evictable_run _ p); [by eapply iso_spaces_ok|by eapply iso_at]|].
    apply runs_bind. destruct (evictable s1 pg); cbn [negb].
    + eapply runs_mono; [eapply age_page_inv; [exact I1|apply Hw; by left]|]. cbn beta. intros rotated s2 [V2|V2].
      * eapply IH; [| |exact V2]; [apply only_set; [done|by right; left]|by rewrite lv_set_ne].
      * eapply IH; [| |exact V2]; [apply only_set; [done|by right; right; left]|by rewrite lv_set_ne].
    + apply runs_bind. eapply runs_mono; [eapply (putback_lru_page_inv zn f off none lv1); [done| |exact I1]|].
      { apply Ho1. notin. }
      cbn beta. intros [] s2 V2. apply runs_ret. by eapply IH.
Qed.
End active.

(** ** Moving pages back to a list of the zone *)

Section put.
Context `{R : Reclaim} (zn f : Z) (off : Z → Z → Z) (m lru : Z) (Hlru : 0 <= lru <= 4).
Notation none := (λ _ : Z, 0).
Notation free := (doomed m).
Notation moved k lv := (vm zn f None (off_add zn lru (- k) off) none lv (Some zn)).

(** A reference to a page that was put on a list of its zone is dropped. *)
Lemma put_moved lv s p pg k (Q : bool → lst → Prop) :
  vm zn f (Some (Hand p pg 1 (Some (zn, lru)))) (off_add zn lru (- k) off) none lv (Some zn) s →
  PageCompound pg = false → PageLRU pg = true → page_zone pg = zn → page_lru pg = lru →
  (∀ s', moved k lv s' → Q false s') →
  (∀ s' pg', vm zn f (Some (Hand p pg' 0 (Some (zn, lru)))) (off_add zn lru (- k) off) none lv (Some zn) s' →
     _count pg' = 0 → pg' = set_count 0 pg → Q true s') →
  runs (put_page_testzero p) s Q.
Proof.
  intros V Hc HL Hz Hl HQ1 HQ2. pose proof (vm_at _ _ _ _ _ _ _ _ _ _ _ V) as Hp. destruct (vm_zone _ _ _ _ _ _ _ _ V) as [_ Hz0].
  destruct (inv_hand _ _ _ _ _ _ (vm_inv V) _ eq_refl) as (_ & Hr & _). simpl in Hr. rewrite (vrefs_at _ _ _ _ Hp) in Hr.
  pose proof (refs_nonneg none ltac:(done) s p) as [Hn _]. pose proof (cref_nonneg pg) as Hcr.
  eapply runs_ok; [by apply put_page_testzero_run|]. set (pg' := set_count (_count pg - 1) pg).
  assert (vm zn f (Some (Hand p pg' 0 (Some (zn, lru)))) (off_add zn lru (- k) off) none lv (Some zn) (pset p pg' s)) as V'.
  { eapply v_set; [exact V|done|done| | |].
    - eapply (shape_cached s s pg); [done|done|]. exact (proj2 (vm_spaces _ _ _ _ _ _ _ _ V) p pg Hp).
    - change (cref pg') with (cref pg). subst pg'. cbn [_count set_count]. lia.
    - change (cref pg') with (cref pg). subst pg'. cbn [_count set_count]. lia. }
  destruct (Z.eqb_spec (_count pg - 1) 0) as [H0|H0].
  - apply (HQ2 _ pg'); [done|done|]. subst pg'. by rewrite H0.
  - apply HQ1. eapply v_drop; [exact V'|done|]. split; [|simpl; lia]. rewrite <- Hz at 1. rewrite <- Hl.
    by apply (on_lru_list _ p pg'); [..|by rewrite <- Hz in Hz0].
Qed.

(** A page that lost its last reference goes to the list of pages to be freed. *)
Lemma doom_moved lv s p pg k (Q : () → lst → Prop) :
  vm zn f (Some (Hand p pg 0 (Some (zn, lru)))) (off_add zn lru (- k) off) none lv (Some zn) s →
  PageCompound pg = false → page_zone pg = zn → _count pg = 0 →
  (∀ s', moved k (lv_set free (p :: lv free) lv) s' → Q () s') →
  runs (upd_page p (ClearPage PG_lru);; upd_page p (ClearPage PG_active);; del_page_from_lru_list zn p lru;;
        list_add p free) s Q.
Proof.
  intros V Hc Hz H0 HQ. destruct (vm_zone _ _ _ _ _ _ _ _ V) as [_ Hz0].
  apply runs_bind. eapply v_flag; [exact V|shape_solve|done|]. intros s1 _ V1.
  apply runs_bind. eapply v_flag; [exact V1|shape_solve|done|]. intros s2 _ V2.
  unfold del_page_from_lru_list. apply runs_bind, runs_bind. eapply v_del; [exact V2|]. intros s3 _ V3.
  eapply v_stat; [exact V3|by left|]. intros s4 _ V4. eapply v_add; [exact V4|]. intros s5 _ V5. apply HQ.
  eapply vm_ext; [eapply v_drop; [exact V5|done|]| |done|].
  - split; [|simpl; lia]. split; [page_solve|]. right; right. split; [done|]. split; [page_solve|done].
  - intros z l Hz' _. unfold off_add, hpage_nr_pages. cbn [fst snd]. repeat case_bool_decide; simplify_eq/=; lia.
  - intros h Hh. rewrite (lv_set_ne (zn, lru) free) by (intros E; apply (f_equal fst) in E; simpl in E; lia).
    destruct (decide (free = h)) as [<-|]; [by rewrite !lv_set_eq|]. rewrite !(lv_set_ne free) by done.
    by rewrite lv_set_ne by (intros <-; simpl in Hh; lia).
Qed.
End put.

Section move.
Context `{R : Reclaim} (zn f : Z) (off : Z → Z → Z) (n m lru : Z) (Hlru : 0 <= lru <= 4).
Context (Hwants : ∀ l, list_wants f (held n) l → l = lru).
Notation none := (λ _ : Z, 0).
Notation src := (held n).
Notation free := (doomed m).
Notation moved k lv := (vm zn f None (off_add zn lru (- k) off) none lv (Some zn)).

(** The last page of the local list goes to the list of the zone, with a reference less. *)
Lemma move_one lv s p k : moved k lv s → last (lv src) = Some p →
  ∃ pg s1, pages s !! p = Some pg ∧ PageCompound pg = false ∧
    (upd_page p (SetPage PG_lru);; list_move p (zn, lru)) s = Ok ((), s1) ∧
    vm zn f (Some (Hand p (SetPage PG_lru pg) 1 (Some (zn, lru)))) (off_add zn lru (- (k + 1)) off) none
      (lv_set src (removelast (lv src)) lv) (Some zn) s1 ∧ page_zone pg = zn ∧ page_lru pg = lru.
Proof.
  intros V Hlast. assert (p ∈ lv src) as Hp by (by apply last_Some_elem_of).
  destruct (v_take_held _ _ _ _ _ _ _ _ _ V Hp) as (pg & Hpg & Hc & HL & Hz & Hw & V0). apply Hwants in Hw.
  destruct (vm_zone _ _ _ _ _ _ _ _ V) as [_ Hz0]. exists pg.
  assert (runs (upd_page p (SetPage PG_lru);; list_move p (zn, lru)) s (λ _ s1,
    vm zn f (Some (Hand p (SetPage PG_lru pg) 1 (Some (zn, lru)))) (off_add zn lru (- (k + 1)) off) none
      (lv_set src (removelast (lv src)) lv) (Some zn) s1)) as ([] & s1 & Hrun & V1); [|by exists s1].
  apply runs_bind. eapply v_flag; [exact V0|shape_solve|done|]. intros s1 _ V1.
  unfold list_move. apply runs_bind. eapply v_del; [exact V1|]. intros s2 _ V2.
  eapply v_add; [exact V2|]. intros s3 _ V3. eapply vm_ext; [exact V3| |done|].
  - intros z l Hz' _. unfold off_add. cbn [fst snd]. repeat case_bool_decide; simplify_eq/=; lia.
  - intros h Hh. rewrite lv_set_ne by (intros <-; simpl in Hh; lia).
    assert (without p (lv src) = removelast (lv src)) as ->; [|done].
    pose proof (inv_nodup _ _ _ _ _ _ (vm_inv V) src) as Hnd. rewrite (vm_local V) in Hnd by done.
    by apply without_last.
Qed.

Lemma move_active_loop_inv j : ∀ lv s k, length (lv src) = j → moved k lv s →
  runs (move_active_loop j zn src free lru k) s (λ r s', ∃ l, r = k + Z.of_nat j ∧ moved r (lv_set free l (lv_set src [] lv)) s').
Proof.
  induction j as [|j IH]; intros lv s k Hj V; cbn [move_active_loop];
    (apply runs_bind; eapply runs_ok; [apply get_list_run|]); rewrite (vm_local V) by done.
  { apply nil_length_inv in Hj. rewrite Hj. apply runs_ret. exists (lv free). split; [lia|].
    eapply vm_ext; [exact V|done|done|]. intros h _. unfold lv_set.
    destruct (decide (free = h)) as [<-|]; [done|]. by destruct (decide (src = h)) as [<-|]. }
  destruct (last (lv src)) as [p|] eqn:Hlast; [|apply last_None in Hlast; by rewrite Hlast in Hj].
  destruct (move_one lv s p k V Hlast) as (pg & s1 & Hp & Hc & Hrun & V1 & Hz & Hl).
  apply runs_bind. eapply runs_ok; [by apply page_at_run|].
  apply runs_seq. eapply runs_ok; [exact Hrun|]. set (lv1 := lv_set src (removelast (lv src)) lv) in *.
  assert (length (lv1 src) = j) as Hj1.
  { unfold lv1. rewrite lv_set_eq. apply last_Some in Hlast as [l' El]. rewrite El in *. rewrite removelast_last.
    rewrite length_app in Hj. simpl in Hj. lia. }
  assert (∀ lv2 s2, lv2 src = lv1 src → (∀ h, h ≠ free → lv2 h = lv1 h) → moved (k + hpage_nr_pages) lv2 s2 →
    runs (move_active_loop j zn src free lru (k + hpage_nr_pages)) s2
      (λ r s', ∃ l, r = k + Z.of_nat (S j) ∧ moved r (lv_set free l (lv_set src [] lv)) s')) as Hrest.
  { intros lv2 s2 E2 B2 V2. eapply runs_mono; [apply (IH lv2 s2 (k + hpage_nr_pages)); [by rewrite E2|done]|]. cbn beta.
    intros r s3 (l & -> & V3). exists l. unfold hpage_nr_pages in *. split; [lia|]. eapply vm_ext; [exact V3|done|done|].
    intros h _. unfold lv_set. destruct (decide (free = h)); [done|]. destruct (decide (src = h)); [done|].
    rewrite B2 by done. unfold lv1. by rewrite lv_set_ne. }
  apply runs_bind. eapply put_moved; [exact V1|page_solve|page_solve|done|rewrite <- Hl; page_solve| |].
  - intros s2 V2. apply runs_bind, runs_ret. by apply (Hrest lv1).
  - intros s2 pg2 V2 H2 ->. cbn [when]. rewrite Hc. apply runs_bind.
    eapply doom_moved; [done|exact V2|page_solve|done|done|]. intros s3 V3.
    apply (Hrest (lv_set free (p :: lv1 free) lv1)); [by rewrite lv_set_ne| |done]. intros h Hh. by rewrite lv_set_ne.
Qed.

Lemma move_active_pages_to_lru_inv lv s : vm zn f None off none lv (Some zn) s →
  runs (move_active_pages_to_lru zn src free lru) s (λ _ s', ∃ l,
    vm zn f None off none (lv_set free l (lv_set src [] lv)) (Some zn) s').
Proof.
  intros V. unfold move_active_pages_to_lru. apply runs_bind, runs_gets. rewrite (vm_local V) by done.
  apply runs_bind. eapply runs_mono; [apply (move_active_loop_inv (length (lv src)) lv s 0); [done|]|].
  { eapply vm_ext; [exact V|off_solve|done|done]. }
  cbn beta. intros r s1 (l & -> & V1). apply runs_bind. eapply v_stat; [exact V1|by left|]. intros s2 _ V2.
  apply (runs_mono _ _ (λ _ s', vm zn f None off none (lv_set free l (lv_set src [] lv)) (Some zn) s')); [|intros; by eexists].
  assert (vm zn f None off none (lv_set free l (lv_set src [] lv)) (Some zn) s2) as V2'.
  { eapply vm_ext; [exact V2|off_solve|done|done]. }
  apply runs_when; [|done]. intros _. by eapply v_events.
Qed.
End move.

(** ** The whole function *)

Section shrink_active.
Context `{R : Reclaim} {L : ReclaimLaws R} (zn : Z) (file : bool).
Notation f := (b2z file).
Notation none := (λ _ : Z, 0).
Notation off := (λ _ _ : Z, 0).
Notation now lv lk := (vm zn f None off none lv lk).

Lemma file_cases : f = 0 ∨ f = 1.
Proof. by destruct file; [right|left]. Qed.

Lemma active_index : lru_index true file = LRU_ACTIVE + f * LRU_FILE.
Proof. by destruct file. Qed.

Lemma lumpy_reset sc : lumpy (reset_reclaim_mode sc) = false.
Proof. unfold lumpy. by rewrite orb_comm. Qed.

(** All pages that were taken came from the active list. *)
Lemma off_taken_active lv ps s : taken zn f off lv 2 ps s → ∀ z l, 0 <= z → counted l →
  off_taken zn s ps off z l = off_add zn (LRU_ACTIVE + f * LRU_FILE) (Z.of_nat (length ps)) off z l.
Proof.
  intros [V _] z l _ _. unfold off_taken, off_add. rewrite Z.add_0_l.
  assert (cnt s l ps = if bool_decide (LRU_ACTIVE + f * LRU_FILE = l) then Z.of_nat (length ps) else 0) as ->.
  { assert (∀ p, p ∈ ps → page_lru <$> pages s !! p = Some (LRU_ACTIVE + f * LRU_FILE)) as Hall.
    { intros p Hp. destruct (v_take_held _ _ _ _ _ _ _ p 2 V) as (pg & -> & _ & _ & _ & Hw & _); [by rewrite lv_set_eq|].
      simpl. f_equal. apply Hw. by left. }
    clear V. induction ps as [|p ps IH]; [by case_bool_decide|]. simpl. rewrite IH by (intros; apply Hall; by right).
    unfold selects. rewrite (Hall p) by left. repeat case_bool_decide; simplify_eq/=; lia. }
  repeat case_bool_decide; simplify_eq/=; lia.
Qed.

Lemma shrink_active_list_inv nr_to_scan sc s : now (λ _, []) None s →
  runs (shrink_active_list nr_to_scan zn sc file) s (λ _ s', now (λ _, []) None s').
Proof.
  intros V. unfold shrink_active_list.
  apply runs_bind. eapply v_init; [exact V|done|done|]. intros s1 _ V1.
  apply runs_bind. eapply v_init; [exact V1|done|done|]. intros s2 _ V2.
  apply runs_bind. eapply v_init; [exact V2|done|done|]. intros s3 _ V3.
  apply runs_bind. eapply v_init; [exact V3|done|done|]. intros s4 _ V4.
  apply runs_bind. eapply runs_mono.
  { apply (lru_add_drain_inv off (xrefs none s4) (λ _, [])); [|done|apply V4]. intros p. by apply xrefs_nonneg. }
  cbn beta. intros [] s5 [L5 K5]. assert (now (λ _, []) None s5) as V5 by (by eapply vm_kept).
  cbn zeta. set (mode := if may_writepage _ then _ else _).
  assert (accepts mode true) as Hacc.
  { right. subst mode. by destruct (may_writepage _), (may_unmap _). }
  apply runs_bind. eapply v_lock; [exact V5|by eapply vm_zone|]. intros s6 _ _ V6.
  apply runs_bind. eapply runs_mono.
  { apply (isolate_lru_pages_inv zn f off (λ _, []) 2 nr_to_scan (reset_reclaim_mode sc) mode true file s6 Hacc);
      [|by rewrite lumpy_reset|done|done|by rewrite lumpy_reset]. rewrite active_index. split; [done|by intros E]. }
  cbn beta. intros [scanned nr] s7 (ps & T7 & Hnr & _). pose proof (taken_vm _ _ _ _ _ _ _ T7) as V7. cbn [fst snd] in *. subst nr.
  apply runs_bind. eapply v_upd_zone; [exact V7|done|done|]. intros s8 E8 V8.
  apply runs_bind. eapply v_upd_zone; [exact V8|done|done|]. intros s9 E9 V9.
  apply runs_bind. eapply v_events; [exact V9|]. intros s10 E10 V10.
  replace (if file then NR_ACTIVE_FILE else NR_ACTIVE_ANON) with (NR_LRU_BASE + (LRU_ACTIVE + f * LRU_FILE)) by (by destruct file).
  apply runs_bind. eapply v_stat; [exact V10|unfold LRU_ACTIVE, LRU_FILE; pose proof file_cases; lia|]. intros s11 E11 V11.
  set (lv2 := lv_set (held 2) ps (λ _, [])) in *. assert (now lv2 (Some zn) s11) as W11.
  { eapply vm_ext; [exact V11| |done|done]. intros z l Hz Hl. pose proof (off_taken_active _ _ _ T7 z l Hz Hl) as E. revert E.
    unfold off_add. case_bool_decide; case_bool_decide; simpl; lia. }
  assert (is_Some (zones s11 !! zn)) as Hzn by (by eapply vm_zone).
  change NR_ISOLATED_ANON with (NR_LRU_BASE + 20). rewrite <- Z.add_assoc. set (isolated := 20 + f).
  assert (counted isolated) as Hiso by (subst isolated; pose proof file_cases; lia).
  apply runs_bind. eapply v_stat; [exact W11|exact Hiso|]. intros s12 _ V12.
  set (held_off := off_add zn isolated (Z.of_nat (length ps)) off) in V12.
  apply runs_bind. eapply v_unlock; [exact V12|by eapply vm_zone|]. intros s13 _ V13.
  apply runs_bind, runs_gets. rewrite (vm_local V13) by done.
  apply runs_bind. eapply runs_mono; [apply (shrink_active_loop_inv zn f held_off file_cases (length (lv2 l_hold)) lv2); [|done|done]|].
  { apply only_set; [by intros h _|left]. }
  cbn beta. intros rot s14 (lv3 & V14 & O3).
  apply runs_bind. eapply v_lock; [exact V14|by eapply vm_zone|]. intros s15 _ _ V15.
  apply runs_bind. eapply v_upd_zone; [exact V15|done|done|]. intros s16 _ V16.
  apply runs_bind. eapply runs_mono.
  { apply (move_active_pages_to_lru_inv zn f held_off 3 30 (LRU_ACTIVE + f * LRU_FILE)); [|intros l Hw; apply Hw; by right|exact V16].
    unfold LRU_ACTIVE, LRU_FILE. pose proof file_cases. lia. }
  cbn beta. intros [] s17 (l1 & V17). apply runs_bind. eapply runs_mono.
  { apply (move_active_pages_to_lru_inv zn f held_off 4 30 (LRU_BASE + f * LRU_FILE)); [|intros l Hw; by apply Hw|exact V17].
    unfold LRU_BASE, LRU_FILE. pose proof file_cases. lia. }
  cbn beta. intros [] s18 (l2 & V18).
  apply runs_bind. eapply v_stat; [exact V18|exact Hiso|]. intros s19 _ V19.
  apply runs_bind. eapply v_unlock; [exact V19|by eapply vm_zone|]. intros s20 _ V20.
  apply runs_bind. eapply v_free_list; [exact V20|]. intros s21 _ _ V21. apply runs_ret.
  eapply vm_ext; [exact V21|unfold held_off; off_solve|done|]. intros h _. unfold lv_set.
  repeat (case_decide; [done|]). apply O3. by intros [->|[->|?%elem_of_nil]%elem_of_cons]%elem_of_cons.
Qed.
End shrink_active.
