(* ===== verification/VmscanInactive.v ===== *)
(** * Shrinking the inactive list

    [shrink_inactive_list] against the invariant: it returns, every page it took is freed
    without references or on a list of its zone again, and the counters of the zone agree
    with its lists. *)

From S2P Require Import Prelude Hoare Lru LruInv LruOps LruApi Rmap Vmscan VmscanInv VmscanPage VmscanShrink VmscanIsolate VmscanActive.

Lemma inactive_wants_any f l : list_wants f inactive_list l.
Proof. by split; [intros [E|E]|intros E]. Qed.

(** ** Counting the pages that were taken *)

Section count.
Context `{R : Reclaim} (zn f : Z) (off : Z → Z → Z) (lv : head → list Z) (lk : option Z).
Notation none := (λ _ : Z, 0).
Notation scan := (vm zn f None off none lv lk).

Lemma page_lru_evictable pg : PageUnevictable pg = false → page_lru pg = page_lru_base_type pg + (if PageActive pg then LRU_ACTIVE else 0).
Proof. unfold page_lru. by intros ->. Qed.

Lemma add_stat_at c i j d : stat (add_stat i d c) j = stat c j + (if bool_decide (i = j) then d else 0).
Proof. case_bool_decide as E; [subst; by rewrite stat_add_eq|rewrite stat_add_ne by done; lia]. Qed.

Lemma count_isolated_inv l : ∀ c a s, scan s → NoDup l → (∀ p, p ∈ l → p ∈ lv inactive_list) →
  (∀ p pg, p ∈ l → pages s !! p = Some pg → PageUnevictable pg = false) →
  runs (count_isolated l c a) s (λ r s', scan s' ∧ ∀ i, stat r.1 i = stat c i + cnt s i l).
Proof.
  induction l as [|p l IH]; intros c a s V Hnd Hin He; cbn [count_isolated].
  { apply runs_ret. split; [done|]. intros i. simpl. lia. }
  apply NoDup_cons in Hnd as [Hp Hnd].
  destruct (v_take_held _ _ _ _ _ _ _ p 1 V) as (pg & Hpg & Hc & HL & Hz & _ & V0); [by apply Hin; left|].
  pose proof (He p pg ltac:(left) Hpg) as HU. apply runs_bind. eapply runs_ok; [by apply page_at_run|].
  assert (∀ i, Z.b2z (selects s i p) = if bool_decide (page_lru pg = i) then 1 else 0) as Hsel.
  { intros i. unfold selects. rewrite Hpg. simpl. repeat case_bool_decide; simplify_eq; done. }
  rewrite page_lru_evictable in Hsel by done. cbn zeta. destruct (PageActive pg).
  - apply runs_bind. eapply v_flag; [exact V0|shape_solve|done|]. intros s1 E1 V1.
    assert (scan s1) as W1.
    { eapply v_drop; [exact V1|done|]. split; [|intros _; split; [done|apply inactive_wants_any]].
      split; [page_solve|]. right; left. split; [done|]. split; [page_solve|].
      destruct (inv_hand _ _ _ _ _ _ (vm_inv V1) _ eq_refl) as (_ & Hr & _). exact Hr. }
    assert (∀ i, cnt s1 i l = cnt s i l) as Hcnt by (intros i; subst s1; by apply cnt_pset).
    eapply runs_mono; [apply IH; [exact W1|done|by intros; apply Hin; right|]|].
    + intros q pgq Hq. subst s1. simpl. rewrite lookup_insert_ne by (by intros ->). apply He. by right.
    + cbn beta. intros r s2 [V2 Hr]. split; [done|]. intros i. rewrite Hr, add_stat_at, Hcnt. simpl. rewrite Hsel.
      unfold hpage_nr_pages. lia.
  - eapply runs_mono; [apply IH; [exact V|done|by intros; apply Hin; right|by intros; eapply He; [right|]]|].
    cbn beta. intros r s2 [V2 Hr]. split; [done|]. intros i. rewrite Hr, add_stat_at. simpl. rewrite Hsel, Z.add_0_r.
    unfold hpage_nr_pages. lia.
Qed.
End count.

Section update.
Context `{R : Reclaim} (zn f : Z) (lv : head → list Z).
Notation none := (λ _ : Z, 0).
Notation off := (λ _ _ : Z, 0).

(** The counters of isolated pages are ahead. *)
Definition ahead (anon file : Z) : Z → Z → Z := off_add zn 21 file (off_add zn 20 anon off).

(** After [update_isolated_counts] the counters agree with the lists. *)
Lemma update_isolated_counts_inv ps s :
  vm zn f None (off_taken zn s ps off) none (lv_set inactive_list ps lv) None s →
  (∀ p pg, p ∈ ps → pages s !! p = Some pg → PageUnevictable pg = false) →
  runs (update_isolated_counts zn inactive_list) s (λ r s', vm zn f None (ahead r.1 r.2) none (lv_set inactive_list ps lv) None s').
Proof.
  intros V He. unfold update_isolated_counts. apply runs_bind, runs_gets. rewrite (vm_local V), lv_set_eq by done.
  pose proof (inv_nodup _ _ _ _ _ _ (vm_inv V) inactive_list) as Hnd. rewrite (vm_local V), lv_set_eq in Hnd by done.
  apply runs_bind. eapply runs_mono.
  { apply (count_isolated_inv zn f _ (lv_set inactive_list ps lv) None ps ∅ 0 s V Hnd); [by intros; rewrite lv_set_eq|done]. }
  cbn beta. intros [count na] s1 [V1 Hcount]. cbn [fst snd] in *.
  assert (∀ i, stat count i = cnt s i ps) as Hc by (intros i; rewrite Hcount; unfold stat; rewrite lookup_empty; simpl; lia).
  assert (∀ l, 4 <= l → cnt s l ps = 0) as H4.
  { intros l Hl. clear -He V Hl. assert (∀ p, p ∈ ps → selects s l p = false) as Hs.
    { intros p Hp. unfold selects. apply bool_decide_eq_false. destruct (pages s !! p) as [pg|] eqn:Hpg; [|done]. simpl.
      intros [= E]. rewrite page_lru_evictable in E by eauto. pose proof (base_type_range pg). unfold LRU_ACTIVE in E.
      destruct (PageActive pg); lia. }
    clear He V. induction ps as [|p ps IH]; [done|]. simpl. rewrite Hs by left. rewrite IH; [done|]. intros; apply Hs; by right. }
  cbn zeta. rewrite !Hc. apply runs_bind. eapply v_events; [exact V1|]. intros s2 _ V2.
  apply runs_bind. eapply (v_stat _ _ _ _ _ _ _ _ 3); [exact V2|lia|]. intros s3 _ V3.
  apply runs_bind. eapply (v_stat _ _ _ _ _ _ _ _ 2); [exact V3|lia|]. intros s4 _ V4.
  apply runs_bind. eapply (v_stat _ _ _ _ _ _ _ _ 1); [exact V4|lia|]. intros s5 _ V5.
  apply runs_bind. eapply (v_stat _ _ _ _ _ _ _ _ 0); [exact V5|lia|]. intros s6 _ V6.
  apply runs_bind. eapply (v_stat _ _ _ _ _ _ _ _ 20); [exact V6|lia|]. intros s7 _ V7.
  apply runs_bind. eapply (v_stat _ _ _ _ _ _ _ _ 21); [exact V7|lia|]. intros s8 _ V8.
  apply runs_ret. eapply vm_ext; [exact V8| |done|done]. intros z l Hz Hl. unfold ahead, off_taken, off_add. cbn [fst snd].
  change LRU_ACTIVE_FILE with 3. change LRU_INACTIVE_FILE with 2. change LRU_ACTIVE_ANON with 1. change LRU_INACTIVE_ANON with 0.
  assert (l = 0 ∨ l = 1 ∨ l = 2 ∨ l = 3 ∨ l = 4 ∨ l = 20 ∨ l = 21) as Hcases by lia.
  pose proof (H4 4 ltac:(lia)). pose proof (H4 20 ltac:(lia)). pose proof (H4 21 ltac:(lia)).
  destruct (decide (z = zn)) as [->|]; [|by rewrite !(bool_decide_eq_false_2 (zn = z)), (bool_decide_eq_false_2 (z = zn)) by congruence].
  rewrite !(bool_decide_eq_true_2 (zn = zn)) by done. destruct Hcases as [->|[->|[->|[->|[->|[->| ->]]]]]]; simpl; lia.
Qed.
End update.

(** ** Putting pages back *)

Section putback.
Context `{R : Reclaim} {L : ReclaimLaws R} (zn f : Z) (off : Z → Z → Z).
Notation none := (λ _ : Z, 0).
Notation scan lv := (vm zn f None off none lv (Some zn)).

Lemma iso_unlock lv p pg s (Q : () → lst → Prop) : iso zn f off none lv (Some zn) 1 p pg s →
  (∀ s', iso zn f off none lv None 1 p pg s' → Q () s') → runs (spin_unlock_irq zn) s Q.
Proof.
  intros I HQ. pose proof (iso_hand zn f off none lv (Some zn) ltac:(done) _ _ _ _ I ltac:(done)) as V.
  eapply v_unlock; [exact V|by eapply vm_zone|]. intros s1 _ V1. apply HQ. destruct I as (_ & Lo & Hz).
  apply hand_iso; [done|done|apply Lo|apply Lo|done].
Qed.

(** The lists but for [pages_to_free]. *)
Definition but_free (lv lv' : head → list Z) : Prop := ∀ h, h ≠ pages_to_free → lv' h = lv h.

Lemma but_free_set l lv : but_free lv (lv_set pages_to_free l lv).
Proof. intros h Hh. apply lv_set_ne. congruence. Qed.

(** A page that can be evicted goes to the list that its flags select. *)
Lemma putback_evictable lv p pg s : iso zn f off none lv (Some zn) 1 p pg s →
  runs (
    upd_page p (SetPage PG_lru);;
    add_page_to_lru_list zn p (page_lru pg);;
    when (is_active_lru (page_lru pg))
      (upd_zone zn (λ zd, set_recent (add_stat (b2z (is_file_lru (page_lru pg))) hpage_nr_pages (recent_rotated zd))
                            (recent_scanned zd) zd));;
    zero ← put_page_testzero p;
    when zero (
      upd_page p (ClearPage PG_lru);;
      upd_page p (ClearPage PG_active);;
      del_page_from_lru_list zn p (page_lru pg);;
      if PageCompound pg then
        spin_unlock_irq zn;;
        free_hot_cold_page p;;
        spin_lock_irq zn
      else list_add p pages_to_free)) s (λ _ s', ∃ lv', scan lv' s' ∧ but_free lv lv').
Proof.
  intros I. pose proof (iso_hand zn f off none lv (Some zn) ltac:(done) _ _ _ _ I ltac:(done)) as V.
  destruct I as (_ & Lo & Hz). pose proof (lo_compound _ _ _ Lo) as Hc. destruct (vm_zone _ _ _ _ _ _ _ _ V) as [_ Hz0].
  pose proof (page_lru_range pg) as Hlr. set (lru := page_lru pg) in *.
  apply runs_bind. eapply v_flag; [exact V|shape_solve|done|]. intros s1 _ V1. set (pg1 := SetPage PG_lru pg) in *.
  unfold add_page_to_lru_list. apply runs_bind, runs_bind. eapply v_add; [exact V1|]. intros s2 _ V2.
  eapply v_stat; [exact V2|by left|]. intros s3 _ V3.
  assert (vm zn f (Some (Hand p pg1 1 (Some (zn, lru)))) (off_add zn lru (- 0) off) none lv (Some zn) s3) as V4.
  { eapply vm_ext; [exact V3|off_solve|done|]. intros h Hh. by rewrite lv_set_ne by (intros <-; simpl in Hh; lia). }
  apply runs_bind. apply (runs_mono _ _ (λ _ s4,
    vm zn f (Some (Hand p pg1 1 (Some (zn, lru)))) (off_add zn lru (- 0) off) none lv (Some zn) s4)).
  { apply runs_when; [|done]. intros _. by eapply v_upd_zone. }
  intros [] s4 V5. apply runs_bind. eapply put_moved; [exact V5|subst pg1; page_solve|subst pg1; page_solve|done|subst pg1 lru; page_solve| |].
  - intros s5 V6. apply runs_ret. exists lv. split; [|done]. eapply vm_ext; [exact V6|off_solve|done|done].
  - intros s5 pg5 V6 H0 ->. cbn [when]. rewrite Hc.
    eapply (doom_moved zn f off 20 lru); [done|exact V6|subst pg1; page_solve|done|done|]. intros s6 V7.
    eexists. split; [eapply vm_ext; [exact V7|off_solve|done|done]|]. apply but_free_set.
Qed.

Lemma putback_loop_inv k : ∀ lv s, lv release_free_list = [] → length (lv inactive_list) = k → scan lv s →
  runs (putback_loop k zn inactive_list) s (λ _ s', ∃ lv', scan lv' s' ∧ but_free (lv_set inactive_list [] lv) lv').
Proof.
  induction k as [|k IH]; intros lv s Hrel Hk V; cbn [putback_loop];
    (apply runs_bind; eapply runs_ok; [apply get_list_run|]); rewrite (vm_local V) by done.
  { apply nil_length_inv in Hk. rewrite Hk. apply runs_ret. exists lv. split; [done|]. intros h _. unfold lv_set.
    by destruct (decide (inactive_list = h)) as [<-|]. }
  destruct (last (lv inactive_list)) as [p|] eqn:Hlast; [|apply last_None in Hlast; by rewrite Hlast in Hk].
  apply runs_bind. eapply (take_last _ _ _ _ _ _ _ p 1); [|exact V|exact Hlast|]; [done|]. intros s1 pg I1 _ _.
  set (lv1 := lv_set inactive_list (removelast (lv inactive_list)) lv) in *.
  assert (length (lv1 inactive_list) = k) as Hk1.
  { unfold lv1. rewrite lv_set_eq. apply last_Some in Hlast as [l' El]. rewrite El in *. rewrite removelast_last.
    rewrite length_app in Hk. simpl in Hk. lia. }
  apply runs_bind. eapply iso_page; [exact I1|]. apply runs_bind.
  eapply runs_ok; [apply (page_evictable_run _ p); [apply I1|by eapply iso_at]|].
  apply runs_bind. apply (runs_mono _ _ (λ _ s2, ∃ lv2, scan lv2 s2 ∧ but_free lv1 lv2)).
  - destruct (evictable s1 pg); cbn [negb]; [by apply putback_evictable|].
    apply runs_bind. eapply iso_unlock; [exact I1|]. intros s2 I2.
    apply runs_bind. eapply runs_mono; [by eapply (putback_lru_page_inv zn f off none lv1)|]. cbn beta. intros [] s3 V3.
    eapply v_lock; [exact V3|by eapply vm_zone|]. intros s4 _ _ V4. by exists lv1.
  - intros [] s2 (lv2 & V2 & B2). eapply runs_mono; [apply (IH lv2 s2); [by rewrite B2|by rewrite B2|done]|]. cbn beta.
    intros [] s3 (lv3 & V3 & B3). exists lv3. split; [done|]. intros h Hh. rewrite B3 by done. unfold lv_set.
    destruct (decide (inactive_list = h)); [done|]. rewrite B2 by done. unfold lv1. by rewrite lv_set_ne.
Qed.

Lemma putback_inactive_pages_inv lv s : lv release_free_list = [] → lv pages_to_free = [] → scan lv s →
  runs (putback_inactive_pages zn inactive_list) s (λ _ s', ∃ lv', scan lv' s' ∧ but_free (lv_set inactive_list [] lv) lv').
Proof.
  intros Hrel Hfree V. unfold putback_inactive_pages. apply runs_bind. eapply v_init; [exact V|done|done|]. intros s1 _ V1.
  apply runs_bind, runs_gets. rewrite (vm_local V1) by done. by apply putback_loop_inv.
Qed.
End putback.

(** ** The whole function *)

Section shrink_inactive.
Context `{R : Reclaim} {L : ReclaimLaws R} (zn f : Z).
Notation none := (λ _ : Z, 0).
Notation off := (λ _ _ : Z, 0).
Notation now lv lk := (vm zn f None off none lv lk).

Lemma kept_same_pages s s' : kept s s' → same_pages s s'.
Proof.
  intros K q. pose proof (kept_shape _ _ K q) as E. destruct (pages s !! q), (pages s' !! q); try done; split; by eexists.
Qed.

Lemma set_reclaim_order prio b sc : order (set_reclaim_mode prio b sc) = order sc.
Proof. unfold set_reclaim_mode. by repeat case_match. Qed.

(** Between calls no page is isolated, so nobody waits. *)
Lemma none_isolated lv lk s zd file : now lv lk s → zones s !! zn = Some zd → too_many_isolated zd file = false.
Proof.
  intros V Hz. unfold too_many_isolated. destruct current_is_kswapd; [done|]. apply Z.ltb_ge. destruct (vm_zone _ _ _ _ _ _ _ _ V) as [_ Hz0].
  assert (stat (vm_stat zd) (if file then NR_ISOLATED_FILE else NR_ISOLATED_ANON) = 0) as E0.
  { destruct file; [by apply (inv_isolated _ _ _ _ _ zn zd 21 (vm_inv V))|by apply (inv_isolated _ _ _ _ _ zn zd 20 (vm_inv V))]. }
  unfold zone_page_state. rewrite E0. apply u32_range.
Qed.

Lemma wait_isolated_run lv lk n s file : now lv lk s → wait_isolated n zn file s = Ok (false, s).
Proof.
  intros V. destruct (vm_zone _ _ _ _ _ _ _ _ V) as [[zd Hzd] _]. pose proof (none_isolated _ _ _ _ file V Hzd) as Hz. destruct n; cbn [wait_isolated]; rewrite (bind_Ok _ _ _ _ _ (zone_at_run _ _ _ Hzd)), Hz; done.
Qed.

(** The pages that were taken are reclaimed. *)
Lemma shrink_taken_inv off ps prio sc s : vm zn f None off none (lv_set inactive_list ps (λ _, [])) None s →
  runs (shrink_page_list inactive_list zn prio sc) s (λ _ s', ∃ ps', vm zn f None off none (lv_set inactive_list ps' (λ _, [])) None s').
Proof.
  intros V. eapply runs_mono.
  { apply (shrink_page_list_inv zn f off 1 prio sc (lv_set inactive_list ps (λ _, [])));
      [by split_and!; rewrite lv_set_ne|done|apply inactive_wants_any|exact V]. }
  cbn beta. intros _ s' [l' V']. exists l'. eapply vm_ext; [exact V'|done|done|]. intros h _. unfold lv_set.
  by destruct (decide (inactive_list = h)), (decide (held 1 = h)).
Qed.

(** They are put back, and the pages that lost their last reference are freed. *)
Lemma putback_taken_inv {A} ps s anon file (k : M lst A) (Q : A → lst → Prop) :
  vm zn f None (ahead zn anon file) none (lv_set inactive_list ps (λ _, [])) (Some zn) s →
  (∀ s', now (λ _, []) None s' → runs k s' Q) →
  runs (putback_inactive_pages zn inactive_list;;
        __mod_zone_page_state zn NR_ISOLATED_ANON (- anon);;
        __mod_zone_page_state zn NR_ISOLATED_FILE (- file);;
        spin_unlock_irq zn;;
        free_hot_cold_page_list pages_to_free;; k) s Q.
Proof.
  intros V HQ. apply runs_bind. eapply runs_mono.
  { eapply putback_inactive_pages_inv; [| |exact V]; by rewrite lv_set_ne. }
  cbn beta. intros [] s1 (lv1 & V1 & B1).
  apply runs_bind. eapply (v_stat _ _ _ _ _ _ _ _ 20); [exact V1|lia|]. intros s2 _ V2.
  apply runs_bind. eapply (v_stat _ _ _ _ _ _ _ _ 21); [exact V2|lia|]. intros s3 _ V3.
  apply runs_bind. eapply v_unlock; [exact V3|by eapply vm_zone|]. intros s4 _ V4.
  apply runs_bind. eapply v_free_list; [exact V4|]. intros s5 _ _ V5. apply HQ. eapply vm_ext; [exact V5|unfold ahead; off_solve|done|]. intros h _. unfold lv_set.
  destruct (decide (doomed 20 = h)); [done|]. rewrite B1 by (unfold pages_to_free; congruence). unfold lv_set.
  by destruct (decide (inactive_list = h)).
Qed.

Lemma shrink_inactive_list_inv n nr_to_scan sc prio file s :
  now (λ _, []) None s → memmap (order sc) s →
  runs (shrink_inactive_list n nr_to_scan zn sc prio file) s (λ _ s', now (λ _, []) None s').
Proof.
  intros V Hmm. unfold shrink_inactive_list.
  apply runs_bind. eapply runs_ok; [by eapply wait_isolated_run|].
  apply runs_bind. eapply v_init; [exact V|done|done|]. intros s1 E1 V1. cbn zeta.
  set (sc1 := set_reclaim_mode prio false sc). set (mode := if may_writepage sc1 then _ else _).
  apply runs_bind. eapply runs_mono.
  { apply (lru_add_drain_inv off (xrefs none s1) (λ _, [])); [|done|apply V1]. intros p. by apply xrefs_nonneg. }
  cbn beta. intros [] s2 [L2 K2]. assert (now (λ _, []) None s2) as V2 by (by eapply vm_kept).
  apply runs_bind. eapply v_lock; [exact V2|by eapply vm_zone|]. intros s3 E3 _ V3.
  assert (accepts mode false) as Hacc.
  { subst mode. destruct (has (reclaim_mode sc1) _); [left|right]; by destruct (may_writepage sc1), (may_unmap sc1). }
  assert (memmap (order sc1) s3) as Hmm3.
  { unfold sc1. rewrite set_reclaim_order. apply (same_memmap _ s); [|done]. etrans; [by apply same_pages_eq|].
    etrans; [by apply kept_same_pages|by apply same_pages_eq]. }
  apply runs_bind. eapply runs_mono.
  { by apply (isolate_lru_pages_inv zn f off (λ _, []) 1 nr_to_scan sc1 mode false file s3 Hacc); [apply inactive_wants_any|
      intros _; apply inactive_wants_any|..]. }
  cbn beta. intros [scanned nr] s4 (ps & [V4 He4] & Hnr & _). cbn [fst snd] in *.
  apply runs_bind. eapply v_upd_zone; [exact V4|done|done|]. intros s5 E5 V5.
  apply runs_bind. eapply v_events; [exact V5|]. intros s6 E6 V6.
  apply runs_bind. eapply v_unlock; [exact V6|by eapply vm_zone|]. intros s7 E7 V7.
  assert (pages s7 = pages s4) as Ep by congruence.
  destruct (Z.eqb_spec nr 0) as [H0|_].
  { apply runs_ret. assert (ps = []) as -> by (destruct ps; [done|simpl in *; lia]).
    eapply vm_ext; [exact V7| |done|]; [intros z l _ _; unfold off_taken; simpl; by case_bool_decide|].
    intros h _. unfold lv_set. by destruct (decide (held 1 = h)). }
  apply runs_bind. eapply runs_mono.
  { apply (update_isolated_counts_inv zn f (λ _, []) ps); [|by rewrite Ep].
    eapply vm_ext; [exact V7| |done|done]. intros z l _ _. unfold off_taken. f_equal. case_bool_decide; [|done].
    symmetry. apply cnt_ext. intros. by rewrite Ep. }
  cbn beta. intros [na nf] s8 V8. cbn [fst snd].
  apply runs_bind. eapply runs_mono; [by eapply shrink_taken_inv|]. cbn beta. intros [[[rec sc2] d] w] s9 [l9 V9].
  apply runs_bind. apply (runs_mono _ _ (λ _ s10, ∃ l, vm zn f None (ahead zn na nf) none (lv_set inactive_list l (λ _, [])) None s10)).
  { destruct (should_reclaim_stall _ _ _ _); [|apply runs_ret; by exists l9]. apply runs_bind.
    eapply runs_mono; [by eapply shrink_taken_inv|]. cbn beta. intros [[[more sc3] d3] w3] s10 V10. by apply runs_ret. }
  intros [rec' sc'] s10 [l10 V10]. cbn [fst snd].
  apply runs_bind. eapply v_lock; [exact V10|by eapply vm_zone|]. intros s11 _ _ V11.
  apply runs_bind. eapply v_upd_zone; [exact V11|done|done|]. intros s12 _ V12.
  apply runs_bind. eapply v_events; [exact V12|]. intros s13 _ V13.
  eapply putback_taken_inv; [exact V13|]. intros s14 V14. by apply runs_ret.
Qed.
End shrink_inactive.
