(* ===== verification/VmscanCalls.v ===== *)
(** * Calls of swap.c and vmscan.c

    The functions that the rest of the kernel calls, as calls with a contract: any
    sequence of calls within their contracts returns, and keeps the lists of pages, the
    flags, the reference counts, the counters of zones and the locks in agreement. *)

From S2P Require Import Prelude Hoare Lru LruInv LruOps LruApi Rmap Vmscan VmscanInv VmscanPage VmscanShrink VmscanIsolate VmscanActive VmscanInactive.

#[local] Notation none := (λ _ : Z, 0).

(** The invariant between calls. *)
Record reclaim_inv (s : lst) : Prop := ReclaimInv {
  ri_lru : lru_gen None (λ _ _, 0) (xrefs none s) (λ _, []) None s;
  ri_spaces : spaces_ok s;
}.

(** ** What the invariant says of a state *)

Record consistent (s : lst) : Prop := Consistent {
  (** A page is on a list of a zone exactly if it has [PG_lru], and then on the one list
      that its zone and its flags select. *)
  con_lists z l p : 0 <= z →
    p ∈ list_at s (z, l) ↔ ∃ pg, pages s !! p = Some pg ∧ PageLRU pg = true ∧ page_zone pg = z ∧ page_lru pg = l;
  con_nodup z l : NoDup (list_at s (z, l));
  (** The counters of a zone are the lengths of its lists. *)
  con_stat z zd l : zones s !! z = Some zd → 0 <= z → 0 <= l <= 4 →
    stat (vm_stat zd) (NR_LRU_BASE + l) = Z.of_nat (length (list_at s (z, l)));
  (** No page is counted as isolated. *)
  con_isolated z zd : zones s !! z = Some zd → 0 <= z →
    stat (vm_stat zd) NR_ISOLATED_ANON = 0 ∧ stat (vm_stat zd) NR_ISOLATED_FILE = 0;
  (** No lock is held, and no page is on a list of a function that returned. *)
  con_lock z zd : zones s !! z = Some zd → lru_lock zd = false;
  con_local h : h.1 < 0 → list_at s h = [];
  (** A page has a reference for each slot of a pagevec that holds it, for the cache it is
      in and for each entry that maps it. *)
  con_count p pg : pages s !! p = Some pg → pagevec_refs s p + cref pg <= _count pg;
  (** A page that was given back to the allocator has no reference, is on no list, and
      was given back once. *)
  con_freed p : p ∈ freed s → (∃ pg, pages s !! p = Some pg ∧ _count pg = 0 ∧ PageLRU pg = false) ∧ unlinked s p;
  con_freed_once : NoDup (freed s);
}.

Lemma reclaim_consistent s : reclaim_inv s → consistent s.
Proof.
  intros [[I F P Lo] S]. split.
  - intros z l p Hz. split.
    + intros Hp. destruct (inv_page _ _ _ _ _ _ I _ _ Hp ltac:(done)) as (pg & Hpg & _ & Hon). exists pg.
      destruct Hon as [(_ & ? & E)|[(E & _)|(E & _)]]; [by simplify_eq|simpl in E; lia..].
    + intros (pg & Hpg & HL & <- & <-). by apply (inv_lru _ _ _ _ _ _ I).
  - intros z l. apply I.
  - intros z zd l Hz H0 Hl. rewrite (inv_stat _ _ _ _ _ _ I z zd l Hz H0) by (by left). lia.
  - intros z zd Hz H0. split; [by apply (inv_isolated _ _ _ _ _ z zd 20 I)|by apply (inv_isolated _ _ _ _ _ z zd 21 I)].
  - intros z zd Hz. by rewrite (inv_lock _ _ _ _ _ _ I z zd Hz).
  - apply Lo.
  - intros p pg Hp. pose proof (inv_ref _ _ _ _ _ _ I p pg Hp) as Hr. rewrite (vrefs_at _ _ _ _ Hp) in Hr.
    unfold pagevec_refs. lia.
  - intros p Hp. destruct (inv_freed _ _ _ _ _ _ I p Hp) as (_ & Hu & Hpg). done.
  - apply I.
Qed.

(** ** The calls *)

Inductive call :=
  | Mark_page_accessed (p : Z)
  | Activate_page (p : Z)
  | Rotate_reclaimable_page (p : Z)
  | Deactivate_page (p : Z)
  | Lru_cache_add_lru (p lru : Z)
  | Add_page_to_unevictable_list (p : Z)
  | Lru_add_drain
  | Put_page (p : Z)
  | Isolate_lru_page (p : Z)
  | Putback_lru_page (p : Z)
  | Shrink_active_list (nr_to_scan z : Z) (sc : scan_control) (file : bool)
  | Shrink_inactive_list (waits : nat) (nr_to_scan z : Z) (sc : scan_control) (priority : Z) (file : bool).

Section calls.
Context `{R : Reclaim} {L : ReclaimLaws R}.

Definition ignore {A} (m : M lst A) : M lst () := m;; mret ().

Definition run_call (c : call) : M lst () :=
  match c with
  | Mark_page_accessed p => mark_page_accessed p
  | Activate_page p => activate_page p
  | Rotate_reclaimable_page p => rotate_reclaimable_page p
  | Deactivate_page p => deactivate_page p
  | Lru_cache_add_lru p lru => lru_cache_add_lru p lru
  | Add_page_to_unevictable_list p => add_page_to_unevictable_list p
  | Lru_add_drain => lru_add_drain
  | Put_page p => put_page p
  | Isolate_lru_page p => ignore (isolate_lru_page p)
  | Putback_lru_page p => putback_lru_page p
  | Shrink_active_list n z sc file => ignore (shrink_active_list n z sc file)
  | Shrink_inactive_list w n z sc prio file => ignore (shrink_inactive_list w n z sc prio file)
  end.

(** The page is the caller's: on no list, and referenced once more than by pagevecs,
    caches and mappings. *)
Definition owned (s : lst) (p : Z) (pg : page) : Prop :=
  loose s p pg ∧ pagevec_refs s p + cref pg + 1 <= _count pg.

(** The contracts. *)
Definition contract (c : call) (s : lst) : Prop :=
  match c with
  | Mark_page_accessed p | Activate_page p | Rotate_reclaimable_page p => is_Some (pages s !! p)
  | Deactivate_page p => ∃ pg, pages s !! p = Some pg ∧ PageCompound pg = false
  | Lru_cache_add_lru p lru => ∃ pg, loose s p pg ∧ PageActive pg && PageUnevictable pg = false ∧ 0 <= lru <= 3 ∧
      is_file_lru lru = page_is_file_cache pg
  | Add_page_to_unevictable_list p => ∃ pg, loose s p pg
  | Lru_add_drain => True
  | Put_page p => ∃ pg, pages s !! p = Some pg ∧ PageCompound pg = false ∧ pagevec_refs s p + cref pg + 1 <= _count pg
  | Isolate_lru_page p => is_Some (pages s !! p)
  | Putback_lru_page p => ∃ pg, owned s p pg
  | Shrink_active_list _ z _ _ => populated z s
  | Shrink_inactive_list _ _ z sc _ _ => populated z s ∧ memmap (order sc) s
  end.

Lemma reclaim_vm zn f s : reclaim_inv s → populated zn s → vm zn f None (λ _ _, 0) none (λ _, []) None s.
Proof. intros [G S] P. split; [done|done|done|]. by intros h p pg _ ?%elem_of_nil. Qed.

Lemma vm_reclaim zn f s : vm zn f None (λ _ _, 0) none (λ _, []) None s → reclaim_inv s.
Proof. intros [G S P _]. by split. Qed.

Lemma kept_reclaim s s' : reclaim_inv s → lru_gen None (λ _ _, 0) (xrefs none s) (λ _, []) None s' → kept s s' → reclaim_inv s'.
Proof.
  intros [G S] G' K. split.
  - eapply lru_gen_ext; [exact G'|]. intros p. by apply kept_xrefs.
  - assert (spaces s' = spaces s) as Es by (pose proof (kept_shape _ _ K 0); congruence). destruct S as [S1 S2].
    split; [by rewrite Es|]. intros q pg' Hq. destruct (kept_back _ _ _ _ K Hq) as (pg & Hpg & Hs). by eapply shape_cached, S2.
Qed.

Lemma owned_iso s p pg : reclaim_inv s → owned s p pg → iso (page_zone pg) 0 (λ _ _, 0) none (λ _, []) None 1 p pg s.
Proof.
  intros V [Lo Hr]. assert (populated (page_zone pg) s) as P by (exists p, pg; split; [apply Lo|done]).
  pose proof (reclaim_vm _ 0 _ V P) as W. pose proof (lo_page _ _ _ Lo) as Hp.
  apply hand_iso; [|done|apply Lo|apply Lo|done]. apply v_take; [done|].
  destruct Lo. apply take; [exact (vm_inv W)|done|done|done| |done]. rewrite (vrefs_at _ _ _ _ Hp). exact Hr.
Qed.

(** The page that [isolate_lru_page] takes is the caller's. *)
Lemma isolate_lru_page_inv s p pg : reclaim_inv s → pages s !! p = Some pg →
  runs (isolate_lru_page p) s (λ r s', reclaim_inv s' ∧
    if PageLRU pg then r = 0 ∧ ∃ pg', owned s' p pg' else r = - EBUSY ∧ s' = s).
Proof.
  intros V Hp. unfold isolate_lru_page. apply runs_bind. eapply runs_ok; [by apply page_at_run|].
  destruct (PageLRU pg) eqn:HL; [|by apply runs_ret].
  set (zn := page_zone pg). assert (populated zn s) as P by (by exists p, pg).
  pose proof (reclaim_vm zn 0 s V P) as W. destruct (v_take_lru _ _ _ _ _ _ _ _ _ W Hp HL) as [Hc W0].
  fold zn in W0. destruct (vm_zone _ _ _ _ _ _ _ _ W) as [Hz Hz0]. cbn zeta.
  apply runs_bind. eapply v_lock; [exact W0|done|]. intros s1 E1 _ V1. pose proof (vm_at _ _ _ _ _ _ _ _ _ _ _ V1) as Hp1.
  apply runs_bind. eapply runs_ok; [by apply get_page_run|]. set (pg1 := set_count (_count pg + 1) pg).
  assert (vm zn 0 (Some (Hand p pg1 1 (Some (zn, page_lru pg)))) (λ _ _, 0) none (λ _, []) (Some zn) (pset p pg1 s1)) as V2.
  { pose proof (inv_ref _ _ _ _ _ _ (vm_inv V1) _ _ Hp1) as Hr. rewrite (vrefs_at _ _ _ _ Hp1) in Hr.
    eapply v_set; [exact V1|done|done| | |].
    - eapply (shape_cached s1 s1 pg); [done|done|]. exact (proj2 (vm_spaces _ _ _ _ _ _ _ _ V1) p pg Hp1).
    - change (cref pg1) with (cref pg). subst pg1. cbn [_count set_count]. lia.
    - change (cref pg1) with (cref pg). subst pg1. cbn [_count set_count]. lia. }
  apply runs_bind. eapply v_flag; [exact V2|shape_solve|done|]. intros s3 _ V3.
  unfold del_page_from_lru_list. apply runs_bind, runs_bind. eapply v_del; [exact V3|]. intros s4 _ V4.
  eapply v_stat; [exact V4|left; apply page_lru_range|]. intros s5 _ V5.
  apply runs_bind. eapply v_unlock; [exact V5|by eapply vm_zone|]. intros s6 _ V6. apply runs_ret.
  assert (iso zn 0 (λ _ _, 0) none (λ _, []) None 1 p (ClearPage PG_lru pg1) s6) as I6.
  { apply hand_iso; [|done|subst pg1; page_solve|subst pg1; page_solve|done].
    eapply vm_ext; [exact V6|off_solve|done|]. intros h Hh. by rewrite lv_set_ne by (intros <-; simpl in Hh; lia). }
  split; [eapply vm_reclaim; by eapply (iso_forget zn 0 (λ _ _, 0) none)|]. split; [done|].
  exists (ClearPage PG_lru pg1). split; [apply I6|]. exact (iso_ref _ _ _ _ _ _ _ _ _ _ I6).
Qed.

(** A call within its contract returns and keeps the invariant. *)
Lemma run_call_inv c s : reclaim_inv s → contract c s → runs (run_call c) s (λ _ s', reclaim_inv s').
Proof.
  intros V C. pose proof (ri_lru _ V) as G.
  assert (∀ q, 0 <= xrefs none s q) as Hx by (intros q; by apply xrefs_nonneg).
  assert (∀ m : M lst (), runs m s (λ _ s', lru_gen None (λ _ _, 0) (xrefs none s) (λ _, []) None s' ∧ kept s s') →
    runs m s (λ _ s', reclaim_inv s')) as Hswap.
  { intros m Hm. eapply runs_mono; [exact Hm|]. cbn beta. intros _ s' [G' K]. by eapply kept_reclaim. }
  destruct c; cbn [run_call contract] in *.
  - destruct C as [pg Hp]. apply Hswap. by eapply mark_page_accessed_inv.
  - destruct C as [pg Hp]. apply Hswap. by eapply activate_page_inv.
  - apply Hswap. by eapply rotate_reclaimable_page_inv.
  - destruct C as (pg & Hp & Hc). apply Hswap. by eapply deactivate_page_inv.
  - destruct C as (pg & Lo & Ha & Hl & Hf). apply Hswap. by eapply lru_cache_add_lru_inv.
  - destruct C as (pg & Lo). apply Hswap. eapply runs_mono; [by eapply add_page_to_unevictable_list_inv|]. by intros [] s' (? & ? & _).
  - apply Hswap. by eapply lru_add_drain_inv.
  - destruct C as (pg & Hp & Hc & Hr). apply Hswap. eapply put_page_inv; [done|]. split; [done|done| |].
    + rewrite (vrefs_at _ _ _ _ Hp). exact Hr.
    + intros n. rewrite (li_local _ _ _ _ _ _ G) by done. apply not_elem_of_nil.
  - destruct C as [pg Hp]. apply runs_bind. eapply runs_mono; [by eapply isolate_lru_page_inv|]. cbn beta.
    intros r s' [V' _]. by apply runs_ret.
  - destruct C as (pg & O). eapply runs_mono; [eapply (putback_lru_page_inv (page_zone pg) 0 (λ _ _, 0) none (λ _, []));
      [done|done|by apply owned_iso]|]. cbn beta. intros [] s' V'. by eapply vm_reclaim.
  - apply runs_bind. eapply runs_mono; [eapply shrink_active_list_inv; by apply reclaim_vm|]. cbn beta.
    intros sc' s' V'. apply runs_ret. by eapply vm_reclaim.
  - destruct C as (P & Hm). apply runs_bind.
    eapply runs_mono; [eapply (shrink_inactive_list_inv _ 0); [by apply reclaim_vm|done]|]. cbn beta.
    intros r s' V'. apply runs_ret. by eapply vm_reclaim.
Qed.

(** One call within its contract. *)
Inductive step (s : lst) : lst → Prop :=
  | Step c s' : contract c s → run_call c s = Ok ((), s') → step s s'.

(** The states that calls within their contracts reach. *)
Inductive reaches (s : lst) : lst → Prop :=
  | Here : reaches s s
  | Then s1 s2 : reaches s s1 → step s1 s2 → reaches s s2.

Lemma reaches_inv s s' : reclaim_inv s → reaches s s' → reclaim_inv s'.
Proof.
  intros V. induction 1 as [|s1 s2 _ IH [c s2' C Hrun]]; [done|].
  destruct (run_call_inv c s1 IH C) as ([] & s3 & Hrun' & V3). congruence.
Qed.
End calls.
