(* ===== verification/VmscanSteady.v ===== *)
(** * What reclaim never changes

    No function of [swap.c] and [vmscan.c] moves a page to another zone or makes a page
    appear or disappear, the free swap space stays within the total, a task that counts the
    pages freed from slabs goes on to, and requests to the daemon stay valid; so what a caller knows about the pages of a zone
    stays true. *)

From S2P Require Import Prelude Hoare Lru LruInv LruOps LruApi Rmap Vmscan VmscanZone Watermark VmscanInv VmscanPage VmscanShrink VmscanIsolate VmscanActive VmscanInactive VmscanCalls.

(** The requests to the daemon of the node are of an order and a zone that exist. *)
Definition request_ok (d : pg_data) : Prop :=
  0 <= kswapd_max_order d < MAX_ORDER ∧ 0 <= classzone_idx d < nr_zones d.

Section steady.
Context `{R : Reclaim}.

Record steady (s s' : lst) : Prop := Steady {
  st_zone p : page_zone <$> pages s' !! p = page_zone <$> pages s !! p;
  st_swap : nr_swap_pages s <= total_swap_pages → nr_swap_pages s' <= total_swap_pages;
  st_slab : is_Some (reclaimed_slab (slab s)) → is_Some (reclaimed_slab (slab s'));
  st_node : nr_zones (pgdat s') = nr_zones (pgdat s);
  st_request : request_ok (pgdat s) → request_ok (pgdat s');
}.

#[global] Instance steady_preorder : PreOrder steady.
Proof.
  split.
  - intros s. by split.
  - intros s1 s2 s3 [A1 B1 C1 D1 E1] [A2 B2 C2 D2 E2]. split; [intros p; by rewrite A2|auto|auto|congruence|auto].
Qed.

Definition keeps_steady {A} (m : M lst A) : Prop := ∀ s, ends m s (λ _ s', steady s s').

Lemma ks_ret {A} (a : A) : keeps_steady (mret a).
Proof. intros s. by apply ends_ret. Qed.

Lemma ks_fail {A} e : keeps_steady (fail (A := A) e).
Proof. intros s. apply ends_fail. Qed.

Lemma ks_gets {A} (f : lst → A) : keeps_steady (gets f).
Proof. intros s. by apply ends_gets. Qed.

Lemma ks_bind {A B} (m : M lst A) (f : A → M lst B) : keeps_steady m → (∀ a, keeps_steady (f a)) → keeps_steady (m ≫= f).
Proof.
  intros Hm Hf s. apply ends_bind. eapply ends_mono; [apply Hm|]. cbn beta. intros a s1 S1.
  eapply ends_mono; [apply Hf|]. cbn beta. intros b s2 S2. by etrans.
Qed.

Lemma ks_modify (f : lst → lst) : (∀ s, steady s (f s)) → keeps_steady (modify f).
Proof. intros H s. by apply ends_modify. Qed.

Lemma ks_option {A} e (o : option A) : keeps_steady (of_option e o).
Proof. destruct o; [apply ks_ret|apply ks_fail]. Qed.

Lemma ks_upd_page p f : (∀ pg, page_zone (f pg) = page_zone pg) → keeps_steady (upd_page p f).
Proof.
  intros Hf s. unfold upd_page, page_at. apply ends_bind, ends_bind, ends_gets. destruct (pages s !! p) as [pg|] eqn:Hp; [|apply ends_fail].
  apply ends_ret, ends_modify. split; [|done..]. intros q. cbn. destruct (decide (p = q)) as [<-|].
  - rewrite lookup_insert_eq, Hp. cbn. by rewrite Hf.
  - by rewrite lookup_insert_ne.
Qed.
End steady.

Ltac head_of t := lazymatch t with ?f _ => head_of f | _ => t end.

(** Unfolds a program to its primitive operations. *)
Ltac steady :=
  repeat first
    [ progress intros
    | solve [eauto 2 with steady]
    | lazymatch goal with
      | |- keeps_steady (_ ≫= _) => apply ks_bind
      | |- keeps_steady (mret _) => apply ks_ret
      | |- keeps_steady (fail _) => apply ks_fail
      | |- keeps_steady (gets _) => apply ks_gets
      | |- keeps_steady (of_option _ _) => apply ks_option
      | |- keeps_steady (upd_page _ _) => apply ks_upd_page; done
      | |- keeps_steady (modify _) => apply ks_modify; by intros ?; split
      | |- keeps_steady (match ?x with _ => _ end) => destruct x
      | |- keeps_steady (let _ := _ in _) => cbv zeta
      | |- keeps_steady ?m => let h := head_of m in unfold h
      end ].

Create HintDb steady.

(** What reclaim relies on of the code that it calls: the same. *)
Class ReclaimSteady (R : Reclaim) : Prop := {
  congestion_wait_steady : keeps_steady congestion_wait;
  wait_on_page_writeback_steady p : keeps_steady (wait_on_page_writeback p);
  writepage_steady p : keeps_steady (writepage p);
  try_to_unmap_steady p : keeps_steady (try_to_unmap p);
  add_to_swap_steady p : keeps_steady (add_to_swap p);
  try_to_free_swap_steady p : keeps_steady (try_to_free_swap p);
  try_to_release_page_steady p gfp : keeps_steady (try_to_release_page p gfp);
  try_to_free_buffers_steady p : keeps_steady (try_to_free_buffers p);
  swapcache_free_steady p : keeps_steady (swapcache_free p);
  freepage_steady p : keeps_steady (freepage p);
}.

#[export] Hint Resolve congestion_wait_steady wait_on_page_writeback_steady writepage_steady try_to_unmap_steady add_to_swap_steady
  try_to_free_swap_steady try_to_release_page_steady try_to_free_buffers_steady swapcache_free_steady freepage_steady : steady.

Section loops.
Context `{R : Reclaim} {K : ReclaimSteady R}.

Lemma ks_free_pages_from l : keeps_steady (free_pages_from l).
Proof. induction l; cbn [free_pages_from]; steady. Qed.
Hint Resolve ks_free_pages_from : steady.

Lemma ks_list_del p : keeps_steady (list_del p).
Proof. steady. Qed.
Lemma ks_list_add p h : keeps_steady (list_add p h).
Proof. steady. Qed.
Lemma ks_mod_state z i d : keeps_steady (__mod_zone_page_state z i d).
Proof. steady. Qed.
Lemma ks_lock z : keeps_steady (spin_lock_irq z).
Proof. steady. Qed.
Lemma ks_put_page p : keeps_steady (put_page p).
Proof. steady. Qed.
Lemma ks_get_page p : keeps_steady (get_page p).
Proof. steady. Qed.
Hint Resolve ks_list_del ks_list_add ks_mod_state ks_lock ks_put_page ks_get_page : steady.

Lemma ks_release_loop h ps : ∀ zn, keeps_steady (release_loop h ps zn).
Proof. induction ps; intros zn; cbn [release_loop]; steady. Qed.
Hint Resolve ks_release_loop : steady.

Lemma ks_move_loop fn : (∀ p a, keeps_steady (fn p a)) → ∀ ps arg zn, keeps_steady (move_loop fn ps arg zn).
Proof. intros Hf. induction ps; intros arg zn; cbn [move_loop]; steady. Qed.

Lemma ks_pagevec_move i fn arg : (∀ p a, keeps_steady (fn p a)) → keeps_steady (pagevec_lru_move_fn i fn arg).
Proof. intros Hf. unfold pagevec_lru_move_fn. apply ks_bind; [steady|]. intros ps. apply ks_bind; [by apply ks_move_loop|]. steady. Qed.

Lemma ks_add_fn lru p a : keeps_steady (__pagevec_lru_add_fn lru p a).
Proof. steady. Qed.
Lemma ks_tail_fn p a : keeps_steady (pagevec_move_tail_fn p a).
Proof. steady. Qed.
Lemma ks_deactivate_fn p a : keeps_steady (lru_deactivate_fn p a).
Proof. steady. Qed.
Hint Resolve ks_pagevec_move ks_add_fn ks_tail_fn ks_deactivate_fn : steady.

Lemma ks_drain_lrus l : keeps_steady (drain_lrus l).
Proof. induction l; cbn [drain_lrus]; steady. Qed.
Hint Resolve ks_drain_lrus : steady.

Lemma ks_lru_cache_add p lru : keeps_steady (lru_cache_add_lru p lru).
Proof. steady. Qed.
Lemma ks_add_unevictable p : keeps_steady (add_page_to_unevictable_list p).
Proof. steady. Qed.
Lemma ks_isolate_page p : keeps_steady (isolate_lru_page p).
Proof. steady. Qed.
Lemma ks_evictable pg : keeps_steady (page_evictable pg).
Proof. steady. Qed.
Hint Resolve ks_lru_cache_add ks_add_unevictable ks_isolate_page ks_evictable : steady.

Lemma ks_putback_redo n : ∀ p a, keeps_steady (putback_redo n p a).
Proof. induction n; intros p a; cbn [putback_redo]; steady. Qed.
Hint Resolve ks_putback_redo : steady.

Lemma ks_putback_page p : keeps_steady (putback_lru_page p).
Proof. steady. Qed.
Lemma ks_page_referenced p b : keeps_steady (page_referenced p b).
Proof. steady. Qed.
Lemma ks_free_or_keep p m c : keeps_steady (free_or_keep p m c).
Proof. steady. Qed.
Lemma ks_pageout p m sc : keeps_steady (pageout p m sc).
Proof. steady. Qed.
Hint Resolve ks_putback_page ks_page_referenced ks_free_or_keep ks_pageout : steady.

Lemma ks_write_dirty p m r e prio c : keeps_steady (write_dirty p m r e prio c).
Proof. steady. Qed.
Hint Resolve ks_write_dirty : steady.

Lemma ks_unmap_mapped p r prio c e : keeps_steady (unmap_mapped p r prio c e).
Proof. steady. Qed.
Hint Resolve ks_unmap_mapped : steady.

Lemma ks_reclaim_page p e prio c : keeps_steady (reclaim_page p e prio c).
Proof. steady. Qed.
Hint Resolve ks_reclaim_page : steady.

Lemma ks_shrink_page p prio c : keeps_steady (shrink_page p prio c).
Proof. steady. Qed.
Lemma ks_at_label p l c : keeps_steady (at_label p l c).
Proof. steady. Qed.
Hint Resolve ks_shrink_page ks_at_label : steady.

Lemma ks_shrink_page_loop n : ∀ h prio c, keeps_steady (shrink_page_loop n h prio c).
Proof. induction n; intros h prio c; cbn [shrink_page_loop]; steady. Qed.
Hint Resolve ks_shrink_page_loop : steady.

Lemma ks_shrink_page_list h z prio sc : keeps_steady (shrink_page_list h z prio sc).
Proof. steady. Qed.
Lemma ks__isolate p mode file : keeps_steady (__isolate_lru_page p mode file).
Proof. steady. Qed.
Hint Resolve ks_shrink_page_list ks__isolate : steady.

Lemma ks_lumpy_loop n : ∀ pfn e p z dst mode file k, keeps_steady (lumpy_loop n pfn e p z dst mode file k).
Proof. induction n; intros; cbn [lumpy_loop]; steady. Qed.
Hint Resolve ks_lumpy_loop : steady.

Lemma ks_isolate_loop n : ∀ nr src dst sc mode file k j, keeps_steady (isolate_loop n nr src dst sc mode file k j).
Proof. induction n; intros; cbn [isolate_loop]; steady. Qed.
Hint Resolve ks_isolate_loop : steady.

Lemma ks_putback_loop n : ∀ z h, keeps_steady (putback_loop n z h).
Proof. induction n; intros; cbn [putback_loop]; steady. Qed.
Lemma ks_count_isolated l : ∀ c n, keeps_steady (count_isolated l c n).
Proof. induction l; intros; cbn [count_isolated]; steady. Qed.
Lemma ks_wait_isolated n : ∀ z file, keeps_steady (wait_isolated n z file).
Proof. induction n; intros; cbn [wait_isolated]; steady. Qed.
Lemma ks_move_active_loop n : ∀ z l f lru k, keeps_steady (move_active_loop n z l f lru k).
Proof. induction n; intros; cbn [move_active_loop]; steady. Qed.
Lemma ks_age_page p : keeps_steady (age_page p).
Proof. steady. Qed.
Hint Resolve ks_putback_loop ks_count_isolated ks_wait_isolated ks_move_active_loop ks_age_page : steady.

Lemma ks_shrink_active_loop n : ∀ r, keeps_steady (shrink_active_loop n r).
Proof. induction n; intros; cbn [shrink_active_loop]; steady. Qed.
Hint Resolve ks_shrink_active_loop : steady.

(** Every call keeps the pages in their zones. *)
Lemma run_call_steady c : keeps_steady (run_call c).
Proof. destruct c; cbn [run_call]; steady. Qed.
End loops.
