(* ===== verification/VmscanZoneInv.v ===== *)
(** * Shrinking zones against the invariant

    [shrink_zone], [shrink_slab] and [try_to_free_pages] return and keep the invariant of
    [VmscanCalls]: the loops end, no division is by zero, and the shrinkers and waits may
    make calls of their own. *)

From S2P Require Import Prelude Hoare Lru LruInv LruOps LruApi Rmap Vmscan VmscanZone Watermark VmscanInv VmscanPage VmscanShrink VmscanIsolate VmscanActive VmscanInactive VmscanCalls VmscanSteady.

(** ** The scan control *)

(** The order stays, and reclaim for compaction is not entered. *)
Definition no_compaction (sc : scan_control) : Prop := has (reclaim_mode sc) RECLAIM_MODE_COMPACTION = false.

Definition fit (sc sc' : scan_control) : Prop :=
  order sc' = order sc ∧ (no_compaction sc → no_compaction sc') ∧ gfp_mask sc' = gfp_mask sc.

#[global] Instance fit_preorder : PreOrder fit.
Proof. split; [by intros sc|]. intros a b c (E1 & H1 & G1) (E2 & H2 & G2). split_and!; [congruence|auto|congruence]. Qed.

Lemma fit_set_reclaim prio b sc : fit sc (set_reclaim_mode prio b sc).
Proof. unfold set_reclaim_mode, fit, no_compaction. by repeat case_match. Qed.

Lemma fit_reset sc : fit sc (reset_reclaim_mode sc).
Proof. done. Qed.

Definition gives {A} (m : M lst A) (Q : A → Prop) : Prop := ∀ s, ends m s (λ a _, Q a).

Lemma gives_ret {A} (a : A) (Q : A → Prop) : Q a → gives (mret a) Q.
Proof. intros H s. by apply ends_ret. Qed.

Lemma gives_fail {A} e (Q : A → Prop) : gives (fail e) Q.
Proof. intros s. apply ends_fail. Qed.

Lemma gives_bind {A B} (m : M lst A) (f : A → M lst B) (P : A → Prop) (Q : B → Prop) :
  gives m P → (∀ a, P a → gives (f a) Q) → gives (m ≫= f) Q.
Proof. intros Hm Hf s. apply ends_bind. eapply ends_mono; [apply Hm|]. cbn beta. intros a s' Ha. by apply Hf. Qed.

Lemma gives_skip {A B} (m : M lst A) (f : A → M lst B) (Q : B → Prop) : (∀ a, gives (f a) Q) → gives (m ≫= f) Q.
Proof. intros Hf. apply (gives_bind _ _ (λ _, True)); [by intros s a s' _|auto]. Qed.

Lemma gives_mono {A} (m : M lst A) (P Q : A → Prop) : gives m P → (∀ a, P a → Q a) → gives m Q.
Proof. intros H HPQ s. eapply ends_mono; [apply H|]. auto. Qed.

(** Follows the results of a program. *)
Ltac gives :=
  repeat first
    [ progress intros
    | lazymatch goal with
      | |- gives (mret _) _ => apply gives_ret; first [done | by etrans]
      | |- gives (fail _) _ => apply gives_fail
      | |- gives (match ?x with _ => _ end) _ => destruct x
      | |- gives (let _ := _ in _) _ => cbv zeta
      | |- gives (_ ≫= _) _ => apply gives_skip
      | |- gives _ _ => eapply gives_mono; [solve [eauto 2 with gives]|cbn beta; intros; first [done | by etrans]]
      end ].

Create HintDb gives.

Section results.
Context `{R : Reclaim}.

Definition fits (c : spl) (r : label * spl) : Prop := fit (spl_sc c) (spl_sc r.2).

Lemma free_or_keep_fit p m c : gives (free_or_keep p m c) (fits c).
Proof. unfold free_or_keep. gives. Qed.
Hint Resolve free_or_keep_fit : gives.

Lemma write_dirty_fit p m r e prio c : gives (write_dirty p m r e prio c) (fits c).
Proof. unfold write_dirty. gives. Qed.
Hint Resolve write_dirty_fit : gives.

Lemma unmap_mapped_fit p r prio c e : gives (unmap_mapped p r prio c e) (fits c).
Proof. unfold unmap_mapped. gives. Qed.
Hint Resolve unmap_mapped_fit : gives.

Lemma unmap_page_fit p r e prio c : gives (unmap_page p r e prio c) (fits c).
Proof. unfold unmap_page. gives. Qed.
Hint Resolve unmap_page_fit : gives.

Lemma reclaim_page_fit p e prio c : gives (reclaim_page p e prio c) (fits c).
Proof. unfold reclaim_page. gives. Qed.
Hint Resolve reclaim_page_fit : gives.

Lemma shrink_page_fit p prio c : gives (shrink_page p prio c) (fits c).
Proof. unfold shrink_page. gives; by destruct (page_mapped _ || PageSwapCache _); gives. Qed.

Lemma at_label_fit p l c : gives (at_label p l c) (λ c', fit (spl_sc c) (spl_sc c')).
Proof. unfold at_label. gives. Qed.

Lemma shrink_page_loop_fit n : ∀ h prio c, gives (shrink_page_loop n h prio c) (λ c', fit (spl_sc c) (spl_sc c')).
Proof.
  induction n as [|n IH]; intros h prio c; cbn [shrink_page_loop]; apply gives_skip; intros l;
    (destruct (last l) as [p|]; [|by apply gives_ret]); [apply gives_fail|].
  apply gives_skip. intros _. eapply gives_bind; [apply shrink_page_fit|]. intros [lab c1] F1.
  eapply gives_bind; [apply at_label_fit|]. cbn beta. intros c2 F2. eapply gives_mono; [apply IH|]. cbn beta. intros c3 F3.
  etrans; [exact F1|]. by etrans.
Qed.

Lemma shrink_page_list_fit h z prio sc : gives (shrink_page_list h z prio sc) (λ r, fit sc r.1.1.2).
Proof.
  unfold shrink_page_list. do 3 (apply gives_skip; intros). eapply gives_bind; [apply shrink_page_loop_fit|]. cbn beta.
  intros c F. gives.
Qed.

Lemma shrink_inactive_list_fit n nr z sc prio file : gives (shrink_inactive_list n nr z sc prio file) (λ r, fit sc r.2).
Proof.
  unfold shrink_inactive_list. apply gives_skip. intros die. destruct die; [by apply gives_ret|]. apply gives_skip. intros _. cbv zeta.
  pose proof (fit_set_reclaim prio false sc) as F0. set (sc0 := set_reclaim_mode prio false sc) in *. clearbody sc0.
  do 6 (apply gives_skip; intros). destruct (_ =? 0); [by apply gives_ret|]. apply gives_skip. intros iso.
  eapply gives_bind; [apply shrink_page_list_fit|]. intros [[[rec sc1] d] w] F1. cbn [fst snd] in F1.
  apply (gives_bind _ _ (λ r, fit sc r.2)).
  - destruct (should_reclaim_stall _ _ _ _); [|apply gives_ret; by etrans].
    eapply gives_bind; [apply shrink_page_list_fit|]. intros [[[rec2 sc2] d2] w2] F2. cbn [fst snd] in F2. apply gives_ret. cbn [snd].
    etrans; [exact F0|]. etrans; [exact F1|]. etrans; [apply fit_set_reclaim|exact F2].
  - intros r F2. gives.
Qed.

Lemma shrink_active_list_fit nr z sc file : gives (shrink_active_list nr z sc file) (fit sc).
Proof. unfold shrink_active_list. gives. Qed.
End results.

(** ** States between calls *)

#[local] Notation none := (λ _ : Z, 0).

(** The lock of the zone and the counters of its lists are the same. *)
Definition same_zone (zd zd' : zone) : Prop :=
  lru_lock zd' = lru_lock zd ∧ ∀ l, counted l → stat (vm_stat zd') (NR_LRU_BASE + l) = stat (vm_stat zd) (NR_LRU_BASE + l).

(** The two states differ in what the lists of pages do not depend on. *)
Record same_lru (s s' : lst) : Prop := SameLru {
  sl_pages : pages s' = pages s;
  sl_lists : lists s' = lists s;
  sl_zones z : option_Forall2 same_zone (zones s !! z) (zones s' !! z);
  sl_pvecs : pvecs s' = pvecs s;
  sl_spaces : spaces s' = spaces s;
  sl_freed : freed s' = freed s;
}.

Lemma same_zone_refl zd : same_zone zd zd.
Proof. done. Qed.
#[export] Hint Resolve same_zone_refl : core.

Lemma same_zones_refl (o : option zone) : option_Forall2 same_zone o o.
Proof. destruct o; by constructor. Qed.
#[export] Hint Resolve same_zones_refl : core.

Lemma same_lru_inv s s' : same_lru s s' → reclaim_inv s → reclaim_inv s'.
Proof.
  intros [E1 E2 E3 E4 E5 E6] [[I F P Lo] S].
  assert (∀ z zd', zones s' !! z = Some zd' → ∃ zd, zones s !! z = Some zd ∧ same_zone zd zd') as Hz.
  { intros z zd' H. pose proof (E3 z) as E. rewrite H in E. inversion E; subst. eauto. }
  assert (∀ z, is_Some (zones s !! z) → is_Some (zones s' !! z)) as Hz'.
  { intros z [zd H]. pose proof (E3 z) as E. rewrite H in E. inversion E; subst. by eexists. }
  destruct s as [a1 a2 a3 a4 a5 a6 a7 a8 a9 a10 a11], s' as [b1 b2 b3 b4 b5 b6 b7 b8 b9 b10 b11]. cbn in *. subst.
  split; [split; [|exact F|exact P|exact Lo]|exact S].
  destruct I as [H1 H2 H3 H4 H5 H6 H7 H8 H9 H10 H11 H12 H13].
  split; [exact H1|exact H2|exact H3|exact H4| | | |exact H8|exact H9|exact H10|exact H11|exact H12|exact H13]; cbn in *.
  - intros z zd' l (zd & H & _ & E)%Hz Hn Hl. rewrite E by done. by apply H5.
  - intros z zd' (zd & H & E & _)%Hz. rewrite E. by apply H6.
  - intros p pg Hp. destruct (H7 p pg Hp). auto.
Qed.

(** A zone changes, but not its lock and its counters. *)
Lemma reclaim_zset s z zd zd' : reclaim_inv s → zones s !! z = Some zd → vm_stat zd' = vm_stat zd → lru_lock zd' = lru_lock zd →
  reclaim_inv (zset z zd' s).
Proof.
  intros [[I F P Lo] S] Hz E1 E2. split; [split; [|exact F|exact P|exact Lo]|exact S].
  eapply inv_zset; [exact I|exact Hz| |done| |done].
  - intros l _. rewrite E1. lia.
  - rewrite E2. by apply (inv_lock _ _ _ _ _ _ I).
Qed.

Section zones.
Context `{R : Reclaim} {L : ReclaimLaws R} {K : ReclaimSteady R}.

Lemma steady_populated s s' z : steady s s' → populated z s → populated z s'.
Proof.
  intros [H _ _ _ _] (p & pg & Hp & Hz). pose proof (H p) as E. rewrite Hp in E. destruct (pages s' !! p) as [pg'|] eqn:Hp'; [|done].
  exists p, pg'. split; [done|]. simpl in E. congruence.
Qed.

Lemma steady_same_pages s s' : steady s s' → same_pages s s'.
Proof.
  intros [H _ _ _ _] q. pose proof (H q) as E. destruct (pages s !! q), (pages s' !! q); try done; split; by eexists.
Qed.

(** What holds throughout: the invariant, and what is known of the first state [s0]. *)
Definition sound (s0 s : lst) : Prop := reclaim_inv s ∧ steady s0 s.

Lemma sound_zone s0 s z : sound s0 s → populated z s0 → ∃ zd, zones s !! z = Some zd.
Proof.
  intros [V St] P. destruct (steady_populated _ _ _ St P) as (p & pg & Hp & <-).
  by destruct (inv_zone _ _ _ _ _ _ (li_inv _ _ _ _ _ _ (ri_lru _ V)) p pg Hp) as [[zd Hz] _]; exists zd.
Qed.

(** A call within its contract. *)
Lemma sound_call s0 s c : sound s0 s → contract c s → runs (run_call c) s (λ _ s', sound s0 s').
Proof.
  intros [V St] C. eapply runs_mono; [apply runs_ends; [by apply run_call_inv|apply run_call_steady]|]. cbn beta.
  intros _ s' [V' St']. split; [done|by etrans].
Qed.

(** What other tasks and shrinkers do meanwhile. *)
Inductive meanwhile (s : lst) : lst → Prop :=
  | M_none : meanwhile s s
  | M_call s1 s2 : meanwhile s s1 → step s1 s2 → meanwhile s s2
  | M_other s1 s2 : meanwhile s s1 → same_lru s1 s2 → steady s1 s2 → meanwhile s s2.

Lemma sound_meanwhile s0 s s' : sound s0 s → meanwhile s s' → sound s0 s'.
Proof.
  intros S. induction 1 as [|s1 s2 _ [V St] [c s2' C Hrun]|s1 s2 _ [V St] E St2]; [done| |].
  - split; [|etrans; [exact St|by eapply run_call_steady]].
    destruct (run_call_inv c s1 V C) as ([] & s3 & Hrun' & V3). congruence.
  - split; [by eapply same_lru_inv|by etrans].
Qed.

(** What the balancing of zones relies on of shrinkers and waits. *)
Class BalanceLaws (B : Balance) : Prop := {
  shrinker_law sh gfp n s : sh ∈ shrinker_list → reclaim_inv s → runs (shrink sh gfp n) s (λ _ s', meanwhile s s');
  shrinker_seeks sh : sh ∈ shrinker_list → u32 (seeks sh) ≠ 0;
  shrinker_batch sh : sh ∈ shrinker_list → 0 <= batch sh;
  throttle_law gfp s : reclaim_inv s → runs (throttle_vm_writeout gfp) s (λ _ s', meanwhile s s');
  wait_law s : reclaim_inv s → runs wait_iff_congested s (λ _ s', meanwhile s s');
  token_law s : reclaim_inv s → runs disable_swap_token s (λ _ s', meanwhile s s');
  flusher_law n s : reclaim_inv s → runs (wakeup_flusher_threads n) s (λ _ s', meanwhile s s');
}.

Context `{B : Balance} {BL : BalanceLaws B}.

Lemma sound_shrink_active s0 s nr z sc file : sound s0 s → populated z s0 →
  runs (shrink_active_list nr z sc file) s (λ sc' s', sound s0 s' ∧ fit sc sc').
Proof.
  intros S P. pose proof S as [V St].
  destruct (sound_call s0 s (Shrink_active_list nr z sc file) S) as ([] & s' & Hrun & S'); [by eapply steady_populated|].
  cbn [run_call] in Hrun. unfold ignore in Hrun. apply bind_Ok_inv in Hrun as (sc' & s1 & Hrun & E). rewrite ret_Ok in E. injection E as <-.
  exists sc', s1. split; [done|]. split; [done|]. by eapply shrink_active_list_fit.
Qed.

Lemma sound_shrink_inactive s0 s n nr z sc prio file : sound s0 s → populated z s0 → memmap (order sc) s0 →
  runs (shrink_inactive_list n nr z sc prio file) s (λ r s', sound s0 s' ∧ fit sc r.2).
Proof.
  intros S P Mm. pose proof S as [V St].
  destruct (sound_call s0 s (Shrink_inactive_list n nr z sc prio file) S) as ([] & s' & Hrun & S').
  { split; [by eapply steady_populated|]. by eapply same_memmap; [apply steady_same_pages|]. }
  cbn [run_call] in Hrun. unfold ignore in Hrun. apply bind_Ok_inv in Hrun as (r & s1 & Hrun & E). rewrite ret_Ok in E. injection E as <-.
  exists r, s1. split; [done|]. split; [done|]. by eapply shrink_inactive_list_fit.
Qed.

Lemma sound_shrink_list s0 s w lru nr z sc prio : sound s0 s → populated z s0 → memmap (order sc) s0 →
  runs (shrink_list w lru nr z sc prio) s (λ r s', sound s0 s' ∧ fit sc r.2).
Proof.
  intros S P Mm. unfold shrink_list. destruct (is_active_lru lru); [|by apply sound_shrink_inactive].
  destruct (sound_zone _ _ _ S P) as [zd Hz]. apply runs_bind. eapply runs_ok; [by apply zone_at_run|].
  destruct (inactive_list_is_low _ _); [|by apply runs_ret]. apply runs_bind.
  eapply runs_mono; [by apply sound_shrink_active|]. cbn beta. intros sc' s' ?. by apply runs_ret.
Qed.

(** ** The loop of a zone *)

Definition after_batch (nr : gmap Z Z) (lrus : list Z) (nr' : gmap Z Z) : Prop :=
  ∀ l, stat nr' l = if decide (l ∈ lrus) then stat nr l - Z.min (stat nr l) SWAP_CLUSTER_MAX else stat nr l.

Lemma stat_insert (m : gmap Z Z) i j x : stat (<[i := x]> m) j = if decide (i = j) then x else stat m j.
Proof. unfold stat. case_decide; [subst; by rewrite lookup_insert_eq|by rewrite lookup_insert_ne]. Qed.

Lemma sound_shrink_lists s0 w z prio lrus : NoDup lrus → ∀ nr rec sc s, sound s0 s → populated z s0 → memmap (order sc) s0 →
  runs (shrink_lists w lrus z prio nr rec sc) s (λ r s', sound s0 s' ∧ after_batch nr lrus r.1.1 ∧ fit sc r.2).
Proof.
  induction 1 as [|l lrus Hl Hnd IH]; intros nr rec sc s S P Mm; cbn [shrink_lists].
  { apply runs_ret. split; [done|]. split; [|done]. intros l. by rewrite decide_False by (apply not_elem_of_nil). }
  destruct (Z.eqb_spec (stat nr l) 0) as [E|E].
  - eapply runs_mono; [by apply IH|]. cbn beta. intros [[nr' rec'] sc'] s' (S' & A & F). split_and!; [done| |done].
    intros k. rewrite (A k). destruct (decide (k ∈ lrus)); [by rewrite decide_True by (by right)|].
    case_decide as Hk; [|done]. apply elem_of_cons in Hk as [->|]; [|done]. unfold SWAP_CLUSTER_MAX. lia.
  - apply runs_bind. eapply runs_mono; [by apply sound_shrink_list|]. cbn beta. intros [r sc1] s1 [S1 F1]. cbn [fst snd] in *.
    eapply runs_mono; [apply IH; [done|done|by rewrite (proj1 F1)]|]. cbn beta. intros [[nr' rec'] sc'] s' (S' & A & F). cbn [fst snd] in *.
    split_and!; [done| |by etrans]. intros k. rewrite (A k), !stat_insert. destruct (decide (l = k)) as [->|].
    + rewrite decide_False by done. by rewrite decide_True by left.
    + destruct (decide (k ∈ lrus)); [by rewrite decide_True by (by right)|]. by rewrite decide_False by (by intros [->|]%elem_of_cons).
Qed.

Lemma sound_zone_loop s0 w z prio target n : ∀ nr rec sc s, sound s0 s → populated z s0 → memmap (order sc) s0 →
  (∀ l, 0 <= stat nr l) → stat nr LRU_INACTIVE_ANON + stat nr LRU_ACTIVE_FILE + stat nr LRU_INACTIVE_FILE <= Z.of_nat n →
  runs (shrink_zone_loop n w z prio target nr rec sc) s (λ r s', sound s0 s' ∧ fit sc r.2).
Proof.
  induction n as [|n IH]; intros nr rec sc s S P Mm Hnn Hsum; cbn [shrink_zone_loop];
    pose proof (Hnn LRU_INACTIVE_ANON); pose proof (Hnn LRU_ACTIVE_FILE); pose proof (Hnn LRU_INACTIVE_FILE).
  { replace (stat nr LRU_INACTIVE_ANON) with 0 by lia. replace (stat nr LRU_ACTIVE_FILE) with 0 by lia.
    replace (stat nr LRU_INACTIVE_FILE) with 0 by lia. by apply runs_ret. }
  destruct (_ && _) eqn:Etest; [by apply runs_ret|]. apply runs_bind.
  eapply runs_mono; [apply (sound_shrink_lists s0 w z prio evictable_lrus); [|done|done|done]|].
  { apply (bool_decide_unpack _). vm_compute. exact I. }
  cbn beta. intros [[nr' rec'] sc'] s' (S' & A & F). cbn [fst snd] in *. destruct ((target <=? _) && _); [by apply runs_ret|].
  assert (∀ l, 0 <= stat nr' l <= stat nr l) as Hle.
  { intros l. rewrite (A l). pose proof (Hnn l). unfold SWAP_CLUSTER_MAX. case_decide; lia. }
  assert (∀ l, l ∈ evictable_lrus → stat nr' l = stat nr l - Z.min (stat nr l) 32) as HA.
  { intros l Hl. rewrite (A l). by rewrite decide_True. }
  eapply runs_mono; [apply IH; [done|done|by rewrite (proj1 F)|by intros l; apply Hle|]|].
  - rewrite !HA by (apply (bool_decide_unpack _); vm_compute; exact I).
    rewrite !andb_false_iff, !Z.eqb_neq in Etest. lia.
  - cbn beta. intros r s2 [S2 F2]. split; [done|by etrans].
Qed.

(** ** How much is scanned *)

Lemma udiv_run a b s : b ≠ 0 → udiv a b s = Ok (a / b, s).
Proof. intros H. unfold udiv. by rewrite (proj2 (Z.eqb_neq b 0)). Qed.

Lemma u32_small z : 0 <= z < 2 ^ 32 → u32 z = z.
Proof. apply u32_id. Qed.

Lemma scan_share_run zd lru prio noswap force fr d s : d ≠ 0 →
  ∃ n, scan_share zd lru prio noswap force fr d s = Ok (n, s) ∧ 0 <= n.
Proof.
  intros Hd. unfold scan_share. destruct (_ || _ || _).
  - erewrite bind_Ok by (by apply udiv_run). eexists. split; [done|]. apply u32_range.
  - eexists. split; [done|]. apply u32_range.
Qed.

Lemma scan_shares_run z zd prio noswap force fr d s lrus : d ≠ 0 → zones s !! z = Some zd →
  ∀ nr, (∀ l, 0 <= stat nr l) → ∃ nr', scan_shares lrus z prio noswap force fr d nr s = Ok (nr', s) ∧ ∀ l, 0 <= stat nr' l.
Proof.
  intros Hd Hz. induction lrus as [|l lrus IH]; intros nr Hnn; cbn [scan_shares]; [by exists nr|].
  erewrite bind_Ok by (by apply zone_at_run). destruct (scan_share_run zd l prio noswap force fr d s Hd) as (n & E & Hn).
  erewrite bind_Ok by exact E. apply IH. intros k. rewrite stat_insert. case_decide; [done|apply Hnn].
Qed.

(** The statistics of recent scans are far from the bounds of their type. *)
Definition recent_small (zd : zone) : Prop :=
  ∀ i, 0 <= stat (recent_scanned zd) i < 2 ^ 23 ∧ 0 <= stat (recent_rotated zd) i < 2 ^ 23.

(** Nothing is divided by zero in the balance between anonymous and file pages. *)
Definition balanced_shares (z : Z) (sc : scan_control) (s : lst) : Prop :=
  may_swap sc = false ∨ nr_swap_pages s <= 0 ∨
  0 <= vm_swappiness <= 200 ∧ ∀ zd, zones s !! z = Some zd → recent_small zd.

Lemma halve_small i pages zd : recent_small zd → recent_small (halve i pages zd).
Proof.
  intros H. unfold halve. case_match; [|done]. intros j. cbn [recent_scanned recent_rotated set_recent]. rewrite !stat_insert.
  destruct (decide (i = j)) as [<-|]; [|apply H]. destruct (H i) as [H1 H2]. rewrite !u32_small by lia.
  split; (split; [apply Z.div_pos; lia|apply Z.div_lt_upper_bound; lia]).
Qed.

Lemma halve_same i pages zd : vm_stat (halve i pages zd) = vm_stat zd ∧ lru_lock (halve i pages zd) = lru_lock zd.
Proof. unfold halve. by case_match. Qed.

(** The pressure on one kind of pages. *)
Lemma pressure prio rs rr s : 0 <= prio <= 200 → 0 <= rs < 2 ^ 23 → 0 <= rr < 2 ^ 23 →
  ∃ p, udiv (u32 (u32 prio * u32 (rs + 1))) (u32 (rr + 1)) s = Ok (p, s) ∧ 0 <= p <= prio * 2 ^ 23.
Proof.
  intros Hp Hs Hr. rewrite (u32_small prio), (u32_small (rs + 1)), (u32_small (rr + 1)), u32_small by nia.
  eexists. split; [apply udiv_run; lia|]. split; [apply Z.div_pos; lia|].
  transitivity (prio * (rs + 1)); [|nia]. apply Z.div_le_upper_bound; nia.
Qed.

Lemma zset_zset z zd zd' s : zset z zd (zset z zd' s) = zset z zd s.
Proof. unfold zset, set_zones. cbn. by rewrite insert_insert_eq. Qed.

Lemma zset_at z zd s : zones (zset z zd s) !! z = Some zd.
Proof. apply lookup_insert_eq. Qed.

Lemma get_scan_count_sound s0 s z sc prio : sound s0 s → populated z s0 → balanced_shares z sc s →
  runs (get_scan_count z sc prio) s (λ nr s', sound s0 s' ∧ ∀ l, 0 <= stat nr l).
Proof.
  intros S P Hsafe. destruct (sound_zone _ _ _ S P) as [zd Hz]. unfold get_scan_count.
  assert (∀ noswap fr d s' zd', d ≠ 0 → sound s0 s' → zones s' !! z = Some zd' →
    runs (scan_shares evictable_lrus z prio noswap (current_is_kswapd && all_unreclaimable zd) fr d ∅) s'
      (λ nr s', sound s0 s' ∧ ∀ l, 0 <= stat nr l)) as Hout.
  { intros noswap fr d s' zd' Hd S' Hz'.
    destruct (scan_shares_run z zd' prio noswap (current_is_kswapd && all_unreclaimable zd) fr d s' evictable_lrus Hd Hz' ∅) as (nr & E & Hnn).
    - intros l. unfold stat. by rewrite lookup_empty.
    - by exists nr, s'. }
  apply runs_bind. eapply runs_ok; [by apply zone_at_run|]. apply runs_bind, runs_gets.
  destruct (negb (may_swap sc) || (nr_swap_pages s <=? 0)) eqn:Eswap; [by eapply Hout|].
  apply orb_false_iff in Eswap as [E1%negb_false_iff E2%Z.leb_gt].
  destruct (u32 (_ + zone_page_state zd NR_FREE_PAGES) <=? _); [by eapply Hout|].
  destruct Hsafe as [?|[?|[Hsw Hsmall]]]; [congruence|lia|]. specialize (Hsmall zd Hz).
  set (anon := u32 (zone_nr_lru_pages zd LRU_ACTIVE_ANON + _)). set (file := u32 (zone_nr_lru_pages zd LRU_ACTIVE_FILE + _)).
  destruct S as [V St]. apply runs_bind. eapply r_lock; [apply (ri_lru _ V)|exact Hz|]. intros s1 -> _.
  set (zd1 := set_lru_lock true zd). apply runs_bind. eapply runs_ok; [apply upd_zone_run, zset_at|]. rewrite zset_zset.
  apply runs_bind. eapply runs_ok; [apply upd_zone_run, zset_at|]. rewrite zset_zset. set (zd2 := halve 1 file (halve 0 anon zd1)).
  assert (recent_small zd2) as Hs2 by (apply halve_small, halve_small; exact Hsmall).
  apply runs_bind. eapply runs_ok; [apply zone_at_run, zset_at|]. destruct (Hs2 0) as [A1 A2], (Hs2 1) as [B1 B2].
  unfold vmscan_swappiness. assert (0 <= 200 - vm_swappiness <= 200) as Hsw' by lia.
  destruct (pressure _ _ _ (zset z zd2 s) Hsw A1 A2) as (ap & Eap & Hap).
  destruct (pressure _ _ _ (zset z zd2 s) Hsw' B1 B2) as (fp & Efp & Hfp).
  apply runs_bind. eapply runs_ok; [exact Eap|]. apply runs_bind. eapply runs_ok; [exact Efp|].
  apply runs_bind. eapply runs_ok; [apply upd_zone_run, zset_at|]. rewrite zset_zset.
  eapply Hout; [rewrite u32_small; lia| |apply zset_at]. split; [|etrans; [exact St|by split]].
  eapply reclaim_zset; [exact V|exact Hz| |].
  - cbn. subst zd2. rewrite (proj1 (halve_same _ _ _)), (proj1 (halve_same _ _ _)). done.
  - cbn. by rewrite (inv_lock _ _ _ _ _ _ (li_inv _ _ _ _ _ _ (ri_lru _ V)) _ _ Hz).
Qed.

(** ** A zone *)

Lemma shrink_zone_sound s0 s w prio z sc : sound s0 s → populated z s0 → memmap (order sc) s0 → no_compaction sc →
  balanced_shares z sc s → runs (shrink_zone w prio z sc) s (λ sc' s', sound s0 s' ∧ fit sc sc').
Proof.
  intros S P Mm Hc Hsafe. unfold shrink_zone, shrink_mem_cgroup_zone. apply runs_bind.
  eapply runs_mono; [by apply get_scan_count_sound|]. cbn beta. intros nr s1 [S1 Hnn]. apply runs_bind.
  eapply runs_mono; [apply sound_zone_loop; [exact S1|exact P|exact Mm|exact Hnn|]|].
  { unfold scan_fuel. pose proof (Hnn LRU_INACTIVE_ANON). pose proof (Hnn LRU_ACTIVE_FILE). pose proof (Hnn LRU_INACTIVE_FILE). lia. }
  cbn beta. intros [rec sc2] s2 [S2 F2]. cbn [snd] in F2. set (sc3 := add_reclaimed rec sc2).
  assert (fit sc sc3) as F3 by exact F2. clearbody sc3.
  destruct (sound_zone _ _ _ S2 P) as [zd2 Hz2]. apply runs_bind. eapply runs_ok; [by apply zone_at_run|].
  apply runs_bind. apply (runs_mono _ _ (λ sc' s', sound s0 s' ∧ fit sc sc')).
  { destruct (inactive_anon_is_low zd2); [|by apply runs_ret]. eapply runs_mono; [by apply sound_shrink_active|]. cbn beta.
    intros sc4 s4 [S4 F4]. split; [done|by etrans]. }
  intros sc4 s4 [S4 F4]. destruct (sound_zone _ _ _ S4 P) as [zd4 Hz4]. apply runs_bind. eapply runs_ok; [by apply zone_at_run|].
  apply runs_bind, runs_gets. unfold should_continue_reclaim. rewrite (proj1 (proj2 F4) Hc). cbn [negb].
  apply runs_bind. eapply runs_mono; [apply throttle_law, S4|]. cbn beta. intros [] s5 Mw. apply runs_ret.
  split; [by eapply sound_meanwhile|done].
Qed.

(** ** Shrinkers *)

Lemma sound_same s0 s s' : sound s0 s → same_lru s s' → steady s s' → sound s0 s'.
Proof. intros [V St] E St'. split; [by eapply same_lru_inv|by etrans]. Qed.

Lemma sound_slab s0 s x : sound s0 s → (is_Some (reclaimed_slab (slab s)) → is_Some (reclaimed_slab x)) → sound s0 (set_slab x s).
Proof. intros S H. eapply sound_same; [exact S|by split|by split]. Qed.

Lemma sound_events s0 s e n : sound s0 s → runs (count_vm_events e n) s (λ _ s', sound s0 s').
Proof. intros S. apply runs_modify. eapply sound_same; [exact S|by split|by split]. Qed.

(** A step of the environment. *)
Lemma sound_env {A} s0 s (m : M lst A) : sound s0 s → runs m s (λ _ s', meanwhile s s') → runs m s (λ _ s', sound s0 s').
Proof. intros S Hm. eapply runs_mono; [exact Hm|]. cbn beta. intros a s'. by apply sound_meanwhile. Qed.

Lemma sound_shrinker s0 s sh gfp n : sound s0 s → sh ∈ shrinker_list → runs (do_shrinker_shrink sh gfp n) s (λ _ s', sound s0 s').
Proof. intros S Hin. apply sound_env; [done|]. by apply shrinker_law; [|apply S]. Qed.

Lemma sound_batches s0 sh gfp b n : sh ∈ shrinker_list → 0 < b → ∀ total ret s, sound s0 s → total <= Z.of_nat n →
  runs (shrink_batches n sh gfp b total ret) s (λ _ s', sound s0 s').
Proof.
  intros Hin Hb. induction n as [|n IH]; intros total ret s S Hn; cbn [shrink_batches];
    (destruct (Z.ltb_spec total b); [by apply runs_ret|]); [lia|].
  apply runs_bind. eapply runs_mono; [by apply sound_shrinker|]. cbn beta. intros before s1 S1.
  apply runs_bind. eapply runs_mono; [by apply sound_shrinker|]. cbn beta. intros r s2 S2.
  destruct (r =? -1); [by apply runs_ret|]. apply runs_bind. eapply runs_mono; [by apply sound_events|]. cbn beta.
  intros _ s3 S3. apply IH; [done|lia].
Qed.

Lemma sound_shrink_one s0 s sh gfp scanned lru ret : sound s0 s → sh ∈ shrinker_list → u32 (lru + 1) ≠ 0 →
  runs (shrink_one sh gfp scanned lru ret) s (λ _ s', sound s0 s').
Proof.
  intros S Hin Hl. unfold shrink_one. apply runs_bind. eapply runs_mono; [by apply sound_shrinker|]. cbn beta. intros max s1 S1.
  destruct (max <=? 0); [by apply runs_ret|]. apply runs_bind. unfold take_batch. apply runs_bind, runs_gets, runs_bind, runs_modify, runs_ret.
  set (nr := stat _ _). apply runs_bind. eapply runs_ok; [by apply udiv_run, shrinker_seeks|].
  apply runs_bind. eapply runs_ok; [by apply udiv_run|]. set (total := slab_total_scan _ _ _).
  apply runs_bind. eapply runs_mono; [apply sound_batches; [done| |by apply sound_slab|lia]|].
  { pose proof (shrinker_batch sh Hin). unfold SHRINK_BATCH. destruct (Z.eqb_spec (batch sh) 0); lia. }
  cbn beta. intros [rest ret'] s2 S2. cbn [fst snd]. apply runs_bind, runs_when.
  - intros _. unfold give_batch. apply runs_bind, runs_gets, runs_modify, runs_ret. by apply sound_slab.
  - intros _. by apply runs_ret.
Qed.

Lemma sound_shrink_slab s0 s gfp scanned lru : sound s0 s → u32 (lru + 1) ≠ 0 →
  runs (shrink_slab gfp scanned lru) s (λ _ s', sound s0 s').
Proof.
  intros S Hl. unfold shrink_slab. generalize (if scanned =? 0 then SWAP_CLUSTER_MAX else scanned). intros n.
  destruct shrinker_rwsem_busy; [by apply runs_ret|]. generalize 0. revert s S.
  assert (∀ sh, sh ∈ shrinker_list → sh ∈ shrinker_list) as Hall by done. revert Hall. generalize shrinker_list at 1 3.
  intros l. induction l as [|sh l IH]; intros Hall s S ret; cbn [shrink_slabs]; [by apply runs_ret|].
  apply runs_bind. eapply runs_mono; [apply sound_shrink_one; [done| |done]; apply Hall; left|]. cbn beta. intros ret' s1 S1.
  apply IH; [|done]. intros sh' H. apply Hall. by right.
Qed.

(** ** The pages on the lists *)

Definition lru_lists (s : lst) (zs : list Z) : list Z := zs ≫= λ z, evictable_lrus ≫= λ l, list_at s (z, l).

Lemma lru_lists_length s zs : reclaim_inv s → NoDup zs → (length (lru_lists s zs) <= size (pages s))%nat.
Proof.
  intros V Hnd. pose proof (li_inv _ _ _ _ _ _ (ri_lru _ V)) as I.
  assert (NoDup (lru_lists s zs)) as Hl.
  { apply NoDup_bind; [| |done].
    - intros z1 z2 p _ _ (l1 & H1 & _)%list_elem_of_bind (l2 & H2 & _)%list_elem_of_bind.
      by injection (inv_disj _ _ _ _ _ _ I _ _ _ H1 H2).
    - intros z _. apply NoDup_bind; [|intros l _; apply (inv_nodup _ _ _ _ _ _ I)|].
      + intros l1 l2 p _ _ H1 H2. by injection (inv_disj _ _ _ _ _ _ I _ _ _ H1 H2).
      + apply (bool_decide_unpack _). vm_compute. exact Logic.I. }
  rewrite <- (size_list_to_set (C := gset Z) _ Hl), <- (size_dom (D := gset Z)). apply subseteq_size.
  intros p Hp%elem_of_list_to_set. apply list_elem_of_bind in Hp as (z & (l & Hp & _)%list_elem_of_bind & _).
  destruct (inv_page _ _ _ _ _ _ I _ _ Hp ltac:(done)) as (pg & Hpg & _). by eapply elem_of_dom_2.
Qed.

Lemma steady_size s s' : steady s s' → size (pages s') = size (pages s).
Proof.
  intros St. rewrite <- !(size_dom (D := gset Z)). f_equal. apply set_eq. intros p. rewrite !elem_of_dom.
  symmetry. apply (steady_same_pages _ _ St p).
Qed.

Lemma zone_reclaimable_le s z zd swap : reclaim_inv s → zones s !! z = Some zd → 0 <= z →
  0 <= zone_reclaimable_pages zd swap <= Z.of_nat (length (evictable_lrus ≫= λ l, list_at s (z, l))).
Proof.
  intros V Hz Hn. pose proof (li_inv _ _ _ _ _ _ (ri_lru _ V)) as I.
  assert (∀ l, 0 <= l <= 4 → 0 <= zone_page_state zd (NR_LRU_BASE + l) <= Z.of_nat (length (list_at s (z, l)))) as Hl.
  { intros l Hl. unfold zone_page_state. rewrite (inv_stat _ _ _ _ _ _ I z zd l Hz Hn ltac:(by left)), Z.add_0_r.
    split; [apply u32_range|]. apply Z.mod_le; lia. }
  pose proof (Hl LRU_INACTIVE_ANON ltac:(done)) as H0. pose proof (Hl LRU_ACTIVE_ANON ltac:(done)) as H1.
  pose proof (Hl LRU_INACTIVE_FILE ltac:(done)) as H2. pose proof (Hl LRU_ACTIVE_FILE ltac:(done)) as H3.
  change (NR_LRU_BASE + LRU_INACTIVE_ANON) with NR_INACTIVE_ANON in H0. change (NR_LRU_BASE + LRU_ACTIVE_ANON) with NR_ACTIVE_ANON in H1.
  change (NR_LRU_BASE + LRU_INACTIVE_FILE) with NR_INACTIVE_FILE in H2. change (NR_LRU_BASE + LRU_ACTIVE_FILE) with NR_ACTIVE_FILE in H3.
  unfold evictable_lrus. cbn [mbind list_bind]. rewrite !length_app. change (length (@nil Z)) with O. unfold zone_reclaimable_pages. cbv zeta.
  split; [apply u32_range|]. etrans; [apply Z.mod_le; destruct (0 <? swap); lia|]. destruct (0 <? swap); lia.
Qed.

Lemma count_lru_pages_run s zs : reclaim_inv s → (∀ z, z ∈ zs → 0 <= z ∧ is_Some (zones s !! z)) → ∀ acc, 0 <= acc →
  acc + Z.of_nat (length (lru_lists s zs)) < 2 ^ 32 →
  ∃ n, count_lru_pages zs acc s = Ok (n, s) ∧ 0 <= n <= acc + Z.of_nat (length (lru_lists s zs)).
Proof.
  intros V. induction zs as [|z zs IH]; intros Hz acc Ha Hlt; cbn [count_lru_pages]; [exists acc; split; [done|lia]|].
  destruct (Hz z ltac:(left)) as [Hn [zd Hzd]]. erewrite bind_Ok by (by apply zone_at_run). erewrite bind_Ok by done.
  pose proof (zone_reclaimable_le s z zd (nr_swap_pages s) V Hzd Hn) as Hr.
  change (lru_lists s (z :: zs)) with ((evictable_lrus ≫= λ l, list_at s (z, l)) ++ lru_lists s zs) in *.
  rewrite length_app in *. rewrite u32_small by lia.
  destruct (IH ltac:(intros z' ?; apply Hz; by right) (acc + zone_reclaimable_pages zd (nr_swap_pages s)) ltac:(lia) ltac:(lia)) as (n & E & Hle).
  exists n. split; [exact E|lia].
Qed.

Lemma count_lru_pages_sound s0 s zs : sound s0 s → Z.of_nat (size (pages s0)) < 2 ^ 32 - 1 → NoDup zs → (∀ z, z ∈ zs → populated z s0) →
  ∃ n, count_lru_pages zs 0 s = Ok (n, s) ∧ u32 (n + 1) ≠ 0.
Proof.
  intros [V St] Hfit Hnd Hpop. pose proof (lru_lists_length s zs V Hnd) as Hl. rewrite (steady_size _ _ St) in Hl.
  destruct (count_lru_pages_run s zs V) with (acc := 0) as (n & E & Hn); [|lia|lia|].
  - intros z Hz. destruct (steady_populated _ _ _ St (Hpop z Hz)) as (p & pg & Hp & <-).
    by destruct (inv_zone _ _ _ _ _ _ (li_inv _ _ _ _ _ _ (ri_lru _ V)) p pg Hp).
  - exists n. split; [done|]. rewrite u32_small; lia.
Qed.

(** A zone changes, but not its lock and the counters of its lists. *)
Lemma sound_upd_zone s0 s z f : sound s0 s → populated z s0 → (∀ zd, same_zone zd (f zd)) → runs (upd_zone z f) s (λ _ s', sound s0 s').
Proof.
  intros S P Hf. destruct (sound_zone _ _ _ S P) as [zd Hz]. eapply runs_ok; [by apply upd_zone_run|].
  eapply sound_same; [exact S| |by split]. split; try done. intros z'. cbn. destruct (decide (z = z')) as [<-|].
  - rewrite lookup_insert_eq, Hz. by constructor.
  - by rewrite lookup_insert_ne.
Qed.

(** ** Direct reclaim *)

(** As [fit], but the mask may come to allow more zones. *)
Definition near (sc sc' : scan_control) : Prop :=
  order sc' = order sc ∧ (no_compaction sc → no_compaction sc') ∧ gfp_zone (gfp_mask sc) <= gfp_zone (gfp_mask sc').

#[global] Instance near_preorder : PreOrder near.
Proof.
  split; [intros sc; by split_and!|]. intros a b c (E1 & H1 & G1) (E2 & H2 & G2). split_and!; [congruence|auto|lia].
Qed.

Lemma fit_near sc sc' : fit sc sc' → near sc sc'.
Proof. intros (E & H & G). split_and!; [done|done|by rewrite G]. Qed.

Lemma gfp_zone_highmem gfp : gfp_zone gfp <= gfp_zone (Z.lor gfp __GFP_HIGHMEM).
Proof.
  unfold gfp_zone. rewrite Z.land_lor_distr_l. change (Z.land __GFP_HIGHMEM GFP_ZONEMASK) with 2.
  assert (0 <= Z.land gfp GFP_ZONEMASK < 2 ^ 4) as Hr.
  { change GFP_ZONEMASK with (Z.ones 4). rewrite Z.land_ones by done. apply Z.mod_pos_bound. done. }
  revert Hr. generalize (Z.land gfp GFP_ZONEMASK). intros k Hk. change (2 ^ 4) with 16 in Hk.
  assert (k ∈ seqZ 0 16) as Hin by (apply elem_of_seqZ; lia). clear Hk. revert k Hin. apply Forall_forall.
  apply (bool_decide_unpack _). vm_compute. exact I.
Qed.

Section direct.
Variables (s0 : lst) (zonelist : list Z).
Hypothesis no_swap : total_swap_pages = 0 ∧ nr_swap_pages s0 <= total_swap_pages.
Hypothesis zonelist_nodup : NoDup zonelist.
Hypothesis zonelist_populated : ∀ z, z ∈ zonelist → populated z s0.
Hypothesis pages_fit : Z.of_nat (size (pages s0)) < 2 ^ 32 - 1.

Lemma upto_elem z i : z ∈ zones_upto zonelist i → z ∈ zonelist.
Proof. by intros [_ ?]%list_elem_of_filter. Qed.

Lemma sound_no_swap s : sound s0 s → nr_swap_pages s <= 0.
Proof. intros [_ [_ H _ _ _]]. destruct no_swap as [E Hle]. rewrite <- E. by apply H. Qed.

Lemma sound_shrink_zones_loop w prio zs : (∀ z, z ∈ zs → z ∈ zonelist) → ∀ sc s, sound s0 s → memmap (order sc) s0 → no_compaction sc →
  runs (shrink_zones_loop zs w prio sc) s (λ sc' s', sound s0 s' ∧ fit sc sc').
Proof.
  intros Hzs. induction zs as [|z zs IH]; intros sc s S Mm Hc; cbn [shrink_zones_loop]; [by apply runs_ret|].
  assert (∀ z, z ∈ zs → z ∈ zonelist) as Hzs' by (intros z' ?; apply Hzs; by right).
  assert (populated z s0) as P by (apply zonelist_populated, Hzs; left).
  destruct (sound_zone _ _ _ S P) as [zd Hz]. apply runs_bind. eapply runs_ok; [by apply zone_at_run|].
  destruct (negb (populated_zone zd)); [by apply IH|]. destruct (_ && _); [by apply IH|].
  apply runs_bind. eapply runs_mono; [apply shrink_zone_sound; [done|done|done|done|]|].
  { right. left. by apply sound_no_swap. }
  cbn beta. intros sc1 s1 [S1 F1]. eapply runs_mono; [apply IH; [done|done|by rewrite (proj1 F1)|by apply F1]|].
  cbn beta. intros sc2 s2 [S2 F2]. split; [done|by etrans].
Qed.

Lemma sound_shrink_zones w prio sc s : sound s0 s → memmap (order sc) s0 → no_compaction sc →
  runs (shrink_zones w prio zonelist sc) s (λ sc' s', sound s0 s' ∧ near sc sc').
Proof.
  intros S Mm Hc. unfold shrink_zones. set (sc1 := if buffer_heads_over_limit then _ else _).
  assert (near sc sc1) as N.
  { subst sc1. destruct buffer_heads_over_limit; [|done]. split_and!; [done|done|]. apply gfp_zone_highmem. }
  clearbody sc1. eapply runs_mono; [apply sound_shrink_zones_loop; [by intros z ?%upto_elem|done|by rewrite (proj1 N)|by apply N]|].
  cbn beta. intros sc2 s2 [S2 F2]. split; [done|]. etrans; [exact N|by apply fit_near].
Qed.

Lemma sound_collect_slab sc s : sound s0 s → runs (collect_slab sc) s (λ sc' s', sound s0 s' ∧ near sc sc').
Proof.
  intros S. unfold collect_slab. apply runs_bind, runs_gets. destruct (reclaimed_slab _); [|by apply runs_ret].
  apply runs_bind, runs_modify, runs_ret. split; [by apply sound_slab|done].
Qed.

Lemma sound_free_pages_loop w gfp n : ∀ total sc s, sound s0 s → memmap (order sc) s0 → no_compaction sc →
  runs (free_pages_loop n w zonelist gfp total sc) s (λ sc' s', sound s0 s' ∧ near sc sc').
Proof.
  induction n as [|n IH]; intros total sc s S Mm Hc; cbn [free_pages_loop]; [by apply runs_ret|].
  apply runs_bind. apply (runs_mono _ _ (λ _ s', sound s0 s')).
  { apply runs_when; [|done]. intros _. apply sound_env; [done|]. by apply token_law; apply S. }
  intros _ s1 S1. apply runs_bind. eapply runs_mono; [by apply sound_shrink_zones|]. cbn beta. intros sc2 s2 [S2 N2].
  destruct (count_lru_pages_sound s0 s2 (zones_upto zonelist (gfp_zone (gfp_mask sc2)))) as (lru & E & Hl);
    [done|done|by apply NoDup_filter|by intros z ?%upto_elem; auto|]. apply runs_bind. eapply runs_ok; [exact E|].
  apply runs_bind. eapply runs_mono; [by apply sound_shrink_slab|]. cbn beta. intros _ s3 S3.
  apply runs_bind. eapply runs_mono; [by apply sound_collect_slab|]. cbn beta. intros sc4 s4 [S4 N4].
  assert (near sc sc4) as N by (etrans; [exact N2|exact N4]). clear N2 N4.
  destruct (nr_to_reclaim sc4 <=? nr_reclaimed sc4); [by apply runs_ret|].
  apply runs_bind. apply (runs_mono _ _ (λ sc' s', sound s0 s' ∧ near sc sc')).
  { destruct (_ <? _); [|by apply runs_ret]. apply runs_bind. eapply runs_mono; [apply sound_env; [exact S4|by apply flusher_law; apply S4]|].
    cbn beta. intros _ s5 S5. by apply runs_ret. }
  intros sc5 s5 [S5 N5]. apply runs_bind. apply (runs_mono _ _ (λ _ s', sound s0 s')).
  { apply runs_when; [|done]. intros _. apply sound_env; [done|]. by apply wait_law; apply S5. }
  intros _ s6 S6. eapply runs_mono; [apply IH; [done|by rewrite (proj1 N5)|by apply N5]|].
  cbn beta. intros sc7 s7 [S7 N7]. split; [done|by etrans].
Qed.

(** The zones [zs] with memory are given up. *)
Definition given_up (zs : list Z) (s : lst) : Prop :=
  ∀ z zd, z ∈ zs → zones s !! z = Some zd → populated_zone zd = true → all_unreclaimable zd = true.

Lemma zones_unreclaimable_run s zs : (∀ z, z ∈ zs → is_Some (zones s !! z)) →
  ∃ b, zones_unreclaimable zs s = Ok (b, s) ∧ (b = true → given_up zs s).
Proof.
  induction zs as [|z zs IH]; intros Hz; cbn [zones_unreclaimable].
  { exists true. split; [done|]. by intros _ z zd ?%elem_of_nil. }
  destruct (Hz z ltac:(left)) as [zd Hzd]. erewrite bind_Ok by (by apply zone_at_run).
  destruct IH as (b & E & Hb); [intros z' ?; apply Hz; by right|].
  assert (populated_zone zd = true → all_unreclaimable zd = true → b = true → given_up (z :: zs) s) as Hcons.
  { intros _ Hu Hb' z' zd' [->|Hin]%elem_of_cons Hz' Hp'; [congruence|by eapply Hb]. }
  destruct (populated_zone zd) eqn:Ep; cbn [negb].
  - destruct (all_unreclaimable zd) eqn:Eu; cbn [negb]; [by exists b; auto|]. exists false. by split.
  - exists b. split; [done|]. intros Hb' z' zd' [->|Hin]%elem_of_cons Hz' Hp'; [congruence|by eapply Hb].
Qed.

Lemma do_try_to_free_pages_sound w sc gfp s : sound s0 s → memmap (order sc) s0 → no_compaction sc →
  runs (do_try_to_free_pages w zonelist sc gfp) s (λ r s', sound s0 s' ∧
    (r = 0 → oom_killer_disabled = true ∨ given_up (zones_upto zonelist (gfp_zone (gfp_mask sc))) s')).
Proof.
  intros S Mm Hc. unfold do_try_to_free_pages. apply runs_bind. eapply runs_mono; [by apply sound_events|]. cbn beta. intros _ s1 S1.
  apply runs_bind. eapply runs_mono; [by apply sound_free_pages_loop|]. cbn beta. intros sc2 s2 [S2 N2].
  destruct (Z.eqb_spec (nr_reclaimed sc2) 0) as [E|E]; cbn [negb]; [|apply runs_ret; by split].
  destruct oom_killer_disabled; [apply runs_ret; split; [done|by left]|].
  destruct (zones_unreclaimable_run s2 (zones_upto zonelist (gfp_zone (gfp_mask sc2)))) as (b & Eb & Hb).
  { intros z Hz%upto_elem. destruct (sound_zone _ _ _ S2 (zonelist_populated z Hz)) as [zd ?]. by exists zd. }
  apply runs_bind. eapply runs_ok; [exact Eb|]. destruct b; apply runs_ret; (split; [done|]); [|done].
  intros _. right. intros z zd [Hz Hin]%list_elem_of_filter. apply Hb; [done|]. apply list_elem_of_filter. split; [|done].
  etrans; [exact Hz|]. apply N2.
Qed.
End direct.
End zones.
