(* ===== verification/VmscanKswapdInv.v ===== *)
(** * The daemon [kswapd] against the invariant

    Every pass of [balance_pgdat] and every turn of [kswapd] return and keep the invariant
    of [VmscanCalls], on a system without swap; the orders and zones that the daemon works
    with stay in range; and what [sleeping_prematurely] decides. *)

From S2P Require Import Prelude Hoare Lru LruInv LruOps LruApi Rmap Vmscan VmscanZone Watermark VmscanKswapd VmscanInv VmscanPage VmscanShrink VmscanIsolate VmscanActive VmscanInactive VmscanCalls VmscanSteady VmscanZoneInv.

(** ** When the daemon may sleep *)

(** A zone without memory, given up on, or with enough free pages above its mark. *)
Definition zone_fine (order z : Z) (zd : zone) : bool :=
  negb (populated_zone zd) || all_unreclaimable zd || zone_watermark_ok_safe zd order (high_wmark_pages zd) z 0.

Definition on_zone {A} (s : lst) (d : A) (f : zone → A) (z : Z) : A := default d (f <$> zones s !! z).

Definition all_fine (order : Z) (zs : list Z) (s : lst) : bool := forallb (λ z, on_zone s true (zone_fine order z) z) zs.

Definition sum_pages (f : Z → zone → Z) (zs : list Z) (s : lst) : Z := foldr (λ z n, on_zone s 0 (f z) z + n) 0 zs.

(** The pages of the zones that are fine; those of empty zones do not count. *)
Definition fine_pages (order : Z) : list Z → lst → Z :=
  sum_pages (λ z zd, if populated_zone zd && zone_fine order z zd then present_pages zd else 0).

(** For single pages every zone up to the class is fine; for more, zones with a quarter of
    the pages are. *)
Definition settled (order classzone : Z) (s : lst) : bool :=
  let zs := seqZ 0 (classzone + 1) in
  if order =? 0 then all_fine 0 zs s
  else Z.shiftr (u32 (sum_pages (λ _, present_pages) zs s)) 2 <=? u32 (fine_pages order zs s).

Section kswapd.
Context `{R : Reclaim} {L : ReclaimLaws R} {K : ReclaimSteady R} `{B : Balance} {BL : BalanceLaws B}.

(** What the daemon relies on when it sleeps, freezes or looks for a request to stop. Of
    [schedule] nothing is assumed but in states in which the daemon may sleep. *)
Class DaemonLaws (D : Daemon) : Prop := {
  freeze_law s : reclaim_inv s → runs try_to_freeze s (λ _ s', meanwhile s s');
  freezing_law s : runs freezing s (λ _ s', s' = s);
  stop_law s : runs kthread_should_stop s (λ _ s', s' = s);
  schedule_law order cl s : reclaim_inv s → settled order cl s = true → runs schedule s (λ _ s', meanwhile s s');
  timeout_law n s : reclaim_inv s → runs (schedule_timeout n) s (λ _ s', meanwhile s s');
  congestion_law s : reclaim_inv s → runs congestion_wait s (λ _ s', meanwhile s s');
}.

Context `{D : Daemon} {DL : DaemonLaws D}.

Section node.
Variable s0 : lst.
#[local] Notation zones_number := (nr_zones (pgdat s0)).
Hypothesis no_swap : total_swap_pages = 0 ∧ nr_swap_pages s0 <= total_swap_pages.
Hypothesis node_populated : ∀ z, 0 <= z < zones_number → populated z s0.
Hypothesis node_memmap : ∀ o, 0 <= o < MAX_ORDER → memmap o s0.
Hypothesis pages_fit : Z.of_nat (size (pages s0)) < 2 ^ 32 - 1.
Hypothesis counts_slab : is_Some (reclaimed_slab (slab s0)).
Hypothesis requests_ok : request_ok (pgdat s0).

(** ** Reading the zones *)

Lemma node_zone s z : sound s0 s → 0 <= z < zones_number → ∃ zd, zones s !! z = Some zd.
Proof. intros S Hz. by eapply sound_zone, node_populated. Qed.

Lemma on_zone_at {A} s (d : A) f z zd : zones s !! z = Some zd → on_zone s d f z = f zd.
Proof. intros H. unfold on_zone. by rewrite H. Qed.

Lemma u32_add_l a b : u32 (u32 a + b) = u32 (a + b).
Proof. apply Zplus_mod_idemp_l. Qed.

Lemma sum_present_pages_run s zs : sound s0 s → (∀ z, z ∈ zs → 0 <= z < zones_number) → ∀ n,
  sum_present_pages zs (u32 n) s = Ok (u32 (n + sum_pages (λ _, present_pages) zs s), s).
Proof.
  intros S. induction zs as [|z zs IH]; intros Hz n; cbn [sum_present_pages]; [by rewrite Z.add_0_r|].
  destruct (node_zone s z S ltac:(apply Hz; left)) as [zd Hzd]. erewrite bind_Ok by (by apply zone_at_run).
  rewrite u32_add_l, IH by (intros z' ?; apply Hz; by right). cbn [sum_pages foldr]. rewrite (on_zone_at _ _ _ _ zd) by done.
  by rewrite Z.add_assoc.
Qed.

Lemma upto_in_node i z : i < zones_number → z ∈ seqZ 0 (i + 1) → 0 <= z < zones_number.
Proof. rewrite elem_of_seqZ. lia. Qed.

Lemma pgdat_balanced_run s n i : sound s0 s → i < zones_number →
  pgdat_balanced n i s = Ok (Z.shiftr (u32 (sum_pages (λ _, present_pages) (seqZ 0 (i + 1)) s)) 2 <=? n, s).
Proof.
  intros S Hi. unfold pgdat_balanced.
  pose proof (sum_present_pages_run s (seqZ 0 (i + 1)) S (λ z, upto_in_node i z Hi) 0) as E. change (u32 0) with 0 in E.
  by erewrite bind_Ok by exact E.
Qed.

Lemma check_watermarks_run s order zs : sound s0 s → (∀ z, z ∈ zs → 0 <= z < zones_number) → ∀ ok n,
  check_watermarks zs order ok (u32 n) s = Ok ((ok && all_fine order zs s, u32 (n + fine_pages order zs s)), s).
Proof.
  intros S. induction zs as [|z zs IH]; intros Hz ok n; cbn [check_watermarks]; [by rewrite andb_true_r, Z.add_0_r|].
  destruct (node_zone s z S ltac:(apply Hz; left)) as [zd Hzd]. erewrite bind_Ok by (by apply zone_at_run).
  specialize (IH ltac:(intros z' ?; apply Hz; by right)). 
  assert (all_fine order (z :: zs) s = zone_fine order z zd && all_fine order zs s) as ->.
  { cbn [all_fine forallb]. by rewrite (on_zone_at _ _ _ _ zd). }
  assert (fine_pages order (z :: zs) s = (if populated_zone zd && zone_fine order z zd then present_pages zd else 0) + fine_pages order zs s) as ->.
  { unfold fine_pages at 1. cbn [sum_pages foldr]. by rewrite (on_zone_at _ _ _ _ zd). }
  unfold zone_fine.
  destruct (populated_zone zd); cbn [negb orb andb]; [|by rewrite IH]. destruct (all_unreclaimable zd); cbn [orb].
  { rewrite u32_add_l, IH. by rewrite Z.add_assoc. }
  destruct (zone_watermark_ok_safe _ _ _ _ _); cbn [negb]; [rewrite u32_add_l, IH; by rewrite Z.add_assoc|].
  rewrite IH. by destruct ok.
Qed.

(** The decision whether it is too early to sleep. *)
Lemma sleeping_prematurely_run s order remaining i : sound s0 s → i < zones_number →
  sleeping_prematurely order remaining i s = Ok (negb (remaining =? 0) || negb (settled order i s), s).
Proof.
  intros S Hi. unfold sleeping_prematurely, settled. destruct (remaining =? 0); cbn [negb orb]; [|done].
  assert (∀ z, z ∈ seqZ 0 (i + 1) → 0 <= z < zones_number) as Hz by (intros z; by apply upto_in_node).
  pose proof (check_watermarks_run s order _ S Hz true 0) as E. change (u32 0) with 0 in E. erewrite bind_Ok by exact E. cbn [fst snd andb].
  destruct (Z.eqb_spec order 0) as [->|]; cbn [negb]; [done|]. by erewrite bind_Ok by (by apply pgdat_balanced_run).
Qed.

Lemma node_balanced_run s order i p : sound s0 s → i < zones_number → ∃ b, node_balanced order i p s = Ok (b, s).
Proof.
  intros S Hi. unfold node_balanced. destruct (all_zones_ok p); [by eexists|]. destruct (order =? 0); [by eexists|].
  eexists. by apply pgdat_balanced_run.
Qed.

Lemma confirm_zones_sound prio zs : (∀ z, z ∈ zs → 0 <= z < zones_number) → ∀ s, sound s0 s →
  runs (confirm_zones zs prio) s (λ _ s', sound s0 s').
Proof.
  induction zs as [|z zs IH]; intros Hz s S; cbn [confirm_zones]; [by apply runs_ret|].
  assert (∀ z, z ∈ zs → 0 <= z < zones_number) as Hzs by (intros z' ?; apply Hz; by right).
  assert (0 <= z < zones_number) as Hz0 by (apply Hz; left).
  destruct (node_zone s z S Hz0) as [zd Hzd]. apply runs_bind. eapply runs_ok; [by apply zone_at_run|].
  destruct (negb (populated_zone zd)); [by apply IH|]. destruct (all_unreclaimable zd && _); [by apply IH|].
  destruct (negb _); [by apply runs_ret|]. apply runs_bind. eapply runs_mono; [apply sound_upd_zone; [done|by apply node_populated|done]|].
  cbn beta. intros _ s1 S1. by apply IH.
Qed.

(** ** A pass *)

(** The variables that the bounds are about. *)
Record pass_ok (p : pass) : Prop := PassOk {
  po_end : 0 <= end_zone p < zones_number;
  po_order : 0 <= order (p_sc p) < MAX_ORDER;
  po_mode : no_compaction (p_sc p);
}.

Lemma age_active_anon_none z sc s : age_active_anon z sc s = Ok (sc, s).
Proof. unfold age_active_anon. by rewrite (proj1 no_swap). Qed.

Lemma find_end_zone_sound order prio n : Z.of_nat n <= zones_number → ∀ sc s, sound s0 s →
  runs (find_end_zone n order prio sc) s (λ r s', sound s0 s' ∧ r.2 = sc ∧ ∀ i, r.1 = Some i → 0 <= i < zones_number).
Proof.
  induction n as [|n IH]; intros Hn sc s S; cbn [find_end_zone]; [by apply runs_ret|].
  assert (0 <= Z.of_nat n < zones_number) as Hi by lia. specialize (IH ltac:(lia) sc).
  destruct (node_zone s _ S Hi) as [zd Hzd]. apply runs_bind. eapply runs_ok; [by apply zone_at_run|].
  destruct (negb (populated_zone zd)); [by apply IH|]. destruct (all_unreclaimable zd && _); [by apply IH|].
  apply runs_bind. eapply runs_ok; [apply age_active_anon_none|].
  assert (∀ i, Some (Z.of_nat n) = Some i → 0 <= i < zones_number) as Hsome by (by intros i [= <-]).
  destruct (_ && _); [by apply runs_ret|]. apply runs_bind. eapply runs_ok; [by apply zone_at_run|].
  destruct (negb _); [by apply runs_ret|]. apply runs_bind.
  eapply runs_mono; [apply sound_upd_zone; [done|by apply node_populated|done]|]. cbn beta. intros _ s1 S1. by apply IH.
Qed.

Lemma slab_counted s : sound s0 s → ∃ n, reclaimed_slab (slab s) = Some n.
Proof. intros [_ St]. by destruct (st_slab _ _ St counts_slab) as [n ?]; exists n. Qed.

Lemma shrink_zone_and_slab_sound w prio i lru p s : sound s0 s → pass_ok p → 0 <= i < zones_number → u32 (lru + 1) ≠ 0 →
  runs (shrink_zone_and_slab w prio i lru p) s (λ p' s', sound s0 s' ∧ pass_ok p' ∧ end_zone p' = end_zone p).
Proof.
  intros S [He Ho Hm] Hi Hl. unfold shrink_zone_and_slab. apply runs_bind.
  eapply runs_mono; [apply (shrink_zone_sound s0); [done|by apply node_populated|by apply node_memmap|done|]|].
  { right. left. rewrite <- (proj1 no_swap). apply (st_swap _ _ (proj2 S)), no_swap. }
  cbn beta. intros sc s1 [S1 (Eo & Hc & _)]. apply runs_bind, runs_gets. destruct (slab_counted s1 S1) as [n1 E1]. rewrite E1.
  apply runs_bind, runs_ret, runs_bind, runs_modify. assert (sound s0 (set_slab (SlabState (nr_in_batch (slab s1)) (Some 0)) s1)) as S2.
  { by apply sound_slab. }
  apply runs_bind. eapply runs_mono; [by apply sound_shrink_slab|]. cbn beta. intros nr s3 S3. apply runs_bind, runs_gets.
  destruct (slab_counted s3 S3) as [n3 E3]. rewrite E3. apply runs_bind, runs_ret.
  destruct (node_zone s3 i S3 Hi) as [zd Hzd]. apply runs_bind. eapply runs_ok; [by apply zone_at_run|]. apply runs_bind, runs_gets, runs_bind.
  assert (pass_ok (Pass (end_zone p) (add_reclaimed n3 sc) (u32 (total_scanned p + nr_scanned (add_reclaimed n3 sc))) (all_zones_ok p)
    (balanced p) (has_under_min_watermark_zone p))) as Hp by (split; [done|cbn; by rewrite Eo|exact (Hc Hm)]).
  apply (runs_mono _ _ (λ _ s', sound s0 s')); [|intros _ s4 S4; by apply runs_ret].
  apply runs_when; [|done]. intros _. apply sound_upd_zone; [done|by apply node_populated|done].
Qed.

Lemma balance_zone_sound w order prio cl i lru p s : sound s0 s → pass_ok p → 0 <= i < zones_number → u32 (lru + 1) ≠ 0 →
  runs (balance_zone w order prio cl i lru p) s (λ p' s', sound s0 s' ∧ pass_ok p' ∧ end_zone p' <= end_zone p).
Proof.
  intros S Hp Hi Hl. unfold balance_zone. destruct (node_zone s i S Hi) as [zd Hzd].
  apply runs_bind. eapply runs_ok; [by apply zone_at_run|]. destruct (negb (populated_zone zd)); [by apply runs_ret|].
  destruct (all_unreclaimable zd && _); [by apply runs_ret|]. cbv zeta. set (p1 := set_p_sc _ p).
  assert (pass_ok p1) as Hp1 by (by destruct Hp; split). change (end_zone p) with (end_zone p1). clearbody p1. clear Hp p.
  apply runs_bind. apply (runs_mono _ _ (λ p' s', sound s0 s' ∧ pass_ok p' ∧ end_zone p' = end_zone p1)).
  { destruct (_ || _); [by apply shrink_zone_and_slab_sound|by apply runs_ret]. }
  intros p2 s2 (S2 & Hp2 & <-). set (p3 := start_writing p2).
  assert (pass_ok p3 ∧ end_zone p2 = end_zone p3) as [Hp3 E3] by (subst p3; unfold start_writing; destruct (_ && _); [split; [by destruct Hp2; split|done]|done]).
  rewrite E3. clearbody p3. clear Hp2 E3 p2. destruct (node_zone s2 i S2 Hi) as [zd2 Hzd2].
  apply runs_bind. eapply runs_ok; [by apply zone_at_run|]. destruct Hp3 as [He Ho Hm]. destruct (all_unreclaimable zd2).
  - apply runs_ret. split; [done|]. destruct (Z.eqb_spec (end_zone p3) 0); cbn [negb andb]; [by split|].
    destruct (end_zone p3 =? i); [split; [split; [cbn; lia|done|done]|cbn; lia]|by split].
  - destruct (negb _); [by apply runs_ret|]. apply runs_bind.
    eapply runs_mono; [apply sound_upd_zone; [done|by apply node_populated|done]|]. cbn beta. intros _ s4 S4. by apply runs_ret.
Qed.

Lemma balance_zones_sound w order prio cl lru n : u32 (lru + 1) ≠ 0 → ∀ i p s, sound s0 s → pass_ok p → 0 <= i → end_zone p + 1 <= i + Z.of_nat n →
  runs (balance_zones n w order prio cl i lru p) s (λ p' s', sound s0 s' ∧ pass_ok p').
Proof.
  intros Hl. induction n as [|n IH]; intros i p s S Hp Hi Hn; cbn [balance_zones];
    (destruct (Z.ltb_spec (end_zone p) i); [by apply runs_ret|]); [lia|].
  pose proof (po_end _ Hp). apply runs_bind. eapply runs_mono; [apply balance_zone_sound; [done|done|lia|done]|]. cbn beta.
  intros p' s' (S' & Hp' & He). apply IH; [done|done|lia|lia].
Qed.

Lemma balance_prios_sound w order cl n : 0 <= cl < zones_number → ∀ p s, sound s0 s → pass_ok p →
  runs (balance_prios n w order cl p) s (λ r s', sound s0 s' ∧ pass_ok r.2).
Proof.
  intros Hcl. induction n as [|n IH]; intros p s S Hp; cbn [balance_prios]; [by apply runs_ret|].
  apply runs_bind. apply (runs_mono _ _ (λ _ s', sound s0 s')).
  { apply runs_when; [|done]. intros _. apply sound_env; [done|]. by apply token_law; apply S. }
  intros _ s1 S1. apply runs_bind, runs_gets. rewrite (st_node _ _ (proj2 S1)).
  apply runs_bind. eapply runs_mono; [apply find_end_zone_sound; [lia|done]|]. cbn beta. intros [e sc] s2 (S2 & Esc & He). cbn [fst snd] in *. subst sc.
  set (p2 := Pass _ _ _ _ _ _). assert (pass_ok p2) as Hp2 by (by destruct Hp; split). clearbody p2.
  destruct e as [e|]; [|by apply runs_ret]. specialize (He e eq_refl).
  destruct (count_lru_pages_sound s0 s2 (seqZ 0 (e + 1))) as (lru & E & Hl); [done|done|apply NoDup_seqZ| |].
  { intros z Hz. eapply node_populated, upto_in_node; [|exact Hz]. lia. }
  apply runs_bind. eapply runs_ok; [exact E|]. apply runs_bind.
  eapply runs_mono; [apply balance_zones_sound; [done|done|by destruct Hp2; split|lia|cbn; lia]|]. cbn beta. intros p3 s3 [S3 Hp3].
  destruct (node_balanced_run s3 order cl p3 S3 ltac:(lia)) as [b Eb]. apply runs_bind. eapply runs_ok; [exact Eb|].
  destruct b; [by apply runs_ret|]. apply runs_bind. apply (runs_mono _ _ (λ _ s', sound s0 s')).
  { apply runs_when; [|done]. intros _. destruct (has_under_min_watermark_zone p3); [by apply sound_events|].
    apply sound_env; [done|]. by apply congestion_law; apply S3. }
  intros _ s4 S4. destruct (_ <=? _); [by apply runs_ret|]. by apply IH.
Qed.

(** ** All passes *)

(** What a pass ends with. *)
Definition pass_result (order : Z) (r : Z * Z + Z * Z * scan_control) : Prop :=
  match r with
  | inl (o, z) => o = order ∧ 0 <= z < zones_number
  | inr (o, e, sc) => (o = order ∨ o = 0) ∧ pass_ok (Pass e sc 0 true 0 false)
  end.

Lemma balance_pass_sound w cl order e sc s : 0 <= cl < zones_number → sound s0 s → pass_ok (Pass e sc 0 true 0 false) →
  runs (balance_pass w order cl e sc) s (λ r s', sound s0 s' ∧ pass_result order r).
Proof.
  intros Hcl S Hp. unfold balance_pass. apply runs_bind. eapply runs_mono; [by apply sound_events|]. cbn beta. intros _ s1 S1.
  apply runs_bind. eapply runs_mono; [apply balance_prios_sound; [done|done|by destruct Hp; split]|]. cbn beta.
  intros [prio p] s2 [S2 [He Ho Hm]]. cbn [fst snd] in *.
  destruct (node_balanced_run s2 order cl p S2 ltac:(lia)) as [b Eb]. apply runs_bind. eapply runs_ok; [exact Eb|].
  assert (pass_result order (inr (0, end_zone p, set_order 0 (p_sc p)))) as Hzero by (split; [by right|by split]).
  destruct b; cbn [negb].
  - destruct (order =? 0); [by apply runs_ret|]. apply runs_bind.
    eapply runs_mono; [apply confirm_zones_sound; [|done]; intros z; apply upto_in_node; lia|]. cbn beta. intros ok s3 S3.
    destruct ok; by apply runs_ret.
  - apply runs_bind. eapply runs_mono; [apply sound_env; [exact S2|apply freeze_law, S2]|]. cbn beta. intros _ s3 S3.
    destruct (_ <? _); apply runs_ret; [done|]. split; [done|]. split; [by left|by split].
Qed.

Lemma balance_again_sound w cl n : 0 <= cl < zones_number → ∀ order e sc s, sound s0 s → pass_ok (Pass e sc 0 true 0 false) →
  runs (balance_again n w order cl e sc) s (λ r s', sound s0 s' ∧ ∀ o z, r = Some (o, z) → (o = order ∨ o = 0) ∧ 0 <= z < zones_number).
Proof.
  intros Hcl. induction n as [|n IH]; intros order e sc s S Hp; cbn [balance_again]; apply runs_bind;
    (eapply runs_mono; [by apply balance_pass_sound|]); cbn beta; intros [[o z]|[[o e'] sc']] s1 [S1 Hr]; cbn [pass_result] in Hr.
  1, 3: apply runs_ret; split; [done|]; intros o' z' [= <- <-]; destruct Hr; by split; [left|].
  - by apply runs_ret.
  - destruct Hr as [Ho Hp']. eapply runs_mono; [by apply IH|]. cbn beta. intros r s2 [S2 Hr]. split; [done|]. intros o' z' E.
    destruct (Hr o' z' E) as [Ho' Hz]. split; [|done]. destruct Ho, Ho'; subst; auto.
Qed.

Lemma balance_pgdat_sound n w order cl s : sound s0 s → 0 <= order < MAX_ORDER → 0 <= cl < zones_number →
  runs (balance_pgdat n w order cl) s (λ r s', sound s0 s' ∧ ∀ o z, r = Some (o, z) → (o = order ∨ o = 0) ∧ 0 <= z < zones_number).
Proof. intros S Ho Hcl. unfold balance_pgdat. apply balance_again_sound; [done|done|]. split; [cbn; lia|done|done]. Qed.

(** ** The daemon *)

Lemma sound_pgdat s f : sound s0 s → nr_zones (f (pgdat s)) = nr_zones (pgdat s) → (request_ok (pgdat s) → request_ok (f (pgdat s))) →
  runs (upd_pgdat f) s (λ _ s', sound s0 s').
Proof. intros S Hn Hr. apply runs_modify. eapply sound_same; [exact S|by split|by split]. Qed.

Lemma sound_waits s b : sound s0 s → runs (upd_pgdat (set_waits b)) s (λ _ s', sound s0 s').
Proof. intros S. by apply sound_pgdat. Qed.

Lemma request_in_range s : sound s0 s → nr_zones (pgdat s) = zones_number ∧ request_ok (pgdat s).
Proof. intros [_ St]. split; [apply (st_node _ _ St)|by apply (st_request _ _ St)]. Qed.

Lemma sound_request s : sound s0 s → runs (upd_pgdat (set_request 0 (nr_zones (pgdat s) - 1))) s (λ _ s', sound s0 s').
Proof. intros S. apply sound_pgdat; [done|done|]. intros [_ H]. split; cbn; [done|lia]. Qed.

Lemma kswapd_try_to_sleep_sound order i s : sound s0 s → i < zones_number →
  runs (kswapd_try_to_sleep order i) s (λ _ s', sound s0 s').
Proof.
  intros S Hi. unfold kswapd_try_to_sleep. apply runs_bind. eapply runs_mono; [apply freezing_law|]. cbn beta. intros f s' ->.
  apply runs_bind. apply (runs_mono _ _ (λ _ s', s' = s)); [destruct f; [by apply runs_ret|apply stop_law]|]. intros stop s' ->.
  destruct stop; [by apply runs_ret|]. apply runs_bind. eapply runs_mono; [by apply sound_waits|]. cbn beta. intros _ s1 S1.
  apply runs_bind. eapply runs_ok; [by apply sleeping_prematurely_run|]. apply runs_bind.
  apply (runs_mono _ _ (λ _ s', sound s0 s')).
  { destruct (negb (_ || _)); [|by apply runs_ret]. apply runs_bind. eapply runs_mono; [apply sound_env; [exact S1|apply timeout_law, S1]|]. cbn beta.
    intros rem s2 S2. apply runs_bind. eapply runs_mono; [by apply sound_waits|]. cbn beta. intros _ s3 S3.
    apply runs_bind. eapply runs_mono; [by apply sound_waits|]. cbn beta. intros _ s4 S4. by apply runs_ret. }
  intros rem s2 S2. apply runs_bind. eapply runs_ok; [by apply sleeping_prematurely_run|]. apply runs_bind.
  apply (runs_mono _ _ (λ _ s', sound s0 s')); [|intros _ s3 S3; by apply sound_waits].
  destruct (negb (rem =? 0)) eqn:Erem; cbn [orb negb]; [by apply sound_events|].
  destruct (settled order i s2) eqn:Eset; cbn [negb]; [|by apply sound_events].
  apply runs_bind. eapply runs_mono; [apply stop_law|]. cbn beta. intros stop s' ->. apply runs_when; [|done]. intros _.
  apply sound_env; [done|]. eapply schedule_law; [apply S2|exact Eset].
Qed.

(** The variables of the daemon are in range. *)
Record daemon_ok (k : daemon) : Prop := DaemonOk {
  do_order : 0 <= k_order k < MAX_ORDER;
  do_new_order : 0 <= new_order k < MAX_ORDER;
  do_zone : 0 <= k_classzone_idx k < zones_number;
  do_new_zone : 0 <= new_classzone_idx k < zones_number;
  do_balanced_zone : 0 <= balanced_classzone_idx k < zones_number;
}.

Lemma kswapd_turn_sound n w k s : sound s0 s → daemon_ok k →
  runs (kswapd_turn n w k) s (λ t s', sound s0 s' ∧ ∀ k', t = Turned k' → daemon_ok k').
Proof.
  intros S [H1 H2 H3 H4 H5]. unfold kswapd_turn. apply runs_bind, runs_gets. destruct (request_in_range s S) as [En [Hq1 Hq2]]. rewrite En in Hq2.
  apply runs_bind. apply (runs_mono _ _ (λ k s', sound s0 s' ∧ daemon_ok k)).
  { destruct (_ && _); [|by apply runs_ret]. apply runs_bind. eapply runs_mono; [by apply sound_request|]. cbn beta.
    intros _ s1 S1. by apply runs_ret. }
  clear k H1 H2 H3 H4 H5 Hq1 Hq2 En. intros k s1 [S1 [H1 H2 H3 H4 H5]]. apply runs_bind. apply (runs_mono _ _ (λ k s', sound s0 s' ∧ daemon_ok k)).
  { destruct (_ || _); [by apply runs_ret|]. apply runs_bind. eapply runs_mono; [apply kswapd_try_to_sleep_sound; [done|lia]|]. cbn beta.
    intros _ s2 S2. apply runs_bind, runs_gets. destruct (request_in_range s2 S2) as [En [Hq1 Hq2]]. rewrite En in Hq2.
    apply runs_bind. eapply runs_mono; [by apply sound_request|]. cbn beta. intros _ s3 S3. by apply runs_ret. }
  clear k H1 H2 H3 H4 H5. intros k s2 [S2 Hk]. apply runs_bind. eapply runs_mono; [apply sound_env; [exact S2|apply freeze_law, S2]|]. cbn beta.
  intros fr s3 S3. apply runs_bind. eapply runs_mono; [apply stop_law|]. cbn beta. intros stop s' ->.
  destruct stop; [by apply runs_ret|]. destruct fr; [apply runs_ret; split; [done|]; by intros k' [= <-]|].
  pose proof Hk as [H1 H2 H3 H4 H5]. apply runs_bind. eapply runs_mono; [by apply balance_pgdat_sound|]. cbn beta.
  intros [[o z]|] s4 [S4 Hr]; apply runs_ret; (split; [done|]); [|done]. intros k' [= <-]. by destruct (Hr o z eq_refl).
Qed.

Lemma wakeup_kswapd_sound z order cl s : sound s0 s → 0 <= z < zones_number → 0 <= order < MAX_ORDER → 0 <= cl < zones_number →
  runs (wakeup_kswapd z order cl) s (λ _ s', sound s0 s').
Proof.
  intros S Hz Ho Hcl. unfold wakeup_kswapd. destruct (node_zone s z S Hz) as [zd Hzd]. apply runs_bind. eapply runs_ok; [by apply zone_at_run|].
  destruct (negb (populated_zone zd)); [by apply runs_ret|]. apply runs_bind, runs_gets, runs_bind.
  apply (runs_mono _ _ (λ _ s', sound s0 s')).
  { destruct (request_in_range s S) as [En [Hq1 Hq2]]. apply runs_when; [|done]. intros _. apply sound_pgdat; [done|done|].
    intros _. split; cbn; [done|lia]. }
  intros _ s1 S1. apply runs_bind, runs_gets. destruct (negb _); [by apply runs_ret|].
  destruct (zone_watermark_ok_safe _ _ _ _ _); [by apply runs_ret|by apply sound_waits].
Qed.
End node.
End kswapd.
