(* ===== verification/VmscanAging.v ===== *)
(** * What a scan of the active list computes

    [shrink_active_list] against a reference definition: the pages of the tail of the
    active list, in their order, age by one; those that stay below the threshold return to
    the head of the active list, the others go to the head of the inactive list. *)

From S2P Require Import Prelude Hoare Lru LruInv LruOps LruApi Rmap Vmscan VmscanInv VmscanPage VmscanShrink VmscanIsolate VmscanActive VmscanInactive VmscanCalls.

(** ** The part of the state that a scan is about *)

Definition fset (p : Z) (pg : page) (P : Z → option page) : Z → option page := λ q, if decide (p = q) then Some pg else P q.

Definition upd_all (f : page → page) (U : list Z) (P : Z → option page) : Z → option page :=
  λ q, if decide (q ∈ U) then f <$> P q else P q.

Section seen.
Context (Sp : gmap Z address_space) (Pv : gmap Z (list Z)).

(** The pages, the lists, the address spaces and the pagevecs of a state. *)
Record seen (P : Z → option page) (Ls : head → list Z) (s : lst) : Prop := Seen {
  see_pages q : pages s !! q = P q;
  see_lists h : list_at s h = Ls h;
  see_spaces : spaces s = Sp;
  see_pvecs : pvecs s = Pv;
}.

Lemma seen_ext P P' Ls Ls' s : seen P Ls s → (∀ q, P q = P' q) → (∀ h, Ls h = Ls' h) → seen P' Ls' s.
Proof. intros [H1 H2 H3 H4] E1 E2. split; [intros; by rewrite H1|intros; by rewrite H2|done|done]. Qed.

(** Two states that show the same. *)
Definition alike (s s' : lst) : Prop :=
  pages s' = pages s ∧ lists s' = lists s ∧ spaces s' = spaces s ∧ pvecs s' = pvecs s.

Definition quiet {A} (m : M lst A) : Prop := ∀ s, ends m s (λ _ s', alike s s').

Lemma e_quiet {A} (m : M lst A) P Ls s (Q : A → lst → Prop) :
  seen P Ls s → quiet m → (∀ a s', seen P Ls s' → Q a s') → ends m s Q.
Proof.
  intros [H1 H2 H3 H4] Hq HQ. eapply ends_mono; [apply Hq|]. cbn beta. intros a s' (E1 & E2 & E3 & E4). apply HQ.
  split; [intros; by rewrite E1|intros; unfold list_at; rewrite E2; apply H2|congruence|congruence].
Qed.

Lemma e_page P Ls s p pg (Q : page → lst → Prop) : seen P Ls s → P p = Some pg → Q pg s → ends (page_at p) s Q.
Proof.
  intros V Hp HQ. unfold page_at. apply ends_bind, ends_gets. rewrite (see_pages _ _ _ V), Hp. by apply ends_ret.
Qed.

Lemma e_upd P Ls s p pg f (Q : () → lst → Prop) : seen P Ls s → P p = Some pg →
  (∀ s', seen (fset p (f pg) P) Ls s' → Q () s') → ends (upd_page p f) s Q.
Proof.
  intros V Hp HQ. unfold upd_page. apply ends_bind. eapply e_page; [done|done|]. apply ends_modify, HQ.
  destruct V as [H1 H2 H3 H4]. split; [|done|done|done]. intros q. cbn. unfold fset. destruct (decide (p = q)) as [<-|].
  - by rewrite lookup_insert_eq.
  - by rewrite lookup_insert_ne.
Qed.

Lemma e_list P Ls s h (Q : list Z → lst → Prop) : seen P Ls s → Q (Ls h) s → ends (get_list h) s Q.
Proof. intros V HQ. apply ends_gets. by rewrite (see_lists _ _ _ V). Qed.

Lemma e_del P Ls s p (Q : () → lst → Prop) : seen P Ls s →
  (∀ s', seen P (λ h, without p (Ls h)) s' → Q () s') → ends (list_del p) s Q.
Proof.
  intros [H1 H2 H3 H4] HQ. unfold list_del. apply ends_bind, ends_gets. destruct (linked p s); [|apply ends_fail].
  apply ends_modify, HQ. split; [done| |done|done]. intros h. rewrite <- H2. apply (list_at_del p s h).
Qed.

Lemma e_set P Ls s h l (Q : () → lst → Prop) : seen P Ls s →
  (∀ s', seen P (lv_set h l Ls) s' → Q () s') → ends (set_list h l) s Q.
Proof.
  intros [H1 H2 H3 H4] HQ. apply ends_modify, HQ. split; [done| |done|done]. intros h'. unfold list_at, lv_set. cbn.
  destruct (decide (h = h')) as [<-|]; [by rewrite lookup_insert_eq|]. rewrite lookup_insert_ne by done. apply H2.
Qed.

Lemma e_add P Ls s p h (Q : () → lst → Prop) : seen P Ls s →
  (∀ s', seen P (lv_set h (p :: Ls h) Ls) s' → Q () s') → ends (list_add p h) s Q.
Proof.
  intros V HQ. unfold list_add. apply ends_bind, ends_gets. destruct (linked p s); [apply ends_fail|].
  apply ends_bind. eapply e_list; [done|]. by eapply e_set.
Qed.

Lemma quiet_upd_zone z f : quiet (upd_zone z f).
Proof.
  intros s. unfold upd_zone, zone_at. apply ends_bind, ends_bind, ends_gets. destruct (zones s !! z); [|apply ends_fail].
  apply ends_ret. by apply ends_modify.
Qed.

Lemma quiet_lock z : quiet (spin_lock_irq z).
Proof.
  intros s. unfold spin_lock_irq, zone_at. apply ends_bind, ends_bind, ends_gets. destruct (zones s !! z); [|apply ends_fail].
  apply ends_ret. case_match; [apply ends_fail|apply quiet_upd_zone].
Qed.

Lemma quiet_events e n : quiet (count_vm_events e n).
Proof. intros s. by apply ends_modify. Qed.
End seen.

#[export] Hint Resolve quiet_upd_zone quiet_lock quiet_events : aging.

(** The pages of [U], in the order in which a loop takes them from the tail of the list
    [h]; [R] is the part of the list in front of them. *)
Record tail_of (U : list Z) (h : head) (R : list Z) (Ls : head → list Z) : Prop := TailOf {
  to_list : Ls h = R ++ reverse U;
  to_nodup : NoDup U;
  to_front p : p ∈ U → p ∉ R;
  to_only p h' : p ∈ U → h' ≠ h → p ∉ Ls h';
}.

Lemma tail_last p U h R Ls : tail_of (p :: U) h R Ls → last (Ls h) = Some p.
Proof. intros [-> _ _ _]. rewrite reverse_cons, app_assoc. apply last_snoc. Qed.

Lemma without_app p (l l' : list Z) : without p (l ++ l') = without p l ++ without p l'.
Proof. apply filter_app. Qed.

(** Without its last page, the rest of the tail is a tail. *)
Lemma tail_without p U h R Ls : tail_of (p :: U) h R Ls →
  tail_of U h R (λ h, without p (Ls h)) ∧ (∀ h', without p (Ls h') = lv_set h (R ++ reverse U) Ls h').
Proof.
  intros [E N F O]. apply NoDup_cons in N as [Hp N].
  assert (without p (Ls h) = R ++ reverse U) as Eh.
  { rewrite E, reverse_cons, !without_app, (without_id p R), (without_id p (reverse U)).
    - unfold without. rewrite filter_cons_False by (by intros []). by rewrite app_nil_r.
    - by rewrite elem_of_reverse.
    - apply F. by left. }
  split; [split; [done|done| |]|].
  - intros q Hq. apply F. by right.
  - intros q h' Hq Hh. rewrite elem_without. intros [Hq' _]. eapply (O q h'); [by right|done|done].
  - intros h'. destruct (decide (h = h')) as [<-|Hne]; [by rewrite lv_set_eq|]. rewrite lv_set_ne by done.
    apply without_id, O; [by left|done].
Qed.

(** Adding a page elsewhere keeps the tail. *)
Lemma tail_add p U h h1 l R Ls : tail_of U h R Ls → h1 ≠ h → p ∉ U → l = p :: Ls h1 → tail_of U h R (lv_set h1 l Ls).
Proof.
  intros [E N F O] Hne Hp ->. split; [by rewrite lv_set_ne|done|done|]. intros q h' Hq Hh. unfold lv_set.
  destruct (decide (h1 = h')) as [<-|]; [|by apply O]. rewrite elem_of_cons. intros [->|]; [done|]. by eapply (O q h1).
Qed.

Lemma upd_all_cons f p pg U P q : P p = Some pg → p ∉ U → upd_all f U (fset p (f pg) P) q = upd_all f (p :: U) P q.
Proof.
  intros Hp Hn. unfold upd_all, fset. destruct (decide (p = q)) as [<-|].
  - rewrite decide_False by done. rewrite decide_True by (by left). by rewrite Hp.
  - destruct (decide (q ∈ U)); [rewrite decide_True by (by right)|rewrite decide_False; [done|by intros [->|]%elem_of_cons]].
    done.
Qed.

(** Taking the last page of a tail to another list. *)
Lemma e_move Sp Pv P p U h h1 R Ls s (Q : () → lst → Prop) : seen Sp Pv P Ls s → tail_of (p :: U) h R Ls → h1 ≠ h →
  (∀ s' Ls', seen Sp Pv P Ls' s' → tail_of U h R Ls' → (∀ h', Ls' h' = lv_set h1 (p :: Ls h1) (lv_set h (R ++ reverse U) Ls) h') →
     Q () s') → ends (list_move p h1) s Q.
Proof.
  intros V T Hne HQ. destruct (tail_without _ _ _ _ _ T) as [T' E]. unfold list_move. apply ends_bind.
  eapply e_del; [exact V|]. intros s1 V1. eapply e_add; [exact V1|]. intros s2 V2. eapply HQ; [exact V2| |].
  - eapply tail_add; [exact T'|done| |done]. by destruct T as [_ [? _]%NoDup_cons _ _].
  - intros h'. unfold lv_set at 1 2. rewrite !E. destruct (decide (h1 = h')); [|done]. by rewrite lv_set_ne.
Qed.

(** ** Isolating *)

Definition isolated_page (pg : page) : page := ClearPage PG_lru (set_count (_count pg + 1) pg).

(** A page that the scan of the active list takes when it may unmap and write pages. *)
Record takable (file : bool) (pg : page) : Prop := Takable {
  tk_lru : PageLRU pg = true;
  tk_active : PageActive pg = true;
  tk_file : page_is_file_cache pg = file;
  tk_evictable : PageUnevictable pg = false;
  tk_count : _count pg ≠ 0;
}.

Lemma __isolate_lru_page_ends Sp Pv P Ls s p pg file : seen Sp Pv P Ls s → P p = Some pg → takable file pg →
  ends (__isolate_lru_page p ISOLATE_ACTIVE file) s (λ r s', r = 0 ∧ seen Sp Pv (fset p (isolated_page pg) P) Ls s').
Proof.
  intros V Hp [H1 H2 H3 H4 H5]. unfold __isolate_lru_page. apply ends_bind. eapply e_page; [done|done|].
  rewrite H1, H2, H3, H4. change (has ISOLATE_ACTIVE ISOLATE_ACTIVE) with true.
  change (Z.land ISOLATE_ACTIVE _ =? _) with false. rewrite !eqb_reflx. cbn [negb andb Bool.eqb].
  apply ends_bind. unfold isolate_blocks. change (has ISOLATE_ACTIVE (Z.lor _ _)) with false. apply ends_ret.
  change (has ISOLATE_ACTIVE ISOLATE_UNMAPPED) with false. cbn [andb]. apply ends_bind. unfold get_page_unless_zero.
  apply ends_bind. eapply e_page; [done|done|]. rewrite (proj2 (Z.eqb_neq _ _)) by done.
  apply ends_bind. eapply e_upd; [done|done|]. intros s1 V1. apply ends_ret. apply ends_bind.
  eapply e_upd; [exact V1|unfold fset; by rewrite decide_True|]. intros s2 V2. apply ends_ret. split; [done|].
  eapply seen_ext; [exact V2| |done]. intros q. unfold fset. by destruct (decide (p = q)).
Qed.

(** The lists after the pages of [U] moved from the tail of [h] to the head of [h1]. *)
Definition moved_lists (U : list Z) (h h1 : head) (R : list Z) (Ls : head → list Z) : head → list Z :=
  lv_set h1 (reverse U ++ Ls h1) (lv_set h R Ls).

Lemma moved_cons p U h h1 R Ls Ls' h' : h1 ≠ h →
  (∀ h', Ls' h' = lv_set h1 (p :: Ls h1) (lv_set h (R ++ reverse U) Ls) h') →
  moved_lists U h h1 R Ls' h' = moved_lists (p :: U) h h1 R Ls h'.
Proof.
  intros Hne E. unfold moved_lists, lv_set. rewrite reverse_cons, <- app_assoc. cbn. unfold lv_set in E. rewrite !E.
  rewrite (decide_True _ _ (eq_refl h1)). repeat case_decide; congruence.
Qed.

Lemma isolate_loop_ends Sp Pv file sc nr src dst : dst ≠ src → has (reclaim_mode sc) RECLAIM_MODE_LUMPYRECLAIM = false →
  ∀ U n scan taken R P Ls s,
  seen Sp Pv P Ls s → tail_of U src R Ls → (∀ p, p ∈ U → ∃ pg, P p = Some pg ∧ takable file pg) →
  scan + Z.of_nat (length U) <= nr → R = [] ∨ nr <= scan + Z.of_nat (length U) →
  ends (isolate_loop n nr src dst sc ISOLATE_ACTIVE file scan taken) s
    (λ _ s', seen Sp Pv (upd_all isolated_page U P) (moved_lists U src dst R Ls) s').
Proof.
  intros Hne Hm U. induction U as [|p U IH]; intros n scan taken R P Ls s V T HP Hle Hend.
  - assert (seen Sp Pv (upd_all isolated_page [] P) (moved_lists [] src dst R Ls) s) as Vend.
    { eapply seen_ext; [exact V| |].
      - intros q. unfold upd_all. by rewrite decide_False by (apply not_elem_of_nil).
      - intros h. unfold moved_lists, lv_set. pose proof (to_list _ _ _ _ T) as E. cbn in E. rewrite app_nil_r in E.
        case_decide; [by subst|]. by case_decide; subst. }
    destruct n; cbn [isolate_loop]; apply ends_bind; (eapply e_list; [exact V|]); rewrite (to_list _ _ _ _ T), app_nil_r;
      (destruct (last R) eqn:EL; [|by apply ends_ret]);
      (destruct Hend as [->|Hend]; [done|]); cbn [length] in Hend; rewrite (proj2 (Z.leb_le _ _)) by lia; by apply ends_ret.
  - destruct (HP p) as (pg & Hp & Hk); [by left|].
    destruct n; cbn [isolate_loop]; apply ends_bind; (eapply e_list; [exact V|]); rewrite (tail_last _ _ _ _ _ T);
      cbn [length] in Hle; rewrite (proj2 (Z.leb_gt _ _)) by lia; [apply ends_fail|].
    apply ends_bind. eapply ends_mono; [by eapply __isolate_lru_page_ends|]. cbn beta. intros r s1 [-> V1]. cbn [Z.eqb].
    apply ends_bind. eapply e_move; [exact V1|exact T|done|]. intros s2 Ls2 V2 T2 E2. rewrite Hm, orb_true_r.
    assert (p ∉ U) as Hn by (by destruct T as [_ [? _]%NoDup_cons _ _]).
    eapply ends_mono; [eapply IH; [exact V2|exact T2| |lia|cbn [length] in Hend; destruct Hend; [by left|right; lia]]|].
    + intros q Hq. unfold fset. rewrite decide_False by (by intros ->). apply HP. by right.
    + cbn beta. intros _ s' V'. eapply seen_ext; [exact V'| |].
      * intros q. by apply upd_all_cons.
      * intros h. by apply moved_cons.
Qed.

(** ** Aging *)

Definition aged_page (pg : page) : page := set_PG_referenced (u32 (PG_referenced pg + 1)) pg.
Definition stays_active (pg : page) : bool := u32 (PG_referenced pg + 1) <? PG_REFERENCED_SHRINK_THRESHOLD.
Definition after_age (pg : page) : page := if stays_active pg then aged_page pg else ClearPage PG_active (aged_page pg).

(** A page whose aging depends on its counter alone: it can be reclaimed, nobody has it
    locked, and it is not a mapped page of a file. *)
Record plain (Sp : gmap Z address_space) (pg : page) : Prop := Plain {
  pl_locked : PageLocked pg = false;
  pl_mlocked : PageMlocked pg = false;
  pl_space m : page_mapping pg = Some m → ∃ a, Sp !! m = Some a ∧ as_unevictable a = false;
  pl_exec : page_is_file_cache pg = false ∨ page_mapped pg = false;
}.

Lemma e_rmap Sp Pv P Ls s p n : seen Sp Pv P Ls s → ends (page_referenced_rmap p n) s (λ _ s', seen Sp Pv P Ls s').
Proof.
  intros [H1 H2 H3 H4]. unfold page_referenced_rmap. apply ends_bind, ends_gets.
  destruct (page_referenced_loop _ n 0) as [[r f] l]. apply ends_bind, ends_modify, ends_ret. by split.
Qed.

Lemma page_referenced_ends Sp Pv P Ls s p pg : seen Sp Pv P Ls s → P p = Some pg → PageLocked pg = false →
  ends (page_referenced p false) s (λ r s', seen Sp Pv P Ls s' ∧ (page_mapped pg = false → r.1 = 0)).
Proof.
  intros V Hp HL. unfold page_referenced. apply ends_bind. eapply e_page; [done|done|].
  destruct (page_mapped pg); [|by apply ends_ret]. destruct (mapping pg) as [|av|m]; [by apply ends_ret| |].
  { eapply ends_mono; [by apply e_rmap|]. done. }
  unfold trylock_page. apply ends_bind, ends_bind. eapply e_page; [done|done|]. apply ends_bind.
  eapply e_upd; [done|done|]. intros s1 V1. apply ends_ret. rewrite HL. cbn [negb]. apply ends_bind.
  eapply ends_mono; [by apply e_rmap|]. cbn beta. intros r s2 V2. apply ends_bind. unfold unlock_page.
  eapply e_upd; [exact V2|unfold fset; by rewrite decide_True|]. intros s3 V3. apply ends_ret. split; [|done].
  eapply seen_ext; [exact V3| |done]. intros q. unfold fset. rewrite set_clear_locked by done.
  destruct (decide (p = q)); [by subst|done].
Qed.

Section aging.
Context `{R : Reclaim} (Hbuf : buffer_heads_over_limit = false).

Lemma page_evictable_ends Sp Pv P Ls s pg : seen Sp Pv P Ls s → plain Sp pg →
  ends (page_evictable pg) s (λ b s', b = true ∧ s' = s).
Proof.
  intros V [_ Hm Hs _]. unfold page_evictable. destruct (page_mapping pg) as [m|]; [|rewrite Hm; by apply ends_ret].
  destruct (Hs m eq_refl) as (a & Ha & Hu). unfold space_at. apply ends_bind, ends_bind, ends_gets.
  rewrite (see_spaces _ _ _ _ _ V), Ha. apply ends_ret, ends_ret. by rewrite Hm, Hu.
Qed.

Lemma age_page_ends Sp Pv P Ls s p pg : seen Sp Pv P Ls s → P p = Some pg → plain Sp pg →
  ends (age_page p) s (λ _ s', let h := if stays_active pg then l_active else l_inactive in
    seen Sp Pv (fset p (after_age pg) P) (lv_set h (p :: Ls h) Ls) s').
Proof.
  intros V Hp [HL _ _ Hx]. unfold age_page. apply ends_bind. eapply e_page; [done|done|].
  rewrite Hbuf. cbn [andb when]. apply ends_bind, ends_ret. apply ends_bind.
  eapply ends_mono; [by eapply page_referenced_ends|]. cbn beta. intros r s1 [V1 Hr]. apply ends_bind.
  eapply e_page; [exact V1|done|]. assert (negb (r.1 =? 0) && has r.2 VM_EXEC && page_is_file_cache pg = false) as ->.
  { destruct Hx as [->|Hm]; [apply andb_false_r|]. by rewrite (Hr Hm). }
  apply ends_bind. eapply e_upd; [exact V1|done|]. intros s2 V2. fold (aged_page pg) in V2. unfold after_age.
  fold (stays_active pg). destruct (stays_active pg).
  - apply ends_bind. eapply e_add; [exact V2|]. intros s3 V3. by apply ends_ret.
  - apply ends_bind. eapply e_upd; [exact V2|unfold fset; by rewrite decide_True|]. intros s3 V3.
    apply ends_bind. eapply e_add; [exact V3|]. intros s4 V4. apply ends_ret. eapply seen_ext; [exact V4| |done].
    intros q. unfold fset. by destruct (decide (p = q)).
Qed.

(** The lists after the pages of [U] left [l_hold]. *)
Definition aged_lists (k : Z → bool) (U : list Z) (Ls : head → list Z) : head → list Z :=
  lv_set l_active (reverse (filter (λ p, k p = true) U) ++ Ls l_active)
    (lv_set l_inactive (reverse (filter (λ p, k p = false) U) ++ Ls l_inactive) (lv_set l_hold [] Ls)).

Lemma aged_lists_cons (k : Z → bool) p U Ls Ls' h' :
  (∀ h', Ls' h' = (let h := if k p then l_active else l_inactive in lv_set h (p :: Ls h) (lv_set l_hold (reverse U) Ls)) h') →
  aged_lists k U Ls' h' = aged_lists k (p :: U) Ls h'.
Proof.
  intros E. unfold aged_lists. rewrite !filter_cons. unfold lv_set in *. cbn zeta in E. rewrite !E. destruct (k p) eqn:Hk;
    repeat case_decide; try (unfold l_active, l_inactive, l_hold, held in *; congruence);
    by rewrite ?reverse_cons, <- ?app_assoc.
Qed.

Lemma shrink_active_loop_ends Sp Pv k : ∀ U n r P Ls s,
  seen Sp Pv P Ls s → tail_of U l_hold [] Ls → (∀ p, p ∈ U → ∃ pg, P p = Some pg ∧ plain Sp pg ∧ k p = stays_active pg) →
  ends (shrink_active_loop n r) s (λ _ s', seen Sp Pv (upd_all after_age U P) (aged_lists k U Ls) s').
Proof.
  intros U. induction U as [|p U IH]; intros n r P Ls s V T HP.
  - pose proof (to_list _ _ _ _ T) as E. cbn in E.
    destruct n; cbn [shrink_active_loop]; apply ends_bind; (eapply e_list; [exact V|]); rewrite E; cbn [last];
      apply ends_ret; (eapply seen_ext; [exact V| |]).
    1,3: intros q; unfold upd_all; by rewrite decide_False by (apply not_elem_of_nil).
    all: intros h; unfold aged_lists, lv_set; repeat case_decide; by subst.
  - destruct (HP p) as (pg & Hp & Hpl & Hk); [by left|].
    destruct n; cbn [shrink_active_loop]; apply ends_bind; (eapply e_list; [exact V|]); rewrite (tail_last _ _ _ _ _ T);
      [apply ends_fail|].
    destruct (tail_without _ _ _ _ _ T) as [T1 E1]. assert (p ∉ U) as Hn by (by destruct T as [_ [? _]%NoDup_cons _ _]).
    apply ends_bind. eapply e_del; [exact V|]. intros s1 V1. apply ends_bind. eapply e_page; [exact V1|done|].
    apply ends_bind. eapply ends_mono; [by eapply page_evictable_ends|]. cbn beta. intros b s2 [-> ->]. cbn [negb].
    apply ends_bind. eapply ends_mono; [by eapply age_page_ends|]. cbn beta zeta. intros r' s3 V3.
    eapply ends_mono; [eapply IH; [exact V3| |]|].
    + eapply tail_add; [exact T1|by destruct (stays_active pg)|done|done].
    + intros q Hq. unfold fset. rewrite decide_False by (by intros ->). apply HP. by right.
    + cbn beta. intros _ s' V'. eapply seen_ext; [exact V'|intros q; by apply upd_all_cons|]. intros h.
      apply aged_lists_cons. intros h'. cbn zeta. rewrite Hk. unfold lv_set at 1 2. rewrite !E1.
      destruct (decide (_ = h')); [|done]. rewrite lv_set_ne; [done|by destruct (stays_active pg)].
Qed.

(** ** Moving back *)

Definition returned_page (pg : page) : page := set_count (_count pg - 1) (SetPage PG_lru pg).

Lemma move_active_loop_ends Sp Pv z l free lru : (z, lru) ≠ l → ∀ U n k P Ls s,
  seen Sp Pv P Ls s → tail_of U l [] Ls → (∀ p, p ∈ U → ∃ pg, P p = Some pg ∧ _count pg ≠ 1) →
  ends (move_active_loop n z l free lru k) s
    (λ _ s', seen Sp Pv (upd_all returned_page U P) (moved_lists U l (z, lru) [] Ls) s').
Proof.
  intros Hne U. induction U as [|p U IH]; intros n k P Ls s V T HP.
  - pose proof (to_list _ _ _ _ T) as E. cbn in E.
    destruct n; cbn [move_active_loop]; apply ends_bind; (eapply e_list; [exact V|]); rewrite E; cbn [last];
      apply ends_ret; (eapply seen_ext; [exact V| |]).
    1,3: intros q; unfold upd_all; by rewrite decide_False by (apply not_elem_of_nil).
    all: intros h; unfold moved_lists, lv_set; repeat case_decide; by subst.
  - destruct (HP p) as (pg & Hp & Hc); [by left|].
    destruct n; cbn [move_active_loop]; apply ends_bind; (eapply e_list; [exact V|]); rewrite (tail_last _ _ _ _ _ T);
      [apply ends_fail|].
    assert (p ∉ U) as Hn by (by destruct T as [_ [? _]%NoDup_cons _ _]).
    apply ends_bind. eapply e_page; [exact V|done|]. apply ends_bind. eapply e_upd; [exact V|done|]. intros s1 V1.
    apply ends_bind. eapply e_move; [exact V1|exact T|done|]. intros s2 Ls2 V2 T2 E2.
    unfold put_page_testzero. apply ends_bind, ends_bind.
    eapply e_page; [exact V2|unfold fset; by rewrite decide_True|]. cbn [_count SetPage set_flags]. apply ends_bind.
    eapply e_upd; [exact V2|unfold fset; by rewrite decide_True|]. intros s3 V3. apply ends_ret.
    rewrite (proj2 (Z.eqb_neq _ _)) by lia. cbn [when]. apply ends_bind, ends_ret.
    eapply ends_mono; [eapply IH; [exact V3|exact T2|]|].
    + intros q Hq. unfold fset. rewrite !decide_False by (by intros ->). apply HP. by right.
    + cbn beta. intros _ s' V'. eapply seen_ext; [exact V'| |].
      * intros q. rewrite <- (upd_all_cons _ p pg) by done. unfold upd_all, fset, returned_page. by repeat case_decide.
      * intros h. by apply moved_cons.
Qed.

Lemma move_active_pages_to_lru_ends Sp Pv z l free lru U P Ls s : (z, lru) ≠ l →
  seen Sp Pv P Ls s → tail_of U l [] Ls → (∀ p, p ∈ U → ∃ pg, P p = Some pg ∧ _count pg ≠ 1) →
  ends (move_active_pages_to_lru z l free lru) s
    (λ _ s', seen Sp Pv (upd_all returned_page U P) (moved_lists U l (z, lru) [] Ls) s').
Proof.
  intros Hne V T HP. unfold move_active_pages_to_lru. apply ends_bind. eapply e_list; [exact V|]. apply ends_bind.
  eapply ends_mono; [by eapply move_active_loop_ends|]. cbn beta. intros n s1 V1. apply ends_bind.
  eapply e_quiet; [exact V1|apply quiet_upd_zone|]. intros _ s2 V2. apply ends_when; [|done]. intros _.
  eapply e_quiet; [exact V2|apply quiet_events|]. done.
Qed.

Lemma drain_empty_ends Sp Pv P Ls s : seen Sp Pv P Ls s → (∀ i, default [] (Pv !! i) = []) →
  ends lru_add_drain s (λ _ s', seen Sp Pv P Ls s').
Proof.
  intros V HE. assert (∀ i, pvec_at s i = []) as Hpv by (intros i; unfold pvec_at; by rewrite (see_pvecs _ _ _ _ _ V)).
  assert (∀ l, ends (drain_lrus l) s (λ _ s', s' = s)) as Hd.
  { induction l as [|x l IH]; [by apply ends_ret|]. apply ends_bind, ends_gets. rewrite Hpv. by apply ends_bind, ends_ret. }
  unfold lru_add_drain. apply ends_bind. eapply ends_mono; [apply Hd|]. cbn beta. intros _ s' ->.
  do 2 (apply ends_bind, ends_gets; rewrite Hpv; try apply ends_bind; apply ends_ret). done.
Qed.
End aging.

(** ** The reference definition *)

(** The order of the active and the inactive list after a scan of [nr] pages from the tail
    of the active list [A]; [k] tells which pages stay. *)
Definition scan_tail (nr : Z) (A : list Z) : list Z := skipn (length A - Z.to_nat nr)%nat A.
Definition scan_front (nr : Z) (A : list Z) : list Z := firstn (length A - Z.to_nat nr)%nat A.

Definition scan_active (k : Z → bool) (nr : Z) (A I : list Z) : list Z * list Z :=
  (filter (λ p, k p = true) (scan_tail nr A) ++ scan_front nr A, filter (λ p, k p = false) (scan_tail nr A) ++ I).

(** The counter of a page decides. *)
Definition keeps (s : lst) (p : Z) : bool := match pages s !! p with Some pg => stays_active pg | None => false end.

Lemma scan_split nr A : A = scan_front nr A ++ scan_tail nr A.
Proof. symmetry. apply firstn_skipn. Qed.

Lemma scan_tail_bounds nr A : 0 <= nr →
  Z.of_nat (length (scan_tail nr A)) <= nr ∧ (scan_front nr A = [] ∨ nr <= Z.of_nat (length (scan_tail nr A))).
Proof.
  intros H. unfold scan_tail, scan_front. rewrite length_drop. split; [lia|].
  destruct (decide (length A <= Z.to_nat nr)%nat); [left|right; lia].
  by replace (length A - Z.to_nat nr)%nat with 0%nat by lia.
Qed.

Lemma NoDup_rev (l : list Z) : NoDup l → NoDup (reverse l).
Proof. by rewrite reverse_Permutation. Qed.

Lemma filter_rev (k : Z → bool) b (l : list Z) : reverse (filter (λ p, k p = b) (reverse l)) = filter (λ p, k p = b) l.
Proof.
  induction l as [|x l IH]; [done|]. rewrite reverse_cons, filter_app, reverse_app, IH, !filter_cons, filter_nil.
  by case_decide.
Qed.

(** ** Composition of the phases *)

Section phases.
Context (k : Z → bool) (a i : head) (R T : list Z) (Ls : head → list Z).
Context (Ha : 0 <= a.1) (Hi : 0 <= i.1) (Hai : a ≠ i).
Context (HLa : Ls a = R ++ T) (Hloc : ∀ h, h.1 < 0 → Ls h = []).
Context (HT : NoDup T) (HR : ∀ p, p ∈ T → p ∉ R) (HO : ∀ p h, p ∈ T → h ≠ a → p ∉ Ls h).

Let U := reverse T.
Let L1 := moved_lists U a l_hold R Ls.
Let L2 := aged_lists k U L1.
Let Ua := filter (λ p, k p = true) U.
Let Ui := filter (λ p, k p = false) U.
Let L3 := moved_lists Ua l_active a [] L2.
Let L4 := moved_lists Ui l_inactive i [] L3.

Ltac heads := solve [done | intros E; rewrite E in *; simpl in *; lia | intros E; rewrite <- E in *; simpl in *; lia | congruence].
Ltac lvs := repeat (rewrite lv_set_eq || rewrite lv_set_ne by heads).

Lemma phase_isolate : tail_of U a R Ls.
Proof.
  unfold U in *. split; [by rewrite reverse_involutive|by apply NoDup_rev| |].
  - intros p. rewrite elem_of_reverse. apply HR.
  - intros p h. rewrite elem_of_reverse. apply HO.
Qed.

Lemma L1_at h : L1 h = if decide (h = l_hold) then T else if decide (h = a) then R else Ls h.
Proof.
  unfold L1, U. unfold moved_lists, lv_set. rewrite reverse_involutive, (Hloc l_hold), app_nil_r by done.
  repeat case_decide; congruence.
Qed.

Lemma phase_age : tail_of U l_hold [] L1.
Proof.
  unfold U in *. split; [rewrite L1_at, reverse_involutive; by rewrite decide_True|by apply NoDup_rev| |].
  - intros p _. apply not_elem_of_nil.
  - intros p h. rewrite elem_of_reverse, L1_at. intros Hp Hh. rewrite decide_False by done.
    case_decide; [by apply HR|by apply HO].
Qed.

Lemma L2_at h : L2 h = if decide (h = l_active) then reverse Ua else if decide (h = l_inactive) then reverse Ui
  else if decide (h = l_hold) then [] else if decide (h = a) then R else Ls h.
Proof.
  unfold L2, aged_lists. fold Ua Ui. unfold lv_set. rewrite !L1_at.
  assert (l_active ≠ a ∧ l_inactive ≠ a) as [? ?] by (split; heads).
  rewrite (Hloc l_active), (Hloc l_inactive) by done.
  repeat case_decide; subst; rewrite ?app_nil_r; try done; try congruence.
Qed.

Lemma phase_active : tail_of Ua l_active [] L2.
Proof.
  split; [rewrite L2_at; by rewrite decide_True|apply NoDup_filter; by apply NoDup_rev| |].
  - intros p _. apply not_elem_of_nil.
  - intros p h [Hk Hp]%list_elem_of_filter Hh. unfold U in *. rewrite elem_of_reverse in Hp.
    rewrite L2_at, decide_False by done. repeat case_decide.
    + rewrite elem_of_reverse. intros [? _]%list_elem_of_filter. congruence.
    + apply not_elem_of_nil.
    + by apply HR.
    + by apply HO.
Qed.

Lemma L3_at h : L3 h = if decide (h = a) then reverse Ua ++ R else if decide (h = l_inactive) then reverse Ui
  else if decide (h.1 < 0) then [] else Ls h.
Proof.
  unfold L3, moved_lists, lv_set. rewrite !L2_at. assert (a ≠ l_active ∧ a ≠ l_inactive ∧ a ≠ l_hold) as (? & ? & ?) by (split_and!; heads).
  repeat case_decide; subst; try done; try congruence; try (by rewrite Hloc); try (simpl in *; lia).
Qed.

Lemma phase_inactive : tail_of Ui l_inactive [] L3.
Proof.
  split; [rewrite L3_at, decide_False by heads; by rewrite decide_True|apply NoDup_filter; by apply NoDup_rev| |].
  - intros p _. apply not_elem_of_nil.
  - intros p h [Hk Hp]%list_elem_of_filter Hh. unfold U in *. rewrite elem_of_reverse in Hp. rewrite L3_at. repeat case_decide.
    + rewrite elem_of_app, elem_of_reverse. intros [[? _]%list_elem_of_filter|?]; [congruence|by apply (HR p)].
    + done.
    + apply not_elem_of_nil.
    + by apply HO.
Qed.

Lemma L4_at h : L4 h = if decide (h = a) then filter (λ p, k p = true) T ++ R
  else if decide (h = i) then filter (λ p, k p = false) T ++ Ls i else Ls h.
Proof.
  unfold L4, moved_lists, lv_set. rewrite !L3_at. unfold Ua, Ui, U. rewrite !filter_rev.
  assert (i ≠ l_inactive ∧ a ≠ l_inactive) as [? ?] by (split; heads).
  repeat case_decide; subst; try done; try congruence; try (by rewrite Hloc); try (simpl in *; lia).
Qed.
End phases.

(** A page that was isolated, aged and returned has aged. *)
Lemma returned_aged pg : PageLRU pg = true → returned_page (after_age (isolated_page pg)) = after_age pg.
Proof.
  intros H. unfold returned_page, isolated_page, after_age, stays_active, aged_page. destruct pg as [fl c m mp fp z r].
  unfold PageLRU in H. cbn in *.
  assert (Z.setbit (Z.clearbit fl PG_lru) PG_lru = fl) as E1.
  { apply Z.bits_inj'. intros n Hn. rewrite Z.setbit_eqb, Z.clearbit_eqb by done.
    destruct (Z.eqb_spec PG_lru n) as [<-|]; simpl; [done|]. by rewrite andb_true_r. }
  assert (Z.setbit (Z.clearbit (Z.clearbit fl PG_lru) PG_active) PG_lru = Z.clearbit fl PG_active) as E2.
  { apply Z.bits_inj'. intros n Hn. rewrite Z.setbit_eqb, !Z.clearbit_eqb by done.
    destruct (Z.eqb_spec PG_lru n) as [<-|]; simpl; [by rewrite H|]. by rewrite andb_true_r. }
  destruct (_ <? _); cbn; unfold set_count, SetPage, ClearPage, set_flags, set_PG_referenced; cbn; rewrite ?E1, ?E2; f_equal; lia.
Qed.

Lemma isolated_plain Sp pg : plain Sp pg → plain Sp (isolated_page pg).
Proof.
  intros [H1 H2 H3 H4]. unfold isolated_page.
  split; [by page_solve|by page_solve| |].
  - unfold page_mapping. change (mapping (ClearPage _ _)) with (mapping pg).
    replace (PageSwapCache (ClearPage _ _)) with (PageSwapCache pg) by (symmetry; page_solve). exact H3.
  - unfold page_is_file_cache in *. replace (PageSwapBacked (ClearPage _ _)) with (PageSwapBacked pg) by (symmetry; page_solve).
    exact H4.
Qed.

(** What the scan of [T] needs of a page. *)
Definition scannable (Sp : gmap Z address_space) (file : bool) (pg : page) : Prop := takable file pg ∧ plain Sp pg.

Section scan.
Context `{R : Reclaim} (Hbuf : buffer_heads_over_limit = false).
Context (Sp : gmap Z address_space) (Pv : gmap Z (list Z)) (Hpv : ∀ i, default [] (Pv !! i) = []).
Context (z : Z) (file : bool) (nr : Z) (sc : scan_control).
Context (Hz : 0 <= z) (Hnr : 0 <= nr) (Hunmap : may_unmap sc = true) (Hwrite : may_writepage sc = true).

Let a := (z, lru_index true file).
Let i := (z, lru_index false file).

Context (P : Z → option page) (Ls : head → list Z).
Let T := scan_tail nr (Ls a).
Let Fr := scan_front nr (Ls a).
Context (Hloc : ∀ h, h.1 < 0 → Ls h = []) (HN : NoDup (Ls a)) (HO : ∀ p h, p ∈ Ls a → h ≠ a → p ∉ Ls h).
Context (HP : ∀ p, p ∈ T → ∃ pg, P p = Some pg ∧ scannable Sp file pg).

Definition kept_by (p : Z) : bool := match P p with Some pg => stays_active pg | None => false end.

(** The lists after the scan. *)
Definition scanned_lists (h : head) : list Z :=
  if decide (h = a) then filter (λ p, kept_by p = true) T ++ Fr
  else if decide (h = i) then filter (λ p, kept_by p = false) T ++ Ls i else Ls h.

Lemma tail_facts : NoDup T ∧ (∀ p, p ∈ T → p ∉ Fr) ∧ (∀ p h, p ∈ T → h ≠ a → p ∉ Ls h).
Proof.
  pose proof HN as HN'. rewrite (scan_split nr (Ls a)) in HN'. apply NoDup_app in HN' as (N1 & N2 & N3).
  split; [done|]. split; [intros p Hp Hf; by apply (N2 p)|]. intros p h Hp. apply HO. rewrite (scan_split nr (Ls a)).
  apply elem_of_app. by right.
Qed.

(** The pages after the three phases. *)
Lemma phase_pages q : let U := reverse T in
  upd_all returned_page (filter (λ p, kept_by p = false) U)
    (upd_all returned_page (filter (λ p, kept_by p = true) U)
      (upd_all after_age U (upd_all isolated_page U P))) q = upd_all after_age T P q.
Proof.
  cbn zeta. unfold upd_all. assert (q ∈ reverse T ↔ q ∈ T) as E0 by apply elem_of_reverse.
  assert (∀ b, q ∈ filter (λ p, kept_by p = b) (reverse T) ↔ kept_by q = b ∧ q ∈ T) as E
    by (intros b; by rewrite list_elem_of_filter, elem_of_reverse).
  pose proof (E true) as Et. pose proof (E false) as Ef. clear E. destruct (decide (q ∈ T)) as [Hq|Hq].
  - destruct (HP q Hq) as (pg & Hp & [Hs _]). rewrite Hp. pose proof (tk_lru _ _ Hs) as HL.
    rewrite !(decide_True (P := q ∈ reverse T)) by tauto. destruct (kept_by q) eqn:Hk.
    + rewrite decide_False, decide_True by (rewrite ?Et, ?Ef; intuition congruence). cbn. by rewrite returned_aged.
    + rewrite decide_True, decide_False by (rewrite ?Et, ?Ef; intuition congruence). cbn. by rewrite returned_aged.
  - by rewrite !decide_False by tauto.
Qed.

Let U := reverse T.
Let L1 := moved_lists U a l_hold Fr Ls.
Let L2 := aged_lists kept_by U L1.
Let Ua := filter (λ p, kept_by p = true) U.
Let Ui := filter (λ p, kept_by p = false) U.
Let L3 := moved_lists Ua l_active a [] L2.
Let P2 := upd_all after_age U (upd_all isolated_page U P).

Lemma local_ne (l : Z) (h : head) : h.1 < 0 → h ≠ (z, l) ∧ (z, l) ≠ h.
Proof. intros Hh. split; [intros ->|intros <-]; simpl in Hh; lia. Qed.

Lemma aged_count p : p ∈ U → ∃ pg, P2 p = Some pg ∧ _count pg ≠ 1.
Proof.
  intros Hp. assert (p ∈ T) as Hp' by (by apply elem_of_reverse). destruct (HP p Hp') as (pg & Hpg & [Hs _]).
  exists (after_age (isolated_page pg)). unfold P2, upd_all. rewrite !decide_True by done. rewrite Hpg. split; [done|].
  pose proof (tk_count _ _ Hs). assert (_count (after_age (isolated_page pg)) = _count pg + 1) as ->; [|lia].
  unfold after_age. by destruct (stays_active _).
Qed.

Lemma move_active_ends s : seen Sp Pv P2 L2 s →
  ends (move_active_pages_to_lru z l_active l_free (lru_index true file)) s (λ _ s', seen Sp Pv (upd_all returned_page Ua P2) L3 s').
Proof.
  intros V. destruct tail_facts as (N & HR & HO'). pose proof (scan_split nr (Ls a)) as HLa. fold T Fr in HLa.
  assert (a ≠ i) as Hai by (unfold a, i, lru_index; destruct file; intros [=]).
  eapply move_active_pages_to_lru_ends; [by apply local_ne|exact V|by apply (phase_active kept_by a i Fr T Ls)|].
  intros p [_ Hp]%list_elem_of_filter. by apply aged_count.
Qed.

Lemma move_inactive_ends s : seen Sp Pv (upd_all returned_page Ua P2) L3 s →
  ends (move_active_pages_to_lru z l_inactive l_free (lru_index false file)) s (λ _ s', seen Sp Pv (upd_all after_age T P) scanned_lists s').
Proof.
  intros V. destruct tail_facts as (N & HR & HO'). pose proof (scan_split nr (Ls a)) as HLa. fold T Fr in HLa.
  assert (a ≠ i) as Hai by (unfold a, i, lru_index; destruct file; intros [=]).
  eapply ends_mono; [eapply move_active_pages_to_lru_ends with (U := Ui); [by apply local_ne|exact V|by apply (phase_inactive kept_by a i Fr T Ls)|]|].
  - intros p [Hk Hp]%list_elem_of_filter. unfold upd_all. rewrite decide_False; [by apply aged_count|].
    intros [? _]%list_elem_of_filter. congruence.
  - cbn beta. intros _ s' V'. eapply seen_ext; [exact V'|apply phase_pages|]. intros h. by apply (L4_at kept_by a i Fr T Ls).
Qed.

Lemma shrink_active_list_ends s : seen Sp Pv P Ls s →
  ends (shrink_active_list nr z sc file) s (λ _ s', seen Sp Pv (upd_all after_age T P) scanned_lists s').
Proof.
  intros V. destruct tail_facts as (N & HR & HO'). destruct (scan_tail_bounds nr (Ls a) Hnr) as [Hb1 Hb2].
  pose proof (scan_split nr (Ls a)) as HLa. fold T Fr in HLa, Hb1, Hb2.
  assert (∀ p, p ∈ U ↔ p ∈ T) as HU by (intros; apply elem_of_reverse).
  unfold shrink_active_list.
  assert (∀ h s (Q : () → lst → Prop), h.1 < 0 → seen Sp Pv P Ls s → (∀ s', seen Sp Pv P Ls s' → Q () s') → ends (set_list h []) s Q) as Hset.
  { intros h s0 Q Hh V0 HQ. eapply e_set; [exact V0|]. intros s' V'. apply HQ. eapply seen_ext; [exact V'|done|].
    intros h'. unfold lv_set. case_decide; [by subst; rewrite Hloc|done]. }
  do 4 (apply ends_bind; eapply Hset; [done|exact V|]; clear V; intros ? V). apply ends_bind.
  eapply ends_mono; [by eapply drain_empty_ends|]. clear V. cbn beta zeta. intros _ s1 V. cbn [may_unmap may_writepage reset_reclaim_mode set_mode].
  rewrite Hunmap, Hwrite. apply ends_bind. eapply e_quiet; [exact V|apply quiet_lock|]. clear V. intros _ s2 V.
  apply ends_bind. unfold isolate_lru_pages. fold (lru_index true file). fold a.
  eapply ends_mono; [eapply (isolate_loop_ends Sp Pv file) with (U := U) (R := Fr); [|done|exact V|by eapply phase_isolate| | |]|].
  { intros E. pose proof (f_equal fst E) as E1. cbn in E1. lia. }
  { intros p Hp%HU. destruct (HP p Hp) as (pg & ? & ? & _). by exists pg. }
  { unfold U. rewrite length_reverse. lia. }
  { unfold U. rewrite length_reverse. destruct Hb2; [by left|right; lia]. }
  clear V. cbn beta. intros r s3 V.
  do 6 (apply ends_bind; eapply e_quiet; [exact V|apply quiet_upd_zone || apply quiet_events|]; clear V; intros _ ? V).
  apply ends_bind. eapply e_list; [exact V|]. apply ends_bind.
  eapply ends_mono; [eapply (shrink_active_loop_ends Hbuf Sp Pv kept_by) with (U := U); [exact V|by apply (phase_age a Fr T Ls)|]|].
  { intros p Hp%HU. destruct (HP p Hp) as (pg & Hpg & _ & Hpl). exists (isolated_page pg). unfold upd_all.
    rewrite decide_True by (by apply HU). rewrite Hpg. split; [done|]. split; [by apply isolated_plain|].
    unfold kept_by. by rewrite Hpg. }
  clear V. cbn beta. intros n s4 V.
  do 2 (apply ends_bind; eapply e_quiet; [exact V|apply quiet_upd_zone || apply quiet_lock|]; clear V; intros _ ? V).
  replace (LRU_ACTIVE + b2z file * LRU_FILE) with (lru_index true file) by (by destruct file).
  replace (LRU_BASE + b2z file * LRU_FILE) with (lru_index false file) by (by destruct file).
  apply ends_bind. eapply ends_mono; [by eapply move_active_ends|]. clear V. cbn beta. intros _ s5 V.
  apply ends_bind. eapply ends_mono; [by eapply move_inactive_ends|]. clear V. cbn beta. intros _ s6 V.
  do 2 (apply ends_bind; eapply e_quiet; [exact V|apply quiet_upd_zone|]; clear V; intros _ ? V).
  unfold free_hot_cold_page_list. apply ends_bind, ends_bind. eapply e_list; [exact V|].
  assert (scanned_lists l_free = []) as El.
  { unfold scanned_lists. rewrite !decide_False by (by apply local_ne). by apply Hloc. }
  rewrite El. apply ends_bind. eapply e_set; [exact V|].
  clear V. intros s7 V. do 2 apply ends_ret. eapply seen_ext; [exact V|done|]. intros h. unfold lv_set.
  by case_decide; subst.
Qed.
End scan.

(** ** The whole function *)

Section whole.
Context `{R : Reclaim} {L : ReclaimLaws R} (Hbuf : buffer_heads_over_limit = false).

Definition active_head (z : Z) (file : bool) : head := (z, lru_index true file).
Definition inactive_head (z : Z) (file : bool) : head := (z, lru_index false file).

(** The pagevecs are drained, the scan may take every page, and the pages it reaches age
    by their counters alone. *)
Record scan_ready (nr z : Z) (sc : scan_control) (file : bool) (s : lst) : Prop := ScanReady {
  sr_inv : reclaim_inv s;
  sr_populated : populated z s;
  sr_drained i : pvec_at s i = [];
  sr_nr : 0 <= nr;
  sr_unmap : may_unmap sc = true;
  sr_write : may_writepage sc = true;
  sr_pages p pg : p ∈ scan_tail nr (list_at s (active_head z file)) → pages s !! p = Some pg →
    plain (spaces s) pg ∧ _count pg ≠ 0;
}.

(** What the scan leaves. *)
Record active_scanned (nr z : Z) (file : bool) (s s' : lst) : Prop := ActiveScanned {
  as_inv : reclaim_inv s';
  as_lists : (list_at s' (active_head z file), list_at s' (inactive_head z file)) =
    scan_active (keeps s) nr (list_at s (active_head z file)) (list_at s (inactive_head z file));
  as_others h : h ≠ active_head z file → h ≠ inactive_head z file → list_at s' h = list_at s h;
  as_pages q : pages s' !! q =
    upd_all after_age (scan_tail nr (list_at s (active_head z file))) (λ q, pages s !! q) q;
  as_spaces : spaces s' = spaces s;
  as_pvecs : pvecs s' = pvecs s;
}.

(** A page of a list of a zone. *)
Lemma on_lru s p z l : reclaim_inv s → p ∈ list_at s (z, l) → 0 <= z →
  ∃ pg, pages s !! p = Some pg ∧ PageLRU pg = true ∧ page_zone pg = z ∧ page_lru pg = l.
Proof. intros V Hp Hz. by apply (con_lists _ (reclaim_consistent _ V)) in Hp. Qed.

Lemma populated_zone s z : reclaim_inv s → populated z s → 0 <= z.
Proof. intros [G _] (p & pg & Hp & <-). by apply (inv_zone _ _ _ _ _ _ (li_inv _ _ _ _ _ _ G) p pg Hp). Qed.

Lemma ready_scannable nr z sc file s p : scan_ready nr z sc file s →
  p ∈ scan_tail nr (list_at s (active_head z file)) → ∃ pg, pages s !! p = Some pg ∧ scannable (spaces s) file pg.
Proof.
  intros [V Pop _ _ _ _ HP] Hp. assert (p ∈ list_at s (active_head z file)) as Hin.
  { rewrite (scan_split nr (list_at s _)). apply elem_of_app. by right. }
  destruct (on_lru _ _ _ _ V Hin) as (pg & Hpg & HL & _ & Hl); [by eapply populated_zone|].
  destruct (page_lru_index _ _ _ Hl) as (HU & HA & HF). destruct (HP p pg Hp Hpg) as [Hpl Hc].
  exists pg. split; [done|]. by split.
Qed.

Lemma shrink_active_list_scans nr z sc file s : scan_ready nr z sc file s →
  runs (shrink_active_list nr z sc file) s (λ _ s', active_scanned nr z file s s').
Proof.
  intros SR. pose proof SR as [V Pop Hpv Hnr Hun Hwr HP]. pose proof (populated_zone _ _ V Pop) as Hz0.
  pose proof (ri_lru _ V) as G. pose proof (li_inv _ _ _ _ _ _ G) as I.
  eapply runs_mono.
  - apply runs_ends; [eapply shrink_active_list_inv; by apply reclaim_vm|].
    eapply (shrink_active_list_ends Hbuf (spaces s) (pvecs s) Hpv z file nr sc Hz0 Hnr Hun Hwr (λ q, pages s !! q) (list_at s));
      [apply (li_local _ _ _ _ _ _ G)|apply I| | |by split].
    + intros p h Hp Hh Hp'. apply Hh. by apply (inv_disj _ _ _ _ _ _ I h _ p).
    + intros p Hp. by eapply ready_scannable.
  - cbn beta. intros _ s' [V' S']. split; [by eapply vm_reclaim| | |apply S'|apply S'|apply S'].
    + rewrite !(see_lists _ _ _ _ _ S'). unfold scanned_lists, scan_active, active_head, inactive_head.
      rewrite decide_True by done. rewrite decide_False by (unfold lru_index; destruct file; intros [=]).
      by rewrite decide_True by done.
    + intros h H1 H2. rewrite (see_lists _ _ _ _ _ S'). unfold scanned_lists. by rewrite !decide_False.
Qed.

Lemma plain_after_age Sp pg : plain Sp pg → plain Sp (after_age pg) ∧ _count (after_age pg) = _count pg.
Proof.
  intros [H1 H2 H3 H4]. unfold after_age. destruct (stays_active pg); [by split|]. split; [|done]. unfold aged_page.
  split; [by page_solve|by page_solve| |].
  - unfold page_mapping. change (mapping (ClearPage _ _)) with (mapping pg).
    replace (PageSwapCache (ClearPage _ _)) with (PageSwapCache pg) by (symmetry; page_solve). exact H3.
  - unfold page_is_file_cache in *. replace (PageSwapBacked (ClearPage _ _)) with (PageSwapBacked pg) by (symmetry; page_solve).
    exact H4.
Qed.

(** A scan of the whole list can be followed by another. *)
Lemma scan_again nr z sc file s s' : scan_ready nr z sc file s → active_scanned nr z file s s' →
  Z.of_nat (length (list_at s (active_head z file))) <= nr →
  scan_ready nr z sc file s' ∧ Z.of_nat (length (list_at s' (active_head z file))) <= nr.
Proof.
  intros [V (p0 & pg0 & Hp0 & Hz0) Hpv Hnr Hun Hwr HP] [V' HL HO HPg HS HPv] Hlen.
  set (A := list_at s (active_head z file)) in *.
  assert (scan_front nr A = [] ∧ scan_tail nr A = A) as [EF ET].
  { unfold scan_front, scan_tail. by replace (length A - Z.to_nat nr)%nat with 0%nat by lia. }
  injection HL as HLa HLi. rewrite EF, ET, app_nil_r in HLa.
  assert (Z.of_nat (length (list_at s' (active_head z file))) <= nr) as Hlen'.
  { rewrite HLa. pose proof (length_filter (λ p, keeps s p = true) A). lia. }
  split; [|done]. split; [done| | |done|done|done|].
  - pose proof (HPg p0) as E. unfold upd_all in E. rewrite Hp0 in E. case_decide; cbn in E; (eexists p0, _; split; [exact E|]).
    + unfold after_age. by destruct (stays_active pg0).
    + done.
  - intros i. unfold pvec_at. rewrite HPv. apply Hpv.
  - intros p pg' Hp Hpg'. assert (p ∈ list_at s' (active_head z file)) as Hin.
    { rewrite (scan_split nr (list_at s' _)). apply elem_of_app. by right. }
    rewrite HLa in Hin. apply list_elem_of_filter in Hin as [_ Hin]. pose proof (HPg p) as E. unfold upd_all in E.
    rewrite ET, decide_True in E by done. rewrite Hpg' in E. destruct (pages s !! p) as [pg|] eqn:Hpg; [|done].
    injection E as ->. destruct (HP p pg) as [Hpl Hc]; [by rewrite ET|done|].
    rewrite HS. destruct (plain_after_age _ _ Hpl) as [? ->]. done.
Qed.
End whole.
