(* ===== verification/VmscanProps.v ===== *)
(** * Properties of page reclaim

    The theorems about [mm/swap.c] and [mm/vmscan.c], with a state of three cached pages
    and an environment in which they apply. *)

From S2P Require Import Prelude Hoare Lru LruInv LruOps LruApi Rmap Vmscan VmscanInv VmscanPage VmscanShrink VmscanIsolate VmscanActive VmscanInactive VmscanCalls VmscanAging.

(** ** The state at the start *)

(** No page is on a list yet, and each is referenced at least by its cache and mappings. *)
Record boot (s : lst) : Prop := Boot {
  bo_lists : lists s = ∅;
  bo_pvecs : pvecs s = ∅;
  bo_freed : freed s = [];
  bo_page p pg : pages s !! p = Some pg → PageLRU pg = false ∧ cref pg <= _count pg ∧ cached_in s pg ∧
    0 <= page_zone pg ∧ is_Some (zones s !! page_zone pg);
  bo_zone z zd : zones s !! z = Some zd →
    (∀ l, counted l → stat (vm_stat zd) (NR_LRU_BASE + l) = 0) ∧ lru_lock zd = false;
  bo_swap : is_Some (spaces s !! swapper_space);
}.

Lemma boot_pvec s i : boot s → pvec_at s i = [].
Proof. intros B. unfold pvec_at. by rewrite (bo_pvecs _ B), lookup_empty. Qed.

Lemma boot_list s h : boot s → list_at s h = [].
Proof. intros B. unfold list_at. by rewrite (bo_lists _ B), lookup_empty. Qed.

Lemma boot_pend s : boot s → pend_of s = [].
Proof. intros B. unfold pend_of. cbn [map]. by rewrite !(boot_pvec _ _ B). Qed.

Lemma boot_refs s p : boot s → pagevec_refs s p = 0.
Proof. intros B. unfold pagevec_refs, refs. cbn [map]. by rewrite !(boot_pvec _ _ B). Qed.

Lemma boot_inv s : boot s → reclaim_inv s.
Proof.
  intros B.
  split; [split|split; [apply B|]].
  - split; intros *; rewrite ?(boot_list s _ B), ?(boot_pend _ B), ?(bo_freed _ B); try (by intros ?%elem_of_nil || constructor || done).
    + intros Hp _ H. destruct (bo_page _ B p pg Hp) as (? & _). congruence.
    + intros Hz _ Hl. destruct (bo_zone _ B _ _ Hz) as [H _]. by rewrite H.
    + intros Hz. destruct (bo_zone _ B _ _ Hz) as [_ ->]. done.
    + intros Hp. destruct (bo_page _ B p pg Hp) as (_ & _ & _ & ? & ?). done.
    + intros Hp. destruct (bo_page _ B p pg Hp) as (_ & Hc & _). rewrite (vrefs_at _ _ _ _ Hp).
      change (refs _ s p) with (pagevec_refs s p). rewrite (boot_refs _ _ B). pose proof (cref_nonneg pg). lia.
  - intros i _. by rewrite (boot_pvec _ _ B).
  - intros i p _. rewrite (boot_pvec _ _ B). by intros ?%elem_of_nil.
  - intros h _. by rewrite (boot_list _ _ B).
  - intros p pg Hp. apply (bo_page _ B p pg Hp).
Qed.

(** ** Sequences of calls *)

Section props.
Context `{R : Reclaim} {L : ReclaimLaws R}.

(** C1. Every call of [swap.c] and [vmscan.c] within its contract returns, whatever the
    state of the lists, and keeps the invariant: no lock is taken twice, no page is linked
    twice or unlinked while it is on no list, no reference is dropped that nobody holds,
    and no loop runs out of its bound. *)
Theorem calls_keep_reclaim_inv c s : reclaim_inv s → contract c s →
  ∃ s', run_call c s = Ok ((), s') ∧ reclaim_inv s'.
Proof. intros V C. destruct (run_call_inv c s V C) as ([] & s' & Hrun & V'). by exists s'. Qed.

(** C2. In every state that calls within their contracts reach from the start, the lists
    of the zones hold exactly the pages that have [PG_lru], each on the one list that its
    flags select and once; the counters of the zones are the lengths of the lists, and no page
    is counted as isolated; no lock
    is held; no local list has pages left; the reference count of a page covers its
    pagevecs, its cache and its mappings; and a page was freed at most once, without
    references. *)
Theorem reachable_states_consistent s0 s : boot s0 → reaches s0 s → consistent s.
Proof. intros B H. eapply reclaim_consistent, reaches_inv; [by apply boot_inv|done]. Qed.

(** [isolate_lru_pages] under the lock of the zone returns within its bound: without
    lumpy reclaim it looks at no more than [nr_to_scan] pages; the number of pages it
    takes is the length of the list it fills, which holds no page twice and only pages of
    this zone that left the lists of the zone; and it takes no more pages than it scanned. *)
Theorem isolate_lru_pages_bounds nr_to_scan z sc mode active file s :
  reclaim_inv s → populated z s → accepts mode active → (lumpy sc = true → memmap (order sc) s) →
  runs (spin_lock_irq z;; isolate_lru_pages nr_to_scan z inactive_list sc mode active file) s (λ r s',
    r.2 = Z.of_nat (length (list_at s' inactive_list)) ∧ r.2 <= r.1 ∧ (lumpy sc = false → r.1 <= Z.max 0 nr_to_scan) ∧
    NoDup (list_at s' inactive_list) ∧
    ∀ p, p ∈ list_at s' inactive_list → ∃ pg, pages s' !! p = Some pg ∧ PageLRU pg = false ∧ page_zone pg = z ∧
      PageUnevictable pg = false ∧ ∀ l, p ∉ list_at s' (z, l)).
Proof.
  intros V Pop Hacc Hmm. pose proof (reclaim_vm z 0 s V Pop) as W. pose proof (populated_zone _ _ V Pop) as Hz0.
  apply runs_bind. eapply v_lock; [exact W|by eapply vm_zone|]. intros s1 E1 _ W1.
  eapply runs_mono; [apply (isolate_lru_pages_inv z 0 (λ _ _, 0) (λ _, []) 1 nr_to_scan sc mode active file s1 Hacc)|].
  - by split; intros E; [destruct E|].
  - intros _ l. by split; intros E; [destruct E|].
  - done.
  - done.
  - intros Hl. specialize (Hmm Hl). unfold memmap in *. by rewrite E1.
  - cbn beta. intros [r1 r2] s' (ps & [W' He] & -> & _ & Hb1 & Hb2). cbn [fst snd] in *.
    assert (list_at s' inactive_list = ps) as El by (rewrite (vm_local W') by done; by rewrite lv_set_eq).
    rewrite El. split_and!; [done|done|done|rewrite <- El; apply (vm_inv W')|]. intros p Hp.
    destruct (v_take_held _ _ _ _ _ _ _ p 1 W') as (pg & Hpg & _ & HL & _); [by rewrite lv_set_eq|].
    exists pg. destruct (vm_held _ _ _ _ _ _ _ _ W' inactive_list p pg) as [Hz _]; [done|by rewrite lv_set_eq|done|done|].
    split_and!; [done|done|done|by eapply He|]. intros l Hl.
    rewrite <- El in Hp. pose proof (inv_disj _ _ _ _ _ _ (vm_inv W') _ _ p Hl Hp) as E. inversion E. lia.
Qed.

(** ** Aging *)

Context (Hbuf : buffer_heads_over_limit = false).


(** A page of the active list that is marked as accessed. *)
Lemma mark_active_run s p pg : pages s !! p = Some pg → PageActive pg = true →
  mark_page_accessed p s = Ok ((), pset p (set_PG_referenced 0 pg) s).
Proof.
  intros Hp Ha. unfold mark_page_accessed. erewrite bind_Ok by (by apply page_at_run). rewrite Ha. cbn [negb andb when].
  erewrite bind_Ok by apply ret_Ok. unfold upd_page. erewrite bind_Ok by (by apply page_at_run). done.
Qed.

Lemma mark_ready nr z sc file s p pg : scan_ready nr z sc file s → pages s !! p = Some pg → PageActive pg = true →
  scan_ready nr z sc file (pset p (set_PG_referenced 0 pg) s).
Proof.
  intros [V (p0 & pg0 & Hp0 & Hz0) Hpv Hnr Hun Hwr HP] Hp Ha. split; [|destruct (decide (p = p0)) as [<-|]|done|done|done|done|].
  - destruct (run_call_inv (Mark_page_accessed p) s V) as ([] & s' & Hrun & V'); [by eexists|].
    cbn [run_call] in Hrun. rewrite (mark_active_run _ _ _ Hp Ha) in Hrun. by injection Hrun as <-.
  - exists p, (set_PG_referenced 0 pg). split; [apply lookup_insert_eq|]. cbn. congruence.
  - exists p0, pg0. split; [|done]. cbn. by rewrite lookup_insert_ne.
  - intros q pgq Hq. cbn. destruct (decide (p = q)) as [<-|].
    + rewrite lookup_insert_eq. intros [= <-]. destruct (HP p pg Hq Hp) as [[H1 H2 H3 H4] Hc]. done.
    + rewrite lookup_insert_ne by done. by apply HP.
Qed.

Lemma whole_tail (nr : Z) (A : list Z) : Z.of_nat (length A) <= nr → scan_tail nr A = A.
Proof. intros H. unfold scan_tail. by replace (length A - Z.to_nat nr)%nat with 0%nat by lia. Qed.


(** ** The decision of [page_check_references] *)

(** Areas that are not locked in memory do not give [VM_LOCKED]. *)
Lemma ref_flags_unlocked l : ∀ f, Forall (λ a, locked a = false) l → has f VM_LOCKED = false → has (ref_flags l f) VM_LOCKED = false.
Proof.
  unfold ref_flags. induction l as [|a l IH]; intros f Hl Hf; [done|]. apply Forall_cons in Hl as [Ha Hl]. cbn [foldl].
  apply IH; [done|]. destruct (refs_in a =? 0); [done|]. unfold has, locked in *. apply negb_false_iff, Z.eqb_eq in Hf, Ha.
  apply negb_false_iff, Z.eqb_eq. by rewrite Z.land_lor_distr_l, Hf, Ha.
Qed.

(** What the counter [c] and the number [n] of references decide for a page that is not
    mapped as executable. *)
Definition reference_decision (swapbacked : bool) (c n : Z) : page_references :=
  if 0 <? n then if swapbacked || (c =? 0) || (1 <? n) then PAGEREF_ACTIVATE else PAGEREF_KEEP
  else if (c =? 0) && negb swapbacked then PAGEREF_RECLAIM_CLEAN else PAGEREF_RECLAIM.

End props.

(** ** A concrete state and environment *)

(** An environment in which no page can be written, unmapped or swapped. *)
#[local] Instance still : Reclaim := {
  current_is_kswapd := true;
  pf_swapwrite := false;
  current_space := None;
  fatal_signal_pending := false;
  total_swap_pages := 0;
  vm_swappiness := 60;
  buffer_heads_over_limit := false;
  congestion_wait := mret ();
  wait_on_page_writeback _ := mret ();
  writepage _ := mret AOP_WRITEPAGE_ACTIVATE;
  try_to_unmap _ := mret SWAP_FAIL;
  add_to_swap _ := mret false;
  try_to_free_swap _ := mret ();
  try_to_release_page _ _ := mret false;
  try_to_free_buffers _ := mret false;
  swapcache_free _ := mret ();
  freepage _ := mret ();
}.

Lemma touches_refl p s : touches p s s.
Proof. by split. Qed.

Lemma still_works {A} (a : A) (Rel : lst → Z → page → A → page → Prop) :
  (∀ s p pg, Rel s p pg a pg) → works_on (λ _, mret a) Rel.
Proof. intros H s p pg Hp HL. apply runs_ret. split; [apply touches_refl|]. by exists pg. Qed.

#[local] Instance still_laws : ReclaimLaws still.
Proof.
  assert (∀ pg, moves_cache pg pg) as Hm by (intros pg; by apply same_cache_moves).
  split; intros; apply still_works; intros s p pg; repeat split; try done; try apply Hm; by intros ?.
Qed.

Definition demo_page : page := Page 0 1 (-1) (FileMap 3) 0 0 0.
Definition demo_zone : zone := Zone false ∅ ∅ ∅ 0 false false 1 4 (1, 2, 3) ∅ ∅.
Definition demo_space : address_space := AddressSpace false true false false false false.

Definition demo_boot : lst :=
  LSt {[ 1 := demo_page; 2 := demo_page; 3 := demo_page ]} ∅ {[ 0 := demo_zone ]} ∅
    {[ 0 := demo_space; 3 := demo_space ]} ∅ [] ∅ 0 (SlabState ∅ (Some 0)) (PgData 1 0 0 false).

Lemma demo_boot_ok : boot demo_boot.
Proof.
  split; [done|done|done| | |by eexists].
  - intros p pg Hp. unfold demo_boot in Hp. cbn [pages] in Hp. assert (pg = demo_page) as ->.
    { apply lookup_insert_Some in Hp as [[_ <-]|[_ Hp]]; [done|].
      apply lookup_insert_Some in Hp as [[_ <-]|[_ Hp]]; [done|]. by apply lookup_singleton_Some in Hp as [_ <-]. }
    split_and!; [done|done| |done|by eexists].
    split; [done|]. intros m [= <-]. by eexists.
  - intros z zd Hz. unfold demo_boot in Hz. cbn [zones] in Hz. by apply lookup_singleton_Some in Hz as [_ <-].
Qed.

Definition after {A} (m : M lst A) (s : lst) : lst := match m s with Ok (_, s') => s' | Err _ => s end.

Definition demo_1 : lst := after (run_call (Lru_cache_add_lru 1 LRU_ACTIVE_FILE)) demo_boot.
Definition demo_2 : lst := after (run_call (Lru_cache_add_lru 2 LRU_ACTIVE_FILE)) demo_1.
Definition demo_3 : lst := after (run_call (Lru_cache_add_lru 3 LRU_INACTIVE_FILE)) demo_2.

(** Pages 1 and 2 are active, page 3 is inactive. *)
Definition demo : lst := after (run_call Lru_add_drain) demo_3.

(** The page can be added: the contract as a test. *)
Definition can_add (p l : Z) (s : lst) : bool :=
  match pages s !! p with
  | Some pg =>
      bool_decide (lists s = ∅) && negb (PageLRU pg) && negb (PageCompound pg) && bool_decide (p ∉ (pend_of s).*1) &&
      bool_decide (p ∉ freed s) && negb (PageActive pg && PageUnevictable pg) && (0 <=? l) && (l <=? 3) &&
      Bool.eqb (is_file_lru l) (page_is_file_cache pg)
  | None => false
  end.

Lemma can_add_contract s p l : can_add p l s = true → contract (Lru_cache_add_lru p l) s.
Proof.
  unfold can_add. destruct (pages s !! p) as [pg|] eqn:Hp; [|done].
  rewrite !andb_true_iff, !negb_true_iff, !bool_decide_eq_true, !Z.leb_le, eqb_true_iff. intros H. exists pg.
  split_and!; try tauto. split; try tauto. intros h. unfold list_at. rewrite (proj1 (proj1 (proj1 (proj1 (proj1 (proj1 (proj1 (proj1 H)))))))).
  rewrite lookup_empty. apply not_elem_of_nil.
Qed.

Definition returns {A} (r : res A) : bool := match r with Ok _ => true | Err _ => false end.

Lemma step_after c s : contract c s → returns (run_call c s) = true → step s (after (run_call c) s).
Proof. intros C. unfold after. destruct (run_call c s) as [[[] s']|] eqn:E; [|done]. intros _. by eapply Step. Qed.

Lemma demo_reached : reaches demo_boot demo.
Proof.
  assert (step demo_boot demo_1) as S1 by (apply step_after; [apply can_add_contract|]; vm_compute; reflexivity).
  assert (step demo_1 demo_2) as S2 by (apply step_after; [apply can_add_contract|]; vm_compute; reflexivity).
  assert (step demo_2 demo_3) as S3 by (apply step_after; [apply can_add_contract|]; vm_compute; reflexivity).
  assert (step demo_3 demo) as S4 by (apply step_after; [exact I|vm_compute; reflexivity]).
  repeat (eapply Then; [|eassumption]). apply Here.
Qed.

Lemma demo_inv : reclaim_inv demo.
Proof. eapply reaches_inv; [apply boot_inv, demo_boot_ok|apply demo_reached]. Qed.

Lemma demo_populated : populated 0 demo.
Proof. by exists 1, (default demo_page (pages demo !! 1)). Qed.

Definition demo_sc : scan_control := ScanControl 0 0 32 false 0xd0 true true true 0 0.

Lemma calls_keep_reclaim_inv_witness :
  ∃ s', run_call (Shrink_inactive_list 1 32 0 demo_sc 12 true) demo = Ok ((), s') ∧ reclaim_inv s'.
Proof.
  apply (calls_keep_reclaim_inv (Shrink_inactive_list 1 32 0 demo_sc 12 true) demo demo_inv). split; [apply demo_populated|].
  intros p i Hp Hi. cbn [order demo_sc] in Hi. change (Z.lnot (Z.shiftl 1 0 - 1)) with (-1) in Hi.
  rewrite Z.land_m1_r in Hi. change (Z.shiftl 1 0) with 1 in Hi. by replace i with p by lia.
Defined.

Lemma reachable_states_consistent_witness : consistent demo.
Proof. apply (reachable_states_consistent demo_boot demo demo_boot_ok demo_reached). Defined.

Lemma isolate_lru_pages_bounds_witness :
  runs (spin_lock_irq 0;; isolate_lru_pages 1 0 inactive_list demo_sc ISOLATE_ACTIVE true true) demo (λ r s',
    r.2 = Z.of_nat (length (list_at s' inactive_list)) ∧ r.2 <= r.1 ∧ r.1 <= 1).
Proof.
  eapply runs_mono.
  - apply (isolate_lru_pages_bounds 1 0 demo_sc ISOLATE_ACTIVE true true demo demo_inv demo_populated); [by right|done].
  - cbn beta. intros r s' (H1 & H2 & H3 & _). split; [done|]. split; [done|]. exact (H3 eq_refl).
Defined.

Definition demo_active : page := SetPage PG_active (SetPage PG_lru demo_page).

Lemma demo_ready : scan_ready 32 0 demo_sc true demo.
Proof.
  split; [apply demo_inv|apply demo_populated| |done|done|done|].
  - assert (bool_decide (map_Forall (λ _ l, l = []) (pvecs demo)) = true) as H%bool_decide_eq_true_1 by (vm_compute; reflexivity).
    intros i. unfold pvec_at. destruct (pvecs demo !! i) eqn:E; [|done]. exact (H i _ E).
  - assert (scan_tail 32 (list_at demo (active_head 0 true)) = [2; 1]) as -> by (vm_compute; reflexivity).
    assert (pages demo !! 1 = Some demo_active) as E1 by (vm_compute; reflexivity).
    assert (pages demo !! 2 = Some demo_active) as E2 by (vm_compute; reflexivity).
    assert (plain (spaces demo) demo_active) as Hpl.
    { split; [done|done| |by right]. intros m [= <-]. exists demo_space. split; [|done]. vm_compute. reflexivity. }
    intros p pg Hp Hpg. assert (pg = demo_active) as ->; [|split; [exact Hpl|discriminate]].
    apply elem_of_cons in Hp as [->|[->|Hp%elem_of_nil]%elem_of_cons]; [| |destruct Hp].
    + rewrite E2 in Hpg. injection Hpg as Hpg. exact (eq_sym Hpg).
    + rewrite E1 in Hpg. injection Hpg as Hpg. exact (eq_sym Hpg).
Qed.



