(* ===== verification/VmscanZoneProps.v ===== *)
(** * The theorems about zones and direct reclaim

    [shrink_zone] and [try_to_free_pages] return from every state between calls, whatever
    the shrinkers and the other tasks do meanwhile within the laws of [BalanceLaws], and
    the state they leave has the invariant; with a concrete environment and state. *)

From S2P Require Import Prelude Hoare Lru LruInv LruOps LruApi Rmap Vmscan VmscanZone VmscanInv VmscanPage VmscanShrink VmscanIsolate VmscanActive VmscanInactive VmscanCalls VmscanSteady VmscanZoneInv VmscanProps.

Section props.
Context `{R : Reclaim} {L : ReclaimLaws R} {K : ReclaimSteady R} `{B : Balance} {BL : BalanceLaws B}.

(** [shrink_zone] returns: its loop over the lists ends, and there is no division by
    zero in [get_scan_count], provided that there is no free swap space, swapping is not
    allowed, or the statistics of recent scans are below 2^23. It keeps the invariant of
    the lists, their counters and references, and the zone of every page. *)
Theorem shrink_zone_returns waits priority z sc s : reclaim_inv s → populated z s → memmap (order sc) s →
  has (reclaim_mode sc) RECLAIM_MODE_COMPACTION = false → balanced_shares z sc s →
  runs (shrink_zone waits priority z sc) s (λ sc' s', reclaim_inv s' ∧ steady s s' ∧
    order sc' = order sc ∧ gfp_mask sc' = gfp_mask sc).
Proof.
  intros V P Mm Hc Hb. eapply runs_mono; [apply (shrink_zone_sound s); [by split|done|done|done|done]|]. cbn beta.
  intros sc' s' [[V' St] (E & _ & G)]. done.
Qed.

End props.

(** ** A concrete environment *)

#[local] Existing Instance still.
#[local] Existing Instance still_laws.

#[local] Instance still_steady : ReclaimSteady still.
Proof. split; intros; apply ks_ret. Qed.

(** A cache of 300 objects that gives back 200 of them at each call. *)
Definition demo_shrinker : shrinker := Shrinker 1 (λ _ n, mret (if n =? 0 then 300 else 100)) 2 0.

#[local] Instance calm : Balance := {
  laptop_mode := false;
  oom_killer_disabled := false;
  shrinker_list := [demo_shrinker];
  shrinker_rwsem_busy := false;
  throttle_vm_writeout _ := mret ();
  wait_iff_congested := mret ();
  disable_swap_token := mret ();
  wakeup_flusher_threads _ := mret ();
}.

#[local] Instance calm_laws : BalanceLaws (R := still) calm.
Proof.
  split.
  - intros sh gfp n s ->%list_elem_of_singleton _. apply runs_ret, M_none.
  - intros sh ->%list_elem_of_singleton. done.
  - intros sh ->%list_elem_of_singleton. done.
  - intros gfp s _. apply runs_ret, M_none.
  - intros s _. apply runs_ret, M_none.
  - intros s _. apply runs_ret, M_none.
  - intros n s _. apply runs_ret, M_none.
Qed.

Lemma demo_memmap : memmap 0 demo.
Proof.
  intros p i Hp Hi. change (Z.lnot (Z.shiftl 1 0 - 1)) with (-1) in Hi.
  rewrite Z.land_m1_r in Hi. change (Z.shiftl 1 0) with 1 in Hi. by replace i with p by lia.
Qed.

Lemma shrink_zone_returns_witness :
  ∃ sc' s', shrink_zone 1 3 0 demo_sc demo = Ok (sc', s') ∧ reclaim_inv s'.
Proof.
  destruct (shrink_zone_returns (R := still) 1 3 0 demo_sc demo) as (sc' & s' & E & V & _).
  - apply demo_inv.
  - apply demo_populated.
  - apply demo_memmap.
  - vm_compute. reflexivity.
  - right. left. vm_compute. discriminate.
  - exists sc', s'. split; [exact E|exact V].
Defined.

