(* ===== verification/VmscanKswapdProps.v ===== *)
(** * The theorems about the daemon [kswapd]

    The daemon's loop as a step relation, with the wake-ups and the work of other tasks
    between its turns, and what holds in all its runs; with a concrete environment. *)

From S2P Require Import Prelude Hoare Lru LruInv LruOps LruApi Rmap Vmscan VmscanZone Watermark VmscanKswapd VmscanInv VmscanPage VmscanShrink VmscanIsolate VmscanActive VmscanInactive VmscanCalls VmscanSteady VmscanZoneInv VmscanKswapdInv VmscanProps VmscanZoneProps.

Section props.
Context `{R : Reclaim} {L : ReclaimLaws R} {K : ReclaimSteady R} `{B : Balance} {BL : BalanceLaws B} `{D : Daemon} {DL : DaemonLaws D}.

(** A node on a system without swap whose zones all have pages, with a complete memory map
    and a daemon that counts the pages freed from slabs. *)
Record node_ready (s : lst) : Prop := NodeReady {
  nr_inv : reclaim_inv s;
  nr_no_swap : total_swap_pages = 0 ∧ nr_swap_pages s <= total_swap_pages;
  nr_populated z : 0 <= z < nr_zones (pgdat s) → populated z s;
  nr_memmap o : 0 <= o < MAX_ORDER → memmap o s;
  nr_fit : Z.of_nat (size (pages s)) < 2 ^ 32 - 1;
  nr_slab : is_Some (reclaimed_slab (slab s));
  nr_request : request_ok (pgdat s);
}.

(** The runs of the daemon from the state [s0]: its turns, wake-ups, and what other tasks
    do meanwhile. *)
Inductive kswapd_runs (s0 : lst) : daemon → lst → Prop :=
  | K_start : kswapd_runs s0 (kswapd_start (pgdat s0)) s0
  | K_turn restarts waits k k' s s' : kswapd_runs s0 k s → kswapd_turn restarts waits k s = Ok (Turned k', s') → kswapd_runs s0 k' s'
  | K_wakeup z order classzone k s s' : kswapd_runs s0 k s → 0 <= z < nr_zones (pgdat s) → 0 <= order < MAX_ORDER →
      0 <= classzone < nr_zones (pgdat s) → wakeup_kswapd z order classzone s = Ok ((), s') → kswapd_runs s0 k s'
  | K_meanwhile k s s' : kswapd_runs s0 k s → meanwhile s s' → kswapd_runs s0 k s'.

Lemma kswapd_runs_sound s0 k s : node_ready s0 → kswapd_runs s0 k s → sound s0 s ∧ daemon_ok s0 k.
Proof.
  intros [V Ns P Mm Fit Sl Rq]. induction 1 as [|n w k k' s s' _ [S Hk] E|z o cl k s s' _ [S Hk] Hz Ho Hcl E|k s s' _ [S Hk] M].
  - split; [by split|]. destruct Rq as [H1 H2]. split; cbn; lia.
  - destruct (kswapd_turn_sound s0 Ns P Mm Fit Sl Rq n w k s S Hk) as (t & s1 & E1 & S1 & Ht).
    rewrite E in E1. injection E1 as <- <-. split; [done|by apply Ht].
  - destruct (request_in_range s0 Rq s S) as [En _]. rewrite En in Hz, Hcl.
    destruct (wakeup_kswapd_sound s0 P Rq z o cl s S Hz Ho Hcl) as ([] & s1 & E1 & S1). rewrite E in E1. by injection E1 as <-.
  - split; [by eapply sound_meanwhile|done].
Qed.


(** [balance_pgdat] returns after any number of passes that do not balance the node,
    and keeps the invariant; when it ends, it reports the order it was given or 0, and a
    zone of the node. *)
Theorem balance_pgdat_returns s restarts waits order classzone : node_ready s → 0 <= order < MAX_ORDER → 0 <= classzone < nr_zones (pgdat s) →
  runs (balance_pgdat restarts waits order classzone) s (λ r s', reclaim_inv s' ∧ steady s s' ∧
    ∀ o z, r = Some (o, z) → (o = order ∨ o = 0) ∧ 0 <= z < nr_zones (pgdat s)).
Proof.
  intros [V Ns P Mm Fit Sl Rq] Ho Hcl. eapply runs_mono; [apply (balance_pgdat_sound s); [done..|by split|done|done]|]. cbn beta.
  intros r s' [[V' St] Hr]. done.
Qed.

(** The marks and the reserve of a zone fit into a [long]. *)
Definition marks_small (zd : zone) (z : Z) : Prop :=
  0 <= high_wmark_pages zd ∧ 0 <= stat (lowmem_reserve zd) z ∧ high_wmark_pages zd + stat (lowmem_reserve zd) z < 2 ^ 31.

(** C38. What it means that the daemon does not find it too early to sleep, after a full
    timeout and for single pages: every zone up to the class has no memory, is given up
    as unreclaimable, or has more free pages than its high watermark and the reserve for
    the class. *)
Theorem sleep_leaves_free_pages s classzone : node_ready s → 0 <= classzone < nr_zones (pgdat s) → ∃ b,
  sleeping_prematurely 0 0 classzone s = Ok (b, s) ∧
  (b = false → ∀ z zd, 0 <= z <= classzone → zones s !! z = Some zd → populated_zone zd = true → all_unreclaimable zd = false →
    blocks_counted zd → marks_small zd z → high_wmark_pages zd + stat (lowmem_reserve zd) z < stat (vm_stat zd) NR_FREE_PAGES).
Proof.
  intros [V Ns P Mm Fit Sl Rq] Hcl. eexists. split; [apply (sleeping_prematurely_run s); [done|by split|lia]|].
  intros Hs z zd Hz Hzd Hp Hu C (M1 & M2 & M3). apply negb_false_iff in Hs. unfold settled in Hs. cbn [Z.eqb] in Hs.
  unfold all_fine in Hs. rewrite forallb_forall in Hs. specialize (Hs z). rewrite (on_zone_at s true _ z zd Hzd) in Hs.
  unfold zone_fine in Hs. rewrite Hp, Hu in Hs. cbn [negb orb] in Hs.
  assert (zone_watermark_ok_safe zd 0 (high_wmark_pages zd) z 0 = true) as Hok by (apply Hs, list_elem_of_In, elem_of_seqZ; lia).
  apply zone_watermark_ok_spec in Hok as [Hlt _]; [|done|done|done|done|done]. rewrite (bc_free _ C). change (2 ^ 0) with 1 in Hlt. lia.
Qed.
End props.

(** ** A concrete node and environment *)

#[local] Existing Instance still.
#[local] Existing Instance still_laws.
#[local] Existing Instance still_steady.
#[local] Existing Instance calm.
#[local] Existing Instance calm_laws.

#[local] Instance quiet : Daemon := {
  try_to_freeze := mret false;
  freezing := mret false;
  kthread_should_stop := mret false;
  schedule := mret ();
  schedule_timeout _ := mret 0;
}.

#[local] Instance quiet_laws : DaemonLaws (R := still) quiet.
Proof.
  split; intros; apply runs_ret; first [done | apply M_none].
Qed.

(** A zone of 1024 pages, of which none is in use. *)
Definition node_pages : gset Z := list_to_set (seqZ 0 1024).

Definition node_zone_data : zone :=
  Zone false {[ 0 := 1024 ]} ∅ ∅ 0 false false 1 1024 (1, 2, 3) ∅ {[ 10 := 1 ]}.

Definition demo_node : lst :=
  LSt (gset_to_gmap demo_page node_pages) ∅ {[ 0 := node_zone_data ]} ∅ {[ 0 := demo_space; 3 := demo_space ]} ∅ [] ∅ 0
    (SlabState ∅ (Some 0)) (PgData 1 0 0 false).

Lemma node_page p pg : pages demo_node !! p = Some pg → 0 <= p < 1024 ∧ pg = demo_page.
Proof.
  intros [Hp <-]%lookup_gset_to_gmap_Some. apply elem_of_list_to_set, elem_of_seqZ in Hp. split; [lia|done].
Qed.

Lemma node_has_page p : 0 <= p < 1024 → pages demo_node !! p = Some demo_page.
Proof. intros Hp. apply lookup_gset_to_gmap_Some. split; [|done]. apply elem_of_list_to_set, elem_of_seqZ. lia. Qed.

Lemma demo_node_boot : boot demo_node.
Proof.
  split; [done|done|done| | |by eexists].
  - intros p pg [_ ->]%node_page. split_and!; [done|done| |done|by eexists]. split; [done|]. intros m [= <-]. by eexists.
  - intros z zd Hz. unfold demo_node in Hz. cbn [zones] in Hz. apply lookup_singleton_Some in Hz as [_ <-]. split; [|done].
    intros l Hl. unfold stat. cbn [vm_stat node_zone_data]. rewrite lookup_singleton_ne; [done|]. unfold NR_LRU_BASE. lia.
Qed.

Lemma demo_node_memmap o : 0 <= o < MAX_ORDER → memmap o demo_node.
Proof.
  unfold MAX_ORDER. intros Ho p i [pg [Hp _]%node_page] Hi. rewrite Z.shiftl_1_l in Hi.
  replace (2 ^ o - 1) with (Z.ones o) in Hi by (by rewrite Z.ones_equiv; lia).
  rewrite <- Z.ldiff_land, Z.ldiff_ones_r, Z.shiftl_mul_pow2, Z.shiftr_div_pow2 in Hi by lia.
  pose proof (Z.pow_pos_nonneg 2 o ltac:(lia) ltac:(lia)) as Hpos.
  assert (p / 2 ^ o < 2 ^ (10 - o)) as Hlt.
  { apply Z.div_lt_upper_bound; [lia|]. rewrite <- Z.pow_add_r by lia. replace (o + (10 - o)) with 10 by lia. apply Hp. }
  assert (2 ^ (10 - o) * 2 ^ o = 1024) as E by (rewrite <- Z.pow_add_r by lia; by replace (10 - o + o) with 10 by lia).
  pose proof (Z.div_pos p (2 ^ o) ltac:(lia) ltac:(lia)). rewrite node_has_page; [by eexists|]. nia.
Qed.

Lemma demo_node_ready : node_ready demo_node.
Proof.
  split.
  - apply boot_inv, demo_node_boot.
  - done.
  - intros z Hz. cbn in Hz. assert (z = 0) as -> by lia. exists 0, demo_page. split; [by apply node_has_page|done].
  - apply demo_node_memmap.
  - vm_compute. reflexivity.
  - by eexists.
  - done.
Qed.


Lemma balance_pgdat_returns_witness :
  ∃ r s', balance_pgdat 0 1 3 0 demo_node = Ok (r, s') ∧ reclaim_inv s'.
Proof.
  destruct (balance_pgdat_returns (R := still) demo_node 0 1 3 0 demo_node_ready) as (r & s' & E & V & _); [done|done|].
  exists r, s'. split; [exact E|exact V].
Defined.

Lemma sleep_leaves_free_pages_witness :
  sleeping_prematurely 0 0 0 demo_node = Ok (false, demo_node) ∧
  high_wmark_pages node_zone_data + stat (lowmem_reserve node_zone_data) 0 < stat (vm_stat node_zone_data) NR_FREE_PAGES.
Proof.
  destruct (sleep_leaves_free_pages (R := still) demo_node 0 demo_node_ready) as (b & E & H); [done|].
  assert (b = false) as ->; [|split; [exact E|]].
  - assert (match sleeping_prematurely 0 0 0 demo_node with Ok (b, _) => b | Err _ => true end = false) as E2 by (vm_compute; reflexivity).
    by rewrite E in E2.
  - apply (H eq_refl 0 node_zone_data); [lia|apply lookup_singleton_eq|reflexivity|reflexivity| |split_and!; vm_compute; congruence].
    split; [|vm_compute; reflexivity|vm_compute; reflexivity]. intros o. unfold stat. cbn [nr_free node_zone_data].
    destruct (decide (o = 10)) as [->|]; [rewrite lookup_singleton_eq; cbn; lia|]. by rewrite lookup_singleton_ne.
Defined.
