(* ===== verification/Meminfo.v ===== *)
(** * The text of /proc/meminfo

    Models [goldfish/fs/proc/meminfo.c] with [si_meminfo] of [mm/page_alloc.c],
    [nr_free_highpages] of [mm/highmem.c], [si_swapinfo] of [mm/swapfile.c] and
    [global_page_state] of [vmstat.h], on the state of page reclaim ([Lru.lst]), whose zones
    hold the counters.  The file is a sequential file of a single record
    ([SeqFile.single_open]). *)

From Stdlib Require Import Ascii String.
From stdpp Require Import pretty.
From S2P Require Import Prelude Hoare CLib ArmPgtable Lru LruInv Vmscan VmscanZone Buddy PageAlloc VmscanCalls SeqFile SeqFileInv.

(** The remaining items of [enum zone_stat_item] that are shown. *)
Definition NR_ANON_PAGES : Z := 7.
Definition NR_FILE_MAPPED : Z := 8.
Definition NR_SLAB_RECLAIMABLE : Z := 12.
Definition NR_SLAB_UNRECLAIMABLE : Z := 13.
Definition NR_PAGETABLE : Z := 14.
Definition NR_KERNEL_STACK : Z := 15.
Definition NR_BOUNCE : Z := 17.
Definition NR_WRITEBACK_TEMP : Z := 20.

Definition THREAD_SIZE : Z := 8192.
Definition VMALLOC_OFFSET : Z := 8 * 1024 * 1024.
Definition VMALLOC_END : Z := 4278190080.

(** A swap area: [SWP_USED], [SWP_WRITEOK] and [inuse_pages]. *)
Record swap_info := SwapInfo { swp_used : bool; swp_writeok : bool; inuse_pages : Z }.

(** The variables of other subsystems that the file shows. *)
Record meminfo_vars := MeminfoVars {
  totalram_pages : Z;
  nr_blockdev_pages : Z;
  totalhigh_pages : Z;
  swap_areas : list swap_info;
  total_swap_pages : Z;
  total_swapcache_pages : Z;
  vm_committed_as : Z;
  sysctl_overcommit_ratio : Z;
  high_memory : Z;
  vmalloc_used : Z;
  vmalloc_largest_chunk : Z;
}.

Record sysinfo := Sysinfo {
  totalram : Z;
  freeram : Z;
  bufferram : Z;
  totalhigh : Z;
  freehigh : Z;
  totalswap : Z;
  freeswap : Z;
}.

(** The counter of the system is the sum of the counters of the zones: every update adds to
    both. *)
Definition global_page_state (s : lst) (item : Z) : Z :=
  u32 (foldr (λ zd n, stat (vm_stat zd) item + n) 0 (map_to_list (zones s)).*2).

Definition nr_free_highpages (s : lst) : Z :=
  match zones s !! ZONE_HIGHMEM with Some zd => zone_page_state zd NR_FREE_PAGES | None => 0 end.

Definition nr_to_be_unused (l : list swap_info) : Z :=
  foldr (λ si n, if swp_used si && negb (swp_writeok si) then inuse_pages si + n else n) 0 l.

(** [si_meminfo(&i); si_swapinfo(&i)] *)
Definition si_meminfo (v : meminfo_vars) (s : lst) : sysinfo :=
  Sysinfo (totalram_pages v) (global_page_state s NR_FREE_PAGES) (nr_blockdev_pages v) (totalhigh_pages v)
    (nr_free_highpages s)
    (u32 (total_swap_pages v + nr_to_be_unused (swap_areas v))) (u32 (nr_swap_pages s + nr_to_be_unused (swap_areas v))).

(** [#define K(x) ((x) << (PAGE_SHIFT - 10))] on 32-bit words. *)
Definition K_ (x : Z) : Z := u32 (Z.shiftl (u32 x) (PAGE_SHIFT - 10)).

(** [%8lu] *)
Definition fmt_8lu (n : Z) : list ascii :=
  let d := list_ascii_of_string (pretty n) in replicate (8 - length d) " "%char ++ d.

Definition nl : ascii := "010"%char.

Definition meminfo_line (label : string) (n : Z) : list ascii :=
  list_ascii_of_string label ++ fmt_8lu n ++ list_ascii_of_string " kB" ++ [nl].

Section meminfo.
Context (v : meminfo_vars) (s : lst).

Definition cached_pages (i : sysinfo) : Z :=
  let c := s32 (global_page_state s NR_FILE_PAGES - total_swapcache_pages v - bufferram i) in
  if c <? 0 then 0 else c.

Definition commit_allowed : Z := u32 (u32 (totalram_pages v * sysctl_overcommit_ratio v) / 100 + total_swap_pages v).

Definition lru_pages (lru : Z) : Z := global_page_state s (NR_LRU_BASE + lru).

(** The lines of the format string with the arguments. *)
Definition meminfo_lines : list (string * Z) :=
  let i := si_meminfo v s in
  let g := global_page_state s in
  [ ("MemTotal:       ", K_ (totalram i));
    ("MemFree:        ", K_ (freeram i));
    ("Buffers:        ", K_ (bufferram i));
    ("Cached:         ", K_ (cached_pages i));
    ("SwapCached:     ", K_ (total_swapcache_pages v));
    ("Active:         ", K_ (lru_pages LRU_ACTIVE_ANON + lru_pages LRU_ACTIVE_FILE));
    ("Inactive:       ", K_ (lru_pages LRU_INACTIVE_ANON + lru_pages LRU_INACTIVE_FILE));
    ("Active(anon):   ", K_ (lru_pages LRU_ACTIVE_ANON));
    ("Inactive(anon): ", K_ (lru_pages LRU_INACTIVE_ANON));
    ("Active(file):   ", K_ (lru_pages LRU_ACTIVE_FILE));
    ("Inactive(file): ", K_ (lru_pages LRU_INACTIVE_FILE));
    ("Unevictable:    ", K_ (lru_pages LRU_UNEVICTABLE));
    ("Mlocked:        ", K_ (g NR_MLOCK));
    ("HighTotal:      ", K_ (totalhigh i));
    ("HighFree:       ", K_ (freehigh i));
    ("LowTotal:       ", K_ (totalram i - totalhigh i));
    ("LowFree:        ", K_ (freeram i - freehigh i));
    ("SwapTotal:      ", K_ (totalswap i));
    ("SwapFree:       ", K_ (freeswap i));
    ("Dirty:          ", K_ (g NR_FILE_DIRTY));
    ("Writeback:      ", K_ (g NR_WRITEBACK));
    ("AnonPages:      ", K_ (g NR_ANON_PAGES));
    ("Mapped:         ", K_ (g NR_FILE_MAPPED));
    ("Shmem:          ", K_ (g NR_SHMEM));
    ("Slab:           ", K_ (g NR_SLAB_RECLAIMABLE + g NR_SLAB_UNRECLAIMABLE));
    ("SReclaimable:   ", K_ (g NR_SLAB_RECLAIMABLE));
    ("SUnreclaim:     ", K_ (g NR_SLAB_UNRECLAIMABLE));
    ("KernelStack:    ", u32 (g NR_KERNEL_STACK * THREAD_SIZE) / 1024);
    ("PageTables:     ", K_ (g NR_PAGETABLE));
    ("NFS_Unstable:   ", K_ (g NR_UNSTABLE_NFS));
    ("Bounce:         ", K_ (g NR_BOUNCE));
    ("WritebackTmp:   ", K_ (g NR_WRITEBACK_TEMP));
    ("CommitLimit:    ", K_ commit_allowed);
    ("Committed_AS:   ", K_ (vm_committed_as v));
    ("VmallocTotal:   ", u32 (VMALLOC_END - Z.land (u32 (high_memory v + VMALLOC_OFFSET)) (u32 (Z.lnot (VMALLOC_OFFSET - 1)))) / 1024);
    ("VmallocUsed:    ", u32 (vmalloc_used v) / 1024);
    ("VmallocChunk:   ", u32 (vmalloc_largest_chunk v) / 1024) ]%string.

Definition meminfo_text : list ascii := concat ((λ '(label, n), meminfo_line label n) <$> meminfo_lines).

(** [meminfo_proc_show]; there are no huge pages and no [arch_report_meminfo] here. *)
Definition meminfo_proc_show : M seq_file Z := seq_printf meminfo_text;; mret 0.
End meminfo.

(** [meminfo_proc_fops]: [single_open], [seq_read], [single_release]. *)
Definition meminfo_proc_ops (v : meminfo_vars) (s : lst) : seq_operations := single_ops (meminfo_proc_show v s).

(** ** The size of the text *)

Lemma pretty_N_go_length k : ∀ x s, (x < 10 ^ N.of_nat k)%N → (String.length (pretty_N_go x s) <= k + String.length s)%nat.
Proof.
  induction k as [|k IH]; intros x s Hx.
  - replace x with 0%N by (cbn in Hx; lia). rewrite pretty_N_go_0. lia.
  - destruct (decide (0 < x)%N) as [Hp|Hp]; [|replace x with 0%N by lia; rewrite pretty_N_go_0; lia].
    rewrite pretty_N_go_step by done. etrans; [apply IH|cbn [String.length]; lia].
    apply N.Div0.div_lt_upper_bound. rewrite Nat2N.inj_succ, N.pow_succ_r' in Hx. lia.
Qed.

Lemma pretty_u32_length n : is_u32 n → (String.length (pretty n) <= 10)%nat.
Proof.
  intros Hn. unfold pretty, pretty_Z. destruct n as [|p|p]; [cbn; lia| |unfold is_u32 in Hn; lia].
  change (String.length (pretty_N_go (Npos p) EmptyString) <= 10)%nat.
  etrans; [apply (pretty_N_go_length 10)|cbn; lia]. unfold is_u32 in Hn. change (10 ^ N.of_nat 10)%N with 10000000000%N. lia.
Qed.

Lemma list_ascii_length s : length (list_ascii_of_string s) = String.length s.
Proof. induction s; cbn; congruence. Qed.

Lemma fmt_8lu_length n : is_u32 n → (length (fmt_8lu n) <= 10)%nat.
Proof.
  intros Hn%pretty_u32_length. unfold fmt_8lu. rewrite length_app, length_replicate, list_ascii_length. lia.
Qed.

Lemma meminfo_line_length label n :
  is_u32 n → String.length label = 16%nat → (length (meminfo_line label n) <= 30)%nat.
Proof.
  intros Hn%fmt_8lu_length Hl. unfold meminfo_line. rewrite !length_app, list_ascii_length, Hl. cbn [length list_ascii_of_string]. lia.
Qed.

Lemma K_u32 x : is_u32 (K_ x).
Proof. apply u32_range. Qed.

Lemma div_u32 x d : 0 < d → is_u32 (u32 x / d).
Proof.
  intros Hd. pose proof (u32_range x) as [? ?]. split; [by apply Z.div_pos|].
  eapply Z.le_lt_trans; [apply Z.div_le_upper_bound with (q := u32 x); nia|done].
Qed.

Lemma meminfo_lines_ok v s : Forall (λ '(label, n), is_u32 n ∧ String.length label = 16%nat) (meminfo_lines v s).
Proof. unfold meminfo_lines. cbn zeta. repeat (apply Forall_cons_2; [split; [first [apply K_u32|by apply div_u32]|done]|]). by apply Forall_nil_2. Qed.

Lemma meminfo_text_length v s : len (meminfo_text v s) <= 2048.
Proof.
  unfold meminfo_text. assert (length (meminfo_lines v s) = 37%nat) as Hl by done.
  pose proof (meminfo_lines_ok v s) as HF. enough (length (concat ((λ '(label, n), meminfo_line label n) <$> meminfo_lines v s)) <= 30 * length (meminfo_lines v s))%nat by lia.
  clear Hl. induction HF as [|[label n] l [Hn Hs] HF IH]; cbn [fmap list_fmap concat length]; [lia|].
  rewrite length_app. pose proof (meminfo_line_length label n Hn Hs). fold (fmap (λ '(label, n), meminfo_line label n) l). cbn in *. lia.
Qed.

Definition meminfo_records v s : Records (meminfo_proc_ops v s) [meminfo_text v s] := single_records _ _ (printf_prints _).

(** ** The counts of the lists *)

(** The number of pages on the lists [ls], over all zones. *)
Definition pages_on (ls : list Z) (s : lst) : Z :=
  Z.of_nat (size (filter (λ '(_, pg), PageLRU pg = true ∧ page_lru pg ∈ ls) (pages s))).

Definition zones_ok (s : lst) : Prop := ∀ z zd, zones s !! z = Some zd → 0 <= z.

(** The heads of the lists of two kinds, zone by zone. *)
Definition zone_heads (l1 l2 : Z) (zs : list (Z * zone)) : list head :=
  concat ((λ zz, [(zz.1, l1); (zz.1, l2)]) <$> zs).

Lemma elem_of_zone_heads l1 l2 zs h : h ∈ zone_heads l1 l2 zs ↔ h.1 ∈ zs.*1 ∧ (h.2 = l1 ∨ h.2 = l2).
Proof.
  induction zs as [|[z zd] zs IH]; unfold zone_heads in *; cbn; [set_solver|]. rewrite !elem_of_cons, IH.
  destruct h as [a b]. cbn. split; [intros [[= -> ->]|[[= -> ->]|[? ?]]]; tauto|].
  intros [[->|?] [->| ->]]; tauto.
Qed.

Lemma zone_heads_NoDup l1 l2 zs : l1 ≠ l2 → NoDup zs.*1 → NoDup (zone_heads l1 l2 zs).
Proof.
  intros Hne. induction zs as [|[z zd] zs IH]; cbn; [constructor|]. rewrite NoDup_cons. intros [Hz Hn].
  apply NoDup_cons. split.
  - rewrite elem_of_cons. intros [[= ?]|Hin]; [done|]. apply elem_of_zone_heads in Hin as [? _]. done.
  - apply NoDup_cons. split; [|by apply IH]. intros Hin. by apply elem_of_zone_heads in Hin as [? _].
Qed.

(** The lists of two kinds over all zones hold as many pages as the counters say. *)
Lemma pages_on_lists s l1 l2 :
  reclaim_inv s → zones_ok s → l1 ≠ l2 →
  pages_on [l1; l2] s = len (concat (list_at s <$> zone_heads l1 l2 (map_to_list (zones s)))).
Proof.
  intros RI Hzo Hne. pose proof (reclaim_consistent s RI) as C. destruct RI as [[I _ _ _] _].
  unfold pages_on. f_equal. rewrite <- size_dom.
  assert (NoDup (concat (list_at s <$> zone_heads l1 l2 (map_to_list (zones s))))) as HN.
  { apply NoDup_concat_fmap; [apply zone_heads_NoDup; [done|apply NoDup_fst_map_to_list]|intros h _; apply I|intros h h' q _ _; apply I]. }
  rewrite <- (size_list_to_set (C := gset Z) _ HN). f_equal. apply set_eq. intros p.
  rewrite elem_of_dom, elem_of_list_to_set, elem_of_concat_fmap. unfold is_Some. setoid_rewrite map_lookup_filter_Some.
  split.
  - intros (pg & Hp & HL & Hl). destruct (inv_zone _ _ _ _ _ _ I p pg Hp) as [[zd Hz] _].
    exists (page_zone pg, page_lru pg). split; [|by apply (inv_lru _ _ _ _ _ _ I)].
    apply elem_of_zone_heads. cbn. split; [|set_solver]. apply list_elem_of_fmap. exists (page_zone pg, zd). by rewrite elem_of_map_to_list.
  - intros ([z l] & Hh & Hp). apply elem_of_zone_heads in Hh as [Hz Hl]. cbn in Hz, Hl.
    apply list_elem_of_fmap in Hz as ([z' zd] & -> & Hz%elem_of_map_to_list). apply Hzo in Hz. cbn in *.
    destruct (inv_page _ _ _ _ _ _ I _ _ Hp ltac:(done)) as (pg & Hpg & _ & Hon). exists pg. split; [done|].
    destruct Hon as [(_ & ? & [= -> ->])|[(E & _)|(E & _)]]; [split; [done|set_solver]|cbn in E; lia..].
Qed.

Lemma lists_stat s l1 l2 (L : list (Z * zone)) :
  reclaim_inv s → zones_ok s → 0 <= l1 <= 4 → 0 <= l2 <= 4 → (∀ z zd, (z, zd) ∈ L → zones s !! z = Some zd) →
  foldr (λ zd n, stat (vm_stat zd) (NR_LRU_BASE + l1) + n) 0 L.*2 +
  foldr (λ zd n, stat (vm_stat zd) (NR_LRU_BASE + l2) + n) 0 L.*2 = len (concat (list_at s <$> zone_heads l1 l2 L)).
Proof.
  intros RI Hzo H1 H2 HL. pose proof (reclaim_consistent s RI) as C. induction L as [|[z zd] L IH]; [done|].
  assert (zones s !! z = Some zd) as Hz by (apply HL; set_solver). pose proof (Hzo _ _ Hz) as H0.
  unfold zone_heads in *. cbn. rewrite !length_app, (con_stat _ C z zd l1 Hz H0 H1), (con_stat _ C z zd l2 Hz H0 H2).
  cbn in IH. specialize (IH ltac:(set_solver)). lia.
Qed.

(** What the file shows for two kinds of lists together. *)
Lemma shown_pages s l1 l2 :
  reclaim_inv s → zones_ok s → 0 <= l1 <= 4 → 0 <= l2 <= 4 → l1 ≠ l2 → pages_on [l1; l2] s < 2 ^ 30 →
  K_ (lru_pages s l1 + lru_pages s l2) = 4 * pages_on [l1; l2] s.
Proof.
  intros RI Hzo H1 H2 Hne Hlt. unfold K_, lru_pages, global_page_state.
  assert (∀ x y, u32 (u32 x + u32 y) = u32 (x + y)) as -> by (intros x y; unfold u32; by rewrite <- Zplus_mod).
  rewrite (lists_stat s) by (done || (intros z zd; apply elem_of_map_to_list)).
  rewrite <- pages_on_lists by done. assert (0 <= pages_on [l1; l2] s) by (unfold pages_on; lia).
  rewrite (u32_id (pages_on _ _)) by (split; lia). rewrite Z.shiftl_mul_pow2 by done.
  change (2 ^ (PAGE_SHIFT - 10)) with 4. rewrite u32_id by (split; lia). lia.
Qed.
