(* ===== verification/MemoryMonitor.v ===== *)
(** * The program that watches the active and inactive memory

    Models [Project 2/memory_monitor/jni/memory_monitor.c] on the file of [Meminfo.v], read
    through the system calls of [SeqFile.v].  Of the C library it uses [freopen], [fgets] on
    a buffered stream, and [printf]. *)

From Stdlib Require Import Ascii String.
From stdpp Require Import pretty.
From S2P Require Import Prelude Hoare ArmPgtable Lru VmscanCalls VmscanProps SeqFile SeqFileInv SeqFileProps Meminfo.

(** ** A buffered stream of the C library

    [unread] is what the buffer of [stdin] still holds, [at_eof] the end-of-file mark, and
    [fl] the open file behind it; a closed stream has no [struct seq_file]. *)
Record proc := Proc { unread : list ascii; at_eof : bool; fl : file }.

Definition set_unread u (p : proc) := Proc u (at_eof p) (fl p).
Definition set_eof e (p : proc) := Proc (unread p) e (fl p).

Definition on_fl {A} (a : M file A) : M proc A := λ p,
  match a (fl p) with Ok (x, f) => Ok (x, Proc (unread p) (at_eof p) f) | Err e => Err e end.

Section stdio.
Context {K : Slab}.

(** [close] of the file: its last reference goes away. *)
Definition close_stdin : M proc () :=
  p ← gets id;
  when (bool_decide (is_Some (private_data (fl p)))) (_ ← on_fl single_release; mret ()).

(** [freopen("/proc/meminfo", "r", stdin)]: the old file is closed and a new [struct file]
    is opened; when that fails the stream stays closed. *)
Definition freopen : M proc () :=
  close_stdin;;
  modify (λ p, Proc [] false (File None 0 0 true (kcalls (fl p)) (live (fl p))));;
  _ ← on_fl single_open;
  mret ().

Context (ops : seq_operations) (fuel : nat) (BUFSIZ : Z).

(** Filling the buffer with one [read]; false at the end of the file and on errors. *)
Definition srefill : M proc bool :=
  p ← gets id;
  if at_eof p || negb (bool_decide (is_Some (private_data (fl p)))) then mret false else
  '(r, d) ← on_fl (sys_read ops fuel true BUFSIZ);
  if r <=? 0 then when (r =? 0) (modify (set_eof true));; mret false else
  modify (set_unread d);; mret true.

(** At most [n] characters, up to and with a newline. *)
Fixpoint fgets_loop (n : nat) (acc : list ascii) : M proc (list ascii) :=
  match n with
  | O => mret acc
  | S n =>
      u ← gets unread;
      got ← match u with [] => srefill | _ => mret true end;
      if negb got then mret acc else
      u ← gets unread;
      match u with
      | [] => mret acc
      | c :: u =>
          modify (set_unread u);;
          if Ascii.eqb c nl then mret (acc ++ [c]) else fgets_loop n (acc ++ [c])
      end
  end.

(** [fgets(s, n, stdin)]: the new contents of [s], which stays as it is when nothing could
    be read. *)
Definition fgets (n : nat) (s : list ascii) : M proc (list ascii) :=
  l ← fgets_loop (pred n) [];
  mret (match l with [] => s | _ => l end).

(** ** The program *)

(** [examine]; [junk] is what the uninitialised array [s] holds, the result what is
    printed. *)
Definition examine (junk : list ascii) : M proc (list ascii) :=
  freopen;;
  s ← fgets 256 junk;
  s ← fgets 256 s;
  s ← fgets 256 s;
  s ← fgets 256 s;
  s ← fgets 256 s;
  s ← fgets 256 s;
  let out := s in
  s ← fgets 256 s;
  mret (out ++ s).
End stdio.

(** [printf("After %d second(s):\n", i)] *)
Definition after_line (i : Z) : list ascii :=
  list_ascii_of_string ("After " +:+ pretty i +:+ " second(s):") ++ [nl].

Section main.
Context {K : Slab} (fuel : nat) (BUFSIZ : Z).
Context (kernel_at : Z → meminfo_vars * lst) (junk : Z → list ascii).

(** The loop of [main], from [i] with [n] rounds left; [kernel_at i] is the state of the
    kernel when the file is read in round [i]. *)
Fixpoint main_loop (n : nat) (i : Z) : M proc (list ascii) :=
  match n with
  | O => mret []
  | S n =>
      out ← examine (meminfo_proc_ops (kernel_at i).1 (kernel_at i).2) fuel BUFSIZ (junk i);
      rest ← main_loop n (i + 1);
      mret (after_line i ++ out ++ rest)
  end.

(** [main]: the output; when the process exits its files are closed. *)
Definition main : M proc (list ascii) :=
  out ← main_loop 21 0;
  close_stdin;;
  mret out.
End main.

(** ** Reading lines *)

(** The kernel memory that the stream uses: [base] blocks belong to others. *)
Definition idle (base : Z) (p : proc) : Prop :=
  match private_data (fl p) with
  | None => live (fl p) = base
  | Some m => live (fl p) = base + 2 + has_buf m
  end.

Lemma close_runs base p :
  idle base p → runs close_stdin p (λ _ p', private_data (fl p') = None ∧ live (fl p') = base).
Proof.
  unfold idle, close_stdin. intros Hp. apply runs_bind, runs_gets. unfold id.
  destruct (private_data (fl p)) as [m|] eqn:Hm; [rewrite bool_decide_true by done|rewrite bool_decide_false by (by intros [? ?])].
  - cbn [when]. apply runs_bind.
    enough (runs single_release (fl p) (λ _ f', private_data f' = None ∧ live f' = base)) as (r & f' & E & HQ).
    { eapply runs_ok; [unfold on_fl; by rewrite E|]. by apply runs_ret. }
    unfold single_release, seq_release. apply runs_bind, runs_bind. eapply runs_ok; [unfold get_m; by rewrite Hm|].
    unfold has_buf in Hp. apply runs_bind. unfold kfree.
    destruct (sq_buf m); [rewrite bool_decide_true by done; apply runs_modify|rewrite bool_decide_false by (by intros [? ?]); apply runs_ret];
      apply runs_bind; rewrite bool_decide_true by done; apply runs_modify; apply runs_bind, runs_modify, runs_ret;
      apply runs_bind; rewrite bool_decide_true by done; apply runs_modify, runs_ret; cbn; split; (done || lia).
  - by apply runs_ret.
Qed.

Section lines.
Context {K : Slab} (granted : ∀ k n, 0 <= n <= PAGE_SIZE → is_Some (kmalloc k n)).
Context (sizes : 0 <= sizeof_seq_file <= PAGE_SIZE ∧ 0 <= sizeof_seq_operations <= PAGE_SIZE).
Context (fuel : nat) (fuel_ok : (33 < fuel)%nat) (BUFSIZ : Z) (BUFSIZ_ok : 0 < BUFSIZ).

(** [stream l rest p]: the stream [p] of a file with the record [t] still gives [rest]. *)
Definition stream (t : list ascii) (l : Z) (rest : list ascii) (p : proc) : Prop :=
  ∃ pos, at_pos [t] false l pos (fl p) ∧ unread p ++ drop (Z.to_nat pos) t = rest ∧
    (at_eof p = true → drop (Z.to_nat pos) t = []).

Lemma granted_lim : ∀ k n, 0 <= n <= Z.max PAGE_SIZE (2 * 2048) → is_Some (kmalloc k n).
Proof. intros k n Hn. apply granted. change (2 * 2048) with PAGE_SIZE in Hn. lia. Qed.

Context (ops : seq_operations) (t : list ascii) {R : Records ops [t] } (t_short : len t <= 2048).

Lemma srefill_runs l c rest p :
  stream t l (c :: rest) p → unread p = [] →
  runs (srefill ops fuel BUFSIZ) p (λ got p', got = true ∧ unread p' ≠ [] ∧ stream t l (c :: rest) p').
Proof.
  intros (pos & Hat & Hrest & Heof) Hu. rewrite Hu in Hrest. cbn in Hrest. unfold srefill. apply runs_bind, runs_gets. unfold id.
  assert (at_eof p = false) as He by (destruct (at_eof p); [rewrite Heof in Hrest by done; done|done]).
  pose proof Hat as (Hpos & fv & m & S & _). rewrite He, (st_m _ _ _ _ _ S), bool_decide_true by done. cbn [negb orb].
  apply runs_bind. destruct (read_runs 2048 granted_lim ltac:(done) ops [t]) with (fuel := fuel) (mixed := false) (l := l) (pos := pos) (s := fl p) (n := BUFSIZ)
    as (r & f' & E & d & -> & (Hd & Hlen & Hne) & Hat'); [by intros ? ->%list_elem_of_singleton|cbn; lia|done|lia|].
  cbn in E. eapply runs_ok; [unfold on_fl; by rewrite E|]. cbn [concat] in Hd, Hne. rewrite app_nil_r in Hd, Hne.
  assert (d ≠ []) as Hd0.
  { apply Hne; [done|]. assert (length (drop (Z.to_nat pos) t) ≠ 0%nat) as Hl by (by rewrite Hrest). rewrite length_drop in Hl. lia. }
  cbn beta iota. rewrite (proj2 (Z.leb_gt _ _)) by (destruct d; [done|cbn; lia]).
  apply runs_bind, runs_modify, runs_ret. split; [done|]. split; [done|]. exists (pos + len d). cbn. split_and!; [done| |by rewrite He].
  rewrite Z2Nat.inj_add, <- drop_drop, Nat2Z.id by lia. rewrite Hd at 1. rewrite take_drop. done.
Qed.

(** One character of the stream. *)
Lemma fgets_step l c rest n acc p Q :
  stream t l (c :: rest) p →
  (∀ p', stream t l rest p' → runs (if Ascii.eqb c nl then mret (acc ++ [c]) else fgets_loop ops fuel BUFSIZ n (acc ++ [c])) p' Q) →
  runs (fgets_loop ops fuel BUFSIZ (S n) acc) p Q.
Proof.
  intros Hs HQ. cbn [fgets_loop]. apply runs_bind, runs_gets. apply runs_bind.
  eapply (runs_mono _ _ (λ got p', got = true ∧ unread p' ≠ [] ∧ stream t l (c :: rest) p')).
  { destruct (unread p) eqn:Hu; [by eapply srefill_runs|]. apply runs_ret. by rewrite Hu. }
  cbn beta. intros got p' (-> & Hu & pos & Hat & Hrest & Heof). cbn [negb]. apply runs_bind, runs_gets.
  destruct (unread p') as [|c' u] eqn:Eu; [done|]. cbn in Hrest. injection Hrest as -> Hrest.
  apply runs_bind, runs_modify. apply HQ. by exists pos.
Qed.

Lemma fgets_loop_runs l rest line : ∀ n acc p,
  nl ∉ line → (length line < n)%nat → stream t l (line ++ nl :: rest) p →
  runs (fgets_loop ops fuel BUFSIZ n acc) p (λ r p', r = acc ++ line ++ [nl] ∧ stream t l rest p').
Proof.
  induction line as [|c line IH]; intros n acc p Hnl Hn Hs; destruct n as [|n]; cbn [length] in Hn; try lia.
  - eapply fgets_step; [exact Hs|]. intros p' Hs'. rewrite Ascii.eqb_refl. by apply runs_ret.
  - eapply fgets_step; [exact Hs|]. intros p' Hs'. rewrite (proj2 (Ascii.eqb_neq c nl)) by set_solver.
    eapply runs_mono; [eapply IH; [set_solver|lia|exact Hs']|]. cbn beta. intros r p'' [-> ?]. split; [|done].
    by rewrite <- app_assoc.
Qed.

Lemma fgets_runs l rest line s p :
  nl ∉ line → (length line < 255)%nat → stream t l (line ++ nl :: rest) p →
  runs (fgets ops fuel BUFSIZ 256 s) p (λ r p', r = line ++ [nl] ∧ stream t l rest p').
Proof.
  intros Hnl Hl Hs. unfold fgets. apply runs_bind. eapply runs_mono; [by eapply fgets_loop_runs|]. cbn beta.
  intros r p' [-> Hs']. apply runs_ret. split; [|done]. by destruct line.
Qed.

Lemma stream_idle base rest p : stream t (base + 2) rest p → idle base p.
Proof.
  intros (pos & (_ & fv & m & S & _) & _). unfold idle. rewrite (st_m _ _ _ _ _ S). apply S.
Qed.

Lemma freopen_runs base p : idle base p → runs freopen p (λ _ p', stream t (base + 2) t p').
Proof.
  intros Hp. unfold freopen. apply runs_bind. eapply runs_mono; [by eapply close_runs|]. cbn beta. intros _ p1 [Hn Hl].
  apply runs_bind, runs_modify. apply runs_bind. set (f := File _ _ _ _ _ _).
  enough (runs single_open f (λ _ f', at_pos [t] false (base + 2) 0 f')) as (r & f' & E & HQ).
  { eapply runs_ok; [unfold on_fl; cbn [fl]; by rewrite E|]. apply runs_ret. exists 0. cbn. by rewrite drop_0. }
  unfold single_open. apply runs_bind. destruct (granted (kcalls f) sizeof_seq_operations) as [b Eb]; [lia|].
  eapply runs_ok; [unfold do_kmalloc; by rewrite Eb|]. apply runs_bind.
  eapply runs_mono; [eapply (open_runs 2048 granted_lim [t] fuel); [cbn; lia|done|done|lia|lia]|]. cbn beta. intros r f' [-> Hat].
  cbn [Z.eqb negb when]. apply runs_bind, runs_ret, runs_ret. specialize (Hat false). cbn in Hat. rewrite Hl in Hat.
  replace (base + 2) with (base + 1 + 1) by lia. done.
Qed.

(** The sixth and the seventh line are printed. *)
Lemma examine_runs base junk p b1 b2 b3 b4 b5 b6 b7 rest :
  idle base p → Forall (λ b, nl ∉ b ∧ (length b < 255)%nat) [b1; b2; b3; b4; b5; b6; b7] →
  t = b1 ++ nl :: b2 ++ nl :: b3 ++ nl :: b4 ++ nl :: b5 ++ nl :: b6 ++ nl :: b7 ++ nl :: rest →
  runs (examine ops fuel BUFSIZ junk) p (λ out p', out = (b6 ++ [nl]) ++ b7 ++ [nl] ∧ idle base p').
Proof.
  intros Hp HF Ht. unfold examine. apply runs_bind. eapply runs_mono; [by eapply freopen_runs|]. cbn beta.
  intros _ p1 Hs. rewrite Ht in Hs at 2.
  repeat (apply Forall_cons in HF as [[? ?] HF]; apply runs_bind; eapply runs_mono; [by eapply fgets_runs|]; cbn beta zeta;
          clear Hs; intros ? ? [-> Hs]).
  apply runs_ret. split; [done|by eapply stream_idle].
Qed.
End lines.

(** ** What is printed *)

Lemma pretty_N_go_plain x : ∀ s, nl ∉ list_ascii_of_string s → nl ∉ list_ascii_of_string (pretty_N_go x s).
Proof.
  induction (N.lt_wf_0 x) as [x _ IH]. intros s Hs. destruct (decide (0 < x)%N) as [Hx|Hx].
  - rewrite pretty_N_go_step by done. apply IH; [by apply N.div_lt|]. cbn. rewrite elem_of_cons. intros [E|?]; [|done].
    revert E. unfold pretty_N_char, nl. by repeat case_match.
  - replace x with 0%N by lia. by rewrite pretty_N_go_0.
Qed.

Lemma fmt_8lu_plain n : 0 <= n → nl ∉ fmt_8lu n.
Proof.
  intros Hn. unfold fmt_8lu. rewrite elem_of_app. intros [H|H].
  - apply elem_of_replicate in H as [? _]. done.
  - revert H. unfold pretty, pretty_Z. destruct n as [|q|q]; [cbn; set_solver| |lia].
    apply (pretty_N_go_plain (Npos q) EmptyString). set_solver.
Qed.

(** A line of the file without its newline. *)
Definition line_body (label : string) (n : Z) : list ascii :=
  list_ascii_of_string label ++ fmt_8lu n ++ list_ascii_of_string " kB".

Lemma line_body_nl label n : meminfo_line label n = line_body label n ++ [nl].
Proof. unfold meminfo_line, line_body. by rewrite <- !app_assoc. Qed.

Lemma line_body_ok label n :
  is_u32 n → String.length label = 16%nat → nl ∉ list_ascii_of_string label →
  nl ∉ line_body label n ∧ (length (line_body label n) < 255)%nat.
Proof.
  intros Hn Hl Hp. split.
  - unfold line_body. rewrite !elem_of_app. intros [?|[H|?]]; [done| |set_solver].
    revert H. apply fmt_8lu_plain, Hn.
  - pose proof (meminfo_line_length label n Hn Hl) as H. rewrite line_body_nl, length_app in H. cbn in H. lia.
Qed.

Definition active_pages (s : lst) : Z := pages_on [LRU_ACTIVE_ANON; LRU_ACTIVE_FILE] s.
Definition inactive_pages (s : lst) : Z := pages_on [LRU_INACTIVE_ANON; LRU_INACTIVE_FILE] s.

(** A state of the kernel between calls of page reclaim, with fewer than 2^30 pages. *)
Definition calm (s : lst) : Prop :=
  reclaim_inv s ∧ zones_ok s ∧ active_pages s < 2 ^ 30 ∧ inactive_pages s < 2 ^ 30.

(** The lines printed in round [i]. *)
Definition report (i : Z) (s : lst) : list ascii :=
  after_line i ++ meminfo_line "Active:         " (4 * active_pages s) ++ meminfo_line "Inactive:       " (4 * inactive_pages s).

Lemma lines_text v s l1 n1 l2 n2 l3 n3 l4 n4 l5 n5 l6 n6 l7 n7 R :
  meminfo_lines v s = (l1, n1) :: (l2, n2) :: (l3, n3) :: (l4, n4) :: (l5, n5) :: (l6, n6) :: (l7, n7) :: R →
  meminfo_text v s = line_body l1 n1 ++ nl :: line_body l2 n2 ++ nl :: line_body l3 n3 ++ nl :: line_body l4 n4 ++ nl ::
    line_body l5 n5 ++ nl :: line_body l6 n6 ++ nl :: line_body l7 n7 ++ nl :: concat ((λ '(label, n), meminfo_line label n) <$> R).
Proof. intros E. unfold meminfo_text. rewrite E. cbn [fmap list_fmap concat]. rewrite !line_body_nl, <- !app_assoc. reflexivity. Qed.

Lemma meminfo_text_split v s :
  calm s → ∃ b1 b2 b3 b4 b5 b6 b7 rest,
    Forall (λ b, nl ∉ b ∧ (length b < 255)%nat) [b1; b2; b3; b4; b5; b6; b7] ∧
    meminfo_text v s = b1 ++ nl :: b2 ++ nl :: b3 ++ nl :: b4 ++ nl :: b5 ++ nl :: b6 ++ nl :: b7 ++ nl :: rest ∧
    b6 ++ [nl] = meminfo_line "Active:         " (4 * active_pages s) ∧
    b7 ++ [nl] = meminfo_line "Inactive:       " (4 * inactive_pages s).
Proof.
  intros (RI & Hz & Ha & Hi).
  pose proof (shown_pages s LRU_ACTIVE_ANON LRU_ACTIVE_FILE RI Hz ltac:(done) ltac:(done) ltac:(done) Ha) as EA.
  pose proof (shown_pages s LRU_INACTIVE_ANON LRU_INACTIVE_FILE RI Hz ltac:(done) ltac:(done) ltac:(done) Hi) as EI.
  fold (active_pages s) in EA. fold (inactive_pages s) in EI. rewrite <- EA, <- EI, !line_body_nl.
  eexists _, _, _, _, _, _, _, _. split; [|split].
  2:{ apply lines_text. reflexivity. }
  - repeat apply Forall_cons_2; try apply Forall_nil_2;
      (apply line_body_ok; [apply K_u32|done|by apply (bool_decide_unpack _)]).
  - done.
Qed.

Lemma main_loop_runs `{Slab} fuel BUFSIZ kernel_at junk base n : ∀ i p,
  (∀ k n, 0 <= n <= PAGE_SIZE → is_Some (kmalloc k n)) →
  0 <= sizeof_seq_file <= PAGE_SIZE ∧ 0 <= sizeof_seq_operations <= PAGE_SIZE → (33 < fuel)%nat → 0 < BUFSIZ →
  idle base p → (∀ j, i <= j < i + Z.of_nat n → calm (kernel_at j).2) →
  runs (main_loop fuel BUFSIZ kernel_at junk n i) p (λ out p',
    out = concat ((λ j, report j (kernel_at j).2) <$> seqZ i (Z.of_nat n)) ∧ idle base p').
Proof.
  induction n as [|n IH]; intros i p Hg Hz Hf HB Hp Hk; [by apply runs_ret|]. cbn [main_loop].
  destruct (meminfo_text_split (kernel_at i).1 (kernel_at i).2) as (b1 & b2 & b3 & b4 & b5 & b6 & b7 & rest & HF & Ht & E6 & E7); [apply Hk; lia|].
  apply runs_bind. eapply runs_mono.
  { eapply (examine_runs Hg Hz fuel Hf BUFSIZ HB _ _ (R := meminfo_records _ _)); [apply meminfo_text_length|exact Hp|exact HF|exact Ht]. }
  cbn beta. intros out p1 [-> Hp1]. apply runs_bind. eapply runs_mono; [eapply IH; try done; intros j Hj; apply Hk; lia|].
  cbn beta. intros rest' p2 [-> Hp2]. apply runs_ret. split; [|done].
  rewrite (seqZ_cons i) by lia. cbn [fmap list_fmap concat]. unfold report at 2. rewrite E6, E7, <- !app_assoc.
  do 5 f_equal. by rewrite Nat2Z.inj_succ, Z.pred_succ.
Qed.

(** C18. In each of its 21 rounds the program prints the round, and then the lines for active
    and inactive memory with four times the number of pages that are on the active and
    inactive lists of all zones in the state of the kernel at that moment (4 KB each), for
    every sequence of states between calls of page reclaim and every buffer size of the C
    library.  Each round reads the file anew, and all memory that the kernel allocated for
    it is freed at the end. *)
Theorem memory_monitor_reports `{Slab} fuel BUFSIZ kernel_at junk p :
  (∀ k n, 0 <= n <= PAGE_SIZE → is_Some (kmalloc k n)) →
  0 <= sizeof_seq_file <= PAGE_SIZE ∧ 0 <= sizeof_seq_operations <= PAGE_SIZE → (33 < fuel)%nat → 0 < BUFSIZ →
  private_data (fl p) = None → (∀ i, 0 <= i <= 20 → calm (kernel_at i).2) →
  runs (main fuel BUFSIZ kernel_at junk) p (λ out p',
    out = concat ((λ i, report i (kernel_at i).2) <$> seqZ 0 21) ∧ live (fl p') = live (fl p)).
Proof.
  intros Hg Hz Hf HB Hp Hk. unfold main. apply runs_bind.
  eapply runs_mono; [apply (main_loop_runs fuel BUFSIZ kernel_at junk (live (fl p)) 21 0 p Hg Hz Hf HB)|].
  { unfold idle. by rewrite Hp. }
  { intros j Hj. apply Hk. lia. }
  cbn beta. intros out p1 [-> Hp1]. apply runs_bind. eapply runs_mono; [by apply close_runs|]. cbn beta.
  intros _ p2 [_ Hl]. by apply runs_ret.
Qed.

(** When the file cannot be opened, both lines printed are whatever the uninitialised array
    held. *)
Theorem examine_prints_garbage `{Slab} ops fuel BUFSIZ junk p :
  private_data (fl p) = None → (∀ k, kmalloc k sizeof_seq_operations = None) →
  runs (examine ops fuel BUFSIZ junk) p (λ out _, out = junk ++ junk).
Proof.
  intros Hp Hk. unfold examine. apply runs_bind. unfold freopen, close_stdin. apply runs_bind, runs_bind, runs_gets.
  unfold id. rewrite Hp, bool_decide_false by (by intros [? ?]). apply runs_ret. apply runs_bind, runs_modify. apply runs_bind.
  eapply runs_ok; [unfold on_fl, single_open, mbind, M_bind, do_kmalloc; cbn; by rewrite Hk|]. apply runs_ret. cbn [unread at_eof].
  assert (∀ s k v, runs (fgets ops fuel BUFSIZ 256 s) (Proc [] false (File None 0 0 true k v)) (λ r p', r = s ∧ p' = Proc [] false (File None 0 0 true k v))) as HF.
  { intros s k v. unfold fgets. change (pred 256) with (S 254). generalize 254%nat. intros n.
    apply runs_bind. eapply runs_ok; [reflexivity|]. by apply runs_ret. }
  do 7 (apply runs_bind; eapply runs_mono; [apply HF|]; cbn beta zeta; intros ? ? [-> ->]). by apply runs_ret.
Qed.

(** ** Example *)

Definition demo_vars : meminfo_vars := MeminfoVars 1024 0 256 [] 0 0 0 50 3355443200 0 0.

(** Before and after pages are added to the lists. *)
Definition demo_kernel (i : Z) : meminfo_vars * lst := (demo_vars, if i <? 10 then demo_boot else demo).

Lemma demo_counts : map_Forall (λ z _, 0 <= z) (zones demo) ∧ active_pages demo < 2 ^ 30 ∧ inactive_pages demo < 2 ^ 30.
Proof. split; [apply (bool_decide_unpack _); vm_compute; exact I|]. split; vm_compute; reflexivity. Qed.

Lemma demo_boot_counts :
  map_Forall (λ z _, 0 <= z) (zones demo_boot) ∧ active_pages demo_boot < 2 ^ 30 ∧ inactive_pages demo_boot < 2 ^ 30.
Proof. split; [apply (bool_decide_unpack _); vm_compute; exact I|]. split; vm_compute; reflexivity. Qed.

Lemma demo_calm i : calm (demo_kernel i).2.
Proof.
  unfold demo_kernel, calm, zones_ok. cbn [snd]. destruct (i <? 10).
  - destruct demo_boot_counts as (Hz & Ha & Hi). exact (conj (boot_inv _ demo_boot_ok) (conj Hz (conj Ha Hi))).
  - destruct demo_counts as (Hz & Ha & Hi). exact (conj demo_inv (conj Hz (conj Ha Hi))).
Qed.

Lemma memory_monitor_reports_witness :
  runs (@main (zero_slab 4096) 40 1024 demo_kernel (λ _, [])) (Proc [] false closed) (λ out p',
    out = concat ((λ i, report i (demo_kernel i).2) <$> seqZ 0 21) ∧ live (fl p') = live (fl (Proc [] false closed))).
Proof.
  apply (@memory_monitor_reports (zero_slab 4096)); try done; [|lia|].
  - apply (zero_slab_grants 4096 0). done.
  - intros i _. apply demo_calm.
Defined.

Lemma demo_report :
  string_of_list_ascii (report 10 (demo_kernel 10).2) =
  ("After 10 second(s):" +:+ CLib.newline +:+ "Active:                8 kB" +:+ CLib.newline +:+ "Inactive:              4 kB" +:+ CLib.newline)%string.
Proof. vm_compute. reflexivity. Qed.
