(* ===== verification/OccupyMem.v ===== *)
(** * The program that occupies memory

    Models [Project 2/occupy_mem/jni/occupy_mem.c] on a heap of blocks.  Of the C library it
    uses [malloc] and [free]; what the program relies on is the class [Malloc]. *)

From S2P Require Import Prelude Hoare CLib.

(** The [k]-th call of [malloc] with size [n] returns NULL or the address of a block.  As long
    as nothing was freed, blocks do not overlap; none contains address 0 and none reaches
    beyond the address space. *)
Class Malloc := {
  malloc_at : nat → Z → option Z;
  malloc_range k n a : malloc_at k n = Some a → 0 < a ∧ a + n <= 2 ^ 32;
  malloc_disjoint k k' n n' a a' :
    malloc_at k n = Some a → malloc_at k' n' = Some a' → k ≠ k' → a + n <= a' ∨ a' + n' <= a;
}.

(** The allocated blocks with their sizes, the words of the memory, the addresses stored to,
    the number of calls of [malloc] so far, and the lines printed. *)
Record heap := Heap {
  blocks : gmap Z Z;
  words : gmap Z Z;
  stores : list Z;
  mallocs : nat;
  out : list string;
}.

(** The word at [a] lies in an allocated block. *)
Definition within (B : gmap Z Z) (a : Z) : bool :=
  existsb (λ '(b, n), (b <=? a) && (a + 4 <=? b + n)) (map_to_list B).

Definition access {A} (a : Z) (f : heap → A * heap) : M heap A := λ h,
  if within (blocks h) a then Ok (f h) else Err (if a =? 0 then NullDeref else BadAddr a).

Definition store (a v : Z) : M heap () :=
  access a (λ h, ((), Heap (blocks h) (<[a := v]> (words h)) (stores h ++ [a]) (mallocs h) (out h))).

(** The contents of a word that was never stored to is whatever was in memory. *)
Definition load (junk : Z → Z) (a : Z) : M heap Z := access a (λ h, (default (junk a) (words h !! a), h)).

Definition puts (l : string) : M heap () :=
  modify (λ h, Heap (blocks h) (words h) (stores h) (mallocs h) (out h ++ [l +:+ newline])).

Section program.
Context {L : Malloc} (junk : Z → Z).

Definition malloc (n : Z) : M heap Z := λ h,
  match malloc_at (mallocs h) n with
  | Some a => Ok (a, Heap (<[a := n]> (blocks h)) (words h) (stores h) (S (mallocs h)) (out h))
  | None => Ok (0, Heap (blocks h) (words h) (stores h) (S (mallocs h)) (out h))
  end.

(** [free]; an address that is not an allocated block is an error. *)
Definition free (a : Z) : M heap () := λ h,
  if bool_decide (is_Some (blocks h !! a))
  then Ok ((), Heap (delete a (blocks h)) (words h) (stores h) (mallocs h) (out h))
  else Err (BadAddr a).

(** [for (j = from; j < from + n; ++j) p[i][j << 10] = 0;] *)
Fixpoint touch_loop (n : nat) (p i j : Z) : M heap () :=
  match n with
  | O => mret ()
  | S n =>
      q ← load junk (p + 4 * i);
      store (q + 4 * Z.shiftl j 10) 0;;
      touch_loop n p i (j + 1)
  end.

Fixpoint alloc_loop (n : nat) (p i : Z) : M heap () :=
  match n with
  | O => mret ()
  | S n =>
      q ← malloc (Z.shiftl 1 17);
      store (p + 4 * i) q;;
      touch_loop 32 p i 0;;
      alloc_loop n p (i + 1)
  end.

Fixpoint free_loop (n : nat) (p i : Z) : M heap () :=
  match n with
  | O => mret ()
  | S n =>
      q ← load junk (p + 4 * i);
      when (negb (q =? 0)) (q ← load junk (p + 4 * i); free q);;
      free_loop n p (i + 1)
  end.

Definition rounds : nat := Z.to_nat (Z.shiftl 1 13).

Definition main : M heap () :=
  puts "Start to occupy 1GB memory.";;
  p ← malloc (Z.shiftl 1 15);
  (if p =? 0 then puts "Memory allocation failed."
   else
     alloc_loop rounds p 0;;
     puts "Releasing after 1s.";;
     free_loop rounds p 0);;
  when (negb (p =? 0)) (free p).

(** ** The blocks of a run *)

Context (p : Z) (addr : nat → Z).

(** The heap after the blocks from [lo] to [hi] were allocated and not yet freed, besides the
    array of pointers, whose first [n] entries are set. *)
Record laid_out (lo hi n : nat) (h : heap) : Prop := LaidOut {
  lo_blocks a z : blocks h !! a = Some z ↔ (a = p ∧ z = 2 ^ 15) ∨ (∃ k, (lo <= k < hi)%nat ∧ a = addr k ∧ z = 2 ^ 17);
  lo_words k : (k < n)%nat → words h !! (p + 4 * Z.of_nat k) = Some (addr k);
}.

Lemma within_block B b n a : B !! b = Some n → b <= a → a + 4 <= b + n → within B a = true.
Proof.
  intros Hb H1 H2. unfold within. apply existsb_exists. exists (b, n). split; [by apply list_elem_of_In, elem_of_map_to_list|].
  apply andb_true_iff. split; apply Z.leb_le; lia.
Qed.

Lemma store_runs h b n a v (Q : () → heap → Prop) :
  blocks h !! b = Some n → b <= a → a + 4 <= b + n →
  Q () (Heap (blocks h) (<[a := v]> (words h)) (stores h ++ [a]) (mallocs h) (out h)) → runs (store a v) h Q.
Proof. intros Hb H1 H2 HQ. eapply runs_ok; [|exact HQ]. unfold store, access. by rewrite (within_block _ b n). Qed.

Lemma load_runs h b n a v (Q : Z → heap → Prop) :
  blocks h !! b = Some n → b <= a → a + 4 <= b + n → words h !! a = Some v → Q v h → runs (load junk a) h Q.
Proof. intros Hb H1 H2 Ha HQ. eapply runs_ok; [|exact HQ]. unfold load, access. rewrite (within_block _ b n) by done. by rewrite Ha. Qed.

(** The address of the word that is stored to on page [j] of block [i]. *)
Definition page_word (i j : nat) : Z := addr i + 4096 * Z.of_nat j.

Context (p_ok : malloc_at 0 (2 ^ 15) = Some p).

(** The entry [i] of the array. *)
Lemma entry_in lo hi n h i : laid_out lo hi n h → (i < rounds)%nat → blocks h !! p = Some (2 ^ 15) ∧ p + 4 * Z.of_nat i + 4 <= p + 2 ^ 15.
Proof. intros H Hi. split; [apply (lo_blocks _ _ _ _ H); by left|]. unfold rounds in Hi. change (Z.shiftl 1 13) with 8192 in Hi. change (2 ^ 15) with 32768. lia. Qed.

Lemma touch_loop_runs i n : ∀ j h,
  malloc_at (S i) (2 ^ 17) = Some (addr i) → (i < rounds)%nat → (j + n <= 32)%nat → laid_out 0 (S i) (S i) h →
  runs (touch_loop n p (Z.of_nat i) (Z.of_nat j)) h (λ _ h', laid_out 0 (S i) (S i) h' ∧
    stores h' = stores h ++ (page_word i <$> seq j n) ∧ mallocs h' = mallocs h ∧ out h' = out h).
Proof.
  induction n as [|n IH]; intros j h Hi Hr Hj Hl; cbn [touch_loop].
  { apply runs_ret. cbn. rewrite app_nil_r. done. }
  destruct (entry_in _ _ _ _ _ Hl Hr) as [Hp Hpi]. pose proof (malloc_disjoint 0 (S i) _ _ _ _ p_ok Hi ltac:(done)) as Hd.
  apply runs_bind. eapply load_runs; [exact Hp|lia|done|by apply (lo_words _ _ _ _ Hl); lia|].
  apply runs_bind. rewrite Z.shiftl_mul_pow2 by lia. change (2 ^ 10) with 1024.
  replace (addr i + 4 * (Z.of_nat j * 1024)) with (page_word i j) by (unfold page_word; lia).
  assert (blocks h !! addr i = Some (2 ^ 17)) as Hb.
  { apply (lo_blocks _ _ _ _ Hl). right. exists i. split_and!; [lia|lia|done|done]. }
  assert (2 ^ 17 = 131072 ∧ 2 ^ 15 = 32768) as [E17 E15] by done.
  eapply store_runs; [exact Hb|unfold page_word; lia|unfold page_word; lia|].
  replace (Z.of_nat j + 1) with (Z.of_nat (S j)) by lia.
  eapply runs_mono; [apply IH; [done|done|lia|]|].
  - split; cbn; [apply Hl|]. intros k Hk. rewrite lookup_insert_ne; [by apply (lo_words _ _ _ _ Hl)|].
    unfold page_word. unfold rounds in Hr. change (Z.shiftl 1 13) with 8192 in Hr. lia.
  - cbn. intros _ h' (Hl' & Hs & Hm & Ho). split_and!; try done. by rewrite Hs, <- app_assoc.
Qed.

Context (N : nat) (N_ok : (N <= rounds)%nat) (addr_ok : ∀ k, (k < N)%nat → malloc_at (S k) (2 ^ 17) = Some (addr k)).

Lemma addr_apart k : (k < N)%nat → addr k ≠ p ∧ addr k ≠ 0.
Proof.
  intros Hk%addr_ok. pose proof (malloc_disjoint 0 (S k) _ _ _ _ p_ok Hk ltac:(done)). pose proof (malloc_range _ _ _ Hk). lia.
Qed.

Lemma addr_inj k k' : (k < N)%nat → (k' < N)%nat → addr k = addr k' → k = k'.
Proof.
  intros Hk%addr_ok Hk'%addr_ok E. destruct (decide (k = k')) as [|Hne]; [done|].
  destruct (malloc_disjoint _ _ _ _ _ _ Hk Hk' ltac:(lia)); lia.
Qed.

(** The stores of round [i]: the pointer, then one word on each page of the block. *)
Definition round_stores (i : nat) : list Z := (p + 4 * Z.of_nat i) :: (page_word i <$> seq 0 32).

Lemma alloc_loop_runs n : ∀ i h,
  (i + n <= N)%nat → laid_out 0 i i h → mallocs h = S i →
  runs (alloc_loop n p (Z.of_nat i)) h (λ _ h', laid_out 0 (i + n) (i + n) h' ∧
    stores h' = stores h ++ concat (round_stores <$> seq i n) ∧ out h' = out h ∧ mallocs h' = S (i + n)).
Proof.
  induction n as [|n IH]; intros i h Hn Hl Hm; cbn [alloc_loop].
  { apply runs_ret. cbn. by rewrite Nat.add_0_r, app_nil_r. }
  assert (i < N)%nat as Hi by lia. assert (i < rounds)%nat as Hr by lia. destruct (addr_apart i Hi) as [Hp H0]. destruct (entry_in _ _ _ _ _ Hl Hr) as [Hb Hpi].
  apply runs_bind. change (Z.shiftl 1 17) with (2 ^ 17). eapply runs_ok; [unfold malloc; by rewrite Hm, (addr_ok i Hi)|].
  apply runs_bind. eapply store_runs; [cbn; by rewrite lookup_insert_ne|lia|done|]. cbn [blocks words stores mallocs out].
  apply runs_bind. change 0 with (Z.of_nat 0). eapply runs_mono; [apply (touch_loop_runs i 32 0); [by apply addr_ok|done|lia|]|].
  { split; cbn [blocks words].
    - intros a z. destruct (decide (addr i = a)) as [<-|Hne].
      + rewrite lookup_insert_eq. split; [intros [= <-]; right; exists i; split_and!; [lia|lia|done|done]|].
        intros [[? _]|(k & _ & _ & ->)]; [done|done].
      + rewrite lookup_insert_ne by done. rewrite (lo_blocks _ _ _ _ Hl). split.
        * intros [?|(k & ? & ? & ?)]; [by left|]. right. exists k. split_and!; try done; lia.
        * intros [?|(k & Hk & -> & ->)]; [by left|]. right. exists k. split_and!; try done; [lia|].
          assert (k ≠ i) by (by intros ->). lia.
    - intros k Hk. destruct (decide (k = i)) as [->|]; [by rewrite lookup_insert_eq|].
      rewrite lookup_insert_ne by lia. apply (lo_words _ _ _ _ Hl). lia. }
  cbn [stores mallocs out]. intros _ h1 (Hl1 & Hs1 & Hm1 & Ho1). cbn [stores mallocs out] in *.
  replace (Z.of_nat i + 1) with (Z.of_nat (S i)) by lia. eapply runs_mono; [apply IH; [lia|done|by rewrite Hm1]|].
  cbn beta. intros _ h2 (Hl2 & Hs2 & Ho2 & Hm2). split_and!; [by rewrite <- Nat.add_succ_comm| |congruence|lia].
  rewrite Hs2, Hs1. cbn [seq fmap list_fmap concat]. by rewrite <- !app_assoc.
Qed.

Lemma free_loop_runs n : ∀ i h,
  (i + n = N)%nat → laid_out i N N h →
  runs (free_loop n p (Z.of_nat i)) h (λ _ h', laid_out N N N h' ∧ stores h' = stores h ∧ out h' = out h).
Proof.
  induction n as [|n IH]; intros i h Hn Hl; cbn [free_loop].
  { apply runs_ret. replace i with N in Hl by lia. done. }
  assert (i < N)%nat as Hi by lia. assert (i < rounds)%nat as Hr by lia. destruct (addr_apart i Hi) as [Hp H0]. destruct (entry_in _ _ _ _ _ Hl Hr) as [Hb Hpi].
  apply runs_bind. eapply load_runs; [exact Hb|lia|done|by apply (lo_words _ _ _ _ Hl)|].
  rewrite (proj2 (Z.eqb_neq _ _)) by done. cbn [negb when]. apply runs_bind, runs_bind.
  eapply load_runs; [exact Hb|lia|done|by apply (lo_words _ _ _ _ Hl)|].
  assert (blocks h !! addr i = Some (2 ^ 17)) as Hbi.
  { apply (lo_blocks _ _ _ _ Hl). right. exists i. split_and!; [lia|lia|done|done]. }
  eapply runs_ok; [unfold free; by rewrite bool_decide_true by (by rewrite Hbi)|].
  replace (Z.of_nat i + 1) with (Z.of_nat (S i)) by lia. eapply runs_mono; [apply IH; [lia|]|done].
  split; cbn [blocks words]; [|apply Hl]. intros a z. destruct (decide (addr i = a)) as [<-|Hne].
  - rewrite lookup_delete_eq. split; [done|]. intros [[? _]|(k & Hk & E & _)]; [done|]. apply addr_inj in E; lia.
  - rewrite lookup_delete_ne by done. rewrite (lo_blocks _ _ _ _ Hl). split.
    + intros [?|(k & Hk & -> & ?)]; [by left|]. right. exists k. assert (k ≠ i) by (by intros ->). split_and!; try done; lia.
    + intros [?|(k & Hk & -> & ?)]; [by left|]. right. exists k. split_and!; try done; lia.
Qed.

(** ** The pages that are written *)

Lemma page_words_apart i j i' j' :
  (i < N)%nat → (i' < N)%nat → (j < 32)%nat → (j' < 32)%nat →
  page_word i j / 4096 = page_word i' j' / 4096 → i = i' ∧ j = j'.
Proof.
  intros Hi%addr_ok Hi'%addr_ok Hj Hj' E. unfold page_word in *. rewrite !(Z.mul_comm 4096), !Z.div_add in E by lia.
  destruct (decide (i = i')) as [->|Hne]; [split; [done|lia]|].
  assert (∀ x y, x + 131072 <= y → x / 4096 + 32 <= y / 4096) as Hdiv.
  { intros x y Hxy. rewrite <- Z.div_add by lia. apply Z.div_le_mono; lia. }
  change (2 ^ 17) with 131072 in *. destruct (malloc_disjoint _ _ _ _ _ _ Hi Hi' ltac:(lia)) as [H|H]; apply Hdiv in H; lia.
Qed.

Lemma concat_length {A B} n (f : A → list B) l : (∀ x, length (f x) = n) → length (concat (f <$> l)) = (n * length l)%nat.
Proof. intros Hf. induction l as [|x l IH]; cbn; [lia|]. cbn in IH. rewrite length_app, Hf, IH. lia. Qed.

Lemma pages_written :
  32 * Z.of_nat N <= Z.of_nat (size (list_to_set ((λ a, a / 4096) <$> concat (round_stores <$> seq 0 N)) : gset Z)).
Proof.
  set (D := concat ((λ i, (λ j, page_word i j / 4096) <$> seq 0 32) <$> seq 0 N)).
  assert (NoDup D) as HN.
  { apply NoDup_concat_fmap; [apply NoDup_seq| |].
    - intros i Hi. apply elem_of_seq in Hi. apply NoDup_fmap_2_strong; [|apply NoDup_seq].
      intros j j' Hj Hj' E. apply elem_of_seq in Hj, Hj'. apply page_words_apart in E as [_ ?]; (done || lia).
    - intros i i' a Hi Hi'. rewrite !list_elem_of_fmap. intros (j & -> & Hj) (j' & E & Hj').
      apply elem_of_seq in Hi, Hi', Hj, Hj'. apply page_words_apart in E as [? _]; (done || lia). }
  transitivity (Z.of_nat (size (list_to_set D : gset Z))).
  - rewrite size_list_to_set by done. unfold D. rewrite (concat_length 32) by (intros i; by rewrite length_fmap, length_seq).
    rewrite length_seq. lia.
  - apply inj_le. apply subseteq_size. intros a. rewrite !elem_of_list_to_set. unfold D. rewrite elem_of_concat_fmap.
    intros (i & Hi & Ha). apply list_elem_of_fmap in Ha as (j & -> & Hj). apply list_elem_of_fmap. exists (page_word i j).
    split; [done|]. apply elem_of_concat_fmap. exists i. split; [done|]. apply elem_of_cons. right. by apply list_elem_of_fmap_2.
Qed.

(** A block that is refused: the next store goes through the NULL pointer. *)
Lemma alloc_refused m h :
  (N < rounds)%nat → malloc_at (S N) (2 ^ 17) = None → laid_out 0 N N h → mallocs h = S N →
  alloc_loop (S m) p (Z.of_nat N) h = Err NullDeref.
Proof.
  intros Hr Hno Hl Hm. cbn [alloc_loop]. destruct (entry_in _ _ _ _ _ Hl Hr) as [Hb Hpi].
  change (Z.shiftl 1 17) with (2 ^ 17). erewrite bind_Ok by (unfold malloc; by rewrite Hm, Hno).
  erewrite bind_Ok by (unfold store, access; cbn [blocks]; by rewrite (within_block _ p (2 ^ 15)) by (done || lia)).
  apply bind_Err. cbn [touch_loop].
  erewrite bind_Ok by (unfold load, access; cbn [blocks words]; rewrite (within_block _ p (2 ^ 15)) by (done || lia); by rewrite lookup_insert_eq).
  apply bind_Err. unfold store, access. cbn -[within]. change (0 + 4 * Z.shiftl 0 10) with 0.
  destruct (within (blocks h) 0) eqn:W; [exfalso|done].
  unfold within in W. apply existsb_exists in W as ([b n] & Hin & Hc). apply andb_true_iff in Hc as [?%Z.leb_le _].
  apply list_elem_of_In, elem_of_map_to_list, (lo_blocks _ _ _ _ Hl) in Hin as [[-> _]|(k & Hk & -> & _)].
  - pose proof (malloc_range _ _ _ p_ok). lia.
  - pose proof (malloc_range _ _ _ (addr_ok k ltac:(lia))). lia.
Qed.
End program.

Lemma alloc_loop_app `{Malloc} junk p m n : ∀ i h h',
  alloc_loop junk n p i h = Ok ((), h') → alloc_loop junk (n + m) p i h = alloc_loop junk m p (i + Z.of_nat n) h'.
Proof.
  induction n as [|n IH]; intros i h h' E; cbn [alloc_loop Nat.add] in *.
  { rewrite ret_Ok in E. simplify_eq. by rewrite Z.add_0_r. }
  apply bind_Ok_inv in E as (q & h1 & E1 & E). apply bind_Ok_inv in E as ([] & h2 & E2 & E). apply bind_Ok_inv in E as ([] & h3 & E3 & E).
  rewrite (bind_Ok _ _ _ _ _ E1), (bind_Ok _ _ _ _ _ E2), (bind_Ok _ _ _ _ _ E3). rewrite (IH _ _ _ E). f_equal. lia.
Qed.

(** A process that has not allocated anything yet. *)
Definition fresh (h : heap) : Prop := blocks h = ∅ ∧ mallocs h = 0%nat ∧ stores h = [].

(** The block that holds the pointers. *)
Lemma laid_out_start p addr h h' :
  fresh h → blocks h' = <[p := 2 ^ 15]> (blocks h) → laid_out p addr 0 0 0 h'.
Proof.
  intros (Hb & _) E. split; [|lia]. intros a z. rewrite E, Hb, lookup_insert_Some, lookup_empty. split.
  - intros [[-> <-]|[_ ?]]; [by left|done].
  - intros [[-> ->]|(k & ? & _)]; [by left|lia].
Qed.

(** C28. When every [malloc] succeeds the program returns after printing both messages, has
    written to at least 2^18 different pages of 4 KB, that is to 1 GB of memory, never
    accessed anything but allocated blocks, and has freed every block exactly once. *)
Theorem occupy_mem_occupies `{Malloc} junk h :
  fresh h → is_Some (malloc_at 0 (2 ^ 15)) → (∀ k, (k < rounds)%nat → is_Some (malloc_at (S k) (2 ^ 17))) →
  runs (main junk) h (λ _ h', blocks h' = ∅ ∧
    out h' = out h ++ ["Start to occupy 1GB memory." +:+ newline; "Releasing after 1s." +:+ newline] ∧
    2 ^ 18 <= Z.of_nat (size (list_to_set ((λ a, a / 4096) <$> stores h') : gset Z))).
Proof.
  intros Hfr [p Hp] Ha. pose proof Hfr as (Hb & Hm & Hs). set (addr k := default 0 (malloc_at (S k) (2 ^ 17))).
  assert (∀ k, (k < rounds)%nat → malloc_at (S k) (2 ^ 17) = Some (addr k)) as Haddr.
  { intros k Hk. unfold addr. by destruct (Ha k Hk) as [a ->]. }
  pose proof (malloc_range _ _ _ Hp) as [Hp0 _]. unfold main. apply runs_bind, runs_modify. apply runs_bind.
  change (Z.shiftl 1 15) with (2 ^ 15). eapply runs_ok; [unfold malloc; cbn [mallocs]; by rewrite Hm, Hp|]. cbn [blocks words stores out].
  rewrite (proj2 (Z.eqb_neq p 0)) by lia. cbn [negb when]. apply runs_bind, runs_bind.
  eapply runs_mono; [apply (alloc_loop_runs junk p addr Hp rounds (le_n _) Haddr rounds 0)|]; [lia|by eapply laid_out_start|done|].
  cbn [stores out]. intros _ h1 (Hl1 & Hs1 & Ho1 & _). apply runs_bind, runs_modify.
  eapply runs_mono; [apply (free_loop_runs junk p addr Hp rounds (le_n _) Haddr rounds 0)|]; [lia|by split; apply Hl1|].
  cbn [stores out]. intros _ h2 (Hl2 & Hs2 & Ho2).
  eapply runs_ok; [unfold free; rewrite bool_decide_true by (eexists; apply (lo_blocks _ _ _ _ _ _ Hl2); by left); done|].
  cbn [blocks stores out]. split_and!.
  - apply map_empty. intros a. destruct (delete p (blocks h2) !! a) as [z|] eqn:E; [|done].
    apply lookup_delete_Some in E as [Hne E]. apply (lo_blocks _ _ _ _ _ _ Hl2) in E as [[-> _]|(k & ? & _)]; [done|lia].
  - rewrite Ho2, Ho1, <- app_assoc. done.
  - rewrite Hs2, Hs1, Hs. cbn [app]. etrans; [|apply (pages_written p addr rounds (le_n _) Haddr)].
    unfold rounds. rewrite Z2Nat.id by done. done.
Qed.

(** When one of the 8192 blocks is refused, the program writes through the NULL pointer
    that [malloc] returned: the failure is not noticed before the first store, although the
    loop that frees the blocks allows for NULL. *)
Theorem occupy_mem_null_write `{Malloc} junk h i :
  fresh h → is_Some (malloc_at 0 (2 ^ 15)) → (i < rounds)%nat → (∀ k, (k < i)%nat → is_Some (malloc_at (S k) (2 ^ 17))) →
  malloc_at (S i) (2 ^ 17) = None → main junk h = Err NullDeref.
Proof.
  intros Hfr [p Hp] Hi Ha Hno. pose proof Hfr as (Hb & Hm & Hs). set (addr k := default 0 (malloc_at (S k) (2 ^ 17))).
  assert (∀ k, (k < i)%nat → malloc_at (S k) (2 ^ 17) = Some (addr k)) as Haddr.
  { intros k Hk. unfold addr. by destruct (Ha k Hk) as [a ->]. }
  pose proof (malloc_range _ _ _ Hp) as [Hp0 _]. unfold main. erewrite bind_Ok by reflexivity.
  change (Z.shiftl 1 15) with (2 ^ 15). erewrite bind_Ok by (unfold malloc; cbn [mallocs]; by rewrite Hm, Hp). cbn [blocks words stores out].
  rewrite (proj2 (Z.eqb_neq p 0)) by lia. apply bind_Err, bind_Err.
  replace rounds with (i + S (rounds - i - 1))%nat by lia.
  match goal with |- alloc_loop _ _ _ _ ?h0 = _ =>
    destruct (alloc_loop_runs junk p addr Hp i (Nat.lt_le_incl _ _ Hi) Haddr i 0 h0) as ([] & h1 & E & Hl & _ & _ & Hm1) end;
    [lia|by eapply laid_out_start|done|]. change (Z.of_nat 0) with 0 in E.
  rewrite (alloc_loop_app _ _ _ _ _ _ _ E).
  eapply (alloc_refused junk p addr Hp i (Nat.lt_le_incl _ _ Hi) Haddr); [done|done|exact Hl|exact Hm1].
Qed.

(** ** Examples *)

(** An allocator that grants the first [top] calls, up to 128 KB each, one after the other. *)
Definition bump_malloc (top : Z) (top_ok : top <= 8193) : Malloc.
Proof.
  refine {| malloc_at k n := if (Z.of_nat k <? top) && (0 <=? n) && (n <=? 131072) then Some (4096 + 131072 * Z.of_nat k) else None |}.
  - intros k n a. destruct (Z.ltb_spec (Z.of_nat k) top), (Z.leb_spec 0 n), (Z.leb_spec n 131072); try done. intros [= <-]. lia.
  - intros k k' n n' a a'. destruct (Z.ltb_spec (Z.of_nat k) top), (Z.leb_spec 0 n), (Z.leb_spec n 131072); try done. intros [= <-].
    destruct (Z.ltb_spec (Z.of_nat k') top), (Z.leb_spec 0 n'), (Z.leb_spec n' 131072); try done. intros [= <-] ?. lia.
Defined.

Definition no_heap : heap := Heap ∅ ∅ [] 0 [].

Lemma bump_grants top top_ok k n : Z.of_nat k < top → 0 <= n <= 131072 → is_Some (@malloc_at (bump_malloc top top_ok) k n).
Proof.
  intros. cbn. rewrite (proj2 (Z.ltb_lt _ _)), (proj2 (Z.leb_le 0 _)), (proj2 (Z.leb_le _ 131072)) by lia. by eexists.
Qed.

Lemma rounds_Z : Z.of_nat rounds = 8192.
Proof. unfold rounds. by rewrite Z2Nat.id. Qed.

Lemma occupy_mem_occupies_witness :
  runs (@main (bump_malloc 8193 ltac:(done)) (λ _, 0)) no_heap (λ _ h', blocks h' = ∅ ∧
    out h' = out no_heap ++ ["Start to occupy 1GB memory." +:+ newline; "Releasing after 1s." +:+ newline] ∧
    2 ^ 18 <= Z.of_nat (size (list_to_set ((λ a, a / 4096) <$> stores h') : gset Z))).
Proof.
  apply (@occupy_mem_occupies (bump_malloc 8193 ltac:(done)) (λ _, 0) no_heap); [done|by apply bump_grants|].
  intros k Hk. apply bump_grants; [pose proof rounds_Z; lia|done].
Defined.

Lemma occupy_mem_null_write_witness : @main (bump_malloc 2 ltac:(done)) (λ _, 0) no_heap = Err NullDeref.
Proof.
  apply (@occupy_mem_null_write (bump_malloc 2 ltac:(done)) (λ _, 0) no_heap 1); [done|by apply bump_grants| | |done].
  - pose proof rounds_Z. lia.
  - intros k Hk. apply bump_grants; [lia|done].
Defined.
